(* ===== verification/_CoqProject ===== *)
-Q . S2P
Prelude.v
Text.v
Common.v
Jsonl.v
Words.v
Checksum.v
BtPacket.v
OutputState.v
OutputFacts.v
OutputInv.v
OutputReports.v
ProtocolProps.v
Audio.v
AudioFacts.v
AudioStream.v
AudioProps.v
Log.v
Store.v
LinuxFs.v
WindowsFs.v
Config.v
ConfigFacts.v
ConfigFile.v
Control.v
ControlFacts.v
Supervisor.v
Ctl.v
ControlProps.v
ConfigProps.v
Profile.v
Bluez.v
BluezProps.v
UsbDescriptors.v
MicBuffer.v
Usbip.v
UsbipFacts.v
UsbipReply.v
UsbipSession.v
UsbipPacing.v
UsbipProps.v
Threads.v
KernelUsb.v
KernelHcd.v
KernelInv.v
KernelProps.v
LinuxIo.v
LinuxState.v
LinuxPort.v
LinuxDaemon.v
LinuxConnect.v
LinuxReload.v
LinuxLoop.v
LinuxInv.v
LinuxFacts.v
LinuxPortProps.v
LinuxDaemonInv.v
LinuxReloadFacts.v
LinuxDaemonFacts.v
LinuxDaemonProps.v
LinuxLoopProps.v
WinIo.v
WinState.v
WinBridge.v
WinAudio.v
WinInv.v
WinRounds.v
WinProps.v
WinDevices.v
WinTransport.v
WinWriter.v
WinSupervisor.v
WinLoop.v
WinService.v
WinSession.v
WinSupInv.v
WinSupFacts.v
WinSupRetry.v
WinSupStarve.v
WinSupFollow.v
WinSupProps.v
