(* ===== verification/Prelude.v ===== *)
(** * Verification of vds-usbip

    vds-usbip makes a DualSense controller that is connected over Bluetooth look
    like one on a USB cable.  A daemon per machine (vdsd) keeps a database of
    controllers, starts a worker for each that is online, and translates between
    the Bluetooth reports of the controller and the USB reports of a virtual port;
    a command line tool (vdsctl) talks to the daemon in JSON lines.  On Windows the
    virtual port is a USB/IP server inside the worker; on Linux one daemon serves
    all ports of a kernel module in an event loop.  This development models the code
    that all platforms share, the USB/IP server, the Linux and the Windows daemon, the
    Linux kernel module and the file layers as executable functions, what several threads do as machines whose
    moves are executable, and proves what they do.

    ** Conventions

    A C++ function that may throw is a function into [result]: a value or the text
    of the exception.  Code that changes state is a [prog S A], a function from the
    state to the new state and a result; an exception keeps the state as it is when
    it is thrown.  Machine integers are [Z] with their wrap-around written out
    (Words.v: [u8], [u16], [u32], [s16], ...); bytes are [Z] below 256; a
    [std::string] is a [string] of 8-bit characters; a vector or span is a list.
    Out-of-range accesses of the program do not occur: reads use [byte_at], whose
    default is never reached under the size conditions the code checks, and the
    layout theorems state the sizes.

    ** Files, and the sources they model

    - Prelude.v: results, stateful computations.
      Text.v: characters, prefixes, searching, decimal numbers.
    - Common.v (src/src/vds_common.cc): hexadecimal printing, decimal test.
    - Jsonl.v (src/src/jsonl.cc): the record parser, the printer and the field
      accessors.  The loops of the parser have as fuel one more than the length of
      the text; [parse_object_total] shows that it is never used up.
    - Words.v: machine words and byte lists.  Checksum.v (src/src/vds_protocol.cc):
      the CRC-32 table and the checksums of reports, against a bitwise CRC-32.
    - BtPacket.v (src/src/vds_protocol.cc, src/include/uapi/vds.h and the frame
      reader of src/src/platform/linux/vdsd.cc): Bluetooth HIDP packets and the
      frames exchanged with the kernel driver.
    - OutputState.v (class DsOutputState and HapticsPacketBuilder): the state sent
      to the controller and the reports built from it.  OutputFacts.v gives the
      state byte by byte after each operation, OutputInv.v the invariant [out_ok]
      and its preservation, OutputReports.v the layout of every report, and
      ProtocolProps.v the properties of these four.
    - Audio.v (PcmAudioExtractor, MicAudioDecoder): USB audio to speaker and haptics
      chunks, microphone frames to USB audio.  Opus is not part of the sources: the
      encoder and the decoder are parameters (class [Codecs]).  AudioFacts.v has the arithmetic,
      AudioStream.v the refinement of the buffering to a stream of frames cut into
      windows, AudioProps.v the properties.
    - Log.v (src/src/vds_log.cc): the text of a log record.
    - Store.v (src/src/vds_fs.hh): the interface of the file layer, a class with
      laws.  LinuxFs.v (src/src/platform/linux/vds_fs.cc): its Linux implementation
      over a file map and a list of system call outcomes, proved an instance.
      WindowsFs.v (src/src/platform/win32/vds_fs.cc): the Windows one, another
      instance; the laws let a platform make a file for its lock, as Windows does.
    - Config.v (src/src/vds_config.cc): the database, its text and its file, over any
      instance of the interface.  ConfigFacts.v refines the record list to a finite
      map; ConfigFile.v says what loading and updating can do to the file.
    - Supervisor.v (src/src/vdsd_common.cc): options, reported warnings, launch
      decisions, failure backoff.  ConfigProps.v: the properties of the parser, the
      database, its file and the supervisor.
    - Control.v (src/src/vdsd_common.cc): the control protocol.  A handler's state is
      the world of the files, the variables it gets by reference, and its locals.
      ControlFacts.v has the effect of each handler.
    - Ctl.v (src/src/vdsctl_common.cc): the command line tool, with what the
      daemon makes of its requests.  ControlProps.v: the properties of both.
    - Profile.v (src/src/vds_profile.hh): the device a modalias line names.
    - Bluez.v (src/src/platform/linux/vds_bluez.cc): what is asked of BlueZ over
      D-Bus; a message is the tree of its values.  BluezProps.v: that the objects
      BlueZ manages, encoded in a reply, are read back, and the properties.
    - UsbDescriptors.v (src/include/vds/ds5_usb.h): the descriptor tables.
      MicBuffer.v and Usbip.v (src/src/platform/win32/vds_usbip.cc): the jitter
      buffer of the microphone, and the server: import, sessions, requests, pacing,
      the frames of the worker.  What the other threads did up to a point is part of
      the state, as lists of frames that arrive and times that pass.  UsbipFacts.v,
      UsbipReply.v, UsbipSession.v, UsbipPacing.v have
      the facts on messages and sound, replies, sessions, pacing and the invariant;
      UsbipProps.v the properties.
    - LinuxIo.v (src/src/platform/linux/vds_io.cc, vds_bt.cc): system calls over
      lists of answers, writing in full or at once, the channels of a controller, and
      what is made of udev's answers (vds_udev.cc).
    - LinuxState.v and LinuxPort.v (src/src/platform/linux/vdsd.cc): a virtual port,
      the frames of the driver, the packets of the controller, late reports, the
      queue of audio chunks.  LinuxDaemon.v: the state of the daemon - ports,
      controllers, what the system answers - and the look-ups.  LinuxConnect.v:
      profiles, the first reports, accepting channels.  LinuxReload.v: endpoints and
      database.  LinuxLoop.v: epoll, the wait, the dispatch of events, [main].
    - Threads.v: threads as sequences of critical sections, their interleaving, the
      rules for what holds in every interleaving, and triples of a stateful computation.
    - WinIo.v (src/src/platform/win32/vds_io.cc): overlapped reads and writes of a handle,
      and frames over it.  WinState.v (src/src/platform/win32/vdsd.cc): the state of a
      worker and the world it acts on.  WinBridge.v: the frames of the host and of the
      controller, each handler a thread of critical sections.  WinAudio.v: the audio
      thread, the test tone, the summary and the rounds of the loops.
      WinInv.v: the invariant of a worker and that every critical section keeps it.
      WinRounds.v: the interleaving of the three threads.  WinProps.v: the properties.
    - WinDevices.v (src/src/platform/win32/vds_bt.cc, vds_win32.cc, and the look-ups of
      vdsd.cc): the controllers and ports a Windows machine has, and what the plain
      discovery finds.
    - WinTransport.v (class HidBluetoothTransport of src/src/platform/win32/vds_bt.cc): the
      capabilities of a HID device, feature reports, reading with reconnects, the queue of
      output reports.  WinWriter.v: its writer thread, the threads that send reports and
      those that stop or destroy it, as a machine of threads, a lock and a condition variable.
    - WinService.v (src/src/platform/win32/vdsd.cc): options, the Windows service and its
      states, the thread of the control pipe, and what precedes the threads of a session:
      binding a port, HidHide, attaching the USB/IP client, the color of the controller.
      WinSession.v: a session ([run_bridge_session]), its stop monitor and its three threads
      as a machine.
    - WinSupervisor.v and WinLoop.v (src/src/platform/win32/vdsd.cc): the supervisor that
      starts and ends workers - its state, the threads beside it, the commands it answers
      and the queue of its control pipe, its loop.  What the other threads do up to the
      next reading of something shared is a list in the state, so every interleaving is
      covered.  WinSupInv.v: what other
      threads and the parts of a round leave alone.  WinSupFacts.v: the invariant and
      the queue.  WinSupRetry.v: failed workers.  WinSupStarve.v: the database's text, and
      an expired backoff.  WinSupFollow.v: workers and the database, and the wait.
      WinSupProps.v: the properties.
    - KernelUsb.v (src/module/vds_usb_core.c, vds_usb.h, vds_controller.h, dualsense.c,
      dualsense_edge.c): the device the Linux kernel module shows to the host and its
      control transfers, over a class of what the host controller offers.  KernelHcd.v
      (src/module/vds_hcd_core.c): the host controller, an instance of it - URBs, the
      giveback thread, sound, input, the character device, the root hub, loading.  Each
      section under the lock is a step of a thread; use of freed memory throws.
      KernelInv.v: the invariant of both and that every section keeps it.  KernelProps.v:
      the properties.
    - LinuxInv.v: the invariant of a port; LinuxDaemonInv.v: that of the daemon.
      LinuxFacts.v: what writes send, that their loops end, the queue in closed form, the
      effect of an input report.  LinuxReloadFacts.v: a reload in
      closed form.  LinuxDaemonFacts.v: connecting, and what an operation leaves
      alone.  LinuxPortProps.v, LinuxDaemonProps.v and LinuxLoopProps.v: the
      properties.

    ** Parameters, bounds and fuel

    Parameters of the model are the Opus codec, the samples of the test tone ([sin]),
    the gain of a volume ([pow]), the parent of a Windows path, and for the control
    protocol the list of controllers BlueZ knows, which the Linux daemon asks Bluez.v
    for; on Windows also the texts of error numbers, the environment and [atof].  The answers of system calls are lists in the state, arbitrary in every theorem.  A
    loop over answers has one round more than there are answers (a full write two),
    which [loops_end] shows to be enough; an exact read or write of a handle has one more
    than there are bytes, since each operation moves at least one; waiting for BlueZ to release a controller
    has 21 rounds, since each but the last sleeps a twentieth of the two seconds it may
    take, and [preempt_wait_returns] uses it; the 64 frames or packets per wake are
    the program's own bound.  The queue of the Windows control pipe is emptied in as many rounds
    as there are commands that wait or still come, which [commands_answered_in_order] shows
    to be enough; the supervisor itself runs for any number of rounds.  Waiting for the
    USB/IP client has 81 rounds, since each but the last sleeps an eightieth of the eight
    seconds there are ([attach_wait_ends]); the options of the Windows daemon are read in
    as many rounds as [parse_platform_args_total] shows to be enough.  A session and a
    writer are machines: their theorems hold of every sequence of moves, and those on
    their end bound the moves left.

    ** What the theorems show

    - Control: every attach and detach request is answered, changes the database by
      exactly one map insert or delete or not at all, and asks for a reload exactly
      when it answers OK; a request the tool prints is understood as the record its
      arguments denote.
    - Database: the text is a faithful encoding of a finite map from normalized
      addresses to settings; updates of the file are atomic under any failure, on both
      platforms.
    - BlueZ: the targets listed are a function of the objects managed, and a device is
      disconnected by its address alone.
    - Parsers and printers: round trips for records, database texts, port lists,
      port paths, scopes, frames, log records and modalias lines; the record parser
      terminates.
    - Controller state and reports: an invariant kept by every operation, the byte
      by byte effect of a host report, the layout and the checksum of every report,
      and that the checksum finds every change within four neighbouring bytes.
    - Audio: results do not depend on how the stream is cut into transfers; each
      window gives one chunk of its own samples; the resamplers stay in range.
    - USB/IP: every request is answered by one message the client reads back; a
      session on bytes is the handling of the messages they encode; isochronous
      replies are sent once, in order and at their rate; the microphone stream keeps
      its order; the queues stay bounded.
    - Linux ports: a port stays well-formed under every frame and packet; the newest
      state of the controller is sent or waits; input reports reach USB; feature
      reports are fetched once; the newest audio is kept and sent at its pace.
    - Windows worker: under every interleaving of its threads the state stays well-formed
      and only well-formed packets are sent; audio is paced, a drained stream is closed;
      static feature reports are fetched once; muting requests are carried out once;
      frames survive any splitting of the operations on a handle.
    - Windows transport: a read reconnects and gives a report of its controller or an
      error; output reports are written whole, in order and once, the queue stays bounded,
      every accepted report but dropped audio is written unless the transport fails or is
      stopped, and a stopped writer ends.
    - Windows session and service: a session that ends leaves no thread and nothing held, a
      stopped one comes to its end, and where it does not: a cancellation that comes just
      before a read; the service goes through its states in order and reports its stop.
    - Windows supervisor: no two workers share a controller or a port; commands are
      answered once and in order; it waits without end only when nothing is left to do; its
      workers follow the database, and a scan that failed is repeated within a second; a
      failed worker's controller waits a second; and
      where it goes wrong, an expired backoff that nothing removes.
    - Linux kernel module: under every interleaving of its entry points each URB is where
      its state says, given back once at most and never lost; a feature report is asked of
      the controller once and then comes from the cache until a reset; the newest input
      report reaches the host in its time; transfers are given back in the order of their
      times; sound goes both ways byte for byte, in order, at its rate and within bounds;
      disconnecting completes what waits; frames cross the character device unchanged; and
      where it goes wrong: a URB that is unlinked while it is submitted, replies the cache
      keeps too long, a report id that is sent twice.
    - Linux daemon: no two controllers share a port; a controller connects completely,
      its reports fetched and its state sent first, or not at all; a reload follows the database and keeps connections; a Bluetooth
      error costs one connection; the table of descriptors is exact; the wait is
      neither late nor busy; the loops end.

    ** What is not modelled

    The Windows kernel drivers, whose meaning lies in the callbacks of their framework,
    packaging and the tray application.  Of the Linux kernel module: waking threads, the
    module's parameters, the USB core and the memory behind URBs; the clock a section uses
    is read in it.  Of the modelled parts: the text of the daemon's log lines and the statistics only
    they use, usage texts, opening and rotating the log, the signals of Linux, making and
    binding sockets, the Opus codec, the D-Bus and udev libraries, the threads and sockets of
    the USB/IP server, and memory exhaustion outside the kernel.  Of the Windows daemon: the priorities of
    threads and the resolution of timers. *)
From stdpp Require Import base list strings numbers gmap.
From Stdlib Require Import Ascii ZArith Lia.

(** ** Exceptions

    A function of the program that may [throw] returns a [result]: the value,
    or the text of the exception's [what()]. *)
Inductive result (A : Type) : Type :=
  | Ok (a : A)
  | Throw (what : string).
Arguments Ok {A} a.
Arguments Throw {A} what.

#[export] Instance result_ret : MRet result := fun A a => Ok a.
#[export] Instance result_bind : MBind result := fun A B f m =>
  match m with Ok a => f a | Throw e => Throw e end.
#[export] Instance result_fmap : FMap result := fun A B f m =>
  match m with Ok a => Ok (f a) | Throw e => Throw e end.

(** [try { m } catch (const std::exception &e) { h(e.what()) }] *)
Definition result_catch {A} (m : result A) (h : string -> A) : A :=
  match m with Ok a => a | Throw e => h e end.

Definition is_ok {A} (m : result A) : bool :=
  match m with Ok _ => true | Throw _ => false end.

#[export] Instance result_eq_dec `{EqDecision A} : EqDecision (result A).
Proof. solve_decision. Defined.

(** ** Stateful code that may throw

    [prog S A] is a computation over the state [S]; an exception keeps the
    state as it was when the exception was thrown, as in C++. *)
Definition prog (S A : Type) : Type := S -> S * result A.

#[export] Instance prog_ret {S} : MRet (prog S) := fun A a s => (s, Ok a).
#[export] Instance prog_bind {S} : MBind (prog S) := fun A B f m s =>
  match m s with
  | (s', Ok a) => f a s'
  | (s', Throw e) => (s', Throw e)
  end.

Definition throw {S A} (e : string) : prog S A := fun s => (s, Throw e).
Definition lift {S A} (m : result A) : prog S A := fun s => (s, m).
Definition get_state {S} : prog S S := fun s => (s, Ok s).
Definition modify {S} (f : S -> S) : prog S unit := fun s => (f s, Ok tt).
Definition try_catch {S A} (m : prog S A) (h : string -> prog S A) : prog S A :=
  fun s => match m s with
           | (s', Throw e) => h e s'
           | r => r
           end.

Lemma result_bind_ok {A B} (m : result A) (f : A -> result B) b :
  m ≫= f = Ok b <-> exists a, m = Ok a /\ f a = Ok b.
Proof. destruct m; simpl; split; naive_solver. Qed.

Lemma prog_bind_ok {S A B} (m : prog S A) (f : A -> prog S B) s s' b :
  (m ≫= f) s = (s', Ok b) <-> exists s1 a, m s = (s1, Ok a) /\ f a s1 = (s', Ok b).
Proof.
  unfold mbind, prog_bind. destruct (m s) as [s1 [a|e]]; split; naive_solver.
Qed.

Lemma prog_bind_throw {S A B} (m : prog S A) (f : A -> prog S B) s s' e :
  (m ≫= f) s = (s', Throw e) <->
  m s = (s', Throw e) \/ exists s1 a, m s = (s1, Ok a) /\ f a s1 = (s', Throw e).
Proof.
  unfold mbind, prog_bind. destruct (m s) as [s1 [a|e']]; split; naive_solver.
Qed.

(** [preserves R m]: the state after [m] is related to the one before, whether [m]
    returns or throws. *)
Definition preserves {S A} (R : S -> S -> Prop) (m : prog S A) : Prop :=
  forall s, R s (fst (m s)).

Section Preserves.
Context {S : Type} (R : S -> S -> Prop) `{!PreOrder R}.

Lemma preserves_ret {A} (a : A) : preserves R (mret a).
Proof. intros s. apply PreOrder_Reflexive. Qed.

Lemma preserves_get : preserves R get_state.
Proof. intros s. apply PreOrder_Reflexive. Qed.

Lemma preserves_throw {A} e : preserves R (throw e : prog S A).
Proof. intros s. apply PreOrder_Reflexive. Qed.

Lemma preserves_modify f : (forall s, R s (f s)) -> preserves R (modify f).
Proof. intros Hf s. apply Hf. Qed.

Lemma preserves_bind {A B} (m : prog S A) (f : A -> prog S B) :
  preserves R m -> (forall a, preserves R (f a)) -> preserves R (m ≫= f).
Proof.
  intros Hm Hf s. specialize (Hm s). unfold mbind, prog_bind.
  destruct (m s) as [s1 [a|e]]; cbn [fst] in *; [|exact Hm].
  eapply PreOrder_Transitive; [exact Hm|apply Hf].
Qed.

Lemma preserves_catch {A} (m : prog S A) h :
  preserves R m -> (forall e, preserves R (h e)) -> preserves R (try_catch m h).
Proof.
  intros Hm Hh s. specialize (Hm s). unfold try_catch.
  destruct (m s) as [s1 [a|e]]; cbn [fst] in *; [exact Hm|].
  eapply PreOrder_Transitive; [exact Hm|apply Hh].
Qed.
End Preserves.

Create HintDb preserves.
#[export] Hint Resolve preserves_ret preserves_get preserves_throw preserves_catch : preserves.
#[export] Hint Extern 2 (PreOrder _) => typeclasses eauto : preserves.

(** Goes through a computation: binds, branches, then the hints of the database. *)
Ltac solve_preserves :=
  repeat first
    [ progress auto with preserves
    | lazymatch goal with |- preserves _ (_ ≫= _) => idtac end;
      apply preserves_bind; [try typeclasses eauto| |intros; cbv beta zeta]
    | lazymatch goal with |- preserves _ (try_catch _ _) => idtac end;
      apply preserves_catch; [try typeclasses eauto| |intros; cbv beta zeta]
    | case_match ].

(** A computation that keeps a predicate of the state. *)
Definition keeps {S} (I : S -> Prop) (s s' : S) : Prop := I s -> I s'.
#[export] Instance keeps_preorder {S} (I : S -> Prop) : PreOrder (keeps I).
Proof. split; [intros s H; exact H|]. intros s1 s2 s3 H12 H23 H. by apply H23, H12. Qed.

(** [gives I Q m]: [m] keeps [I], and from there the values it returns satisfy [Q]. *)
Definition gives {S A} (I : S -> Prop) (Q : A -> Prop) (m : prog S A) : Prop :=
  forall s, I s -> I (fst (m s)) /\ forall a, snd (m s) = Ok a -> Q a.

Lemma preserves_bind_gives {S A B} (I : S -> Prop) (Q : A -> Prop) (m : prog S A) (f : A -> prog S B) :
  gives I Q m -> (forall a, Q a -> preserves (keeps I) (f a)) -> preserves (keeps I) (m ≫= f).
Proof.
  intros Hm Hf s Hs. destruct (Hm s Hs) as [Hi Hq]. unfold mbind, prog_bind.
  destruct (m s) as [s1 [a|e]]; cbn [fst snd] in *; [|exact Hi]. by apply (Hf a (Hq a eq_refl)).
Qed.

Lemma gives_bind {S A B} (I : S -> Prop) (Q : A -> Prop) (Q' : B -> Prop) (m : prog S A) (f : A -> prog S B) :
  gives I Q m -> (forall a, Q a -> gives I Q' (f a)) -> gives I Q' (m ≫= f).
Proof.
  intros Hm Hf s Hs. destruct (Hm s Hs) as [Hi Hq]. unfold mbind, prog_bind.
  destruct (m s) as [s1 [a|e]]; cbn [fst snd] in *; [|done]. by apply (Hf a (Hq a eq_refl)).
Qed.

Lemma gives_get {S A} (I : S -> Prop) (Q : A -> Prop) (f : S -> prog S A) :
  (forall s, I s -> I (fst (f s s)) /\ forall a, snd (f s s) = Ok a -> Q a) ->
  gives I Q (get_state ≫= f).
Proof. intros Hf s Hs. exact (Hf s Hs). Qed.

Lemma preserves_gives {S A} (I : S -> Prop) (m : prog S A) :
  preserves (keeps I) m -> gives I (fun _ => True) m.
Proof. intros Hm s Hs. split; [by apply Hm|done]. Qed.

(** [returns m s Q]: started in [s], [m] returns, and [Q] holds of the state and the
    value it returns. *)
Definition returns {S A} (m : prog S A) (s : S) (Q : S -> A -> Prop) : Prop :=
  exists s' a, m s = (s', Ok a) /\ Q s' a.

Section Returns.
Context {S A B : Type}.
Implicit Types (s : S) (a : A) (b : B).

Lemma returns_ret a s (Q : S -> A -> Prop) : Q s a -> returns (mret a) s Q.
Proof. intros HQ. by exists s, a. Qed.

Lemma returns_get s (Q : S -> S -> Prop) : Q s s -> returns get_state s Q.
Proof. intros HQ. by exists s, s. Qed.

Lemma returns_modify f s (Q : S -> unit -> Prop) : Q (f s) tt -> returns (modify f) s Q.
Proof. intros HQ. by exists (f s), tt. Qed.

Lemma returns_bind (m : prog S A) (f : A -> prog S B) s (Q : S -> B -> Prop) :
  returns m s (fun s' a => returns (f a) s' Q) -> returns (m ≫= f) s Q.
Proof.
  intros (s1 & a & Hm & s2 & b & Hf & HQ). exists s2, b. split; [|done].
  unfold mbind, prog_bind. by rewrite Hm.
Qed.

Lemma returns_weaken (m : prog S A) s (Q Q' : S -> A -> Prop) :
  returns m s Q -> (forall s' a, Q s' a -> Q' s' a) -> returns m s Q'.
Proof. intros (s' & a & Hm & HQ) HQ'. exists s', a. auto. Qed.

Lemma returns_preserves (R : S -> S -> Prop) (m : prog S A) s (Q : S -> A -> Prop) :
  preserves R m -> returns m s Q -> returns m s (fun s' a => R s s' /\ Q s' a).
Proof.
  intros HR (s' & a & Hm & HQ). exists s', a. specialize (HR s). rewrite Hm in HR. auto.
Qed.
End Returns.
