(* ===== verification/Text.v ===== *)
(** Text: the parts of [<cctype>] and [std::string] the sources use, over
    byte strings, and their lemmas.  Characters are 8-bit; the classification
    functions are those of the "C" locale, which no source file changes. *)
From stdpp Require Import base list strings numbers.
From Stdlib Require Import Ascii ZArith Lia.
From S2P Require Import Prelude.

Local Open Scope Z_scope.

(** ** Characters *)

(** [static_cast<unsigned char>(ch)] and its inverse on 0..255. *)
Definition code (c : ascii) : Z := Z.of_N (N_of_ascii c).
Definition chr (z : Z) : ascii := ascii_of_N (Z.to_N z).

Definition isspace (c : ascii) : bool :=
  (code c =? 32) || ((9 <=? code c) && (code c <=? 13)).
Definition isdigit (c : ascii) : bool := (48 <=? code c) && (code c <=? 57).
Definition is_lower_hex (c : ascii) : bool := (97 <=? code c) && (code c <=? 102).
Definition is_upper_hex (c : ascii) : bool := (65 <=? code c) && (code c <=? 70).
Definition isxdigit (c : ascii) : bool :=
  isdigit c || is_lower_hex c || is_upper_hex c.
Definition tolower (c : ascii) : ascii :=
  if (65 <=? code c) && (code c <=? 90) then chr (code c + 32) else c.

Lemma code_range c : 0 <= code c < 256.
Proof.
  unfold code. pose proof (N_ascii_bounded c). lia.
Qed.

Lemma chr_code c : chr (code c) = c.
Proof. unfold chr, code. by rewrite N2Z.id, ascii_N_embedding. Qed.

Lemma code_chr z : 0 <= z < 256 -> code (chr z) = z.
Proof.
  intros Hz. unfold chr, code. rewrite N_ascii_embedding by lia. lia.
Qed.

Lemma code_inj c d : code c = code d -> c = d.
Proof. intros H. by rewrite <- (chr_code c), H, chr_code. Qed.

(** Decide a closed question about one character by looking at all 256. *)
Ltac by_cases_on_char c := destruct c as [[] [] [] [] [] [] [] []]; vm_compute.

(** The values of a small number, one case each. *)
Lemma below_cases (i n : Z) : 0 <= i < n -> i ∈ (Z.of_nat <$> seq 0 (Z.to_nat n)).
Proof.
  intros Hi. apply list_elem_of_fmap. exists (Z.to_nat i). split; [lia|].
  apply elem_of_seq. lia.
Qed.
Ltac by_cases_below i n :=
  let H := fresh "Hcase" in
  pose proof (below_cases i n ltac:(lia)) as H;
  let l := eval vm_compute in (Z.of_nat <$> seq 0 (Z.to_nat n)) in
  change (Z.of_nat <$> seq 0 (Z.to_nat n)) with l in H;
  repeat (apply elem_of_cons in H as [->|H]); [..|by apply elem_of_nil in H].

(** ** Strings *)

Lemma str_app_cons c (s t : string) : String c s +:+ t = String c (s +:+ t).
Proof. done. Qed.

Lemma str_app_nil_l (t : string) : "" +:+ t = t.
Proof. done. Qed.

Lemma str_app_assoc (s t u : string) : (s +:+ t) +:+ u = s +:+ (t +:+ u).
Proof. induction s as [|c s IH]; [done|]. by rewrite !str_app_cons, IH. Qed.

Lemma str_app_nil_r (s : string) : s +:+ "" = s.
Proof. induction s as [|c s IH]; [done|]. by rewrite str_app_cons, IH. Qed.

Lemma str_length_app (s t : string) :
  String.length (s +:+ t) = (String.length s + String.length t)%nat.
Proof. induction s as [|c s IH]; [done|]. rewrite str_app_cons. simpl. by rewrite IH. Qed.

Lemma str_app_inj_r (s t u : string) : s +:+ t = s +:+ u -> t = u.
Proof. induction s as [|c s IH]; [done|]. rewrite !str_app_cons. naive_solver. Qed.

Create Rewrite HintDb text.
#[export] Hint Rewrite str_app_assoc str_app_nil_r str_app_cons str_app_nil_l : text.

(** [text.push_back(ch)] *)
Definition push_back (s : string) (c : ascii) : string := s +:+ String c "".

Lemma push_back_app s c t : push_back s c +:+ t = s +:+ String c t.
Proof. unfold push_back. by rewrite str_app_assoc. Qed.
#[export] Hint Rewrite push_back_app : text.

(** Every character of the string satisfies [P]. *)
Fixpoint str_forall (P : ascii -> bool) (s : string) : bool :=
  match s with
  | EmptyString => true
  | String c s' => P c && str_forall P s'
  end.

Lemma str_forall_app P s t :
  str_forall P (s +:+ t) = str_forall P s && str_forall P t.
Proof.
  induction s as [|c s IH]; [done|]. rewrite str_app_cons. simpl.
  by rewrite IH, andb_assoc.
Qed.
#[export] Hint Rewrite str_forall_app : text.

Lemma str_forall_impl (P Q : ascii -> bool) s :
  (forall c, P c = true -> Q c = true) -> str_forall P s = true -> str_forall Q s = true.
Proof.
  intros HPQ. induction s as [|c s IH]; [done|]. simpl.
  rewrite !andb_true_iff. intros [Hc Hs]. split; auto.
Qed.

(** [text.rfind(prefix, 0) == 0], with the text behind the prefix. *)
Fixpoint strip_prefix (p s : string) : option string :=
  match p, s with
  | EmptyString, _ => Some s
  | String a p', String b s' => if decide (a = b) then strip_prefix p' s' else None
  | String _ _, EmptyString => None
  end.

Lemma strip_prefix_app p s : strip_prefix p (p +:+ s) = Some s.
Proof.
  induction p as [|c p IH]; [done|]. rewrite str_app_cons. simpl.
  by rewrite decide_True.
Qed.

Lemma strip_prefix_Some p s r : strip_prefix p s = Some r <-> s = p +:+ r.
Proof.
  split; [|intros ->; apply strip_prefix_app].
  revert s. induction p as [|a p IH]; intros s; simpl; [naive_solver|].
  destruct s as [|b s]; [done|]. case_decide; [|done]. subst.
  intros ->%IH. done.
Qed.

(** [text.find(ch)]: the text before the first [ch] and the text after it. *)
Fixpoint split_at (c : ascii) (s : string) : string * option string :=
  match s with
  | EmptyString => ("", None)
  | String d s' =>
      if decide (d = c) then ("", Some s')
      else let '(l, r) := split_at c s' in (String d l, r)
  end.

Lemma split_at_none c s :
  str_forall (fun d => bool_decide (d <> c)) s = true -> split_at c s = (s, None).
Proof.
  induction s as [|d s IH]; [done|]. simpl. intros [Hd Hs]%andb_true_iff.
  apply bool_decide_eq_true in Hd. rewrite decide_False by done. by rewrite IH.
Qed.

Lemma split_at_app c s t :
  str_forall (fun d => bool_decide (d <> c)) s = true ->
  split_at c (s +:+ String c t) = (s, Some t).
Proof.
  induction s as [|d s IH]; simpl.
  - intros _. by rewrite decide_True.
  - intros [Hd Hs]%andb_true_iff. apply bool_decide_eq_true in Hd.
    rewrite decide_False by done. by rewrite IH.
Qed.

(** ** Decimal numbers *)

(** [std::to_string] of an unsigned number. *)
Fixpoint dec_digits (fuel : nat) (n : Z) (acc : string) : string :=
  match fuel with
  | O => acc
  | S f =>
      let acc' := String (chr (48 + n mod 10)) acc in
      if n <? 10 then acc' else dec_digits f (n / 10) acc'
  end.
Definition to_string (n : Z) : string := dec_digits (S (Z.to_nat (Z.log2 n))) n "".

(** The value a string of decimal digits denotes, read from the left. *)
Fixpoint dec_value (s : string) (v : Z) : Z :=
  match s with
  | EmptyString => v
  | String c s' => dec_value s' (v * 10 + (code c - 48))
  end.

Lemma digit_code n : code (chr (48 + n mod 10)) = 48 + n mod 10.
Proof. apply code_chr. pose proof (Z.mod_pos_bound n 10). lia. Qed.

Lemma dec_digits_value f n acc :
  0 <= n < 2 ^ Z.of_nat f -> dec_value (dec_digits f n acc) 0 = dec_value acc n.
Proof.
  revert n acc. induction f as [|f IH]; intros n acc Hn.
  - simpl in Hn. assert (n = 0) as -> by lia. done.
  - cbn [dec_digits]. destruct (Z.ltb_spec n 10).
    + simpl. rewrite digit_code. f_equal. rewrite Z.mod_small; lia.
    + rewrite IH.
      * simpl. rewrite digit_code. f_equal. pose proof (Z.div_mod n 10). lia.
      * rewrite Nat2Z.inj_succ, Z.pow_succ_r in Hn by lia.
        split; [apply Z.div_pos; lia|]. apply Z.div_lt_upper_bound; lia.
Qed.

Lemma to_string_value n : 0 <= n -> dec_value (to_string n) 0 = n.
Proof.
  intros Hn. unfold to_string. apply dec_digits_value.
  split; [done|]. rewrite Nat2Z.inj_succ, Z2Nat.id by apply Z.log2_nonneg.
  destruct (decide (n = 0)) as [->|]; [done|]. apply Z.log2_spec. lia.
Qed.

Lemma dec_digits_isdigit f n acc :
  str_forall isdigit acc = true -> str_forall isdigit (dec_digits f n acc) = true.
Proof.
  revert n acc. induction f as [|f IH]; intros n acc Hacc; [done|]. cbn [dec_digits].
  assert (str_forall isdigit (String (chr (48 + n mod 10)) acc) = true).
  { simpl. rewrite Hacc, andb_true_r. unfold isdigit. rewrite digit_code.
    pose proof (Z.mod_pos_bound n 10). lia. }
  destruct (n <? 10); auto.
Qed.

Lemma to_string_isdigit n : str_forall isdigit (to_string n) = true.
Proof. by apply dec_digits_isdigit. Qed.

Lemma dec_digits_cons f n acc : exists c s, dec_digits (S f) n acc = String c s.
Proof.
  revert n acc. induction f as [|f IH]; intros n acc.
  - cbn. destruct (n <? 10); eauto.
  - cbn [dec_digits]. destruct (n <? 10); [eauto|]. apply IH.
Qed.

Lemma to_string_cons n : exists c s, to_string n = String c s.
Proof. apply dec_digits_cons. Qed.

Lemma dec_value_ge s v : str_forall isdigit s = true -> 0 <= v -> v <= dec_value s v.
Proof.
  revert v. induction s as [|c s IH]; intros v; simpl; [lia|].
  intros [Hc Hs]%andb_true_iff Hv. unfold isdigit in Hc.
  specialize (IH (v * 10 + (code c - 48)) Hs). lia.
Qed.
