(* ===== verification/Common.v ===== *)
(** Shared formatting helpers (src/src/vds_common.cc). *)
From stdpp Require Import base list strings numbers.
From Stdlib Require Import Ascii ZArith Lia.
From S2P Require Import Prelude Text.

Local Open Scope Z_scope.

Definition kHexDigits : string := "0123456789abcdef".

(** [kHexDigits[index]] for an index already masked to four bits. *)
Definition hex_digit (index : Z) : ascii :=
  match String.get (Z.to_nat index) kHexDigits with Some c => c | None => "000"%char end.

Definition append_byte_hex_digits (text : string) (value : Z) : string :=
  push_back (push_back text (hex_digit (Z.land (Z.shiftr value 4) 0x0f)))
            (hex_digit (Z.land value 0x0f)).

Definition is_decimal_number (text : string) : bool :=
  negb (bool_decide (text = "")) && str_forall isdigit text.

Definition hex_u8 (value : Z) : string := append_byte_hex_digits "0x" value.

Definition hex_u16 (value : Z) : string :=
  push_back (push_back (push_back (push_back "0x"
    (hex_digit (Z.land (Z.shiftr value 12) 0x0f)))
    (hex_digit (Z.land (Z.shiftr value 8) 0x0f)))
    (hex_digit (Z.land (Z.shiftr value 4) 0x0f)))
    (hex_digit (Z.land value 0x0f)).

(** The loop of [hex_bytes] from position [index]; separator 0 means none. *)
Fixpoint hex_bytes_loop (separator : ascii) (first : bool) (bytes : list Z)
    (text : string) : string :=
  match bytes with
  | [] => text
  | b :: rest =>
      let text1 :=
        if negb first && negb (bool_decide (separator = "000"%char))
        then push_back text separator else text in
      hex_bytes_loop separator false rest (append_byte_hex_digits text1 b)
  end.

Definition hex_bytes (bytes : list Z) (max_bytes : nat) (separator : ascii)
    (append_ellipsis : bool) : string :=
  let count := Nat.min (length bytes) max_bytes in
  let text := hex_bytes_loop separator true (take count bytes) "" in
  if append_ellipsis && (max_bytes <? length bytes)%nat
  then text +:+ " ..." else text.

(** ** Lemmas *)

Lemma hex_digit_code i :
  0 <= i < 16 ->
  code (hex_digit i) = if i <? 10 then 48 + i else 87 + i.
Proof.
  intros Hi.
  by_cases_below i 16; reflexivity.
Qed.
