(* ===== verification/Jsonl.v ===== *)
(** JSON-lines records (src/src/jsonl.cc): the parser for one flat object per
    line and the field printers.

    A parser gets the text that is still unread, [text.substr(offset)] of the
    source, and returns its value with what is left of it. *)
From stdpp Require Import base list strings numbers.
From Stdlib Require Import Ascii ZArith Lia.
From S2P Require Import Prelude Text Common.

Local Open Scope Z_scope.

Definition parser (A : Type) : Type := string -> result (A * string).

(** ** Data *)

Record JsonlValue := mk_value {
  string_value : string;
  array_value : list Z;
  is_array : bool
}.

Record JsonlField := mk_field {
  key : string;
  value : JsonlValue
}.

#[export] Instance JsonlValue_eq_dec : EqDecision JsonlValue.
Proof. solve_decision. Defined.
#[export] Instance JsonlField_eq_dec : EqDecision JsonlField.
Proof. solve_decision. Defined.

(** The characters the grammar names. *)
Definition c_quote : ascii := "034"%char.
Definition c_backslash : ascii := "092"%char.
Definition c_newline : ascii := "010"%char.
Definition quote : string := String c_quote "".

(** ** Parsing *)

Definition context_suffix (context : string) : string :=
  if decide (context = "") then "" else " in " +:+ context.

Fixpoint skip_jsonl_space (text : string) : string :=
  match text with
  | String c rest => if isspace c then skip_jsonl_space rest else text
  | EmptyString => EmptyString
  end.

Definition require_jsonl_char (expected : ascii) (context : string) : parser unit :=
  fun text =>
    match skip_jsonl_space text with
    | String c rest =>
        if decide (c = expected) then Ok (tt, rest)
        else Throw ("invalid JSON object" +:+ context_suffix context)
    | EmptyString => Throw ("invalid JSON object" +:+ context_suffix context)
    end.

Definition parse_jsonl_escape (escape : ascii) (context : string) : result ascii :=
  if decide (escape = c_quote) then Ok escape
  else if decide (escape = c_backslash) then Ok escape
  else if decide (escape = "/"%char) then Ok escape
  else if decide (escape = "b"%char) then Ok "008"%char
  else if decide (escape = "f"%char) then Ok "012"%char
  else if decide (escape = "n"%char) then Ok "010"%char
  else if decide (escape = "r"%char) then Ok "013"%char
  else if decide (escape = "t"%char) then Ok "009"%char
  else Throw ("unsupported JSON escape" +:+ context_suffix context).

Definition parse_jsonl_hex_digit (ch : ascii) (context : string) : result Z :=
  if isdigit ch then Ok (code ch - 48)
  else if is_lower_hex ch then Ok (code ch - 97 + 10)
  else if is_upper_hex ch then Ok (code ch - 65 + 10)
  else Throw ("invalid JSON unicode escape" +:+ context_suffix context).

(** The four-iteration loop of the [\u] escape: [code_point] is shifted left by
    four bits and the next digit is or-ed in. *)
Definition parse_jsonl_code_point (h1 h2 h3 h4 : ascii) (context : string) : result Z :=
  let step (acc : Z) (h : ascii) : result Z :=
    d ← parse_jsonl_hex_digit h context; Ok (Z.lor (Z.shiftl acc 4) d) in
  a1 ← step 0 h1; a2 ← step a1 h2; a3 ← step a2 h3; step a3 h4.

(** The loop of [parse_jsonl_string], behind the opening quote. *)
Fixpoint parse_jsonl_string_loop (context : string) (text value : string) :
    result (string * string) :=
  match text with
  | EmptyString => Throw ("unterminated JSON string" +:+ context_suffix context)
  | String ch rest =>
      if decide (ch = c_quote) then Ok (value, rest)
      else if decide (ch = c_backslash) then
        match rest with
        | EmptyString => Throw ("unterminated JSON escape" +:+ context_suffix context)
        | String escape rest1 =>
            if decide (escape = "u"%char) then
              match rest1 with
              | String h1 (String h2 (String h3 (String h4 rest2))) =>
                  code_point ← parse_jsonl_code_point h1 h2 h3 h4 context;
                  if 0x7f <? code_point
                  then Throw ("unsupported JSON unicode escape" +:+ context_suffix context)
                  else parse_jsonl_string_loop context rest2
                         (push_back value (chr code_point))
              | _ => Throw ("unterminated JSON unicode escape" +:+ context_suffix context)
              end
            else
              c ← parse_jsonl_escape escape context;
              parse_jsonl_string_loop context rest1 (push_back value c)
        end
      else if code ch <? 0x20
      then Throw ("invalid control character in JSON string" +:+ context_suffix context)
      else parse_jsonl_string_loop context rest (push_back value ch)
  end.

Definition parse_jsonl_string (context : string) : parser string := fun text =>
  match skip_jsonl_space text with
  | String c rest =>
      if decide (c = c_quote) then parse_jsonl_string_loop context rest ""
      else Throw ("expected JSON string" +:+ context_suffix context)
  | EmptyString => Throw ("expected JSON string" +:+ context_suffix context)
  end.

(** The digits at the head of the text, [text.substr(start, offset - start)]. *)
Fixpoint span_digits (text : string) : string * string :=
  match text with
  | String c rest =>
      if isdigit c then let '(d, r) := span_digits rest in (String c d, r)
      else ("", text)
  | EmptyString => ("", "")
  end.

Definition unsigned_max : Z := 2 ^ 32 - 1.

(** [value = value * 10 + digit] with the range check after every digit; the
    accumulator is an [unsigned long long] that the check keeps far from its
    own limit. *)
Fixpoint accumulate_unsigned (overflow : string) (digits : string) (value : Z) :
    result Z :=
  match digits with
  | EmptyString => Ok value
  | String c rest =>
      let value' := value * 10 + (code c - 48) in
      if unsigned_max <? value' then Throw overflow
      else accumulate_unsigned overflow rest value'
  end.

Definition parse_jsonl_unsigned (context : string) : parser Z := fun text =>
  let '(digits, rest) := span_digits (skip_jsonl_space text) in
  if decide (digits = "")
  then Throw ("expected JSON unsigned integer" +:+ context_suffix context)
  else
    v ← accumulate_unsigned ("JSON unsigned integer overflow" +:+ context_suffix context)
          digits 0;
    Ok (v, rest).

(** What a loop returns when its fuel is used up; no message of the source
    starts with this character. *)
Definition out_of_fuel {A} : result A := Throw "<fuel>".

(** [while (true)] of [parse_jsonl_unsigned_array]; every round reads a digit. *)
Fixpoint parse_jsonl_array_loop (fuel : nat) (context : string) (text : string)
    (values : list Z) : result (list Z * string) :=
  match fuel with
  | O => out_of_fuel
  | S f =>
      '(v, rest) ← parse_jsonl_unsigned context text;
      match skip_jsonl_space rest with
      | EmptyString => Throw ("unterminated JSON array" +:+ context_suffix context)
      | String c rest1 =>
          if decide (c = "]"%char) then Ok (values ++ [v], rest1)
          else if decide (c = ","%char)
          then parse_jsonl_array_loop f context rest1 (values ++ [v])
          else Throw ("expected JSON array separator" +:+ context_suffix context)
      end
  end.

Definition parse_jsonl_unsigned_array (context : string) : parser (list Z) := fun text =>
  '(_, rest) ← require_jsonl_char "["%char context text;
  let rest1 := skip_jsonl_space rest in
  match rest1 with
  | String c rest2 =>
      if decide (c = "]"%char) then Ok ([], rest2)
      else parse_jsonl_array_loop (S (String.length rest1)) context rest1 []
  | EmptyString => parse_jsonl_array_loop (S (String.length rest1)) context rest1 []
  end.

Definition parse_jsonl_value (context : string) : parser JsonlValue := fun text =>
  match skip_jsonl_space text with
  | EmptyString => Throw ("missing JSON value" +:+ context_suffix context)
  | String c rest =>
      if decide (c = c_quote) then
        '(s, r) ← parse_jsonl_string context (String c rest);
        Ok (mk_value s [] false, r)
      else if decide (c = "["%char) then
        '(a, r) ← parse_jsonl_unsigned_array context (String c rest);
        Ok (mk_value "" a true, r)
      else Throw ("unsupported JSON value" +:+ context_suffix context)
  end.

(** The end of an object: only blanks may follow the closing brace. *)
Definition finish_jsonl_object (context : string) (text : string)
    (fields : list JsonlField) : result (list JsonlField) :=
  match skip_jsonl_space text with
  | EmptyString => Ok fields
  | String _ _ => Throw ("trailing data after JSON object" +:+ context_suffix context)
  end.

(** [while (true)] of [parse_jsonl_object]; every round reads a quoted key. *)
Fixpoint parse_jsonl_object_loop (fuel : nat) (context : string) (text : string)
    (fields : list JsonlField) : result (list JsonlField) :=
  match fuel with
  | O => out_of_fuel
  | S f =>
      '(k, rest) ← parse_jsonl_string context text;
      '(_, rest1) ← require_jsonl_char ":"%char context rest;
      '(v, rest2) ← parse_jsonl_value context rest1;
      let fields' := fields ++ [mk_field k v] in
      match skip_jsonl_space rest2 with
      | EmptyString => Throw ("unterminated JSON object" +:+ context_suffix context)
      | String c rest3 =>
          if decide (c = "}"%char) then finish_jsonl_object context rest3 fields'
          else if decide (c = ","%char)
          then parse_jsonl_object_loop f context rest3 fields'
          else Throw ("expected JSON field separator" +:+ context_suffix context)
      end
  end.

Definition parse_jsonl_object (text context : string) : result (list JsonlField) :=
  '(_, rest) ← require_jsonl_char "{"%char context text;
  let rest1 := skip_jsonl_space rest in
  match rest1 with
  | String c rest2 =>
      if decide (c = "}"%char) then finish_jsonl_object context rest2 []
      else parse_jsonl_object_loop (S (String.length rest1)) context rest1 []
  | EmptyString => parse_jsonl_object_loop (S (String.length rest1)) context rest1 []
  end.

(** ** Printing *)

(** One turn of the loop of [escape_jsonl_string]; the default case prints
    ["\u%04x"] for the other control characters. *)
Definition escape_jsonl_char (ch : ascii) : string :=
  let escaped (c : ascii) : string := String c_backslash (String c "") in
  if decide (ch = c_quote) then escaped c_quote
  else if decide (ch = c_backslash) then escaped c_backslash
  else if decide (ch = "008"%char) then escaped "b"%char
  else if decide (ch = "012"%char) then escaped "f"%char
  else if decide (ch = "010"%char) then escaped "n"%char
  else if decide (ch = "013"%char) then escaped "r"%char
  else if decide (ch = "009"%char) then escaped "t"%char
  else if code ch <? 0x20
  then append_byte_hex_digits (escaped "u"%char +:+ "00") (code ch)
  else String ch "".

Fixpoint escape_jsonl_string (text : string) : string :=
  match text with
  | EmptyString => ""
  | String ch rest => escape_jsonl_char ch +:+ escape_jsonl_string rest
  end.

Definition jsonl_string_value (value : string) : string :=
  quote +:+ escape_jsonl_string value +:+ quote.

Definition jsonl_string_field (key value : string) : string :=
  quote +:+ key +:+ quote +:+ ":" +:+ jsonl_string_value value.

Definition jsonl_bool_field (key : string) (value : bool) : string :=
  quote +:+ key +:+ quote +:+ ":" +:+ (if value then "true" else "false").

Fixpoint join_unsigned (values : list Z) : string :=
  match values with
  | [] => ""
  | [v] => to_string v
  | v :: rest => to_string v +:+ "," +:+ join_unsigned rest
  end.

Definition jsonl_unsigned_array (values : list Z) : string :=
  "[" +:+ join_unsigned values +:+ "]".

Definition jsonl_unsigned_array_field (key : string) (values : list Z) : string :=
  quote +:+ key +:+ quote +:+ ":" +:+ jsonl_unsigned_array values.

(** ** Field access *)

(** [find_jsonl_field]: [found] is the pointer [value] of the loop. *)
Fixpoint find_jsonl_field_loop (fields : list JsonlField) (k context : string)
    (found : option JsonlValue) : result (option JsonlValue) :=
  match fields with
  | [] => Ok found
  | f :: rest =>
      if decide (key f <> k) then find_jsonl_field_loop rest k context found
      else match found with
           | Some _ => Throw ("duplicate JSON field" +:+ context_suffix context +:+ ": " +:+ k)
           | None => find_jsonl_field_loop rest k context (Some (value f))
           end
  end.

Definition find_jsonl_field (fields : list JsonlField) (k context : string) :
    result (option JsonlValue) :=
  find_jsonl_field_loop fields k context None.

Definition require_jsonl_string (fields : list JsonlField) (k context : string) :
    result string :=
  v ← find_jsonl_field fields k context;
  match v with
  | None => Throw ("missing JSON field" +:+ context_suffix context +:+ ": " +:+ k)
  | Some v =>
      if is_array v
      then Throw ("JSON field must be a string" +:+ context_suffix context +:+ ": " +:+ k)
      else Ok (string_value v)
  end.

Definition require_jsonl_unsigned_array (fields : list JsonlField) (k context : string) :
    result (list Z) :=
  v ← find_jsonl_field fields k context;
  match v with
  | None => Throw ("missing JSON field" +:+ context_suffix context +:+ ": " +:+ k)
  | Some v =>
      if is_array v then Ok (array_value v)
      else Throw ("JSON field must be an array" +:+ context_suffix context +:+ ": " +:+ k)
  end.

Fixpoint reject_unknown_jsonl_fields (fields : list JsonlField)
    (expected : list string) (context : string) : result unit :=
  match fields with
  | [] => Ok tt
  | f :: rest =>
      if decide (key f ∈ expected)
      then reject_unknown_jsonl_fields rest expected context
      else Throw ("unknown JSON field" +:+ context_suffix context +:+ ": " +:+ key f)
  end.

(** ** Specification of a printed record *)

(** A key is printed as it is, so it may hold no character the parser treats
    specially. *)
Definition plain_char (c : ascii) : bool :=
  bool_decide (c <> c_quote) && bool_decide (c <> c_backslash) && (0x20 <=? code c).
Definition plain_key (k : string) : bool := str_forall plain_char k.

(** The values a program of this interface can hold: a string, or a list of
    32-bit unsigned numbers. *)
Definition value_ok (v : JsonlValue) : Prop :=
  if is_array v
  then string_value v = "" /\ Forall (fun n => 0 <= n <= unsigned_max) (array_value v)
  else array_value v = [].
Definition field_ok (f : JsonlField) : Prop := plain_key (key f) = true /\ value_ok (value f).

Definition string_field (k v : string) : JsonlField := mk_field k (mk_value v [] false).
Definition array_field (k : string) (v : list Z) : JsonlField := mk_field k (mk_value "" v true).

Definition print_value (v : JsonlValue) : string :=
  if is_array v then jsonl_unsigned_array (array_value v)
  else jsonl_string_value (string_value v).
Definition print_field (f : JsonlField) : string :=
  quote +:+ key f +:+ quote +:+ ":" +:+ print_value (value f).
Fixpoint print_fields (fs : list JsonlField) : string :=
  match fs with
  | [] => ""
  | [f] => print_field f
  | f :: rest => print_field f +:+ "," +:+ print_fields rest
  end.
Definition print_record (fs : list JsonlField) : string :=
  "{" +:+ print_fields fs +:+ "}".

(** ** Round trip *)

Lemma skip_nonspace c s : isspace c = false -> skip_jsonl_space (String c s) = String c s.
Proof. intros H. simpl. by rewrite H. Qed.

(** One printed character is read back as that character, all 256 of them. *)
Lemma parse_escaped_char ctx ch t v :
  parse_jsonl_string_loop ctx (escape_jsonl_char ch +:+ t) v =
  parse_jsonl_string_loop ctx t (push_back v ch).
Proof. destruct ch as [[] [] [] [] [] [] [] []]; reflexivity. Qed.

Lemma parse_escaped_string ctx s t v :
  parse_jsonl_string_loop ctx (escape_jsonl_string s +:+ String c_quote t) v = Ok (v +:+ s, t).
Proof.
  revert v. induction s as [|c s IH]; intros v; simpl.
  - by rewrite str_app_nil_r.
  - rewrite str_app_assoc, parse_escaped_char, IH. by rewrite push_back_app.
Qed.

Lemma parse_jsonl_string_value ctx s t :
  parse_jsonl_string ctx (jsonl_string_value s +:+ t) = Ok (s, t).
Proof.
  unfold jsonl_string_value, quote. autorewrite with text. unfold parse_jsonl_string.
  rewrite skip_nonspace by done. rewrite decide_True by done.
  apply (parse_escaped_string ctx s t "").
Qed.

Lemma parse_plain_string_loop ctx k t v :
  plain_key k = true ->
  parse_jsonl_string_loop ctx (k +:+ String c_quote t) v = Ok (v +:+ k, t).
Proof.
  unfold plain_key. revert v. induction k as [|c k IH]; intros v Hk.
  - simpl. by rewrite str_app_nil_r.
  - simpl in Hk. apply andb_true_iff in Hk as [Hc Hk]. unfold plain_char in Hc.
    rewrite !andb_true_iff, !bool_decide_eq_true in Hc. destruct Hc as [[Hq Hb] Hlo].
    rewrite str_app_cons. simpl. rewrite !decide_False by done.
    destruct (Z.ltb_spec (code c) 0x20); [lia|].
    rewrite IH by done. by rewrite push_back_app.
Qed.

Lemma parse_plain_key ctx k t :
  plain_key k = true -> parse_jsonl_string ctx (quote +:+ k +:+ quote +:+ t) = Ok (k, t).
Proof.
  intros Hk. unfold quote. autorewrite with text. unfold parse_jsonl_string.
  rewrite skip_nonspace by done. rewrite decide_True by done.
  by apply (parse_plain_string_loop ctx k t "").
Qed.

Lemma span_digits_app d t :
  str_forall isdigit d = true ->
  (forall c r, t = String c r -> isdigit c = false) ->
  span_digits (d +:+ t) = (d, t).
Proof.
  intros Hd Ht. induction d as [|c d IH].
  - rewrite str_app_nil_l. destruct t as [|c r]; [done|]. simpl. by rewrite (Ht c r).
  - simpl in Hd. apply andb_true_iff in Hd as [Hc Hd]. simpl. by rewrite Hc, IH.
Qed.

Lemma accumulate_unsigned_ok msg s v :
  str_forall isdigit s = true -> 0 <= v -> dec_value s v <= unsigned_max ->
  accumulate_unsigned msg s v = Ok (dec_value s v).
Proof.
  revert v. induction s as [|c s IH]; intros v; [done|]. simpl.
  intros [Hc Hs]%andb_true_iff Hv Hmax. unfold isdigit in Hc.
  pose proof (dec_value_ge s (v * 10 + (code c - 48)) Hs).
  destruct (Z.ltb_spec unsigned_max (v * 10 + (code c - 48))); [lia|].
  apply IH; [done|lia|lia].
Qed.

Lemma digit_not_space c : isdigit c = true -> isspace c = false.
Proof. unfold isdigit, isspace. lia. Qed.

Lemma parse_to_string ctx n t :
  0 <= n <= unsigned_max ->
  (forall c r, t = String c r -> isdigit c = false) ->
  parse_jsonl_unsigned ctx (to_string n +:+ t) = Ok (n, t).
Proof.
  intros Hn Ht. unfold parse_jsonl_unsigned.
  pose proof (to_string_isdigit n) as Hd. pose proof (to_string_value n) as Hv.
  destruct (to_string_cons n) as (c & s & Hcs).
  assert (skip_jsonl_space (to_string n +:+ t) = to_string n +:+ t) as ->.
  { rewrite Hcs, str_app_cons in *. simpl in Hd. apply andb_true_iff in Hd as [Hc _].
    apply skip_nonspace. by apply digit_not_space. }
  rewrite span_digits_app by done. rewrite decide_False by (by rewrite Hcs).
  rewrite accumulate_unsigned_ok; [|done|done|rewrite Hv; lia].
  by rewrite Hv by lia.
Qed.

Lemma join_unsigned_loop ctx vs t acc f :
  vs <> [] -> Forall (fun n => 0 <= n <= unsigned_max) vs -> (length vs <= f)%nat ->
  parse_jsonl_array_loop f ctx (join_unsigned vs +:+ String "]" t) acc = Ok (acc ++ vs, t).
Proof.
  revert acc f. induction vs as [|v vs IH]; intros acc f Hne Hall Hf; [done|].
  apply Forall_cons_1 in Hall as [Hv Hall]. destruct f as [|f]; [simpl in Hf; lia|].
  cbn [join_unsigned]. destruct vs as [|v' vs].
  - cbn [parse_jsonl_array_loop].
    rewrite parse_to_string; [done|done|]. by intros c r [= <- _].
  - rewrite !str_app_assoc. cbn [parse_jsonl_array_loop].
    rewrite parse_to_string; [|done|by intros c r [= <- _]].
    cbn [mbind result_bind]. rewrite (str_app_cons ","), str_app_nil_l.
    rewrite skip_nonspace by done. rewrite decide_False, decide_True by done.
    rewrite IH; [by rewrite <- app_assoc|done|done|simpl in *; lia].
Qed.

Lemma join_unsigned_length vs : (length vs <= String.length (join_unsigned vs))%nat.
Proof.
  induction vs as [|v vs IH]; [done|]. cbn [join_unsigned].
  destruct (to_string_cons v) as (c & s & ->).
  destruct vs as [|v' vs]; [simpl; lia|].
  rewrite !str_length_app. simpl in *. lia.
Qed.

Lemma join_unsigned_head v vs t :
  exists c s, join_unsigned (v :: vs) +:+ t = String c s /\ isdigit c = true.
Proof.
  pose proof (to_string_isdigit v) as Hd. destruct (to_string_cons v) as (c & s & Hcs).
  rewrite Hcs in Hd. simpl in Hd. apply andb_true_iff in Hd as [Hc _].
  cbn [join_unsigned]. destruct vs; rewrite Hcs, !str_app_cons; eauto.
Qed.

Lemma parse_printed_array ctx vs t :
  Forall (fun n => 0 <= n <= unsigned_max) vs ->
  parse_jsonl_unsigned_array ctx (jsonl_unsigned_array vs +:+ t) = Ok (vs, t).
Proof.
  intros Hall. unfold jsonl_unsigned_array. autorewrite with text.
  unfold parse_jsonl_unsigned_array, require_jsonl_char.
  rewrite skip_nonspace by done. rewrite decide_True by done. cbn [mbind result_bind].
  destruct vs as [|v vs].
  - by rewrite str_app_nil_l, skip_nonspace, decide_True by done.
  - pose proof (join_unsigned_loop ctx (v :: vs) t []) as Hloop.
    pose proof (join_unsigned_length (v :: vs)) as Hlen.
    assert (length (v :: vs) <= S (String.length (join_unsigned (v :: vs) +:+ String "]" t)))%nat
      as Hf by (rewrite str_length_app; lia).
    destruct (join_unsigned_head v vs (String "]" t)) as (c & s & Hcs & Hc).
    specialize (Hloop _ ltac:(done) Hall Hf). rewrite Hcs in Hloop |- *.
    rewrite skip_nonspace by by apply digit_not_space.
    rewrite decide_False by by intros ->. done.
Qed.

Lemma parse_printed_value ctx v t :
  value_ok v -> parse_jsonl_value ctx (print_value v +:+ t) = Ok (v, t).
Proof.
  unfold value_ok, print_value. destruct v as [s a []]; simpl.
  - intros [-> Hall]. unfold parse_jsonl_value.
    pose proof (parse_printed_array ctx a t Hall) as Hp. revert Hp.
    unfold jsonl_unsigned_array. autorewrite with text. intros Hp.
    rewrite skip_nonspace by done. rewrite decide_False, decide_True by done. by rewrite Hp.
  - intros ->. unfold parse_jsonl_value.
    pose proof (parse_jsonl_string_value ctx s t) as Hp. revert Hp.
    unfold jsonl_string_value, quote. autorewrite with text. intros Hp.
    rewrite skip_nonspace by done. rewrite decide_True by done. by rewrite Hp.
Qed.

Lemma print_fields_loop ctx fs t acc f :
  fs <> [] -> Forall field_ok fs -> (length fs <= f)%nat ->
  parse_jsonl_object_loop f ctx (print_fields fs +:+ String "}" t) acc =
  finish_jsonl_object ctx t (acc ++ fs).
Proof.
  revert acc f. induction fs as [|[k v] fs IH]; intros acc f Hne Hall Hf; [done|].
  apply Forall_cons_1 in Hall as [[Hk Hv] Hall]. destruct f as [|f]; [simpl in Hf; lia|].
  assert (forall t', parse_jsonl_object_loop (S f) ctx (print_field (mk_field k v) +:+ t') acc =
    match skip_jsonl_space t' with
    | EmptyString => Throw ("unterminated JSON object" +:+ context_suffix ctx)
    | String c rest3 =>
        if decide (c = "}"%char) then finish_jsonl_object ctx rest3 (acc ++ [mk_field k v])
        else if decide (c = ","%char)
        then parse_jsonl_object_loop f ctx rest3 (acc ++ [mk_field k v])
        else Throw ("expected JSON field separator" +:+ context_suffix ctx)
    end) as Hstep.
  { intros t'. cbn [parse_jsonl_object_loop]. unfold print_field. cbn [key value] in *.
    rewrite !str_app_assoc, parse_plain_key by done. cbn [mbind result_bind].
    unfold require_jsonl_char. rewrite (str_app_cons ":"), str_app_nil_l.
    rewrite skip_nonspace by done. rewrite decide_True by done. cbn [mbind result_bind].
    by rewrite parse_printed_value. }
  cbn [print_fields]. destruct fs as [|f' fs].
  - rewrite Hstep. by rewrite skip_nonspace, decide_True by done.
  - rewrite !str_app_assoc, Hstep, (str_app_cons ","), str_app_nil_l.
    rewrite skip_nonspace by done. rewrite decide_False, decide_True by done.
    rewrite IH; [by rewrite <- app_assoc|done|done|simpl in *; lia].
Qed.

Lemma print_fields_length fs : (length fs <= String.length (print_fields fs))%nat.
Proof.
  induction fs as [|f fs IH]; [done|]. cbn [print_fields].
  assert (1 <= String.length (print_field f))%nat.
  { unfold print_field, quote. rewrite str_length_app. simpl. lia. }
  destruct fs as [|f' fs]; [simpl; lia|]. rewrite !str_length_app. simpl in *. lia.
Qed.

Lemma print_fields_head f fs t :
  exists s, print_fields (f :: fs) +:+ t = String c_quote s.
Proof.
  cbn [print_fields]. unfold print_field, quote.
  destruct fs; autorewrite with text; eauto.
Qed.

Lemma parse_print_record ctx fs t :
  Forall field_ok fs ->
  parse_jsonl_object (print_record fs +:+ t) ctx = finish_jsonl_object ctx t fs.
Proof.
  intros Hall. unfold print_record. autorewrite with text.
  unfold parse_jsonl_object, require_jsonl_char.
  rewrite skip_nonspace by done. rewrite decide_True by done. cbn [mbind result_bind].
  destruct fs as [|f fs].
  - by rewrite str_app_nil_l, skip_nonspace, decide_True by done.
  - pose proof (print_fields_loop ctx (f :: fs) t []) as Hloop.
    pose proof (print_fields_length (f :: fs)) as Hlen.
    assert (length (f :: fs) <= S (String.length (print_fields (f :: fs) +:+ String "}" t)))%nat
      as Hf by (rewrite str_length_app; lia).
    destruct (print_fields_head f fs (String "}" t)) as (s & Hs).
    specialize (Hloop _ ltac:(done) Hall Hf). rewrite Hs in Hloop |- *.
    rewrite skip_nonspace by done. rewrite decide_False by done. exact Hloop.
Qed.

(** ** Termination: the loops never use their fuel up *)

(** The result is not the one of an exhausted loop. *)
Definition finishes {A} (r : result A) : Prop := r <> out_of_fuel.

Lemma skip_length s : (String.length (skip_jsonl_space s) <= String.length s)%nat.
Proof. induction s as [|c s IH]; simpl; [done|]. destruct (isspace c); simpl; lia. Qed.

(** A result whose exception, if any, is one of the parser's own. *)
Definition clean {A} (r : result A) : Prop :=
  match r with
  | Ok _ => True
  | Throw (String c _) => c <> "<"%char
  | Throw EmptyString => False
  end.

Lemma clean_finishes {A} (r : result A) : clean r -> finishes r.
Proof. unfold finishes, out_of_fuel. intros H ->. by apply H. Qed.

Lemma clean_bind {A B} (m : result A) (f : A -> result B) :
  clean m -> (forall a, m = Ok a -> clean (f a)) -> clean (m ≫= f).
Proof. destruct m; simpl; auto. Qed.

Create HintDb parse discriminated.
#[export] Hint Resolve clean_bind : parse.

Lemma hex_digit_clean ctx h : clean (parse_jsonl_hex_digit h ctx).
Proof. unfold parse_jsonl_hex_digit. by repeat case_match. Qed.

Lemma escape_clean ctx c : clean (parse_jsonl_escape c ctx).
Proof. unfold parse_jsonl_escape. by repeat case_match. Qed.

Lemma code_point_clean ctx h1 h2 h3 h4 : clean (parse_jsonl_code_point h1 h2 h3 h4 ctx).
Proof.
  unfold parse_jsonl_code_point.
  repeat (apply clean_bind; [apply clean_bind; [apply hex_digit_clean|done]|]; intros ? _).
  apply clean_bind; [apply hex_digit_clean|done].
Qed.

Lemma accumulate_clean c msg ds v :
  c <> "<"%char -> clean (accumulate_unsigned (String c msg) ds v).
Proof.
  intros Hc. revert v. induction ds as [|d ds IH]; intros v; simpl; [done|].
  case_match; [done|apply IH].
Qed.
#[export] Hint Resolve hex_digit_clean escape_clean code_point_clean : parse.

(** [advancing r n]: [r] is clean, and what it leaves is shorter than [n]. *)
Definition advancing {A} (r : result (A * string)) (n : nat) : Prop :=
  clean r /\ forall a rest, r = Ok (a, rest) -> (String.length rest < n)%nat.

Lemma advancing_le {A} (r : result (A * string)) n m :
  (n <= m)%nat -> advancing r n -> advancing r m.
Proof. intros Hle [Hc Hl]. split; [done|]. intros a rest Hr. specialize (Hl a rest Hr). lia. Qed.

Lemma string_loop_advancing ctx s v :
  advancing (parse_jsonl_string_loop ctx s v) (S (String.length s)).
Proof.
  remember (String.length s) as n eqn:Hn. assert (String.length s <= n)%nat by lia. clear Hn.
  revert s v H. induction n as [|n IH]; intros s v Hs.
  { destruct s; [|simpl in Hs; lia]. by split. }
  assert (forall s' v', (S (String.length s') <= S n)%nat ->
    advancing (parse_jsonl_string_loop ctx s' v') (S (S n))) as IH'.
  { intros s' v' Hs'. eapply advancing_le; [|apply IH]; lia. }
  destruct s as [|c s]; [by split|]. simpl in Hs. cbn [parse_jsonl_string_loop].
  case_decide; [split; [done|intros a rest [= <- <-]; lia]|].
  case_decide; [|case_match; [by split|apply IH'; lia]].
  destruct s as [|e s]; [by split|]. simpl in Hs. case_decide.
  - repeat (destruct s as [|? s]; [by split|]). simpl in Hs.
    pose proof (code_point_clean ctx a a0 a1 a2) as Hcp.
    destruct (parse_jsonl_code_point a a0 a1 a2 ctx); cbn [mbind result_bind]; [|by split].
    case_match; [by split|apply IH'; lia].
  - pose proof (escape_clean ctx e) as He.
    destruct (parse_jsonl_escape e ctx); cbn [mbind result_bind]; [|by split].
    apply IH'; lia.
Qed.

Lemma parse_string_advancing ctx s :
  advancing (parse_jsonl_string ctx s) (String.length s).
Proof.
  unfold parse_jsonl_string. pose proof (skip_length s) as Hs.
  destruct (skip_jsonl_space s) as [|c r]; [by split|]. case_decide; [|by split].
  eapply advancing_le; [|apply string_loop_advancing]. simpl in Hs. lia.
Qed.

Lemma require_char_advancing ctx c s :
  advancing (require_jsonl_char c ctx s) (String.length s).
Proof.
  unfold require_jsonl_char. pose proof (skip_length s) as Hs.
  destruct (skip_jsonl_space s) as [|d r]; [by split|]. case_decide; [|by split].
  split; [done|]. intros a rest [= <- <-]. simpl in Hs. lia.
Qed.

Lemma span_digits_length s :
  (String.length (span_digits s).1 + String.length (span_digits s).2 = String.length s)%nat.
Proof.
  induction s as [|c s IH]; simpl; [done|]. destruct (isdigit c); [|done].
  destruct (span_digits s); simpl in *; lia.
Qed.

Lemma parse_unsigned_advancing ctx s :
  advancing (parse_jsonl_unsigned ctx s) (String.length s).
Proof.
  unfold parse_jsonl_unsigned. pose proof (skip_length s) as Hs.
  pose proof (span_digits_length (skip_jsonl_space s)) as Hl.
  destruct (span_digits (skip_jsonl_space s)) as [d r]. simpl in Hl.
  case_decide as Hd; [by split|]. split.
  - apply clean_bind; [by apply accumulate_clean|done].
  - intros a rest H. apply result_bind_ok in H as (v & _ & [= <- <-]).
    destruct d; [done|]. simpl in Hl. lia.
Qed.

Lemma array_loop_advancing f ctx s acc :
  (String.length s < f)%nat ->
  advancing (parse_jsonl_array_loop f ctx s acc) (String.length s).
Proof.
  revert s acc. induction f as [|f IH]; intros s acc Hf; [lia|].
  cbn [parse_jsonl_array_loop].
  destruct (parse_unsigned_advancing ctx s) as [Hc Hl].
  destruct (parse_jsonl_unsigned ctx s) as [[v rest]|e]; cbn [mbind result_bind]; [|by split].
  specialize (Hl v rest eq_refl). pose proof (skip_length rest) as Hs.
  destruct (skip_jsonl_space rest) as [|c r]; [by split|]. simpl in Hs.
  case_decide; [split; [done|intros a r' [= <- <-]; lia]|].
  case_decide; [|by split].
  eapply advancing_le; [|apply IH]; lia.
Qed.

Lemma parse_array_advancing ctx s :
  advancing (parse_jsonl_unsigned_array ctx s) (String.length s).
Proof.
  unfold parse_jsonl_unsigned_array.
  destruct (require_char_advancing ctx "["%char s) as [Hc Hl].
  destruct (require_jsonl_char "["%char ctx s) as [[[] rest]|e]; cbn [mbind result_bind];
    [|by split].
  specialize (Hl tt rest eq_refl). pose proof (skip_length rest) as Hs.
  destruct (skip_jsonl_space rest) as [|c r] eqn:Er.
  - eapply advancing_le; [|apply array_loop_advancing]; simpl; lia.
  - case_decide; [split; [done|intros a r' [= <- <-]; simpl in Hs; lia]|].
    eapply advancing_le; [|apply array_loop_advancing]; simpl in *; lia.
Qed.

Lemma parse_value_advancing ctx s :
  advancing (parse_jsonl_value ctx s) (String.length s).
Proof.
  unfold parse_jsonl_value. pose proof (skip_length s) as Hs.
  destruct (skip_jsonl_space s) as [|c r]; [by split|].
  case_decide; [|case_decide; [|by split]].
  - destruct (parse_string_advancing ctx (String c r)) as [Hc Hl].
    destruct (parse_jsonl_string ctx (String c r)) as [[v rest]|e]; cbn [mbind result_bind];
      [|by split].
    specialize (Hl v rest eq_refl). split; [done|]. intros a r' [= <- <-]. lia.
  - destruct (parse_array_advancing ctx (String c r)) as [Hc Hl].
    destruct (parse_jsonl_unsigned_array ctx (String c r)) as [[v rest]|e];
      cbn [mbind result_bind]; [|by split].
    specialize (Hl v rest eq_refl). split; [done|]. intros a r' [= <- <-]. lia.
Qed.

Lemma finish_clean ctx s fs : clean (finish_jsonl_object ctx s fs).
Proof. unfold finish_jsonl_object. by case_match. Qed.

Lemma object_loop_clean f ctx s acc :
  (String.length s < f)%nat -> clean (parse_jsonl_object_loop f ctx s acc).
Proof.
  revert s acc. induction f as [|f IH]; intros s acc Hf; [lia|].
  cbn [parse_jsonl_object_loop].
  destruct (parse_string_advancing ctx s) as [Hc Hl].
  destruct (parse_jsonl_string ctx s) as [[k rest]|e]; cbn [mbind result_bind]; [|done].
  specialize (Hl k rest eq_refl).
  destruct (require_char_advancing ctx ":"%char rest) as [Hc1 Hl1].
  destruct (require_jsonl_char ":"%char ctx rest) as [[[] rest1]|e]; cbn [mbind result_bind];
    [|done].
  specialize (Hl1 tt rest1 eq_refl).
  destruct (parse_value_advancing ctx rest1) as [Hc2 Hl2].
  destruct (parse_jsonl_value ctx rest1) as [[v rest2]|e]; cbn [mbind result_bind]; [|done].
  specialize (Hl2 v rest2 eq_refl). pose proof (skip_length rest2) as Hs.
  destruct (skip_jsonl_space rest2) as [|c r]; [done|]. simpl in Hs.
  case_decide; [apply finish_clean|]. case_decide; [|done]. apply IH. lia.
Qed.

Lemma parse_object_clean text ctx : clean (parse_jsonl_object text ctx).
Proof.
  unfold parse_jsonl_object. destruct (require_char_advancing ctx "{"%char text) as [Hc _].
  apply clean_bind; [done|]. intros [_ rest] _.
  destruct (skip_jsonl_space rest) as [|c r].
  - apply object_loop_clean. simpl. lia.
  - case_decide; [apply finish_clean|]. apply object_loop_clean. simpl. lia.
Qed.

(** ** What a parsed value may hold *)

Lemma accumulate_range msg ds v n :
  str_forall isdigit ds = true -> 0 <= v <= unsigned_max ->
  accumulate_unsigned msg ds v = Ok n -> 0 <= n <= unsigned_max.
Proof.
  revert v. induction ds as [|c ds IH]; intros v; simpl; [by intros _ ? [= <-]|].
  intros [Hc Hds]%andb_true_iff Hv. unfold isdigit in Hc.
  destruct (Z.ltb_spec unsigned_max (v * 10 + (code c - 48))); [done|].
  apply IH; [done|lia].
Qed.

Lemma span_digits_isdigit s : str_forall isdigit (span_digits s).1 = true.
Proof.
  induction s as [|c s IH]; simpl; [done|]. destruct (isdigit c) eqn:Hc; [|done].
  destruct (span_digits s). simpl in *. by rewrite Hc.
Qed.

Lemma parse_unsigned_range ctx s n rest :
  parse_jsonl_unsigned ctx s = Ok (n, rest) -> 0 <= n <= unsigned_max.
Proof.
  unfold parse_jsonl_unsigned. pose proof (span_digits_isdigit (skip_jsonl_space s)) as Hd.
  destruct (span_digits _) as [d r]. case_decide; [done|].
  intros (v & Hv & [= <- <-])%result_bind_ok.
  eapply accumulate_range; [exact Hd| |exact Hv]. done.
Qed.

Lemma array_loop_range f ctx s acc vs rest :
  Forall (fun n => 0 <= n <= unsigned_max) acc ->
  parse_jsonl_array_loop f ctx s acc = Ok (vs, rest) ->
  Forall (fun n => 0 <= n <= unsigned_max) vs.
Proof.
  revert s acc. induction f as [|f IH]; intros s acc Hacc; [done|].
  cbn [parse_jsonl_array_loop]. intros ([v r] & Hv & H)%result_bind_ok.
  apply parse_unsigned_range in Hv.
  assert (Forall (fun n => 0 <= n <= unsigned_max) (acc ++ [v])) by (apply Forall_app; auto).
  destruct (skip_jsonl_space r); [done|].
  case_decide; [by simplify_eq|]. case_decide; [|done]. eauto.
Qed.

Lemma parse_value_ok ctx s v rest : parse_jsonl_value ctx s = Ok (v, rest) -> value_ok v.
Proof.
  unfold parse_jsonl_value. destruct (skip_jsonl_space s) as [|c r]; [done|].
  case_decide; [intros ([a b] & _ & [= <- <-])%result_bind_ok; done|].
  case_decide; [|done]. intros ([a b] & Ha & [= <- <-])%result_bind_ok. split; [done|].
  simpl. unfold parse_jsonl_unsigned_array in Ha.
  apply result_bind_ok in Ha as ([[] r'] & _ & Ha). revert Ha.
  destruct (skip_jsonl_space r').
  - intros Ha. eapply array_loop_range; [|exact Ha]. done.
  - case_decide; [by intros [= <- _]|]. intros Ha. eapply array_loop_range; [|exact Ha]. done.
Qed.

Lemma finish_ok ctx s fs fs' : finish_jsonl_object ctx s fs = Ok fs' -> fs' = fs.
Proof. unfold finish_jsonl_object. case_match; congruence. Qed.

Lemma object_loop_value_ok f ctx s acc fs :
  Forall (fun x => value_ok (value x)) acc ->
  parse_jsonl_object_loop f ctx s acc = Ok fs ->
  Forall (fun x => value_ok (value x)) fs.
Proof.
  revert s acc. induction f as [|f IH]; intros s acc Hacc; [done|].
  cbn [parse_jsonl_object_loop]. intros ([k r] & _ & H)%result_bind_ok.
  apply result_bind_ok in H as ([[] r1] & _ & H).
  apply result_bind_ok in H as ([v r2] & Hv & H). apply parse_value_ok in Hv.
  assert (Forall (fun x => value_ok (value x)) (acc ++ [mk_field k v]))
    by (apply Forall_app; auto).
  destruct (skip_jsonl_space r2); [done|].
  case_decide; [by apply finish_ok in H as ->|]. case_decide; [|done]. eauto.
Qed.

Lemma parse_object_value_ok text ctx fs :
  parse_jsonl_object text ctx = Ok fs -> Forall (fun x => value_ok (value x)) fs.
Proof.
  unfold parse_jsonl_object. intros ([[] r] & _ & H)%result_bind_ok. revert H.
  destruct (skip_jsonl_space r).
  - intros H. by eapply object_loop_value_ok; [|exact H].
  - case_decide; [by intros ->%finish_ok|]. intros Hl. by eapply object_loop_value_ok; [|exact Hl].
Qed.

(** ** A printed record stays on its line *)

Definition printable (c : ascii) : bool := 0x20 <=? code c.

Lemma escape_char_printable c : str_forall printable (escape_jsonl_char c) = true.
Proof. destruct c as [[] [] [] [] [] [] [] []]; reflexivity. Qed.

Lemma string_value_printable s : str_forall printable (jsonl_string_value s) = true.
Proof.
  unfold jsonl_string_value. rewrite !str_forall_app. simpl.
  assert (str_forall printable (escape_jsonl_string s) = true) as ->; [|done].
  induction s as [|c s IH]; [done|]. simpl. by rewrite str_forall_app, escape_char_printable.
Qed.

Lemma digits_printable s : str_forall isdigit s = true -> str_forall printable s = true.
Proof. apply str_forall_impl. intros c. unfold isdigit, printable. lia. Qed.

Lemma unsigned_array_printable vs : str_forall printable (jsonl_unsigned_array vs) = true.
Proof.
  unfold jsonl_unsigned_array. rewrite !str_forall_app. simpl.
  rewrite andb_true_r. induction vs as [|v vs IH]; [done|]. cbn [join_unsigned].
  pose proof (digits_printable _ (to_string_isdigit v)) as Hv.
  destruct vs; [done|]. by rewrite !str_forall_app, Hv.
Qed.

Lemma plain_key_printable k : plain_key k = true -> str_forall printable k = true.
Proof. apply str_forall_impl. intros c. unfold plain_char, printable. lia. Qed.

Lemma print_field_printable f : field_ok f -> str_forall printable (print_field f) = true.
Proof.
  intros [Hk _]. unfold print_field, print_value, quote. rewrite !str_forall_app.
  rewrite (plain_key_printable _ Hk). simpl.
  destruct (is_array (value f)); [apply unsigned_array_printable|apply string_value_printable].
Qed.

Lemma print_record_printable fs :
  Forall field_ok fs -> str_forall printable (print_record fs) = true.
Proof.
  intros Hall. unfold print_record. rewrite !str_forall_app. simpl. rewrite andb_true_r.
  induction Hall as [|f fs Hf Hall IH]; [done|]. cbn [print_fields].
  apply print_field_printable in Hf. destruct fs; [done|]. by rewrite !str_forall_app, Hf.
Qed.

(** ** Field access *)

Lemma find_field_loop_spec fields k ctx found :
  find_jsonl_field_loop fields k ctx found =
  match found, filter (fun f => key f = k) fields with
  | _, [] => Ok found
  | None, [f] => Ok (Some (value f))
  | _, _ => Throw ("duplicate JSON field" +:+ context_suffix ctx +:+ ": " +:+ k)
  end.
Proof.
  revert found. induction fields as [|f fs IH]; intros found; [by destruct found|].
  cbn [find_jsonl_field_loop]. rewrite filter_cons. destruct (decide (key f = k)) as [->|Hk].
  - rewrite decide_False by tauto. destruct found; [done|]. rewrite IH.
    by destruct (filter _ fs) as [|? []].
  - rewrite decide_True by done. apply IH.
Qed.

Lemma find_field_spec fields k ctx :
  find_jsonl_field fields k ctx =
  match filter (fun f => key f = k) fields with
  | [] => Ok None
  | [f] => Ok (Some (value f))
  | _ => Throw ("duplicate JSON field" +:+ context_suffix ctx +:+ ": " +:+ k)
  end.
Proof. unfold find_jsonl_field. by rewrite find_field_loop_spec. Qed.

Lemma reject_unknown_ok fields expected ctx :
  reject_unknown_jsonl_fields fields expected ctx = Ok tt <->
  Forall (fun f => key f ∈ expected) fields.
Proof.
  induction fields as [|f fs IH]; simpl; [done|].
  rewrite List.Forall_cons_iff. case_decide; naive_solver.
Qed.

Lemma require_string_field fields k v ctx :
  filter (fun f => key f = k) fields = [string_field k v] ->
  require_jsonl_string fields k ctx = Ok v.
Proof. intros H. unfold require_jsonl_string. by rewrite find_field_spec, H. Qed.

Lemma require_array_field fields k v ctx :
  filter (fun f => key f = k) fields = [array_field k v] ->
  require_jsonl_unsigned_array fields k ctx = Ok v.
Proof. intros H. unfold require_jsonl_unsigned_array. by rewrite find_field_spec, H. Qed.

(** ** Properties *)

(** C32.  Reading a printed record gives back exactly its fields, whatever
    strings and numbers it holds: quotes, backslashes, control characters and
    bytes above 0x7f included, with any blanks behind the record. *)
Theorem record_roundtrip (fs : list JsonlField) (blanks context : string) :
  Forall field_ok fs -> str_forall isspace blanks = true ->
  parse_jsonl_object (print_record fs +:+ blanks) context = Ok fs.
Proof.
  intros Hfs Hb. rewrite parse_print_record by done. unfold finish_jsonl_object.
  assert (skip_jsonl_space blanks = "") as ->; [|done].
  induction blanks as [|c s IH]; [done|]. simpl in *.
  apply andb_true_iff in Hb as [-> Hs]. auto.
Qed.

Definition sample_fields : list JsonlField :=
  [string_field "address" (push_back (push_back "a" c_quote) c_newline);
   array_field "ports" [0; 17; 4294967295]].

Lemma sample_fields_ok : Forall field_ok sample_fields.
Proof. repeat constructor; try lia; done. Qed.

Lemma record_roundtrip_witness :
  parse_jsonl_object (print_record sample_fields +:+ " ") "" = Ok sample_fields.
Proof. apply record_roundtrip; [apply sample_fields_ok|reflexivity]. Defined.
