(* ===== verification/Words.v ===== *)
(** Machine integers and byte buffers: fixed-width wrap-around, the
    little-endian forms the protocols use, and lemmas on both.

    A byte is a [Z] between 0 and 255, a buffer a list of bytes.  [std::array]
    and [std::span] accesses are list lookups; the theorems on each function
    say that the indices it uses lie inside. *)
From stdpp Require Import base list numbers.
From Stdlib Require Import ZArith Lia.
From S2P Require Import Prelude.

Local Open Scope Z_scope.

(** ** Widths *)

(** Conversion to an unsigned type keeps the low bits. *)
Definition u8 (z : Z) : Z := z mod 2 ^ 8.
Definition u16 (z : Z) : Z := z mod 2 ^ 16.
Definition u32 (z : Z) : Z := z mod 2 ^ 32.
Definition u64 (z : Z) : Z := z mod 2 ^ 64.
Lemma u64_u64 z : u64 (u64 z) = u64 z.
Proof. apply Z.mod_mod. lia. Qed.

(** Conversion to a signed type: two's complement. *)
Definition signed (bits z : Z) : Z :=
  let m := z mod 2 ^ bits in if m <? 2 ^ (bits - 1) then m else m - 2 ^ bits.
Definition s8 : Z -> Z := signed 8.
Definition s16 : Z -> Z := signed 16.
Definition s32 : Z -> Z := signed 32.

(** [~value] of an unsigned 32-bit number. *)
Definition not32 (z : Z) : Z := Z.lxor z (2 ^ 32 - 1).

(** Integer division and remainder of C++ round towards zero: [Z.quot], [Z.rem]. *)

Definition is_u8 (z : Z) : Prop := 0 <= z < 2 ^ 8.
Definition is_u16 (z : Z) : Prop := 0 <= z < 2 ^ 16.
Definition is_u32 (z : Z) : Prop := 0 <= z < 2 ^ 32.
Definition is_s16 (z : Z) : Prop := - 2 ^ 15 <= z < 2 ^ 15.
Definition is_s8 (z : Z) : Prop := - 2 ^ 7 <= z < 2 ^ 7.

Definition bytes_ok (l : list Z) : Prop := Forall is_u8 l.

#[export] Instance is_u8_dec z : Decision (is_u8 z).
Proof. unfold is_u8. apply _. Defined.

Create HintDb words discriminated.

Lemma u8_range z : is_u8 (u8 z).
Proof. apply Z.mod_pos_bound. lia. Qed.
Lemma u16_range z : is_u16 (u16 z).
Proof. apply Z.mod_pos_bound. lia. Qed.
Lemma u32_range z : is_u32 (u32 z).
Proof. apply Z.mod_pos_bound. lia. Qed.
Lemma u8_id z : is_u8 z -> u8 z = z.
Proof. apply Z.mod_small. Qed.
Lemma u16_id z : is_u16 z -> u16 z = z.
Proof. apply Z.mod_small. Qed.
Lemma u32_id z : is_u32 z -> u32 z = z.
Proof. apply Z.mod_small. Qed.

Lemma signed_range bits z :
  0 < bits -> - 2 ^ (bits - 1) <= signed bits z < 2 ^ (bits - 1).
Proof.
  intros Hb. unfold signed. assert (2 ^ bits = 2 * 2 ^ (bits - 1)) as Hp.
  { rewrite <- Z.pow_succ_r by lia. f_equal. lia. }
  pose proof (Z.mod_pos_bound z (2 ^ bits)).
  assert (0 < 2 ^ (bits - 1)) by (apply Z.pow_pos_nonneg; lia).
  destruct (Z.ltb_spec (z mod 2 ^ bits) (2 ^ (bits - 1))); lia.
Qed.

Lemma signed_id bits z :
  0 < bits -> - 2 ^ (bits - 1) <= z < 2 ^ (bits - 1) -> signed bits z = z.
Proof.
  intros Hb Hz. unfold signed. assert (2 ^ bits = 2 * 2 ^ (bits - 1)) as Hp.
  { rewrite <- Z.pow_succ_r by lia. f_equal. lia. }
  destruct (decide (0 <= z)).
  - rewrite Z.mod_small by lia. destruct (Z.ltb_spec z (2 ^ (bits - 1))); lia.
  - rewrite <- (Z.mod_add z 1), Z.mod_small by lia.
    destruct (Z.ltb_spec (z + 1 * 2 ^ bits) (2 ^ (bits - 1))); lia.
Qed.

Lemma s16_range z : is_s16 (s16 z).
Proof. apply (signed_range 16). lia. Qed.
Lemma s8_range z : is_s8 (s8 z).
Proof. apply (signed_range 8). lia. Qed.
Lemma s16_id z : is_s16 z -> s16 z = z.
Proof. by apply (signed_id 16). Qed.
Lemma s8_id z : is_s8 z -> s8 z = z.
Proof. by apply (signed_id 8). Qed.

Lemma is_u8_0 : is_u8 0.
Proof. done. Qed.
Lemma is_u8_1 : is_u8 1.
Proof. done. Qed.

#[export] Hint Resolve is_u8_0 is_u8_1 u8_range u16_range u32_range s16_range s8_range : words.

(** ** Bit operations stay inside their width *)

Lemma below_pow_testbit n x :
  0 <= n -> 0 <= x -> (x < 2 ^ n <-> forall i, n <= i -> Z.testbit x i = false).
Proof.
  intros Hn Hx. split.
  - intros Hlt i Hi. destruct (decide (x = 0)) as [->|]; [apply Z.bits_0|].
    apply Z.bits_above_log2; [done|]. apply Z.log2_lt_pow2 in Hlt; lia.
  - intros Hb. assert (x = x mod 2 ^ n) as ->; [|apply Z.mod_pos_bound; lia].
    apply Z.bits_inj. intros i. destruct (decide (i < 0)); [by rewrite !Z.testbit_neg_r by lia|].
    destruct (decide (i < n)).
    + by rewrite Z.mod_pow2_bits_low.
    + rewrite Z.mod_pow2_bits_high by lia. apply Hb. lia.
Qed.

Section BitRange.
Context (n : Z) (Hn : 0 <= n).

Lemma lor_range x y : 0 <= x < 2 ^ n -> 0 <= y < 2 ^ n -> 0 <= Z.lor x y < 2 ^ n.
Proof.
  intros [Hx Hx'] [Hy Hy']. assert (0 <= Z.lor x y) by by apply Z.lor_nonneg.
  split; [done|]. apply below_pow_testbit; [done..|]. intros i Hi. rewrite Z.lor_spec.
  by rewrite (proj1 (below_pow_testbit n x Hn Hx)), (proj1 (below_pow_testbit n y Hn Hy)).
Qed.

Lemma lxor_range x y : 0 <= x < 2 ^ n -> 0 <= y < 2 ^ n -> 0 <= Z.lxor x y < 2 ^ n.
Proof.
  intros [Hx Hx'] [Hy Hy']. assert (0 <= Z.lxor x y) by (apply Z.lxor_nonneg; lia).
  split; [done|]. apply below_pow_testbit; [done..|]. intros i Hi. rewrite Z.lxor_spec.
  by rewrite (proj1 (below_pow_testbit n x Hn Hx)), (proj1 (below_pow_testbit n y Hn Hy)).
Qed.

Lemma land_range x y : 0 <= x < 2 ^ n -> 0 <= Z.land x y < 2 ^ n.
Proof.
  intros [Hx Hx']. assert (0 <= Z.land x y) by (apply Z.land_nonneg; lia).
  split; [done|]. apply below_pow_testbit; [done..|]. intros i Hi. rewrite Z.land_spec.
  by rewrite (proj1 (below_pow_testbit n x Hn Hx)).
Qed.
End BitRange.

Lemma lor_u8 x y : is_u8 x -> is_u8 y -> is_u8 (Z.lor x y).
Proof. by apply lor_range. Qed.
Lemma land_u8 x y : is_u8 x -> is_u8 (Z.land x y).
Proof. by apply land_range. Qed.
Lemma lxor_u32 x y : is_u32 x -> is_u32 y -> is_u32 (Z.lxor x y).
Proof. by apply lxor_range. Qed.
Lemma lor_u32 x y : is_u32 x -> is_u32 y -> is_u32 (Z.lor x y).
Proof. by apply lor_range. Qed.
#[export] Hint Resolve lor_u8 land_u8 lxor_u32 lor_u32 : words.

Lemma shiftr_u32 x n : is_u32 x -> 0 <= n -> is_u32 (Z.shiftr x n).
Proof.
  unfold is_u32. intros Hx Hn. rewrite Z.shiftr_div_pow2 by done.
  assert (0 < 2 ^ n) by (apply Z.pow_pos_nonneg; lia).
  split; [apply Z.div_pos; lia|]. apply Z.div_lt_upper_bound; [lia|]. nia.
Qed.

Lemma land_255 x : Z.land x 0xff = x mod 2 ^ 8.
Proof. by rewrite <- Z.land_ones. Qed.

(** A 16-bit value from its bytes. *)
Lemma lor_bytes lo hi : is_u8 lo -> 0 <= hi -> Z.lor lo (Z.shiftl hi 8) = lo + 256 * hi.
Proof.
  unfold is_u8. intros Hlo Hhi. rewrite Z.shiftl_mul_pow2 by lia.
  assert (Z.land lo (hi * 2 ^ 8) = 0) as Hl.
  { apply Z.bits_inj. intros i. rewrite Z.land_spec, Z.bits_0.
    destruct (decide (i < 8)); [by rewrite Z.mul_pow2_bits_low, andb_false_r by lia|].
    assert (Z.testbit lo i = false) as ->; [|done].
    eapply (below_pow_testbit 8); [done|change (2 ^ 8) with 256; lia..|lia]. }
  rewrite <- Z.lxor_lor, <- Z.add_nocarry_lxor by done. change (2 ^ 8) with 256. lia.
Qed.

(** A byte is one of 256 values: decide a closed question by looking at all. *)
Lemma all_bytes (P : Z -> bool) :
  forallb P (seqZ 0 256) = true -> forall b, is_u8 b -> P b = true.
Proof.
  intros Hall b Hb. rewrite forallb_forall in Hall. apply Hall.
  apply list_elem_of_In, elem_of_seqZ. unfold is_u8 in Hb. lia.
Qed.

(** ** Buffers *)

(** [buffer[index]] of an index that is inside. *)
Definition byte_at (l : list Z) (i : nat) : Z := default 0 (l !! i).

Lemma byte_at_lookup l i b : l !! i = Some b -> byte_at l i = b.
Proof. unfold byte_at. by intros ->. Qed.

Lemma byte_at_ok l i : bytes_ok l -> is_u8 (byte_at l i).
Proof.
  intros Hl. unfold byte_at. destruct (l !! i) as [b|] eqn:Hi; [|done].
  by eapply Forall_lookup_1.
Qed.

Lemma byte_at_insert_eq l i b : (i < length l)%nat -> byte_at (<[i := b]> l) i = b.
Proof. intros Hi. unfold byte_at. by rewrite list_lookup_insert_eq. Qed.

Lemma byte_at_insert_ne l i j b : i <> j -> byte_at (<[i := b]> l) j = byte_at l j.
Proof. intros Hi. unfold byte_at. by rewrite list_lookup_insert_ne. Qed.

Lemma byte_at_insert l i j b :
  (i < length l)%nat -> byte_at (<[i := b]> l) j = if decide (i = j) then b else byte_at l j.
Proof.
  intros Hi. case_decide; [subst; by apply byte_at_insert_eq|by apply byte_at_insert_ne].
Qed.

Lemma bytes_ok_insert l i b : bytes_ok l -> is_u8 b -> bytes_ok (<[i := b]> l).
Proof. intros Hl Hb. by apply Forall_insert. Qed.

Lemma bytes_ok_app l k : bytes_ok l -> bytes_ok k -> bytes_ok (l ++ k).
Proof. intros. by apply Forall_app. Qed.

Lemma bytes_ok_take n l : bytes_ok l -> bytes_ok (take n l).
Proof. apply Forall_take. Qed.
Lemma bytes_ok_drop n l : bytes_ok l -> bytes_ok (drop n l).
Proof. apply Forall_drop. Qed.
Lemma bytes_ok_zeros n : bytes_ok (replicate n 0).
Proof. apply Forall_replicate. done. Qed.
#[export] Hint Resolve byte_at_ok bytes_ok_insert bytes_ok_app bytes_ok_take bytes_ok_drop
  bytes_ok_zeros : words.

(** [std::copy(source.begin() + from, ... + length, buffer.begin() + to)]:
    the bytes [source[from .. from + length)] replace those of the buffer. *)
Definition copy_into (buffer : list Z) (to : nat) (source : list Z) : list Z :=
  take to buffer ++ source ++ drop (to + length source) buffer.

Lemma copy_into_length buffer to source :
  (to + length source <= length buffer)%nat ->
  length (copy_into buffer to source) = length buffer.
Proof.
  intros Hl. unfold copy_into. rewrite !length_app, length_take, length_drop. lia.
Qed.

Lemma copy_into_at buffer to source j :
  (to + length source <= length buffer)%nat ->
  byte_at (copy_into buffer to source) j =
  if decide (to <= j < to + length source)%nat then byte_at source (j - to)
  else byte_at buffer j.
Proof.
  intros Hl. unfold copy_into, byte_at. case_decide as Hj.
  - rewrite lookup_app_r by (rewrite length_take; lia).
    rewrite lookup_app_l by (rewrite length_take; lia).
    rewrite length_take. do 2 f_equal. lia.
  - destruct (decide (j < to)%nat).
    + rewrite lookup_app_l by (rewrite length_take; lia). by rewrite lookup_take_lt.
    + rewrite lookup_app_r by (rewrite length_take; lia).
      rewrite lookup_app_r by (rewrite length_take; lia).
      rewrite lookup_drop, length_take. do 2 f_equal. lia.
Qed.

Lemma bytes_ok_copy buffer to source :
  bytes_ok buffer -> bytes_ok source -> bytes_ok (copy_into buffer to source).
Proof. intros. unfold copy_into. auto with words. Qed.
#[export] Hint Resolve bytes_ok_copy : words.

(** ** Little-endian numbers *)

(** The [n] low bytes of a number, least significant first. *)
Fixpoint le_bytes (n : nat) (z : Z) : list Z :=
  match n with
  | O => []
  | S n' => z mod 2 ^ 8 :: le_bytes n' (Z.shiftr z 8)
  end.
Fixpoint le_value (l : list Z) : Z :=
  match l with
  | [] => 0
  | b :: rest => b + 2 ^ 8 * le_value rest
  end.

Lemma le_bytes_length n z : length (le_bytes n z) = n.
Proof. revert z. induction n; intros; simpl; auto. Qed.

Lemma le_bytes_ok n z : bytes_ok (le_bytes n z).
Proof.
  revert z. induction n as [|n IH]; intros z; simpl; [by constructor|].
  constructor; [apply u8_range|apply IH].
Qed.

Lemma le_value_bytes n z : le_value (le_bytes n z) = z mod 2 ^ (8 * Z.of_nat n).
Proof.
  revert z. induction n as [|n IH]; intros z; [by rewrite Z.mod_1_r|].
  cbn [le_bytes le_value]. rewrite IH, Z.shiftr_div_pow2 by lia.
  replace (8 * Z.of_nat (S n)) with (8 + 8 * Z.of_nat n) by lia.
  rewrite Z.pow_add_r by lia. rewrite Z.rem_mul_r; [done|lia|]. apply Z.pow_pos_nonneg; lia.
Qed.

Lemma le_bytes_value l : bytes_ok l -> le_bytes (length l) (le_value l) = l.
Proof.
  induction 1 as [|b l Hb Hl IH]; [done|]. cbn [length le_bytes le_value].
  unfold is_u8 in Hb. rewrite Z.shiftr_div_pow2 by lia. f_equal.
  - rewrite Z.mul_comm, Z.mod_add by lia. by apply Z.mod_small.
  - rewrite (Z.mul_comm (2 ^ 8)), Z.div_add, (Z.div_small b) by lia. by rewrite Z.add_0_l.
Qed.

Lemma le_bytes_inj n x y :
  0 <= x < 2 ^ (8 * Z.of_nat n) -> 0 <= y < 2 ^ (8 * Z.of_nat n) ->
  le_bytes n x = le_bytes n y -> x = y.
Proof.
  intros Hx Hy H%(f_equal le_value). rewrite !le_value_bytes in H.
  by rewrite !Z.mod_small in H by done.
Qed.
#[export] Hint Resolve le_bytes_ok : words.
