(* ===== verification/Checksum.v ===== *)
(** Report checksums (src/src/vds_protocol.cc, the CRC part): the table-driven
    CRC-32 and the two functions that put it at the end of a report, with the
    bitwise CRC-32 they implement. *)
From stdpp Require Import base list strings numbers.
From Stdlib Require Import ZArith Lia.
From S2P Require Import Prelude Words.

Local Open Scope Z_scope.

(** ** The code *)

Definition kOutputCrcSeed : Z := 0xeada2d49.
Definition kFeatureCrcSeed : Z := 0x2060efc3.

(** The eight rounds of [crc32_table_entry]. *)
Fixpoint crc32_table_rounds (bit : nat) (index : Z) : Z :=
  match bit with
  | O => index
  | S bit' =>
      crc32_table_rounds bit'
        (Z.lxor (Z.shiftr index 1) (Z.land 0xedb88320 (u32 (0 - Z.land index 1))))
  end.
Definition crc32_table_entry (index : Z) : Z := crc32_table_rounds 8 index.

Definition make_crc32_table : list Z := crc32_table_entry <$> seqZ 0 256.
Definition kCrc32Table : list Z := Eval vm_compute in make_crc32_table.

Definition crc32_step (crc byte : Z) : Z :=
  Z.lxor (Z.shiftr crc 8) (byte_at kCrc32Table (Z.to_nat (Z.land (Z.lxor crc byte) 0xff))).

Definition crc32_seeded (data : list Z) (seed : Z) : Z :=
  not32 (foldl crc32_step (not32 seed) data).

Definition output_crc32 (data : list Z) : Z := crc32_seeded data kOutputCrcSeed.
Definition feature_crc32 (data : list Z) : Z := crc32_seeded data kFeatureCrcSeed.

(** The four stores at the end of a report. *)
Definition store_crc (report : list Z) (crc : Z) : list Z :=
  let offset := (length report - 4)%nat in
  <[(offset + 3)%nat := Z.land (Z.shiftr crc 24) 0xff]>
  (<[(offset + 2)%nat := Z.land (Z.shiftr crc 16) 0xff]>
  (<[(offset + 1)%nat := Z.land (Z.shiftr crc 8) 0xff]>
  (<[(offset + 0)%nat := Z.land (Z.shiftr crc 0) 0xff]> report))).

Definition fill_output_report_checksum (report : list Z) : result (list Z) :=
  if (length report <? 4)%nat then Throw "output report is too small for CRC"
  else Ok (store_crc report (output_crc32 (take (length report - 4) report))).

Definition fill_feature_report_checksum (report : list Z) : result (list Z) :=
  if (length report <? 4)%nat then Throw "feature report is too small for CRC"
  else Ok (store_crc report (feature_crc32 (take (length report - 4) report))).

(** ** The reference: CRC-32, one bit at a time

    Polynomial 0x04c11db7 bit-reversed, register and result inverted. *)
Definition crc_bit (x : Z) : Z :=
  Z.lxor (Z.shiftr x 1) (if Z.odd x then 0xedb88320 else 0).
Definition crc_byte (crc byte : Z) : Z := Nat.iter 8 crc_bit (Z.lxor crc byte).
Definition crc32 (data : list Z) : Z := not32 (foldl crc_byte (not32 0) data).

Example crc32_check_value : crc32 [49; 50; 51; 52; 53; 54; 55; 56; 57] = 0xcbf43926.
Proof. by vm_compute. Qed.

(** ** The table is the reference *)

Lemma crc_bit_lxor x y : crc_bit (Z.lxor x y) = Z.lxor (crc_bit x) (crc_bit y).
Proof.
  unfold crc_bit. rewrite Z.shiftr_lxor, <- !Z.bit0_odd, Z.lxor_spec.
  destruct (Z.testbit x 0), (Z.testbit y 0); simpl xorb; cbn iota;
    apply Z.bits_inj; intros i; rewrite !Z.lxor_spec;
    by destruct (Z.testbit (Z.shiftr x 1) i), (Z.testbit (Z.shiftr y 1) i),
      (Z.testbit 0xedb88320 i), (Z.testbit 0 i) eqn:?; rewrite ?Z.bits_0 in *.
Qed.

Lemma crc_bits_lxor n x y :
  Nat.iter n crc_bit (Z.lxor x y) = Z.lxor (Nat.iter n crc_bit x) (Nat.iter n crc_bit y).
Proof. induction n as [|n IH]; simpl; [done|]. by rewrite IH, crc_bit_lxor. Qed.

Lemma table_rounds_spec n x : crc32_table_rounds n x = Nat.iter n crc_bit x.
Proof.
  revert x. induction n as [|n IH]; intros x; [done|].
  cbn [crc32_table_rounds]. rewrite IH, Nat.iter_succ_r. f_equal. unfold crc_bit. f_equal.
  change 1 with (Z.ones 1) at 1. rewrite Z.land_ones by lia. change (2 ^ 1) with 2.
  rewrite Zmod_odd. by destruct (Z.odd x).
Qed.

(** A number whose low [n] bits are zero is only shifted by [n] rounds. *)
Lemma crc_bits_shiftl n y : Nat.iter n crc_bit (Z.shiftl y (Z.of_nat n)) = y.
Proof.
  induction n as [|n IH]; [by rewrite Z.shiftl_0_r|].
  rewrite Nat.iter_succ_r. rewrite <- IH at 2. f_equal.
  rewrite Nat2Z.inj_succ. unfold crc_bit.
  rewrite Z.shiftr_shiftl_l by lia. rewrite <- Z.bit0_odd, Z.shiftl_spec_low by lia.
  rewrite Z.lxor_0_r. f_equal. lia.
Qed.

Lemma crc_byte_shiftl y : Nat.iter 8 crc_bit (Z.shiftl y 8) = y.
Proof. apply (crc_bits_shiftl 8). Qed.

Lemma split_low_byte x : Z.lxor (Z.shiftl (Z.shiftr x 8) 8) (Z.land x 0xff) = x.
Proof.
  apply Z.bits_inj. intros i. change 0xff with (Z.ones 8). rewrite Z.lxor_spec, Z.land_spec.
  destruct (decide (i < 0)); [by rewrite !Z.testbit_neg_r by lia|].
  rewrite Z.shiftl_spec by lia. destruct (decide (i < 8)).
  - rewrite (Z.testbit_neg_r _ (i - 8)), Z.ones_spec_low by lia. by rewrite andb_true_r, xorb_false_l.
  - rewrite Z.shiftr_spec, Z.ones_spec_high by lia. rewrite andb_false_r, xorb_false_r.
    f_equal. lia.
Qed.

Lemma table_lookup i : is_u8 i -> byte_at kCrc32Table (Z.to_nat i) = Nat.iter 8 crc_bit i.
Proof.
  intros Hi. apply Z.eqb_eq. revert i Hi. by apply all_bytes.
Qed.

Lemma crc32_step_spec crc b : is_u8 b -> crc32_step crc b = crc_byte crc b.
Proof.
  intros Hb. unfold crc32_step, crc_byte.
  rewrite table_lookup by (rewrite land_255; apply u8_range).
  rewrite <- (split_low_byte (Z.lxor crc b)) at 2. rewrite crc_bits_lxor.
  rewrite crc_byte_shiftl. f_equal.
  rewrite Z.shiftr_lxor. unfold is_u8 in Hb.
  assert (Z.shiftr b 8 = 0) as ->; [|by rewrite Z.lxor_0_r].
  rewrite Z.shiftr_div_pow2 by lia. apply Z.div_small. lia.
Qed.

Lemma crc32_steps_spec data crc :
  bytes_ok data -> foldl crc32_step crc data = foldl crc_byte crc data.
Proof.
  intros Hd. revert crc. induction Hd as [|b data Hb Hd IH]; intros crc; [done|].
  simpl. by rewrite crc32_step_spec, IH.
Qed.

Lemma not32_involutive z : not32 (not32 z) = z.
Proof. unfold not32. by rewrite Z.lxor_assoc, Z.lxor_nilpotent, Z.lxor_0_r. Qed.

Lemma not32_inj x y : not32 x = not32 y -> x = y.
Proof. intros H%(f_equal not32). by rewrite !not32_involutive in H. Qed.

(** The seeds stand for one byte already taken: the HIDP header of the packet
    that carries the report. *)
Lemma crc32_seeded_spec h seed data :
  is_u8 h -> not32 seed = crc_byte (not32 0) h -> bytes_ok data ->
  crc32_seeded data seed = crc32 (h :: data).
Proof.
  intros Hh Hs Hd. unfold crc32_seeded, crc32. rewrite crc32_steps_spec by done.
  simpl foldl. by rewrite <- Hs.
Qed.

Lemma output_crc32_spec data : bytes_ok data -> output_crc32 data = crc32 (0xa2 :: data).
Proof. apply crc32_seeded_spec; [done|by vm_compute]. Qed.

Lemma feature_crc32_spec data : bytes_ok data -> feature_crc32 data = crc32 (0x53 :: data).
Proof. apply crc32_seeded_spec; [done|by vm_compute]. Qed.

(** ** Range *)

Lemma crc32_step_range crc b : is_u32 crc -> is_u32 (crc32_step crc b).
Proof.
  intros Hc. apply lxor_u32; [by apply shiftr_u32|]. unfold byte_at.
  destruct (kCrc32Table !! _) as [v|] eqn:Hv; [|done].
  assert (forallb (fun v => (0 <=? v) && (v <? 2 ^ 32)) kCrc32Table = true) as Hall
    by by vm_compute.
  rewrite forallb_forall in Hall. unfold is_u32.
  apply list_elem_of_lookup_2, list_elem_of_In in Hv. specialize (Hall v Hv).
  cbv beta in Hall. by apply andb_true_iff in Hall as [?%Z.leb_le ?%Z.ltb_lt].
Qed.

Lemma crc32_steps_range data crc : is_u32 crc -> is_u32 (foldl crc32_step crc data).
Proof.
  revert crc. induction data as [|b data IH]; intros crc Hc; [done|]. simpl.
  by apply IH, crc32_step_range.
Qed.

Lemma crc32_seeded_range data seed : is_u32 seed -> is_u32 (crc32_seeded data seed).
Proof.
  intros Hs. unfold crc32_seeded, not32.
  apply lxor_u32; [|done]. apply crc32_steps_range. by apply lxor_u32.
Qed.

(** ** What the checksum detects *)

Lemma crc_bit_range x : is_u32 x -> is_u32 (crc_bit x).
Proof. intros Hx. apply lxor_u32; [by apply shiftr_u32|]. by destruct (Z.odd x). Qed.

Lemma crc_bits_range n x : is_u32 x -> is_u32 (Nat.iter n crc_bit x).
Proof. intros Hx. induction n as [|n IH]; simpl; [done|]. by apply crc_bit_range. Qed.

(** The top bit of the result is the bit that was shifted out. *)
Lemma crc_bit_top x : is_u32 x -> Z.testbit (crc_bit x) 31 = Z.odd x.
Proof.
  intros [Hx Hlt]. unfold crc_bit. rewrite Z.lxor_spec, Z.shiftr_spec by lia.
  rewrite (proj1 (below_pow_testbit 32 x ltac:(lia) Hx)) by lia. by destruct (Z.odd x).
Qed.

Lemma crc_bit_inj x y : is_u32 x -> is_u32 y -> crc_bit x = crc_bit y -> x = y.
Proof.
  intros Hx Hy Heq. pose proof (crc_bit_top x Hx) as Ht. rewrite Heq, crc_bit_top in Ht by done.
  unfold crc_bit in Heq. rewrite Ht in Heq.
  apply (f_equal (fun z => Z.lxor z (if Z.odd x then 0xedb88320 else 0))) in Heq.
  rewrite !Z.lxor_assoc, !Z.lxor_nilpotent, !Z.lxor_0_r in Heq.
  rewrite (Z.div2_odd x), (Z.div2_odd y), !Z.div2_spec, Heq. by rewrite Ht.
Qed.

Lemma crc_bits_inj n x y :
  is_u32 x -> is_u32 y -> Nat.iter n crc_bit x = Nat.iter n crc_bit y -> x = y.
Proof.
  intros Hx Hy. induction n as [|n IH]; simpl; [done|].
  intros H%crc_bit_inj; [auto|by apply crc_bits_range..].
Qed.

Lemma lxor_cancel_r x y z : Z.lxor x z = Z.lxor y z -> x = y.
Proof.
  intros H%(f_equal (fun v => Z.lxor v z)).
  by rewrite !Z.lxor_assoc, !Z.lxor_nilpotent, !Z.lxor_0_r in H.
Qed.

Lemma is_u8_u32 b : is_u8 b -> is_u32 b.
Proof. unfold is_u8, is_u32. lia. Qed.

Lemma crc_byte_range crc b : is_u32 crc -> is_u8 b -> is_u32 (crc_byte crc b).
Proof. intros Hc Hb%is_u8_u32. apply crc_bits_range. by apply lxor_u32. Qed.

Lemma crc_bytes_range data crc :
  is_u32 crc -> bytes_ok data -> is_u32 (foldl crc_byte crc data).
Proof.
  intros Hc Hd. revert crc Hc. induction Hd as [|b data Hb Hd IH]; intros crc Hc; [done|].
  simpl. by apply IH, crc_byte_range.
Qed.

Lemma crc_byte_inj x y b :
  is_u32 x -> is_u32 y -> is_u8 b -> crc_byte x b = crc_byte y b -> x = y.
Proof.
  intros Hx Hy Hb%is_u8_u32. unfold crc_byte. generalize 8%nat. intros n H.
  apply crc_bits_inj in H; [|by apply lxor_u32..]. by apply lxor_cancel_r in H.
Qed.

Lemma crc_bytes_inj data x y :
  is_u32 x -> is_u32 y -> bytes_ok data ->
  foldl crc_byte x data = foldl crc_byte y data -> x = y.
Proof.
  intros Hx Hy Hd. revert x y Hx Hy. induction Hd as [|b data Hb Hd IH]; intros x y Hx Hy; [done|].
  cbn [foldl]. intros H%IH; [|by apply crc_byte_range..]. by apply crc_byte_inj in H.
Qed.

Lemma le_value_range l : bytes_ok l -> 0 <= le_value l < 2 ^ (8 * Z.of_nat (length l)).
Proof.
  intros Hl. rewrite <- (le_bytes_value l Hl) at 1 2. rewrite le_value_bytes.
  apply Z.mod_pos_bound. apply Z.pow_pos_nonneg; lia.
Qed.

Lemma lxor_shiftl_add b v : is_u8 b -> 0 <= v -> Z.lxor b (Z.shiftl v 8) = b + 2 ^ 8 * v.
Proof.
  intros [Hb Hb'] Hv. rewrite Z.shiftl_mul_pow2, Z.mul_comm by lia. symmetry.
  apply Z.add_nocarry_lxor. apply Z.bits_inj. intros i. rewrite Z.land_spec, Z.bits_0.
  destruct (decide (i < 0)); [by rewrite Z.testbit_neg_r by lia|].
  destruct (decide (i < 8)).
  - rewrite (Z.mul_comm (2 ^ 8)), (Z.mul_pow2_bits_low v 8 i) by lia. apply andb_false_r.
  - by rewrite (proj1 (below_pow_testbit 8 b ltac:(lia) Hb) Hb') by lia.
Qed.

(** Taking bytes one after the other is taking the number they spell at once. *)
Lemma crc_bytes_value data crc :
  bytes_ok data ->
  foldl crc_byte crc data = Nat.iter (8 * length data) crc_bit (Z.lxor crc (le_value data)).
Proof.
  intros Hd. revert crc. induction Hd as [|b data Hb Hd IH]; intros crc;
    [by rewrite Z.lxor_0_r|].
  simpl foldl. rewrite IH. cbn [length le_value].
  replace (8 * S (length data))%nat with (8 * length data + 8)%nat by lia.
  rewrite Nat.iter_add. f_equal. pose proof (proj1 (le_value_range data Hd)) as Hv.
  rewrite <- lxor_shiftl_add, <- Z.lxor_assoc by done.
  by rewrite crc_bits_lxor, crc_byte_shiftl.
Qed.

(** Two blocks of at most four bytes taken from the same register differ in
    what they leave. *)
Lemma crc_block_inj crc e e' :
  bytes_ok e -> bytes_ok e' -> length e = length e' -> (length e <= 4)%nat -> is_u32 crc ->
  foldl crc_byte crc e = foldl crc_byte crc e' -> e = e'.
Proof.
  intros He He' Hl H4 Hc. rewrite !crc_bytes_value, Hl by done.
  assert (forall l, bytes_ok l -> (length l <= 4)%nat -> is_u32 (le_value l)) as Hr.
  { intros l Hok Hlen. pose proof (le_value_range l Hok) as [? Hlt]. split; [done|].
    eapply Z.lt_le_trans; [exact Hlt|]. apply Z.pow_le_mono_r; lia. }
  intros H%crc_bits_inj; [|apply lxor_u32; [done|apply Hr; [done|lia]]..].
  rewrite (Z.lxor_comm crc), (Z.lxor_comm crc) in H. apply lxor_cancel_r in H.
  by rewrite <- (le_bytes_value e He), <- (le_bytes_value e' He'), Hl, H.
Qed.

Lemma crc32_detects a e e' z :
  bytes_ok a -> bytes_ok e -> bytes_ok e' -> bytes_ok z ->
  length e = length e' -> (length e <= 4)%nat -> e <> e' ->
  crc32 (a ++ e ++ z) <> crc32 (a ++ e' ++ z).
Proof.
  intros Ha He He' Hz Hl H4 Hne H%not32_inj. apply Hne.
  rewrite !foldl_app in H.
  assert (is_u32 (foldl crc_byte (not32 0) a)) by by apply crc_bytes_range.
  apply crc_bytes_inj in H; [|by apply crc_bytes_range..|done].
  by eapply crc_block_inj.
Qed.

(** ** A report with its checksum *)

Definition checksummed (header : Z) (report : list Z) : list Z :=
  report ++ le_bytes 4 (crc32 (header :: report)).

Lemma store_crc_spec front tail crc :
  length tail = 4%nat -> store_crc (front ++ tail) crc = front ++ le_bytes 4 crc.
Proof.
  intros Hl. destruct tail as [|a [|b [|c [|d [|]]]]]; try done.
  unfold store_crc. rewrite length_app. cbn [length].
  replace (length front + 4 - 4)%nat with (length front) by lia.
  rewrite !insert_app_r. cbn [list_insert]. f_equal. cbn [le_bytes].
  by rewrite !land_255, !Z.shiftr_shiftr.
Qed.

Lemma report_split (report : list Z) :
  (4 <= length report)%nat ->
  exists front tail, report = front ++ tail /\ length tail = 4%nat /\
    front = take (length report - 4) report.
Proof.
  intros Hl. exists (take (length report - 4) report), (drop (length report - 4) report).
  split_and!; [by rewrite take_drop| |done]. rewrite length_drop. lia.
Qed.

Lemma fill_output_spec report :
  bytes_ok report ->
  fill_output_report_checksum report =
  if (length report <? 4)%nat then Throw "output report is too small for CRC"
  else Ok (checksummed 0xa2 (take (length report - 4) report)).
Proof.
  intros Hok. unfold fill_output_report_checksum. destruct (Nat.ltb_spec (length report) 4); [done|].
  destruct (report_split report) as (front & tail & Hr & Ht & Hf); [done|].
  rewrite <- Hf.
  rewrite output_crc32_spec by (rewrite Hf; auto with words).
  f_equal. rewrite Hr. by apply store_crc_spec.
Qed.

Lemma fill_feature_spec report :
  bytes_ok report ->
  fill_feature_report_checksum report =
  if (length report <? 4)%nat then Throw "feature report is too small for CRC"
  else Ok (checksummed 0x53 (take (length report - 4) report)).
Proof.
  intros Hok. unfold fill_feature_report_checksum. destruct (Nat.ltb_spec (length report) 4); [done|].
  destruct (report_split report) as (front & tail & Hr & Ht & Hf); [done|]. rewrite <- Hf.
  rewrite feature_crc32_spec by (rewrite Hf; auto with words).
  f_equal. rewrite Hr. by apply store_crc_spec.
Qed.

Lemma checksummed_length header report : length (checksummed header report) = S (S (S (S (length report)))).
Proof. unfold checksummed. rewrite length_app, le_bytes_length. lia. Qed.

Lemma checksummed_ok header report : bytes_ok report -> bytes_ok (checksummed header report).
Proof. unfold checksummed. auto with words. Qed.

Lemma checksummed_at header report i :
  (i < length report)%nat -> byte_at (checksummed header report) i = byte_at report i.
Proof. intros Hi. unfold checksummed, byte_at. by rewrite lookup_app_l. Qed.
#[export] Hint Resolve checksummed_ok : words.

Lemma crc32_range data : bytes_ok data -> is_u32 (crc32 data).
Proof.
  intros Hd. unfold crc32, not32. apply lxor_u32; [|done].
  by apply crc_bytes_range.
Qed.
