(* ===== verification/BtPacket.v ===== *)
(** Bluetooth HIDP packets and virtual-port frames: building, classifying and
    taking them apart (src/src/vds_protocol.cc, and the frame reader of
    src/src/platform/linux/vdsd.cc). *)
From stdpp Require Import base list strings numbers.
From Stdlib Require Import ZArith Lia.
From S2P Require Import Prelude Text Words Checksum.

Local Open Scope Z_scope.

(** ** Constants (src/include/vds/ds5_protocol.h, src/include/uapi/vds.h) *)

Definition VDS_USB_INPUT_REPORT_ID : Z := 0x01.
Definition VDS_USB_INPUT_PAYLOAD_SIZE : nat := 63.
Definition VDS_USB_OUTPUT_REPORT_ID : Z := 0x02.
Definition VDS_SET_STATE_SIZE : nat := 47.
Definition VDS_BT_STATE_REPORT_ID : Z := 0x31.
Definition VDS_BT_HAPTICS_REPORT_ID : Z := 0x36.
Definition VDS_FRAME_MAX_PAYLOAD : nat := 4096.
Definition frame_header_size : nat := 16.

Definition kBtHidpInputPrefix : Z := 0xa1.
Definition kBtHidpOutputPrefix : Z := 0xa2.
Definition kBtHidpFeaturePrefix : Z := 0xa3.
Definition kBtHidpGetFeaturePrefix : Z := 0x43.
Definition kBtHidpSetFeaturePrefix : Z := 0x53.
Definition kBtInputReportIdOffset : nat := 1.
Definition kBtInputHeaderOffset : nat := 2.
Definition kBtInputUsbPayloadOffset : nat := 3.
Definition kBtInputMinimumSize : nat := (kBtInputUsbPayloadOffset + VDS_USB_INPUT_PAYLOAD_SIZE)%nat.
Definition kBtMicOpusOffset : nat := 4.
Definition kMicOpusSize : nat := 71.

(** ** Packets to the controller *)

Definition hidp_output_packet (report : list Z) : list Z := kBtHidpOutputPrefix :: report.

Definition feature_get_packet (report_id : Z) : list Z := [kBtHidpGetFeaturePrefix; report_id].

Definition feature_set_packet (report : list Z) : result (list Z) :=
  if decide (report = []) then Ok []
  else
    checked_report ← (if (4 <=? length report)%nat
                      then fill_feature_report_checksum report else Ok report);
    Ok (kBtHidpSetFeaturePrefix :: checked_report).

(** ** Packets from the controller *)

Inductive BtInputPayloadType := Unknown | Control | Audio.
#[export] Instance BtInputPayloadType_eq_dec : EqDecision BtInputPayloadType.
Proof. solve_decision. Defined.

Definition bt_input_payload_type (packet : list Z) : BtInputPayloadType :=
  if (length packet <=? kBtInputHeaderOffset)%nat
     || negb (byte_at packet 0 =? kBtHidpInputPrefix)
     || negb (byte_at packet kBtInputReportIdOffset =? VDS_BT_STATE_REPORT_ID)
  then Unknown
  else
    let type := Z.land (byte_at packet kBtInputHeaderOffset) 0x0f in
    if type =? 0x01 then Control
    else if type =? 0x02 then Audio
    else Unknown.

Definition bt_input_to_usb_input (packet : list Z) : option (list Z) :=
  if (length packet <? kBtInputMinimumSize)%nat
     || negb (byte_at packet 0 =? kBtHidpInputPrefix)
     || negb (byte_at packet kBtInputReportIdOffset =? VDS_BT_STATE_REPORT_ID)
     || negb (bool_decide (bt_input_payload_type packet = Control))
  then None
  else
    let report := VDS_USB_INPUT_REPORT_ID :: replicate 63 0 in
    Some (copy_into report 1
            (take (kBtInputMinimumSize - kBtInputUsbPayloadOffset)
                  (drop kBtInputUsbPayloadOffset packet))).

Definition bt_mic_opus_payload (packet : list Z) : option (list Z) :=
  if negb (bool_decide (bt_input_payload_type packet = Audio))
     || (length packet <? kBtMicOpusOffset + kMicOpusSize)%nat
  then None
  else Some (take kMicOpusSize (drop kBtMicOpusOffset packet)).

Definition bt_feature_to_usb_feature_reply (packet : list Z) : option (list Z) :=
  if (length packet <? 2)%nat || negb (byte_at packet 0 =? kBtHidpFeaturePrefix)
  then None
  else Some (drop 1 packet).

(** ** Virtual-port frames *)

(** [vds_frame_header]; [frame_bytes] leaves [flags] and [sequence] zero, and
    the header is copied as the little-endian machine holds it. *)
Record vds_frame_header := mk_header {
  type : Z;
  flags : Z;
  header_length : Z;
  sequence : Z
}.

Definition encode_header (h : vds_frame_header) : list Z :=
  le_bytes 2 (type h) ++ le_bytes 2 (flags h) ++ le_bytes 4 (header_length h)
  ++ le_bytes 8 (sequence h).

Definition decode_header (bytes : list Z) : vds_frame_header :=
  mk_header (le_value (take 2 bytes)) (le_value (take 2 (drop 2 bytes)))
    (le_value (take 4 (drop 4 bytes))) (le_value (take 8 (drop 8 bytes))).

Definition frame_bytes (frame_type : Z) (payload : list Z) : result (list Z) :=
  if (VDS_FRAME_MAX_PAYLOAD <? length payload)%nat
  then Throw "frame payload exceeds VDS_FRAME_MAX_PAYLOAD"
  else
    let header := mk_header (u16 frame_type) 0 (u32 (Z.of_nat (length payload))) 0 in
    Ok (encode_header header ++ payload).

(** What [read] of a virtual port may give: bytes, an end of file, or an error
    ([None] when the call is to be tried again). *)
Inductive read_result :=
  | Got (bytes : list Z)
  | Retry
  | ReadFailed (strerror : string).

(** [handle_vds_frame] up to the call of [handle_frame]: no frame, or the
    header and the payload of one. *)
Definition parse_vds_frame (path : string) (r : read_result) :
    result (option (vds_frame_header * list Z)) :=
  match r with
  | Got [] => Throw (path +:+ " closed")
  | Retry => Ok None
  | ReadFailed m => Throw (path +:+ " read failed: " +:+ m)
  | Got frame =>
      if (length frame <? frame_header_size)%nat
      then Throw (path +:+ " short VDS frame header")
      else
        let header := decode_header frame in
        if Z.of_nat VDS_FRAME_MAX_PAYLOAD <? header_length header
        then Throw (path +:+ " oversized VDS frame")
        else if negb (Z.of_nat (length frame) =? Z.of_nat frame_header_size + header_length header)
        then Throw (path +:+ " short VDS frame payload")
        else Ok (Some (header, take (Z.to_nat (header_length header))
                                    (drop frame_header_size frame)))
  end.

Definition VDS_FRAME_STATUS : Z := 0.
Definition VDS_FRAME_USB_HID_OUT : Z := 1.
Definition VDS_FRAME_USB_FEATURE_GET : Z := 2.
Definition VDS_FRAME_USB_FEATURE_SET : Z := 3.
Definition VDS_FRAME_USB_AUDIO_OUT : Z := 4.
Definition VDS_FRAME_USB_HID_IN : Z := 5.
Definition VDS_FRAME_USB_FEATURE_REPLY : Z := 6.
Definition VDS_FRAME_USB_INTERFACE : Z := 7.
Definition VDS_FRAME_BT_CONTROL_PACKET : Z := 8.
Definition VDS_FRAME_BT_INTERRUPT_PACKET : Z := 9.
Definition VDS_FRAME_USB_AUDIO_IN : Z := 10.

Definition frame_type_name (t : Z) : string :=
  if t =? VDS_FRAME_STATUS then "STATUS"
  else if t =? VDS_FRAME_USB_HID_OUT then "USB_HID_OUT"
  else if t =? VDS_FRAME_USB_FEATURE_GET then "USB_FEATURE_GET"
  else if t =? VDS_FRAME_USB_FEATURE_SET then "USB_FEATURE_SET"
  else if t =? VDS_FRAME_USB_AUDIO_OUT then "USB_AUDIO_OUT"
  else if t =? VDS_FRAME_USB_AUDIO_IN then "USB_AUDIO_IN"
  else if t =? VDS_FRAME_USB_HID_IN then "USB_HID_IN"
  else if t =? VDS_FRAME_USB_FEATURE_REPLY then "USB_FEATURE_REPLY"
  else if t =? VDS_FRAME_USB_INTERFACE then "USB_INTERFACE"
  else if t =? VDS_FRAME_BT_CONTROL_PACKET then "BT_CONTROL_PACKET"
  else if t =? VDS_FRAME_BT_INTERRUPT_PACKET then "BT_INTERRUPT_PACKET"
  else "UNKNOWN".

(** ** Lemmas *)

(** The checksum a receiver computes over the packet agrees with the one the
    packet carries. *)
Definition packet_crc_ok (packet : list Z) : Prop :=
  (4 <= length packet)%nat /\
  drop (length packet - 4) packet = le_bytes 4 (crc32 (take (length packet - 4) packet)).

Lemma checksummed_packet header report : packet_crc_ok (header :: checksummed header report).
Proof.
  unfold packet_crc_ok. cbn [length]. rewrite checksummed_length.
  split; [lia|]. change (header :: checksummed header report)
    with ((header :: report) ++ le_bytes 4 (crc32 (header :: report))).
  replace (S (S (S (S (S (length report))))) - 4)%nat with (length (header :: report)) by (simpl; lia).
  by rewrite take_app_length, drop_app_length.
Qed.

Lemma feature_set_spec report :
  bytes_ok report ->
  feature_set_packet report =
  Ok (if decide (report = []) then []
      else if (length report <? 4)%nat then kBtHidpSetFeaturePrefix :: report
      else kBtHidpSetFeaturePrefix ::
             checksummed kBtHidpSetFeaturePrefix (take (length report - 4) report)).
Proof.
  intros Hok. unfold feature_set_packet. case_decide; [done|].
  destruct (Nat.leb_spec 4 (length report)), (Nat.ltb_spec (length report) 4); try lia; [|done].
  rewrite fill_feature_spec by done. by rewrite (proj2 (Nat.ltb_ge _ _)).
Qed.

(** The header of a state report, whatever its payload. *)
Definition has_input_header (packet : list Z) : Prop :=
  (3 <= length packet)%nat /\ byte_at packet 0 = 0xa1 /\ byte_at packet 1 = 0x31.

Lemma payload_type_spec packet t :
  bt_input_payload_type packet = t <->
  match t with
  | Control => has_input_header packet /\ byte_at packet 2 mod 16 = 1
  | Audio => has_input_header packet /\ byte_at packet 2 mod 16 = 2
  | Unknown => ~ (has_input_header packet /\
                  (byte_at packet 2 mod 16 = 1 \/ byte_at packet 2 mod 16 = 2))
  end.
Proof.
  unfold bt_input_payload_type, has_input_header, kBtInputHeaderOffset, kBtInputReportIdOffset,
    kBtHidpInputPrefix, VDS_BT_STATE_REPORT_ID.
  change 0x0f with (Z.ones 4). rewrite Z.land_ones by lia. change (2 ^ 4) with 16.
  destruct (Nat.leb_spec (length packet) 2);
    [destruct t; simpl; (split; [first [done|lia]|first [done|lia]])|].
  destruct (Z.eqb_spec (byte_at packet 0) 0xa1), (Z.eqb_spec (byte_at packet 1) 0x31);
    cbn [negb orb]; [|destruct t; split; first [done|lia]..].
  destruct (Z.eqb_spec (byte_at packet 2 mod 16) 1), (Z.eqb_spec (byte_at packet 2 mod 16) 2);
    destruct t; split; first [done|lia].
Qed.

Lemma usb_input_spec packet report :
  bt_input_to_usb_input packet = Some report <->
  bt_input_payload_type packet = Control /\ (66 <= length packet)%nat /\
  report = 1 :: take 63 (drop 3 packet).
Proof.
  unfold bt_input_to_usb_input. pose proof (payload_type_spec packet Control) as Ht.
  unfold kBtInputMinimumSize, kBtInputUsbPayloadOffset, VDS_USB_INPUT_PAYLOAD_SIZE,
    VDS_USB_INPUT_REPORT_ID in *. change (3 + 63)%nat with 66%nat.
  destruct (Nat.ltb_spec (length packet) 66) as [Hl|Hl]; [split; [done|lia]|].
  destruct (decide (bt_input_payload_type packet = Control)) as [Hc|Hc].
  - rewrite (bool_decide_eq_true_2 _ Hc). apply Ht in Hc as Hh.
    destruct Hh as [(_ & H0 & H1) _]. unfold kBtInputReportIdOffset. rewrite H0, H1.
    cbn [negb orb Z.eqb Pos.eqb kBtHidpInputPrefix VDS_BT_STATE_REPORT_ID].
    change (66 - 3)%nat with 63%nat.
    assert (length (take 63 (drop 3 packet)) = 63%nat) as Hlen
      by (rewrite length_take, length_drop; lia).
    unfold copy_into. rewrite Hlen. cbn [take app drop replicate Nat.add].
    rewrite app_nil_r. naive_solver.
  - rewrite (bool_decide_eq_false_2 _ Hc). rewrite orb_true_r. naive_solver.
Qed.

Lemma mic_payload_spec packet payload :
  bt_mic_opus_payload packet = Some payload <->
  bt_input_payload_type packet = Audio /\ (75 <= length packet)%nat /\
  payload = take 71 (drop 4 packet).
Proof.
  unfold bt_mic_opus_payload, kBtMicOpusOffset, kMicOpusSize. change (4 + 71)%nat with 75%nat.
  destruct (Nat.ltb_spec (length packet) 75); case_bool_decide; cbn [negb orb];
    split; try naive_solver lia.
Qed.

Lemma header_roundtrip h rest :
  is_u16 (type h) -> is_u16 (flags h) -> is_u32 (header_length h) ->
  0 <= sequence h < 2 ^ 64 ->
  decode_header (encode_header h ++ rest) = h.
Proof.
  intros Ht Hf Hl Hs. destruct h as [t f l s]. cbn [type flags header_length sequence] in Ht, Hf, Hl, Hs.
  change (decode_header (encode_header (mk_header t f l s) ++ rest))
    with (mk_header (le_value (le_bytes 2 t)) (le_value (le_bytes 2 f))
            (le_value (le_bytes 4 l)) (le_value (le_bytes 8 s))).
  rewrite !le_value_bytes. unfold is_u16, is_u32 in *. by rewrite !Z.mod_small.
Qed.

Lemma encode_header_length h : length (encode_header h) = frame_header_size.
Proof. unfold encode_header. by rewrite !length_app, !le_bytes_length. Qed.
