(* ===== verification/OutputState.v ===== *)
(** The controller output state (class [DsOutputState] and the light and audio
    helpers of src/src/vds_protocol.cc): what the host asked for, merged into
    the state the daemon sends over Bluetooth, and the reports built from it. *)
From stdpp Require Import base list strings numbers.
From Stdlib Require Import ZArith Lia.
From S2P Require Import Prelude Words Checksum BtPacket.

Local Open Scope Z_scope.

(** ** Layout *)

Definition kDsStateSize : nat := 63.
Definition kBtInitReportSize : nat := 142.
Definition kBtStateReportSize : nat := 78.
Definition kSetStateSize : nat := VDS_SET_STATE_SIZE.
Definition kBtStateOffset : nat := 3.

Definition kOutputFlag0Offset : nat := 0.
Definition kOutputFlag1Offset : nat := 1.
Definition kOutputHeadphoneVolumeOffset : nat := 4.
Definition kOutputSpeakerVolumeOffset : nat := 5.
Definition kOutputMicVolumeOffset : nat := 6.
Definition kOutputAudioControlOffset : nat := 7.
Definition kOutputMuteLedOffset : nat := 8.
Definition kOutputPowerSaveControlOffset : nat := 9.
Definition kOutputAudioControl2Offset : nat := 37.
Definition kOutputLightBrightnessOffset : nat := 42.
Definition kOutputLedColorOffset : nat := 44.

Definition kOutputFlag0HeadphoneVolumeEnable : Z := 0x10.
Definition kOutputFlag0SpeakerVolumeEnable : Z := 0x20.
Definition kOutputFlag0MicVolumeEnable : Z := 0x40.
Definition kOutputFlag0AudioControlEnable : Z := 0x80.
Definition kOutputFlag1MicMuteLedControlEnable : Z := 0x01.
Definition kOutputFlag1PowerSaveControlEnable : Z := 0x02.
Definition kOutputFlag1AudioControl2Enable : Z := 0x80.
Definition kOutputMicSelectMask : Z := 0x03.
Definition kOutputMicSelectAuto : Z := 0x00.
Definition kOutputMicSelectInternal : Z := 0x01.
Definition kOutputAudioControlNonPathMask : Z := 0xcf.
Definition kOutputPathHeadphones : Z := 0x00.
Definition kOutputPathSpeaker : Z := 0x30.
Definition kOutputPathMask : Z := 0x30.
Definition kOutputPowerSaveMicMute : Z := 0x10.
Definition kMuteLedOff : Z := 0.
Definition kMuteLedOn : Z := 1.
Definition kBtAudioBufferLength : Z := 64.
Definition kBtMicReportId : Z := 0x32.
Definition kBtMicOpen : Z := 0xff.
Definition kBtMicClose : Z := 0xfe.

Definition kInitialSetStateData : list Z :=
  [0xfd; 0xf7; 0; 0; 0x7f; 0x64; 0x08; 0x09; 0; 0x0f; 0; 0; 0; 0; 0; 0; 0; 0; 0; 0; 0; 0; 0;
   0; 0; 0; 0; 0; 0; 0; 0; 0; 0; 0; 0; 0; 0; 0x01; 0x07; 0; 0; 0x02; 0x01; 0x04; 0; 0; 0].
Definition initial_ds_state : list Z :=
  copy_into (replicate kDsStateSize 0) 0 kInitialSetStateData.

(** ** Helpers *)

(** [audio_control_with_output_path] *)
Definition audio_control_with_output_path (audio_control output_path : Z) : Z :=
  u8 (Z.lor (Z.land audio_control (u8 (Z.lnot kOutputPathMask))) output_path).

Definition set_state_bit (byte bit : Z) (value : bool) : Z :=
  let mask := u8 (Z.shiftl 1 bit) in
  u8 (Z.lor (Z.land byte (Z.lnot mask)) (if value then mask else 0)).

Definition scale_light_component (component brightness : Z) : Z :=
  let scale := if brightness =? 1 then 128 else if brightness =? 2 then 64 else 255 in
  u8 (Z.quot (component * scale + 127) 255).

Definition copy_state_bytes (state update : list Z) (offset length : nat) : list Z :=
  copy_into state offset (take length (drop offset update)).

(** ** State *)

Record DsOutputState := mk_output {
  state_ : list Z;
  light_color_ : list Z;
  headphones_volume_ : Z;
  speaker_volume_ : Z;
  mic_volume_ : Z;
  audio_control_ : Z;
  audio_output_path_ : Z;
  audio_control2_ : Z;
  power_save_control_ : Z;
  light_brightness_ : Z;
  emulate_light_brightness_ : bool;
  headset_mic_plugged_ : bool;
  report_sequence_ : Z;
  mic_sequence_ : Z
}.

Definition initial_output_state : DsOutputState :=
  let st := initial_ds_state in
  mk_output st
    [byte_at st kOutputLedColorOffset; byte_at st (kOutputLedColorOffset + 1);
     byte_at st (kOutputLedColorOffset + 2)]
    (byte_at st kOutputHeadphoneVolumeOffset) (byte_at st kOutputSpeakerVolumeOffset)
    (byte_at st kOutputMicVolumeOffset)
    (Z.land (byte_at st kOutputAudioControlOffset) kOutputAudioControlNonPathMask)
    (Z.land (byte_at st kOutputAudioControlOffset) kOutputPathMask)
    (byte_at st kOutputAudioControl2Offset) (byte_at st kOutputPowerSaveControlOffset)
    (byte_at st kOutputLightBrightnessOffset) false false 0 0.

(** Assignments to one member. *)
Definition set_state (f : list Z -> list Z) (s : DsOutputState) : DsOutputState :=
  mk_output (f (state_ s)) (light_color_ s) (headphones_volume_ s) (speaker_volume_ s)
    (mic_volume_ s) (audio_control_ s) (audio_output_path_ s) (audio_control2_ s)
    (power_save_control_ s) (light_brightness_ s) (emulate_light_brightness_ s)
    (headset_mic_plugged_ s) (report_sequence_ s) (mic_sequence_ s).
Definition set_light_color (v : list Z) (s : DsOutputState) : DsOutputState :=
  mk_output (state_ s) v (headphones_volume_ s) (speaker_volume_ s) (mic_volume_ s)
    (audio_control_ s) (audio_output_path_ s) (audio_control2_ s) (power_save_control_ s)
    (light_brightness_ s) (emulate_light_brightness_ s) (headset_mic_plugged_ s)
    (report_sequence_ s) (mic_sequence_ s).
Definition set_headphones_volume (v : Z) (s : DsOutputState) : DsOutputState :=
  mk_output (state_ s) (light_color_ s) v (speaker_volume_ s) (mic_volume_ s)
    (audio_control_ s) (audio_output_path_ s) (audio_control2_ s) (power_save_control_ s)
    (light_brightness_ s) (emulate_light_brightness_ s) (headset_mic_plugged_ s)
    (report_sequence_ s) (mic_sequence_ s).
Definition set_speaker_volume (v : Z) (s : DsOutputState) : DsOutputState :=
  mk_output (state_ s) (light_color_ s) (headphones_volume_ s) v (mic_volume_ s)
    (audio_control_ s) (audio_output_path_ s) (audio_control2_ s) (power_save_control_ s)
    (light_brightness_ s) (emulate_light_brightness_ s) (headset_mic_plugged_ s)
    (report_sequence_ s) (mic_sequence_ s).
Definition set_mic_volume (v : Z) (s : DsOutputState) : DsOutputState :=
  mk_output (state_ s) (light_color_ s) (headphones_volume_ s) (speaker_volume_ s) v
    (audio_control_ s) (audio_output_path_ s) (audio_control2_ s) (power_save_control_ s)
    (light_brightness_ s) (emulate_light_brightness_ s) (headset_mic_plugged_ s)
    (report_sequence_ s) (mic_sequence_ s).
Definition set_audio_control (v : Z) (s : DsOutputState) : DsOutputState :=
  mk_output (state_ s) (light_color_ s) (headphones_volume_ s) (speaker_volume_ s)
    (mic_volume_ s) v (audio_output_path_ s) (audio_control2_ s) (power_save_control_ s)
    (light_brightness_ s) (emulate_light_brightness_ s) (headset_mic_plugged_ s)
    (report_sequence_ s) (mic_sequence_ s).
Definition set_audio_output_path (v : Z) (s : DsOutputState) : DsOutputState :=
  mk_output (state_ s) (light_color_ s) (headphones_volume_ s) (speaker_volume_ s)
    (mic_volume_ s) (audio_control_ s) v (audio_control2_ s) (power_save_control_ s)
    (light_brightness_ s) (emulate_light_brightness_ s) (headset_mic_plugged_ s)
    (report_sequence_ s) (mic_sequence_ s).
Definition set_audio_control2 (v : Z) (s : DsOutputState) : DsOutputState :=
  mk_output (state_ s) (light_color_ s) (headphones_volume_ s) (speaker_volume_ s)
    (mic_volume_ s) (audio_control_ s) (audio_output_path_ s) v (power_save_control_ s)
    (light_brightness_ s) (emulate_light_brightness_ s) (headset_mic_plugged_ s)
    (report_sequence_ s) (mic_sequence_ s).
Definition set_power_save_control (v : Z) (s : DsOutputState) : DsOutputState :=
  mk_output (state_ s) (light_color_ s) (headphones_volume_ s) (speaker_volume_ s)
    (mic_volume_ s) (audio_control_ s) (audio_output_path_ s) (audio_control2_ s) v
    (light_brightness_ s) (emulate_light_brightness_ s) (headset_mic_plugged_ s)
    (report_sequence_ s) (mic_sequence_ s).
Definition set_light_brightness (v : Z) (s : DsOutputState) : DsOutputState :=
  mk_output (state_ s) (light_color_ s) (headphones_volume_ s) (speaker_volume_ s)
    (mic_volume_ s) (audio_control_ s) (audio_output_path_ s) (audio_control2_ s)
    (power_save_control_ s) v (emulate_light_brightness_ s) (headset_mic_plugged_ s)
    (report_sequence_ s) (mic_sequence_ s).
Definition set_emulate (v : bool) (s : DsOutputState) : DsOutputState :=
  mk_output (state_ s) (light_color_ s) (headphones_volume_ s) (speaker_volume_ s)
    (mic_volume_ s) (audio_control_ s) (audio_output_path_ s) (audio_control2_ s)
    (power_save_control_ s) (light_brightness_ s) v (headset_mic_plugged_ s)
    (report_sequence_ s) (mic_sequence_ s).
Definition set_headset_flag (v : bool) (s : DsOutputState) : DsOutputState :=
  mk_output (state_ s) (light_color_ s) (headphones_volume_ s) (speaker_volume_ s)
    (mic_volume_ s) (audio_control_ s) (audio_output_path_ s) (audio_control2_ s)
    (power_save_control_ s) (light_brightness_ s) (emulate_light_brightness_ s) v
    (report_sequence_ s) (mic_sequence_ s).
Definition set_report_sequence (v : Z) (s : DsOutputState) : DsOutputState :=
  mk_output (state_ s) (light_color_ s) (headphones_volume_ s) (speaker_volume_ s)
    (mic_volume_ s) (audio_control_ s) (audio_output_path_ s) (audio_control2_ s)
    (power_save_control_ s) (light_brightness_ s) (emulate_light_brightness_ s)
    (headset_mic_plugged_ s) v (mic_sequence_ s).
Definition set_mic_sequence (v : Z) (s : DsOutputState) : DsOutputState :=
  mk_output (state_ s) (light_color_ s) (headphones_volume_ s) (speaker_volume_ s)
    (mic_volume_ s) (audio_control_ s) (audio_output_path_ s) (audio_control2_ s)
    (power_save_control_ s) (light_brightness_ s) (emulate_light_brightness_ s)
    (headset_mic_plugged_ s) (report_sequence_ s) v.

(** [state_[offset] |= bits], [state_[offset] &= ~bits] and [state_[offset] = v]. *)
Definition or_byte (offset : nat) (bits : Z) : DsOutputState -> DsOutputState :=
  set_state (fun st => <[offset := u8 (Z.lor (byte_at st offset) bits)]> st).
Definition clear_byte (offset : nat) (bits : Z) : DsOutputState -> DsOutputState :=
  set_state (fun st => <[offset := u8 (Z.land (byte_at st offset) (Z.lnot bits))]> st).
Definition put_byte (offset : nat) (v : Z) : DsOutputState -> DsOutputState :=
  set_state <[offset := v]>.

(** [if (b) { f }] *)
Definition when (b : bool) (f : DsOutputState -> DsOutputState) (s : DsOutputState) :
    DsOutputState := if b then f s else s.

(** ** The update the host sends: the fields of [vds_set_state_data] *)

Section Decoded.
Context (update : list Z).

Definition enable_rumble_emulation := Z.testbit (byte_at update 0) 0.
Definition use_rumble_not_haptics := Z.testbit (byte_at update 0) 1.
Definition allow_right_trigger_ffb := Z.testbit (byte_at update 0) 2.
Definition allow_left_trigger_ffb := Z.testbit (byte_at update 0) 3.
Definition allow_headphone_volume := Z.testbit (byte_at update 0) 4.
Definition allow_speaker_volume := Z.testbit (byte_at update 0) 5.
Definition allow_mic_volume := Z.testbit (byte_at update 0) 6.
Definition allow_audio_control := Z.testbit (byte_at update 0) 7.
Definition allow_mute_light := Z.testbit (byte_at update 1) 0.
Definition allow_audio_mute := Z.testbit (byte_at update 1) 1.
Definition allow_led_color := Z.testbit (byte_at update 1) 2.
Definition allow_player_indicators := Z.testbit (byte_at update 1) 4.
Definition allow_audio_control2 := Z.testbit (byte_at update 1) 7.
Definition volume_headphones := byte_at update 4.
Definition volume_speaker := byte_at update 5.
Definition volume_mic := byte_at update 6.
Definition allow_light_brightness_change := Z.testbit (byte_at update 38) 0.
Definition allow_color_light_fade_animation := Z.testbit (byte_at update 38) 1.
Definition enable_improved_rumble_emulation := Z.testbit (byte_at update 38) 2.
Definition light_brightness := byte_at update 42.
End Decoded.

(** ** Operations *)

Definition apply_mic_select (s : DsOutputState) : DsOutputState :=
  let s := set_audio_control (u8 (Z.land (audio_control_ s) (Z.lnot kOutputMicSelectMask))) s in
  let s := set_audio_control
             (u8 (Z.lor (audio_control_ s)
                        (if headset_mic_plugged_ s then kOutputMicSelectAuto
                         else kOutputMicSelectInternal))) s in
  let s := or_byte kOutputFlag0Offset kOutputFlag0AudioControlEnable s in
  put_byte kOutputAudioControlOffset
    (audio_control_with_output_path (audio_control_ s) (audio_output_path_ s)) s.

(** The branches of [apply_usb_output_report], in their order. *)
Definition apply_rumble (update : list Z) (s : DsOutputState) : DsOutputState :=
  let s := set_state (fun st =>
    <[0%nat := set_state_bit (byte_at st 0) 0 (enable_rumble_emulation update)]> st) s in
  let s := set_state (fun st =>
    <[0%nat := set_state_bit (byte_at st 0) 1 (use_rumble_not_haptics update)]> st) s in
  let s := set_state (fun st =>
    <[38%nat := set_state_bit (byte_at st 38) 2 (enable_improved_rumble_emulation update)]> st) s in
  when (use_rumble_not_haptics update || enable_rumble_emulation update)
    (set_state (fun st => copy_state_bytes st update 2 2)) s.

Definition apply_volumes (update : list Z) (s : DsOutputState) : DsOutputState :=
  let s := when (allow_headphone_volume update) (fun s =>
    let s := or_byte kOutputFlag0Offset kOutputFlag0HeadphoneVolumeEnable s in
    let s := set_headphones_volume (volume_headphones update) s in
    set_state (fun st => copy_state_bytes st update kOutputHeadphoneVolumeOffset 1) s) s in
  let s := when (allow_speaker_volume update) (fun s =>
    let s := or_byte kOutputFlag0Offset kOutputFlag0SpeakerVolumeEnable s in
    let s := set_speaker_volume (volume_speaker update) s in
    set_state (fun st => copy_state_bytes st update kOutputSpeakerVolumeOffset 1) s) s in
  when (allow_mic_volume update) (fun s =>
    let s := or_byte kOutputFlag0Offset kOutputFlag0MicVolumeEnable s in
    let s := set_mic_volume (volume_mic update) s in
    put_byte kOutputMicVolumeOffset (mic_volume_ s) s) s.

Definition apply_audio (update : list Z) (s : DsOutputState) : DsOutputState :=
  let s := when (allow_audio_control update) (fun s =>
    let s := or_byte kOutputFlag0Offset kOutputFlag0AudioControlEnable s in
    let requested_control := byte_at update kOutputAudioControlOffset in
    let requested_non_path := Z.land requested_control kOutputAudioControlNonPathMask in
    let s := when (negb (requested_non_path =? 0)) (set_audio_control requested_non_path) s in
    let s := set_audio_output_path (Z.land requested_control kOutputPathMask) s in
    apply_mic_select s) s in
  let s := when (allow_audio_control2 update) (fun s =>
    let s := or_byte kOutputFlag1Offset kOutputFlag1AudioControl2Enable s in
    let s := set_audio_control2 (byte_at update kOutputAudioControl2Offset) s in
    set_state (fun st => copy_state_bytes st update kOutputAudioControl2Offset 1) s) s in
  let s := when (allow_audio_mute update) (fun s =>
    let s := or_byte kOutputFlag1Offset kOutputFlag1PowerSaveControlEnable s in
    let s := set_power_save_control (byte_at update kOutputPowerSaveControlOffset) s in
    put_byte kOutputPowerSaveControlOffset (power_save_control_ s) s) s in
  when (allow_speaker_volume update && negb (volume_speaker update =? 0)) (fun s =>
    let s := or_byte kOutputFlag0Offset
               (Z.lor kOutputFlag0AudioControlEnable kOutputFlag0SpeakerVolumeEnable) s in
    let s := or_byte kOutputFlag1Offset kOutputFlag1AudioControl2Enable s in
    let s := put_byte kOutputAudioControlOffset
               (audio_control_with_output_path (audio_control_ s) kOutputPathSpeaker) s in
    put_byte kOutputAudioControl2Offset (audio_control2_ s) s) s.

Definition copy_when (b : bool) (update : list Z) (offset length : nat) :
    DsOutputState -> DsOutputState :=
  when b (set_state (fun st => copy_state_bytes st update offset length)).

Definition apply_lights (update : list Z) (s : DsOutputState) : DsOutputState :=
  let s := copy_when (allow_mute_light update) update 8 1 s in
  let s := copy_when (allow_right_trigger_ffb update) update 10 11 s in
  let s := copy_when (allow_left_trigger_ffb update) update 21 11 s in
  let s := copy_when (allow_color_light_fade_animation update) update 41 1 s in
  let s := when (allow_light_brightness_change update) (fun s =>
    let s := set_state (fun st => copy_state_bytes st update kOutputLightBrightnessOffset 1) s in
    let s := set_light_brightness (light_brightness update) s in
    set_emulate true s) s in
  let s := copy_when (allow_player_indicators update) update (kOutputLedColorOffset - 1) 1 s in
  let s := when (allow_led_color update) (fun s =>
    let s := set_light_color [byte_at update kOutputLedColorOffset;
                              byte_at update (kOutputLedColorOffset + 1);
                              byte_at update (kOutputLedColorOffset + 2)] s in
    set_state (fun st => copy_state_bytes st update kOutputLedColorOffset 3) s) s in
  when (emulate_light_brightness_ s
        && (allow_light_brightness_change update || allow_led_color update)) (fun s =>
    let scaled (i : nat) := scale_light_component (byte_at (light_color_ s) i) (light_brightness_ s) in
    let s := put_byte (kOutputLedColorOffset + 0) (scaled 0%nat) s in
    let s := put_byte (kOutputLedColorOffset + 1) (scaled 1%nat) s in
    put_byte (kOutputLedColorOffset + 2) (scaled 2%nat) s) s.

Definition apply_update (update : list Z) (s : DsOutputState) : DsOutputState :=
  apply_lights update (apply_audio update (apply_volumes update (apply_rumble update s))).

(** The 47 bytes of an accepted report, [None] when the report is rejected. *)
Definition usb_output_update (report : list Z) : option (list Z) :=
  if (1 + kSetStateSize <=? length report)%nat && (byte_at report 0 =? VDS_USB_OUTPUT_REPORT_ID)
  then Some (take kSetStateSize (drop 1 report))
  else if (length report =? kSetStateSize)%nat then Some (take kSetStateSize report)
  else None.

Definition apply_usb_output_report (report : list Z) : prog DsOutputState bool := fun s =>
  match usb_output_update report with
  | None => (s, Ok false)
  | Some update => (apply_update update s, Ok true)
  end.

Definition set_audio_out_stream_active (active headset_plugged : bool) (s : DsOutputState) :
    DsOutputState :=
  let s := or_byte kOutputFlag0Offset kOutputFlag0AudioControlEnable s in
  let s := put_byte kOutputHeadphoneVolumeOffset (headphones_volume_ s) s in
  let silence_speaker (s : DsOutputState) :=
    let s := clear_byte kOutputFlag0Offset kOutputFlag0SpeakerVolumeEnable s in
    let s := clear_byte kOutputFlag1Offset kOutputFlag1AudioControl2Enable s in
    let s := put_byte kOutputSpeakerVolumeOffset 0 s in
    let s := put_byte kOutputAudioControl2Offset 0 s in
    let s := set_audio_output_path kOutputPathHeadphones s in
    put_byte kOutputAudioControlOffset
      (audio_control_with_output_path (audio_control_ s) (audio_output_path_ s)) s in
  if active then
    if headset_plugged then
      silence_speaker (or_byte kOutputFlag0Offset kOutputFlag0HeadphoneVolumeEnable s)
    else
      let s := or_byte kOutputFlag0Offset kOutputFlag0SpeakerVolumeEnable s in
      let s := or_byte kOutputFlag1Offset kOutputFlag1AudioControl2Enable s in
      let s := put_byte kOutputSpeakerVolumeOffset (speaker_volume_ s) s in
      let s := put_byte kOutputAudioControl2Offset (audio_control2_ s) s in
      let s := set_audio_output_path kOutputPathSpeaker s in
      put_byte kOutputAudioControlOffset
        (audio_control_with_output_path (audio_control_ s) (audio_output_path_ s)) s
  else silence_speaker s.

Definition set_headset_mic_plugged (plugged : bool) (s : DsOutputState) : DsOutputState :=
  let s := set_headset_flag plugged s in
  let s := or_byte kOutputFlag0Offset
             (Z.lor kOutputFlag0MicVolumeEnable kOutputFlag0AudioControlEnable) s in
  let s := put_byte kOutputMicVolumeOffset (mic_volume_ s) s in
  apply_mic_select s.

(** ** Reports *)

(** Report bytes 0..2 and the step of the 4-bit sequence number. *)
Definition next_sequence (n : Z) : Z := Z.land (n + 1) 0x0f.

Definition build_bt_init_report : prog DsOutputState (list Z) :=
  s ← get_state;
  let report := replicate kBtInitReportSize 0 in
  let report := <[0%nat := 0x32]> report in
  let report := <[1%nat := 0x10]> report in
  let report := <[2%nat := Z.lor 0x10 (Z.shiftl 1 7)]> report in
  let report := <[3%nat := Z.of_nat kDsStateSize]> report in
  let report := copy_into report 4 (state_ s) in
  lift (fill_output_report_checksum report).

Definition build_bt_state_report : prog DsOutputState (list Z) :=
  s ← get_state;
  let report := replicate kBtStateReportSize 0 in
  let report := <[0%nat := VDS_BT_STATE_REPORT_ID]> report in
  let report := <[1%nat := u8 (Z.shiftl (report_sequence_ s) 4)]> report in
  _ ← modify (set_report_sequence (next_sequence (report_sequence_ s)));
  let report := <[2%nat := 0x10]> report in
  let report := copy_into report kBtStateOffset (take kSetStateSize (state_ s)) in
  lift (fill_output_report_checksum report).

Definition build_bt_mic_report (active : bool) : prog DsOutputState (list Z) :=
  s ← get_state;
  let report := replicate kBtInitReportSize 0 in
  let report := <[0%nat := kBtMicReportId]> report in
  let report := <[1%nat := u8 (Z.shiftl (mic_sequence_ s) 4)]> report in
  let report := <[2%nat := 0x91]> report in
  let report := <[3%nat := 0x07]> report in
  let report := <[4%nat := if active then kBtMicOpen else kBtMicClose]> report in
  let report := copy_into report 5 (replicate 5 kBtAudioBufferLength) in
  let report := <[10%nat := mic_sequence_ s]> report in
  let report := <[11%nat := 0x92]> report in
  let report := <[12%nat := 0x40]> report in
  _ ← modify (set_mic_sequence (next_sequence (mic_sequence_ s)));
  lift (fill_output_report_checksum report).

Definition mic_power_save (s : DsOutputState) (active muted : bool) : Z :=
  if active && negb muted
  then u8 (Z.land (power_save_control_ s) (u8 (Z.lnot kOutputPowerSaveMicMute)))
  else u8 (Z.lor (power_save_control_ s) kOutputPowerSaveMicMute).

Definition mic_flags0 : Z := Z.lor kOutputFlag0MicVolumeEnable kOutputFlag0AudioControlEnable.
Definition mic_flags1 : Z :=
  Z.lor (Z.lor kOutputFlag1MicMuteLedControlEnable kOutputFlag1PowerSaveControlEnable)
        kOutputFlag1AudioControl2Enable.

(** The part of [build_bt_mic_state_report] that changes the state. *)
Definition apply_mic_state (active muted : bool) (s : DsOutputState) : DsOutputState :=
  let power_save_control := mic_power_save s active muted in
  let s := or_byte kOutputFlag0Offset mic_flags0 s in
  let s := or_byte kOutputFlag1Offset mic_flags1 s in
  let audio_control :=
    audio_control_with_output_path (audio_control_ s) (audio_output_path_ s) in
  let s := put_byte kOutputMicVolumeOffset
             (if active && negb muted then mic_volume_ s else 0) s in
  let s := put_byte kOutputAudioControlOffset audio_control s in
  let s := put_byte kOutputAudioControl2Offset (audio_control2_ s) s in
  let s := put_byte kOutputMuteLedOffset (if muted then kMuteLedOn else kMuteLedOff) s in
  put_byte kOutputPowerSaveControlOffset power_save_control s.

Definition build_bt_mic_state_report (active muted : bool) : prog DsOutputState (list Z) :=
  s0 ← get_state;
  let power_save_control := mic_power_save s0 active muted in
  _ ← modify (apply_mic_state active muted);
  s ← get_state;
  let report := replicate kBtStateReportSize 0 in
  let report := <[0%nat := VDS_BT_STATE_REPORT_ID]> report in
  let report := <[1%nat := u8 (Z.shiftl (report_sequence_ s) 4)]> report in
  _ ← modify (set_report_sequence (next_sequence (report_sequence_ s)));
  let report := <[2%nat := 0x10]> report in
  let put (offset : nat) (v : Z) := <[(kBtStateOffset + offset)%nat := v]> in
  let report := put kOutputFlag0Offset mic_flags0 report in
  let report := put kOutputFlag1Offset mic_flags1 report in
  let report := put kOutputMicVolumeOffset
                  (if active && negb muted then mic_volume_ s else 0) report in
  let report := put kOutputAudioControlOffset
                  (audio_control_with_output_path (audio_control_ s) (audio_output_path_ s)) report in
  let report := put kOutputMuteLedOffset (if muted then kMuteLedOn else kMuteLedOff) report in
  let report := put kOutputPowerSaveControlOffset power_save_control report in
  let report := put kOutputAudioControl2Offset (audio_control2_ s) report in
  lift (fill_output_report_checksum report).

(** ** The audio and haptics packet (class [HapticsPacketBuilder]) *)

Definition kBtHapticsReportSize : nat := 398.
Definition kHapticsSampleSize : nat := 64.
Definition kSpeakerOpusSize : nat := 200.
Definition kSpeakerBlockOffset : nat := 142.
Definition kSpeakerDataOffset : nat := 144.
Definition kSpeakerBlockControllerSpeaker : Z := 0x13.
Definition kSpeakerBlockHeadphones : Z := 0x16.
Definition kBtAudioSectionsEnable : Z := 0xff.
Definition kBtAudioSectionsDisableMic : Z := 0xfe.

Record HapticsPacketBuilder := mk_builder {
  haptics_report_sequence_ : Z;
  packet_sequence_ : Z
}.

(** [haptics] are signed samples; [memcpy] stores their two's complement. *)
Definition build_packet (haptics speaker state : list Z)
    (audio_sections_enabled headset_plugged : bool) : prog HapticsPacketBuilder (list Z) :=
  b ← get_state;
  let packet := replicate kBtHapticsReportSize 0 in
  let packet := <[0%nat := VDS_BT_HAPTICS_REPORT_ID]> packet in
  let packet := <[1%nat := u8 (Z.shiftl (haptics_report_sequence_ b) 4)]> packet in
  _ ← modify (fun b => mk_builder (next_sequence (haptics_report_sequence_ b)) (packet_sequence_ b));
  let packet := <[2%nat := Z.lor 0x11 (Z.shiftl 1 7)]> packet in
  let packet := <[3%nat := 7]> packet in
  let packet := <[4%nat := if audio_sections_enabled then kBtAudioSectionsEnable
                           else kBtAudioSectionsDisableMic]> packet in
  let packet := copy_into packet 5 (replicate 5 kBtAudioBufferLength) in
  let packet := <[10%nat := packet_sequence_ b]> packet in
  _ ← modify (fun b => mk_builder (haptics_report_sequence_ b) (u8 (packet_sequence_ b + 1)));
  let packet := <[11%nat := Z.lor 0x10 (Z.shiftl 1 7)]> packet in
  let packet := <[12%nat := Z.of_nat kDsStateSize]> packet in
  let packet := copy_into packet 13 state in
  let packet := <[76%nat := Z.lor 0x12 (Z.shiftl 1 7)]> packet in
  let packet := <[77%nat := Z.of_nat kHapticsSampleSize]> packet in
  let packet := copy_into packet 78 (u8 <$> haptics) in
  let packet := <[kSpeakerBlockOffset :=
      Z.lor (if headset_plugged then kSpeakerBlockHeadphones
             else kSpeakerBlockControllerSpeaker) (Z.shiftl 1 7)]> packet in
  let packet := <[(kSpeakerBlockOffset + 1)%nat := u8 (Z.of_nat kSpeakerOpusSize)]> packet in
  let packet := copy_into packet kSpeakerDataOffset speaker in
  lift (fill_output_report_checksum packet).
