(* ===== verification/OutputFacts.v ===== *)
(** What the controller output state guarantees: which state bytes a host
    report changes and to what, the invariant every operation keeps, and audio
    routing. *)
From stdpp Require Import base list strings numbers.
From Stdlib Require Import ZArith Lia.
From S2P Require Import Prelude Words Checksum BtPacket OutputState.

Local Open Scope Z_scope.

(** ** Reading the state byte by byte *)

Create HintDb out discriminated.

(** Byte [i] of the state. *)
Definition at_ (i : nat) (s : DsOutputState) : Z := byte_at (state_ s) i.

(** [v |= bits] when [b] holds. *)
Definition or_if (b : bool) (v bits : Z) : Z := if b then u8 (Z.lor v bits) else v.

(** A list of known length is given by its elements. *)
Lemma list_by_elements (l : list Z) n : length l = n -> exists b, l = b <$> seq 0 n.
Proof.
  intros <-. exists (byte_at l). apply list_eq. intros i.
  rewrite list_lookup_fmap. destruct (decide (i < length l)%nat) as [Hi|Hi].
  - rewrite lookup_seq_lt by done. simpl. destruct (lookup_lt_is_Some_2 l i Hi) as [x Hx].
    by rewrite (byte_at_lookup _ _ _ Hx).
  - rewrite lookup_ge_None_2 by lia. by rewrite lookup_seq_ge by lia.
Qed.

(** The state is [F] byte by byte. *)
Definition bytes_are (s : DsOutputState) (F : nat -> Z) : Prop :=
  state_ s = F <$> seq 0 kDsStateSize.

Lemma bytes_are_length s F : bytes_are s F -> length (state_ s) = kDsStateSize.
Proof. intros ->. by rewrite length_fmap, length_seq. Qed.

Lemma bytes_are_at s F i : bytes_are s F -> (i < kDsStateSize)%nat -> at_ i s = F i.
Proof.
  intros Hb Hi. unfold at_, byte_at. rewrite Hb, list_lookup_fmap, lookup_seq_lt by done. done.
Qed.

(** [apply_rumble] *)
Definition rumble_byte (u : list Z) (s : DsOutputState) (i : nat) : Z :=
  match i with
  | 0%nat => set_state_bit (set_state_bit (at_ 0 s) 0 (enable_rumble_emulation u)) 1
               (use_rumble_not_haptics u)
  | 2%nat | 3%nat =>
      if use_rumble_not_haptics u || enable_rumble_emulation u then byte_at u i else at_ i s
  | 38%nat => set_state_bit (at_ 38 s) 2 (enable_improved_rumble_emulation u)
  | _ => at_ i s
  end.

Ltac spell_out u s Hu Hs :=
  destruct s as [st ? ? ? ? ? ? ? ? ? ? ? ? ?]; cbn [state_] in Hs;
  apply list_by_elements in Hs as [? ->]; apply list_by_elements in Hu as [? ->].

Lemma rumble_spec u s :
  length u = kSetStateSize -> length (state_ s) = kDsStateSize ->
  bytes_are (apply_rumble u s) (rumble_byte u s).
Proof.
  intros Hu Hs. unfold apply_rumble, rumble_byte.
  generalize (enable_rumble_emulation u) (enable_improved_rumble_emulation u)
    (use_rumble_not_haptics u). intros b1 b2 b3. spell_out u s Hu Hs.
  destruct b3, b1; reflexivity.
Qed.

(** [apply_volumes] *)
Definition volumes_byte (u : list Z) (s : DsOutputState) (i : nat) : Z :=
  match i with
  | 0%nat => or_if (allow_mic_volume u) (or_if (allow_speaker_volume u)
               (or_if (allow_headphone_volume u) (at_ 0 s) 0x10) 0x20) 0x40
  | 4%nat => if allow_headphone_volume u then byte_at u 4 else at_ 4 s
  | 5%nat => if allow_speaker_volume u then byte_at u 5 else at_ 5 s
  | 6%nat => if allow_mic_volume u then byte_at u 6 else at_ 6 s
  | _ => at_ i s
  end.

Lemma volumes_spec u s :
  length u = kSetStateSize -> length (state_ s) = kDsStateSize ->
  bytes_are (apply_volumes u s) (volumes_byte u s).
Proof.
  intros Hu Hs. unfold apply_volumes, volumes_byte.
  generalize (allow_mic_volume u) (allow_speaker_volume u) (allow_headphone_volume u).
  intros b1 b2 b3. spell_out u s Hu Hs. destruct b1, b2, b3; reflexivity.
Qed.

(** [apply_audio]: the audio control byte the daemon keeps without its path
    bits, and the bytes it writes. *)
Definition mic_select (s : DsOutputState) : Z :=
  if headset_mic_plugged_ s then kOutputMicSelectAuto else kOutputMicSelectInternal.
Definition requested_non_path (u : list Z) : Z := Z.land (byte_at u 7) kOutputAudioControlNonPathMask.
Definition requested_path (u : list Z) : Z := Z.land (byte_at u 7) kOutputPathMask.
Definition select_mic (s : DsOutputState) (control : Z) : Z :=
  u8 (Z.lor (u8 (Z.land control (Z.lnot kOutputMicSelectMask))) (mic_select s)).
Definition next_audio_control (u : list Z) (s : DsOutputState) : Z :=
  if allow_audio_control u
  then select_mic s (if requested_non_path u =? 0 then audio_control_ s else requested_non_path u)
  else audio_control_ s.
(** The host turns the speaker up: it is routed to the speaker at once. *)
Definition speaker_raised (u : list Z) : bool :=
  allow_speaker_volume u && negb (volume_speaker u =? 0).

Definition audio_byte (u : list Z) (s : DsOutputState) (i : nat) : Z :=
  match i with
  | 0%nat => or_if (speaker_raised u) (or_if (allow_audio_control u)
               (or_if (allow_audio_control u) (at_ 0 s) 0x80) 0x80) 0xa0
  | 1%nat => or_if (speaker_raised u) (or_if (allow_audio_mute u)
               (or_if (allow_audio_control2 u) (at_ 1 s) 0x80) 0x02) 0x80
  | 7%nat =>
      if speaker_raised u
      then audio_control_with_output_path (next_audio_control u s) kOutputPathSpeaker
      else if allow_audio_control u
      then audio_control_with_output_path (next_audio_control u s) (requested_path u)
      else at_ 7 s
  | 9%nat => if allow_audio_mute u then byte_at u 9 else at_ 9 s
  | 37%nat =>
      if allow_audio_control2 u then byte_at u 37
      else if speaker_raised u then audio_control2_ s else at_ 37 s
  | _ => at_ i s
  end.

Lemma audio_spec u s :
  length u = kSetStateSize -> length (state_ s) = kDsStateSize ->
  bytes_are (apply_audio u s) (audio_byte u s).
Proof.
  intros Hu Hs. unfold apply_audio, audio_byte, next_audio_control, speaker_raised.
  generalize (allow_audio_control u) (allow_audio_control2 u) (allow_audio_mute u)
    (allow_speaker_volume u) (volume_speaker u =? 0).
  intros b1 b2 b3 b4 b5. cbv zeta. change (Z.land (byte_at u kOutputAudioControlOffset) kOutputAudioControlNonPathMask)
    with (requested_non_path u).
  unfold requested_path.
  generalize (requested_non_path u) (requested_non_path u =? 0). intros np b6.
  spell_out u s Hu Hs. destruct (b4 && negb b5), b1, b2, b3, b6; reflexivity.
Qed.

(** [apply_lights] *)
Definition next_brightness (u : list Z) (s : DsOutputState) : Z :=
  if allow_light_brightness_change u then light_brightness u else light_brightness_ s.
Definition next_color (u : list Z) (s : DsOutputState) (i : nat) : Z :=
  if allow_led_color u then byte_at u (44 + i) else byte_at (light_color_ s) i.
Definition light_scaled (u : list Z) (s : DsOutputState) : bool :=
  (allow_light_brightness_change u || emulate_light_brightness_ s)
  && (allow_light_brightness_change u || allow_led_color u).

Definition lights_byte (u : list Z) (s : DsOutputState) (i : nat) : Z :=
  let copied (b : bool) := if b then byte_at u i else at_ i s in
  if decide (i = 8)%nat then copied (allow_mute_light u)
  else if decide (10 <= i < 21)%nat then copied (allow_right_trigger_ffb u)
  else if decide (21 <= i < 32)%nat then copied (allow_left_trigger_ffb u)
  else if decide (i = 41)%nat then copied (allow_color_light_fade_animation u)
  else if decide (i = 42)%nat then copied (allow_light_brightness_change u)
  else if decide (i = 43)%nat then copied (allow_player_indicators u)
  else if decide (44 <= i < 47)%nat then
    if light_scaled u s
    then scale_light_component (next_color u s (i - 44)) (next_brightness u s)
    else copied (allow_led_color u)
  else at_ i s.

Lemma lights_spec u s :
  length u = kSetStateSize -> length (state_ s) = kDsStateSize ->
  bytes_are (apply_lights u s) (lights_byte u s).
Proof.
  intros Hu Hs. unfold apply_lights, lights_byte, light_scaled, next_color, next_brightness.
  generalize (allow_mute_light u) (allow_right_trigger_ffb u) (allow_left_trigger_ffb u)
    (allow_color_light_fade_animation u) (allow_light_brightness_change u)
    (allow_player_indicators u) (allow_led_color u).
  intros b1 b2 b3 b4 b5 b6 b7. destruct s as [st lc ? ? ? ? ? ? ? ? em ? ? ?]. cbn [state_] in Hs.
  apply list_by_elements in Hs as [? ->]; apply list_by_elements in Hu as [? ->].
  destruct b1, b2, b3, b4; destruct b6, b5, b7, em; reflexivity.
Qed.

(** ** The whole update *)

Lemma update_length u s :
  length u = kSetStateSize -> length (state_ s) = kDsStateSize ->
  length (state_ (apply_update u s)) = kDsStateSize.
Proof.
  intros Hu Hs. unfold apply_update.
  eapply bytes_are_length, lights_spec, bytes_are_length, audio_spec, bytes_are_length,
    volumes_spec, bytes_are_length, rumble_spec; done.
Qed.

Lemma update_at u s i :
  length u = kSetStateSize -> length (state_ s) = kDsStateSize -> (i < kDsStateSize)%nat ->
  at_ i (apply_update u s) =
  lights_byte u (apply_audio u (apply_volumes u (apply_rumble u s))) i.
Proof.
  intros Hu Hs Hi. unfold apply_update. apply bytes_are_at; [|done]. apply lights_spec; [done|].
  eapply bytes_are_length, audio_spec, bytes_are_length, volumes_spec, bytes_are_length,
    rumble_spec; done.
Qed.

(** A byte of the state before the lights, from the state at the start. *)
Lemma audio_at u s i :
  length u = kSetStateSize -> length (state_ s) = kDsStateSize -> (i < kDsStateSize)%nat ->
  at_ i (apply_audio u (apply_volumes u (apply_rumble u s))) =
  audio_byte u (apply_volumes u (apply_rumble u s)) i.
Proof.
  intros Hu Hs Hi. apply bytes_are_at; [|done]. apply audio_spec; [done|].
  eapply bytes_are_length, volumes_spec, bytes_are_length, rumble_spec; done.
Qed.

Lemma volumes_at u s i :
  length u = kSetStateSize -> length (state_ s) = kDsStateSize -> (i < kDsStateSize)%nat ->
  at_ i (apply_volumes u (apply_rumble u s)) = volumes_byte u (apply_rumble u s) i.
Proof.
  intros Hu Hs Hi. apply bytes_are_at; [|done]. apply volumes_spec; [done|].
  eapply bytes_are_length, rumble_spec; done.
Qed.

Lemma rumble_at u s i :
  length u = kSetStateSize -> length (state_ s) = kDsStateSize -> (i < kDsStateSize)%nat ->
  at_ i (apply_rumble u s) = rumble_byte u s i.
Proof. intros Hu Hs Hi. apply bytes_are_at; [|done]. by apply rumble_spec. Qed.

(** The other members. *)
Lemma copy_when_state b u o n s :
  copy_when b u o n s = set_state (fun st => if b then copy_state_bytes st u o n else st) s.
Proof. by destruct b, s. Qed.

Lemma rumble_members u s :
  light_color_ (apply_rumble u s) = light_color_ s /\
  emulate_light_brightness_ (apply_rumble u s) = emulate_light_brightness_ s /\
  light_brightness_ (apply_rumble u s) = light_brightness_ s /\
  headphones_volume_ (apply_rumble u s) = headphones_volume_ s /\
  speaker_volume_ (apply_rumble u s) = speaker_volume_ s /\
  mic_volume_ (apply_rumble u s) = mic_volume_ s /\
  audio_control_ (apply_rumble u s) = audio_control_ s /\
  audio_output_path_ (apply_rumble u s) = audio_output_path_ s /\
  audio_control2_ (apply_rumble u s) = audio_control2_ s /\
  power_save_control_ (apply_rumble u s) = power_save_control_ s /\
  headset_mic_plugged_ (apply_rumble u s) = headset_mic_plugged_ s /\
  report_sequence_ (apply_rumble u s) = report_sequence_ s /\
  mic_sequence_ (apply_rumble u s) = mic_sequence_ s.
Proof.
  unfold apply_rumble. cbv zeta. destruct (use_rumble_not_haptics u || enable_rumble_emulation u);
    split_and!; reflexivity.
Qed.

Lemma volumes_members u s :
  light_color_ (apply_volumes u s) = light_color_ s /\
  emulate_light_brightness_ (apply_volumes u s) = emulate_light_brightness_ s /\
  light_brightness_ (apply_volumes u s) = light_brightness_ s /\
  headphones_volume_ (apply_volumes u s) =
    (if allow_headphone_volume u then volume_headphones u else headphones_volume_ s) /\
  speaker_volume_ (apply_volumes u s) =
    (if allow_speaker_volume u then volume_speaker u else speaker_volume_ s) /\
  mic_volume_ (apply_volumes u s) =
    (if allow_mic_volume u then volume_mic u else mic_volume_ s) /\
  audio_control_ (apply_volumes u s) = audio_control_ s /\
  audio_output_path_ (apply_volumes u s) = audio_output_path_ s /\
  audio_control2_ (apply_volumes u s) = audio_control2_ s /\
  power_save_control_ (apply_volumes u s) = power_save_control_ s /\
  headset_mic_plugged_ (apply_volumes u s) = headset_mic_plugged_ s /\
  report_sequence_ (apply_volumes u s) = report_sequence_ s /\
  mic_sequence_ (apply_volumes u s) = mic_sequence_ s.
Proof.
  unfold apply_volumes. cbv zeta.
  destruct (allow_headphone_volume u), (allow_speaker_volume u), (allow_mic_volume u);
    split_and!; reflexivity.
Qed.

Lemma audio_members u s :
  light_color_ (apply_audio u s) = light_color_ s /\
  emulate_light_brightness_ (apply_audio u s) = emulate_light_brightness_ s /\
  light_brightness_ (apply_audio u s) = light_brightness_ s /\
  headphones_volume_ (apply_audio u s) = headphones_volume_ s /\
  speaker_volume_ (apply_audio u s) = speaker_volume_ s /\
  mic_volume_ (apply_audio u s) = mic_volume_ s /\
  audio_control_ (apply_audio u s) = next_audio_control u s /\
  audio_output_path_ (apply_audio u s) =
    (if allow_audio_control u then requested_path u else audio_output_path_ s) /\
  audio_control2_ (apply_audio u s) =
    (if allow_audio_control2 u then byte_at u 37 else audio_control2_ s) /\
  power_save_control_ (apply_audio u s) =
    (if allow_audio_mute u then byte_at u 9 else power_save_control_ s) /\
  headset_mic_plugged_ (apply_audio u s) = headset_mic_plugged_ s /\
  report_sequence_ (apply_audio u s) = report_sequence_ s /\
  mic_sequence_ (apply_audio u s) = mic_sequence_ s.
Proof.
  unfold apply_audio, next_audio_control, requested_non_path. cbv zeta.
  destruct (allow_audio_control u), (allow_audio_control2 u), (allow_audio_mute u),
    (allow_speaker_volume u && negb (volume_speaker u =? 0));
    try (split_and!; reflexivity);
    change kOutputAudioControlOffset with 7%nat;
    destruct (Z.land (byte_at u 7) kOutputAudioControlNonPathMask =? 0); split_and!; reflexivity.
Qed.

Lemma lights_members u s :
  light_color_ (apply_lights u s) =
    (if allow_led_color u then [byte_at u 44; byte_at u 45; byte_at u 46] else light_color_ s) /\
  emulate_light_brightness_ (apply_lights u s) =
    allow_light_brightness_change u || emulate_light_brightness_ s /\
  light_brightness_ (apply_lights u s) = next_brightness u s /\
  headphones_volume_ (apply_lights u s) = headphones_volume_ s /\
  speaker_volume_ (apply_lights u s) = speaker_volume_ s /\
  mic_volume_ (apply_lights u s) = mic_volume_ s /\
  audio_control_ (apply_lights u s) = audio_control_ s /\
  audio_output_path_ (apply_lights u s) = audio_output_path_ s /\
  audio_control2_ (apply_lights u s) = audio_control2_ s /\
  power_save_control_ (apply_lights u s) = power_save_control_ s /\
  headset_mic_plugged_ (apply_lights u s) = headset_mic_plugged_ s /\
  report_sequence_ (apply_lights u s) = report_sequence_ s /\
  mic_sequence_ (apply_lights u s) = mic_sequence_ s.
Proof.
  unfold apply_lights, next_brightness. cbv zeta. rewrite !copy_when_state.
  destruct s as [st lc ? ? ? ? ? ? ? ? em ? ? ?].
  destruct (allow_light_brightness_change u), (allow_led_color u), em;
    split_and!; reflexivity.
Qed.
