(* ===== verification/OutputInv.v ===== *)
(** The invariant of the controller output state: it holds at the start and
    every operation of the class keeps it. *)
From stdpp Require Import base list strings numbers.
From Stdlib Require Import ZArith Lia.
From S2P Require Import Prelude Words Checksum BtPacket OutputState OutputFacts.

Local Open Scope Z_scope.

(** ** The invariant *)

(** Bytes no operation writes. *)
Definition reserved (i : nat) : bool :=
  bool_decide (32 <= i < 37)%nat || bool_decide (39 <= i < 41)%nat
  || bool_decide (47 <= i < kDsStateSize)%nat.

Definition is_path (p : Z) : Prop := p = 0 \/ p = 0x10 \/ p = 0x20 \/ p = 0x30.

(** What the LED bytes show: the colour the host asked for, dimmed once it has
    set a brightness. *)
Definition led_byte (s : DsOutputState) (i : nat) : Z :=
  if emulate_light_brightness_ s
  then scale_light_component (byte_at (light_color_ s) i) (light_brightness_ s)
  else byte_at (light_color_ s) i.

Record out_ok (s : DsOutputState) : Prop := {
  ok_length : length (state_ s) = kDsStateSize;
  ok_bytes : forall i, (i < kDsStateSize)%nat -> is_u8 (at_ i s);
  ok_color : forall i, is_u8 (byte_at (light_color_ s) i);
  ok_members : is_u8 (headphones_volume_ s) /\ is_u8 (speaker_volume_ s) /\ is_u8 (mic_volume_ s)
    /\ is_u8 (audio_control2_ s) /\ is_u8 (power_save_control_ s) /\ is_u8 (light_brightness_ s);
  ok_sequences : 0 <= report_sequence_ s < 16 /\ 0 <= mic_sequence_ s < 16;
  ok_control : is_u8 (audio_control_ s) /\ Z.land (audio_control_ s) 0x33 = mic_select s;
  ok_path : is_path (audio_output_path_ s);
  ok_state_control : Z.land (at_ 7 s) 0xcf = audio_control_ s;
  ok_mirrors : at_ 4 s = headphones_volume_ s /\ at_ 42 s = light_brightness_ s;
  ok_led : forall i, (i < 3)%nat -> at_ (44 + i) s = led_byte s i;
  ok_reserved : forall i, reserved i = true -> at_ i s = 0
}.

(** ** Facts about bytes *)

Lemma or_if_u8 b v bits : is_u8 v -> is_u8 (or_if b v bits).
Proof. intros Hv. destruct b; [apply u8_range|done]. Qed.

Lemma if_u8 (b : bool) x y : is_u8 x -> is_u8 y -> is_u8 (if b then x else y).
Proof. by destruct b. Qed.

Lemma path_control_u8 c p : is_u8 (audio_control_with_output_path c p).
Proof. apply u8_range. Qed.

Lemma set_bit_u8 v i b : is_u8 (set_state_bit v i b).
Proof. apply u8_range. Qed.

Lemma scale_u8 c b : is_u8 (scale_light_component c b).
Proof. apply u8_range. Qed.
#[export] Hint Resolve or_if_u8 if_u8 path_control_u8 set_bit_u8 scale_u8 : words.

Lemma path_control_non_path c p :
  is_u8 c -> is_path p -> Z.land (audio_control_with_output_path c p) 0xcf = Z.land c 0xcf.
Proof.
  intros Hc Hp. apply Z.eqb_eq. revert c Hc.
  destruct Hp as [->|[->|[-> | ->]]]; apply all_bytes; by vm_compute.
Qed.

Lemma path_control_path c p :
  is_u8 c -> is_path p -> Z.land (audio_control_with_output_path c p) 0x30 = p.
Proof.
  intros Hc Hp. apply Z.eqb_eq. revert c Hc.
  destruct Hp as [->|[->|[-> | ->]]]; apply all_bytes; by vm_compute.
Qed.

Lemma non_path_id c : is_u8 c -> (Z.land c 0x33 = 0 \/ Z.land c 0x33 = 1) -> Z.land c 0xcf = c.
Proof.
  intros Hc H. assert (negb ((Z.land c 0x33 =? 0) || (Z.land c 0x33 =? 1)) || (Z.land c 0xcf =? c) = true)
    as Hb by (clear H; revert c Hc; apply all_bytes; by vm_compute).
  destruct (Z.eqb_spec (Z.land c 0xcf) c); [done|]. rewrite orb_false_r in Hb.
  destruct H as [H|H]; by rewrite H in Hb.
Qed.

Lemma mic_select_cases s : mic_select s = 0 \/ mic_select s = 1.
Proof. unfold mic_select. destruct (headset_mic_plugged_ s); auto. Qed.

Lemma select_mic_spec s c :
  is_u8 c -> Z.land c 0x30 = 0 -> Z.land (select_mic s c) 0x33 = mic_select s.
Proof.
  intros Hc H0. unfold select_mic.
  assert (forall m, m = 0 \/ m = 1 -> negb (Z.land c 0x30 =? 0) ||
    (Z.land (u8 (Z.lor (u8 (Z.land c (Z.lnot kOutputMicSelectMask))) m)) 0x33 =? m) = true) as Hb.
  { clear H0. intros m [-> | ->]; revert c Hc; apply all_bytes; by vm_compute. }
  specialize (Hb _ (mic_select_cases s)). rewrite H0 in Hb. by apply Z.eqb_eq.
Qed.

Lemma requested_path_ok u : bytes_ok u -> is_path (requested_path u).
Proof.
  intros Hu. unfold requested_path, is_path.
  assert (is_u8 (byte_at u 7)) as Hb by auto with words.
  generalize dependent (byte_at u 7). intros b Hb.
  assert ((Z.land b kOutputPathMask =? 0) || (Z.land b kOutputPathMask =? 0x10) ||
    (Z.land b kOutputPathMask =? 0x20) || (Z.land b kOutputPathMask =? 0x30) = true)
    by (revert b Hb; apply all_bytes; by vm_compute).
  lia.
Qed.

Lemma requested_non_path_ok u : bytes_ok u -> Z.land (requested_non_path u) 0x30 = 0.
Proof.
  intros Hu. unfold requested_non_path. apply Z.eqb_eq.
  assert (is_u8 (byte_at u 7)) as Hb by auto with words.
  generalize dependent (byte_at u 7). apply all_bytes. by vm_compute.
Qed.

Lemma land_33_30 c m : (m = 0 \/ m = 1) -> Z.land c 0x33 = m -> Z.land c 0x30 = 0.
Proof.
  intros Hm Hc. replace (Z.land c 0x30) with (Z.land (Z.land c 0x33) 0x30)
    by (rewrite <- Z.land_assoc; done).
  rewrite Hc. by destruct Hm as [-> | ->].
Qed.

(** ** The start *)

Lemma initial_ok : out_ok initial_output_state.
Proof.
  split; try (by vm_compute); try (repeat split; by vm_compute).
  - intros i Hi. by do 63 (destruct i as [|i]; [by vm_compute|]); unfold kDsStateSize in Hi; lia.
  - intros i. by do 3 (destruct i as [|i]; [by vm_compute|]).
  - unfold is_path. left. by vm_compute.
  - intros i Hi. by do 3 (destruct i as [|i]; [by vm_compute|]); lia.
  - intros i. by do 63 (destruct i as [|i]; [by vm_compute|]); vm_compute.
Qed.

(** ** Updates *)

(** A byte of a valid update. *)
Definition update_ok (u : list Z) : Prop := length u = kSetStateSize /\ bytes_ok u.

Lemma reserved_range i : reserved i = true -> (i < kDsStateSize)%nat.
Proof. unfold reserved, kDsStateSize. rewrite !orb_true_iff, !bool_decide_eq_true. lia. Qed.

(** A byte formula that leaves the reserved bytes alone. *)
Ltac keeps_reserved i :=
  do 63 (destruct i as [|i]; [intros; first [reflexivity|discriminate]|]);
  intros; first [reflexivity|discriminate].

Lemma rumble_reserved u s i : reserved i = true -> rumble_byte u s i = at_ i s.
Proof. keeps_reserved i. Qed.
Lemma volumes_reserved u s i : reserved i = true -> volumes_byte u s i = at_ i s.
Proof. keeps_reserved i. Qed.
Lemma audio_reserved u s i : reserved i = true -> audio_byte u s i = at_ i s.
Proof. keeps_reserved i. Qed.
Lemma lights_reserved u s i : reserved i = true -> lights_byte u s i = at_ i s.
Proof. keeps_reserved i. Qed.

(** What is left to show of the invariant for an operation given byte by byte. *)
Lemma bytes_are_ok s s' F :
  out_ok s -> bytes_are s' F ->
  (forall i, (i < kDsStateSize)%nat -> is_u8 (F i)) ->
  (forall i, reserved i = true -> F i = at_ i s) ->
  (forall i, is_u8 (byte_at (light_color_ s') i)) ->
  (is_u8 (headphones_volume_ s') /\ is_u8 (speaker_volume_ s') /\ is_u8 (mic_volume_ s')
    /\ is_u8 (audio_control2_ s') /\ is_u8 (power_save_control_ s') /\ is_u8 (light_brightness_ s')) ->
  (0 <= report_sequence_ s' < 16 /\ 0 <= mic_sequence_ s' < 16) ->
  (is_u8 (audio_control_ s') /\ Z.land (audio_control_ s') 0x33 = mic_select s') ->
  is_path (audio_output_path_ s') ->
  Z.land (F 7%nat) 0xcf = audio_control_ s' ->
  F 4%nat = headphones_volume_ s' -> F 42%nat = light_brightness_ s' ->
  (forall i, (i < 3)%nat -> F (44 + i)%nat = led_byte s' i) ->
  out_ok s'.
Proof.
  intros Hs HF Hb Hr Hc Hm Hq Hac Hp Hsc H4 H42 Hl.
  assert (forall i, (i < kDsStateSize)%nat -> at_ i s' = F i) as Ha by (intros; by apply bytes_are_at).
  split; try done.
  - by eapply bytes_are_length.
  - intros i Hi. rewrite Ha by done. auto.
  - rewrite Ha; [done|unfold kDsStateSize; lia].
  - rewrite !Ha by (unfold kDsStateSize; lia). done.
  - intros i Hi. rewrite Ha by (unfold kDsStateSize; lia). auto.
  - intros i Hi. rewrite Ha by by apply reserved_range. rewrite Hr by done. by apply Hs.
Qed.

(** The unchanged members of an operation, rewritten to those of the start. *)
Ltac members H := destruct H as (?&?&?&?&?&?&?&?&?&?&?&?&?).
Ltac same_members :=
  unfold mic_select, led_byte in *;
  repeat match goal with E : ?f ?s' = _ |- context [?f ?s'] => rewrite E end.

Lemma rumble_ok u s : update_ok u -> out_ok s -> out_ok (apply_rumble u s).
Proof.
  intros [Hu Hub] Hs. pose proof (rumble_spec u s Hu (ok_length s Hs)) as HF.
  pose proof (rumble_members u s) as Hm. members Hm. destruct (Hs) as [? Hsb ? ? ? ? ? ? [? ?] ? ?].
  eapply (bytes_are_ok s); [done|exact HF|..]; try (same_members; done).
  - intros i Hi. unfold rumble_byte. repeat case_match; subst; auto with words.
  - intros i. apply rumble_reserved.
Qed.

Lemma volumes_ok u s : update_ok u -> out_ok s -> out_ok (apply_volumes u s).
Proof.
  intros [Hu Hub] Hs. pose proof (volumes_spec u s Hu (ok_length s Hs)) as HF.
  pose proof (volumes_members u s) as Hm. members Hm.
  destruct (Hs) as [? Hsb ? (?&?&?&?&?&?) ? ? ? ? [Hm4 ?] ? ?].
  eapply (bytes_are_ok s); [done|exact HF|..]; try (same_members; done).
  - intros i Hi. unfold volumes_byte. repeat case_match; subst; auto with words.
  - intros i. apply volumes_reserved.
  - same_members. split_and!; auto with words; apply if_u8; auto with words; by apply byte_at_ok.
  - same_members. cbn [volumes_byte]. rewrite Hm4. done.
Qed.

Lemma audio_control_next u s :
  update_ok u -> out_ok s ->
  is_u8 (next_audio_control u s) /\ Z.land (next_audio_control u s) 0x33 = mic_select s.
Proof.
  intros [Hu Hub] Hs. destruct (ok_control s Hs) as [Hc Hsel]. unfold next_audio_control.
  destruct (allow_audio_control u); [|done]. split; [apply u8_range|]. apply select_mic_spec.
  - apply if_u8; [done|]. unfold requested_non_path. auto with words.
  - case_match; [|by apply requested_non_path_ok].
    eapply land_33_30; [|exact Hsel]. apply mic_select_cases.
Qed.

Lemma audio_ok u s : update_ok u -> out_ok s -> out_ok (apply_audio u s).
Proof.
  intros Huo Hs. pose proof (audio_control_next u s Huo Hs) as [Hc Hsel].
  destruct Huo as [Hu Hub]. pose proof (audio_spec u s Hu (ok_length s Hs)) as HF.
  pose proof (audio_members u s) as Hm. members Hm.
  destruct (Hs) as [? Hsb ? (?&?&?&?&?&?) ? ? ? Hsc [? ?] ? ?].
  assert (Z.land (next_audio_control u s) 0xcf = next_audio_control u s) as Hid.
  { apply non_path_id; [done|]. rewrite Hsel. apply mic_select_cases. }
  eapply (bytes_are_ok s); [done|exact HF|..]; try (same_members; done).
  - intros i Hi. unfold audio_byte. repeat case_match; subst; auto with words.
  - intros i. apply audio_reserved.
  - same_members. split_and!; auto with words; apply if_u8; auto with words.
  - same_members. destruct (allow_audio_control u); [by apply requested_path_ok|done].
  - same_members. cbn [audio_byte]. unfold audio_byte.
    destruct (speaker_raised u); [rewrite path_control_non_path; [done..|]; by do 3 right|].
    unfold next_audio_control in *. destruct (allow_audio_control u); [|done].
    rewrite path_control_non_path; [done..|]. by apply requested_path_ok.
Qed.

Lemma lights_ok u s : update_ok u -> out_ok s -> out_ok (apply_lights u s).
Proof.
  intros [Hu Hub] Hs. pose proof (lights_spec u s Hu (ok_length s Hs)) as HF.
  pose proof (lights_members u s) as Hm. members Hm.
  destruct (Hs) as [? Hsb ? (?&?&?&?&?&?) ? ? ? Hsc [? Hm42] Hled ?].
  eapply (bytes_are_ok s); [done|exact HF|..]; try (same_members; done).
  - intros i Hi. unfold lights_byte. repeat case_match; subst; auto with words.
  - intros i. apply lights_reserved.
  - intros i. same_members. destruct (allow_led_color u); [|done].
    apply byte_at_ok. repeat constructor; by apply byte_at_ok.
  - same_members. unfold next_brightness, light_brightness. split_and!; try done.
    apply if_u8; [by apply byte_at_ok|done].
  - same_members. unfold lights_byte, next_brightness. simpl. rewrite Hm42. done.
  - intros i Hi. unfold led_byte. same_members. specialize (Hled i Hi). unfold led_byte in Hled.
    assert (byte_at (if allow_led_color u then [byte_at u 44; byte_at u 45; byte_at u 46]
      else light_color_ s) i = next_color u s i) as ->.
    { unfold next_color. destruct (allow_led_color u); [|done].
      by do 3 (destruct i as [|i]; [done|]); lia. }
    assert (lights_byte u s (44 + i) = if light_scaled u s
      then scale_light_component (next_color u s i) (next_brightness u s)
      else if allow_led_color u then byte_at u (44 + i) else at_ (44 + i) s) as ->
      by (by do 3 (destruct i as [|i]; [done|]); lia).
    unfold light_scaled, next_color, next_brightness.
    destruct (allow_light_brightness_change u), (allow_led_color u),
      (emulate_light_brightness_ s); cbn [orb andb]; done.
Qed.

Lemma update_keeps_ok u s : update_ok u -> out_ok s -> out_ok (apply_update u s).
Proof.
  intros Hu Hs. unfold apply_update. by apply lights_ok, audio_ok, volumes_ok, rumble_ok.
Qed.

Lemma usb_output_update_ok r u : bytes_ok r -> usb_output_update r = Some u -> update_ok u.
Proof.
  intros Hr. unfold usb_output_update, update_ok.
  destruct (Nat.leb_spec (1 + kSetStateSize) (length r)) as [Hl|Hl]; cbn [andb].
  - destruct (byte_at r 0 =? VDS_USB_OUTPUT_REPORT_ID).
    + intros [= <-]. rewrite length_take, length_drop. split; [lia|auto with words].
    + destruct (Nat.eqb_spec (length r) kSetStateSize); [lia|done].
  - destruct (Nat.eqb_spec (length r) kSetStateSize); [|done].
    intros [= <-]. rewrite length_take. split; [lia|auto with words].
Qed.

(** ** The other operations *)

Definition speaker_route (active headset_plugged : bool) : bool := active && negb headset_plugged.
Definition route_path (active headset_plugged : bool) : Z :=
  if speaker_route active headset_plugged then kOutputPathSpeaker else kOutputPathHeadphones.

Definition stream_byte (active plugged : bool) (s : DsOutputState) (i : nat) : Z :=
  let speaker := speaker_route active plugged in
  let clear (v bits : Z) := u8 (Z.land v (Z.lnot bits)) in
  match i with
  | 0%nat =>
      if speaker then or_if true (or_if true (at_ 0 s) 0x80) 0x20
      else clear (or_if active (or_if true (at_ 0 s) 0x80) 0x10) 0x20
  | 1%nat => if speaker then or_if true (at_ 1 s) 0x80 else clear (at_ 1 s) 0x80
  | 4%nat => headphones_volume_ s
  | 5%nat => if speaker then speaker_volume_ s else 0
  | 7%nat => audio_control_with_output_path (audio_control_ s) (route_path active plugged)
  | 37%nat => if speaker then audio_control2_ s else 0
  | _ => at_ i s
  end.

Ltac spell_state s Hs :=
  destruct s as [st ? ? ? ? ? ? ? ? ? ? ? ? ?]; cbn [state_] in Hs;
  apply list_by_elements in Hs as [? ->].

Lemma stream_spec a p s :
  length (state_ s) = kDsStateSize ->
  bytes_are (set_audio_out_stream_active a p s) (stream_byte a p s).
Proof. intros Hs. spell_state s Hs. destruct a, p; reflexivity. Qed.

Lemma stream_ok a p s : out_ok s -> out_ok (set_audio_out_stream_active a p s).
Proof.
  intros Hs. pose proof (stream_spec a p s (ok_length s Hs)) as HF.
  destruct (Hs) as [? Hsb ? (?&?&?&?&?&?) ? [? Hsel] ? Hsc [? ?] ? ?].
  assert (is_path (route_path a p)) by (destruct a, p; unfold is_path; tauto).
  eapply (bytes_are_ok s); [done|exact HF|..]; try (destruct a, p; done).
  - intros i Hi. unfold stream_byte. cbv zeta. repeat case_match; subst; auto with words.
  - intros i. keeps_reserved i.
  - assert (audio_control_ (set_audio_out_stream_active a p s) = audio_control_ s) as ->
      by (by destruct a, p).
    unfold stream_byte. rewrite path_control_non_path by done.
    apply non_path_id; [done|]. rewrite Hsel. apply mic_select_cases.
Qed.

Definition headset_byte (plugged : bool) (s : DsOutputState) (i : nat) : Z :=
  match i with
  | 0%nat => or_if true (or_if true (at_ 0 s) 0xc0) 0x80
  | 6%nat => mic_volume_ s
  | 7%nat => audio_control_with_output_path
               (select_mic (set_headset_flag plugged s) (audio_control_ s)) (audio_output_path_ s)
  | _ => at_ i s
  end.

Lemma headset_spec p s :
  length (state_ s) = kDsStateSize ->
  bytes_are (set_headset_mic_plugged p s) (headset_byte p s).
Proof. intros Hs. spell_state s Hs. destruct p; reflexivity. Qed.

Lemma headset_ok p s : out_ok s -> out_ok (set_headset_mic_plugged p s).
Proof.
  intros Hs. pose proof (headset_spec p s (ok_length s Hs)) as HF.
  destruct (Hs) as [? Hsb ? (?&?&?&?&?&?) ? [Hac Hsel] ? Hsc [? ?] Hled ?].
  set (s' := set_headset_flag p s).
  assert (audio_control_ (set_headset_mic_plugged p s) = select_mic s' (audio_control_ s)) as Hc
    by (by destruct p).
  assert (Z.land (select_mic s' (audio_control_ s)) 0x33 = mic_select s') as Hm.
  { apply select_mic_spec; [done|]. eapply land_33_30; [|exact Hsel]. apply mic_select_cases. }
  assert (is_u8 (select_mic s' (audio_control_ s))) by apply u8_range.
  eapply (bytes_are_ok s); [done|exact HF|..]; try done.
  - intros i Hi. unfold headset_byte. repeat case_match; subst; auto with words.
  - intros i. keeps_reserved i.
  - rewrite Hc. unfold headset_byte. fold s'. rewrite path_control_non_path by done.
    apply non_path_id; [done|]. rewrite Hm. apply mic_select_cases.
Qed.

Definition mic_byte (active muted : bool) (s : DsOutputState) (i : nat) : Z :=
  match i with
  | 0%nat => or_if true (at_ 0 s) 0xc0
  | 1%nat => or_if true (at_ 1 s) 0x83
  | 6%nat => if active && negb muted then mic_volume_ s else 0
  | 7%nat => audio_control_with_output_path (audio_control_ s) (audio_output_path_ s)
  | 8%nat => if muted then 1 else 0
  | 9%nat => mic_power_save s active muted
  | 37%nat => audio_control2_ s
  | _ => at_ i s
  end.

Lemma mic_spec a m s :
  length (state_ s) = kDsStateSize -> bytes_are (apply_mic_state a m s) (mic_byte a m s).
Proof. intros Hs. spell_state s Hs. destruct a, m; reflexivity. Qed.

Lemma mic_power_save_u8 s a m : is_u8 (mic_power_save s a m).
Proof. unfold mic_power_save. case_match; apply u8_range. Qed.
#[export] Hint Resolve mic_power_save_u8 : words.

Lemma mic_ok a m s : out_ok s -> out_ok (apply_mic_state a m s).
Proof.
  intros Hs. pose proof (mic_spec a m s (ok_length s Hs)) as HF.
  destruct (Hs) as [? Hsb ? (?&?&?&?&?&?) ? [Hac Hsel] ? Hsc [? ?] Hled ?].
  eapply (bytes_are_ok s); [done|exact HF|..]; try done.
  - intros i Hi. unfold mic_byte. repeat case_match; subst; auto with words.
  - intros i. keeps_reserved i.
  - unfold mic_byte. rewrite path_control_non_path by done.
    change (Z.land (audio_control_ s) 0xcf = audio_control_ s).
    apply non_path_id; [done|]. rewrite Hsel. apply mic_select_cases.
Qed.

Lemma next_sequence_range n : 0 <= next_sequence n < 16.
Proof. unfold next_sequence. change 0x0f with (Z.ones 4). rewrite Z.land_ones by lia. apply Z.mod_pos_bound. lia. Qed.

Lemma next_sequence_spec n : next_sequence n = (n + 1) mod 16.
Proof. unfold next_sequence. change 0x0f with (Z.ones 4). by rewrite Z.land_ones by lia. Qed.

Lemma report_sequence_ok n s : 0 <= n < 16 -> out_ok s -> out_ok (set_report_sequence n s).
Proof.
  intros Hn Hs. destruct Hs as [? ? ? ? [? ?] ? ? ? ? ? ?]. by split.
Qed.
Lemma mic_sequence_ok n s : 0 <= n < 16 -> out_ok s -> out_ok (set_mic_sequence n s).
Proof.
  intros Hn Hs. destruct Hs as [? ? ? ? [? ?] ? ? ? ? ? ?]. by split.
Qed.
#[export] Hint Resolve update_keeps_ok stream_ok headset_ok mic_ok report_sequence_ok
  mic_sequence_ok next_sequence_range initial_ok : out.
