(* ===== verification/OutputReports.v ===== *)
(** The Bluetooth reports built from the controller output state: layout,
    sequence numbers and checksums; then what a report of the host does to the state. *)
From stdpp Require Import base list strings numbers relations.
From Stdlib Require Import ZArith Lia.
From S2P Require Import Prelude Words Checksum BtPacket OutputState OutputFacts OutputInv.

Local Open Scope Z_scope.

(** ** Layout *)

Lemma state_bytes_ok s : out_ok s -> bytes_ok (state_ s).
Proof.
  intros Hs. apply Forall_lookup. intros i b Hi. rewrite <- (byte_at_lookup _ _ _ Hi).
  apply (ok_bytes s Hs). apply lookup_lt_Some in Hi. by rewrite (ok_length s Hs) in Hi.
Qed.

Lemma sequence_byte n : 0 <= n < 16 -> u8 (Z.shiftl n 4) = 16 * n.
Proof.
  intros Hn. rewrite Z.shiftl_mul_pow2 by lia. change (2 ^ 4) with 16.
  rewrite u8_id; unfold is_u8; lia.
Qed.

Lemma sequence_byte_u8 n : 0 <= n < 16 -> is_u8 (16 * n).
Proof. unfold is_u8. lia. Qed.
#[export] Hint Resolve sequence_byte_u8 : words.

(** A report of fixed size: its checksum is filled in, over all but its last
    four bytes. *)
Lemma filled report body :
  bytes_ok report -> (4 <= length report)%nat -> take (length report - 4) report = body ->
  fill_output_report_checksum report = Ok (checksummed 0xa2 body).
Proof.
  intros Hok Hl <-. rewrite fill_output_spec by done. by rewrite (proj2 (Nat.ltb_ge _ _)).
Qed.

Definition state_report_body (s : DsOutputState) : list Z :=
  [0x31; 16 * report_sequence_ s; 0x10] ++ take 47 (state_ s) ++ replicate 24 0.

Lemma state_report_spec s :
  out_ok s ->
  build_bt_state_report s =
  (set_report_sequence ((report_sequence_ s + 1) mod 16) s,
   Ok (checksummed 0xa2 (state_report_body s))).
Proof.
  intros Hs. pose proof (state_bytes_ok s Hs) as Hb. pose proof (ok_sequences s Hs) as [Hq _].
  unfold build_bt_state_report, mbind, prog_bind, get_state, modify, lift.
  rewrite next_sequence_spec, sequence_byte by done. f_equal. unfold state_report_body.
  pose proof (list_by_elements _ _ (ok_length s Hs)) as [b Hst]. rewrite Hst in *.
  apply filled; [|apply Nat.leb_le; reflexivity|reflexivity].
  assert (is_u8 (16 * report_sequence_ s)) by auto with words.
  apply bytes_ok_copy; [|by apply bytes_ok_take]. auto 10 with words.
Qed.

Definition mic_report_body (active : bool) (s : DsOutputState) : list Z :=
  [0x32; 16 * mic_sequence_ s; 0x91; 0x07; if active then 0xff else 0xfe]
  ++ replicate 5 64 ++ [mic_sequence_ s; 0x92; 0x40] ++ replicate 125 0.

Lemma mic_report_spec active s :
  out_ok s ->
  build_bt_mic_report active s =
  (set_mic_sequence ((mic_sequence_ s + 1) mod 16) s,
   Ok (checksummed 0xa2 (mic_report_body active s))).
Proof.
  intros Hs. pose proof (ok_sequences s Hs) as [_ Hq].
  unfold build_bt_mic_report, mbind, prog_bind, get_state, modify, lift.
  rewrite next_sequence_spec, sequence_byte by done. f_equal. unfold mic_report_body.
  apply filled; [|apply Nat.leb_le; reflexivity|destruct active; reflexivity].
  assert (is_u8 (16 * mic_sequence_ s)) by auto with words.
  assert (is_u8 (mic_sequence_ s)) by (unfold is_u8; lia).
  destruct active; repeat (apply bytes_ok_insert; [|done]); apply bytes_ok_copy;
    repeat (apply bytes_ok_insert; [|done]); auto with words; by apply Forall_replicate.
Qed.

Lemma init_report_spec s :
  out_ok s ->
  build_bt_init_report s =
  (s, Ok (checksummed 0xa2 ([0x32; 0x10; 0x90; 63] ++ state_ s ++ replicate 71 0))).
Proof.
  intros Hs. pose proof (state_bytes_ok s Hs) as Hb.
  unfold build_bt_init_report, mbind, prog_bind, get_state, lift. f_equal.
  pose proof (list_by_elements _ _ (ok_length s Hs)) as [b Hst]. rewrite Hst in *.
  apply filled; [|apply Nat.leb_le; reflexivity|reflexivity].
  apply bytes_ok_copy; [|done]. repeat (apply bytes_ok_insert; [|done]). auto with words.
Qed.

(** The state part of a microphone state report: only the audio bytes, the
    others zero. *)
Definition mic_state_part (active muted : bool) (s : DsOutputState) : list Z :=
  [0xc0; 0x83; 0; 0; 0; 0; if active && negb muted then mic_volume_ s else 0;
   audio_control_with_output_path (audio_control_ s) (audio_output_path_ s);
   if muted then 1 else 0; mic_power_save s active muted]
  ++ replicate 27 0 ++ [audio_control2_ s] ++ replicate 9 0.

Lemma mic_state_filled q mv ac mute ps a2 :
  is_u8 q -> is_u8 mv -> is_u8 ac -> is_u8 mute -> is_u8 ps -> is_u8 a2 ->
  fill_output_report_checksum
    (<[40%nat := a2]> (<[12%nat := ps]> (<[11%nat := mute]> (<[10%nat := ac]> (<[9%nat := mv]>
    (<[4%nat := mic_flags1]> (<[3%nat := mic_flags0]> (<[2%nat := 0x10]> (<[1%nat := q]>
    (<[0%nat := VDS_BT_STATE_REPORT_ID]> (replicate kBtStateReportSize 0))))))))))) =
  Ok (checksummed 0xa2 ([0x31; q; 0x10]
    ++ ([0xc0; 0x83; 0; 0; 0; 0; mv; ac; mute; ps] ++ replicate 27 0 ++ [a2] ++ replicate 9 0)
    ++ replicate 24 0)).
Proof.
  intros. apply filled; [|apply Nat.leb_le; reflexivity|reflexivity].
  repeat (apply bytes_ok_insert; [|done]). auto with words.
Qed.

Lemma mic_state_report_spec active muted s :
  out_ok s ->
  build_bt_mic_state_report active muted s =
  (set_report_sequence ((report_sequence_ s + 1) mod 16) (apply_mic_state active muted s),
   Ok (checksummed 0xa2 ([0x31; 16 * report_sequence_ s; 0x10]
         ++ mic_state_part active muted s ++ replicate 24 0))).
Proof.
  intros Hs. pose proof (ok_sequences s Hs) as [Hq _].
  destruct (ok_members s Hs) as (_ & _ & Hmv & Ha2 & _).
  unfold build_bt_mic_state_report, mbind, prog_bind, get_state, modify, lift.
  assert (report_sequence_ (apply_mic_state active muted s) = report_sequence_ s) as -> by done.
  assert (mic_volume_ (apply_mic_state active muted s) = mic_volume_ s) as -> by done.
  assert (audio_control2_ (apply_mic_state active muted s) = audio_control2_ s) as -> by done.
  assert (audio_control_ (apply_mic_state active muted s) = audio_control_ s) as -> by done.
  assert (audio_output_path_ (apply_mic_state active muted s) = audio_output_path_ s) as -> by done.
  rewrite next_sequence_spec, sequence_byte by done. f_equal.
  apply mic_state_filled; auto with words.
Qed.

(** ** The audio and haptics packet *)

Definition builder_ok (b : HapticsPacketBuilder) : Prop :=
  0 <= haptics_report_sequence_ b < 16 /\ is_u8 (packet_sequence_ b).

Definition haptics_body (b : HapticsPacketBuilder) (haptics speaker state : list Z)
    (mic headset : bool) : list Z :=
  [0x36; 16 * haptics_report_sequence_ b; 0x91; 7; if mic then 0xff else 0xfe]
  ++ replicate 5 64 ++ [packet_sequence_ b; 0x90; 63] ++ state
  ++ [0x92; 64] ++ (u8 <$> haptics)
  ++ [if headset then 0x96 else 0x93; 200] ++ speaker ++ replicate 50 0.

Lemma haptics_filled q n mic h block haptics speaker state :
  is_u8 q -> is_u8 n -> is_u8 mic -> is_u8 block ->
  length haptics = kHapticsSampleSize -> length speaker = kSpeakerOpusSize ->
  length state = kDsStateSize -> bytes_ok haptics -> bytes_ok speaker -> bytes_ok state ->
  h = copy_into (<[12%nat := Z.of_nat kDsStateSize]> (<[11%nat := Z.lor 0x10 (Z.shiftl 1 7)]>
      (<[10%nat := n]> (copy_into (<[4%nat := mic]> (<[3%nat := 7]>
      (<[2%nat := Z.lor 0x11 (Z.shiftl 1 7)]> (<[1%nat := q]>
      (<[0%nat := VDS_BT_HAPTICS_REPORT_ID]> (replicate kBtHapticsReportSize 0))))))
      5 (replicate 5 kBtAudioBufferLength))))) 13 state ->
  fill_output_report_checksum
    (copy_into (<[(kSpeakerBlockOffset + 1)%nat := u8 (Z.of_nat kSpeakerOpusSize)]>
      (<[kSpeakerBlockOffset := block]>
      (copy_into (<[77%nat := Z.of_nat kHapticsSampleSize]>
        (<[76%nat := Z.lor 0x12 (Z.shiftl 1 7)]> h)) 78 haptics)))
      kSpeakerDataOffset speaker) =
  Ok (checksummed 0xa2 ([0x36; q; 0x91; 7; mic] ++ replicate 5 64 ++ [n; 0x90; 63] ++ state
    ++ [0x92; 64] ++ haptics ++ [block; 200] ++ speaker ++ replicate 50 0)).
Proof.
  intros Hq Hn Hm Hbl Hh Hsp Hst Hhb Hspb Hstb ->.
  apply list_by_elements in Hh as [bh ->]. apply list_by_elements in Hsp as [bs ->].
  apply list_by_elements in Hst as [bt ->].
  apply filled; [|apply Nat.leb_le; reflexivity|reflexivity].
  apply bytes_ok_copy; [|done]. repeat (apply bytes_ok_insert; [|done]).
  apply bytes_ok_copy; [|done]. repeat (apply bytes_ok_insert; [|done]).
  apply bytes_ok_copy; [|done]. repeat (apply bytes_ok_insert; [|done]).
  apply bytes_ok_copy; [|by apply Forall_replicate]. repeat (apply bytes_ok_insert; [|done]).
  auto with words.
Qed.

Lemma bytes_ok_u8 l : bytes_ok (u8 <$> l).
Proof. apply Forall_fmap. apply Forall_true. intros x. apply u8_range. Qed.

Lemma build_packet_spec b haptics speaker state mic headset :
  builder_ok b -> length haptics = kHapticsSampleSize -> length speaker = kSpeakerOpusSize ->
  length state = kDsStateSize -> bytes_ok speaker -> bytes_ok state ->
  build_packet haptics speaker state mic headset b =
  (mk_builder ((haptics_report_sequence_ b + 1) mod 16) ((packet_sequence_ b + 1) mod 256),
   Ok (checksummed 0xa2 (haptics_body b haptics speaker state mic headset))).
Proof.
  intros [Hq Hn] Hh Hsp Hst Hspb Hstb.
  unfold build_packet, mbind, prog_bind, get_state, modify, lift.
  rewrite next_sequence_spec, sequence_byte by done. f_equal.
  unfold haptics_body.
  replace (if headset then 0x96 else 0x93) with
    (Z.lor (if headset then kSpeakerBlockHeadphones else kSpeakerBlockControllerSpeaker)
       (Z.shiftl 1 7)) by by destruct headset.
  eapply haptics_filled; auto with words.
  - by rewrite length_fmap.
  - apply bytes_ok_u8.
Qed.

(** ** Reachable states *)

(** One call of a public operation; the reports are dropped. *)
Inductive output_step (s : DsOutputState) : DsOutputState -> Prop :=
  | step_usb_report r : bytes_ok r -> output_step s (apply_usb_output_report r s).1
  | step_stream active plugged : output_step s (set_audio_out_stream_active active plugged s)
  | step_headset plugged : output_step s (set_headset_mic_plugged plugged s)
  | step_mic_state active muted : output_step s (build_bt_mic_state_report active muted s).1
  | step_mic active : output_step s (build_bt_mic_report active s).1
  | step_init : output_step s (build_bt_init_report s).1
  | step_state : output_step s (build_bt_state_report s).1.

Lemma output_step_ok s s' : out_ok s -> output_step s s' -> out_ok s'.
Proof.
  assert (forall n, 0 <= n mod 16 < 16) by (intros; apply Z.mod_pos_bound; lia).
  intros Hs [r Hr|a p|p|a m|a| |]; auto with out.
  - unfold apply_usb_output_report. destruct (usb_output_update r) as [u|] eqn:Hu; [|done].
    apply update_keeps_ok; [|done]. by eapply usb_output_update_ok.
  - rewrite mic_state_report_spec by done. by apply report_sequence_ok, mic_ok.
  - rewrite mic_report_spec by done. by apply mic_sequence_ok.
  - rewrite state_report_spec by done. by apply report_sequence_ok.
Qed.

(** The bytes a report copies as they are, with the flag that asks for it. *)
Definition copied_by (u : list Z) (i : nat) : option bool :=
  if decide (2 <= i < 4)%nat then Some (use_rumble_not_haptics u || enable_rumble_emulation u)
  else if decide (i = 4)%nat then Some (allow_headphone_volume u)
  else if decide (i = 5)%nat then Some (allow_speaker_volume u)
  else if decide (i = 6)%nat then Some (allow_mic_volume u)
  else if decide (i = 8)%nat then Some (allow_mute_light u)
  else if decide (i = 9)%nat then Some (allow_audio_mute u)
  else if decide (10 <= i < 21)%nat then Some (allow_right_trigger_ffb u)
  else if decide (21 <= i < 32)%nat then Some (allow_left_trigger_ffb u)
  else if decide (i = 41)%nat then Some (allow_color_light_fade_animation u)
  else if decide (i = 42)%nat then Some (allow_light_brightness_change u)
  else if decide (i = 43)%nat then Some (allow_player_indicators u)
  else if reserved i then Some false
  else None.

Ltac bytes_of_update Hu Hs :=
  rewrite ?update_at, ?audio_at, ?volumes_at, ?rumble_at by first [done|unfold kDsStateSize; lia].

Lemma copied_byte u s i flag :
  update_ok u -> out_ok s -> copied_by u i = Some flag ->
  at_ i (apply_update u s) = if flag then byte_at u i else at_ i s.
Proof.
  intros [Hu Hub] Hs. pose proof (ok_length s Hs) as Hl.
  do 63 (destruct i as [|i]; [unfold copied_by; simpl; intros H; (discriminate || injection H as <-);
    rewrite update_at by first [done|unfold kDsStateSize; lia];
    unfold lights_byte; simpl decide; cbv iota;
    rewrite audio_at by first [done|unfold kDsStateSize; lia];
    unfold audio_byte; rewrite ?volumes_at by first [done|unfold kDsStateSize; lia];
    unfold volumes_byte; rewrite ?rumble_at by first [done|unfold kDsStateSize; lia];
    reflexivity|]).
  done.
Qed.

(** The bits of the flag bytes 0, 1 and 38 after an update: what the report asks for stays
    asked for, and the rumble bits are the report's. *)
Definition flag_after (u : list Z) (s : DsOutputState) (i j : nat) : bool :=
  let before := Z.testbit (at_ i s) (Z.of_nat j) in
  match i, j with
  | 0%nat, 0%nat => enable_rumble_emulation u
  | 0%nat, 1%nat => use_rumble_not_haptics u
  | 0%nat, 4%nat => before || allow_headphone_volume u
  | 0%nat, 5%nat => before || allow_speaker_volume u
  | 0%nat, 6%nat => before || allow_mic_volume u
  | 0%nat, 7%nat => before || allow_audio_control u || speaker_raised u
  | 1%nat, 1%nat => before || allow_audio_mute u
  | 1%nat, 7%nat => before || allow_audio_control2 u || speaker_raised u
  | 38%nat, 2%nat => enable_improved_rumble_emulation u
  | _, _ => before
  end.

(** What an update makes of the bytes that are not copied, and of the members. *)
Record updated (u : list Z) (s s' : DsOutputState) : Prop := {
  up_flags i j : i ∈ [0; 1; 38]%nat -> (j < 8)%nat -> Z.testbit (at_ i s') (Z.of_nat j) = flag_after u s i j;
  up_audio_byte : at_ 7 s' =
    if speaker_raised u then audio_control_with_output_path (next_audio_control u s) kOutputPathSpeaker
    else if allow_audio_control u
    then audio_control_with_output_path (next_audio_control u s) (requested_path u)
    else at_ 7 s;
  up_audio2_byte : at_ 37 s' =
    if allow_audio_control2 u then byte_at u 37
    else if speaker_raised u then audio_control2_ s else at_ 37 s;
  up_color_bytes i : (i < 3)%nat -> at_ (44 + i) s' =
    if light_scaled u s then scale_light_component (next_color u s i) (next_brightness u s)
    else if allow_led_color u then byte_at u (44 + i) else at_ (44 + i) s;
  up_length : length (state_ s') = kDsStateSize;
  up_color : light_color_ s' =
    if allow_led_color u then [byte_at u 44; byte_at u 45; byte_at u 46] else light_color_ s;
  up_emulate : emulate_light_brightness_ s' = allow_light_brightness_change u || emulate_light_brightness_ s;
  up_brightness : light_brightness_ s' = next_brightness u s;
  up_headphones : headphones_volume_ s' =
    if allow_headphone_volume u then volume_headphones u else headphones_volume_ s;
  up_speaker : speaker_volume_ s' = if allow_speaker_volume u then volume_speaker u else speaker_volume_ s;
  up_mic : mic_volume_ s' = if allow_mic_volume u then volume_mic u else mic_volume_ s;
  up_control : audio_control_ s' = next_audio_control u s;
  up_path : audio_output_path_ s' = if allow_audio_control u then requested_path u else audio_output_path_ s;
  up_control2 : audio_control2_ s' = if allow_audio_control2 u then byte_at u 37 else audio_control2_ s;
  up_power_save : power_save_control_ s' = if allow_audio_mute u then byte_at u 9 else power_save_control_ s;
  up_rest : headset_mic_plugged_ s' = headset_mic_plugged_ s /\ report_sequence_ s' = report_sequence_ s
            /\ mic_sequence_ s' = mic_sequence_ s
}.

(** The bytes that are not copied, from the state at the start. *)
Definition special_byte (u : list Z) (s : DsOutputState) (i : nat) : Z :=
  match i with
  | 0%nat => or_if (speaker_raised u) (or_if (allow_audio_control u) (or_if (allow_audio_control u)
               (or_if (allow_mic_volume u) (or_if (allow_speaker_volume u) (or_if (allow_headphone_volume u)
                 (rumble_byte u s 0) 0x10) 0x20) 0x40) 0x80) 0x80) 0xa0
  | 1%nat | 7%nat | 37%nat => audio_byte u s i
  | 38%nat => rumble_byte u s 38
  | _ => lights_byte u s i
  end.
Lemma special_at u s i :
  update_ok u -> out_ok s -> i ∈ [0; 1; 7; 37; 38; 44; 45; 46]%nat -> at_ i (apply_update u s) = special_byte u s i.
Proof.
  intros [Hu _] Hs Hi. pose proof (ok_length s Hs) as Hl.
  destruct (rumble_members u s) as (R1 & R2 & R3 & _ & _ & _ & R7 & _ & R9 & _ & R11 & _).
  destruct (volumes_members u (apply_rumble u s)) as (V1 & V2 & V3 & _ & _ & _ & V7 & _ & V9 & _ & V11 & _).
  destruct (audio_members u (apply_volumes u (apply_rumble u s))) as (A1 & A2 & A3 & _).
  rewrite R1 in V1. rewrite R2 in V2. rewrite R3 in V3. rewrite V1 in A1. rewrite V2 in A2. rewrite V3 in A3.
  rewrite R7 in V7. rewrite R9 in V9. rewrite R11 in V11.
  repeat (apply elem_of_cons in Hi as [->|Hi]); [..|by apply elem_of_nil in Hi];
    rewrite update_at by first [done|unfold kDsStateSize; lia];
    unfold special_byte, lights_byte, light_scaled, next_color, next_brightness; simpl decide; cbv iota;
    rewrite ?A1, ?A2, ?A3, ?audio_at by first [done|unfold kDsStateSize; lia];
    unfold audio_byte, next_audio_control, select_mic, mic_select; rewrite ?V7, ?V9, ?V11;
    rewrite ?volumes_at by first [done|unfold kDsStateSize; lia];
    unfold volumes_byte; rewrite ?rumble_at by first [done|unfold kDsStateSize; lia]; reflexivity.
Qed.

(** Bits of a byte, by cases over its values. *)
Definition bits_agree (f : Z -> Z) (g : nat -> bool -> bool) (v : Z) : bool :=
  forallb (fun j => Bool.eqb (Z.testbit (f v) (Z.of_nat j)) (g j (Z.testbit v (Z.of_nat j)))) (seq 0 8).
Lemma bits_agree_at f g v j :
  is_u8 v -> (j < 8)%nat -> forallb (bits_agree f g) (seqZ 0 256) = true ->
  Z.testbit (f v) (Z.of_nat j) = g j (Z.testbit v (Z.of_nat j)).
Proof.
  intros Hv Hj Hall. pose proof (all_bytes _ Hall v Hv) as H. unfold bits_agree in H. rewrite forallb_forall in H.
  apply eqb_prop, (H j), list_elem_of_In, elem_of_seq. lia.
Qed.

Lemma update_flags u s i j :
  update_ok u -> out_ok s -> i ∈ [0; 1; 38]%nat -> (j < 8)%nat ->
  Z.testbit (at_ i (apply_update u s)) (Z.of_nat j) = flag_after u s i j.
Proof.
  intros Hu Hs Hi Hj. assert (is_u8 (at_ i s)) as H8.
  { apply (ok_bytes s Hs). repeat (apply elem_of_cons in Hi as [->|Hi]; [unfold kDsStateSize; lia|]). by apply elem_of_nil in Hi. }
  rewrite special_at; [|done..|repeat (apply elem_of_cons in Hi as [->|Hi]; [apply (bool_decide_unpack _); by vm_compute|]); by apply elem_of_nil in Hi].
  revert H8. repeat (apply elem_of_cons in Hi as [->|Hi]); [..|by apply elem_of_nil in Hi];
    unfold special_byte, audio_byte, rumble_byte, flag_after, speaker_raised; cbv zeta.
  - generalize (at_ 0 s). intros v Hv. revert j Hj.
    generalize (enable_rumble_emulation u) (use_rumble_not_haptics u) (allow_headphone_volume u)
      (allow_speaker_volume u) (allow_mic_volume u) (allow_audio_control u) (volume_speaker u =? 0).
    intros b1 b2 b3 b4 b5 b6 b7 j Hj.
    refine (bits_agree_at (fun v => or_if (b4 && negb b7) (or_if b6 (or_if b6 (or_if b5 (or_if b4 (or_if b3
      (set_state_bit (set_state_bit v 0 b1) 1 b2) 0x10) 0x20) 0x40) 0x80) 0x80) 0xa0)
      (fun j before => match j with 0 => b1 | 1 => b2 | 4 => before || b3 | 5 => before || b4 | 6 => before || b5
                       | 7 => before || b6 || (b4 && negb b7) | _ => before end%nat) v j Hv Hj _).
    destruct b1, b2, b3, b4, b5, b6, b7; by vm_compute.
  - generalize (at_ 1 s). intros v Hv.
    generalize (allow_audio_mute u) (allow_audio_control2 u) (allow_speaker_volume u && negb (volume_speaker u =? 0)).
    intros b1 b2 b3.
    refine (bits_agree_at (fun v => or_if b3 (or_if b1 (or_if b2 v 0x80) 0x02) 0x80)
      (fun j before => match j with 1 => before || b1 | 7 => before || b2 || b3 | _ => before end%nat) v j Hv Hj _).
    destruct b1, b2, b3; by vm_compute.
  - generalize (at_ 38 s) (enable_improved_rumble_emulation u). intros v b Hv.
    refine (bits_agree_at (fun v => set_state_bit v 2 b)
      (fun j before => match j with 2 => b | _ => before end%nat) v j Hv Hj _).
    destruct b; by vm_compute.
Qed.

Lemma update_updated u s : update_ok u -> out_ok s -> updated u s (apply_update u s).
Proof.
  intros Hu Hs. pose proof (ok_length s Hs) as Hl.
  destruct (rumble_members u s) as (R1 & R2 & R3 & R4 & R5 & R6 & R7 & R8 & R9 & R10 & R11 & R12 & R13).
  destruct (volumes_members u (apply_rumble u s)) as (V1 & V2 & V3 & V4 & V5 & V6 & V7 & V8 & V9 & V10 & V11 & V12 & V13).
  destruct (audio_members u (apply_volumes u (apply_rumble u s)))
    as (A1 & A2 & A3 & A4 & A5 & A6 & A7 & A8 & A9 & A10 & A11 & A12 & A13).
  destruct (lights_members u (apply_audio u (apply_volumes u (apply_rumble u s))))
    as (L1 & L2 & L3 & L4 & L5 & L6 & L7 & L8 & L9 & L10 & L11 & L12 & L13).
  unfold next_brightness in L3. unfold next_audio_control, select_mic, mic_select in A7.
  rewrite V11, R11, V7, R7 in A7.
  split; [by intros; apply update_flags|..]; try (unfold apply_update, next_brightness, next_audio_control, select_mic, mic_select;
    first [by rewrite L1, A1, V1, R1|by rewrite L2, A2, V2, R2|by rewrite L3, A3, V3, R3|by rewrite L4, A4, V4, R4
      |by rewrite L5, A5, V5, R5|by rewrite L6, A6, V6, R6|by rewrite L7, A7|by rewrite L8, A8, V8, R8
      |by rewrite L9, A9, V9, R9|by rewrite L10, A10, V10, R10]).
  - by rewrite special_at by (done || (apply (bool_decide_unpack _); by vm_compute)).
  - by rewrite special_at by (done || (apply (bool_decide_unpack _); by vm_compute)).
  - intros i Hi. do 3 (destruct i as [|i];
      [by rewrite special_at by (done || (apply (bool_decide_unpack _); by vm_compute))|]). lia.
  - apply update_length; [apply Hu|done].
  - unfold apply_update. rewrite L11, A11, V11, R11, L12, A12, V12, R12, L13, A13, V13, R13. done.
Qed.
