(* ===== verification/ProtocolProps.v ===== *)
(** The properties of the controller output state, its reports, and the
    checksums and packets they go through. *)
From stdpp Require Import base list strings numbers relations.
From Stdlib Require Import ZArith Lia.
From S2P Require Import Prelude Words Checksum BtPacket OutputState OutputFacts OutputInv OutputReports.

Local Open Scope Z_scope.

(** ** Checksums and packets *)

(**  A report of at least four bytes gets a checksum, shorter ones are
    refused; nothing but its last four bytes changes, and the packet the report
    travels in then passes the receiver's test: its last four bytes are the
    CRC-32 (the reference, bit by bit) of all bytes before them, the HIDP header
    included. *)
Theorem output_checksum_valid (report : list Z) :
  bytes_ok report ->
  match fill_output_report_checksum report with
  | Ok r =>
      length r = length report /\
      take (length report - 4) r = take (length report - 4) report /\
      packet_crc_ok (hidp_output_packet r)
  | Throw e => (length report < 4)%nat
  end.
Proof.
  intros Hok. rewrite fill_output_spec by done. destruct (Nat.ltb_spec (length report) 4); [done|].
  split_and!.
  - rewrite checksummed_length, length_take. lia.
  - unfold checksummed. apply take_app_length'. rewrite length_take. lia.
  - apply checksummed_packet.
Qed.

Definition sample_report : list Z := [0x31; 0x20; 0x10; 7; 9; 0; 0; 0; 0].

Lemma output_checksum_valid_witness :
  bytes_ok sample_report /\
  fill_output_report_checksum sample_report <> Throw "output report is too small for CRC" /\
  match fill_output_report_checksum sample_report with
  | Ok r => length r = 9%nat /\ take 5 r = take 5 sample_report /\ packet_crc_ok (hidp_output_packet r)
  | Throw _ => False
  end.
Proof.
  assert (bytes_ok sample_report) as Hok by (by repeat constructor).
  split; [exact Hok|]. split; [discriminate|].
  exact (output_checksum_valid sample_report Hok).
Defined.

(**  A feature report sent to the controller: an empty one sends nothing,
    one shorter than a checksum goes as it is, any other carries the CRC-32 of
    its packet; the call never throws. *)
Theorem feature_packet_valid (report : list Z) :
  bytes_ok report ->
  exists packet, feature_set_packet report = Ok packet /\
    (report = [] -> packet = []) /\
    (report <> [] -> (length report < 4)%nat -> packet = 0x53 :: report) /\
    ((4 <= length report)%nat ->
       length packet = S (length report) /\
       take (length report - 3) packet = 0x53 :: take (length report - 4) report /\
       packet_crc_ok packet).
Proof.
  intros Hok. rewrite feature_set_spec by done. eexists. split; [done|]. split_and!.
  - intros ->. done.
  - intros Hne Hl. rewrite decide_False by done. by rewrite (proj2 (Nat.ltb_lt _ _)).
  - intros Hl. rewrite decide_False by (by intros ->; simpl in Hl; lia).
    rewrite (proj2 (Nat.ltb_ge _ _)) by done. split_and!.
    + cbn [length]. rewrite checksummed_length, length_take. lia.
    + destruct (length report - 3)%nat as [|k] eqn:Hk; [lia|]. cbn [take]. f_equal.
      unfold checksummed. replace k with (length report - 4)%nat by lia.
      apply take_app_length'. rewrite length_take. lia.
    + apply checksummed_packet.
Qed.

Lemma feature_packet_valid_witness :
  bytes_ok sample_report /\
  exists packet, feature_set_packet sample_report = Ok packet /\ packet_crc_ok packet.
Proof.
  assert (bytes_ok sample_report) as Hok by (by repeat constructor). split; [exact Hok|].
  destruct (feature_packet_valid sample_report Hok) as (p & Hp & _ & _ & Hl).
  exists p. split; [exact Hp|]. apply Hl. simpl. lia.
Defined.

(**  The checksum detects every change inside four neighbouring bytes of a
    packet: after it the receiver's test fails. *)
Theorem checksum_detects_burst (report r before block changed after : list Z) :
  bytes_ok report -> fill_output_report_checksum report = Ok r ->
  hidp_output_packet r = before ++ block ++ after -> (4 <= length after)%nat ->
  bytes_ok changed -> length changed = length block -> (length block <= 4)%nat ->
  changed <> block ->
  ~ packet_crc_ok (before ++ changed ++ after).
Proof.
  intros Hok Hfill Hr Hafter Hch Hlen H4 Hne [_ Hcrc].
  assert (packet_crc_ok (before ++ block ++ after)) as [_ Hgood].
  { rewrite <- Hr. rewrite fill_output_spec in Hfill by done. revert Hfill.
    destruct (length report <? 4)%nat; [done|]. intros [= <-]. apply checksummed_packet. }
  assert (bytes_ok (before ++ block ++ after)) as Hall.
  { rewrite <- Hr. rewrite fill_output_spec in Hfill by done. revert Hfill.
    destruct (length report <? 4)%nat; [done|]. intros [= <-]. constructor; [done|].
    by apply checksummed_ok, bytes_ok_take. }
  apply Forall_app in Hall as [Hb Hall]. apply Forall_app in Hall as [Hbl Ha].
  set (body := take (length after - 4) after).
  assert (forall m, length m = length block ->
    drop (length (before ++ m ++ after) - 4) (before ++ m ++ after) = drop (length after - 4) after /\
    take (length (before ++ m ++ after) - 4) (before ++ m ++ after) = before ++ m ++ body) as Hsplit.
  { intros m Hm. rewrite !length_app.
    replace (length before + (length m + length after) - 4)%nat
      with (length before + (length m + (length after - 4)))%nat by lia.
    by rewrite !drop_app_add, !take_app_add. }
  destruct (Hsplit changed Hlen) as [Hd Ht]. destruct (Hsplit block eq_refl) as [Hd' Ht'].
  rewrite Hd, Ht in Hcrc. rewrite Hd', Ht', Hcrc in Hgood.
  assert (bytes_ok body) by by apply bytes_ok_take.
  apply (f_equal le_value) in Hgood. rewrite !le_value_bytes in Hgood.
  rewrite !Z.mod_small in Hgood by (apply crc32_range; auto with words).
  by apply (crc32_detects before changed block body) in Hgood; [|done..|lia|by intros ->].
Qed.

Lemma checksum_detects_burst_witness :
  exists r, fill_output_report_checksum sample_report = Ok r /\
    ~ packet_crc_ok ([0xa2; 0x31] ++ [0x21; 0xff] ++ drop 3 r).
Proof.
  eexists. split; [vm_compute; reflexivity|].
  eapply (checksum_detects_burst sample_report _ [0xa2; 0x31] [0x20; 0x10] [0x21; 0xff]).
  - by repeat constructor.
  - vm_compute. reflexivity.
  - reflexivity.
  - simpl. lia.
  - by repeat constructor.
  - reflexivity.
  - simpl. lia.
  - discriminate.
Defined.

(**  A packet from the controller is at most one thing: a gamepad report
    (then the USB report is the ID 1 and the 63 payload bytes), or microphone
    audio (then the Opus data is 71 bytes of it); each reading is given exactly
    when the header, the type bits and the size allow it, so that no byte behind
    the end of the packet is read. *)
Theorem input_packet_classified (packet : list Z) :
  (forall report, bt_input_to_usb_input packet = Some report <->
     has_input_header packet /\ byte_at packet 2 mod 16 = 1 /\ (66 <= length packet)%nat /\
     report = 1 :: take 63 (drop 3 packet)) /\
  (forall payload, bt_mic_opus_payload packet = Some payload <->
     has_input_header packet /\ byte_at packet 2 mod 16 = 2 /\ (75 <= length packet)%nat /\
     payload = take 71 (drop 4 packet)) /\
  ~ (is_Some (bt_input_to_usb_input packet) /\ is_Some (bt_mic_opus_payload packet)).
Proof.
  split_and!.
  - intros report. rewrite usb_input_spec, (payload_type_spec packet Control). tauto.
  - intros payload. rewrite mic_payload_spec, (payload_type_spec packet Audio). tauto.
  - intros [[r Hr] [p Hp]]. apply usb_input_spec in Hr as [Hr _].
    apply mic_payload_spec in Hp as [Hp _]. congruence.
Qed.

(**  A frame for the virtual port is read back as the type and payload it
    was built from; only payloads above 4096 bytes are refused. *)
Theorem frame_roundtrip (path : string) (t : Z) (payload : list Z) :
  is_u16 t ->
  match frame_bytes t payload with
  | Ok frame =>
      (length payload <= 4096)%nat /\
      parse_vds_frame path (Got frame) =
      Ok (Some (mk_header t 0 (Z.of_nat (length payload)) 0, payload))
  | Throw _ => (4096 < length payload)%nat
  end.
Proof.
  intros Ht. unfold frame_bytes. destruct (Nat.ltb_spec VDS_FRAME_MAX_PAYLOAD (length payload)) as [|Hl];
    [done|]. split; [done|].
  rewrite u16_id by done. unfold VDS_FRAME_MAX_PAYLOAD in Hl.
  rewrite u32_id by (unfold is_u32; lia). set (h := mk_header _ _ _ _).
  pose proof (encode_header_length h) as He.
  assert (length (encode_header h ++ payload) = (16 + length payload)%nat) as Hlen
    by (rewrite length_app, He; done).
  assert (decode_header (encode_header h ++ payload) = h) as Hd.
  { apply header_roundtrip; subst h; simpl; unfold is_u16, is_u32 in *; lia. }
  assert (drop frame_header_size (encode_header h ++ payload) = payload) as Hdrop
    by (rewrite <- He; apply drop_app_length).
  unfold parse_vds_frame. destruct (encode_header h ++ payload) as [|b rest] eqn:Hf; [simpl in Hlen; lia|].
  rewrite Hlen, Hd, Hdrop. unfold h, VDS_FRAME_MAX_PAYLOAD, frame_header_size.
  cbn [header_length].
  rewrite (proj2 (Nat.ltb_ge _ _)), (proj2 (Z.ltb_ge _ _)), (proj2 (Z.eqb_eq _ _)) by lia.
  cbn [negb]. by rewrite Nat2Z.id, firstn_all.
Qed.

Lemma frame_roundtrip_witness :
  is_u16 VDS_FRAME_USB_HID_IN /\
  exists frame, frame_bytes VDS_FRAME_USB_HID_IN [1; 2; 3] = Ok frame /\
    parse_vds_frame "/dev/vds0" (Got frame) = Ok (Some (mk_header 5 0 3 0, [1; 2; 3])).
Proof.
  assert (is_u16 VDS_FRAME_USB_HID_IN) as Ht by by vm_compute.
  split; [exact Ht|]. eexists. split; [reflexivity|].
  apply (frame_roundtrip "/dev/vds0" VDS_FRAME_USB_HID_IN [1; 2; 3] Ht).
Defined.

(** ** The controller output state *)

(** C33.  Whatever sequence of host reports, stream changes, jack changes and
    report builds the output state goes through, it stays well formed: 63 bytes,
    the reserved ones zero, the sequence numbers below 16, the audio control byte
    in step with the remembered setting and the microphone jack, and the LED bytes
    the host's colour, dimmed once it has set a brightness. *)
Theorem output_state_invariant (s : DsOutputState) :
  rtc output_step initial_output_state s -> out_ok s.
Proof.
  pose proof initial_ok as Hi. intros Hs. revert Hi.
  induction Hs; eauto using output_step_ok.
Qed.

Lemma output_state_invariant_witness :
  exists s, rtc output_step initial_output_state s /\ out_ok s /\ mic_select s = 0.
Proof.
  exists (set_headset_mic_plugged true (set_audio_out_stream_active true true initial_output_state)).
  assert (rtc output_step initial_output_state (set_headset_mic_plugged true
    (set_audio_out_stream_active true true initial_output_state))) as H.
  { eapply rtc_l; [apply (step_stream _ true true)|]. apply rtc_once, step_headset. }
  split; [exact H|]. split; [exact (output_state_invariant _ H)|reflexivity].
Defined.

(** C34.  A host report is taken when it is a report 2 of at least 48 bytes or a
    bare 47-byte state, and otherwise changes nothing.  A taken report changes
    each copied byte of the state to its own byte when its flag asks for it, and
    leaves it alone otherwise; reserved bytes never change.  The other bytes and the
    members are what [updated] says: flag bits that were asked for stay set and the
    rumble bits follow the report; the audio control byte gets the requested path, or
    the speaker's when the report turns the speaker up; the colour is dimmed by the
    brightness once a report has set one; and the volumes, controls, colour and
    brightness that came with their flag are remembered, the others kept. *)
Theorem host_report_update (s : DsOutputState) (report : list Z) :
  out_ok s -> bytes_ok report ->
  match apply_usb_output_report report s with
  | (s', Ok true) =>
      exists u,
        (((48 <= length report)%nat /\ byte_at report 0 = 2 /\ u = take 47 (drop 1 report)) \/
         (length report = 47%nat /\ u = report)) /\
        (forall i flag, copied_by u i = Some flag ->
          at_ i s' = if flag then byte_at u i else at_ i s) /\
        updated u s s'
  | (s', Ok false) =>
      s' = s /\ length report <> 47%nat /\ ~ ((48 <= length report)%nat /\ byte_at report 0 = 2)
  | (_, Throw _) => False
  end.
Proof.
  intros Hs Hr. unfold apply_usb_output_report.
  destruct (usb_output_update report) as [u|] eqn:Hu.
  - pose proof (usb_output_update_ok report u Hr Hu) as Hok. exists u.
    split; [|by split; [intros; apply copied_byte|apply update_updated]]. revert Hu. unfold usb_output_update, kSetStateSize,
      VDS_SET_STATE_SIZE, VDS_USB_OUTPUT_REPORT_ID.
    destruct (Nat.leb_spec (1 + 47) (length report)), (Z.eqb_spec (byte_at report 0) 2);
      cbn [andb]; try (intros [= <-]; left; split_and!; [lia|done|done]);
      (destruct (Nat.eqb_spec (length report) 47); [|done]);
      intros [= <-]; right; (split; [done|]; apply take_ge; lia).
  - split; [done|]. revert Hu. unfold usb_output_update, kSetStateSize,
      VDS_SET_STATE_SIZE, VDS_USB_OUTPUT_REPORT_ID.
    destruct (Nat.leb_spec (1 + 47) (length report)), (Z.eqb_spec (byte_at report 0) 2);
      cbn [andb]; try done; (destruct (Nat.eqb_spec (length report) 47); [done|]); lia.
Qed.

(** A report that asks for the right trigger effect, the mute light and the
    speaker volume. *)
Definition sample_update : list Z := 0x02 :: 0x24 :: 0x01 :: replicate 46 5.

Lemma host_report_update_witness :
  out_ok initial_output_state /\ bytes_ok sample_update /\
  exists s' u, apply_usb_output_report sample_update initial_output_state = (s', Ok true) /\
    (forall i flag, copied_by u i = Some flag ->
       at_ i s' = if flag then byte_at u i else at_ i initial_output_state).
Proof.
  pose proof initial_ok as Hi. assert (bytes_ok sample_update) as Hb.
  { do 3 (constructor; [done|]). by apply Forall_replicate. }
  split; [exact Hi|]. split; [exact Hb|].
  pose proof (host_report_update initial_output_state sample_update Hi Hb) as H.
  unfold apply_usb_output_report in H |- *.
  destruct (usb_output_update sample_update) as [u|] eqn:Hu; [|discriminate].
  destruct H as (u' & _ & H & _). eexists. exists u'. split; [reflexivity|exact H].
Defined.

(**  Audio routing: the speaker is on exactly when audio is active without
    headphones.  Then its volume is the one the host set, otherwise it is muted;
    path bits and enable flags agree with it, and the headphone volume and the
    other control bits stay. *)
Theorem audio_routing (s : DsOutputState) (active plugged : bool) :
  out_ok s ->
  let s' := set_audio_out_stream_active active plugged s in
  let speaker := active && negb plugged in
  at_ 5 s' = (if speaker then speaker_volume_ s else 0) /\
  Z.land (at_ 7 s') 0x30 = (if speaker then 0x30 else 0) /\
  Z.testbit (at_ 0 s') 5 = speaker /\
  Z.testbit (at_ 1 s') 7 = speaker /\
  Z.land (at_ 7 s') 0xcf = Z.land (at_ 7 s) 0xcf /\
  at_ 4 s' = at_ 4 s.
Proof.
  intros Hs. cbv zeta. pose proof (stream_spec active plugged s (ok_length s Hs)) as HF.
  pose proof (ok_bytes s Hs 0%nat ltac:(unfold kDsStateSize; lia)) as H0.
  pose proof (ok_bytes s Hs 1%nat ltac:(unfold kDsStateSize; lia)) as H1.
  rewrite !(bytes_are_at _ _ _ HF) by (unfold kDsStateSize; lia).
  destruct (ok_control s Hs) as [Hc Hsel]. pose proof (non_path_id _ Hc) as Hid.
  rewrite Hsel in Hid. specialize (Hid (mic_select_cases s)).
  assert (is_path (route_path active plugged)) as Hp by (destruct active, plugged; unfold is_path; tauto).
  cbn [stream_byte]. unfold stream_byte.
  rewrite path_control_path, path_control_non_path, (ok_state_control s Hs), Hid by done.
  destruct (ok_mirrors s Hs) as [-> _]. unfold route_path, speaker_route.
  split_and!; try done.
  - revert H0. generalize (at_ 0 s). intros b Hb. apply eqb_prop.
    destruct active, plugged; revert b Hb; apply all_bytes; by vm_compute.
  - revert H1. generalize (at_ 1 s). intros b Hb. apply eqb_prop.
    destruct active, plugged; revert b Hb; apply all_bytes; by vm_compute.
Qed.

Lemma audio_routing_witness :
  out_ok initial_output_state /\
  at_ 5 (set_audio_out_stream_active true false initial_output_state) = 0x64 /\
  at_ 5 (set_audio_out_stream_active true true initial_output_state) = 0.
Proof.
  pose proof initial_ok as Hi. split; [exact Hi|].
  destruct (audio_routing initial_output_state true false Hi) as [H1 _].
  destruct (audio_routing initial_output_state true true Hi) as [H2 _].
  split; [exact H1|exact H2].
Defined.

(**  A state report holds the first 47 state bytes and a valid checksum; it
    carries the 4-bit sequence number, which the next report continues; the state
    itself does not change. *)
Theorem state_report_contents (s : DsOutputState) :
  out_ok s ->
  exists s' r, build_bt_state_report s = (s', Ok r) /\
    length r = 78%nat /\ packet_crc_ok (hidp_output_packet r) /\
    byte_at r 0 = 0x31 /\ byte_at r 1 = 16 * report_sequence_ s /\ byte_at r 2 = 0x10 /\
    take 47 (drop 3 r) = take 47 (state_ s) /\
    report_sequence_ s' = (report_sequence_ s + 1) mod 16 /\ state_ s' = state_ s.
Proof.
  intros Hs. rewrite state_report_spec by done. do 2 eexists. split; [done|].
  pose proof (list_by_elements _ _ (ok_length s Hs)) as [b Hst].
  split_and!; try done; [| apply checksummed_packet|]; unfold state_report_body; by rewrite Hst.
Qed.

Lemma state_report_contents_witness :
  out_ok initial_output_state /\
  exists s' r, build_bt_state_report initial_output_state = (s', Ok r) /\
    packet_crc_ok (hidp_output_packet r) /\ report_sequence_ s' = 1.
Proof.
  pose proof initial_ok as Hi. split; [exact Hi|].
  destruct (state_report_contents initial_output_state Hi) as (s' & r & H & _ & Hp & _ & _ & _ & _ & Hq & _).
  exists s', r. split; [exact H|]. split; [exact Hp|exact Hq].
Defined.

(**  The microphone state report: it and the state say the same thing; the
    microphone is open (volume set, mute bit clear) exactly when it is in use and
    not muted, and the mute light is on exactly when it is muted. *)
Theorem mic_state_report_contents (s : DsOutputState) (active muted : bool) :
  out_ok s ->
  exists s' r, build_bt_mic_state_report active muted s = (s', Ok r) /\
    length r = 78%nat /\ packet_crc_ok (hidp_output_packet r) /\
    (forall i, i ∈ [6; 7; 8; 9; 37]%nat -> byte_at r (3 + i) = at_ i s') /\
    at_ 6 s' = (if active && negb muted then mic_volume_ s else 0) /\
    Z.testbit (at_ 9 s') 4 = negb (active && negb muted) /\
    at_ 8 s' = (if muted then 1 else 0) /\
    report_sequence_ s' = (report_sequence_ s + 1) mod 16.
Proof.
  intros Hs. rewrite mic_state_report_spec by done. do 2 eexists. split; [done|].
  pose proof (mic_spec active muted s (ok_length s Hs)) as HF.
  assert (forall i, (i < kDsStateSize)%nat ->
    at_ i (set_report_sequence ((report_sequence_ s + 1) mod 16) (apply_mic_state active muted s)) =
    mic_byte active muted s i) as Ha by (intros; by apply (bytes_are_at _ _ _ HF)).
  split_and!; try done; [apply checksummed_packet|..]; try (by rewrite Ha by (unfold kDsStateSize; lia)).
  - intros i Hi. rewrite Ha by (set_unfold in Hi; unfold kDsStateSize; lia). set_unfold in Hi.
    unfold mic_state_part. by destruct Hi as [->|[->|[->|[->|[->|[]]]]]].
  - rewrite Ha by (unfold kDsStateSize; lia). cbn [mic_byte]. unfold mic_byte, mic_power_save.
    destruct (ok_members s Hs) as (_ & _ & _ & _ & Hps & _). revert Hps.
    generalize (power_save_control_ s). intros b Hb. apply eqb_prop.
    destruct active, muted; revert b Hb; apply all_bytes; by vm_compute.
Qed.

Lemma mic_state_report_contents_witness :
  out_ok initial_output_state /\
  exists s' r, build_bt_mic_state_report true true initial_output_state = (s', Ok r) /\
    packet_crc_ok (hidp_output_packet r) /\ at_ 8 s' = 1 /\ Z.testbit (at_ 9 s') 4 = true.
Proof.
  pose proof initial_ok as Hi. split; [exact Hi|].
  destruct (mic_state_report_contents initial_output_state true true Hi)
    as (s' & r & H & _ & Hp & _ & _ & Hb & Hm & _).
  exists s', r. split; [exact H|]. split; [exact Hp|]. split; [exact Hm|exact Hb].
Defined.

(**  The combined audio packet of 398 bytes: state, haptics and speaker data
    lie at their offsets, undistorted, behind headers that name their sizes; its
    two sequence numbers count modulo 16 and 256, and its checksum is valid. *)
Theorem haptics_packet_contents (b : HapticsPacketBuilder) (haptics speaker state : list Z)
    (mic headset : bool) :
  builder_ok b -> Forall is_s8 haptics -> length haptics = 64%nat ->
  bytes_ok speaker -> length speaker = 200%nat -> bytes_ok state -> length state = 63%nat ->
  exists b' p, build_packet haptics speaker state mic headset b = (b', Ok p) /\
    length p = 398%nat /\ packet_crc_ok (hidp_output_packet p) /\
    byte_at p 1 = 16 * haptics_report_sequence_ b /\ byte_at p 10 = packet_sequence_ b /\
    take 63 (drop 13 p) = state /\ s8 <$> take 64 (drop 78 p) = haptics /\
    take 200 (drop 144 p) = speaker /\
    b' = mk_builder ((haptics_report_sequence_ b + 1) mod 16) ((packet_sequence_ b + 1) mod 256).
Proof.
  intros Hb Hh Hhl Hsp Hspl Hst Hstl. rewrite build_packet_spec by done.
  do 2 eexists. split; [done|].
  assert (forall z, is_s8 z -> s8 (u8 z) = z) as Hs8.
  { intros z Hz. rewrite <- (s8_id z Hz) at 2. unfold s8, signed, u8. by rewrite Z.mod_mod. }
  apply list_by_elements in Hhl as [bh Hhe]. apply list_by_elements in Hspl as [bs ->].
  apply list_by_elements in Hstl as [bt ->].
  assert (s8 <$> (u8 <$> haptics) = haptics) as Hback.
  { rewrite <- list_fmap_compose. clear Hhe. induction Hh as [|z l Hz Hl IH]; [done|].
    rewrite fmap_cons. f_equal; [by apply Hs8|exact IH]. }
  clear Hh. subst haptics. split_and!; try reflexivity; [apply checksummed_packet|exact Hback].
Qed.

Lemma haptics_packet_contents_witness :
  exists b' p, build_packet (replicate 64 (-3)) (replicate 200 7) (replicate 63 1) true false
                 (mk_builder 15 255) = (b', Ok p) /\
    packet_crc_ok (hidp_output_packet p) /\ b' = mk_builder 0 0.
Proof.
  destruct (haptics_packet_contents (mk_builder 15 255) (replicate 64 (-3)) (replicate 200 7)
    (replicate 63 1) true false) as (b' & p & H & _ & Hp & _ & _ & _ & _ & _ & Hb).
  - by split.
  - by apply Forall_replicate.
  - reflexivity.
  - by apply Forall_replicate.
  - reflexivity.
  - by apply Forall_replicate.
  - reflexivity.
  - exists b', p. split; [exact H|]. split; [exact Hp|exact Hb].
Defined.
