(* ===== verification/Audio.v ===== *)
(** Audio conversion (src/src/vds_protocol.cc): USB audio to the speaker and
    haptics data of the Bluetooth packets, and microphone audio back.

    The Opus codec is outside the repository: its calls are parameters, and what
    the code relies on (they fill a buffer of the given size with bytes, or report a
    negative error) is stated where it is needed.  Sample buffers hold [int16_t]
    values; [frame * pcm_frames] stays below 512 * 512, far from the width of
    [size_t]. *)
From stdpp Require Import base list strings numbers.
From Stdlib Require Import ZArith Lia.
From S2P Require Import Prelude Text Words BtPacket OutputState.

Local Open Scope Z_scope.

(** ** Constants *)

Definition kPcmChannels : nat := 4.
Definition kPcmSampleSize : nat := 2.
Definition kPcmFrameSize : nat := 8.
Definition kHapticsDecimation : nat := 16.
Definition kSpeakerChannels : nat := 2.
Definition kPcmWindowFrames : nat := 512.
Definition kSpeakerOpusFrames : nat := 480.
Definition kMicOpusFrames : nat := 480.
Definition kMicUsbChannels : nat := 2.
Definition haptics_frames : nat := 32.

(** ** Samples *)

Definition clamp (v lo hi : Z) : Z := if v <? lo then lo else if hi <? v then hi else v.

Definition s16_to_s8_haptic (sample : Z) : Z := s8 (clamp (Z.quot sample 256) (-128) 127).

(** [read_le_s16(data)] of the two bytes at [i]. *)
Definition read_le_s16 (data : list Z) (i : nat) : Z :=
  s16 (Z.lor (byte_at data i) (Z.shiftl (byte_at data (i + 1)) 8)).

Definition lerp_i16 (left right numerator denominator : Z) : Z :=
  let left_part := left * (denominator - numerator) in
  let right_part := right * numerator in
  let mixed := Z.quot (left_part + right_part) denominator in
  s16 (clamp mixed (-32768) 32767).

(** ** Resampling *)

Definition resample_speaker_sample (pcm : list Z) (pcm_frames frame channel : nat) : Z :=
  let source_numerator := (frame * pcm_frames)%nat in
  let source_frame := (source_numerator / kSpeakerOpusFrames)%nat in
  let fraction := (source_numerator mod kSpeakerOpusFrames)%nat in
  let next_frame := Nat.min (source_frame + 1) (pcm_frames - 1) in
  lerp_i16 (byte_at pcm (source_frame * kSpeakerChannels + channel))
           (byte_at pcm (next_frame * kSpeakerChannels + channel))
           (Z.of_nat fraction) (Z.of_nat kSpeakerOpusFrames).

Definition resample_speaker_pcm (pcm : list Z) (pcm_frames : nat) : list Z :=
  seq 0 kSpeakerOpusFrames ≫= fun frame =>
    [resample_speaker_sample pcm pcm_frames frame 0; resample_speaker_sample pcm pcm_frames frame 1].

Definition haptics_begin (pcm_frames frame : nat) : nat := (frame * pcm_frames / haptics_frames)%nat.

(** The sum of one channel over the samples [from .. from + n). *)
Fixpoint channel_sum (pcm : list Z) (channel from n : nat) : Z :=
  match n with
  | O => 0
  | S n' => byte_at pcm (from * kSpeakerChannels + channel) + channel_sum pcm channel (S from) n'
  end.

Definition resample_haptics_sample (pcm : list Z) (pcm_frames frame channel : nat) : Z :=
  let first := haptics_begin pcm_frames frame in
  let last := haptics_begin pcm_frames (frame + 1) in
  let count := Nat.max 1 (last - first) in
  s16_to_s8_haptic (s16 (Z.quot (channel_sum pcm channel first (last - first)) (Z.of_nat count))).

Definition resample_haptics_pcm (pcm : list Z) (pcm_frames : nat) : list Z :=
  seq 0 haptics_frames ≫= fun frame =>
    [resample_haptics_sample pcm pcm_frames frame 0; resample_haptics_sample pcm pcm_frames frame 1].

(** ** The extractor *)

Record AudioChunk := mk_chunk {
  haptics : list Z;
  speaker : list Z;
  has_signal : bool;
  has_haptics_signal : bool
}.

Section Extractor.
(** The encoder object, and [opus_encode]: the encoder after the call, the
    number of bytes (negative: an error code) and the output buffer. *)
Context {Encoder : Type}.
Context (opus_encode : Encoder -> list Z -> Encoder * (Z * list Z)).
Context (opus_strerror : Z -> string).

Record PcmAudioExtractor := mk_extractor {
  speaker_encoder_ : Encoder;
  pending_frame_ : list Z;
  speaker_pcm_ : list Z;
  haptics_pcm_ : list Z;
  pcm_window_frames_ : nat;
  pending_frame_pos_ : nat;
  pcm_window_frame_pos_ : nat;
  chunk_has_signal_ : bool;
  chunk_has_haptics_signal_ : bool
}.

(** The constructor. *)
Definition new_extractor (encoder : Encoder) (pcm_window_frames : nat) : result PcmAudioExtractor :=
  if (pcm_window_frames =? 0)%nat || (kPcmWindowFrames <? pcm_window_frames)%nat
     || negb (pcm_window_frames mod kHapticsDecimation =? 0)%nat
  then Throw "unsupported PCM frame window"
  else Ok (mk_extractor encoder (replicate kPcmFrameSize 0)
             (replicate (kPcmWindowFrames * kSpeakerChannels) 0)
             (replicate (kPcmWindowFrames * kSpeakerChannels) 0) pcm_window_frames 0 0 false false).

Definition set_encoder (e : Encoder) (x : PcmAudioExtractor) : PcmAudioExtractor :=
  mk_extractor e (pending_frame_ x) (speaker_pcm_ x) (haptics_pcm_ x) (pcm_window_frames_ x)
    (pending_frame_pos_ x) (pcm_window_frame_pos_ x) (chunk_has_signal_ x) (chunk_has_haptics_signal_ x).
Definition set_window (sp hp : list Z) (pos : nat) (sig hsig : bool) (x : PcmAudioExtractor) :
    PcmAudioExtractor :=
  mk_extractor (speaker_encoder_ x) (pending_frame_ x) sp hp (pcm_window_frames_ x)
    (pending_frame_pos_ x) pos sig hsig.
Definition set_window_pos (pos : nat) (x : PcmAudioExtractor) : PcmAudioExtractor :=
  set_window (speaker_pcm_ x) (haptics_pcm_ x) pos (chunk_has_signal_ x) (chunk_has_haptics_signal_ x) x.
Definition clear_signals (x : PcmAudioExtractor) : PcmAudioExtractor :=
  set_window (speaker_pcm_ x) (haptics_pcm_ x) (pcm_window_frame_pos_ x) false false x.
Definition set_pending (frame : list Z) (pos : nat) (x : PcmAudioExtractor) : PcmAudioExtractor :=
  mk_extractor (speaker_encoder_ x) frame (speaker_pcm_ x) (haptics_pcm_ x) (pcm_window_frames_ x)
    pos (pcm_window_frame_pos_ x) (chunk_has_signal_ x) (chunk_has_haptics_signal_ x).

(** [SpeakerEncoder::encode]: what [opus_encode] leaves unwritten is zeroed. *)
Definition encode (pcm : list Z) (pcm_frames : nat) : prog PcmAudioExtractor (list Z) := fun x =>
  let opus_pcm := resample_speaker_pcm pcm pcm_frames in
  let '(e, (bytes, buffer)) := opus_encode (speaker_encoder_ x) opus_pcm in
  let x' := set_encoder e x in
  if bytes <? 0 then (x', Throw ("opus_encode failed: " +:+ opus_strerror bytes))
  else if bytes <? Z.of_nat kSpeakerOpusSize
  then (x', Ok (take (Z.to_nat bytes) buffer ++ replicate (kSpeakerOpusSize - Z.to_nat bytes) 0))
  else (x', Ok buffer).

(** The first half of [consume_frame]: the samples of one frame are stored. *)
Definition store_frame (base : list Z) (x : PcmAudioExtractor) : PcmAudioExtractor :=
  let sample (channel : nat) := read_le_s16 base (channel * kPcmSampleSize) in
  let pos := (pcm_window_frame_pos_ x * kSpeakerChannels)%nat in
  let nonzero (v : Z) := negb (v =? 0) in
  set_window
    (<[(pos + 1)%nat := sample 1%nat]> (<[(pos + 0)%nat := sample 0%nat]> (speaker_pcm_ x)))
    (<[(pos + 1)%nat := sample 3%nat]> (<[(pos + 0)%nat := sample 2%nat]> (haptics_pcm_ x)))
    (S (pcm_window_frame_pos_ x))
    (chunk_has_signal_ x || nonzero (sample 0%nat) || nonzero (sample 1%nat)
       || nonzero (sample 2%nat) || nonzero (sample 3%nat))
    (chunk_has_haptics_signal_ x || (nonzero (sample 2%nat) || nonzero (sample 3%nat))) x.

(** [consume_frame]; the chunk pushed on [chunks], if any, is returned. *)
Definition consume_frame (base : list Z) : prog PcmAudioExtractor (list AudioChunk) :=
  _ ← modify (store_frame base);
  x ← get_state;
  if negb (pcm_window_frame_pos_ x =? pcm_window_frames_ x)%nat then mret []
  else
    _ ← modify (set_window_pos 0);
    let samples := (pcm_window_frames_ x * kSpeakerChannels)%nat in
    let chunk_haptics :=
      resample_haptics_pcm (take samples (haptics_pcm_ x)) (pcm_window_frames_ x) in
    chunk_speaker ← encode (take samples (speaker_pcm_ x)) (pcm_window_frames_ x);
    _ ← modify clear_signals;
    mret [mk_chunk chunk_haptics chunk_speaker (chunk_has_signal_ x) (chunk_has_haptics_signal_ x)].

(** The inner loop over whole frames. *)
Fixpoint consume_frames (frames : nat) (pcm_bytes : list Z) :
    prog PcmAudioExtractor (list AudioChunk) :=
  match frames with
  | O => mret []
  | S n =>
      c ← consume_frame (take kPcmFrameSize pcm_bytes);
      rest ← consume_frames n (drop kPcmFrameSize pcm_bytes);
      mret (c ++ rest)
  end.

(** [while (!pcm_bytes.empty())] *)
Fixpoint push_loop (fuel : nat) (pcm_bytes : list Z) : prog PcmAudioExtractor (list AudioChunk) :=
  match fuel with
  | O => throw "<fuel>"
  | S f =>
      if decide (pcm_bytes = []) then mret []
      else
        x ← get_state;
        if (pending_frame_pos_ x =? 0)%nat && (kPcmFrameSize <=? length pcm_bytes)%nat then
          let frames := (length pcm_bytes / kPcmFrameSize)%nat in
          c ← consume_frames frames pcm_bytes;
          rest ← push_loop f (drop (frames * kPcmFrameSize) pcm_bytes);
          mret (c ++ rest)
        else
          let copy_size := Nat.min (length pcm_bytes) (kPcmFrameSize - pending_frame_pos_ x) in
          let frame := copy_into (pending_frame_ x) (pending_frame_pos_ x) (take copy_size pcm_bytes) in
          let pos := (pending_frame_pos_ x + copy_size)%nat in
          _ ← modify (set_pending frame pos);
          c ← (if (pos =? kPcmFrameSize)%nat then
                 c ← consume_frame frame;
                 _ ← modify (fun x => set_pending (pending_frame_ x) 0 x);
                 mret c
               else mret []);
          rest ← push_loop f (drop copy_size pcm_bytes);
          mret (c ++ rest)
  end.

(** Every round takes a byte or leaves a full pending frame, so the length of
    the input bounds the rounds. *)
Definition push_usb_audio (pcm_bytes : list Z) : prog PcmAudioExtractor (list AudioChunk) :=
  push_loop (S (S (length pcm_bytes))) pcm_bytes.
End Extractor.
Arguments PcmAudioExtractor : clear implicits.
Arguments mk_extractor {_}.

(** ** Microphone audio *)

Section Decoder.
(** [opus_decode]: the decoder after the call, the number of frames (negative:
    an error code) and the sample buffer. *)
Context {Dec : Type}.
Context (opus_decode : Dec -> list Z -> Dec * (Z * list Z)).
Context (opus_strerror : Z -> string).

(** The four bytes of one stereo frame: the sample is the right channel. *)
Definition mic_frame (mono : list Z) (frame : nat) : list Z :=
  let sample := u16 (byte_at mono frame) in
  [0; 0; u8 (Z.land sample 0xff); u8 (Z.land (Z.shiftr sample 8) 0xff)].

Definition decode (payload : list Z) : prog Dec (list Z) := fun d =>
  let '(d', (frames, mono)) := opus_decode d payload in
  if frames <? 0 then (d', Throw ("opus_decode failed: " +:+ opus_strerror frames))
  else (d', Ok (seq 0 (Z.to_nat frames) ≫= mic_frame mono)).
End Decoder.


(** ** The Opus library and the test tone, which the daemons of both platforms share *)

(** The Opus library: making an encoder and a decoder, and the calls of Audio.v; and the
    sample of the test tone for a phase, which the C library's [sin] computes. *)
Class Codecs (Encoder Dec : Type) := {
  opus_encode : Encoder -> list Z -> Encoder * (Z * list Z);
  opus_decode : Dec -> list Z -> Dec * (Z * list Z);
  opus_strerror : Z -> string;
  create_encoder : result Encoder;
  create_decoder : result Dec;
  waveout_sample : Z -> Z
}.

Section Fresh.
Context {Encoder Dec : Type} `{Codecs Encoder Dec}.

(** [PcmAudioExtractor{}] *)
Definition fresh_extractor : result (PcmAudioExtractor Encoder) :=
  e ← create_encoder; new_extractor e kPcmWindowFrames.
End Fresh.
