(* ===== verification/AudioFacts.v ===== *)
(** What the audio conversion guarantees: interpolation and averaging stay in
    range, the extractor is a function of the byte stream however it is cut, and
    microphone frames come out as they were decoded.  At the end, the sizes of the chunks
    an extractor makes. *)
From stdpp Require Import base list strings numbers.
From Stdlib Require Import ZArith Lia.
From S2P Require Import Prelude Text Words BtPacket OutputState Audio.

Local Open Scope Z_scope.

(** ** Arithmetic *)

Lemma clamp_id v lo hi : lo <= v <= hi -> clamp v lo hi = v.
Proof. unfold clamp. intros. destruct (Z.ltb_spec v lo), (Z.ltb_spec hi v); lia. Qed.

(** A quotient of a number between multiples lies between their factors. *)
Lemma quot_between s d lo hi : 0 < d -> lo * d <= s <= hi * d -> lo <= Z.quot s d <= hi.
Proof.
  intros Hd [Hlo Hhi]. split.
  - rewrite <- (Z.quot_mul lo d) by lia. apply Z.quot_le_mono; lia.
  - rewrite <- (Z.quot_mul hi d) by lia. apply Z.quot_le_mono; lia.
Qed.

Lemma quot_256_mono x y : x <= y -> Z.quot x 256 <= Z.quot y 256.
Proof. intros H. apply Z.quot_le_mono; lia. Qed.

Lemma quot_256_s8 v : is_s16 v -> -128 <= Z.quot v 256 <= 127.
Proof.
  unfold is_s16. intros Hv. split.
  - apply (quot_256_mono (-32768)). lia.
  - apply (quot_256_mono v 32767). lia.
Qed.

Lemma s16_to_s8_id v : is_s16 v -> s16_to_s8_haptic v = Z.quot v 256.
Proof.
  intros Hv%quot_256_s8. unfold s16_to_s8_haptic. rewrite clamp_id by lia.
  apply s8_id. unfold is_s8. lia.
Qed.

Lemma lerp_between l r n d lo hi :
  0 < d -> 0 <= n <= d -> lo <= l <= hi -> lo <= r <= hi -> -32768 <= lo -> hi <= 32767 ->
  lo <= lerp_i16 l r n d <= hi.
Proof.
  intros Hd Hn Hl Hr Hlo Hhi. unfold lerp_i16.
  assert (lo <= Z.quot (l * (d - n) + r * n) d <= hi) as Hq by (apply quot_between; nia).
  rewrite clamp_id by lia. rewrite s16_id by (unfold is_s16; lia). done.
Qed.

Lemma lerp_left l r d : 0 < d -> is_s16 l -> lerp_i16 l r 0 d = l.
Proof.
  intros Hd Hl. unfold lerp_i16. rewrite Z.sub_0_r, Z.mul_0_r, Z.add_0_r, Z.quot_mul by lia.
  unfold is_s16 in Hl. rewrite clamp_id by lia. by apply s16_id.
Qed.

(** ** Resampling *)

Lemma pairs_length {A} (f : nat -> list A) n k :
  (forall i, length (f i) = 2%nat) -> length (seq k n ≫= f) = (n * 2)%nat.
Proof.
  intros Hf. revert k. induction n as [|n IH]; intros k; [done|].
  cbn [seq]. rewrite bind_cons, length_app, Hf, IH. lia.
Qed.

Lemma pairs_forall {A} (P : A -> Prop) (f : nat -> list A) n k :
  (forall i, (k <= i < k + n)%nat -> Forall P (f i)) -> Forall P (seq k n ≫= f).
Proof.
  revert k. induction n as [|n IH]; intros k Hf; [constructor|].
  cbn [seq]. rewrite bind_cons. apply Forall_app. split; [apply Hf; lia|].
  apply IH. intros i Hi. apply Hf. lia.
Qed.

Lemma sample_in (P : Z -> Prop) pcm i :
  Forall P pcm -> (i < length pcm)%nat -> P (byte_at pcm i).
Proof.
  intros Hall Hi. destruct (lookup_lt_is_Some_2 pcm i Hi) as [x Hx].
  rewrite (byte_at_lookup _ _ _ Hx). by eapply Forall_lookup_1.
Qed.

(** The positions [resample_speaker_pcm] reads lie inside the window. *)
Lemma source_frame_inside pcm_frames frame :
  (0 < pcm_frames)%nat -> (frame < 480)%nat ->
  (frame * pcm_frames / 480 < pcm_frames)%nat.
Proof. intros Hp Hf. apply Nat.Div0.div_lt_upper_bound. nia. Qed.

Lemma speaker_sample_between pcm n frame channel lo hi :
  length pcm = (n * 2)%nat -> (0 < n)%nat -> (frame < 480)%nat -> (channel < 2)%nat ->
  -32768 <= lo -> hi <= 32767 -> Forall (fun v => lo <= v <= hi) pcm ->
  lo <= resample_speaker_sample pcm n frame channel <= hi.
Proof.
  intros Hl Hn Hf Hc Hlo Hhi Hall. unfold resample_speaker_sample, kSpeakerOpusFrames, kSpeakerChannels.
  pose proof (source_frame_inside n frame Hn Hf) as Hs.
  pose proof (Nat.mod_upper_bound (frame * n) 480 ltac:(lia)).
  apply lerp_between; try lia; (apply (sample_in (fun v => lo <= v <= hi)); [done|]); lia.
Qed.

(** A window of 480 frames is passed on unchanged. *)
Lemma speaker_sample_480 pcm frame channel :
  length pcm = 960%nat -> (frame < 480)%nat -> (channel < 2)%nat -> Forall is_s16 pcm ->
  resample_speaker_sample pcm 480 frame channel = byte_at pcm (frame * 2 + channel).
Proof.
  intros Hl Hf Hc Hall. unfold resample_speaker_sample, kSpeakerOpusFrames, kSpeakerChannels.
  rewrite Nat.div_mul, Nat.Div0.mod_mul by lia. apply lerp_left; [lia|].
  apply (sample_in is_s16); [done|lia].
Qed.

Lemma pairs_id (pcm : list Z) (f : nat -> list Z) n k :
  (forall i, (k <= i < k + n)%nat -> f i = [byte_at pcm (i * 2 + 0); byte_at pcm (i * 2 + 1)]) ->
  length pcm = ((k + n) * 2)%nat -> seq k n ≫= f = drop (k * 2) pcm.
Proof.
  revert k. induction n as [|n IH]; intros k Hf Hl.
  - simpl. symmetry. apply drop_ge. lia.
  - cbn [seq]. rewrite bind_cons.
    rewrite (IH (S k)) by (first [intros; apply Hf; lia|lia]). rewrite Hf by lia.
    destruct (lookup_lt_is_Some_2 pcm (k * 2) ltac:(lia)) as [x Hx].
    destruct (lookup_lt_is_Some_2 pcm (k * 2 + 1) ltac:(lia)) as [y Hy].
    rewrite Nat.add_0_r, (byte_at_lookup _ _ _ Hx), (byte_at_lookup _ _ _ Hy).
    rewrite (drop_S pcm x (k * 2)), (drop_S pcm y (S (k * 2))) by
      first [done|by rewrite <- Hy; f_equal; lia]. done.
Qed.

(** The haptics windows follow each other without gap or overlap. *)
Lemma haptics_begin_0 n : haptics_begin n 0 = 0%nat.
Proof. done. Qed.
Lemma haptics_begin_end n : haptics_begin n haptics_frames = n.
Proof. unfold haptics_begin. rewrite Nat.mul_comm. by apply Nat.div_mul. Qed.
Lemma haptics_begin_mono n f : (haptics_begin n f <= haptics_begin n (f + 1))%nat.
Proof. apply Nat.Div0.div_le_mono. lia. Qed.
Lemma haptics_begin_inside n f : (f <= haptics_frames)%nat -> (haptics_begin n f <= n)%nat.
Proof.
  intros Hf. rewrite <- (haptics_begin_end n) at 2. apply Nat.Div0.div_le_mono.
  by apply Nat.mul_le_mono_r.
Qed.

Lemma channel_sum_between pcm channel from n lo hi :
  (channel < 2)%nat -> ((from + n) * 2 <= length pcm)%nat ->
  Forall (fun v => lo <= v <= hi) pcm ->
  lo * Z.of_nat n <= channel_sum pcm channel from n <= hi * Z.of_nat n.
Proof.
  intros Hc Hl Hall. revert from Hl. induction n as [|n IH]; intros from Hl; [simpl; lia|].
  cbn [channel_sum]. specialize (IH (S from) ltac:(lia)).
  pose proof (sample_in _ pcm (from * kSpeakerChannels + channel) Hall
    ltac:(unfold kSpeakerChannels; lia)). simpl in *. lia.
Qed.

Lemma haptics_sample_between pcm n frame channel lo hi :
  length pcm = (n * 2)%nat -> (32 <= n)%nat -> (frame < 32)%nat -> (channel < 2)%nat ->
  -32768 <= lo -> hi <= 32767 -> Forall (fun v => lo <= v <= hi) pcm ->
  Z.quot lo 256 <= resample_haptics_sample pcm n frame channel <= Z.quot hi 256.
Proof.
  intros Hl Hn Hf Hc Hlo Hhi Hall. unfold resample_haptics_sample.
  pose proof (haptics_begin_inside n (frame + 1) ltac:(unfold haptics_frames; lia)) as Hin.
  pose proof (haptics_begin_mono n frame) as Hm.
  assert (haptics_begin n frame < haptics_begin n (frame + 1))%nat as Hpos.
  { unfold haptics_begin, haptics_frames. pose proof (Nat.div_mod (frame * n) 32 ltac:(lia)).
    pose proof (Nat.mod_upper_bound (frame * n) 32 ltac:(lia)).
    apply (Nat.lt_le_trans _ (S (frame * n / 32))); [lia|].
    apply Nat.div_le_lower_bound; nia. }
  set (first := haptics_begin n frame) in *. set (m := (haptics_begin n (frame + 1) - first)%nat).
  pose proof (channel_sum_between pcm channel first m lo hi Hc ltac:(lia) Hall) as Hs.
  replace (Nat.max 1 m) with m by lia.
  pose proof (quot_between _ (Z.of_nat m) lo hi ltac:(lia) Hs) as Hq.
  rewrite (s16_id (Z.quot _ _)) by (unfold is_s16; lia).
  rewrite s16_to_s8_id by (unfold is_s16; lia). split; apply quot_256_mono; lia.
Qed.

(** ** Microphone frames *)

Lemma mic_frames_length mono n k : length (seq k n ≫= mic_frame mono) = (n * 4)%nat.
Proof.
  revert k. induction n as [|n IH]; intros k; [done|].
  cbn [seq]. rewrite bind_cons, length_app, IH. simpl. lia.
Qed.

Lemma mic_frames_ok mono n k : bytes_ok (seq k n ≫= mic_frame mono).
Proof.
  revert k. induction n as [|n IH]; intros k; [constructor|].
  cbn [seq]. rewrite bind_cons. apply bytes_ok_app; [|apply IH].
  do 2 (constructor; [done|]). do 2 (constructor; [apply u8_range|]). constructor.
Qed.

(** The bytes of frame [i]. *)
Lemma mic_frames_byte mono n k i j :
  (i < n)%nat -> (j < 4)%nat ->
  byte_at (seq k n ≫= mic_frame mono) (i * 4 + j) = byte_at (mic_frame mono (k + i)) j.
Proof.
  revert k i. induction n as [|n IH]; intros k i Hi Hj; [lia|].
  cbn [seq]. rewrite bind_cons. unfold byte_at in *. destruct i as [|i].
  - rewrite lookup_app_l by (simpl; lia). by rewrite Nat.add_0_r.
  - rewrite lookup_app_r by (simpl; lia).
    replace (S i * 4 + j - length (mic_frame mono k))%nat with (i * 4 + j)%nat by (simpl; lia).
    rewrite IH by lia. by replace (S k + i)%nat with (k + S i)%nat by lia.
Qed.

Lemma low_high_bytes v : is_u16 v -> Z.lor (u8 (Z.land v 0xff)) (Z.shiftl (u8 (Z.land (Z.shiftr v 8) 0xff)) 8) = v.
Proof.
  intros Hv. unfold is_u16 in Hv. rewrite !land_255. unfold u8. rewrite !Z.mod_mod by lia.
  rewrite Z.shiftr_div_pow2, (Z.mod_small (v / 2 ^ 8)) by
    (split; [apply Z.div_pos; lia|apply Z.div_lt_upper_bound; lia]) || lia.
  rewrite <- Z.shiftr_div_pow2 by lia. apply Z.bits_inj. intros i. rewrite Z.lor_spec.
  destruct (decide (i < 0)); [by rewrite !Z.testbit_neg_r by lia|].
  rewrite Z.shiftl_spec by lia. destruct (decide (i < 8)).
  - rewrite Z.mod_pow2_bits_low, (Z.testbit_neg_r _ (i - 8)) by lia. apply orb_false_r.
  - rewrite Z.mod_pow2_bits_high, Z.shiftr_spec by lia. simpl. f_equal. lia.
Qed.

Lemma mic_frames_at mono n i :
  Forall is_s16 mono -> (n <= length mono)%nat -> (i < n)%nat ->
  read_le_s16 (seq 0 n ≫= mic_frame mono) (i * 4) = 0 /\
  read_le_s16 (seq 0 n ≫= mic_frame mono) (i * 4 + 2) = byte_at mono i.
Proof.
  intros Hm Hn Hi. unfold read_le_s16.
  replace (i * 4 + 2 + 1)%nat with (i * 4 + 3)%nat by lia.
  pose proof (mic_frames_byte mono n 0 i 0 Hi ltac:(lia)) as H0. rewrite Nat.add_0_r in H0.
  rewrite H0, !mic_frames_byte by lia. cbn [Nat.add]. split; [done|].
  assert (byte_at (mic_frame mono i) 2 = u8 (Z.land (u16 (byte_at mono i)) 0xff)) as -> by done.
  assert (byte_at (mic_frame mono i) 3 = u8 (Z.land (Z.shiftr (u16 (byte_at mono i)) 8) 0xff)) as ->
    by done.
  rewrite low_high_bytes by apply u16_range.
  assert (is_s16 (byte_at mono i)) as Hv by (apply (sample_in is_s16); [done|lia]).
  rewrite <- (s16_id _ Hv) at 2. unfold s16, signed, u16. by rewrite Z.mod_mod.
Qed.


(** What fits into a packet. *)
Definition chunk_ok (c : AudioChunk) : Prop :=
  length (haptics c) = kHapticsSampleSize /\ length (speaker c) = kSpeakerOpusSize /\ bytes_ok (speaker c).

(** [opus_encode] fills at most the 200 bytes of the buffer it is given. *)
Definition opus_encode_ok {Encoder : Type} (opus_encode : Encoder -> list Z -> Encoder * (Z * list Z)) : Prop :=
  forall e pcm, length (opus_encode e pcm).2.2 = 200%nat /\ bytes_ok (opus_encode e pcm).2.2
                /\ (opus_encode e pcm).2.1 <= 200.

Section Chunks.
Context {Encoder : Type}.
Context (opus_encode : Encoder -> list Z -> Encoder * (Z * list Z)).
Context (opus_strerror : Z -> string).
Context (Hopus : opus_encode_ok opus_encode).

Abbreviation extractor := (PcmAudioExtractor Encoder).
Abbreviation consume_frame := (consume_frame opus_encode opus_strerror).
Abbreviation consume_frames := (consume_frames opus_encode opus_strerror).
Abbreviation push_loop := (push_loop opus_encode opus_strerror).
Abbreviation push_usb_audio := (push_usb_audio opus_encode opus_strerror).

Lemma encode_length pcm n (x x' : extractor) speaker :
  encode opus_encode opus_strerror pcm n x = (x', Ok speaker) ->
  length speaker = kSpeakerOpusSize /\ bytes_ok speaker.
Proof.
  unfold encode. pose proof (Hopus (speaker_encoder_ x) (resample_speaker_pcm pcm n)) as (Hl & Hb & Hn).
  destruct (opus_encode _ _) as [e [bytes buffer]]. cbn [fst snd] in *. unfold kSpeakerOpusSize.
  destruct (Z.ltb_spec bytes 0); [discriminate|]. change (Z.of_nat 200) with 200.
  destruct (Z.ltb_spec bytes 200); intros [= <- <-].
  - split; [rewrite length_app, length_take, length_replicate; lia|]. apply Forall_app_2.
    + by apply bytes_ok_take.
    + by apply Forall_replicate.
  - by split.
Qed.

Lemma resample_haptics_length pcm n : length (resample_haptics_pcm pcm n) = kHapticsSampleSize.
Proof. unfold resample_haptics_pcm. by rewrite pairs_length. Qed.

(** A frame either completes the window or is stored. *)
Lemma consume_frame_spec base (x : extractor) :
  let '(x', r) := consume_frame base x in
  pcm_window_frames_ x' = pcm_window_frames_ x /\ pending_frame_pos_ x' = pending_frame_pos_ x /\
  (forall cs, r = Ok cs -> Forall chunk_ok cs) /\
  if (S (pcm_window_frame_pos_ x) =? pcm_window_frames_ x)%nat
  then pcm_window_frame_pos_ x' = 0%nat /\ r <> Ok []
  else pcm_window_frame_pos_ x' = S (pcm_window_frame_pos_ x) /\ r = Ok [].
Proof.
  unfold Audio.consume_frame, mbind, prog_bind, modify, get_state, mret, prog_ret.
  set (y := store_frame base x).
  change (pcm_window_frame_pos_ y) with (S (pcm_window_frame_pos_ x)).
  change (pcm_window_frames_ y) with (pcm_window_frames_ x).
  destruct (S (pcm_window_frame_pos_ x) =? pcm_window_frames_ x)%nat; cbn [negb].
  - destruct (encode _ _ _ _ _) as [z [sp|e]] eqn:He.
    + assert (pcm_window_frames_ z = pcm_window_frames_ x /\ pending_frame_pos_ z = pending_frame_pos_ x
              /\ pcm_window_frame_pos_ z = 0%nat) as (Hf & Hp & Hw).
      { unfold encode in He. destruct (opus_encode _ _) as [e [b buf]].
        destruct (b <? 0); [discriminate|]. by destruct (b <? _); injection He as <- _. }
      apply encode_length in He as [Hl Hb]. split_and!; [done..| |done|discriminate].
      intros cs [= <-]. apply Forall_singleton. split_and!; cbn [haptics speaker]; [apply resample_haptics_length|done..].
    + assert (pcm_window_frames_ z = pcm_window_frames_ x /\ pending_frame_pos_ z = pending_frame_pos_ x
              /\ pcm_window_frame_pos_ z = 0%nat) as (Hf & Hp & Hw).
      { unfold encode in He. destruct (opus_encode _ _) as [e' [b buf]].
        destruct (b <? 0); [by injection He as <- _|]. by destruct (b <? _). }
      by split_and!.
  - split_and!; [done..| |done|done]. by intros cs [= <-].
Qed.

Definition chunks_of (r : result (list AudioChunk)) : Prop := forall cs, r = Ok cs -> Forall chunk_ok cs.

Lemma consume_frames_spec n bytes (x : extractor) :
  let '(x', r) := consume_frames n bytes x in
  pcm_window_frames_ x' = pcm_window_frames_ x /\ pending_frame_pos_ x' = pending_frame_pos_ x /\ chunks_of r /\
  ((pcm_window_frame_pos_ x < pcm_window_frames_ x)%nat ->
   (pcm_window_frame_pos_ x' < pcm_window_frames_ x)%nat /\
   ((pcm_window_frames_ x <= pcm_window_frame_pos_ x + n)%nat -> r <> Ok [])).
Proof.
  revert bytes x. induction n as [|n IH]; intros bytes x; cbn [Audio.consume_frames].
  { split_and!; [done..|by intros cs [= <-]|]. intros Hp. split; [done|lia]. }
  unfold mbind, prog_bind. pose proof (consume_frame_spec (take kPcmFrameSize bytes) x) as H1.
  destruct (consume_frame _ x) as [x1 [c|e]]; destruct H1 as (Hf & Hp & Hc & Hw).
  - pose proof (IH (drop kPcmFrameSize bytes) x1) as H2. destruct (consume_frames n _ x1) as [x2 r2].
    destruct H2 as (Hf2 & Hp2 & Hc2 & Hw2).
    assert ((pcm_window_frame_pos_ x < pcm_window_frames_ x)%nat ->
            (pcm_window_frame_pos_ x1 < pcm_window_frames_ x1)%nat) as Hlt.
    { intros Hx. rewrite Hf. destruct (S (pcm_window_frame_pos_ x) =? pcm_window_frames_ x)%nat eqn:E; destruct Hw as [-> _]; [lia|].
      apply Nat.eqb_neq in E. lia. }
    rewrite Hf, Hp in *. destruct r2 as [rest|e2].
    + split_and!; [done..| |].
      * intros cs [= <-]. apply Forall_app_2; [by apply Hc|by apply Hc2].
      * intros Hx. destruct (Hw2 (Hlt Hx)) as [Hw3 Hne]. split; [done|]. intros Hn [= E].
        apply app_eq_nil in E as [-> ->]. destruct (S (pcm_window_frame_pos_ x) =? pcm_window_frames_ x)%nat eqn:Ee; destruct Hw as [Hw Hr]; [done|].
        apply Hne; [|done]. lia.
    + split_and!; [done..| |]; [by intros cs|]. intros Hx. split; [by apply Hw2, Hlt|by intros].
  - split_and!; [done..|by intros cs|]. intros Hx. split; [|by intros].
    destruct (S (pcm_window_frame_pos_ x) =? pcm_window_frames_ x)%nat; destruct Hw as [-> Hr]; [lia|discriminate].
Qed.

Lemma push_chunks f bytes (x : extractor) : chunks_of (push_loop f bytes x).2.
Proof.
  revert bytes x. induction f as [|f IH]; intros bytes x; cbn [Audio.push_loop]; [by intros cs|].
  case_decide; [by intros cs [= <-]|]. unfold mbind, prog_bind, get_state, modify. case_match.
  - pose proof (consume_frames_spec (length bytes / kPcmFrameSize) bytes x) as Hc.
    destruct (consume_frames _ _ x) as [x1 [c|e]]; [|by intros cs]. destruct Hc as (_ & _ & Hc & _).
    specialize (IH (drop (length bytes / kPcmFrameSize * kPcmFrameSize) bytes) x1).
    destruct (push_loop f _ x1) as [x2 [rest|e]]; [|by intros cs]. intros cs [= <-].
    apply Forall_app_2; [by apply Hc|by apply IH].
  - set (frame := copy_into _ _ _). set (pos := (_ + _)%nat). set (rest_bytes := drop _ bytes). clearbody frame pos rest_bytes.
    destruct (pos =? kPcmFrameSize)%nat.
    + pose proof (consume_frame_spec frame (set_pending frame pos x)) as Hc.
      destruct (consume_frame _ _) as [x1 [c|e]]; [|by intros cs]. destruct Hc as (_ & _ & Hc & _).
      unfold mret, prog_ret. specialize (IH rest_bytes (set_pending (pending_frame_ x1) 0 x1)).
      destruct (push_loop f _ _) as [x2 [rest|e]]; [|by intros cs]. intros cs [= <-].
      apply Forall_app_2; [by apply Hc|by apply IH].
    + unfold mret, prog_ret. specialize (IH rest_bytes (set_pending frame pos x)).
      destruct (push_loop f _ _) as [x2 [rest|e]]; [|by intros cs]. intros cs [= <-]. by apply IH.
Qed.
Lemma push_usb_audio_chunks bytes (x : extractor) : chunks_of (push_usb_audio bytes x).2.
Proof. apply push_chunks. Qed.

(** An extractor that is used for whole windows only. *)
Definition window_extractor_ok (x : extractor) : Prop :=
  pcm_window_frames_ x = kPcmWindowFrames /\ (pcm_window_frame_pos_ x < kPcmWindowFrames)%nat /\
  pending_frame_pos_ x = 0%nat.

Lemma push_window bytes (x : extractor) :
  window_extractor_ok x -> length bytes = (kPcmWindowFrames * kPcmFrameSize)%nat ->
  let '(x', r) := push_usb_audio bytes x in window_extractor_ok x' /\ r <> Ok [].
Proof.
  intros (Hf & Hw & Hp) Hl. unfold Audio.push_usb_audio. cbn [Audio.push_loop].
  rewrite decide_False by (intros ->; discriminate). unfold mbind, prog_bind, get_state.
  rewrite Hp, Hl, Nat.eqb_refl. change (kPcmFrameSize <=? kPcmWindowFrames * kPcmFrameSize)%nat with true.
  cbn [andb]. change (kPcmWindowFrames * kPcmFrameSize / kPcmFrameSize)%nat with kPcmWindowFrames.
  pose proof (consume_frames_spec kPcmWindowFrames bytes x) as H1. rewrite Hf, Hp in H1.
  destruct (consume_frames _ _ x) as [x1 r]. destruct H1 as (Hf1 & Hp1 & _ & Hw1).
  destruct (Hw1 Hw) as [Hlt Hne]. rewrite drop_ge by lia. cbn [Audio.push_loop]. unfold mret, prog_ret.
  destruct r as [c|e]; (split; [by split_and!|]); [|done]. rewrite app_nil_r. apply Hne. lia.
Qed.
End Chunks.
