(* ===== verification/AudioStream.v ===== *)
(** The extractor against its specification: a machine that takes whole frames
    from the byte stream, whatever pieces the stream arrives in. *)
From stdpp Require Import base list strings numbers.
From Stdlib Require Import ZArith Lia.
From S2P Require Import Prelude Text Words BtPacket OutputState Audio AudioFacts.

Local Open Scope Z_scope.

Section Stream.
Context {Encoder : Type}.
Context (opus_encode : Encoder -> list Z -> Encoder * (Z * list Z)).
Context (opus_strerror : Z -> string).

Abbreviation extractor := (PcmAudioExtractor Encoder).
Abbreviation consume_frame := (consume_frame opus_encode opus_strerror).
Abbreviation consume_frames := (consume_frames opus_encode opus_strerror).
Abbreviation push_loop := (push_loop opus_encode opus_strerror).
Abbreviation push_usb_audio := (push_usb_audio opus_encode opus_strerror).

(** ** The pending bytes do not matter to the frames *)

(** Everything but the pending bytes. *)
Definition strip (x : extractor) : extractor := set_pending [] 0 x.
Definition pending_bytes (x : extractor) : list Z := take (pending_frame_pos_ x) (pending_frame_ x).
Definition pending_ok (x : extractor) : Prop :=
  length (pending_frame_ x) = kPcmFrameSize /\ (pending_frame_pos_ x < kPcmFrameSize)%nat.

Lemma consume_frame_pending f p base x :
  consume_frame base (set_pending f p x) =
  (set_pending f p (consume_frame base x).1, (consume_frame base x).2).
Proof.
  unfold Audio.consume_frame, mbind, prog_bind, modify, get_state, mret, prog_ret, encode.
  change (store_frame base (set_pending f p x)) with (set_pending f p (store_frame base x)).
  set (y := store_frame base x). cbn [pcm_window_frame_pos_ pcm_window_frames_ set_pending].
  destruct (pcm_window_frame_pos_ y =? pcm_window_frames_ y)%nat; cbn [negb]; [|done].
  change (speaker_encoder_ (set_window_pos 0 (set_pending f p y)))
    with (speaker_encoder_ (set_window_pos 0 y)).
  change (speaker_pcm_ (set_pending f p y)) with (speaker_pcm_ y).
  destruct (opus_encode _ _) as [e [bytes buffer]].
  by destruct (bytes <? 0), (bytes <? Z.of_nat kSpeakerOpusSize).
Qed.

Lemma consume_frames_pending n f p l x :
  consume_frames n l (set_pending f p x) =
  (set_pending f p (consume_frames n l x).1, (consume_frames n l x).2).
Proof.
  revert l x. induction n as [|n IH]; intros l x; [done|].
  cbn [Audio.consume_frames]. unfold mbind, prog_bind. rewrite consume_frame_pending.
  destruct (consume_frame (take kPcmFrameSize l) x) as [x1 [c|e]]; cbn [fst snd]; [|done].
  rewrite IH. by destruct (consume_frames n (drop kPcmFrameSize l) x1) as [x2 [r|e]].
Qed.

(** Frames can be consumed in two goes. *)
Lemma consume_frames_app n m l x :
  consume_frames (n + m) l x =
  (c ← consume_frames n l; d ← consume_frames m (drop (n * kPcmFrameSize) l); mret (c ++ d)) x.
Proof.
  revert l x. induction n as [|n IH]; intros l x.
  - cbn [Nat.add Audio.consume_frames Nat.mul]. rewrite drop_0.
    unfold mbind, prog_bind, mret, prog_ret. by destruct (consume_frames m l x) as [? [|]].
  - cbn [Nat.add Audio.consume_frames]. unfold mbind, prog_bind in *.
    destruct (consume_frame (take kPcmFrameSize l) x) as [x1 [c|e]]; [|done].
    rewrite IH. replace (drop (S n * kPcmFrameSize) l)
      with (drop (n * kPcmFrameSize) (drop kPcmFrameSize l)) by (rewrite drop_drop; f_equal; lia).
    destruct (consume_frames n (drop kPcmFrameSize l) x1) as [x2 [d|e]]; [|done].
    unfold mret, prog_ret.
    destruct (consume_frames m _ x2) as [x3 [d'|e]]; [|done]. by rewrite app_assoc.
Qed.

Lemma consume_frames_prefix n l k x :
  (n * kPcmFrameSize <= length l)%nat -> consume_frames n (l ++ k) x = consume_frames n l x.
Proof.
  revert l x. induction n as [|n IH]; intros l x Hl; [done|].
  unfold kPcmFrameSize in *. cbn [Audio.consume_frames]. unfold kPcmFrameSize, mbind, prog_bind.
  rewrite take_app_le, drop_app_le by lia.
  destruct (consume_frame (take 8 l) x) as [x1 [c|e]]; [|done].
  rewrite IH by (rewrite length_drop; lia). done.
Qed.

(** ** One push *)

(** The whole frames in the bytes at hand. *)
Definition whole_frames (bytes : list Z) : nat := (length bytes / kPcmFrameSize)%nat.

(** What a push of [bytes] does, given all bytes not yet consumed. *)
Definition pushed (bytes : list Z) (x : extractor) (out : extractor * result (list AudioChunk)) : Prop :=
  let all := pending_bytes x ++ bytes in
  let '(x', r) := consume_frames (whole_frames all) all x in
  strip out.1 = strip x' /\ out.2 = r /\
  (is_ok r = true -> pending_ok out.1 /\
     pending_bytes out.1 = drop (whole_frames all * kPcmFrameSize) all).

Lemma pending_length (x : extractor) : pending_ok x -> length (pending_bytes x) = pending_frame_pos_ x.
Proof. intros [Hl Hp]. unfold pending_bytes. rewrite length_take. lia. Qed.

Lemma strip_set f p (x : extractor) : strip (set_pending f p x) = strip x.
Proof. done. Qed.

Lemma whole_frames_small l : (length l < 8)%nat -> whole_frames l = 0%nat.
Proof. intros. unfold whole_frames, kPcmFrameSize. by apply Nat.div_small. Qed.

Lemma pending_eta (x : extractor) : set_pending (pending_frame_ x) (pending_frame_pos_ x) x = x.
Proof. by destruct x. Qed.

(** Consuming frames keeps the pending bytes. *)
Lemma consume_frames_keeps n l x :
  pending_frame_ (consume_frames n l x).1 = pending_frame_ x /\
  pending_frame_pos_ (consume_frames n l x).1 = pending_frame_pos_ x.
Proof.
  pose proof (consume_frames_pending n (pending_frame_ x) (pending_frame_pos_ x) l x) as H.
  rewrite pending_eta in H. rewrite H. done.
Qed.

(** The step from one round of the loop to the next: [n] frames are consumed,
    then the rest of the input is pushed. *)
Lemma pushed_step n bytes rest x x1 c out :
  pending_ok x ->
  pending_bytes x ++ bytes = take (n * kPcmFrameSize) (pending_bytes x ++ bytes) ++ rest ->
  length (take (n * kPcmFrameSize) (pending_bytes x ++ bytes)) = (n * kPcmFrameSize)%nat ->
  (exists y, consume_frames n (pending_bytes x ++ bytes) x = (y, Ok c) /\ strip x1 = strip y) ->
  forall bytes', rest = pending_bytes x1 ++ bytes' ->
  pushed bytes' x1 out ->
  pushed bytes x (out.1, match out.2 with Ok d => Ok (c ++ d) | Throw e => Throw e end).
Proof.
  intros Hx Hall Hlen (y & Hc & Hs) bytes' Hrest Hp.
  unfold pushed in *. set (all := pending_bytes x ++ bytes) in *. rewrite <- Hrest in Hp.
  assert (whole_frames all = n + whole_frames rest)%nat as Hw.
  { unfold whole_frames. rewrite Hall, length_app, Hlen. unfold kPcmFrameSize.
    by rewrite Nat.add_comm, Nat.div_add, Nat.add_comm. }
  assert (drop (n * kPcmFrameSize) all = rest) as Hdrop.
  { rewrite Hall at 1. by rewrite drop_app_length' by done. }
  rewrite Hw, consume_frames_app, Hdrop. unfold mbind, prog_bind. rewrite Hc.
  assert (x1 = set_pending (pending_frame_ x1) (pending_frame_pos_ x1) (strip y)) as Hx1.
  { rewrite <- Hs. by destruct x1. }
  assert (y = set_pending (pending_frame_ y) (pending_frame_pos_ y) (strip y)) as Hy by by destruct y.
  rewrite Hx1, consume_frames_pending in Hp. rewrite Hy, consume_frames_pending.
  destruct (consume_frames (whole_frames rest) rest (strip y)) as [z [d|e]];
    cbn [fst snd] in *; destruct Hp as (Hp1 & -> & Hp3); cbn [fst snd] in *;
    (split; [by rewrite Hp1|]); (split; [done|]); [|done].
  intros _. destruct (Hp3 eq_refl) as [Hok Hpend]. split; [done|]. rewrite Hpend.
  rewrite <- Hdrop, drop_drop. f_equal. lia.
Qed.

(** What a round leaves when its first step throws. *)
Lemma pushed_throw bytes x n m y e :
  whole_frames (pending_bytes x ++ bytes) = (n + m)%nat ->
  consume_frames n (pending_bytes x ++ bytes) x = (y, Throw e) ->
  forall out, strip out.1 = strip y -> out.2 = Throw e -> pushed bytes x out.
Proof.
  intros Hw Hc out H1 H2. unfold pushed. rewrite Hw, consume_frames_app.
  unfold mbind, prog_bind. by rewrite Hc.
Qed.

(** The pending frame when it is filled up with the first [n] bytes. *)
Lemma fill_pending n bytes (x : extractor) :
  pending_ok x -> (n <= length bytes)%nat -> (pending_frame_pos_ x + n <= kPcmFrameSize)%nat ->
  let frame := copy_into (pending_frame_ x) (pending_frame_pos_ x) (take n bytes) in
  length frame = kPcmFrameSize /\
  take (pending_frame_pos_ x + n) frame = pending_bytes x ++ take n bytes.
Proof.
  intros Hx Hn Hp. pose proof (pending_length x Hx) as Hl. destruct Hx as [H8 _].
  assert (length (take n bytes) = n) as Ht by (rewrite length_take; lia).
  split; [rewrite copy_into_length; [done|lia]|].
  unfold copy_into. fold (pending_bytes x). rewrite app_assoc.
  apply take_app_length'. rewrite length_app. lia.
Qed.

Section Round.
Context (f : nat) (bytes : list Z) (x : extractor).
Context (IH : forall bytes x, pending_ok x -> (length bytes < f)%nat ->
                pushed bytes x (push_loop f bytes x)).
Context (Hx : pending_ok x) (Hne : length bytes <> 0%nat) (Hf : (length bytes < S f)%nat).

(** The round that takes all whole frames straight from the input. *)
Lemma push_frames :
  pending_bytes x = [] -> (kPcmFrameSize <= length bytes)%nat ->
  pushed bytes x
    ((c ← consume_frames (length bytes / kPcmFrameSize) bytes;
      rest ← push_loop f (drop (length bytes / kPcmFrameSize * kPcmFrameSize) bytes);
      mret (c ++ rest)) x).
Proof.
  intros Hp0 H8. set (n := (length bytes / kPcmFrameSize)%nat).
  assert (n * kPcmFrameSize <= length bytes)%nat as Hn
    by (unfold n; rewrite Nat.mul_comm; apply Nat.Div0.mul_div_le).
  assert (1 <= n)%nat as Hn1 by by apply Nat.div_le_lower_bound.
  unfold mbind, prog_bind.
  destruct (consume_frames n bytes x) as [x1 [c|e]] eqn:Hc.
  - pose proof (consume_frames_keeps n bytes x) as [Hk1 Hk2]. rewrite Hc in Hk1, Hk2.
    cbn [fst] in Hk1, Hk2.
    assert (pending_ok x1) as Hx1 by (unfold pending_ok; by rewrite Hk1, Hk2).
    assert (pending_bytes x1 = []) as Hp1 by (unfold pending_bytes; by rewrite Hk1, Hk2).
    specialize (IH (drop (n * kPcmFrameSize) bytes) x1 Hx1
      ltac:(rewrite length_drop; unfold kPcmFrameSize in *; lia)).
    destruct (push_loop f _ x1) as [x2 r] eqn:Hl.
    assert (pushed bytes x (x2, match r with Ok d => Ok (c ++ d) | Throw e => Throw e end)) as Hp;
      [|by destruct r].
    apply (pushed_step n bytes (drop (n * kPcmFrameSize) bytes) x x1 c (x2, r) Hx) with
      (bytes' := drop (n * kPcmFrameSize) bytes); [| |eauto| |done]; rewrite ?Hp0, ?Hp1; simpl.
    + by rewrite take_drop.
    + rewrite length_take. lia.
    + exists x1. done.
    + done.
  - eapply (pushed_throw bytes x n 0); rewrite ?Hp0; simpl; [|exact Hc|done|done].
    by rewrite Nat.add_0_r.
Qed.

(** The round that fills the pending frame up. *)
Lemma push_partial :
  pushed bytes x
    ((let copy_size := Nat.min (length bytes) (kPcmFrameSize - pending_frame_pos_ x) in
      let frame := copy_into (pending_frame_ x) (pending_frame_pos_ x) (take copy_size bytes) in
      let pos := (pending_frame_pos_ x + copy_size)%nat in
      _ ← modify (set_pending frame pos);
      c ← (if (pos =? kPcmFrameSize)%nat then
             c ← consume_frame frame;
             _ ← modify (fun x => set_pending (pending_frame_ x) 0 x);
             mret c
           else mret []);
      rest ← push_loop f (drop copy_size bytes);
      mret (c ++ rest)) x).
Proof.
  cbv zeta. set (n := Nat.min _ _). pose proof (pending_length x Hx) as Hpl.
  pose proof (proj2 Hx) as Hpos.
  assert (1 <= n <= length bytes)%nat as Hn by (unfold n; lia).
  destruct (fill_pending n bytes x Hx ltac:(lia) ltac:(unfold n; lia)) as [Hfl Hft].
  cbv zeta in Hfl, Hft. set (frame := copy_into _ _ _) in *.
  unfold mbind, prog_bind, modify.
  destruct (Nat.eqb_spec (pending_frame_pos_ x + n) kPcmFrameSize) as [H8|H8].
  - rewrite H8 in *. rewrite take_ge in Hft by (rewrite Hfl; done).
    rewrite consume_frame_pending.
    assert (take kPcmFrameSize (pending_bytes x ++ bytes) = frame) as Hframe.
    { rewrite Hft. rewrite <- (take_drop n bytes) at 1. rewrite app_assoc.
      apply take_app_length'. by rewrite <- Hft, Hfl. }
    assert (consume_frames 1 (pending_bytes x ++ bytes) x =
      (let '(y, r) := consume_frame frame x in (y, r))) as Hone.
    { cbn [Audio.consume_frames]. rewrite Hframe. unfold mbind, prog_bind, mret, prog_ret.
      destruct (consume_frame frame x) as [y [c|e]]; [by rewrite app_nil_r|done]. }
    destruct (consume_frame frame x) as [y [c|e]]; cbn [fst snd].
    + pose (x1 := set_pending frame 0 y).
      assert (pending_ok x1) as Hx1 by (split; [done|unfold kPcmFrameSize; simpl; lia]).
      specialize (IH (drop n bytes) x1 Hx1 ltac:(rewrite length_drop; lia)).
      destruct (push_loop f (drop n bytes) x1) as [x2 r] eqn:Hl.
      assert (pushed bytes x (x2, match r with Ok d => Ok (c ++ d) | Throw e => Throw e end)) as Hp.
      { apply (pushed_step 1 bytes (drop n bytes) x x1 c (x2, r) Hx) with
          (bytes' := drop n bytes); [| |eauto|done|done]; rewrite ?Nat.mul_1_l, ?Hframe.
        - by rewrite Hft, <- app_assoc, take_drop.
        - done. }
      change (pushed bytes x (match push_loop f (drop n bytes) x1 with
        | (s, Ok a) => (s, Ok (c ++ a)) | (s, Throw e) => (s, Throw e) end)).
      rewrite Hl. by destruct r.
    + eapply (pushed_throw bytes x 1 (whole_frames (pending_bytes x ++ bytes) - 1));
        [|exact Hone|done|done].
      assert (1 <= whole_frames (pending_bytes x ++ bytes))%nat; [|lia].
      apply Nat.div_le_lower_bound; [unfold kPcmFrameSize; lia|].
      rewrite length_app. unfold kPcmFrameSize in *. lia.
  - assert (n = length bytes) as Hnl by (unfold n in *; lia).
    pose (x1 := set_pending frame (pending_frame_pos_ x + n) x).
    assert (pending_ok x1) as Hx1 by (split; [done|simpl; unfold n; lia]).
    specialize (IH (drop n bytes) x1 Hx1 ltac:(rewrite length_drop; lia)).
    destruct (push_loop f (drop n bytes) x1) as [x2 r] eqn:Hl.
    assert (pushed bytes x (x2, match r with Ok d => Ok ([] ++ d) | Throw e => Throw e end)) as Hp.
    { apply (pushed_step 0 bytes (pending_bytes x ++ bytes) x x1 [] (x2, r) Hx) with
        (bytes' := drop n bytes); [done|done|by exists x| |done].
      unfold pending_bytes at 2. simpl. rewrite Hft, Hnl, firstn_all, drop_all. by rewrite app_nil_r. }
    change (pushed bytes x (match push_loop f (drop n bytes) x1 with
      | (s, Ok a) => (s, Ok ([] ++ a)) | (s, Throw e) => (s, Throw e) end)).
    rewrite Hl. by destruct r.
Qed.
End Round.

Lemma push_loop_spec f bytes x :
  pending_ok x -> (length bytes < f)%nat -> pushed bytes x (push_loop f bytes x).
Proof.
  revert bytes x. induction f as [|f IH]; intros bytes x Hx Hf; [lia|].
  pose proof (pending_length x Hx) as Hpl.
  cbn [Audio.push_loop]. case_decide as Hb.
  { subst. unfold pushed. rewrite app_nil_r.
    rewrite whole_frames_small by (destruct Hx; unfold kPcmFrameSize in *; lia).
    cbn [Audio.consume_frames mret prog_ret]. by rewrite drop_0. }
  assert (length bytes <> 0)%nat as Hlb by by destruct bytes.
  pose proof (push_partial f bytes x IH Hx Hlb Hf) as Hpart.
  unfold mbind at 1, prog_bind at 1, get_state at 1.
  destruct (Nat.eqb_spec (pending_frame_pos_ x) 0) as [H0|H0]; cbn [andb]; [|exact Hpart].
  destruct (Nat.leb_spec kPcmFrameSize (length bytes)) as [H8|H8]; [|exact Hpart].
  apply (push_frames f bytes x IH Hx Hlb Hf); [|done]. unfold pending_bytes. by rewrite H0.
Qed.

(** ** The stream in pieces *)

Lemma pushed_app a b x x1 r out :
  pending_ok x -> pushed a x (x1, r) ->
  match r with
  | Ok c => exists out2, pushed b x1 out2 /\
      out = (out2.1, match out2.2 with Ok d => Ok (c ++ d) | Throw e => Throw e end)
  | Throw e => out = (x1, Throw e)
  end ->
  pushed (a ++ b) x out.
Proof.
  intros Hx Ha Hout. set (n := whole_frames (pending_bytes x ++ a)).
  assert (n * kPcmFrameSize <= length (pending_bytes x ++ a))%nat as Hn
    by (unfold n, whole_frames; rewrite Nat.mul_comm; apply Nat.Div0.mul_div_le).
  assert (exists m, whole_frames (pending_bytes x ++ a ++ b) = n + m)%nat as [m Hm].
  { exists (whole_frames (pending_bytes x ++ a ++ b) - n)%nat.
    assert (n <= whole_frames (pending_bytes x ++ a ++ b))%nat; [|lia].
    apply Nat.Div0.div_le_mono. rewrite !length_app. lia. }
  pose proof (consume_frames_prefix n (pending_bytes x ++ a) b x Hn) as Hpre.
  rewrite <- app_assoc in Hpre. unfold pushed in Ha. fold n in Ha.
  destruct (consume_frames n (pending_bytes x ++ a) x) as [y r'] eqn:Hc.
  cbn [fst snd] in Ha. destruct Ha as (Hs & -> & Hok).
  destruct r' as [c|e]; [|subst out; by eapply pushed_throw].
  destruct Hout as (out2 & Hb & ->). destruct (Hok eq_refl) as [Hx1 Hpend].
  apply (pushed_step n (a ++ b) (pending_bytes x1 ++ b) x x1 c out2 Hx) with (bytes' := b); try done.
  - rewrite Hpend, app_assoc, take_app_le, app_assoc, take_drop by done. done.
  - rewrite app_assoc, take_app_le, length_take by done. lia.
  - exists y. split; [exact Hpre|done].
Qed.

Fixpoint push_pieces (pieces : list (list Z)) : prog extractor (list AudioChunk) :=
  match pieces with
  | [] => mret []
  | p :: rest => c ← push_usb_audio p; d ← push_pieces rest; mret (c ++ d)
  end.

Lemma push_spec bytes x : pending_ok x -> pushed bytes x (push_usb_audio bytes x).
Proof. intros Hx. apply push_loop_spec; [done|lia]. Qed.

Lemma pushed_nil x : pending_ok x -> pushed [] x (x, Ok []).
Proof.
  intros Hx. pose proof (push_spec [] x Hx) as H. exact H.
Qed.

Lemma push_pieces_spec pieces x :
  pending_ok x -> pushed (concat pieces) x (push_pieces pieces x).
Proof.
  revert x. induction pieces as [|p rest IH]; intros x Hx; [by apply pushed_nil|].
  pose proof (push_spec p x Hx) as Hp. cbn [push_pieces concat]. unfold mbind, prog_bind.
  destruct (push_usb_audio p x) as [x1 r]. eapply pushed_app; [done|exact Hp|].
  destruct r as [c|e]; [|done]. exists (push_pieces rest x1).
  assert (pending_ok x1) as Hx1.
  { unfold pushed in Hp. destruct (consume_frames _ _ x) as [y r'].
    destruct Hp as (_ & Hr & Hok). simpl in Hr. by apply Hok; rewrite <- Hr. }
  split; [by apply IH|]. by destruct (push_pieces rest x1) as [x2 [d|e]].
Qed.

(** ** One window *)

Definition speaker_samples (base : list Z) : list Z := [read_le_s16 base 0; read_le_s16 base 2].
Definition haptics_samples (base : list Z) : list Z := [read_le_s16 base 4; read_le_s16 base 6].
Definition nonzero (v : Z) : bool := negb (v =? 0).
Definition frame_signal (base : list Z) : bool :=
  existsb nonzero (speaker_samples base ++ haptics_samples base).
Definition frame_haptics_signal (base : list Z) : bool := existsb nonzero (haptics_samples base).

Definition window_ok (x : extractor) : Prop :=
  length (speaker_pcm_ x) = 1024%nat /\ length (haptics_pcm_ x) = 1024%nat /\
  (0 < pcm_window_frames_ x <= 512)%nat /\ (pcm_window_frame_pos_ x < pcm_window_frames_ x)%nat.

(** The samples of the window so far. *)
Definition window_speaker (x : extractor) : list Z := take (pcm_window_frame_pos_ x * 2) (speaker_pcm_ x).
Definition window_haptics (x : extractor) : list Z := take (pcm_window_frame_pos_ x * 2) (haptics_pcm_ x).

Lemma take_store (l : list Z) pos a b :
  (pos * 2 + 1 < length l)%nat ->
  take (S pos * 2) (<[(pos * 2 + 1)%nat := b]> (<[(pos * 2 + 0)%nat := a]> l)) =
  take (pos * 2) l ++ [a; b].
Proof.
  intros Hl. replace (S pos * 2)%nat with (S (S (pos * 2))) by lia. rewrite Nat.add_0_r.
  assert (forall m : list Z, (pos * 2 + 1 < length m)%nat ->
    take (S (S (pos * 2))) m = take (pos * 2) m ++ [byte_at m (pos * 2); byte_at m (pos * 2 + 1)]) as Ht.
  { intros m Hm. destruct (lookup_lt_is_Some_2 m (pos * 2) ltac:(lia)) as [x Hx].
    destruct (lookup_lt_is_Some_2 m (pos * 2 + 1) ltac:(lia)) as [y Hy].
    rewrite (byte_at_lookup _ _ _ Hx), (byte_at_lookup _ _ _ Hy).
    erewrite take_S_r by (rewrite <- Hy; f_equal; lia). erewrite take_S_r by exact Hx.
    by rewrite <- app_assoc. }
  rewrite Ht by (rewrite !length_insert; lia).
  rewrite byte_at_insert_eq by (rewrite length_insert; lia).
  rewrite byte_at_insert_ne, byte_at_insert_eq by lia.
  by rewrite !take_insert_ge by lia.
Qed.

Lemma store_frame_window base x :
  window_ok x ->
  window_speaker (store_frame base x) = window_speaker x ++ speaker_samples base /\
  window_haptics (store_frame base x) = window_haptics x ++ haptics_samples base /\
  chunk_has_signal_ (store_frame base x) = chunk_has_signal_ x || frame_signal base /\
  chunk_has_haptics_signal_ (store_frame base x) =
    chunk_has_haptics_signal_ x || frame_haptics_signal base.
Proof.
  intros (Hs & Hh & Hw & Hp). split_and!.
  - apply take_store. lia.
  - apply take_store. lia.
  - unfold frame_signal. simpl. unfold nonzero. by rewrite !orb_false_r, !orb_assoc.
  - unfold frame_haptics_signal. simpl. unfold nonzero. by rewrite !orb_false_r.
Qed.

(** Frames that do not complete the window are only stored. *)
Lemma consume_prefix (fs : list (list Z)) x :
  window_ok x -> (pcm_window_frame_pos_ x + length fs < pcm_window_frames_ x)%nat ->
  Forall (fun f => length f = kPcmFrameSize) fs ->
  forall rest, exists x', consume_frames (length fs) (concat fs ++ rest) x = (x', Ok []) /\
    window_ok x' /\ pcm_window_frame_pos_ x' = (pcm_window_frame_pos_ x + length fs)%nat /\
    pcm_window_frames_ x' = pcm_window_frames_ x /\ speaker_encoder_ x' = speaker_encoder_ x /\
    window_speaker x' = window_speaker x ++ (fs ≫= speaker_samples) /\
    window_haptics x' = window_haptics x ++ (fs ≫= haptics_samples) /\
    chunk_has_signal_ x' = chunk_has_signal_ x || existsb frame_signal fs /\
    chunk_has_haptics_signal_ x' = chunk_has_haptics_signal_ x || existsb frame_haptics_signal fs.
Proof.
  intros Hx Hl Hall rest. revert x Hx Hl. induction Hall as [|f fs Hf Hall IH]; intros x Hx Hl.
  { exists x. rewrite !app_nil_r, !orb_false_r, Nat.add_0_r. done. }
  cbn [length] in Hl. cbn [length concat Audio.consume_frames]. unfold mbind, prog_bind.
  rewrite <- app_assoc, take_app_length', drop_app_length' by done.
  destruct (store_frame_window f x Hx) as (Hsp & Hhp & Hsig & Hhsig).
  destruct Hx as (Hs & Hh & Hw & Hp).
  assert (consume_frame f x = (store_frame f x, Ok [])) as ->.
  { unfold Audio.consume_frame, mbind, prog_bind, modify, get_state.
    change (pcm_window_frame_pos_ (store_frame f x)) with (S (pcm_window_frame_pos_ x)).
    change (pcm_window_frames_ (store_frame f x)) with (pcm_window_frames_ x).
    rewrite (proj2 (Nat.eqb_neq _ _)) by lia. done. }
  destruct (IH (store_frame f x)) as (x' & Hc & Hok & Hpos & Hwf & He & Hsp' & Hhp' & Hsig' & Hhsig').
  { split_and!; simpl; rewrite ?length_insert; lia. }
  { simpl. lia. }
  exists x'. rewrite Hc. cbn [app]. split_and!; try done.
  - rewrite Hpos. simpl. lia.
  - by rewrite Hsp', Hsp, bind_cons, app_assoc.
  - by rewrite Hhp', Hhp, bind_cons, app_assoc.
  - rewrite Hsig', Hsig. cbn [existsb]. by rewrite orb_assoc.
  - rewrite Hhsig', Hhsig. cbn [existsb]. by rewrite orb_assoc.
Qed.

(** The frame that completes a window. *)
Lemma consume_last base x :
  window_ok x -> S (pcm_window_frame_pos_ x) = pcm_window_frames_ x ->
  let w := pcm_window_frames_ x in
  let '(e, (bytes, buffer)) :=
    opus_encode (speaker_encoder_ x)
      (resample_speaker_pcm (window_speaker x ++ speaker_samples base) w) in
  let '(x', r) := consume_frame base x in
  if bytes <? 0 then r = Throw ("opus_encode failed: " +:+ opus_strerror bytes)
  else r = Ok [mk_chunk (resample_haptics_pcm (window_haptics x ++ haptics_samples base) w)
                 (if bytes <? Z.of_nat kSpeakerOpusSize
                  then take (Z.to_nat bytes) buffer ++ replicate (kSpeakerOpusSize - Z.to_nat bytes) 0
                  else buffer)
                 (chunk_has_signal_ x || frame_signal base)
                 (chunk_has_haptics_signal_ x || frame_haptics_signal base)] /\
    speaker_encoder_ x' = e /\ pcm_window_frame_pos_ x' = 0%nat /\
    chunk_has_signal_ x' = false /\ chunk_has_haptics_signal_ x' = false.
Proof.
  intros Hx Hlast. cbv zeta. destruct (store_frame_window base x Hx) as (Hsp & Hhp & Hsig & Hhsig).
  unfold Audio.consume_frame, mbind, prog_bind, modify, get_state, encode, mret, prog_ret.
  set (y := store_frame base x) in *.
  assert (pcm_window_frame_pos_ y = pcm_window_frames_ x) as Hpy by (simpl; lia).
  assert (pcm_window_frames_ y = pcm_window_frames_ x) as Hwy by done.
  unfold window_speaker, window_haptics in Hsp, Hhp. rewrite Hpy in Hsp, Hhp.
  rewrite Hpy, Hwy, Nat.eqb_refl. cbn [negb].
  change (pcm_window_frames_ x * kSpeakerChannels)%nat with (pcm_window_frames_ x * 2)%nat.
  rewrite Hsp, Hhp, Hsig, Hhsig.
  change (speaker_encoder_ (set_window_pos 0 y)) with (speaker_encoder_ x).
  destruct (opus_encode _ _) as [e [bytes buffer]].
  by destruct (bytes <? 0), (bytes <? Z.of_nat kSpeakerOpusSize).
Qed.

(** A whole window, from an empty one. *)
Lemma consume_window x (frames : list (list Z)) :
  window_ok x -> pcm_window_frame_pos_ x = 0%nat ->
  chunk_has_signal_ x = false -> chunk_has_haptics_signal_ x = false ->
  length frames = pcm_window_frames_ x -> Forall (fun f => length f = kPcmFrameSize) frames ->
  let w := pcm_window_frames_ x in
  let '(e, (bytes, buffer)) :=
    opus_encode (speaker_encoder_ x) (resample_speaker_pcm (frames ≫= speaker_samples) w) in
  let '(x', r) := consume_frames (length frames) (concat frames) x in
  if bytes <? 0 then r = Throw ("opus_encode failed: " +:+ opus_strerror bytes)
  else r = Ok [mk_chunk (resample_haptics_pcm (frames ≫= haptics_samples) w)
                 (if bytes <? Z.of_nat kSpeakerOpusSize
                  then take (Z.to_nat bytes) buffer ++ replicate (kSpeakerOpusSize - Z.to_nat bytes) 0
                  else buffer)
                 (existsb frame_signal frames) (existsb frame_haptics_signal frames)] /\
    speaker_encoder_ x' = e /\ pcm_window_frame_pos_ x' = 0%nat /\
    chunk_has_signal_ x' = false /\ chunk_has_haptics_signal_ x' = false.
Proof.
  intros Hw Hpos Hs0 Hh0 Hlen Hall. cbv zeta.
  destruct (exists_last (l := frames)) as (fs & base & ->).
  { intros ->. destruct Hw as (_ & _ & ? & _). simpl in Hlen. lia. }
  apply Forall_app in Hall as [Hfs Hbase]. apply Forall_cons_1 in Hbase as [Hbase _].
  rewrite length_app in *. cbn [length] in *.
  destruct (consume_prefix fs x Hw ltac:(lia) Hfs base)
    as (y & Hc & Hok & Hpy & Hwy & Hey & Hspy & Hhpy & Hsy & Hhy).
  pose proof (consume_last base y Hok ltac:(lia)) as Hl. cbv zeta in Hl.
  rewrite Hey, Hwy, Hspy, Hhpy, Hsy, Hhy in Hl.
  assert (window_speaker x = [] /\ window_haptics x = []) as [Hwsx Hwhx]
    by (unfold window_speaker, window_haptics; by rewrite Hpos).
  rewrite Hwsx, Hwhx, !app_nil_l in Hl.
  rewrite Hs0, Hh0 in Hl. cbn [orb] in Hl.
  assert (forall f : list Z -> list Z, (fs ++ [base]) ≫= f = (fs ≫= f) ++ f base) as Hbind
    by (intros f; rewrite bind_app; f_equal; apply app_nil_r).
  rewrite !Hbind, concat_app, !existsb_app. cbn [existsb concat]. rewrite !orb_false_r, app_nil_r.
  assert (consume_frames (length fs + 1) (concat fs ++ base) x = consume_frame base y) as ->; [|exact Hl].
  rewrite consume_frames_app. unfold mbind, prog_bind. rewrite Hc.
  assert (length (concat fs) = length fs * kPcmFrameSize)%nat as Hcl.
  { clear -Hfs. induction Hfs as [|f fs Hf Hfs IH]; [done|]. simpl. rewrite length_app, IH, Hf.
    unfold kPcmFrameSize. lia. }
  rewrite drop_app_length' by done. cbn [Audio.consume_frames]. unfold mbind, prog_bind, mret, prog_ret.
  rewrite take_ge by (rewrite Hbase; done).
  destruct (consume_frame base y) as [z [c|e]]; [|done]. by rewrite app_nil_r.
Qed.
End Stream.
