(* ===== verification/AudioProps.v ===== *)
(** The properties of the audio conversion. *)
From stdpp Require Import base list strings numbers.
From Stdlib Require Import ZArith Lia.
From S2P Require Import Prelude Text Words BtPacket OutputState Audio AudioFacts AudioStream.

Local Open Scope Z_scope.

(**  Speaker resampling turns a window of any size into 480 stereo frames;
    no sample leaves the range of the window's samples (so nothing overflows and
    nothing is clipped), and a window of 480 frames is passed on unchanged. *)
Theorem speaker_resampling (pcm : list Z) (n : nat) (lo hi : Z) :
  (0 < n <= 512)%nat -> length pcm = (n * 2)%nat -> -32768 <= lo -> hi <= 32767 ->
  Forall (fun v => lo <= v <= hi) pcm ->
  length (resample_speaker_pcm pcm n) = 960%nat /\
  Forall (fun v => lo <= v <= hi) (resample_speaker_pcm pcm n) /\
  (n = 480%nat -> resample_speaker_pcm pcm n = pcm).
Proof.
  intros Hn Hl Hlo Hhi Hall. split_and!.
  - unfold resample_speaker_pcm. by rewrite pairs_length.
  - apply pairs_forall. intros i Hi. unfold kSpeakerOpusFrames in Hi.
    constructor; [|constructor; [|constructor]]; apply speaker_sample_between; (done || lia).
  - intros ->. unfold resample_speaker_pcm. apply (pairs_id pcm _ 480 0); [|done].
    assert (Forall is_s16 pcm) by (eapply Forall_impl; [|exact Hall]; unfold is_s16; simpl; lia).
    intros i Hi. rewrite !speaker_sample_480 by (done || lia). done.
Qed.

Lemma speaker_resampling_witness :
  length (resample_speaker_pcm [0; -4; 100; -8] 2) = 960%nat /\
  Forall (fun v => -8 <= v <= 100) (resample_speaker_pcm [0; -4; 100; -8] 2).
Proof.
  destruct (speaker_resampling [0; -4; 100; -8] 2 (-8) 100) as (H1 & H2 & _);
    [lia|reflexivity|lia|lia|repeat constructor; lia|].
  split; [exact H1|exact H2].
Defined.

(**  Haptics resampling gives 32 stereo frames; each is the average of its
    part of the window, scaled down to eight bits: it stays within the scaled
    range of the window's samples, and the parts cover the window exactly once. *)
Theorem haptics_resampling (pcm : list Z) (n : nat) (lo hi : Z) :
  (32 <= n <= 512)%nat -> length pcm = (n * 2)%nat -> -32768 <= lo -> hi <= 32767 ->
  Forall (fun v => lo <= v <= hi) pcm ->
  length (resample_haptics_pcm pcm n) = 64%nat /\
  Forall (fun v => Z.quot lo 256 <= v <= Z.quot hi 256) (resample_haptics_pcm pcm n) /\
  haptics_begin n 0 = 0%nat /\ haptics_begin n 32 = n /\
  (forall f, (f < 32)%nat -> (haptics_begin n f <= haptics_begin n (f + 1) <= n)%nat).
Proof.
  intros Hn Hl Hlo Hhi Hall. split_and!.
  - unfold resample_haptics_pcm. by rewrite pairs_length.
  - apply pairs_forall. intros i Hi. unfold haptics_frames in Hi.
    constructor; [|constructor; [|constructor]]; apply haptics_sample_between; (done || lia).
  - apply haptics_begin_0.
  - apply haptics_begin_end.
  - intros f Hf. split; [apply haptics_begin_mono|]. apply haptics_begin_inside.
    unfold haptics_frames. lia.
Qed.

Lemma haptics_resampling_witness :
  resample_haptics_pcm (replicate 64 (-600)) 32 = replicate 64 (-2) /\
  Forall (fun v => -2 <= v <= -2) (resample_haptics_pcm (replicate 64 (-600)) 32).
Proof.
  split; [by vm_compute|].
  destruct (haptics_resampling (replicate 64 (-600)) 32 (-600) (-600)) as (_ & H & _);
    [lia|reflexivity|lia|lia|by apply Forall_replicate|exact H].
Defined.

(** A codec for the examples: the encoder counts its calls and sends three bytes. *)
Definition demo_encode (e : Z) (pcm : list Z) : Z * (Z * list Z) :=
  (e + 1, (3, 1 :: 2 :: 3 :: replicate 197 9)).
Definition demo_extractor (pcm_window_frames : nat) : PcmAudioExtractor Z :=
  mk_extractor 0 (replicate 8 0) (replicate 1024 0) (replicate 1024 0) pcm_window_frames 0 0 false false.

Section Stream.
Context {Encoder : Type}.
Context (opus_encode : Encoder -> list Z -> Encoder * (Z * list Z)).
Context (opus_strerror : Z -> string).

(** C40.  The extractor depends on the byte stream only, not on how it is cut:
    pushing pieces one after the other, of any sizes, gives the chunks (or the
    first encoder error) of consuming the whole 8-byte frames of the stream in
    order, exactly as one push of all bytes does, and leaves an equivalent
    extractor behind; the loop always terminates. *)
Theorem audio_stream_independent (pieces : list (list Z)) (x : PcmAudioExtractor Encoder) :
  pending_ok x ->
  let all := pending_bytes x ++ concat pieces in
  let cut := push_pieces opus_encode opus_strerror pieces x in
  let whole := push_usb_audio opus_encode opus_strerror (concat pieces) x in
  cut.2 = (consume_frames opus_encode opus_strerror (length all / 8) all x).2 /\
  cut.2 = whole.2 /\ strip cut.1 = strip whole.1 /\
  (is_ok cut.2 = true ->
     pending_bytes cut.1 = drop (length all / 8 * 8) all /\
     pending_bytes cut.1 = pending_bytes whole.1 /\ pending_ok cut.1 /\ pending_ok whole.1).
Proof.
  intros Hx. cbv zeta.
  pose proof (push_pieces_spec opus_encode opus_strerror pieces x Hx) as Hc.
  pose proof (push_spec opus_encode opus_strerror (concat pieces) x Hx) as Hw.
  unfold pushed, whole_frames, kPcmFrameSize in Hc, Hw.
  destruct (consume_frames _ _ _ _ x) as [y r]. destruct Hc as (Hc1 & Hc2 & Hc3).
  destruct Hw as (Hw1 & Hw2 & Hw3). rewrite Hc2, Hw2, Hc1, Hw1.
  split_and!; [done..|]. intros Hok. destruct (Hc3 Hok) as [Hc4 Hc5], (Hw3 Hok) as [Hw4 Hw5].
  by rewrite Hc5, Hw5.
Qed.

(**  One full window gives one chunk: its haptics are the third and fourth
    channel resampled, its speaker data the encoding of the first two channels
    resampled, zero-filled to 200 bytes, and its signal flags say whether any
    sample was not zero; the next window starts empty.  An encoder error is thrown. *)
Theorem window_gives_chunk (x : PcmAudioExtractor Encoder) (frames : list (list Z)) :
  (forall e pcm, length (opus_encode e pcm).2.2 = 200%nat /\ bytes_ok (opus_encode e pcm).2.2
                 /\ (opus_encode e pcm).2.1 <= 200) ->
  pending_ok x -> pending_frame_pos_ x = 0%nat ->
  window_ok x -> pcm_window_frame_pos_ x = 0%nat ->
  chunk_has_signal_ x = false -> chunk_has_haptics_signal_ x = false ->
  length frames = pcm_window_frames_ x -> Forall (fun f => length f = 8%nat) frames ->
  let w := pcm_window_frames_ x in
  let '(e, (bytes, buffer)) :=
    opus_encode (speaker_encoder_ x) (resample_speaker_pcm (frames ≫= speaker_samples) w) in
  let '(x', r) := push_usb_audio opus_encode opus_strerror (concat frames) x in
  if bytes <? 0 then r = Throw ("opus_encode failed: " +:+ opus_strerror bytes)
  else exists speaker,
    r = Ok [mk_chunk (resample_haptics_pcm (frames ≫= haptics_samples) w) speaker
              (existsb frame_signal frames) (existsb frame_haptics_signal frames)] /\
    take (Z.to_nat bytes) speaker = take (Z.to_nat bytes) buffer /\
    drop (Z.to_nat bytes) speaker = replicate (200 - Z.to_nat bytes) 0 /\
    length speaker = 200%nat /\ bytes_ok speaker /\
    pcm_window_frame_pos_ x' = 0%nat /\ speaker_encoder_ x' = e /\
    chunk_has_signal_ x' = false /\ chunk_has_haptics_signal_ x' = false.
Proof.
  intros Hopus Hx Hpend Hw Hpos Hs0 Hh0 Hlen Hall. cbv zeta.
  pose proof (consume_window opus_encode opus_strerror x frames Hw Hpos Hs0 Hh0 Hlen Hall) as Hc.
  pose proof (push_spec opus_encode opus_strerror (concat frames) x Hx) as Hp.
  unfold pushed in Hp. assert (pending_bytes x = []) as Hpb by (unfold pending_bytes; by rewrite Hpend).
  rewrite Hpb, app_nil_l in Hp.
  assert (whole_frames (concat frames) = length frames) as Hwf.
  { unfold whole_frames, kPcmFrameSize. clear -Hall.
    assert (length (concat frames) = length frames * 8)%nat as ->; [|by apply Nat.div_mul].
    induction Hall as [|f fs Hf Hall IH]; [done|]. simpl. rewrite length_app. lia. }
  rewrite Hwf in Hp.
  specialize (Hopus (speaker_encoder_ x)
    (resample_speaker_pcm (frames ≫= speaker_samples) (pcm_window_frames_ x))).
  cbv zeta in Hc. revert Hc.
  destruct (opus_encode _ _) as [e [bytes buffer]]. intros Hc. cbn [fst snd] in Hopus.
  destruct Hopus as (Hbl & Hbo & Hb200).
  destruct (push_usb_audio _ _ _ x) as [x' r]. destruct (consume_frames _ _ _ _ x) as [y r'].
  cbn [fst snd] in Hp. destruct Hp as (Hst & -> & _).
  revert Hc. destruct (Z.ltb_spec bytes 0) as [|Hb]; [done|]. intros Hc.
  destruct Hc as (-> & He & Hp0 & Hsig & Hhsig).
  eexists. split; [done|].
  assert (pcm_window_frame_pos_ x' = pcm_window_frame_pos_ y /\ speaker_encoder_ x' = speaker_encoder_ y /\
    chunk_has_signal_ x' = chunk_has_signal_ y /\
    chunk_has_haptics_signal_ x' = chunk_has_haptics_signal_ y) as (-> & -> & -> & ->).
  { unfold strip, set_pending in Hst. by injection Hst. }
  change (Z.of_nat kSpeakerOpusSize) with 200. unfold kSpeakerOpusSize.
  destruct (Z.ltb_spec bytes 200) as [Hlt|Hge].
  - assert (length (take (Z.to_nat bytes) buffer) = Z.to_nat bytes) as Hl
      by (rewrite length_take; lia).
    split_and!; try done.
    + by apply take_app_length'.
    + by apply drop_app_length'.
    + rewrite length_app, length_replicate. lia.
    + auto with words.
  - assert (bytes = 200) as -> by lia. split_and!; try done. apply drop_ge. rewrite Hbl. lia.
Qed.
End Stream.

Lemma demo_pending_ok w : pending_ok (demo_extractor w).
Proof. split; [done|]. simpl. unfold kPcmFrameSize. lia. Qed.

Lemma audio_stream_independent_witness :
  pending_ok (demo_extractor 16) /\
  (push_pieces demo_encode (fun _ => "") [replicate 5 1; []; replicate 130 2] (demo_extractor 16)).2 =
  (push_usb_audio demo_encode (fun _ => "") (concat [replicate 5 1; []; replicate 130 2])
     (demo_extractor 16)).2.
Proof.
  pose proof (demo_pending_ok 16) as Hok. split; [exact Hok|].
  exact (proj1 (proj2 (audio_stream_independent demo_encode (fun _ => "")
    [replicate 5 1; []; replicate 130 2] (demo_extractor 16) Hok))).
Defined.

Lemma demo_encode_ok e pcm :
  length (demo_encode e pcm).2.2 = 200%nat /\ bytes_ok (demo_encode e pcm).2.2 /\
  (demo_encode e pcm).2.1 <= 200.
Proof.
  split; [done|]. split; [|done].
  do 3 (constructor; [done|]). apply Forall_replicate. done.
Qed.

Definition demo_frames : list (list Z) := replicate 16 [0; 0; 5; 0; 0; 2; 0; 0].

Lemma demo_window_ok : window_ok (demo_extractor 16).
Proof. split; [reflexivity|]. split; [reflexivity|]. simpl. lia. Qed.

Lemma demo_frames_ok : Forall (fun f : list Z => length f = 8%nat) demo_frames.
Proof. by apply Forall_replicate. Qed.

Lemma window_gives_chunk_witness :
  let '(x', r) := push_usb_audio demo_encode (fun _ => "") (concat demo_frames) (demo_extractor 16) in
  exists chunk, r = Ok [chunk] /\ length (speaker chunk) = 200%nat /\ speaker_encoder_ x' = 1.
Proof.
  pose proof (window_gives_chunk demo_encode (fun _ => "") (demo_extractor 16) demo_frames
    demo_encode_ok (demo_pending_ok 16) eq_refl demo_window_ok eq_refl eq_refl eq_refl eq_refl
    demo_frames_ok) as H.
  cbv zeta in H. revert H.
  generalize (push_usb_audio demo_encode (fun _ => "") (concat demo_frames) (demo_extractor 16)).
  generalize (resample_speaker_pcm (demo_frames ≫= speaker_samples) (pcm_window_frames_ (demo_extractor 16))).
  intros pcm [x' r] H. unfold demo_encode in H.
  destruct H as (sp & Hr & _ & _ & Hl & _ & _ & He & _).
  eexists. split; [exact Hr|]. split; [exact Hl|exact He].
Defined.

(**  A decoded microphone packet gives four bytes per frame: a silent left
    channel and the decoded sample, little-endian, on the right; it never exceeds
    the 1920 bytes of a full packet.  A decoder error is thrown with its text. *)
Theorem mic_frames_stereo {Dec : Type} (opus_decode : Dec -> list Z -> Dec * (Z * list Z))
    (opus_strerror : Z -> string) (d : Dec) (payload : list Z) :
  (forall d p, (opus_decode d p).2.1 <= 480 /\ Forall is_s16 (opus_decode d p).2.2 /\
               (Z.to_nat (opus_decode d p).2.1 <= length (opus_decode d p).2.2)%nat) ->
  let '(d', (frames, mono)) := opus_decode d payload in
  match decode opus_decode opus_strerror payload d with
  | (_, Throw e) => frames < 0 /\ e = "opus_decode failed: " +:+ opus_strerror frames
  | (d'', Ok pcm) =>
      0 <= frames /\ d'' = d' /\ length pcm = (Z.to_nat frames * 4)%nat /\
      (length pcm <= 1920)%nat /\ bytes_ok pcm /\
      forall i, (i < Z.to_nat frames)%nat ->
        read_le_s16 pcm (i * 4) = 0 /\ read_le_s16 pcm (i * 4 + 2) = byte_at mono i
  end.
Proof.
  intros Hopus. specialize (Hopus d payload). unfold decode.
  destruct (opus_decode d payload) as [d' [frames mono]]. cbn [fst snd] in Hopus.
  destruct Hopus as (H480 & Hs & Hl). destruct (Z.ltb_spec frames 0) as [|H0]; [done|].
  assert (length (seq 0 (Z.to_nat frames) ≫= mic_frame mono) = Z.to_nat frames * 4)%nat as Hlen
    by by apply mic_frames_length.
  split_and!; [done|done|done|lia|apply mic_frames_ok|].
  intros i Hi. apply mic_frames_at; [done|done|lia].
Qed.

Definition demo_decode (d : Z) (payload : list Z) : Z * (Z * list Z) := (d + 1, (2, [100; -3])).

Lemma mic_frames_stereo_witness :
  exists pcm, decode demo_decode (fun _ => "") [0] 0 = (1, Ok pcm) /\
    length pcm = 8%nat /\ read_le_s16 pcm 6 = -3.
Proof.
  assert (forall d p, (demo_decode d p).2.1 <= 480 /\ Forall is_s16 (demo_decode d p).2.2 /\
    (Z.to_nat (demo_decode d p).2.1 <= length (demo_decode d p).2.2)%nat) as Ho.
  { intros d p. simpl. split; [lia|]. split; [|lia].
    constructor; [by split|]. constructor; [by split|]. constructor. }
  pose proof (mic_frames_stereo demo_decode (fun _ => "") 0 [0] Ho) as H.
  unfold demo_decode at 1 in H.
  destruct (decode demo_decode (fun _ => "") [0] 0) as [d' [pcm|e]]; [|exfalso; lia].
  destruct H as (_ & Hd & Hl & _ & _ & Hs). exists pcm. split; [by rewrite Hd|].
  split; [exact Hl|]. exact (proj2 (Hs 1%nat ltac:(simpl; lia))).
Defined.
