(* ===== verification/Log.v ===== *)
(** Log records (src/src/vds_log.cc).  Writing the file, rotating it and the
    clock are not modelled: a record is the text [Logger::log] appends, and its
    time stamp is given. *)
From stdpp Require Import base list strings numbers.
From Stdlib Require Import Ascii ZArith Lia.
From S2P Require Import Prelude Text.

Inductive LogLevel := Debug | Info | Warn | Error.
Inductive LogScope :=
  | Bluetooth | ConfigScope | ControlScope | Daemon | Hid | InputAudio | InputControl
  | Output | Port | Usb.

Definition log_level_name (level : LogLevel) : string :=
  match level with
  | Debug => "DEBUG"
  | Info => "INFO"
  | Warn => "WARN"
  | Error => "ERROR"
  end.

Definition log_scope_name (scope : LogScope) : string :=
  match scope with
  | Bluetooth => "bluetooth"
  | ConfigScope => "config"
  | ControlScope => "control"
  | Daemon => "daemon"
  | Hid => "hid"
  | InputAudio => "input-audio"
  | InputControl => "input-control"
  | Output => "output"
  | Port => "port"
  | Usb => "usb"
  end.

Definition newline : ascii := "010"%char.
Definition carriage_return : ascii := "013"%char.
Definition bar : ascii := "|"%char.

Fixpoint write_log_message (message : string) : string :=
  match message with
  | EmptyString => ""
  | String ch rest =>
      String (if decide (ch = newline) then " "%char
              else if decide (ch = carriage_return) then " "%char
              else if decide (ch = bar) then " "%char
              else ch) (write_log_message rest)
  end.

Definition log_record (timestamp : string) (scope : LogScope) (level : LogLevel)
    (message : string) : string :=
  timestamp +:+ String bar (log_scope_name scope +:+ String bar (log_level_name level +:+
    String bar (write_log_message message +:+ String newline ""))).

(** What a reader of the log does with a line: cut it at the bars. *)
Definition read_record (line : string) : option (string * string * string * string) :=
  let '(timestamp, r1) := split_at bar line in
  rest1 ← r1; let '(scope, r2) := split_at bar rest1 in
  rest2 ← r2; let '(level, r3) := split_at bar rest2 in
  rest3 ← r3; let '(message, r4) := split_at newline rest3 in
  match r4 with Some EmptyString => Some (timestamp, scope, level, message) | _ => None end.

Lemma write_log_message_clean c m :
  c = newline \/ c = carriage_return \/ c = bar ->
  str_forall (fun d => bool_decide (d <> c)) (write_log_message m) = true.
Proof.
  intros Hc. induction m as [|d m IH]; [done|]. simpl. rewrite IH, andb_true_r.
  apply bool_decide_eq_true. repeat case_decide; destruct Hc as [->|[-> | ->]]; done.
Qed.

(**  No message can forge a record: whatever text is logged, the record is
    one line, and cutting it at the bars gives back the time, the scope, the level
    and the message with its line breaks and bars blanked. *)
Theorem log_record_fields (timestamp : string) (scope : LogScope) (level : LogLevel)
    (message : string) :
  str_forall (fun c => bool_decide (c <> bar)) timestamp = true ->
  read_record (log_record timestamp scope level message) =
  Some (timestamp, log_scope_name scope, log_level_name level, write_log_message message) /\
  String.length (write_log_message message) = String.length message /\
  str_forall (fun c => bool_decide (c <> newline) && bool_decide (c <> bar))
    (write_log_message message) = true.
Proof.
  intros Ht. split_and!.
  - unfold read_record, log_record. rewrite split_at_app by done. simpl.
    rewrite split_at_app by by destruct scope. simpl.
    rewrite split_at_app by by destruct level. simpl.
    rewrite split_at_app by (apply write_log_message_clean; auto). done.
  - induction message as [|c m IH]; simpl; congruence.
  - pose proof (write_log_message_clean newline message ltac:(auto)) as H1.
    pose proof (write_log_message_clean bar message ltac:(auto)) as H2. revert H1 H2.
    generalize (write_log_message message). intros s. induction s as [|c s IH]; [done|].
    simpl. rewrite !andb_true_iff. naive_solver.
Qed.

Lemma log_record_fields_witness :
  read_record (log_record "2026-01-01T00:00:00.000+09:00" ControlScope Warn
                 (String newline "x|y")) =
  Some ("2026-01-01T00:00:00.000+09:00", "control", "WARN", " x y").
Proof. apply log_record_fields. reflexivity. Defined.
