(* ===== verification/Store.v ===== *)
(** The interface of the platform file layer (src/src/vds_fs.hh): what the
    configuration code relies on, stated once for every platform.

    [fs_content w p] is the text a reader of [p] would find in the world [w].
    [unlock_file] is the destructor of the [FileLock] that [lock_file] returns. *)
From stdpp Require Import base list strings.
From S2P Require Import Prelude Text.

Class FileStore (W : Type) := {
  fs_content : W -> string -> option string;
  ensure_parent_directory : string -> prog W unit;
  lock_file : string -> prog W unit;
  unlock_file : string -> W -> W;
  read_file_if_exists : string -> prog W string;
  write_file_atomic : string -> string -> prog W unit
}.

(** The temporary file of an atomic write, and the file of a lock, which a platform may
    create. *)
Definition tmp_path (path : string) : string := path +:+ ".tmp".
Definition lock_path (path : string) : string := path +:+ ".lock".

Lemma suffix_ne path suffix : suffix <> "" -> path +:+ suffix <> path.
Proof.
  intros Hs H. apply (f_equal String.length) in H. rewrite str_length_app in H.
  destruct suffix; [done|]. cbn in H. lia.
Qed.
Lemma tmp_path_ne path : tmp_path path <> path.
Proof. by apply suffix_ne. Qed.
Lemma lock_path_ne path : path <> lock_path path.
Proof. apply not_eq_sym. by apply suffix_ne. Qed.

Class FileStoreLaws (W : Type) `{FileStore W} := {
  ensure_content p w q : fs_content (ensure_parent_directory p w).1 q = fs_content w q;
  lock_content p w q : q <> lock_path p -> fs_content (lock_file p w).1 q = fs_content w q;
  unlock_content p w q : fs_content (unlock_file p w) q = fs_content w q;
  read_content p w q : fs_content (read_file_if_exists p w).1 q = fs_content w q;
  read_result p w w' t :
    read_file_if_exists p w = (w', Ok t) -> t = default "" (fs_content w p);
  write_ok p t w w' :
    write_file_atomic p t w = (w', Ok tt) -> fs_content w' p = Some t;
  write_throw p t w w' e :
    write_file_atomic p t w = (w', Throw e) ->
    fs_content w' p = fs_content w p \/ fs_content w' p = Some t;
  write_other p t w q :
    q <> p -> q <> tmp_path p ->
    fs_content (write_file_atomic p t w).1 q = fs_content w q
}.

(** A scope that holds the file lock: the lock is released however the scope
    is left. *)
Definition release_after {W A} `{FileStore W} (p : string) (body : prog W A) : prog W A :=
  fun w => let '(w', r) := body w in (unlock_file p w', r).

Definition with_file_lock {W A} `{FileStore W} (p : string) (body : prog W A) : prog W A :=
  _ ← lock_file p; release_after p body.

(** A world with more state beside the files: the file operations leave it alone. *)
Definition on_first {W L A} (m : prog W A) : prog (W * L) A :=
  fun s => let '(w', r) := m s.1 in ((w', s.2), r).

#[export] Instance store_pair {W L} `{FileStore W} : FileStore (W * L) := {|
  fs_content s p := fs_content s.1 p;
  ensure_parent_directory p := on_first (ensure_parent_directory p);
  lock_file p := on_first (lock_file p);
  unlock_file p s := (unlock_file p s.1, s.2);
  read_file_if_exists p := on_first (read_file_if_exists p);
  write_file_atomic p t := on_first (write_file_atomic p t)
|}.

Section Laws.
Context {W : Type} `{FileStoreLaws W}.

Lemma with_file_lock_inv {A} p (body : prog W A) w w' r :
  with_file_lock p body w = (w', r) ->
  (exists e, r = Throw e /\ forall q, q <> lock_path p -> fs_content w' q = fs_content w q) \/
  (exists w1 w2, (forall q, q <> lock_path p -> fs_content w1 q = fs_content w q) /\
     body w1 = (w2, r) /\ forall q, fs_content w' q = fs_content w2 q).
Proof.
  unfold with_file_lock, release_after, mbind, prog_bind. pose proof (lock_content p w) as Hl.
  destruct (lock_file p w) as [w1 [[]|e]]; simpl in Hl.
  - destruct (body w1) as [w2 r2] eqn:Hb. intros [= <- <-]. right.
    exists w1, w2. split; [done|]. split; [done|]. intros q. apply unlock_content.
  - intros [= <- <-]. left. eauto.
Qed.
End Laws.
