(* ===== verification/LinuxFs.v ===== *)
(** The Linux file layer (src/src/platform/linux/vds_fs.cc), as an instance of
    the interface of Store.v.

    The state holds the visible files and the lock.  What the kernel answers
    to each system call is taken from [outcomes], one entry per call; when the
    list is used up every call succeeds.  [fsync] has no effect on what a
    reader sees, so only its failure is modelled. *)
From stdpp Require Import base list strings numbers gmap.
From Stdlib Require Import Ascii ZArith Lia.
From S2P Require Import Prelude Text Store.

Inductive outcome :=
  | Done                      (* the call does all it was asked for *)
  | Short (n : nat)           (* write(2) took [n] bytes *)
  | Interrupted               (* EINTR *)
  | Failed (strerror : string).

Record LinuxFs := mk_fs {
  files : gmap string string;
  locked : bool;
  outcomes : list outcome
}.

(** A call that succeeds or fails; the error text when it fails. *)
Definition syscall : prog LinuxFs (option string) := fun s =>
  match outcomes s with
  | [] => (s, Ok None)
  | o :: rest =>
      (mk_fs (files s) (locked s) rest,
       Ok match o with
          | Done | Short _ => None
          | Interrupted => Some "Interrupted system call"
          | Failed m => Some m
          end)
  end.

Definition set_files (f : gmap string string -> gmap string string) : prog LinuxFs unit :=
  modify (fun s => mk_fs (f (files s)) (locked s) (outcomes s)).
Definition set_locked (b : bool) : prog LinuxFs unit :=
  modify (fun s => mk_fs (files s) b (outcomes s)).

(** [std::filesystem::path::parent_path]: the text up to the last slash; the
    root directory keeps its slash. *)
Fixpoint drop_to_slash (rev : list ascii) : list ascii :=
  match rev with
  | [] => []
  | c :: rest => if decide (c = "/"%char) then rev else drop_to_slash rest
  end.
Fixpoint drop_slashes (rev : list ascii) : list ascii :=
  match rev with
  | [] => []
  | [c] => [c]
  | c :: rest => if decide (c = "/"%char) then drop_slashes rest else rev
  end.
Definition parent_path (path : string) : string :=
  String.string_of_list_ascii
    (reverse (drop_slashes (drop_to_slash (reverse (String.list_ascii_of_string path))))).

Definition db_directory (db_path : string) : string :=
  if decide (parent_path db_path = "") then "." else parent_path db_path.

(** Throw the message with the error text when the call failed. *)
Definition checked (message : string) : prog LinuxFs unit :=
  r ← syscall;
  match r with
  | Some m => throw (message +:+ ": " +:+ m)
  | None => mret tt
  end.

Definition chmod_db_file_if_exists (db_path : string) : prog LinuxFs unit :=
  s ← get_state;
  match files s !! db_path with
  | None => mret tt
  | Some _ => checked ("failed to chmod " +:+ db_path)
  end.

Definition linux_ensure_parent_directory (path : string) : prog LinuxFs unit :=
  if decide (parent_path path = "") then mret tt
  else checked ("filesystem error: cannot create directories [" +:+ parent_path path +:+ "]").

(** The descriptor is closed, and with it the lock dropped, when [chmod] throws. *)
Definition linux_lock_file (path : string) : prog LinuxFs unit :=
  let directory := db_directory path in
  _ ← checked ("failed to open DB directory " +:+ directory);
  _ ← checked ("failed to lock DB directory " +:+ directory);
  _ ← set_locked true;
  try_catch (chmod_db_file_if_exists path)
    (fun e => _ ← set_locked false; throw e).

Definition linux_unlock_file (path : string) (s : LinuxFs) : LinuxFs :=
  mk_fs (files s) false (outcomes s).

Definition linux_read_file_if_exists (path : string) : prog LinuxFs string :=
  _ ← checked ("failed to stat " +:+ path);
  s ← get_state;
  match files s !! path with
  | None => mret ""
  | Some text =>
      r ← syscall;
      match r with
      | Some _ => throw ("failed to open " +:+ path)
      | None => mret text
      end
  end.

Fixpoint str_take (n : nat) (s : string) : string :=
  match n, s with
  | S n', String c s' => String c (str_take n' s')
  | _, _ => ""
  end.
Fixpoint str_drop (n : nat) (s : string) : string :=
  match n, s with
  | S n', String _ s' => str_drop n' s'
  | _, _ => s
  end.

(** The loop of [write_file_atomic]: [data] is still to be written, [written]
    is what the temporary file holds. *)
Fixpoint write_loop (tmp : string) (outs : list outcome) (data written : string) :
    list outcome * string * result unit :=
  if decide (data = "") then (outs, written, Ok tt)
  else
    match outs with
    | [] => ([], written +:+ data, Ok tt)
    | Done :: rest => (rest, written +:+ data, Ok tt)
    | Interrupted :: rest => write_loop tmp rest data written
    | Failed m :: rest => (rest, written, Throw ("failed to write " +:+ tmp +:+ ": " +:+ m))
    | Short n :: rest =>
        if decide (n = 0) then (rest, written, Throw ("write returned zero for " +:+ tmp))
        else write_loop tmp rest (str_drop n data) (written +:+ str_take n data)
    end.

Definition write_tmp (tmp text : string) : prog LinuxFs unit := fun s =>
  let '(outs, content, r) := write_loop tmp (outcomes s) text "" in
  (mk_fs (<[tmp := content]> (files s)) (locked s) outs, r).

(** [rename(2)]: the new name takes the file in one step. *)
Definition rename_files (from to : string) (m : gmap string string) : gmap string string :=
  match m !! from with
  | Some t => <[to := t]> (delete from m)
  | None => m
  end.

Definition linux_write_file_atomic (path text : string) : prog LinuxFs unit :=
  let tmp := tmp_path path in
  _ ← checked ("failed to open " +:+ tmp);
  _ ← set_files (fun m => <[tmp := ""]> m);
  _ ← checked ("failed to chmod " +:+ tmp);
  _ ← write_tmp tmp text;
  _ ← checked ("failed to fsync " +:+ tmp);
  _ ← checked ("failed to rename " +:+ tmp +:+ " to " +:+ path);
  _ ← set_files (rename_files tmp path);
  _ ← checked "failed to open DB directory for fsync";
  checked "failed to fsync DB directory".

#[export] Instance linux_store : FileStore LinuxFs := {|
  fs_content s p := files s !! p;
  ensure_parent_directory := linux_ensure_parent_directory;
  lock_file := linux_lock_file;
  unlock_file := linux_unlock_file;
  read_file_if_exists := linux_read_file_if_exists;
  write_file_atomic := linux_write_file_atomic
|}.

(** ** The interface holds *)

Lemma str_take_drop n s : str_take n s +:+ str_drop n s = s.
Proof.
  revert s. induction n as [|n IH]; intros [|c s]; try done. simpl.
  by rewrite str_app_cons, IH.
Qed.

Lemma write_loop_content tmp outs data written :
  match write_loop tmp outs data written with
  | (_, content, Ok _) => content = written +:+ data
  | (_, _, Throw _) => True
  end.
Proof.
  revert data written. induction outs as [|o outs IH]; intros data written.
  - simpl. case_decide as Hd; [by rewrite Hd, str_app_nil_r|done].
  - simpl. case_decide as Hd; [by rewrite Hd, str_app_nil_r|]. destruct o as [|n| |m]; try done.
    + case_decide; [done|]. specialize (IH (str_drop n data) (written +:+ str_take n data)).
      destruct (write_loop _ _ _ _) as [[? ?] [[]|]]; [|done].
      by rewrite IH, str_app_assoc, str_take_drop.
    + apply IH.
Qed.

(** A checked call changes no file and does not touch the lock. *)
Lemma checked_files msg s : files (checked msg s).1 = files s.
Proof.
  unfold checked, syscall, mbind, prog_bind. by destruct (outcomes s) as [|[] ?].
Qed.

(** Run one checked call of a goal or hypothesis: either it throws, or the
    rest goes on from a state with the same files. *)
Ltac step_checked :=
  match goal with
  | |- context [checked ?m ?s] =>
      let Hf := fresh "Hf" in
      pose proof (checked_files m s) as Hf;
      destruct (checked m s) as [? [[]|?]]; simpl in Hf
  end.

Lemma linux_ensure_files p s : files (linux_ensure_parent_directory p s).1 = files s.
Proof. unfold linux_ensure_parent_directory. case_decide; [done|]. apply checked_files. Qed.

Lemma linux_lock_files p s : files (linux_lock_file p s).1 = files s.
Proof.
  unfold linux_lock_file, mbind, prog_bind, set_locked, modify. step_checked; [|done].
  step_checked; [|simpl; congruence].
  unfold try_catch, chmod_db_file_if_exists, get_state, mbind, prog_bind, mret, prog_ret.
  cbn [files]. destruct (files l0 !! p); [|simpl; congruence].
  step_checked; simpl in *; congruence.
Qed.

Lemma linux_read_spec p s :
  files (linux_read_file_if_exists p s).1 = files s /\
  forall t, (linux_read_file_if_exists p s).2 = Ok t -> t = default "" (files s !! p).
Proof.
  unfold linux_read_file_if_exists, get_state, mbind, prog_bind, mret, prog_ret.
  step_checked; [|done]. rewrite Hf. destruct (files s !! p) as [t|]; [|naive_solver].
  unfold syscall. destruct (outcomes _) as [|[] ?]; simpl; naive_solver.
Qed.

Lemma linux_write_spec p t s s' r :
  linux_write_file_atomic p t s = (s', r) ->
  (forall q, q <> p -> q <> tmp_path p -> files s' !! q = files s !! q) /\
  match r with
  | Ok _ => files s' !! p = Some t
  | Throw _ => files s' !! p = files s !! p \/ files s' !! p = Some t
  end.
Proof.
  unfold linux_write_file_atomic, mbind, prog_bind, set_files, modify, write_tmp.
  pose proof (tmp_path_ne p) as Hne.
  assert (forall (m : gmap string string) c q, q <> tmp_path p ->
    <[tmp_path p := c]> m !! q = m !! q) as Hins by (intros; by rewrite lookup_insert_ne).
  step_checked; [|intros [= <- <-]; rewrite Hf; auto].
  step_checked; [|intros [= <- <-]; rewrite Hf0; simpl; rewrite Hf; split;
    [intros; by rewrite Hins|left; by rewrite Hins]]. simpl in Hf0.
  pose proof (write_loop_content (tmp_path p) (outcomes l0) t "") as Hw.
  destruct (write_loop _ _ _ _) as [[outs content] [[]|e]].
  2: { intros [= <- <-]. simpl. rewrite Hf0, Hf. split;
       [intros; by rewrite !Hins|left; by rewrite !Hins]. }
  rewrite str_app_nil_l in Hw. subst content.
  step_checked; simpl in Hf1; rewrite Hf0, Hf in Hf1;
    [|intros [= <- <-]; rewrite Hf1; split; [intros; by rewrite !Hins|left; by rewrite !Hins]].
  step_checked; rewrite Hf1 in Hf2;
    [|intros [= <- <-]; rewrite Hf2; split; [intros; by rewrite !Hins|left; by rewrite !Hins]].
  rewrite Hf2. unfold rename_files. rewrite lookup_insert_eq.
  assert (forall m : gmap string string, m = <[p := t]> (delete (tmp_path p)
      (<[tmp_path p := t]> (<[tmp_path p := ""]> (files s)))) ->
    (forall q, q <> p -> q <> tmp_path p -> m !! q = files s !! q) /\ m !! p = Some t) as Hren.
  { intros m ->. split; [|by rewrite lookup_insert_eq]. intros q Hq1 Hq2.
    by rewrite lookup_insert_ne, lookup_delete_ne, !Hins. }
  step_checked; simpl in Hf3; apply Hren in Hf3 as [Ho Hp]; [|intros [= <- <-]; auto].
  step_checked; intros [= <- <-]; rewrite Hf3; auto.
Qed.

#[export] Instance linux_store_laws : FileStoreLaws LinuxFs.
Proof.
  split; simpl.
  - intros w0 p q. by rewrite linux_ensure_files.
  - intros w0 p q _. by rewrite linux_lock_files.
  - done.
  - intros w0 p q. by rewrite (proj1 (linux_read_spec _ _)).
  - intros p w0 w' t Hr. pose proof (linux_read_spec p w0) as [_ Hs]. rewrite Hr in Hs. auto.
  - intros p t w0 w' Hw. by apply linux_write_spec in Hw as [_ Hw].
  - intros p t w0 w' e Hw. by apply linux_write_spec in Hw as [_ Hw].
  - intros p t w0 q Hq1 Hq2. destruct (linux_write_file_atomic p t w0) as [w' r] eqn:Hw.
    apply linux_write_spec in Hw as [Hw _]. by apply Hw.
Qed.
