(* ===== verification/WindowsFs.v ===== *)
(** The Windows file layer (src/src/platform/win32/vds_fs.cc), another instance of the
    interface of Store.v.

    As in LinuxFs.v the state holds the visible files and the lock, and what the system
    answers to each call is a list with one entry per call; when it is used up every call
    succeeds.  A failure comes with the text [win32_error_message] makes of it. *)
From stdpp Require Import base list strings numbers gmap.
From Stdlib Require Import Ascii ZArith Lia.
From S2P Require Import Prelude Text Store LinuxFs.

Inductive win_outcome :=
  | Succeeded
  | Partly (n : nat)         (* WriteFile took [n] bytes *)
  | Refused (text : string).

Record WindowsFs := mk_win {
  win_files : gmap string string;
  win_locked : bool;
  win_outcomes : list win_outcome
}.

(** [std::filesystem::path::parent_path] for the syntax of Windows paths. *)
Class WindowsPaths := { windows_parent_path : string -> string }.

Definition win_call : prog WindowsFs (option string) := fun s =>
  match win_outcomes s with
  | [] => (s, Ok None)
  | o :: rest =>
      (mk_win (win_files s) (win_locked s) rest, Ok match o with Refused m => Some m | _ => None end)
  end.
Definition set_win_files (f : gmap string string -> gmap string string) : prog WindowsFs unit :=
  modify (fun s => mk_win (f (win_files s)) (win_locked s) (win_outcomes s)).
Definition set_win_locked (b : bool) : prog WindowsFs unit :=
  modify (fun s => mk_win (win_files s) b (win_outcomes s)).

Definition win_checked (message : string) : prog WindowsFs unit :=
  r ← win_call;
  match r with Some m => throw (message +:+ ": " +:+ m) | None => mret tt end.

(** ** Writing *)

Definition kMaxDword : Z := 0xffffffff.
(** One [WriteFile] takes at most this much. *)
Definition write_chunk (data : string) : nat := Z.to_nat (Z.min (Z.of_nat (String.length data)) kMaxDword).

(** [write_all]: [data] is still to be written, [written] is what the file holds. *)
Fixpoint write_all (path : string) (outs : list win_outcome) (data written : string) :
    list win_outcome * string * result unit :=
  if decide (data = "") then (outs, written, Ok tt)
  else
    let chunk := write_chunk data in
    match outs with
    | [] => ([], written +:+ data, Ok tt)
    | Succeeded :: rest => write_all path rest (str_drop chunk data) (written +:+ str_take chunk data)
    | Refused m :: rest => (rest, written, Throw ("failed to write " +:+ path +:+ ": " +:+ m))
    | Partly n :: rest =>
        let n := Nat.min n chunk in
        if decide (n = 0) then (rest, written, Throw ("write returned zero for " +:+ path))
        else write_all path rest (str_drop n data) (written +:+ str_take n data)
    end.
Definition write_tmp_file (tmp text : string) : prog WindowsFs unit := fun s =>
  let '(outs, content, r) := write_all tmp (win_outcomes s) text "" in
  (mk_win (<[tmp := content]> (win_files s)) (win_locked s) outs, r).

(** [DeleteFileW], whose result is not looked at. *)
Definition delete_file (path : string) : prog WindowsFs unit :=
  r ← win_call;
  match r with Some _ => mret tt | None => set_win_files (delete path) end.

(** [write_file_atomic], up to the rename. *)
Definition fill_tmp (path text : string) : prog WindowsFs unit :=
  let tmp := tmp_path path in
  _ ← win_checked ("failed to open " +:+ tmp);
  _ ← set_win_files (fun m => <[tmp := ""]> m);
  try_catch (_ ← write_tmp_file tmp text; win_checked ("failed to flush " +:+ tmp))
    (fun e => _ ← delete_file tmp; throw e).
Definition windows_write_file_atomic (path text : string) : prog WindowsFs unit :=
  let tmp := tmp_path path in
  _ ← fill_tmp path text;
  r ← win_call;
  match r with
  | None => set_win_files (rename_files tmp path)
  | Some m =>
      _ ← delete_file tmp;
      throw ("failed to rename " +:+ tmp +:+ " to " +:+ path +:+ ": " +:+ m)
  end.

(** ** The other operations *)

(** The file of the lock is made when there is none, and stays. *)
Definition windows_lock_file (path : string) : prog WindowsFs unit :=
  let lock := lock_path path in
  _ ← win_checked ("failed to open DB lock file " +:+ lock);
  _ ← set_win_files (fun m => match m !! lock with Some _ => m | None => <[lock := ""]> m end);
  _ ← win_checked ("failed to lock DB file " +:+ lock);
  set_win_locked true.
Definition windows_unlock_file (path : string) (s : WindowsFs) : WindowsFs :=
  mk_win (win_files s) false (win_outcomes s).

Definition windows_read_file_if_exists (path : string) : prog WindowsFs string :=
  _ ← win_checked ("failed to stat " +:+ path);
  s ← get_state;
  match win_files s !! path with
  | None => mret ""
  | Some text =>
      r ← win_call;
      match r with Some _ => throw ("failed to open " +:+ path) | None => mret text end
  end.

Definition windows_ensure_parent_directory `{WindowsPaths} (path : string) : prog WindowsFs unit :=
  if decide (windows_parent_path path = "") then mret tt
  else win_checked ("filesystem error: cannot create directories [" +:+ windows_parent_path path +:+ "]").

#[export] Instance windows_store `{WindowsPaths} : FileStore WindowsFs := {|
  fs_content s p := win_files s !! p;
  ensure_parent_directory := windows_ensure_parent_directory;
  lock_file := windows_lock_file;
  unlock_file := windows_unlock_file;
  read_file_if_exists := windows_read_file_if_exists;
  write_file_atomic := windows_write_file_atomic
|}.

(** ** The interface holds *)

Lemma write_all_content tmp outs data written :
  match write_all tmp outs data written with
  | (_, content, Ok _) => content = written +:+ data
  | (_, _, Throw _) => True
  end.
Proof.
  revert data written. induction outs as [|o outs IH]; intros data written; cbn [write_all];
    case_decide as Hd; try (by rewrite Hd, str_app_nil_r); [done|].
  assert (forall n, match write_all tmp outs (str_drop n data) (written +:+ str_take n data) with
                    | (_, content, Ok _) => content = written +:+ data
                    | (_, _, Throw _) => True
                    end) as Hn.
  { intros n. specialize (IH (str_drop n data) (written +:+ str_take n data)).
    destruct (write_all _ _ _ _) as [[? ?] [[]|]]; [|done]. by rewrite IH, str_app_assoc, str_take_drop. }
  destruct o as [|n|m]; [apply Hn| |done]. cbv zeta. case_decide; [done|apply Hn].
Qed.

(** What a step may change: only these files. *)
Definition only (P : string -> Prop) (s s' : WindowsFs) : Prop :=
  forall q, ~ P q -> win_files s' !! q = win_files s !! q.
#[local] Instance only_preorder P : PreOrder (only P).
Proof. split; [done|]. intros s1 s2 s3 H1 H2 q Hq. by rewrite H2, H1. Qed.

Lemma win_call_only P : preserves (only P) win_call.
Proof. intros s q _. unfold win_call. by destruct (win_outcomes s). Qed.
Lemma get_state_only P : preserves (only P) get_state.
Proof. by intros s q _. Qed.
Lemma set_locked_only P b : preserves (only P) (set_win_locked b).
Proof. by intros s q _. Qed.
Lemma set_files_only P f :
  (forall m q, ~ P q -> f m !! q = m !! q) -> preserves (only P) (set_win_files f).
Proof. intros Hf s q Hq. by apply Hf. Qed.
Lemma write_tmp_only P tmp text : P tmp -> preserves (only P) (write_tmp_file tmp text).
Proof.
  intros Ht s q Hq. unfold write_tmp_file. destruct (write_all _ _ _ _) as [[? ?] ?]. cbn.
  apply lookup_insert_ne. by intros ->.
Qed.
#[local] Hint Resolve win_call_only get_state_only set_locked_only write_tmp_only : preserves.

Lemma win_checked_only P m : preserves (only P) (win_checked m).
Proof. unfold win_checked. solve_preserves. Qed.
#[local] Hint Resolve win_checked_only : preserves.

Lemma delete_only (P : string -> Prop) p : P p -> preserves (only P) (delete_file p).
Proof.
  intros Hp. unfold delete_file. solve_preserves. apply set_files_only. intros m q Hq.
  apply lookup_delete_ne. by intros ->.
Qed.
#[local] Hint Resolve delete_only : preserves.

Lemma windows_lock_only path : preserves (only (eq (lock_path path))) (windows_lock_file path).
Proof.
  unfold windows_lock_file. cbv zeta. solve_preserves. apply set_files_only. intros m q Hq.
  destruct (m !! lock_path path); [done|]. by apply lookup_insert_ne.
Qed.

Lemma windows_read_only path : preserves (only (fun _ => False)) (windows_read_file_if_exists path).
Proof. unfold windows_read_file_if_exists. solve_preserves. Qed.

Lemma fill_tmp_only path text : preserves (only (eq (tmp_path path))) (fill_tmp path text).
Proof.
  unfold fill_tmp. cbv zeta. solve_preserves. apply set_files_only. intros m q Hq. by apply lookup_insert_ne.
Qed.

Lemma win_call_files s : win_files (win_call s).1 = win_files s.
Proof. unfold win_call. by destruct (win_outcomes s). Qed.

Lemma win_checked_files m s : win_files (win_checked m s).1 = win_files s.
Proof.
  unfold win_checked, mbind, prog_bind. pose proof (win_call_files s) as Hf.
  destruct (win_call s) as [s1 [[e|]|e]]; exact Hf.
Qed.

Lemma fill_tmp_text path text s s' :
  fill_tmp path text s = (s', Ok tt) -> win_files s' !! tmp_path path = Some text.
Proof.
  unfold fill_tmp. cbv zeta. unfold mbind at 1, prog_bind at 1.
  destruct (win_checked _ s) as [s1 [[]|e]]; [|discriminate].
  unfold mbind at 1, prog_bind at 1, set_win_files, modify. unfold try_catch, mbind, prog_bind, write_tmp_file.
  cbn [win_outcomes win_files win_locked].
  pose proof (write_all_content (tmp_path path) (win_outcomes s1) text "") as Hw.
  destruct (write_all _ _ _ _) as [[outs content] [[]|e]].
  - rewrite str_app_nil_l in Hw. subst content.
    match goal with |- context [win_checked ?m ?s2] =>
      pose proof (win_checked_files m s2) as Hf; destruct (win_checked m s2) as [s3 [[]|e]] end.
    + intros [= <-]. cbn [fst] in Hf. rewrite Hf. apply lookup_insert_eq.
    + destruct (delete_file (tmp_path path) s3) as [s4 [[]|e']]; discriminate.
  - match goal with |- context [delete_file ?p ?s2] => destruct (delete_file p s2) as [s4 [[]|e']] end; discriminate.
Qed.

Lemma rename_only path : preserves (only (fun q => q = path \/ q = tmp_path path)) (set_win_files (rename_files (tmp_path path) path)).
Proof.
  apply set_files_only. intros m q Hq. unfold rename_files. destruct (m !! tmp_path path); [|done].
  rewrite lookup_insert_ne, lookup_delete_ne; [done|intros <-; apply Hq; by right|intros <-; apply Hq; by left].
Qed.

Lemma only_weaken {A} (P Q : string -> Prop) (m : prog WindowsFs A) :
  (forall q, P q -> Q q) -> preserves (only P) m -> preserves (only Q) m.
Proof. intros Hpq Hm s q Hq. apply Hm. auto. Qed.

Lemma windows_write_only path text :
  preserves (only (fun q => q = path \/ q = tmp_path path)) (windows_write_file_atomic path text).
Proof.
  unfold windows_write_file_atomic. cbv zeta. solve_preserves.
  - eapply only_weaken; [|apply fill_tmp_only]. intros q <-. by right.
  - apply rename_only.
Qed.

(** A write that fails leaves the file as it was, and one that succeeds leaves the text. *)
Lemma windows_write_spec path text s s' r :
  windows_write_file_atomic path text s = (s', r) ->
  win_files s' !! path = match r with Ok _ => Some text | Throw _ => win_files s !! path end.
Proof.
  unfold windows_write_file_atomic. cbv zeta. unfold mbind at 1, prog_bind at 1.
  pose proof (fill_tmp_only path text s) as Ho. pose proof (fill_tmp_text path text s) as Ht.
  destruct (fill_tmp path text s) as [s1 [[]|e]]; cbn [fst] in Ho.
  2: { intros [= <- <-]. apply Ho, tmp_path_ne. }
  specialize (Ht s1 eq_refl). unfold mbind at 1, prog_bind at 1.
  pose proof (win_call_files s1) as Hf. destruct (win_call s1) as [s2 [[m|]|e]]; cbn [fst] in Hf.
  - unfold mbind, prog_bind. pose proof (delete_only (eq (tmp_path path)) (tmp_path path) eq_refl s2) as Hd.
    destruct (delete_file (tmp_path path) s2) as [s3 [[]|e]]; cbn [fst] in Hd; intros [= <- <-];
      rewrite (Hd path), Hf by apply tmp_path_ne; apply Ho, tmp_path_ne.
  - intros [= <- <-]. cbn. unfold rename_files. rewrite Hf, Ht. apply lookup_insert_eq.
  - intros [= <- <-]. rewrite Hf. apply Ho, tmp_path_ne.
Qed.

Lemma windows_read_spec path s s' t :
  windows_read_file_if_exists path s = (s', Ok t) -> t = default "" (win_files s !! path).
Proof.
  unfold windows_read_file_if_exists, mbind, prog_bind, get_state, mret, prog_ret.
  pose proof (win_checked_files ("failed to stat " +:+ path) s) as Hf.
  destruct (win_checked _ s) as [s1 [[]|e]]; cbn [fst] in Hf; [|discriminate]. rewrite Hf.
  destruct (win_files s !! path) as [text|]; [|by intros [= _ <-]].
  destruct (win_call s1) as [s2 [[m|]|e]]; [discriminate|by intros [= _ <-]|discriminate].
Qed.

#[export] Instance windows_store_laws `{WindowsPaths} : FileStoreLaws WindowsFs.
Proof.
  split; cbn.
  - intros p w q. unfold windows_ensure_parent_directory. case_decide; [done|]. by rewrite win_checked_files.
  - intros p w q Hq. by apply windows_lock_only.
  - done.
  - intros p w q. apply (windows_read_only p w q). by intros [].
  - intros p w w' t. apply windows_read_spec.
  - intros p t w w' Hw. by apply windows_write_spec in Hw.
  - intros p t w w' e Hw. left. by apply windows_write_spec in Hw.
  - intros p t w q Hq1 Hq2. apply windows_write_only. by intros [?|?].
Qed.

(** ** The property *)

(** C5. On Windows a write of the database is atomic, and its report is exact: it touches
    no file but its own and the temporary one, and whatever calls fail or write only in
    part, the file holds the new text when the write reports success and the old text when
    it reports a failure. *)
Theorem windows_write_atomic (path text : string) (s s' : WindowsFs) (r : result unit) :
  windows_write_file_atomic path text s = (s', r) ->
  (forall q, q <> path -> q <> tmp_path path -> win_files s' !! q = win_files s !! q)
  /\ (r = Ok tt -> win_files s' !! path = Some text)
  /\ (forall e, r = Throw e -> win_files s' !! path = win_files s !! path).
Proof.
  intros Hw. pose proof (windows_write_spec _ _ _ _ _ Hw) as Hp.
  pose proof (windows_write_only path text s) as Ho. rewrite Hw in Ho. cbn [fst] in Ho.
  split; [intros q Hq1 Hq2; apply Ho; by intros [?|?]|]. split; [by intros ->|by intros e ->].
Qed.

(** A write in two parts, then one whose rename is refused. *)
Definition slow_disk (last : win_outcome) : WindowsFs :=
  mk_win {["C:\db" := "old"]} false [Succeeded; Partly 3; Succeeded; Succeeded; last].
Lemma windows_write_atomic_witness :
  win_files (windows_write_file_atomic "C:\db" "new text" (slow_disk Succeeded)).1 !! "C:\db" = Some "new text"
  /\ win_files (windows_write_file_atomic "C:\db" "new text" (slow_disk (Refused "Access is denied."))).1 !! "C:\db"
     = Some "old".
Proof.
  split.
  - destruct (windows_write_file_atomic "C:\db" "new text" (slow_disk Succeeded)) as [s' r] eqn:E.
    apply (windows_write_atomic _ _ _ _ _ E).
    transitivity (s', r).2; [reflexivity|]. rewrite <- E. vm_compute. reflexivity.
  - destruct (windows_write_file_atomic "C:\db" "new text" (slow_disk (Refused "Access is denied."))) as [s' r] eqn:E.
    destruct (windows_write_atomic _ _ _ _ _ E) as (_ & _ & Ho). cbn [fst].
    transitivity (win_files (slow_disk Succeeded) !! "C:\db"); [|vm_compute; reflexivity].
    apply (Ho "failed to rename C:\db.tmp to C:\db: Access is denied.").
    transitivity (s', r).2; [reflexivity|]. rewrite <- E. vm_compute. reflexivity.
Defined.
