(* ===== verification/Config.v ===== *)
(** The controller configuration and its database file (src/src/vds_config.hh,
    src/src/vds_config.cc).

    [Platform] selects the branch of the source's [#ifdef _WIN32]. *)
From stdpp Require Import base list strings numbers sorting.
From Stdlib Require Import Ascii ZArith Lia.
From S2P Require Import Prelude Text Common Jsonl Words Store.

Local Open Scope Z_scope.

Inductive Platform := Linux | Windows.

(** ** Data *)

Inductive ControllerProfile := Unspecified | Ds5 | Dse.
#[export] Instance ControllerProfile_eq_dec : EqDecision ControllerProfile.
Proof. solve_decision. Defined.

Record ControllerConfig := mk_config {
  address : string;
  profile : ControllerProfile;
  ports : list Z
}.
#[export] Instance ControllerConfig_eq_dec : EqDecision ControllerConfig.
Proof. solve_decision. Defined.

Record ControllerTarget := mk_target {
  t_address : string;
  t_name : string;
  t_profile : ControllerProfile;
  t_online : bool
}.

Record ConfigDb := mk_db { controllers : list ControllerConfig }.

Definition kMinPortCount : Z := 1.
Definition kMaxPortCount : Z := 4.

Definition kDefaultDbPath (pf : Platform) : string :=
  match pf with
  | Windows => "C:\ProgramData\vDS\vdsd.db"
  | Linux => "/var/lib/vds/vdsd.db"
  end.

(** ** Addresses and profiles *)

Definition is_separator_index (i : nat) : bool :=
  bool_decide (i = 2 \/ i = 5 \/ i = 8 \/ i = 11 \/ i = 14)%nat.

Definition invalid_address (original : string) : string :=
  "invalid Bluetooth address: " +:+ original.

Fixpoint normalize_loop (original rest : string) (i : nat) (normalized : string) :
    result string :=
  match rest with
  | EmptyString => Ok normalized
  | String c rest' =>
      if is_separator_index i then
        if decide (c <> ":"%char) then Throw (invalid_address original)
        else normalize_loop original rest' (S i) (push_back normalized ":"%char)
      else if negb (isxdigit c) then Throw (invalid_address original)
      else normalize_loop original rest' (S i) (push_back normalized (tolower c))
  end.

Definition normalize_bluetooth_address (a : string) : result string :=
  if decide (String.length a <> 17%nat) then Throw (invalid_address a)
  else normalize_loop a a 0 "".

Definition parse_controller_profile (p : string) : result ControllerProfile :=
  if decide (p = "") then Ok Unspecified
  else if decide (p = "ds5") then Ok Ds5
  else if decide (p = "dse") then Ok Dse
  else Throw ("unknown profile: " +:+ p).

Definition controller_profile_name (p : ControllerProfile) : string :=
  match p with Unspecified => "" | Ds5 => "ds5" | Dse => "dse" end.

(** ** Ports *)

(** [split_commas]: the text is scanned once; [part] is the part being read. *)
Fixpoint split_commas_loop (text part : string) (parts : list string) :
    result (list string) :=
  match text with
  | EmptyString =>
      if decide (part = "") then Throw "empty port in ports list" else Ok (parts ++ [part])
  | String c rest =>
      if decide (c = ","%char) then
        if decide (part = "") then Throw "empty port in ports list"
        else split_commas_loop rest "" (parts ++ [part])
      else split_commas_loop rest (push_back part c) parts
  end.
Definition split_commas (text : string) : result (list string) :=
  split_commas_loop text "" [].

(** [std::adjacent_find] *)
Fixpoint adjacent_find (l : list Z) : option Z :=
  match l with
  | x :: (y :: _) as rest => if x =? y then Some x else adjacent_find rest
  | _ => None
  end.

Definition port_range_error (port : Z) : string :=
  "port must be in range 0.." +:+ to_string (kMaxPortCount - 1) +:+ ": " +:+ to_string port.

(** [validate_ports] sorts the vector in place: the sorted ports are returned. *)
Definition validate_ports (ps : list Z) : result (list Z) :=
  let sorted := merge_sort Z.le ps in
  match adjacent_find sorted with
  | Some p => Throw ("duplicate port: " +:+ to_string p)
  | None =>
      match list_find (fun p => kMaxPortCount <= p) sorted with
      | Some (_, p) => Throw (port_range_error p)
      | None => Ok sorted
      end
  end.

Fixpoint parse_port_parts (parts : list string) (acc : list Z) : result (list Z) :=
  match parts with
  | [] => Ok acc
  | part :: rest =>
      if negb (is_decimal_number part) then Throw ("port must be a number: " +:+ part)
      else
        v ← accumulate_unsigned ("port number overflow: " +:+ part) part 0;
        parse_port_parts rest (acc ++ [v])
  end.

Definition parse_ports (text : string) : result (list Z) :=
  if decide (text = "") then Ok []
  else
    parts ← split_commas text;
    ps ← parse_port_parts parts [];
    validate_ports ps.

Fixpoint format_ports (ps : list Z) : string :=
  match ps with
  | [] => ""
  | [p] => to_string p
  | p :: rest => to_string p +:+ "," +:+ format_ports rest
  end.

Definition port_path_prefix (pf : Platform) : string :=
  match pf with Windows => "\\.\vds" | Linux => "/dev/vds" end.

Definition port_path_for_index (pf : Platform) (port : Z) : result string :=
  if kMaxPortCount <=? port then Throw (port_range_error port)
  else Ok (port_path_prefix pf +:+ to_string port).

Fixpoint port_value (text : string) (value : Z) : option Z :=
  match text with
  | EmptyString => Some value
  | String c rest =>
      let value' := u32 (u32 (value * 10) + (code c - 48)) in
      if kMaxPortCount <=? value' then None else port_value rest value'
  end.

Definition port_text_from_path (pf : Platform) (path : string) : option string :=
  match pf with
  | Linux => strip_prefix "/dev/vds" path
  | Windows =>
      match strip_prefix "\\.\vds" path with
      | Some t => Some t
      | None =>
          match strip_prefix "\\?\vds" path with
          | Some t => Some t
          | None => strip_prefix "vds" path
          end
      end
  end.

Definition port_index_from_path (pf : Platform) (path : string) : option Z :=
  match port_text_from_path pf path with
  | None => None
  | Some port_text =>
      if negb (is_decimal_number port_text) then None else port_value port_text 0
  end.

(** ** Queries *)

Definition controller_config_allows_port (config : ControllerConfig) (port : Z) : bool :=
  bool_decide (ports config = []) || bool_decide (port ∈ ports config).

Definition controller_config_allows_path (pf : Platform) (config : ControllerConfig)
    (path : string) : bool :=
  match port_index_from_path pf path with
  | Some port => controller_config_allows_port config port
  | None => false
  end.

Definition controller_config_port_targets (config : ControllerConfig) : list Z :=
  if decide (ports config <> []) then ports config
  else seqZ 0 kMaxPortCount.

(** The first target port that is a candidate and not occupied. *)
Fixpoint select_port_loop (targets candidate_ports occupied_ports : list Z) : option Z :=
  match targets with
  | [] => None
  | port :: rest =>
      if decide (port ∉ candidate_ports) then select_port_loop rest candidate_ports occupied_ports
      else if decide (port ∈ occupied_ports)
      then select_port_loop rest candidate_ports occupied_ports
      else Some port
  end.

Definition select_controller_config_port (config : ControllerConfig)
    (candidate_ports occupied_ports : list Z) : option Z :=
  select_port_loop (controller_config_port_targets config) candidate_ports occupied_ports.

Definition controller_config_has_candidate_port (config : ControllerConfig)
    (candidate_ports : list Z) : bool :=
  bool_decide (is_Some (select_controller_config_port config candidate_ports [])).

Definition find_by_normalized (cs : list ControllerConfig) (normalized : string) :
    option ControllerConfig :=
  snd <$> list_find (fun c => address c = normalized) cs.

Definition find_controller_config_by_address (db : ConfigDb) (a : string) :
    result (option ControllerConfig) :=
  normalized ← normalize_bluetooth_address a;
  Ok (find_by_normalized (controllers db) normalized).

(** ** Updates *)

(** The loop of [upsert_controller_config]: the first record with the address
    is replaced in place, otherwise the record is appended. *)
Fixpoint upsert_loop (cs : list ControllerConfig) (config : ControllerConfig) :
    list ControllerConfig :=
  match cs with
  | [] => [config]
  | c :: rest =>
      if decide (address c = address config) then config :: rest
      else c :: upsert_loop rest config
  end.

Definition upsert_controller_config (db : ConfigDb) (config : ControllerConfig) :
    result ConfigDb :=
  a ← normalize_bluetooth_address (address config);
  ps ← validate_ports (ports config);
  Ok (mk_db (upsert_loop (controllers db) (mk_config a (profile config) ps))).

Definition remove_controller_config (db : ConfigDb) (a : string) : result (ConfigDb * bool) :=
  normalized ← normalize_bluetooth_address a;
  let kept := filter (fun c => address c <> normalized) (controllers db) in
  Ok (mk_db kept, negb (length kept =? length (controllers db))%nat).

(** [validate_config_assignments] for the records that name ports. *)
Fixpoint check_assignments (cs : list ControllerConfig) (available_ports : list Z) :
    result unit :=
  match cs with
  | [] => Ok tt
  | c :: rest =>
      if decide (ports c = []) then check_assignments rest available_ports
      else if decide (Exists (fun p => p ∈ available_ports) (ports c))
      then check_assignments rest available_ports
      else Throw ("no allowed virtual port for " +:+ address c)
  end.

Definition validate_config_assignments (pf : Platform) (db : ConfigDb)
    (devices : list string) : result unit :=
  if decide (controllers db = []) then Ok tt
  else if decide (devices = []) then Throw "virtual port provider unavailable"
  else check_assignments (controllers db)
         (merge_sort Z.le (omap (port_index_from_path pf) devices)).

(** ** The database text *)

Definition serialize_controller (c : ControllerConfig) : string :=
  "{" +:+ jsonl_string_field "address" (address c) +:+ ","
      +:+ jsonl_string_field "profile" (controller_profile_name (profile c)) +:+ ","
      +:+ jsonl_unsigned_array_field "ports" (ports c) +:+ String "}" (String c_newline "").

Fixpoint serialize_controllers (cs : list ControllerConfig) : string :=
  match cs with
  | [] => ""
  | c :: rest => serialize_controller c +:+ serialize_controllers rest
  end.
Definition serialize_config_db (db : ConfigDb) : string :=
  serialize_controllers (controllers db).

Definition config_fields : list string := ["address"; "profile"; "ports"].

Definition parse_controller_line (line : string) (line_number : Z) : result ControllerConfig :=
  let context := "config record at line " +:+ to_string line_number in
  fields ← parse_jsonl_object line context;
  _ ← reject_unknown_jsonl_fields fields config_fields context;
  raw_address ← require_jsonl_string fields "address" context;
  a ← normalize_bluetooth_address raw_address;
  raw_profile ← require_jsonl_string fields "profile" context;
  p ← parse_controller_profile raw_profile;
  raw_ports ← require_jsonl_unsigned_array fields "ports" context;
  ps ← validate_ports raw_ports;
  Ok (mk_config a p ps).

(** [std::getline] until it fails: the lines of the text; a text that ends in
    a newline has no further empty line. *)
Fixpoint getlines (text line : string) : list string :=
  match text with
  | EmptyString => if decide (line = "") then [] else [line]
  | String c rest =>
      if decide (c = c_newline) then line :: getlines rest ""
      else getlines rest (push_back line c)
  end.

(** [if (!line.empty() && line.back() == '\r') line.pop_back()] *)
Fixpoint drop_carriage_return (line : string) : string :=
  match line with
  | EmptyString => ""
  | String c EmptyString => if decide (c = "013"%char) then "" else line
  | String c rest => String c (drop_carriage_return rest)
  end.

Fixpoint parse_config_lines (lines : list string) (line_number : Z) (db : ConfigDb) :
    result ConfigDb :=
  match lines with
  | [] => Ok db
  | raw :: rest =>
      let number := line_number + 1 in
      let line := drop_carriage_return raw in
      if decide (line = "") then parse_config_lines rest number db
      else
        config ← parse_controller_line line number;
        match find_by_normalized (controllers db) (address config) with
        | Some _ => Throw ("duplicate controller address at line " +:+ to_string number)
        | None => parse_config_lines rest number (mk_db (controllers db ++ [config]))
        end
  end.

Definition parse_config_db (text : string) : result ConfigDb :=
  parse_config_lines (getlines text "") 0 (mk_db []).

(** ** The database file *)

(** A callback that changes only the variables [L] it captured, as a program. *)
Definition run_callback {W L} (g : ConfigDb -> L -> L * result ConfigDb) (db : ConfigDb) :
    prog (W * L) ConfigDb :=
  fun s => ((s.1, (g db s.2).1), (g db s.2).2).

Section File.
Context {W : Type} `{FileStore W}.

Definition load_config_db (path : string) : prog W ConfigDb :=
  _ ← ensure_parent_directory path;
  with_file_lock path (
    text ← read_file_if_exists path;
    lift (parse_config_db text)).

(** [update] stands for the callback: it changes the database, may throw, and
    may change what it captured, which is part of the world. *)
Definition update_config_db (path : string) (update : ConfigDb -> prog W ConfigDb) :
    prog W ConfigDb :=
  _ ← ensure_parent_directory path;
  with_file_lock path (
    text ← read_file_if_exists path;
    db ← lift (parse_config_db text);
    db' ← update db;
    _ ← write_file_atomic path (serialize_config_db db');
    mret db').
End File.
