(* ===== verification/ConfigFacts.v ===== *)
(** What the configuration code of Config.v guarantees: canonical addresses,
    valid port lists, the database text, and the abstract view of a database
    as a finite map from addresses to settings. *)
From stdpp Require Import base list strings numbers sorting gmap.
From Stdlib Require Import Ascii ZArith Lia.
From S2P Require Import Prelude Text Common Jsonl Words Store Config.

Local Open Scope Z_scope.

(** ** Addresses *)

Fixpoint str_map (f : ascii -> ascii) (s : string) : string :=
  match s with
  | EmptyString => ""
  | String c s' => String (f c) (str_map f s')
  end.

(** Position [i] onwards reads as [xx:xx:xx:xx:xx:xx]. *)
Fixpoint address_shape (s : string) (i : nat) : bool :=
  match s with
  | EmptyString => true
  | String c s' =>
      (if is_separator_index i then bool_decide (c = ":"%char) else isxdigit c)
      && address_shape s' (S i)
  end.

Definition valid_address (a : string) : bool :=
  bool_decide (String.length a = 17%nat) && address_shape a 0.

Lemma normalize_loop_spec o r i n :
  normalize_loop o r i n =
  if address_shape r i then Ok (n +:+ str_map tolower r) else Throw (invalid_address o).
Proof.
  revert i n. induction r as [|c r IH]; intros i n; simpl; [by rewrite str_app_nil_r|].
  destruct (is_separator_index i).
  - case_bool_decide as Hc; [subst|by rewrite decide_True].
    rewrite decide_False by tauto. rewrite IH. simpl.
    by rewrite push_back_app.
  - destruct (isxdigit c); simpl; [|done]. rewrite IH. by rewrite push_back_app.
Qed.

Lemma normalize_spec a :
  normalize_bluetooth_address a =
  if valid_address a then Ok (str_map tolower a) else Throw (invalid_address a).
Proof.
  unfold normalize_bluetooth_address, valid_address. case_bool_decide.
  - rewrite decide_False by tauto. apply normalize_loop_spec.
  - by rewrite decide_True.
Qed.

Lemma tolower_idem c : tolower (tolower c) = tolower c.
Proof. by_cases_on_char c; reflexivity. Qed.

Lemma tolower_isxdigit c : isxdigit (tolower c) = isxdigit c.
Proof. by_cases_on_char c; reflexivity. Qed.

Lemma tolower_colon c : bool_decide (tolower c = ":"%char) = bool_decide (c = ":"%char).
Proof. by_cases_on_char c; reflexivity. Qed.

Lemma str_map_length f s : String.length (str_map f s) = String.length s.
Proof. induction s; simpl; congruence. Qed.

Lemma tolower_shape s i : address_shape (str_map tolower s) i = address_shape s i.
Proof.
  revert i. induction s as [|c s IH]; intros i; [done|]. simpl.
  by rewrite IH, tolower_isxdigit, tolower_colon.
Qed.

Lemma tolower_valid a : valid_address (str_map tolower a) = valid_address a.
Proof. unfold valid_address. by rewrite str_map_length, tolower_shape. Qed.

Lemma str_map_tolower_idem s : str_map tolower (str_map tolower s) = str_map tolower s.
Proof. induction s as [|c s IH]; [done|]. simpl. by rewrite IH, tolower_idem. Qed.

(** An address in the form the database keeps. *)
Definition canonical (a : string) : Prop := normalize_bluetooth_address a = Ok a.

Lemma normalize_canonical a b : normalize_bluetooth_address a = Ok b -> canonical b.
Proof.
  unfold canonical. rewrite !normalize_spec. destruct (valid_address a) eqn:Ha; [|done].
  intros [= <-]. by rewrite tolower_valid, Ha, str_map_tolower_idem.
Qed.

Lemma canonical_nonempty a : canonical a -> a <> "".
Proof. by intros H ->. Qed.

Create HintDb config discriminated.
#[export] Hint Resolve normalize_canonical : config.

(** ** Ports *)

Definition ports_ok (ps : list Z) : Prop :=
  StronglySorted Z.lt ps /\ Forall (fun p => 0 <= p < kMaxPortCount) ps.

Lemma adjacent_find_none l :
  Sorted Z.le l -> adjacent_find l = None -> StronglySorted Z.lt l.
Proof.
  intros Hs Hn. apply Sorted_StronglySorted; [intros ?; lia|].
  induction l as [|x l IH]; [constructor|]. inversion Hs as [|? ? Hs' Hd]; subst.
  destruct l as [|y l]; [repeat constructor|]. cbn [adjacent_find] in Hn.
  destruct (Z.eqb_spec x y) as [|Hxy]; [done|]. inversion Hd; subst.
  constructor; [by apply IH|]. constructor. lia.
Qed.

Lemma adjacent_find_sorted l : StronglySorted Z.lt l -> adjacent_find l = None.
Proof.
  induction 1 as [|x l Hs IH Hf]; [done|]. destruct l as [|y l]; [done|].
  cbn [adjacent_find]. inversion Hf; subst. destruct (Z.eqb_spec x y); [lia|done].
Qed.

Lemma lt_sorted_le l : StronglySorted Z.lt l -> StronglySorted Z.le l.
Proof.
  induction 1 as [|x l Hs IH Hf]; constructor; [done|].
  eapply Forall_impl; [exact Hf|]. simpl. lia.
Qed.

Lemma merge_sort_sorted_id l : StronglySorted Z.le l -> merge_sort Z.le l = l.
Proof.
  intros Hs. eapply (StronglySorted_unique Z.le).
  - apply StronglySorted_merge_sort; intros ?; lia.
  - done.
  - apply merge_sort_Permutation.
Qed.

Lemma validate_ports_ok ps qs :
  Forall (fun p => 0 <= p) ps ->
  validate_ports ps = Ok qs <-> qs ≡ₚ ps /\ ports_ok qs.
Proof.
  intros Hpos. unfold validate_ports, ports_ok.
  assert (Sorted Z.le (merge_sort Z.le ps)) as Hsort by (apply Sorted_merge_sort; intros ?; lia).
  assert (merge_sort Z.le ps ≡ₚ ps) as Hperm by apply merge_sort_Permutation.
  split.
  - destruct (adjacent_find _) eqn:Ha; [done|].
    destruct (list_find _ _) as [[]|] eqn:Hf; [done|]. intros [= <-].
    split; [done|]. split; [by apply adjacent_find_none|].
    apply list_find_None in Hf. rewrite Forall_forall in Hf, Hpos |- *.
    intros p Hp. specialize (Hf p Hp). rewrite Hperm in Hp. specialize (Hpos p Hp). lia.
  - intros (Hq & Hs & Hr).
    assert (merge_sort Z.le ps = qs) as ->.
    { eapply (StronglySorted_unique Z.le); [|by apply lt_sorted_le|by rewrite Hperm].
      apply StronglySorted_merge_sort; intros ?; lia. }
    rewrite adjacent_find_sorted by done.
    assert (list_find (fun p => kMaxPortCount <= p) qs = None) as ->; [|done].
    apply list_find_None. eapply Forall_impl; [exact Hr|]. simpl. lia.
Qed.

Lemma ports_ok_nonneg ps : ports_ok ps -> Forall (fun p => 0 <= p) ps.
Proof. intros [_ H]. eapply Forall_impl; [exact H|]. simpl. lia. Qed.

Lemma ports_ok_unsigned ps : ports_ok ps -> Forall (fun p => 0 <= p <= unsigned_max) ps.
Proof.
  intros [_ H]. eapply Forall_impl; [exact H|]. unfold kMaxPortCount, unsigned_max. simpl. lia.
Qed.

Lemma validate_ports_id ps : ports_ok ps -> validate_ports ps = Ok ps.
Proof. intros Hok. apply validate_ports_ok; [by apply ports_ok_nonneg|done]. Qed.

(** At most [kMaxPortCount] ports can be listed. *)
Lemma ports_ok_length ps : ports_ok ps -> (length ps <= 4)%nat.
Proof.
  intros [Hs Hr].
  assert (NoDup ps) as Hnd.
  { clear Hr. induction Hs as [|x l Hs IH Hf]; constructor; [|done].
    intros Hx. rewrite Forall_forall in Hf. specialize (Hf x Hx). lia. }
  change 4%nat with (length (seqZ 0 kMaxPortCount)).
  apply submseteq_length, NoDup_submseteq; [done|]. intros p Hp.
  rewrite Forall_forall in Hr. apply elem_of_seqZ. apply Hr in Hp. lia.
Qed.

(** ** Well-formed databases *)

Definition config_ok (c : ControllerConfig) : Prop :=
  canonical (address c) /\ ports_ok (ports c).

Definition db_ok (db : ConfigDb) : Prop :=
  Forall config_ok (controllers db) /\ NoDup (address <$> controllers db).

Lemma find_by_normalized_None cs a :
  find_by_normalized cs a = None <-> a ∉ address <$> cs.
Proof.
  unfold find_by_normalized. rewrite fmap_None, list_find_None, Forall_forall.
  rewrite list_elem_of_fmap. naive_solver.
Qed.

Lemma find_by_normalized_Some cs a c :
  find_by_normalized cs a = Some c -> c ∈ cs /\ address c = a.
Proof.
  unfold find_by_normalized. destruct (list_find _ cs) as [[i c']|] eqn:Hf; [|done].
  intros [= <-]. apply list_find_Some in Hf as (Hi & Ha & _). split; [|done].
  by eapply list_elem_of_lookup_2.
Qed.

Lemma db_ok_empty : db_ok (mk_db []).
Proof. split; constructor. Qed.

Lemma db_ok_snoc db c :
  db_ok db -> config_ok c -> find_by_normalized (controllers db) (address c) = None ->
  db_ok (mk_db (controllers db ++ [c])).
Proof.
  intros [Hall Hnd] Hc Hf%find_by_normalized_None. split; simpl.
  - apply Forall_app. auto.
  - rewrite fmap_app. simpl. apply NoDup_app. split; [done|]. split; [|apply NoDup_singleton].
    intros a Ha ->%list_elem_of_singleton. done.
Qed.
#[export] Hint Resolve db_ok_empty db_ok_snoc : config.

Lemma parse_line_ok line n c : parse_controller_line line n = Ok c -> config_ok c.
Proof.
  unfold parse_controller_line. intros (fs & Hfs & H)%result_bind_ok.
  apply result_bind_ok in H as (_ & _ & H). apply result_bind_ok in H as (ra & _ & H).
  apply result_bind_ok in H as (a & Ha & H). apply result_bind_ok in H as (rp & _ & H).
  apply result_bind_ok in H as (p & _ & H). apply result_bind_ok in H as (rps & Hrps & H).
  apply result_bind_ok in H as (ps & Hps & [= <-]).
  split; simpl; [by eapply normalize_canonical|].
  assert (Forall (fun p => 0 <= p) rps) as Hpos.
  { apply parse_object_value_ok in Hfs. unfold require_jsonl_unsigned_array in Hrps.
    apply result_bind_ok in Hrps as ([v|] & Hv & Hrps); [|done].
    destruct (is_array v) eqn:Hia; [|done]. injection Hrps as <-.
    rewrite find_field_spec in Hv.
    destruct (filter _ fs) as [|f [|? ?]] eqn:Hfl; [done| |done]. injection Hv as <-.
    assert (f ∈ fs) as Hin.
    { assert (f ∈ filter (fun f => key f = "ports") fs) as Hf by (rewrite Hfl; set_solver).
      by apply list_elem_of_filter in Hf as [_ ?]. }
    rewrite Forall_forall in Hfs. specialize (Hfs f Hin). unfold value_ok in Hfs.
    rewrite Hia in Hfs. destruct Hfs as [_ Hr]. eapply Forall_impl; [exact Hr|]. simpl. lia. }
  by apply validate_ports_ok in Hps as [_ ?].
Qed.

Lemma parse_lines_ok lines n db db' :
  db_ok db -> parse_config_lines lines n db = Ok db' -> db_ok db'.
Proof.
  revert n db. induction lines as [|raw rest IH]; intros n db Hdb; simpl; [by intros [= <-]|].
  case_decide; [by apply IH|]. intros (c & Hc & Hrest)%result_bind_ok.
  apply parse_line_ok in Hc.
  destruct (find_by_normalized _ _) eqn:Hf; [done|]. eapply IH; [|exact Hrest]. auto with config.
Qed.

(** ** The database text *)

Definition controller_fields (c : ControllerConfig) : list JsonlField :=
  [string_field "address" (address c);
   string_field "profile" (controller_profile_name (profile c));
   array_field "ports" (ports c)].

Lemma serialize_controller_record c :
  serialize_controller c = print_record (controller_fields c) +:+ String c_newline "".
Proof.
  unfold serialize_controller, print_record, controller_fields, string_field, array_field.
  cbn [print_fields]. unfold print_field, jsonl_string_field, jsonl_unsigned_array_field.
  unfold print_value. cbn [key value is_array string_value array_value].
  by rewrite !str_app_assoc, (str_app_cons "}").
Qed.

Lemma controller_fields_ok c : config_ok c -> Forall field_ok (controller_fields c).
Proof.
  intros [_ Hp%ports_ok_unsigned]. repeat constructor; done.
Qed.

Lemma getlines_line l rest line :
  str_forall printable l = true ->
  getlines (l +:+ String c_newline rest) line = (line +:+ l) :: getlines rest "".
Proof.
  revert line. induction l as [|c l IH]; intros line Hl.
  - rewrite str_app_nil_l, str_app_nil_r. simpl. done.
  - simpl in Hl. apply andb_true_iff in Hl as [Hc Hl]. rewrite str_app_cons. simpl.
    rewrite decide_False by (intros ->; done).
    rewrite IH by done. by rewrite push_back_app.
Qed.

Lemma drop_carriage_return_keep s c :
  c <> "013"%char -> drop_carriage_return (s +:+ String c "") = s +:+ String c "".
Proof.
  intros Hc. induction s as [|d s IH].
  - rewrite str_app_nil_l. simpl. by rewrite decide_False.
  - rewrite str_app_cons. simpl. rewrite IH. destruct s; [done|]. by rewrite str_app_cons.
Qed.

Lemma parse_profile_name p : parse_controller_profile (controller_profile_name p) = Ok p.
Proof. by destruct p. Qed.

Lemma parse_printed_controller c n :
  config_ok c -> parse_controller_line (print_record (controller_fields c)) n = Ok c.
Proof.
  intros Hc. unfold parse_controller_line.
  rewrite <- (str_app_nil_r (print_record _)), parse_print_record by by apply controller_fields_ok.
  destruct Hc as [Ha Hp]. unfold canonical in Ha. cbn [finish_jsonl_object skip_jsonl_space].
  cbn [mbind result_bind]. generalize ("config record at line " +:+ to_string n). intros ctx.
  rewrite (proj2 (reject_unknown_ok _ _ ctx)) by (repeat constructor; set_solver).
  rewrite (require_string_field _ "address" (address c)) by done.
  rewrite (require_string_field _ "profile" (controller_profile_name (profile c))) by done.
  rewrite (require_array_field _ "ports" (ports c)) by done.
  cbn [mbind result_bind]. rewrite Ha, parse_profile_name, validate_ports_id by done.
  by destruct c.
Qed.

Lemma parse_serialized_lines cs n db :
  db_ok (mk_db (controllers db ++ cs)) ->
  parse_config_lines (getlines (serialize_controllers cs) "") n db =
  Ok (mk_db (controllers db ++ cs)).
Proof.
  revert n db. induction cs as [|c cs IH]; intros n [old] Hok.
  - simpl. by rewrite app_nil_r.
  - assert (config_ok c) as Hc.
    { destruct Hok as [Hall _]. apply Forall_app in Hall as [_ Hall]. by inversion Hall. }
    assert (find_by_normalized old (address c) = None) as Hf.
    { apply find_by_normalized_None. destruct Hok as [_ Hnd]. simpl in Hnd.
      rewrite fmap_app in Hnd. apply NoDup_app in Hnd as (_ & Hd & _).
      intros Hin. eapply Hd; [exact Hin|]. set_solver. }
    simpl serialize_controllers. rewrite serialize_controller_record, str_app_assoc, str_app_cons.
    rewrite getlines_line by by apply print_record_printable, controller_fields_ok.
    cbn [parse_config_lines]. rewrite str_app_nil_l.
    assert (drop_carriage_return (print_record (controller_fields c)) =
            print_record (controller_fields c)) as ->.
    { unfold print_record. rewrite <- str_app_assoc. by apply drop_carriage_return_keep. }
    rewrite decide_False by (unfold print_record; rewrite str_app_cons; done).
    rewrite parse_printed_controller by done. cbn [mbind result_bind controllers].
    rewrite Hf. rewrite str_app_nil_l. simpl in Hok |- *.
    replace (old ++ c :: cs) with ((old ++ [c]) ++ cs) by by rewrite <- app_assoc.
    apply (IH _ (mk_db (old ++ [c]))). simpl. by rewrite <- app_assoc.
Qed.

Lemma parse_serialize_db db : db_ok db -> parse_config_db (serialize_config_db db) = Ok db.
Proof.
  intros Hok. unfold parse_config_db, serialize_config_db. destruct db as [cs].
  by apply (parse_serialized_lines cs 0 (mk_db [])).
Qed.

(** ** The abstract view: a finite map from addresses to settings *)

Definition settings (c : ControllerConfig) : ControllerProfile * list Z := (profile c, ports c).

Definition db_map (db : ConfigDb) : gmap string (ControllerProfile * list Z) :=
  list_to_map ((fun c => (address c, settings c)) <$> controllers db).

Lemma find_by_normalized_cons c cs a :
  find_by_normalized (c :: cs) a =
  if decide (address c = a) then Some c else find_by_normalized cs a.
Proof.
  unfold find_by_normalized. simpl. case_decide; [done|].
  by destruct (list_find _ cs) as [[]|].
Qed.

Lemma db_map_lookup db a :
  db_map db !! a = settings <$> find_by_normalized (controllers db) a.
Proof.
  unfold db_map. induction (controllers db) as [|c cs IH]; [done|]. simpl.
  rewrite find_by_normalized_cons, lookup_insert. by case_decide.
Qed.

Lemma upsert_loop_find cs c a :
  find_by_normalized (upsert_loop cs c) a =
  if decide (address c = a) then Some c else find_by_normalized cs a.
Proof.
  induction cs as [|d cs IH]; simpl; [apply find_by_normalized_cons|].
  destruct (decide (address d = address c)) as [Hd|Hd].
  - rewrite !find_by_normalized_cons. repeat case_decide; congruence.
  - rewrite !find_by_normalized_cons, IH. repeat case_decide; congruence.
Qed.

Lemma upsert_loop_addresses cs c a :
  a ∈ address <$> upsert_loop cs c <-> a = address c \/ a ∈ address <$> cs.
Proof.
  induction cs as [|d cs IH]; simpl; [set_solver|].
  case_decide as Hd; rewrite !fmap_cons, !elem_of_cons, ?IH; [|tauto].
  rewrite <- Hd. tauto.
Qed.

Lemma upsert_loop_ok cs c :
  db_ok (mk_db cs) -> config_ok c -> db_ok (mk_db (upsert_loop cs c)).
Proof.
  intros [Hall Hnd] Hc. unfold db_ok in *. simpl in *.
  induction cs as [|d cs IH]; simpl.
  - split; [by apply List.Forall_cons|apply NoDup_singleton].
  - apply Forall_cons_1 in Hall as [Hd Hall]. rewrite fmap_cons, NoDup_cons in Hnd.
    destruct Hnd as [Hni Hnd]. case_decide as Hdc.
    + split; [by apply List.Forall_cons|]. by rewrite fmap_cons, NoDup_cons, <- Hdc.
    + destruct (IH Hall Hnd) as [IHa IHn]. split; [by apply List.Forall_cons|].
      rewrite fmap_cons, NoDup_cons, upsert_loop_addresses. naive_solver.
Qed.

Lemma upsert_map db c db' :
  upsert_controller_config db c = Ok db' ->
  exists a ps, normalize_bluetooth_address (address c) = Ok a /\
    validate_ports (ports c) = Ok ps /\ db_map db' = <[a := (profile c, ps)]> (db_map db).
Proof.
  unfold upsert_controller_config. intros (a & Ha & H)%result_bind_ok.
  apply result_bind_ok in H as (ps & Hps & [= <-]). exists a, ps. split_and!; [done..|].
  apply map_eq. intros b. rewrite db_map_lookup, lookup_insert. simpl.
  rewrite upsert_loop_find. simpl. case_decide; [done|]. by rewrite db_map_lookup.
Qed.

Lemma upsert_ok db c db' :
  db_ok db -> Forall (fun p => 0 <= p) (ports c) ->
  upsert_controller_config db c = Ok db' -> db_ok db'.
Proof.
  intros Hdb Hpos. unfold upsert_controller_config. intros (a & Ha & H)%result_bind_ok.
  apply result_bind_ok in H as (ps & Hps & [= <-]). destruct db as [cs].
  apply upsert_loop_ok; [done|]. split; simpl; [by eapply normalize_canonical|].
  by apply validate_ports_ok in Hps as [_ ?].
Qed.

Lemma filter_find cs a b :
  find_by_normalized (filter (fun c => address c <> a) cs) b =
  if decide (a = b) then None else find_by_normalized cs b.
Proof.
  induction cs as [|c cs IH]; [by case_decide|]. rewrite filter_cons, find_by_normalized_cons.
  destruct (decide (address c <> a)) as [Hc|Hc]; [rewrite find_by_normalized_cons|]; rewrite IH;
    try apply dec_stable in Hc; repeat case_decide; congruence.
Qed.

Lemma remove_map db raw db' removed :
  remove_controller_config db raw = Ok (db', removed) ->
  exists a, normalize_bluetooth_address raw = Ok a /\ db_map db' = delete a (db_map db) /\
    removed = bool_decide (is_Some (db_map db !! a)).
Proof.
  unfold remove_controller_config. intros (a & Ha & [= <- <-])%result_bind_ok.
  exists a. split; [done|]. split.
  - apply map_eq. intros b. rewrite db_map_lookup, lookup_delete. simpl.
    rewrite filter_find, db_map_lookup. by case_decide.
  - case_bool_decide as Hf; rewrite db_map_lookup, fmap_is_Some in Hf.
    + destruct Hf as [c [Hin Ha']%find_by_normalized_Some].
      apply negb_true_iff, Nat.eqb_neq. intros Hlen.
      pose proof (length_filter_lt (fun c => address c <> a) (controllers db) c Hin ltac:(tauto)).
      lia.
    + rewrite <- eq_None_not_Some in Hf. apply find_by_normalized_None in Hf.
      apply negb_false_iff, Nat.eqb_eq. f_equal. clear -Hf.
      induction (controllers db) as [|c cs IH]; [done|].
      rewrite fmap_cons, not_elem_of_cons in Hf. rewrite filter_cons, decide_True by naive_solver.
      f_equal. naive_solver.
Qed.

Lemma remove_ok db raw db' removed :
  db_ok db -> remove_controller_config db raw = Ok (db', removed) -> db_ok db'.
Proof.
  intros [Hall Hnd]. unfold remove_controller_config.
  intros (a & Ha & [= <- <-])%result_bind_ok. split; simpl.
  - rewrite Forall_forall in Hall |- *. intros c [_ Hc]%list_elem_of_filter. auto.
  - eapply sublist_NoDup; [exact Hnd|]. apply fmap_sublist.
    clear. induction (controllers db) as [|c cs IH]; [done|]. rewrite filter_cons.
    case_decide; [by apply sublist_skip|by apply sublist_cons].
Qed.

(** ** Port texts *)

Lemma split_commas_digits d rest part parts :
  str_forall isdigit d = true ->
  split_commas_loop (d +:+ rest) part parts = split_commas_loop rest (part +:+ d) parts.
Proof.
  revert part. induction d as [|c d IH]; intros part; [by rewrite str_app_nil_r|].
  simpl. intros [Hc Hd]%andb_true_iff. rewrite decide_False by (intros ->; done).
  rewrite IH by done. by rewrite push_back_app.
Qed.

Lemma to_string_nonempty n : to_string n <> "".
Proof. by destruct (to_string_cons n) as (c & s & ->). Qed.

Lemma split_format_ports ps parts :
  ps <> [] -> split_commas_loop (format_ports ps) "" parts = Ok (parts ++ (to_string <$> ps)).
Proof.
  revert parts. induction ps as [|p ps IH]; intros parts Hne; [done|]. cbn [format_ports].
  pose proof (to_string_isdigit p) as Hd. pose proof (to_string_nonempty p) as Hn.
  destruct ps as [|p' ps].
  - rewrite <- (str_app_nil_r (to_string p)) at 1. rewrite split_commas_digits by done.
    cbn [split_commas_loop]. rewrite str_app_nil_l. by rewrite decide_False.
  - rewrite split_commas_digits by done. rewrite str_app_cons, !str_app_nil_l.
    cbn [split_commas_loop]. rewrite decide_True, decide_False by done. rewrite IH by done.
    by rewrite <- app_assoc.
Qed.

Lemma to_string_decimal n : is_decimal_number (to_string n) = true.
Proof.
  unfold is_decimal_number. rewrite to_string_isdigit.
  by rewrite bool_decide_eq_false_2 by apply to_string_nonempty.
Qed.

Lemma accumulate_to_string msg n :
  0 <= n <= unsigned_max -> accumulate_unsigned msg (to_string n) 0 = Ok n.
Proof.
  intros Hn. pose proof (to_string_value n) as Hv.
  rewrite accumulate_unsigned_ok; [by rewrite Hv by lia|apply to_string_isdigit|lia|].
  rewrite Hv; lia.
Qed.

Lemma parse_to_string_parts ps acc :
  Forall (fun p => 0 <= p <= unsigned_max) ps ->
  parse_port_parts (to_string <$> ps) acc = Ok (acc ++ ps).
Proof.
  revert acc. induction ps as [|p ps IH]; intros acc Hall; simpl; [by rewrite app_nil_r|].
  apply Forall_cons_1 in Hall as [Hp Hall]. rewrite to_string_decimal. simpl.
  rewrite accumulate_to_string by done. simpl. rewrite IH by done. by rewrite <- app_assoc.
Qed.

Lemma format_ports_nonempty ps : ps <> [] -> format_ports ps <> "".
Proof.
  destruct ps as [|p ps]; [done|]. intros _. cbn [format_ports].
  destruct (to_string_cons p) as (c & s & ->). by destruct ps.
Qed.

Lemma parse_format_ports ps : ports_ok ps -> parse_ports (format_ports ps) = Ok ps.
Proof.
  intros Hok. destruct (decide (ps = [])) as [->|Hne]; [done|]. unfold parse_ports.
  rewrite decide_False by by apply format_ports_nonempty. unfold split_commas.
  rewrite split_format_ports by done. cbn [mbind result_bind]. rewrite app_nil_l.
  rewrite parse_to_string_parts by by apply ports_ok_unsigned. cbn [mbind result_bind].
  by apply validate_ports_id.
Qed.

Lemma parse_port_parts_nonneg parts acc ps :
  Forall (fun p => 0 <= p) acc -> parse_port_parts parts acc = Ok ps ->
  Forall (fun p => 0 <= p) ps.
Proof.
  revert acc. induction parts as [|part parts IH]; intros acc Hacc; simpl; [by intros [= <-]|].
  destruct (is_decimal_number part) eqn:Hd; simpl; [|done].
  intros (v & Hv & Hr)%result_bind_ok. eapply IH; [|exact Hr].
  apply Forall_app. split; [done|]. apply Forall_singleton.
  unfold is_decimal_number in Hd. apply andb_true_iff in Hd as [_ Hd].
  eapply accumulate_range in Hv; [|done|unfold unsigned_max; lia]. lia.
Qed.

Lemma parse_ports_ok text ps : parse_ports text = Ok ps -> ports_ok ps.
Proof.
  unfold parse_ports. case_decide; [intros [= <-]; repeat constructor|].
  intros (parts & _ & Hr)%result_bind_ok. apply result_bind_ok in Hr as (qs & Hqs & Hr).
  apply parse_port_parts_nonneg in Hqs; [|done].
  by apply validate_ports_ok in Hr as [_ ?].
Qed.

(** The 32-bit accumulator never wraps: it is checked after every digit. *)
Lemma port_value_spec t v :
  str_forall isdigit t = true -> 0 <= v < kMaxPortCount ->
  port_value t v = if dec_value t v <? kMaxPortCount then Some (dec_value t v) else None.
Proof.
  unfold kMaxPortCount. revert v. induction t as [|c t IH]; intros v; simpl.
  - intros _ Hv. destruct (Z.ltb_spec v 4); [done|lia].
  - intros [Hc Ht]%andb_true_iff Hv. unfold isdigit in Hc. unfold u32, kMaxPortCount.
    rewrite (Z.mod_small (v * 10)) by lia. rewrite Z.mod_small by lia.
    destruct (Z.leb_spec 4 (v * 10 + (code c - 48))) as [Hge|Hlt]; [|by apply IH; [done|lia]].
    pose proof (dec_value_ge t (v * 10 + (code c - 48)) Ht).
    destruct (Z.ltb_spec (dec_value t (v * 10 + (code c - 48))) 4); [lia|done].
Qed.

Lemma port_index_spec pf path n :
  port_index_from_path pf path = Some n <->
  exists t, port_text_from_path pf path = Some t /\ is_decimal_number t = true /\
            dec_value t 0 = n /\ n < kMaxPortCount.
Proof.
  unfold port_index_from_path. destruct (port_text_from_path pf path) as [t|]; [|naive_solver].
  destruct (is_decimal_number t) eqn:Hd; simpl.
  - pose proof Hd as Hd'. unfold is_decimal_number in Hd'. apply andb_true_iff in Hd' as [_ Ht].
    rewrite port_value_spec by first [done|unfold kMaxPortCount; lia].
    destruct (Z.ltb_spec (dec_value t 0) kMaxPortCount); split; try naive_solver.
    intros (? & [= <-] & _ & <- & Hlt). lia.
  - split; [done|]. intros (? & [= <-] & ? & _). congruence.
Qed.

Lemma port_text_of_path pf s : port_text_from_path pf (port_path_prefix pf +:+ s) = Some s.
Proof. destruct pf; unfold port_text_from_path; by rewrite strip_prefix_app. Qed.

Lemma port_path_roundtrip pf p path :
  0 <= p -> port_path_for_index pf p = Ok path -> port_index_from_path pf path = Some p.
Proof.
  intros Hp. unfold port_path_for_index.
  destruct (Z.leb_spec kMaxPortCount p); [done|]. intros [= <-]. apply port_index_spec.
  exists (to_string p). rewrite port_text_of_path, to_string_decimal, to_string_value by done.
  done.
Qed.

Lemma port_index_range pf path n : port_index_from_path pf path = Some n -> 0 <= n < kMaxPortCount.
Proof.
  intros (t & _ & Hd & <- & Hlt)%port_index_spec. split; [|done].
  unfold is_decimal_number in Hd. apply andb_true_iff in Hd as [_ Hd].
  by apply dec_value_ge.
Qed.

(** ** Port selection *)

Definition eligible (config : ControllerConfig) (cand occ : list Z) (p : Z) : Prop :=
  0 <= p < kMaxPortCount /\ controller_config_allows_port config p = true /\
  p ∈ cand /\ p ∉ occ.

Lemma targets_spec config p :
  ports_ok (ports config) ->
  p ∈ controller_config_port_targets config <->
  0 <= p < kMaxPortCount /\ controller_config_allows_port config p = true.
Proof.
  intros [_ Hr]. unfold controller_config_port_targets, controller_config_allows_port.
  rewrite orb_true_iff, !bool_decide_eq_true. case_decide as Hne.
  - rewrite Forall_forall in Hr. naive_solver.
  - rewrite elem_of_seqZ. naive_solver lia.
Qed.

Lemma targets_sorted config :
  ports_ok (ports config) -> StronglySorted Z.lt (controller_config_port_targets config).
Proof.
  intros [Hs _]. unfold controller_config_port_targets. case_decide; [done|].
  change (StronglySorted Z.lt [0; 1; 2; 3]). repeat constructor; lia.
Qed.

Lemma select_loop_Some ts cand occ p :
  StronglySorted Z.lt ts ->
  select_port_loop ts cand occ = Some p ->
  (p ∈ ts /\ p ∈ cand /\ p ∉ occ) /\
  forall q, q ∈ ts -> q ∈ cand -> q ∉ occ -> p <= q.
Proof.
  induction 1 as [|t ts Hs IH Hf]; simpl; [done|]. rewrite Forall_forall in Hf.
  case_decide as Hc; [|case_decide as Ho].
  - intros (Hp & Hmin)%IH. split; [set_solver|]. intros q [->|Hq]%elem_of_cons; [done|auto].
  - intros (Hp & Hmin)%IH. split; [set_solver|]. intros q [->|Hq]%elem_of_cons; [done|auto].
  - intros [= <-]. split; [set_solver|].
    intros q [->|Hq]%elem_of_cons _ _; [lia|]. apply Hf in Hq. lia.
Qed.

Lemma select_loop_None ts cand occ :
  select_port_loop ts cand occ = None <-> forall q, q ∈ ts -> q ∈ cand -> q ∈ occ.
Proof.
  induction ts as [|t ts IH]; simpl; [set_solver|].
  case_decide as Hc; [|case_decide as Ho]; [rewrite IH; set_solver..|].
  split; [done|]. intros H. destruct Ho. set_solver.
Qed.

Lemma select_port_spec config cand occ :
  ports_ok (ports config) ->
  match select_controller_config_port config cand occ with
  | Some p => eligible config cand occ p /\ forall q, eligible config cand occ q -> p <= q
  | None => forall q, ~ eligible config cand occ q
  end.
Proof.
  intros Hok. unfold select_controller_config_port, eligible.
  destruct (select_port_loop _ cand occ) as [p|] eqn:Hsel.
  - apply select_loop_Some in Hsel as [(Hp & Hc & Ho) Hmin]; [|by apply targets_sorted].
    split; [apply targets_spec in Hp as [? ?]; naive_solver|].
    intros q (Hr & Ha & ? & ?). apply Hmin; [|done..]. by apply targets_spec.
  - intros q (Hr & Ha & Hc & Ho). apply Ho. eapply select_loop_None; [done| |done].
    by apply targets_spec.
Qed.

(** ** Assignment check *)

Lemma check_assignments_ok cs avail :
  check_assignments cs avail = Ok tt <->
  Forall (fun c => ports c = [] \/ exists p, p ∈ ports c /\ p ∈ avail) cs.
Proof.
  induction cs as [|c cs IH]; simpl; [done|]. rewrite List.Forall_cons_iff, <- IH.
  case_decide as He; [naive_solver|]. case_decide as Hx; rewrite Exists_exists in Hx;
    naive_solver.
Qed.

Lemma validate_assignments_ok pf db devices :
  validate_config_assignments pf db devices = Ok tt <->
  controllers db = [] \/
  (devices <> [] /\
   Forall (fun c => ports c = [] \/ exists p d, p ∈ ports c /\ d ∈ devices /\
             port_index_from_path pf d = Some p) (controllers db)).
Proof.
  unfold validate_config_assignments. case_decide as Hc; [naive_solver|].
  case_decide as Hd; [naive_solver|]. rewrite check_assignments_ok.
  assert (forall p, p ∈ merge_sort Z.le (omap (port_index_from_path pf) devices) <->
    exists d, d ∈ devices /\ port_index_from_path pf d = Some p) as Hav.
  { intros p. by rewrite merge_sort_Permutation, list_elem_of_omap. }
  split.
  - intros H. right. split; [done|]. eapply Forall_impl; [exact H|]. simpl.
    intros c [?|(p & Hp & Hp')]; [by left|]. apply Hav in Hp'. naive_solver.
  - intros [?|[_ H]]; [done|]. eapply Forall_impl; [exact H|]. simpl.
    intros c [?|(p & d & Hp & Hdv & Hi)]; [by left|]. right. exists p. split; [done|].
    apply Hav. eauto.
Qed.
