(* ===== verification/ConfigFile.v ===== *)
(** Loading and updating the database file, over any file layer that meets
    the interface of Store.v. *)
From stdpp Require Import base list strings numbers sorting gmap.
From Stdlib Require Import Ascii ZArith Lia.
From S2P Require Import Prelude Text Common Jsonl Store Config ConfigFacts.

Section FileOps.
Context {W : Type} `{FileStoreLaws W}.

(** The text [read_file_if_exists] finds: a missing file reads as empty. *)
Definition text_of (w : W) (path : string) : string := default "" (fs_content w path).

(** All but the file of the lock. *)
Definition same_files (path : string) (w w' : W) : Prop :=
  forall q, q <> lock_path path -> fs_content w' q = fs_content w q.

Lemma same_content path w w' : same_files path w w' -> fs_content w' path = fs_content w path.
Proof. intros Hs. apply Hs, lock_path_ne. Qed.

Lemma same_text w w' path : same_files path w w' -> text_of w' path = text_of w path.
Proof. intros Hs. unfold text_of. by rewrite (same_content _ _ _ Hs). Qed.

#[export] Instance same_files_pre path : PreOrder (same_files path).
Proof. split; [done|]. intros w1 w2 w3 H1 H2 q Hq. by rewrite H2, H1. Qed.

(** Entering a locked scope behind [ensure_parent_directory]. *)
Lemma locked_scope_inv {A} path (body : prog W A) w w' r :
  (_ ← ensure_parent_directory path; with_file_lock path body) w = (w', r) ->
  (exists e, r = Throw e /\ same_files path w w') \/
  (exists w1 w2, same_files path w w1 /\ body w1 = (w2, r) /\ same_files path w2 w').
Proof.
  unfold mbind, prog_bind. pose proof (ensure_content path w) as He.
  destruct (ensure_parent_directory path w) as [w0 [[]|e]]; simpl in He.
  - intros [(e & -> & Hs)|(w1 & w2 & H1 & H2 & H3)]%with_file_lock_inv.
    + left. exists e. split; [done|]. intros q Hq. by rewrite Hs.
    + right. exists w1, w2. split_and!; [intros q Hq; by rewrite H1|done|by intros q _].
  - intros [= <- <-]. left. exists e. split; [done|]. by intros q _.
Qed.

Lemma read_inv path w w' r :
  read_file_if_exists path w = (w', r) ->
  same_files path w w' /\ forall t, r = Ok t -> t = text_of w path.
Proof.
  intros Hr. pose proof (read_content path w) as Hc. rewrite Hr in Hc. simpl in Hc.
  split; [by intros q _|]. intros t ->. by apply read_result in Hr.
Qed.

Lemma load_inv path w w' r :
  load_config_db path w = (w', r) ->
  same_files path w w' /\ forall db, r = Ok db -> parse_config_db (text_of w path) = Ok db.
Proof.
  intros [(e & -> & Hs)|(w1 & w2 & H1 & Hb & H2)]%locked_scope_inv; [done|].
  unfold mbind, prog_bind, lift in Hb.
  destruct (read_file_if_exists path w1) as [w3 [t|e]] eqn:Hr; apply read_inv in Hr as [Hs Ht].
  - injection Hb as -> <-. specialize (Ht t eq_refl) as ->.
    rewrite (same_text w w1) by done. split; [|by intros db ->].
    etrans; [exact H1|]. by etrans.
  - injection Hb as -> <-. split; [|done]. etrans; [exact H1|]. by etrans.
Qed.

(** What an update of the file can do to the files, to the state [l] its
    callback captured, and which result it has.  Either it stops before the
    callback, or the callback runs once on the parsed database; its state then
    stays, and the file is left alone unless the callback returned. *)
Definition update_outcome {L} (g : ConfigDb -> L -> L * result ConfigDb) (path : string)
    (w w' : W) (l l' : L) (r : result ConfigDb) : Prop :=
  (l' = l /\ same_files path w w' /\ exists e, r = Throw e) \/
  exists db, parse_config_db (text_of w path) = Ok db /\ (g db l).1 = l' /\
    match (g db l).2 with
    | Throw e => r = Throw e /\ same_files path w w'
    | Ok db' =>
        (r = Ok db' /\ fs_content w' path = Some (serialize_config_db db')) \/
        (exists e, r = Throw e /\
           (fs_content w' path = fs_content w path \/
            fs_content w' path = Some (serialize_config_db db')))
    end.

(** The locked part of an update. *)
Definition update_body {L} (g : ConfigDb -> L -> L * result ConfigDb) (path : string) :
    prog (W * L) ConfigDb :=
  text ← read_file_if_exists path;
  db ← lift (parse_config_db text);
  db' ← run_callback g db;
  _ ← write_file_atomic path (serialize_config_db db');
  mret db'.

Lemma update_body_inv {L} (g : ConfigDb -> L -> L * result ConfigDb) path w l w' l' r :
  update_body g path (w, l) = ((w', l'), r) ->
  (forall q, q <> path -> q <> tmp_path path -> q <> lock_path path -> fs_content w' q = fs_content w q) /\
  update_outcome g path w w' l l' r.
Proof.
  unfold update_body, mbind, prog_bind, lift, mret, prog_ret, run_callback. simpl. unfold on_first. simpl.
  destruct (read_file_if_exists path w) as [w1 [t|e]] eqn:Hr; apply read_inv in Hr as [Hs Ht];
    [|intros [= <- <- <-]; split; [auto|left; eauto]].
  specialize (Ht t eq_refl) as ->.
  destruct (parse_config_db (text_of w path)) as [db|e] eqn:Hp;
    [|intros [= <- <- <-]; split; [auto|left; eauto]].
  simpl. destruct (g db l) as [l2 [db'|e]] eqn:Hg; simpl.
  2: { intros [= <- <- <-]. split; [auto|]. right. exists db. rewrite Hg. by split_and!. }
  pose proof (write_other path (serialize_config_db db') w1) as Hoth.
  destruct (write_file_atomic path (serialize_config_db db') w1) as [w2 [[]|e]] eqn:Hw;
    intros [= <- <- <-]; simpl in Hoth;
    (split; [intros q Hq1 Hq2 Hq3; rewrite Hoth by done; by apply Hs|]);
    right; exists db; rewrite Hg; (split; [done|]); (split; [done|]).
  - left. split; [done|]. by apply write_ok in Hw.
  - right. exists e. split; [done|]. apply write_throw in Hw. by rewrite (same_content _ _ _ Hs) in Hw.
Qed.

Lemma outcome_same_files {L} (g : ConfigDb -> L -> L * result ConfigDb) path w0 w1 w2 w3 l l' r :
  same_files path w0 w1 -> same_files path w2 w3 ->
  update_outcome g path w1 w2 l l' r -> update_outcome g path w0 w3 l l' r.
Proof.
  intros H1 H2. unfold update_outcome. rewrite (same_text w0 w1) by done.
  assert (same_files path w1 w2 -> same_files path w0 w3) as Hs.
  { intros Hm. etrans; [exact H1|]. by etrans. }
  intros [(-> & Hm & He)|(db & Hp & Hl & Hr)]; [left; auto|]. right. exists db.
  split; [done|]. split; [done|]. destruct (g db l).2; [|destruct Hr; auto].
  rewrite (same_content _ _ _ H2), <- (same_content _ _ _ H1). exact Hr.
Qed.

Lemma update_inv {L} (g : ConfigDb -> L -> L * result ConfigDb) path w l w' l' r :
  update_config_db path (run_callback g) (w, l) = ((w', l'), r) ->
  (forall q, q <> path -> q <> tmp_path path -> q <> lock_path path -> fs_content w' q = fs_content w q) /\
  update_outcome g path w w' l l' r.
Proof.
  change (update_config_db path (run_callback g))
    with (_ ← ensure_parent_directory path; with_file_lock path (update_body g path) : prog (W * L) ConfigDb).
  unfold with_file_lock, release_after, mbind, prog_bind. simpl. unfold on_first. simpl.
  pose proof (ensure_content path w) as He. pose proof (fun w => lock_content path w) as Hl.
  destruct (ensure_parent_directory path w) as [w1 [[]|e]]; simpl in He.
  2: { intros [= <- <- <-]. split; [auto|]. left. split; [done|]. split; [by intros q _|eauto]. }
  simpl. specialize (Hl w1). destruct (lock_file path w1) as [w2 [[]|e]]; simpl in Hl.
  2: { assert (same_files path w w2) by (intros q Hq; by rewrite Hl). intros [= <- <- <-].
       split; [auto|]. left. eauto. }
  simpl. destruct (update_body g path (w2, l)) as [[w3 l3] r3] eqn:Hb. simpl.
  intros [= <- <- <-]. apply update_body_inv in Hb as [Ho Hu].
  assert (same_files path w w2) as Hs by (intros q Hq; by rewrite Hl).
  assert (same_files path w3 (unlock_file path w3)) as Hs' by (intros q _; apply unlock_content).
  split; [intros q Hq1 Hq2 Hq3; by rewrite Hs', Ho, Hs|]. by eapply outcome_same_files.
Qed.

(** The file holds a database this code wrote, or has never been written. *)
Definition valid_file (w : W) (path : string) : Prop :=
  exists db, parse_config_db (text_of w path) = Ok db.

(** The map the file stands for. *)
Definition file_map (w : W) (path : string) : gmap string (ControllerProfile * list Z) :=
  match parse_config_db (text_of w path) with
  | Ok db => db_map db
  | Throw _ => ∅
  end.

Lemma parse_db_ok text db : parse_config_db text = Ok db -> db_ok db.
Proof. apply parse_lines_ok. auto with config. Qed.

Lemma written_text w path db :
  db_ok db -> fs_content w path = Some (serialize_config_db db) ->
  parse_config_db (text_of w path) = Ok db.
Proof. intros Hok Hw. unfold text_of. rewrite Hw. by apply parse_serialize_db. Qed.

End FileOps.
