(* ===== verification/Control.v ===== *)
(** The control protocol of the daemon (src/src/vdsd_common.cc): one JSON request
    in, one reply line out, with the configuration file, the trace flags, the
    reload flag and the log as state.

    The state of a handler is [(world * Vars) * locals]: the world holds the
    files, [Vars] what the caller passes by reference, and the locals are the
    variables the handler's [catch] clause or callback can see. *)
From stdpp Require Import base list strings numbers sorting.
From Stdlib Require Import Ascii ZArith Lia.
From S2P Require Import Prelude Text Common Jsonl Words Log Store Config.

Local Open Scope Z_scope.

(** ** Trace flags *)

Definition kTraceInputAudio : Z := Z.shiftl 1 0.
Definition kTraceInputControl : Z := Z.shiftl 1 1.
Definition kTraceInput : Z := Z.lor kTraceInputAudio kTraceInputControl.
Definition kTraceOutput : Z := Z.shiftl 1 2.
Definition kTraceAll : Z := Z.lor kTraceInput kTraceOutput.

Definition trace_enabled (trace_flags target : Z) : bool := negb (Z.land trace_flags target =? 0).

Definition trace_scope_error : string :=
  "trace scope must be all, input, input-audio, input-control, output, or comma-separated scopes".

(** One turn of the loop of [parse_trace_scope]. *)
Definition trace_item (item : string) (flags : Z) : result Z :=
  if decide (item = "input" \/ item = "all") then
    let flags := Z.lor flags kTraceInput in
    Ok (if decide (item = "all") then Z.lor flags kTraceOutput else flags)
  else if decide (item = "input-audio") then Ok (Z.lor flags kTraceInputAudio)
  else if decide (item = "input-control") then Ok (Z.lor flags kTraceInputControl)
  else if decide (item = "output") then Ok (Z.lor flags kTraceOutput)
  else Throw trace_scope_error.

(** The loop, over the characters of the scope text; [item] is the item read so
    far. *)
Fixpoint parse_trace_items (scope item : string) (flags : Z) : result Z :=
  match scope with
  | EmptyString => trace_item item flags
  | String c rest =>
      if decide (c = ","%char) then
        flags' ← trace_item item flags;
        parse_trace_items rest "" flags'
      else parse_trace_items rest (push_back item c) flags
  end.
Definition parse_trace_scope (scope : string) : result Z := parse_trace_items scope "" 0.

Definition append_scope (name : string) (enabled : bool) (scope : string) : string :=
  if enabled then (if decide (name = "") then name else name +:+ ",") +:+ scope else name.

Definition trace_scope_name (scope : Z) : string :=
  if scope =? kTraceAll then "all"
  else if scope =? kTraceInput then "input"
  else if scope =? kTraceInputAudio then "input-audio"
  else if scope =? kTraceInputControl then "input-control"
  else if scope =? kTraceOutput then "output"
  else
    let name := append_scope "" (trace_enabled scope kTraceInputAudio) "input-audio" in
    let name := append_scope name (trace_enabled scope kTraceInputControl) "input-control" in
    let name := append_scope name (trace_enabled scope kTraceOutput) "output" in
    if decide (name = "") then "none" else name.

Definition active_trace_name (trace_flags : Z) : string :=
  let trace_flags := Z.land trace_flags kTraceAll in
  if trace_flags =? 0 then "none" else trace_scope_name trace_flags.

(** ** Small helpers *)

(** [trim_command]: blanks and line ends are taken off the end. *)
Definition trims (c : ascii) : bool :=
  bool_decide (c = "010"%char) || bool_decide (c = "013"%char)
  || bool_decide (c = " "%char) || bool_decide (c = "009"%char).
Fixpoint trim_command (command : string) : string :=
  match command with
  | EmptyString => ""
  | String c rest =>
      let r := trim_command rest in
      if decide (r = "") then (if trims c then "" else String c "") else String c r
  end.

Definition format_controller_config (config : ControllerConfig) : string :=
  address config +:+ " profile=" +:+ quote +:+ controller_profile_name (profile config)
  +:+ quote +:+ " ports="
  +:+ (if decide (ports config = []) then "[]" else "[" +:+ format_ports (ports config) +:+ "]").

(** ** Status records *)

Record VdsdControlControllerStatus := mk_controller_status {
  cs_address : string;
  connected : bool;
  cs_path : string
}.
Record VdsdControlPortStatus := mk_port_status {
  ps_port : Z;
  ps_path : string;
  occupied : bool;
  ps_address : string;
  ps_device_address : string
}.
Record VdsdControlPortCandidate := mk_candidate { cand_port : Z; cand_path : string }.
Record VdsdControlPortBinding := mk_binding {
  bind_port : Z;
  bind_address : string;
  bind_device_address : string
}.

Definition find_first {A} (P : A -> bool) (l : list A) : option A :=
  snd <$> list_find (fun x => P x = true) l.

Definition build_vdsd_control_port_statuses (candidates : list VdsdControlPortCandidate)
    (bindings : list VdsdControlPortBinding) : list VdsdControlPortStatus :=
  (fun candidate =>
     let binding := find_first (fun item => bind_port item =? cand_port candidate) bindings in
     mk_port_status (cand_port candidate) (cand_path candidate)
       (bool_decide (is_Some binding))
       (from_option bind_address "" binding)
       (from_option bind_device_address "" binding)) <$> candidates.

(** ** Replies *)

(** Fields with commas between them. *)
Fixpoint join_commas (fields : list string) : string :=
  match fields with
  | [] => ""
  | [f] => f
  | f :: rest => f +:+ "," +:+ join_commas rest
  end.

Definition braces (fields : list string) : string :=
  "{" +:+ join_commas fields +:+ "}" +:+ String c_newline "".

Definition controller_line (controllers : list VdsdControlControllerStatus)
    (controller : ControllerConfig) : string :=
  let status := find_first (fun s => bool_decide (cs_address s = address controller)) controllers in
  let is_connected := match status with Some s => connected s | None => false end in
  braces
    [jsonl_string_field "address" (address controller);
     jsonl_bool_field "connected" is_connected;
     jsonl_string_field "path" (if is_connected then from_option cs_path "" status else "");
     jsonl_string_field "profile" (controller_profile_name (profile controller));
     jsonl_unsigned_array_field "ports" (ports controller)].

Fixpoint concat_lines (lines : list string) : string :=
  match lines with
  | [] => ""
  | l :: rest => l +:+ concat_lines rest
  end.

Definition format_control_list_reply (db : ConfigDb)
    (statuses : list VdsdControlControllerStatus) : string :=
  concat_lines (controller_line statuses <$> controllers db).

Definition find_controller_target_by_address (targets : list ControllerTarget) (a : string) :
    option ControllerTarget :=
  find_first (fun t => bool_decide (t_address t = a)) targets.

Definition format_control_target_jsonl (target : ControllerTarget) (registered : bool) : string :=
  braces
    [jsonl_string_field "address" (t_address target);
     jsonl_string_field "name" (t_name target);
     jsonl_bool_field "online" (t_online target);
     jsonl_bool_field "registered" registered].

(** [std::sort] by address; targets have distinct addresses. *)
Definition target_le (x y : ControllerTarget) : Prop :=
  String.leb (t_address x) (t_address y) = true.

#[export] Instance target_le_dec x y : Decision (target_le x y).
Proof. unfold target_le. apply _. Defined.

Fixpoint target_lines (db : ConfigDb) (targets : list ControllerTarget) : result string :=
  match targets with
  | [] => Ok ""
  | t :: rest =>
      c ← find_controller_config_by_address db (t_address t);
      text ← target_lines db rest;
      Ok (format_control_target_jsonl t (bool_decide (is_Some c)) +:+ text)
  end.

Definition format_control_list_targets_reply (db : ConfigDb) (targets : list ControllerTarget) :
    result string :=
  target_lines db (merge_sort target_le targets).

Definition port_status_paths (statuses : list VdsdControlPortStatus) : list string :=
  ps_path <$> statuses.

Definition format_control_error_reply (error : string) : string :=
  braces [jsonl_bool_field "OK" false; jsonl_string_field "error" error].

Definition format_control_attach_reply (ok : bool) (error : string) (config : ControllerConfig) :
    string :=
  braces
    [jsonl_bool_field "OK" ok;
     jsonl_string_field "error" error;
     jsonl_string_field "address" (address config);
     jsonl_unsigned_array_field "ports" (ports config);
     jsonl_string_field "profile" (controller_profile_name (profile config))].

Definition format_control_detach_reply (ok : bool) (error a : string) : string :=
  braces
    [jsonl_bool_field "OK" ok; jsonl_string_field "error" error; jsonl_string_field "address" a].

Definition format_control_trace_reply (ok : bool) (error : string) (trace_flags : Z) : string :=
  let scopes :=
    (if trace_enabled trace_flags kTraceInputAudio then [jsonl_string_value "input-audio"] else [])
    ++ (if trace_enabled trace_flags kTraceInputControl then [jsonl_string_value "input-control"] else [])
    ++ (if trace_enabled trace_flags kTraceOutput then [jsonl_string_value "output"] else []) in
  braces
    [jsonl_bool_field "OK" ok;
     jsonl_string_field "error" error;
     jsonl_bool_field "trace" (negb (Z.land trace_flags kTraceAll =? 0));
     quote +:+ "scope" +:+ quote +:+ ":[" +:+ join_commas scopes +:+ "]"].

(** ** Handlers *)

Record Vars := mk_vars {
  trace_flags : Z;
  reload_requested : bool;
  log_ : list (LogLevel * string)
}.

(** Run a body with local variables. *)
Definition with_locals {S L A} (init : L) (body : prog (S * L) A) : prog S A :=
  fun s => let '((s', _), r) := body (s, init) in (s', r).
Definition get_locals {S L} : prog (S * L) L := fun s => (s, Ok s.2).
Definition set_locals {S L} (l : L) : prog (S * L) unit := fun s => ((s.1, l), Ok tt).

Definition context : string := "control request".
Definition empty_config : ControllerConfig := mk_config "" Unspecified [].
Definition already_registered_error : string := "address is already registered".
Definition not_attachable_error : string :=
  "address is not paired, not supported, or not attachable; run vdsctl list-targets".
Definition not_registered_error : string := "address is not registered".

(** The locals of attach: [config] and [already_registered]; of detach:
    [address] and [removed]. *)
Abbreviation attach_locals := (ControllerConfig * bool)%type.
Abbreviation detach_locals := (string * bool)%type.

Section Handlers.
Context {W : Type} `{FileStore W}.
Context (pf : Platform).

(** The state the handlers share. *)
Abbreviation state := (W * Vars)%type.

Definition log (level : LogLevel) (message : string) : prog state unit :=
  modify (fun s => (s.1, mk_vars (trace_flags s.2) (reload_requested s.2)
                           (log_ s.2 ++ [(level, message)]))).
Definition set_reload (b : bool) : prog state unit :=
  modify (fun s => (s.1, mk_vars (trace_flags s.2) b (log_ s.2))).
Definition set_trace (flags : Z) : prog state unit :=
  modify (fun s => (s.1, mk_vars flags (reload_requested s.2) (log_ s.2))).

(** *** attach *)

(** The callback of [update_config_db]. *)
Definition attach_update (devices : list string) (db : ConfigDb) (l : attach_locals) :
    attach_locals * result ConfigDb :=
  match find_controller_config_by_address db (address l.1) with
  | Throw e => (l, Throw e)
  | Ok (Some registered) => ((registered, true), Ok db)
  | Ok None =>
      (l, db' ← upsert_controller_config db l.1;
          _ ← validate_config_assignments pf db' devices;
          Ok db')
  end.

(** The body of the [try]: an early reply, or nothing when it runs through. *)
Definition attach_body (fields : list JsonlField) (db_path : string)
    (port_statuses : list VdsdControlPortStatus)
    (list_targets : prog state (list ControllerTarget)) :
    prog (state * attach_locals) (option string) :=
  raw ← lift (require_jsonl_string fields "address" context);
  a ← lift (normalize_bluetooth_address raw);
  current_db ← load_config_db db_path;
  registered ← lift (find_controller_config_by_address current_db a);
  _ ← match registered with
      | Some c => set_locals (c, false)
      | None => mret tt
      end;
  _ ← lift (reject_unknown_jsonl_fields fields ["command"; "address"; "profile"; "ports"] context);
  '(config, _) ← get_locals;
  if decide (address config <> "") then
    _ ← on_first (log Warn ("attach rejected " +:+ already_registered_error +:+ ": "
                            +:+ address config));
    mret (Some (format_control_attach_reply false already_registered_error config))
  else
    _ ← set_locals (mk_config a (profile config) (ports config), false);
    raw_profile ← lift (require_jsonl_string fields "profile" context);
    p ← lift (parse_controller_profile raw_profile);
    _ ← set_locals (mk_config a p (ports config), false);
    ps ← lift (require_jsonl_unsigned_array fields "ports" context);
    _ ← set_locals (mk_config a p ps, false);
    targets ← on_first list_targets;
    match find_controller_target_by_address targets a with
    | None =>
        _ ← on_first (log Warn ("attach rejected " +:+ not_attachable_error));
        mret (Some (format_control_attach_reply false not_attachable_error empty_config))
    | Some _ =>
        let devices := port_status_paths port_statuses in
        _ ← update_config_db db_path (run_callback (attach_update devices));
        '(config, already_registered) ← get_locals;
        if already_registered : bool then
          _ ← on_first (log Warn ("attach rejected " +:+ already_registered_error +:+ ": "
                                  +:+ address config));
          mret (Some (format_control_attach_reply false already_registered_error config))
        else mret None
    end.

Definition handle_attach_control_request (fields : list JsonlField) (db_path : string)
    (port_statuses : list VdsdControlPortStatus)
    (list_targets : prog state (list ControllerTarget)) : prog state string :=
  with_locals (empty_config, false) (
    reply ← try_catch (attach_body fields db_path port_statuses list_targets)
      (fun what => '(config, _) ← get_locals;
                   mret (Some (format_control_attach_reply false what config)));
    match reply with
    | Some r => mret r
    | None =>
        '(config, _) ← get_locals;
        _ ← on_first (set_reload true);
        _ ← on_first (log Info ("attached controller config " +:+ format_controller_config config));
        mret (format_control_attach_reply true "" config)
    end).

(** *** detach *)

Definition detach_update (db : ConfigDb) (l : detach_locals) : detach_locals * result ConfigDb :=
  match remove_controller_config db l.1 with
  | Throw e => (l, Throw e)
  | Ok (db', removed) => ((l.1, removed), Ok db')
  end.

Definition detach_body (fields : list JsonlField) (db_path : string) :
    prog (state * detach_locals) (option string) :=
  raw ← lift (require_jsonl_string fields "address" context);
  a ← lift (normalize_bluetooth_address raw);
  _ ← set_locals (a, false);
  current_db ← load_config_db db_path;
  registered ← lift (find_controller_config_by_address current_db a);
  _ ← match registered with
      | None => set_locals ("", false)
      | Some _ => mret tt
      end;
  _ ← lift (reject_unknown_jsonl_fields fields ["command"; "address"] context);
  '(a', _) ← get_locals;
  if decide (a' = "")
  then mret (Some (format_control_detach_reply false not_registered_error a'))
  else
    _ ← update_config_db db_path (run_callback detach_update);
    mret None.

Definition handle_detach_control_request (fields : list JsonlField) (db_path : string) :
    prog state string :=
  with_locals ("", false) (
    reply ← try_catch (detach_body fields db_path)
      (fun what => '(a, _) ← get_locals;
                   mret (Some (format_control_detach_reply false what a)));
    match reply with
    | Some r => mret r
    | None =>
        '(a, removed) ← get_locals;
        _ ← on_first (set_reload removed);
        _ ← on_first (log Info ((if removed : bool then "detached " else "detach ignored ") +:+ a));
        if removed : bool then mret (format_control_detach_reply true "" a)
        else mret (format_control_detach_reply false not_registered_error "")
    end).

(** *** list, list-targets, trace *)

Definition handle_list_control_request (fields : list JsonlField) (db_path : string)
    (statuses : list VdsdControlControllerStatus) : prog state string :=
  _ ← lift (reject_unknown_jsonl_fields fields ["command"] context);
  db ← load_config_db db_path;
  mret (format_control_list_reply db statuses).

(** The compiler may evaluate the two arguments of the formatter in either
    order; the file is read first here. *)
Definition handle_list_targets_control_request (fields : list JsonlField) (db_path : string)
    (list_targets : prog state (list ControllerTarget)) : prog state string :=
  _ ← lift (reject_unknown_jsonl_fields fields ["command"] context);
  db ← load_config_db db_path;
  targets ← list_targets;
  lift (format_control_list_targets_reply db targets).

(** The [try] of the trace handler; it changes the flags last. *)
Definition trace_body (fields : list JsonlField) : prog state (bool * Z) :=
  _ ← lift (reject_unknown_jsonl_fields fields ["command"; "mode"; "scope"] context);
  mode ← lift (require_jsonl_string fields "mode" context);
  raw_scope ← lift (require_jsonl_string fields "scope" context);
  scope ← lift (parse_trace_scope raw_scope);
  s ← get_state;
  if decide (mode = "on") then
    _ ← set_trace (Z.lor (trace_flags s.2) scope); mret (true, scope)
  else if decide (mode = "off") then
    _ ← set_trace (Z.land (trace_flags s.2) (not32 scope)); mret (false, scope)
  else throw "trace mode must be on or off".

Definition handle_trace_control_request (fields : list JsonlField) : prog state string :=
  r ← try_catch (trace_result ← trace_body fields; mret (inl trace_result))
    (fun what => s ← get_state; mret (inr (format_control_trace_reply false what (trace_flags s.2))));
  match r with
  | inr reply => mret reply
  | inl (enabled, scope) =>
      s ← get_state;
      _ ← log Info ("trace " +:+ trace_scope_name scope +:+ " "
                    +:+ (if enabled : bool then "enabled" else "disabled") +:+ " active="
                    +:+ active_trace_name (trace_flags s.2));
      mret (format_control_trace_reply true "" (trace_flags s.2))
  end.

(** *** The command *)

Definition dispatch_control_command (request db_path : string)
    (statuses : list VdsdControlControllerStatus) (port_statuses : list VdsdControlPortStatus)
    (list_targets : prog state (list ControllerTarget)) : prog state string :=
  fields ← lift (parse_jsonl_object request context);
  command ← lift (require_jsonl_string fields "command" context);
  if decide (command = "attach") then
    handle_attach_control_request fields db_path port_statuses list_targets
  else if decide (command = "detach") then handle_detach_control_request fields db_path
  else if decide (command = "list") then handle_list_control_request fields db_path statuses
  else if decide (command = "list-targets")
  then handle_list_targets_control_request fields db_path list_targets
  else if decide (command = "trace") then handle_trace_control_request fields
  else
    _ ← log Warn ("unknown command: " +:+ command);
    mret (format_control_error_reply ("unknown command: " +:+ command)).

Definition handle_vdsd_control_command (request db_path : string)
    (statuses : list VdsdControlControllerStatus) (port_statuses : list VdsdControlPortStatus)
    (list_targets : prog state (list ControllerTarget)) : prog state string :=
  try_catch (dispatch_control_command request db_path statuses port_statuses list_targets)
    (fun what => mret (format_control_error_reply what)).
End Handlers.
