(* ===== verification/ControlFacts.v ===== *)
(** What the control handlers do to the configuration and to the caller's
    variables. *)
From stdpp Require Import base list strings numbers sorting gmap.
From Stdlib Require Import Ascii ZArith Lia.
From S2P Require Import Prelude Text Common Jsonl Words Log Store Config ConfigFacts ConfigFile Control.

Local Open Scope Z_scope.

(** ** File operations leave the other state alone *)

Section Keeps.
Context {W V L : Type} `{FileStoreLaws W}.

#[export] Instance store_pair_laws : FileStoreLaws (W * V).
Proof.
  split; simpl; unfold on_first; simpl.
  - intros p [w v] q. simpl. pose proof (ensure_content p w q).
    by destruct (ensure_parent_directory p w).
  - intros p [w v] q Hq. simpl. pose proof (lock_content p w q Hq). by destruct (lock_file p w).
  - intros p [w v] q. apply unlock_content.
  - intros p [w v] q. simpl. pose proof (read_content p w q).
    by destruct (read_file_if_exists p w).
  - intros p [w v] w' t. simpl. destruct (read_file_if_exists p w) as [w1 r] eqn:Hr.
    intros [= <- ->]. by apply read_result in Hr.
  - intros p t [w v] w'. simpl. destruct (write_file_atomic p t w) as [w1 r] eqn:Hw.
    intros [= <- ->]. by apply write_ok in Hw.
  - intros p t [w v] w' e. simpl. destruct (write_file_atomic p t w) as [w1 r] eqn:Hw.
    intros [= <- ->]. by apply write_throw in Hw.
  - intros p t [w v] q Hq1 Hq2. simpl. pose proof (write_other p t w q Hq1 Hq2).
    by destruct (write_file_atomic p t w).
Qed.

Lemma load_keeps path (w : W) (v : V) :
  load_config_db path (w, v) =
  ((( load_config_db path w).1, v), (load_config_db path w).2).
Proof.
  unfold load_config_db, with_file_lock, release_after, mbind, prog_bind. simpl.
  unfold on_first. simpl. destruct (ensure_parent_directory path w) as [w1 [[]|e]]; [|done].
  simpl. destruct (lock_file path w1) as [w2 [[]|e]]; [|done]. simpl.
  destruct (read_file_if_exists path w2) as [w3 [t|e]]; [|done]. done.
Qed.

Lemma update_keeps (g : ConfigDb -> L -> L * result ConfigDb) path (w : W) (v : V) l :
  (update_config_db path (run_callback g) ((w, v), l)).1.1.2 = v.
Proof.
  unfold update_config_db, with_file_lock, release_after, mbind, prog_bind. simpl.
  unfold on_first. simpl. destruct (ensure_parent_directory path w) as [w1 [[]|e]]; [|done].
  simpl. destruct (lock_file path w1) as [w2 [[]|e]]; [|done]. simpl.
  destruct (read_file_if_exists path w2) as [w3 [t|e]]; [|done]. unfold lift. simpl.
  destruct (parse_config_db t) as [db|e]; [|done]. unfold run_callback. simpl.
  destruct (g db l) as [l2 [db'|e]]; [|done]. simpl.
  by destruct (write_file_atomic path (serialize_config_db db') w3) as [w4 [[]|e]].
Qed.
End Keeps.

(** ** Small facts *)

Lemma find_normalized db a :
  canonical a ->
  find_controller_config_by_address db a = Ok (find_by_normalized (controllers db) a).
Proof. intros Ha. unfold find_controller_config_by_address. by rewrite Ha. Qed.

Lemma find_by_normalized_map db a c :
  find_by_normalized (controllers db) a = Some c -> db_map db !! a = Some (settings c).
Proof. intros Hf. by rewrite db_map_lookup, Hf. Qed.

Lemma find_by_normalized_map_None db a :
  find_by_normalized (controllers db) a = None -> db_map db !! a = None.
Proof. intros Hf. by rewrite db_map_lookup, Hf. Qed.

Lemma find_first_address (targets : list ControllerTarget) a t :
  find_controller_target_by_address targets a = Some t -> a ∈ t_address <$> targets.
Proof.
  unfold find_controller_target_by_address, find_first.
  destruct (list_find _ targets) as [[i x]|] eqn:Hf; [|done].
  apply list_find_Some in Hf as (Hi & Hx & _). simpl in Hx. apply bool_decide_eq_true in Hx.
  intros _. rewrite <- Hx. apply list_elem_of_fmap. exists x. split; [done|].
  by eapply list_elem_of_lookup_2.
Qed.

(** ** attach *)

Section Attach.
Context {W : Type} `{FileStoreLaws W}.
Context (pf : Platform).
Abbreviation state := (W * Vars)%type.
Context (list_targets : prog state (list ControllerTarget)).
Context (Hvars : forall s, (list_targets s).1.2 = s.2).

(** The three values an attach request names. *)
Definition attach_fields (fields : list JsonlField) (a : string) (p : ControllerProfile)
    (ps : list Z) : Prop :=
  exists raw raw_profile,
    require_jsonl_string fields "address" context = Ok raw /\
    normalize_bluetooth_address raw = Ok a /\
    require_jsonl_string fields "profile" context = Ok raw_profile /\
    parse_controller_profile raw_profile = Ok p /\
    require_jsonl_unsigned_array fields "ports" context = Ok ps.

(** The file went from a database without [a] to the same one with [a] added. *)
Definition attached (path : string) (devices : list string) (w1 w2 : W) (a : string)
    (p : ControllerProfile) (ps : list Z) : Prop :=
  exists db db', parse_config_db (text_of w1 path) = Ok db /\
    find_by_normalized (controllers db) a = None /\
    upsert_controller_config db (mk_config a p ps) = Ok db' /\
    validate_config_assignments pf db' devices = Ok tt /\
    fs_content w2 path = Some (serialize_config_db db').

(** A request that is refused: the file is as it was, or a write error struck
    after the new text was in place. *)
Definition left_alone (fields : list JsonlField) (path : string) (devices : list string)
    (w w' : W) : Prop :=
  fs_content w' path = fs_content w path \/
  (exists db, parse_config_db (text_of w path) = Ok db /\
     fs_content w' path = Some (serialize_config_db db)) \/
  exists a p ps, attach_fields fields a p ps /\ attached path devices w w' a p ps.

(** What the body of the handler can do. *)
Definition attach_effect (fields : list JsonlField) (path : string)
    (statuses : list VdsdControlPortStatus) (w : W) (v : Vars)
    (out : (state * attach_locals) * result (option string)) : Prop :=
  let '(((w', v'), (config, _)), r) := out in
  reload_requested v' = reload_requested v /\ trace_flags v' = trace_flags v /\
  match r with
  | Ok (Some reply) =>
      (exists err c, reply = format_control_attach_reply false err c) /\
      ((forall s, same_files path s.1 (list_targets s).1.1) ->
       left_alone fields path (port_status_paths statuses) w w')
  | Throw _ =>
      (forall s, same_files path s.1 (list_targets s).1.1) ->
      left_alone fields path (port_status_paths statuses) w w'
  | Ok None =>
      exists a p ps s1 w1 targets, attach_fields fields a p ps /\ config = mk_config a p ps /\
        same_files path w s1.1 /\ list_targets s1 = ((w1, v), Ok targets) /\ a ∈ t_address <$> targets /\
        attached path (port_status_paths statuses) w1 w' a p ps
  end.

Lemma left_alone_same fields path devices w w' : same_files path w w' -> left_alone fields path devices w w'.
Proof. intros Hs. left. by apply same_content. Qed.

Lemma left_alone_refl fields path devices w : left_alone fields path devices w w.
Proof. by left. Qed.

Lemma left_alone_trans fields path devices w1 w2 w3 :
  same_files path w1 w2 -> left_alone fields path devices w2 w3 -> left_alone fields path devices w1 w3.
Proof.
  intros Hs. unfold left_alone, attached. by rewrite (same_content _ _ _ Hs), (same_text _ _ _ Hs).
Qed.

(** The part behind the reads: the targets and the update. *)
Lemma attach_tail fields path statuses w v s1 a p ps :
  attach_fields fields a p ps -> canonical a -> same_files path w s1 -> 
  attach_effect fields path statuses w v
    ((targets ← on_first list_targets;
      match find_controller_target_by_address targets a with
      | None =>
          _ ← on_first (log Warn ("attach rejected " +:+ not_attachable_error));
          mret (Some (format_control_attach_reply false not_attachable_error empty_config))
      | Some _ =>
          _ ← update_config_db path (run_callback (attach_update pf (port_status_paths statuses)));
          '(config, already_registered) ← get_locals;
          if already_registered : bool then
            _ ← on_first (log Warn ("attach rejected " +:+ already_registered_error +:+ ": "
                                    +:+ address config));
            mret (Some (format_control_attach_reply false already_registered_error config))
          else mret None
      end) ((s1, v), (mk_config a p ps, false))).
Proof.
  intros Hf Ha Hs. unfold mbind, prog_bind, on_first at 1, log, modify, get_locals, mret, prog_ret.
  cbn [fst snd]. pose proof (Hvars (s1, v)) as Hv. cbn [snd] in Hv.
  destruct (list_targets (s1, v)) as [[w1 v1] lt] eqn:Hlt. simpl in Hv. subst v1.
  assert ((forall s, same_files path s.1 (list_targets s).1.1) -> same_files path w w1) as Hq.
  { intros Hq. specialize (Hq (s1, v)). rewrite Hlt in Hq. by etrans. }
  destruct lt as [targets|e]; [|simpl; eauto using left_alone_same, left_alone_refl].
  destruct (find_controller_target_by_address targets a) as [t|] eqn:Ht;
    [|simpl; eauto 10 using left_alone_same].
  apply find_first_address in Ht.
  pose proof (update_keeps (attach_update pf (port_status_paths statuses)) path w1 v (mk_config a p ps, false)) as Hk.
  destruct (update_config_db path (run_callback (attach_update pf (port_status_paths statuses)))
    ((w1, v), (mk_config a p ps, false)))
    as [[[w2 v2] l2] r] eqn:Hu. simpl in Hk. subst v2.
  apply update_inv in Hu as [_ Hu]. unfold update_outcome in Hu.
  destruct Hu as [(-> & Hsf & e & ->)|(db & Hp & Hl & Hr)].
  { simpl. split_and!; [done..|]. intros Hq'. eapply left_alone_trans; [by apply Hq|].
    by apply left_alone_same. }
  unfold attach_update in Hl, Hr. cbn [fst snd address] in Hl, Hr.
  change (text_of (w1, v) path) with (text_of w1 path) in Hp.
  rewrite find_normalized in Hl, Hr by done.
  destruct (find_by_normalized (controllers db) a) as [c|] eqn:Hfind; simpl in Hl, Hr; subst l2.
  - assert (left_alone fields path (port_status_paths statuses) w1 w2) as Hla.
    { destruct Hr as [[_ Hw]|(e & _ & [Hw|Hw])]; [right; left; eauto|by left|right; left; eauto]. }
    destruct Hr as [[-> _]|(e & -> & _)]; simpl; eauto 10 using left_alone_trans.
  - destruct (upsert_controller_config db (mk_config a p ps)) as [db'|e] eqn:Hup; simpl in Hr.
    2: { destruct Hr as [-> Hsf]. simpl. split_and!; [done..|]. intros Hq'.
         eapply left_alone_trans; [by apply Hq|]. by apply left_alone_same. }
    destruct (validate_config_assignments pf db' _) as [[]|e] eqn:Hval; simpl in Hr.
    2: { destruct Hr as [-> Hsf]. simpl. split_and!; [done..|]. intros Hq'.
         eapply left_alone_trans; [by apply Hq|]. by apply left_alone_same. }
    destruct Hr as [[-> Hw]|(e & -> & Hw)]; simpl.
    + split_and!; [done..|]. exists a, p, ps, (s1, v), w1, targets. split_and!; try done.
      exists db, db'. done.
    + split_and!; [done..|]. intros Hq'. eapply left_alone_trans; [by apply Hq|].
      destruct Hw as [Hw|Hw]; [by left|]. right. right. exists a, p, ps. split; [done|]. exists db, db'. done.
Qed.

Lemma attach_body_effect fields path statuses w v :
  attach_effect fields path statuses w v
    (attach_body pf fields path statuses list_targets ((w, v), (empty_config, false))).
Proof.
  unfold attach_body. unfold mbind at 1, prog_bind at 1, lift at 1.
  destruct (require_jsonl_string fields "address" context) as [raw|e] eqn:Hraw; [|by simpl; auto using left_alone_same, left_alone_refl].
  unfold mbind at 1, prog_bind at 1, lift at 1.
  destruct (normalize_bluetooth_address raw) as [a|e] eqn:Ha; [|by simpl; auto using left_alone_same, left_alone_refl].
  pose proof (normalize_canonical raw a Ha) as Hcan.
  unfold mbind at 1, prog_bind at 1. rewrite !load_keeps. cbn [fst snd].
  destruct (load_config_db path w) as [w1 loaded] eqn:Hload. apply load_inv in Hload as [Hs _].
  cbn [fst snd]. destruct loaded as [db|e]; [|by simpl; auto using left_alone_same, left_alone_refl].
  unfold mbind at 1, prog_bind at 1, lift at 1. rewrite find_normalized by done.
  destruct (find_by_normalized (controllers db) a) as [c|] eqn:Hfind.
  - (* already registered, by the first look *)
    unfold mbind at 1, prog_bind at 1, set_locals at 1. unfold mbind at 1, prog_bind at 1, lift at 1.
    destruct (reject_unknown_jsonl_fields _ _ _) as [[]|e]; [|by simpl; auto using left_alone_same, left_alone_refl].
    apply find_by_normalized_Some in Hfind as [_ Hfind].
    unfold mbind at 1, prog_bind at 1, get_locals at 1. cbn [fst snd address].
    rewrite decide_True by (rewrite Hfind; by apply canonical_nonempty). simpl. eauto 10 using left_alone_same.
  - unfold mbind at 1, prog_bind at 1, mret at 1, prog_ret at 1.
    unfold mbind at 1, prog_bind at 1, lift at 1.
    destruct (reject_unknown_jsonl_fields _ _ _) as [[]|e]; [|by simpl; auto using left_alone_same, left_alone_refl].
    unfold mbind at 1, prog_bind at 1, get_locals at 1. cbn [fst snd address empty_config].
    rewrite decide_False by tauto.
    unfold mbind at 1, prog_bind at 1, set_locals at 1. unfold mbind at 1, prog_bind at 1, lift at 1.
    destruct (require_jsonl_string fields "profile" context) as [rp|e] eqn:Hrp; [|by simpl; auto using left_alone_same, left_alone_refl].
    unfold mbind at 1, prog_bind at 1, lift at 1.
    destruct (parse_controller_profile rp) as [p|e] eqn:Hp; [|by simpl; auto using left_alone_same, left_alone_refl].
    unfold mbind at 1, prog_bind at 1, set_locals at 1. unfold mbind at 1, prog_bind at 1, lift at 1.
    destruct (require_jsonl_unsigned_array fields "ports" context) as [ps|e] eqn:Hps; [|by simpl; auto using left_alone_same, left_alone_refl].
    unfold mbind at 1, prog_bind at 1, set_locals at 1. cbn [fst snd].
    apply attach_tail; [|done|done]. exists raw, rp. done.
Qed.
End Attach.

(** ** detach *)

Section Detach.
Context {W : Type} `{FileStoreLaws W}.

(** The file went from a database with [a] to the same one without it. *)
Definition detached (path : string) (w w' : W) (a : string) : Prop :=
  exists db db', parse_config_db (text_of w path) = Ok db /\
    is_Some (find_by_normalized (controllers db) a) /\
    remove_controller_config db a = Ok (db', true) /\
    fs_content w' path = Some (serialize_config_db db').

Definition detach_effect (fields : list JsonlField) (path : string) (w : W) (v : Vars)
    (out : ((W * Vars) * detach_locals) * result (option string)) : Prop :=
  let '(((w', v'), (a', removed)), r) := out in
  v' = v /\
  match r with
  | Ok (Some reply) => (exists err a, reply = format_control_detach_reply false err a) /\ same_files path w w'
  | Throw _ =>
      fs_content w' path = fs_content w path \/ exists a, canonical a /\ detached path w w' a
  | Ok None =>
      exists raw, require_jsonl_string fields "address" context = Ok raw /\
        normalize_bluetooth_address raw = Ok a' /\ removed = true /\ detached path w w' a'
  end.

Lemma remove_registered db a c :
  canonical a -> find_by_normalized (controllers db) a = Some c ->
  exists db', remove_controller_config db a = Ok (db', true).
Proof.
  intros Ha Hc. destruct (remove_controller_config db a) as [[db' removed]|e] eqn:Hr.
  - pose proof (remove_map db a db' removed Hr) as (b & Hb & _ & ->).
    assert (b = a) as -> by congruence. exists db'.
    by rewrite bool_decide_eq_true_2 by (rewrite (find_by_normalized_map db a c Hc); eauto).
  - unfold remove_controller_config in Hr. by rewrite Ha in Hr.
Qed.

Lemma detach_body_effect fields path (w : W) v :
  detach_effect fields path w v (detach_body fields path ((w, v), ("", false))).
Proof.
  unfold detach_body. unfold mbind at 1, prog_bind at 1, lift at 1.
  destruct (require_jsonl_string fields "address" context) as [raw|e] eqn:Hraw; [|by simpl; auto].
  unfold mbind at 1, prog_bind at 1, lift at 1.
  destruct (normalize_bluetooth_address raw) as [a|e] eqn:Ha; [|by simpl; auto].
  pose proof (normalize_canonical raw a Ha) as Hcan.
  unfold mbind at 1, prog_bind at 1, set_locals at 1. unfold mbind at 1, prog_bind at 1.
  cbn [fst snd]. rewrite !load_keeps. cbn [fst snd].
  destruct (load_config_db path w) as [w1 loaded] eqn:Hload. apply load_inv in Hload as [Hs Hdb].
  cbn [fst snd]. destruct loaded as [db|e]; [|simpl; split; [done|]; left; by apply same_content].
  specialize (Hdb db eq_refl). unfold mbind at 1, prog_bind at 1, lift at 1.
  rewrite find_normalized by done.
  destruct (find_by_normalized (controllers db) a) as [c|] eqn:Hfind.
  - unfold mbind at 1, prog_bind at 1, mret at 1, prog_ret at 1.
    unfold mbind at 1, prog_bind at 1, lift at 1.
    destruct (reject_unknown_jsonl_fields _ _ _) as [[]|e];
      [|simpl; split; [done|]; left; by apply same_content].
    unfold mbind at 1, prog_bind at 1, get_locals at 1. cbn [fst snd].
    rewrite decide_False by by apply canonical_nonempty.
    unfold mbind at 1, prog_bind at 1.
    pose proof (update_keeps detach_update path w1 v (a, false)) as Hk.
    destruct (update_config_db path (run_callback detach_update) ((w1, v), (a, false)))
      as [[[w2 v2] l2] r] eqn:Hu. simpl in Hk. subst v2.
    apply update_inv in Hu as [_ Hu]. unfold update_outcome in Hu.
    destruct Hu as [(-> & Hsf & e & ->)|(db1 & Hp & Hl & Hr)].
    { simpl. split; [done|]. left. rewrite <- (same_content _ _ _ Hs). exact (same_content _ _ _ Hsf). }
    change (text_of (w1, v) path) with (text_of w1 path) in Hp.
    rewrite (same_text w w1) in Hp by done. assert (db1 = db) as -> by congruence.
    destruct (remove_registered db a c Hcan Hfind) as [db' Hrem].
    unfold detach_update in Hl, Hr. cbn [fst] in Hl, Hr. rewrite Hrem in Hl, Hr.
    cbn [fst snd] in Hl, Hr. subst l2.
    assert (fs_content w2 path = Some (serialize_config_db db') -> detached path w w2 a) as Hd.
    { intros Hw. exists db, db'. split_and!; eauto. }
    destruct Hr as [[-> Hw]|(e & -> & Hw)]; simpl.
    + split; [done|]. exists raw. split_and!; auto.
    + split; [done|]. destruct Hw as [Hw|Hw]; [left|right; eauto]. rewrite <- (same_content _ _ _ Hs). exact Hw.
  - unfold mbind at 1, prog_bind at 1, set_locals at 1. unfold mbind at 1, prog_bind at 1, lift at 1.
    destruct (reject_unknown_jsonl_fields _ _ _) as [[]|e];
      [|simpl; split; [done|]; left; by apply same_content].
    unfold mbind at 1, prog_bind at 1, get_locals at 1. cbn [fst snd].
    rewrite decide_True by done. simpl. split; [done|]. split; [eauto|done].
Qed.
End Detach.

(** ** Trace scopes *)

(** The three flags as a set of bits. *)
Definition trace_ok (flags : Z) : Prop := 0 <= flags < 8.

Lemma trace_item_ok item flags flags' :
  trace_ok flags -> trace_item item flags = Ok flags' -> trace_ok flags' /\ Z.lor flags flags' = flags'.
Proof.
  intros Hf. unfold trace_item, trace_ok in *. by_cases_below flags 8;
    repeat case_decide; intros [= <-]; (split; [by vm_compute|reflexivity]).
Qed.

Lemma parse_trace_items_ok scope item flags flags' :
  trace_ok flags -> parse_trace_items scope item flags = Ok flags' -> trace_ok flags'.
Proof.
  revert item flags. induction scope as [|c rest IH]; intros item flags Hf; simpl.
  - intros Hi. by apply trace_item_ok in Hi as [? _].
  - case_decide; [|by apply IH]. intros (f1 & Hi & Hr)%result_bind_ok.
    apply trace_item_ok in Hi as [Hi _]; [|done]. by eapply IH.
Qed.

Lemma parse_trace_scope_range scope flags : parse_trace_scope scope = Ok flags -> trace_ok flags.
Proof. by apply parse_trace_items_ok. Qed.

Lemma trace_name_roundtrip flags :
  0 < flags < 8 -> parse_trace_scope (trace_scope_name flags) = Ok flags.
Proof.
  intros Hf. by_cases_below flags 8; [lia|reflexivity..].
Qed.

(** ** The trace request *)

Definition trace_request_ok (fields : list JsonlField) (mode : string) (scope : Z) : Prop :=
  reject_unknown_jsonl_fields fields ["command"; "mode"; "scope"] context = Ok tt /\
  require_jsonl_string fields "mode" context = Ok mode /\ (mode = "on" \/ mode = "off") /\
  exists raw, require_jsonl_string fields "scope" context = Ok raw /\
    parse_trace_scope raw = Ok scope.

(** The flags after a request: the bits of the scope are set, or cleared. *)
Definition traced (mode : string) (scope flags : Z) : Z :=
  if decide (mode = "on") then Z.lor flags scope else Z.land flags (not32 scope).

Lemma traced_bit mode scope flags i :
  is_u32 flags -> 0 <= i -> 
  Z.testbit (traced mode scope flags) i =
  if decide (mode = "on") then Z.testbit flags i || Z.testbit scope i
  else Z.testbit flags i && negb (Z.testbit scope i).
Proof.
  intros Hf Hi. unfold traced. case_decide; [apply Z.lor_spec|].
  rewrite Z.land_spec. unfold not32. rewrite Z.lxor_spec.
  destruct (decide (i < 32)) as [Hlt|Hge].
  - change (2 ^ 32 - 1) with (Z.ones 32). rewrite Z.ones_spec_low by lia.
    by rewrite xorb_true_r.
  - unfold is_u32 in Hf. rewrite (proj1 (below_pow_testbit 32 flags ltac:(lia) (proj1 Hf)) (proj2 Hf) i ltac:(lia)).
    done.
Qed.

Lemma trace_body_spec {W} `{FileStore W} fields (w : W) v :
  (exists mode scope, trace_request_ok fields mode scope /\
     trace_body fields (w, v) =
       ((w, mk_vars (traced mode scope (trace_flags v)) (reload_requested v) (log_ v)),
        Ok (bool_decide (mode = "on"), scope))) \/
  ((forall mode scope, ~ trace_request_ok fields mode scope) /\
   exists e, trace_body fields (w, v) = ((w, v), Throw e)).
Proof.
  unfold trace_body, trace_request_ok. unfold mbind, prog_bind, lift, get_state.
  destruct (reject_unknown_jsonl_fields _ _ _) as [[]|e]; [|right; split; [intros ? ? (?&?&?&?&?&?); congruence|eauto]].
  destruct (require_jsonl_string fields "mode" context) as [mode|e];
    [|right; split; [intros ? ? (?&?&?&?&?&?); congruence|eauto]].
  destruct (require_jsonl_string fields "scope" context) as [raw|e];
    [|right; split; [intros ? ? (?&?&?&?&?&?); congruence|eauto]].
  destruct (parse_trace_scope raw) as [scope|e] eqn:Hs; [|right; split; [intros ? ? (?&?&?&?&?&?); congruence|eauto]].
  case_decide as Hon; [|case_decide as Hoff].
  - left. exists mode, scope. split; [by eauto 10|]. by subst.
  - left. exists mode, scope. split; [by eauto 10|]. by subst.
  - right. split; [|by eexists]. intros ? ? (? & [= <-] & [?|?] & _); congruence.
Qed.
