(* ===== verification/Supervisor.v ===== *)
(** The supervisor's bookkeeping (src/src/vdsd_common.cc): which warnings were
    reported, when a failed worker may be started again, whether a worker may be
    started on a port, and whether a running one no longer matches the database. *)
From stdpp Require Import base list strings numbers sorting gmap.
From Stdlib Require Import Ascii ZArith Lia.
From S2P Require Import Prelude Text Common Jsonl Config ConfigFacts.

Local Open Scope Z_scope.

(** ** Definitions *)

(** The options the daemon takes on every platform. *)
Record VdsdCommonOptions := mk_options {
  db_path : string;
  log_path : string;
  help_requested : bool
}.

Definition kDefaultLogPath (pf : Platform) : string :=
  match pf with
  | Windows => "C:\ProgramData\vDS\vdsd.log"
  | Linux => "/var/log/vdsd.log"
  end.

Definition default_vdsd_common_options (pf : Platform) : VdsdCommonOptions :=
  mk_options (kDefaultDbPath pf) (kDefaultLogPath pf) false.

Definition vdsd_usage (pf : Platform) (version build_year platform_options : string) : string :=
  "vdsd (" +:+ version +:+ "): vDS daemon - Copyright (C) " +:+ build_year
  +:+ " Jihong Min" +:+ String c_newline ("usage:" +:+ String c_newline
  ("  vdsd [--db-path " +:+ kDefaultDbPath pf +:+ "] [--log " +:+ kDefaultLogPath pf +:+ "]"
   +:+ (if decide (platform_options = "") then "" else " " +:+ platform_options)
   +:+ String c_newline "")).

(** [parse_vdsd_common_option] at [argv[index]]: the options and the index behind
    what it read, or nothing when the argument is not one of them. *)
Definition parse_vdsd_common_option (argv : list string) (index : nat)
    (options : VdsdCommonOptions) : result (option (VdsdCommonOptions * nat)) :=
  let arg := nth index argv "" in
  if decide (arg = "--db-path") then
    if (length argv <=? index + 1)%nat then Throw "--db-path requires a path"
    else Ok (Some (mk_options (nth (index + 1) argv "") (log_path options) (help_requested options),
                   (index + 1)%nat))
  else if decide (arg = "--log") then
    if (length argv <=? index + 1)%nat then Throw "--log requires a path"
    else Ok (Some (mk_options (db_path options) (nth (index + 1) argv "") (help_requested options),
                   (index + 1)%nat))
  else if decide (arg = "--help" \/ arg = "-h") then
    Ok (Some (mk_options (db_path options) (log_path options) true, index))
  else Ok None.

(** [std::vector::erase(std::remove_if(...))] *)
Definition erase_if {A} (P : A -> bool) (l : list A) : list A := filter (fun x => P x = false) l.

Definition remember_vdsd_warning (warnings : list string) (key : string) : list string * bool :=
  if decide (key ∈ warnings) then (warnings, false) else (warnings ++ [key], true).

Definition forget_vdsd_warning (warnings : list string) (key : string) : list string :=
  erase_if (fun item => bool_decide (item = key)) warnings.

(** [existing.rfind(prefix, 0) == 0] *)
Definition starts_with (prefix text : string) : bool :=
  match strip_prefix prefix text with Some _ => true | None => false end.

Definition remember_vdsd_warning_state (warnings : list string) (key state : string) :
    list string * bool :=
  let prefix := push_back key c_newline in
  let entry := prefix +:+ state in
  if decide (entry ∈ warnings) then (warnings, false)
  else (erase_if (starts_with prefix) warnings ++ [entry], true).

Definition forget_vdsd_warning_state (warnings : list string) (key : string) : list string :=
  erase_if (starts_with (push_back key c_newline)) warnings.

Inductive VdsdWorkerLaunchStatus :=
  | Ready
  | VirtualPortProviderUnavailable
  | DeviceAddressReserved
  | NoAvailablePort.

Record VdsdWorkerLaunchDecision := mk_decision {
  d_status : VdsdWorkerLaunchStatus;
  d_config : ControllerConfig;
  d_port : Z;
  d_device_address : string
}.

Definition select_vdsd_worker_launch_decision (config : ControllerConfig)
    (available_ports reserved_ports : list Z) (device_address : string)
    (virtual_port_provider_available : bool) (reserved_device_addresses : list string) :
    VdsdWorkerLaunchDecision :=
  if negb virtual_port_provider_available then
    mk_decision VirtualPortProviderUnavailable config 0 device_address
  else if decide (device_address ∈ reserved_device_addresses) then
    mk_decision DeviceAddressReserved config 0 device_address
  else
    match select_controller_config_port config available_ports reserved_ports with
    | None => mk_decision NoAvailablePort config 0 device_address
    | Some port =>
        mk_decision Ready (mk_config (address config) (profile config) [port]) port device_address
    end.

Definition vdsd_worker_config_is_stale (db : ConfigDb) (a : string) (p : ControllerProfile)
    (port : Z) (port_enabled : bool) : result bool :=
  config ← find_controller_config_by_address db a;
  Ok match config with
     | None => true
     | Some c => bool_decide (profile c <> p) || negb (controller_config_allows_port c port)
                 || negb port_enabled
     end.

(** A time is the [steady_clock] count. *)
Record VdsdWorkerFailureBackoff := mk_backoff { b_address : string; retry_after : Z }.

Fixpoint record_vdsd_worker_failure (backoffs : list VdsdWorkerFailureBackoff) (a : string)
    (after : Z) : list VdsdWorkerFailureBackoff :=
  match backoffs with
  | [] => [mk_backoff a after]
  | b :: rest =>
      if decide (b_address b = a) then mk_backoff (b_address b) after :: rest
      else b :: record_vdsd_worker_failure rest a after
  end.

Fixpoint consume_vdsd_worker_retry (backoffs : list VdsdWorkerFailureBackoff) (a : string)
    (now : Z) : list VdsdWorkerFailureBackoff * bool :=
  match backoffs with
  | [] => ([], true)
  | b :: rest =>
      if decide (b_address b = a) then
        if now <? retry_after b then (b :: rest, false) else (rest, true)
      else let '(rest', r) := consume_vdsd_worker_retry rest a now in (b :: rest', r)
  end.

(** ** The warnings as a map from keys to states *)

(** The key and the state of an entry. *)
Definition entry_pair (entry : string) : string * string :=
  let '(key, rest) := split_at c_newline entry in (key, default "" rest).

Definition warning_map (warnings : list string) : gmap string string :=
  list_to_map (entry_pair <$> warnings).

Definition no_newline (key : string) : bool :=
  str_forall (fun d => bool_decide (d <> c_newline)) key.

(** One entry per key, each a key and a state. *)
Definition warnings_ok (warnings : list string) : Prop :=
  NoDup ((entry_pair <$> warnings).*1) /\
  Forall (fun e => exists key state, no_newline key = true /\ e = push_back key c_newline +:+ state)
    warnings.

Lemma entry_pair_app key state :
  no_newline key = true -> entry_pair (push_back key c_newline +:+ state) = (key, state).
Proof. intros Hk. unfold entry_pair. rewrite push_back_app. by rewrite split_at_app. Qed.

Lemma entry_inj key state key' state' :
  no_newline key = true -> no_newline key' = true ->
  push_back key c_newline +:+ state = push_back key' c_newline +:+ state' ->
  key = key' /\ state = state'.
Proof.
  intros Hk Hk' He. pose proof (entry_pair_app key state Hk) as H1.
  rewrite He, entry_pair_app in H1 by done. naive_solver.
Qed.

Lemma starts_with_entry key key' state :
  no_newline key = true -> no_newline key' = true ->
  starts_with (push_back key c_newline) (push_back key' c_newline +:+ state) = bool_decide (key' = key).
Proof.
  intros Hk Hk'. unfold starts_with. destruct (strip_prefix _ _) as [r|] eqn:Hs.
  - apply strip_prefix_Some in Hs. apply entry_inj in Hs as [-> _]; [|done..].
    by rewrite bool_decide_eq_true_2.
  - rewrite bool_decide_eq_false_2; [done|]. intros ->. by rewrite strip_prefix_app in Hs.
Qed.

Lemma warning_lookup ws key state :
  warnings_ok ws -> no_newline key = true ->
  warning_map ws !! key = Some state <-> push_back key c_newline +:+ state ∈ ws.
Proof.
  intros [Hnd Hall] Hk. unfold warning_map. rewrite <- elem_of_list_to_map by done.
  rewrite list_elem_of_fmap. rewrite Forall_forall in Hall. split.
  - intros (e & He & Hin). destruct (Hall e Hin) as (k & s & Hks & ->).
    rewrite entry_pair_app in He by done. congruence.
  - intros Hin. eexists. by rewrite entry_pair_app.
Qed.

Lemma erase_entries_ok ws P : warnings_ok ws -> warnings_ok (erase_if P ws).
Proof.
  unfold warnings_ok, erase_if. intros [Hnd Hall]. split.
  - revert Hnd. clear. induction ws as [|w ws IH]; simpl; [done|]. rewrite !filter_cons.
    intros [Hn Hnd]%NoDup_cons. case_decide; [|auto]. simpl. apply NoDup_cons. split; [|auto].
    rewrite !list_elem_of_fmap in *. intros (x & Hx & (y & -> & [_ Hy]%list_elem_of_filter)%list_elem_of_fmap).
    apply Hn. exists (entry_pair y). split; [done|]. apply list_elem_of_fmap. eauto.
  - rewrite Forall_forall in *. intros e [_ He]%list_elem_of_filter. auto.
Qed.

Lemma erase_entries_map ws key :
  warnings_ok ws -> no_newline key = true ->
  warning_map (erase_if (starts_with (push_back key c_newline)) ws) = delete key (warning_map ws).
Proof.
  intros Hok Hk. pose proof (erase_entries_ok ws (starts_with (push_back key c_newline)) Hok) as Hok'.
  apply map_eq. intros k. apply option_eq. intros s. rewrite lookup_delete_Some.
  destruct Hok as [Hnd Hall], Hok' as [Hnd' _]. unfold warning_map.
  rewrite <- !elem_of_list_to_map by done. rewrite !list_elem_of_fmap. rewrite Forall_forall in Hall.
  unfold erase_if. setoid_rewrite list_elem_of_filter. split.
  - intros (e & He & Hs & Hin). destruct (Hall e Hin) as (k' & s' & Hk' & ->).
    rewrite starts_with_entry in Hs by done. apply bool_decide_eq_false in Hs.
    rewrite entry_pair_app in He by done. split; [congruence|]. exists (push_back k' c_newline +:+ s').
    by rewrite entry_pair_app.
  - intros (Hne & e & He & Hin). destruct (Hall e Hin) as (k' & s' & Hk' & ->).
    rewrite entry_pair_app in He by done. injection He as -> ->.
    exists (push_back k' c_newline +:+ s'). rewrite entry_pair_app, starts_with_entry by done.
    split_and!; [done| |done]. apply bool_decide_eq_false. congruence.
Qed.

(** ** The backoffs as a map from addresses to times *)

Definition backoff_pair (b : VdsdWorkerFailureBackoff) : string * Z := (b_address b, retry_after b).
Definition backoff_map (bs : list VdsdWorkerFailureBackoff) : gmap string Z :=
  list_to_map (backoff_pair <$> bs).
Definition backoffs_ok (bs : list VdsdWorkerFailureBackoff) : Prop := NoDup (b_address <$> bs).

Lemma backoff_cons b bs : backoff_map (b :: bs) = <[b_address b := retry_after b]> (backoff_map bs).
Proof. done. Qed.

Lemma record_addresses bs a t c :
  c ∈ b_address <$> record_vdsd_worker_failure bs a t <-> c = a \/ c ∈ b_address <$> bs.
Proof.
  induction bs as [|b bs IH]; simpl; [set_solver|]. case_decide; simpl; [subst; set_solver|].
  rewrite !elem_of_cons, IH. naive_solver.
Qed.

Lemma record_ok bs a t : backoffs_ok bs -> backoffs_ok (record_vdsd_worker_failure bs a t).
Proof.
  unfold backoffs_ok. induction bs as [|b bs IH]; simpl.
  - intros _. apply NoDup_singleton.
  - intros [Hn Hnd]%NoDup_cons. case_decide; simpl; apply NoDup_cons; [done|].
    split; [|auto]. rewrite record_addresses. naive_solver.
Qed.

Lemma record_map bs a t :
  backoff_map (record_vdsd_worker_failure bs a t) = <[a := t]> (backoff_map bs).
Proof.
  induction bs as [|b bs IH]; simpl; [done|]. case_decide as Ha; rewrite !backoff_cons; simpl.
  - subst. by rewrite insert_insert_eq.
  - rewrite IH. by rewrite insert_insert_ne.
Qed.

Lemma backoff_map_None bs a : a ∉ b_address <$> bs -> backoff_map bs !! a = None.
Proof.
  intros Hn. apply not_elem_of_list_to_map_1. rewrite <- list_fmap_compose. exact Hn.
Qed.

Lemma consume_spec bs a now bs' r :
  backoffs_ok bs -> consume_vdsd_worker_retry bs a now = (bs', r) ->
  backoffs_ok bs' /\ (forall c, c ∈ b_address <$> bs' -> c ∈ b_address <$> bs) /\
  match backoff_map bs !! a with
  | Some t => if now <? t then r = false /\ bs' = bs
              else r = true /\ backoff_map bs' = delete a (backoff_map bs)
  | None => r = true /\ bs' = bs
  end.
Proof.
  unfold backoffs_ok. revert bs' r. induction bs as [|b bs IH]; intros bs' r; simpl.
  - intros Hnd [= <- <-]. by rewrite backoff_map_None by apply not_elem_of_nil.
  - intros [Hn Hnd]%NoDup_cons. rewrite backoff_cons. case_decide as Ha.
    + subst a. rewrite lookup_insert_eq. destruct (Z.ltb_spec now (retry_after b)); intros [= <- <-].
      * split_and!; [by apply NoDup_cons|done..].
      * split_and!; [done|set_solver|done|]. rewrite delete_insert_eq.
        by rewrite delete_id by by apply backoff_map_None.
    + rewrite lookup_insert_ne by done.
      destruct (consume_vdsd_worker_retry bs a now) as [bs1 r1] eqn:Hc. intros [= <- <-].
      destruct (IH bs1 r1 Hnd eq_refl) as (Hok & Hsub & Hr). split_and!; simpl.
      * apply NoDup_cons. split; [|done]. intros Hin. apply Hn. auto.
      * set_solver.
      * destruct (backoff_map bs !! a) as [t|]; [|naive_solver].
        destruct (now <? t); destruct Hr as [-> Hr]; (split; [done|]); [by rewrite Hr|].
        rewrite backoff_cons, Hr. by rewrite delete_insert_ne.
Qed.

(** ** Facts used by the properties *)

Lemma remember_state_spec ws key state :
  warnings_ok ws -> no_newline key = true ->
  let '(ws', report) := remember_vdsd_warning_state ws key state in
  warnings_ok ws' /\ report = bool_decide (warning_map ws !! key <> Some state) /\
  warning_map ws' = <[key := state]> (warning_map ws).
Proof.
  intros Hok Hk. unfold remember_vdsd_warning_state. case_decide as Hin.
  - apply warning_lookup in Hin; [|done..]. rewrite bool_decide_eq_false_2 by tauto.
    by rewrite insert_id.
  - pose proof (erase_entries_ok ws (starts_with (push_back key c_newline)) Hok) as [Hnd Hall].
    pose proof (erase_entries_map ws key Hok Hk) as Hm.
    assert (key ∉ (entry_pair <$> erase_if (starts_with (push_back key c_newline)) ws).*1) as Hnew.
    { apply not_elem_of_list_to_map. change (warning_map (erase_if (starts_with (push_back key c_newline)) ws) !! key = None).
      by rewrite Hm, lookup_delete_eq. }
    split_and!.
    + split; [rewrite !fmap_app; apply NoDup_app|apply Forall_app_2; [done|apply Forall_singleton; eauto]].
      simpl. rewrite entry_pair_app by done. split_and!; [done|set_solver|apply NoDup_singleton].
    + symmetry. apply bool_decide_eq_true. by rewrite warning_lookup.
    + unfold warning_map in *. rewrite fmap_app, list_to_map_app. simpl. rewrite entry_pair_app by done.
      apply map_eq. intros k. rewrite Hm. rewrite lookup_union, lookup_insert.
      case_decide as Hkk; [subst; by rewrite lookup_delete_eq, lookup_insert_eq|].
      rewrite lookup_delete_ne, lookup_insert_ne, lookup_empty by done. by destruct (list_to_map (M := gmap string string) _ !! k).
Qed.

Lemma find_by_normalized_In cs c :
  NoDup (address <$> cs) -> c ∈ cs -> find_by_normalized cs (address c) = Some c.
Proof.
  induction cs as [|d cs IH]; [by intros _ ?%elem_of_nil|]. rewrite fmap_cons, find_by_normalized_cons.
  intros [Hn Hnd]%NoDup_cons [->|Hin]%elem_of_cons; [by rewrite decide_True|].
  rewrite decide_False; [auto|]. intros He. apply Hn. rewrite He. by apply list_elem_of_fmap_2.
Qed.

Lemma record_not_stale db config p :
  db_ok db -> config ∈ controllers db -> controller_config_allows_port config p = true ->
  vdsd_worker_config_is_stale db (address config) (profile config) p true = Ok false.
Proof.
  intros [Hall Hnd] Hin Hp. unfold vdsd_worker_config_is_stale, find_controller_config_by_address.
  rewrite Forall_forall in Hall. destruct (Hall config Hin) as [Ha _]. unfold canonical in Ha.
  rewrite Ha. cbn [mbind result_bind]. rewrite find_by_normalized_In by done. rewrite Hp.
  by rewrite bool_decide_eq_false_2 by tauto.
Qed.
