(* ===== verification/Ctl.v ===== *)
(** The command line tool (src/src/vdsctl_common.cc): its arguments, the
    requests it sends, and its exit code and output.

    [argv] is the list of arguments, so [argc] is its length.  Sending a request
    to the daemon's socket or pipe is the platform's [request_control].  At the end, what
    the daemon makes of the requests. *)
From stdpp Require Import base list strings numbers sorting gmap.
From Stdlib Require Import Ascii ZArith Lia.
From S2P Require Import Prelude Text Common Jsonl Config Control Supervisor.
From S2P Require Import ConfigFacts Log Store ControlFacts.

Inductive VdsctlCommand := Attach | Detach | ListCommand | ListTargets | Trace | Status | Set_.
Record VdsctlTraceCommand := mk_trace { enabled : bool; scope : string }.

(** ** Requests *)

Definition attach_request (config : ControllerConfig) : string :=
  "{" +:+ jsonl_string_field "command" "attach" +:+ ","
      +:+ jsonl_string_field "address" (address config) +:+ ","
      +:+ jsonl_string_field "profile" (controller_profile_name (profile config)) +:+ ","
      +:+ jsonl_unsigned_array_field "ports" (ports config) +:+ String "}" (String c_newline "").

Definition detach_request (a : string) : string :=
  "{" +:+ jsonl_string_field "command" "detach" +:+ ","
      +:+ jsonl_string_field "address" a +:+ String "}" (String c_newline "").

(** A request with a command and no more. *)
Definition bare_request (command : string) : string :=
  "{" +:+ quote +:+ "command" +:+ quote +:+ ":" +:+ quote +:+ command +:+ quote
      +:+ String "}" (String c_newline "").
Definition list_request : string := bare_request "list".
Definition status_request : string := bare_request "status".
Definition list_targets_request : string := bare_request "list-targets".

Definition set_request (param value : string) : string :=
  "{" +:+ jsonl_string_field "command" "set" +:+ ","
      +:+ jsonl_string_field "param" param +:+ ","
      +:+ jsonl_string_field "value" value +:+ String "}" (String c_newline "").

Definition trace_request (trace : VdsctlTraceCommand) : string :=
  "{" +:+ jsonl_string_field "command" "trace" +:+ ","
      +:+ jsonl_string_field "mode" (if enabled trace then "on" else "off") +:+ ","
      +:+ jsonl_string_field "scope" (scope trace) +:+ String "}" (String c_newline "").

(** ** Arguments *)

Definition parse_vdsctl_command (command : string) : result VdsctlCommand :=
  if decide (command = "attach") then Ok Attach
  else if decide (command = "detach") then Ok Detach
  else if decide (command = "list") then Ok ListCommand
  else if decide (command = "list-targets") then Ok ListTargets
  else if decide (command = "trace") then Ok Trace
  else if decide (command = "status") then Ok Status
  else if decide (command = "set") then Ok Set_
  else Throw ("unknown command: " +:+ command).

Definition require_vdsctl_arg_count (argc expected : nat) : result unit :=
  if decide (argc <> expected) then Throw "unexpected argument" else Ok tt.

(** The loop over the options of attach. An option's value is the next argument,
    unless that starts with two dashes. *)
Fixpoint parse_attach_options (args : list string) (config : ControllerConfig) :
    result ControllerConfig :=
  match args with
  | [] => Ok config
  | arg :: rest =>
      if decide (arg = "--profile") then
        match rest with
        | value :: rest' =>
            if starts_with "--" value then
              p ← parse_controller_profile "";
              parse_attach_options rest (mk_config (address config) p (ports config))
            else
              p ← parse_controller_profile value;
              parse_attach_options rest' (mk_config (address config) p (ports config))
        | [] =>
            p ← parse_controller_profile "";
            parse_attach_options rest (mk_config (address config) p (ports config))
        end
      else if decide (arg = "--ports") then
        match rest with
        | value :: rest' =>
            if starts_with "--" value then
              ps ← parse_ports "";
              parse_attach_options rest (mk_config (address config) (profile config) ps)
            else
              ps ← parse_ports value;
              parse_attach_options rest' (mk_config (address config) (profile config) ps)
        | [] =>
            ps ← parse_ports "";
            parse_attach_options rest (mk_config (address config) (profile config) ps)
        end
      else Throw ("unknown attach option: " +:+ arg)
  end.

Definition parse_vdsctl_attach (argv : list string) : result ControllerConfig :=
  match argv with
  | _ :: _ :: raw :: options =>
      a ← normalize_bluetooth_address raw;
      parse_attach_options options (mk_config a Unspecified [])
  | _ => Throw "attach requires an address"
  end.

Definition parse_vdsctl_trace (argv : list string) : result VdsctlTraceCommand :=
  scope ← match argv with
          | [_; _; _] => Ok "all"
          | [_; _; _; option; value] =>
              if decide (option <> "--scope") then Throw "trace option must be --scope" else Ok value
          | _ => Throw "trace requires on or off with optional --scope"
          end;
  match argv with
  | _ :: _ :: mode :: _ =>
      if decide (mode = "on") then Ok (mk_trace true scope)
      else if decide (mode = "off") then Ok (mk_trace false scope)
      else Throw "trace requires on or off"
  | _ => Throw "trace requires on or off with optional --scope"
  end.

(** ** The usage text *)

Definition line (text : string) : string := text +:+ String c_newline "".

Definition vdsctl_usage (version build_year : string) : string :=
  "vdsctl (" +:+ version +:+ "): vDS management utility - Copyright (C) " +:+ build_year
  +:+ line " Jihong Min" +:+ line "usage:"
  +:+ line ("  vdsctl attach <address> [--ports 0[,1...]|" +:+ quote +:+ quote +:+ "] "
            +:+ "[--profile ds5|dse|" +:+ quote +:+ quote +:+ "]")
  +:+ line "  vdsctl detach <address>"
  +:+ line "  vdsctl list"
  +:+ line "  vdsctl list-targets"
  +:+ line "  vdsctl status"
  +:+ line "  vdsctl set <param> <value>   (param: mic-gain)"
  +:+ line "  vdsctl trace on|off [--scope <scope>[,<scope>...]]"
  +:+ line "" +:+ line "trace scopes:"
  +:+ line "  all, input, input-audio, input-control, output".

(** ** Commands *)

Record Exit := mk_exit { exit_code : Z; stdout : string; stderr : string }.

Section Run.
Context {W : Type} (request_control : string -> prog W string).
Context (version build_year : string).

Definition run_vdsctl_attach (argv : list string) : prog W string :=
  config ← lift (parse_vdsctl_attach argv);
  request_control (attach_request config).

Definition run_vdsctl_detach (argv : list string) : prog W string :=
  _ ← lift (require_vdsctl_arg_count (length argv) 3);
  a ← lift (normalize_bluetooth_address (nth 2 argv ""));
  request_control (detach_request a).

Definition run_vdsctl_list (argv : list string) : prog W string :=
  _ ← lift (require_vdsctl_arg_count (length argv) 2);
  request_control list_request.

Definition run_vdsctl_list_targets (argv : list string) : prog W string :=
  _ ← lift (require_vdsctl_arg_count (length argv) 2);
  request_control list_targets_request.

Definition run_vdsctl_trace (argv : list string) : prog W string :=
  trace ← lift (parse_vdsctl_trace argv);
  request_control (trace_request trace).

(** The [try] of [run_vdsctl_app]; it prints only when the request came back. *)
Definition vdsctl_body (argv : list string) : prog W Exit :=
  match argv with
  | _ :: word :: _ =>
      if decide (word = "-h" \/ word = "--help") then mret (mk_exit 0 "" (vdsctl_usage version build_year))
      else
        command ← lift (parse_vdsctl_command word);
        reply ← match command with
                | Attach => run_vdsctl_attach argv
                | Detach => run_vdsctl_detach argv
                | ListCommand => run_vdsctl_list argv
                | ListTargets => run_vdsctl_list_targets argv
                | Trace => run_vdsctl_trace argv
                | Status =>
                    _ ← lift (require_vdsctl_arg_count (length argv) 2);
                    request_control status_request
                | Set_ =>
                    match argv with
                    | [_; _; param; value] => request_control (set_request param value)
                    | _ => throw "usage: vdsctl set <param> <value>"
                    end
                end;
        mret (mk_exit 0 reply "")
  | _ => throw "command is required"
  end.

Definition run_vdsctl_app (argv : list string) : prog W Exit :=
  try_catch (vdsctl_body argv)
    (fun what => mret (mk_exit 1 "" ("vdsctl: " +:+ what +:+ String c_newline ""))).
End Run.


(** ** Requests are records *)

Definition command_field (command : string) : JsonlField := string_field "command" command.
Definition attach_record (c : ControllerConfig) : list JsonlField :=
  command_field "attach" :: controller_fields c.
Definition detach_record (a : string) : list JsonlField :=
  [command_field "detach"; string_field "address" a].
Definition trace_record (t : VdsctlTraceCommand) : list JsonlField :=
  [command_field "trace"; string_field "mode" (if enabled t then "on" else "off");
   string_field "scope" (scope t)].

(** A line a client sends. *)
Definition request_line (fields : list JsonlField) : string :=
  print_record fields +:+ String c_newline "".

Ltac print_out :=
  unfold request_line, print_record; cbn [print_fields]; unfold print_field;
  cbn [key value command_field string_field array_field];
  unfold print_value; cbn [is_array string_value array_value];
  unfold jsonl_string_field, jsonl_unsigned_array_field; autorewrite with text; reflexivity.

Lemma attach_request_record c : attach_request c = request_line (attach_record c).
Proof. unfold attach_request, attach_record, controller_fields. print_out. Qed.

Lemma detach_request_record a : detach_request a = request_line (detach_record a).
Proof. unfold detach_request, detach_record. print_out. Qed.

Lemma trace_request_record t : trace_request t = request_line (trace_record t).
Proof. unfold trace_request, trace_record. print_out. Qed.

Lemma list_request_record : list_request = request_line [command_field "list"].
Proof. reflexivity. Qed.
Lemma list_targets_request_record : list_targets_request = request_line [command_field "list-targets"].
Proof. reflexivity. Qed.
Lemma status_request_record : status_request = request_line [command_field "status"].
Proof. reflexivity. Qed.

(** ** The daemon's side *)

Lemma trim_keep s c t : trims c = false -> str_forall trims t = true ->
  trim_command (s +:+ String c t) = s +:+ String c "".
Proof.
  intros Hc Ht. assert (trim_command t = "") as Htt.
  { induction t as [|d t IH]; [done|]. simpl in *. apply andb_true_iff in Ht as [Hd Ht].
    rewrite IH by done. by rewrite decide_True, Hd by done. }
  induction s as [|d s IH].
  - rewrite !str_app_nil_l. simpl. by rewrite Htt, decide_True, Hc by done.
  - rewrite !str_app_cons. simpl. rewrite IH. rewrite decide_False; [done|]. by destruct s.
Qed.

Lemma trim_request fields : trim_command (request_line fields) = print_record fields.
Proof. unfold request_line, print_record. autorewrite with text. 
  by apply (trim_keep (String "{" (print_fields fields)) "}" (String c_newline "")).
Qed.

Lemma parse_request fields ctx :
  Forall field_ok fields ->
  parse_jsonl_object (trim_command (request_line fields)) ctx = Ok fields.
Proof.
  intros Hf. rewrite trim_request, <- (str_app_nil_r (print_record fields)).
  by rewrite parse_print_record.
Qed.

(** ** Dispatch *)

Section Dispatch.
Context {W : Type} `{FileStore W} (pf : Platform).
Context (list_targets : prog (W * Vars) (list ControllerTarget)).

Lemma attach_never_throws fields path statuses (s : W * Vars) :
  exists s' reply, handle_attach_control_request pf fields path statuses list_targets s = (s', Ok reply).
Proof.
  unfold handle_attach_control_request, with_locals, try_catch, mbind at 1, prog_bind at 1.
  destruct (attach_body pf fields path statuses list_targets (s, (empty_config, false)))
    as [[s1 [c b]] [[r|]|e]]; simpl; eauto.
Qed.

Lemma detach_never_throws fields path (s : W * Vars) :
  exists s' reply, handle_detach_control_request fields path s = (s', Ok reply).
Proof.
  unfold handle_detach_control_request, with_locals, try_catch, mbind at 1, prog_bind at 1.
  destruct (detach_body fields path (s, ("", false))) as [[s1 [a [|]]] [[r|]|e]]; simpl; eauto.
Qed.

Lemma trace_never_throws fields (s : W * Vars) :
  exists s' reply, handle_trace_control_request fields s = (s', Ok reply).
Proof.
  unfold handle_trace_control_request, try_catch, mbind at 1, prog_bind at 1.
  unfold mbind at 1, prog_bind at 1.
  destruct (trace_body fields s) as [s1 [[b f]|e]]; simpl; eauto.
Qed.

End Dispatch.

(** A request goes to the handler of its command, and a handler that answers
    is not caught. *)
Section Handled.
Context {W : Type} `{FileStore W} (pf : Platform).
Context (list_targets : prog (W * Vars) (list ControllerTarget)).

Definition asks (request command : string) (fields : list JsonlField) : Prop :=
  parse_jsonl_object request context = Ok fields /\
  require_jsonl_string fields "command" context = Ok command.

Lemma request_asks fields command :
  Forall field_ok fields -> filter (fun f => key f = "command") fields = [command_field command] ->
  asks (trim_command (request_line fields)) command fields.
Proof. intros Hok Hf. split; [by apply parse_request|]. by apply require_string_field. Qed.

Lemma handled request command fields path statuses ports (s s' : W * Vars) reply :
  asks request command fields ->
  match command with
  | "attach" => handle_attach_control_request pf fields path ports list_targets s
  | "detach" => handle_detach_control_request fields path s
  | "list" => handle_list_control_request fields path statuses s
  | "list-targets" => handle_list_targets_control_request fields path list_targets s
  | "trace" => handle_trace_control_request fields s
  | _ => (s, Throw "")
  end = (s', Ok reply) ->
  handle_vdsd_control_command pf request path statuses ports list_targets s = (s', Ok reply).
Proof.
  intros [Hp Hc] Hh. unfold handle_vdsd_control_command, dispatch_control_command, try_catch.
  unfold mbind at 1, prog_bind at 1, lift at 1. rewrite Hp.
  unfold mbind at 1, prog_bind at 1, lift at 1. rewrite Hc.
  repeat case_decide; subst; [by rewrite Hh..|]. exfalso. revert Hh.
  repeat (case_match; try congruence).
Qed.
End Handled.

(** ** Arguments *)

Lemma parse_options_ok n args config c :
  (length args <= n)%nat -> config_ok config -> parse_attach_options args config = Ok c ->
  config_ok c /\ address c = address config.
Proof.
  revert args config. induction n as [|n IH]; intros args config Hn Hc.
  - destruct args; simpl in *; [naive_solver|lia].
  - destruct args as [|arg rest]; [by intros [= <-]|]. simpl in Hn.
    assert (forall args' p, (length args' <= n)%nat ->
      parse_attach_options args' (mk_config (address config) p (ports config)) = Ok c ->
      config_ok c /\ address c = address config) as Hp.
    { intros args' p Hl. apply (IH args' (mk_config (address config) p (ports config))); [done|].
      by destruct Hc. }
    assert (forall args' text ps, (length args' <= n)%nat -> parse_ports text = Ok ps ->
      parse_attach_options args' (mk_config (address config) (profile config) ps) = Ok c ->
      config_ok c /\ address c = address config) as Hq.
    { intros args' text ps Hl Hps.
      apply (IH args' (mk_config (address config) (profile config) ps)); [done|]. destruct Hc as [Ha _]. split; [done|].
      by eapply parse_ports_ok. }
    cbn [parse_attach_options]. case_decide; [|case_decide; [|done]].
    + destruct rest as [|value rest]; [|destruct (starts_with "--" value)];
        intros (p & _ & Hr)%result_bind_ok; (eapply Hp; [|exact Hr]); simpl in *; lia.
    + destruct rest as [|value rest]; [|destruct (starts_with "--" value)];
        intros (ps & Hps & Hr)%result_bind_ok; (eapply Hq; [|exact Hps|exact Hr]); simpl in *; lia.
Qed.

Lemma parse_vdsctl_attach_ok argv c : parse_vdsctl_attach argv = Ok c -> config_ok c.
Proof.
  unfold parse_vdsctl_attach. destruct argv as [|? [|? [|raw options]]]; [done..|].
  intros (a & Ha & Hr)%result_bind_ok. eapply parse_options_ok in Hr as [? _]; [done..|].
  split; simpl; [by eapply normalize_canonical|]. by repeat constructor.
Qed.

Lemma format_ports_head ps : starts_with "--" (format_ports ps) = false.
Proof.
  assert (forall p s, starts_with "--" (to_string p +:+ s) = false) as Hd.
  { intros p s. destruct (to_string_cons p) as (c & t & Ht). pose proof (to_string_isdigit p) as Hi.
    rewrite Ht in *. simpl in Hi. apply andb_true_iff in Hi as [Hi _]. rewrite str_app_cons.
    unfold starts_with. cbn [strip_prefix]. rewrite decide_False; [done|]. by intros <-. }
  destruct ps as [|p [|q ps]]; [done| |apply Hd].
  rewrite <- (str_app_nil_r (format_ports _)). apply Hd.
Qed.

Lemma parse_printed_options c raw prog_name :
  config_ok c -> normalize_bluetooth_address raw = Ok (address c) ->
  parse_vdsctl_attach [prog_name; "attach"; raw; "--ports"; format_ports (ports c);
                       "--profile"; controller_profile_name (profile c)] = Ok c.
Proof.
  intros [_ Hp] Hraw. unfold parse_vdsctl_attach. rewrite Hraw. cbn [mbind result_bind].
  cbn [parse_attach_options]. rewrite decide_False, decide_True by done.
  rewrite format_ports_head, parse_format_ports by done. cbn [mbind result_bind].
  rewrite decide_True by done. assert (starts_with "--" (controller_profile_name (profile c)) = false)
    as -> by by destruct (profile c).
  rewrite parse_profile_name. cbn. by destruct c.
Qed.

(** ** Requests name what was asked for *)

Lemma attach_record_ok c : config_ok c -> Forall field_ok (attach_record c).
Proof. intros Hc%controller_fields_ok. by constructor. Qed.

Lemma attach_record_fields c :
  config_ok c -> attach_fields (attach_record c) (address c) (profile c) (ports c) /\
  reject_unknown_jsonl_fields (attach_record c) ["command"; "address"; "profile"; "ports"] context = Ok tt.
Proof.
  intros [Ha Hp]. split.
  - exists (address c), (controller_profile_name (profile c)). split_and!; [done..| |done].
    apply parse_profile_name.
  - apply reject_unknown_ok. repeat constructor; set_solver.
Qed.
