(* ===== verification/ControlProps.v ===== *)
(** The properties of the control protocol and of the command line tool. *)
From stdpp Require Import base list strings numbers sorting gmap.
From Stdlib Require Import Ascii ZArith Lia.
From S2P Require Import Prelude Text Common Jsonl Config ConfigFacts Words Log Store LinuxFs ConfigFile.
From S2P Require Import Control ControlFacts Supervisor Ctl.

Local Open Scope Z_scope.

(** ** From file contents to maps *)

Section Maps.
Context {W : Type} `{FileStoreLaws W}.

Lemma require_array_range fields k ctx ps :
  Forall (fun f => value_ok (value f)) fields ->
  require_jsonl_unsigned_array fields k ctx = Ok ps -> Forall (fun p => 0 <= p) ps.
Proof.
  intros Hall. unfold require_jsonl_unsigned_array. rewrite find_field_spec.
  destruct (filter _ fields) as [|f [|]] eqn:Hf; [done| |done]. cbn [mbind result_bind].
  assert (f ∈ fields) as Hin by (eapply list_elem_of_filter; rewrite Hf; set_solver).
  rewrite Forall_forall in Hall. specialize (Hall f Hin). unfold value_ok in Hall.
  destruct (is_array (value f)); [|done]. intros [= <-]. destruct Hall as [_ Hall].
  eapply Forall_impl; [exact Hall|]. simpl. lia.
Qed.

Lemma content_map (w w' : W) path :
  fs_content w' path = fs_content w path -> file_map w' path = file_map w path.
Proof. intros Hc. unfold file_map, text_of. by rewrite Hc. Qed.

Lemma parsed_map (w : W) path db :
  parse_config_db (text_of w path) = Ok db -> file_map w path = db_map db.
Proof. intros Hp. unfold file_map. by rewrite Hp. Qed.

Lemma attached_map pf path devices (w w' : W) a p ps :
  canonical a -> Forall (fun q => 0 <= q) ps ->
  attached pf path devices w w' a p ps ->
  exists qs, validate_ports ps = Ok qs /\ file_map w path !! a = None /\
    file_map w' path = <[a := (p, qs)]> (file_map w path) /\ valid_file w' path.
Proof.
  intros Ha Hps (db & db' & Hdb & Hnone & Hup & _ & Hw).
  pose proof (upsert_ok db (mk_config a p ps) db' (parse_db_ok _ _ Hdb) Hps Hup) as Hok'.
  pose proof (written_text w' path db' Hok' Hw) as Hp'.
  apply upsert_map in Hup as (b & qs & Hb & Hqs & Hm). simpl in *.
  assert (b = a) as -> by congruence.
  exists qs. split; [done|]. rewrite (parsed_map _ _ _ Hdb), (parsed_map _ _ _ Hp').
  split; [by apply find_by_normalized_map_None|]. split; [done|]. by exists db'.
Qed.

Lemma detached_map path (w w' : W) a :
  canonical a -> detached path w w' a ->
  is_Some (file_map w path !! a) /\ file_map w' path = delete a (file_map w path) /\
  valid_file w' path.
Proof.
  intros Ha (db & db' & Hdb & [c Hc] & Hrem & Hw).
  pose proof (remove_ok db a db' true (parse_db_ok _ _ Hdb) Hrem) as Hok'.
  pose proof (written_text w' path db' Hok' Hw) as Hp'.
  apply remove_map in Hrem as (b & Hb & Hm & _). assert (b = a) as -> by congruence.
  rewrite (parsed_map _ _ _ Hdb), (parsed_map _ _ _ Hp').
  split; [rewrite (find_by_normalized_map db a c Hc); eauto|]. split; [done|]. by exists db'.
Qed.
End Maps.

(** ** attach and detach *)

Section Outcomes.
Context {W : Type} `{FileStoreLaws W} (pf : Platform).
Context (list_targets : prog (W * Vars) (list ControllerTarget)).

(** What an attach request asks for, and the database with it added. *)
Definition added (fields : list JsonlField) (path : string) (w w' : W) (a : string)
    (p : ControllerProfile) (ps : list Z) : Prop :=
  exists qs, attach_fields fields a p ps /\ validate_ports ps = Ok qs /\
    file_map w path !! a = None /\
    file_map w' path = <[a := (p, qs)]> (file_map w path) /\ valid_file w' path.

Lemma attached_added fields path devices (w1 w w' : W) a p ps :
  Forall (fun f => value_ok (value f)) fields -> same_files path w w1 ->
  attach_fields fields a p ps -> attached pf path devices w1 w' a p ps ->
  added fields path w w' a p ps.
Proof.
  intros Hv Hs Hf Ha. pose proof Hf as (raw & rp & _ & Hn & _ & _ & Hps).
  apply normalize_canonical in Hn. apply require_array_range in Hps; [|done].
  destruct (attached_map pf path devices w1 w' a p ps Hn Hps Ha) as (qs & Hqs & Hnone & Hm & Hvalid).
  rewrite (content_map w w1 path (same_content _ _ _ Hs)) in Hnone, Hm. by exists qs.
Qed.

Lemma left_alone_map fields path devices (w w' : W) :
  Forall (fun f => value_ok (value f)) fields ->
  left_alone pf fields path devices w w' ->
  file_map w' path = file_map w path \/ exists a p ps, added fields path w w' a p ps.
Proof.
  intros Hv [Hc|[(db & Hdb & Hw)|(a & p & ps & Hf & Ha)]].
  - left. by apply content_map.
  - left. rewrite (parsed_map w path db Hdb). apply parsed_map.
    apply written_text; [by eapply parse_db_ok|done].
  - right. exists a, p, ps. by eapply attached_added.
Qed.

Lemma attach_handler_outcome fields path statuses (w : W) v :
  (forall s, (list_targets s).1.2 = s.2) -> (forall s, same_files path s.1 (list_targets s).1.1) ->
  Forall (fun f => value_ok (value f)) fields ->
  exists w' v' reply,
    handle_attach_control_request pf fields path statuses list_targets (w, v) = ((w', v'), Ok reply) /\
    trace_flags v' = trace_flags v /\
    ((exists a p ps, added fields path w w' a p ps /\ reload_requested v' = true /\
        reply = format_control_attach_reply true "" (mk_config a p ps)) \/
     (reload_requested v' = reload_requested v /\
      (exists err c, reply = format_control_attach_reply false err c) /\
      (file_map w' path = file_map w path \/ exists a p ps, added fields path w w' a p ps))).
Proof.
  intros Hvars Hquiet Hok.
  pose proof (attach_body_effect pf list_targets Hvars fields path statuses w v) as He.
  unfold handle_attach_control_request, with_locals, try_catch, mbind at 1, prog_bind at 1.
  destruct (attach_body pf fields path statuses list_targets _)
    as [[[w' v'] [config b]] [[r|]|e]]; destruct He as (Hrl & Htr & He); simpl.
  - destruct He as [Hr Hl]. specialize (Hl Hquiet). eexists w', v', _. split; [done|].
    split; [done|]. right. split_and!; [done..|]. by eapply left_alone_map.
  - destruct He as (a & p & ps & s1 & w1 & targets & Hf & -> & Hs & Hlt & _ & Ha).
    assert (same_files path w w1) as Hs1.
    { pose proof (Hquiet s1) as Hq. rewrite Hlt in Hq. by etrans. }
    eexists _, _, _. split; [reflexivity|]. split; [done|]. left. exists a, p, ps.
    split_and!; [by eapply attached_added|done..].
  - specialize (He Hquiet). eexists _, _, _. split; [reflexivity|].
    split; [done|]. right. split_and!; [done|eauto|]. by eapply left_alone_map.
Qed.

Lemma detach_handler_outcome fields path (w : W) v :
  exists w' v' reply,
    handle_detach_control_request fields path (w, v) = ((w', v'), Ok reply) /\
    trace_flags v' = trace_flags v /\
    ((exists a, detached path w w' a /\ canonical a /\ reload_requested v' = true /\
        reply = format_control_detach_reply true "" a /\
        exists raw, require_jsonl_string fields "address" context = Ok raw /\
          normalize_bluetooth_address raw = Ok a) \/
     (reload_requested v' = reload_requested v /\
      (exists err a, reply = format_control_detach_reply false err a) /\
      (fs_content w' path = fs_content w path \/ exists a, canonical a /\ detached path w w' a))).
Proof.
  pose proof (detach_body_effect fields path w v) as He.
  unfold handle_detach_control_request, with_locals, try_catch, mbind at 1, prog_bind at 1.
  destruct (detach_body fields path _) as [[[w' v'] [a removed]] [[r|]|e]];
    destruct He as [-> He]; simpl.
  - destruct He as [Hr Hs]. eexists w', _, _. split; [done|]. split; [done|]. right.
    split_and!; [done..|]. left. by apply same_content.
  - destruct He as (raw & Hraw & Ha & -> & Hd). eexists _, _, _. split; [reflexivity|].
    split; [done|]. left. exists a. split_and!; [done|by eapply normalize_canonical|done|done|eauto].
  - eexists _, _, _. split; [reflexivity|]. split; [done|]. right. split_and!; [done|eauto|].
    destruct He as [He|[b He]]; [by left|right]. eauto.
Qed.

End Outcomes.

(** ** Properties *)

(** C1.  An attach request either adds exactly the requested controller, with its
    ports sorted, to a database that did not hold its address, asks for a reload
    and answers OK; or it answers not-OK and asks for nothing, and then every
    record of the database is still there: at most the requested record was added
    before a late write error.  The trace flags are never touched, and the request
    is always answered, whatever the file layer does. *)
Theorem attach_outcome {W : Type} `{FileStoreLaws W} (pf : Platform)
    (list_targets : prog (W * Vars) (list ControllerTarget)) (request path : string)
    (statuses : list VdsdControlControllerStatus) (port_statuses : list VdsdControlPortStatus)
    (fields : list JsonlField) (w : W) (v : Vars) :
  (forall s, (list_targets s).1.2 = s.2) -> (forall s, same_files path s.1 (list_targets s).1.1) ->
  asks request "attach" fields ->
  exists w' v' reply,
    handle_vdsd_control_command pf request path statuses port_statuses list_targets (w, v) =
      ((w', v'), Ok reply) /\
    trace_flags v' = trace_flags v /\
    ((exists a p ps, added fields path w w' a p ps /\ reload_requested v' = true /\
        reply = format_control_attach_reply true "" (mk_config a p ps)) \/
     (reload_requested v' = reload_requested v /\
      (exists err c, reply = format_control_attach_reply false err c) /\
      (file_map w' path = file_map w path \/ exists a p ps, added fields path w w' a p ps))).
Proof.
  intros Hv Hq Ha.
  destruct (attach_handler_outcome pf list_targets fields path port_statuses w v Hv Hq)
    as (w' & v' & reply & Hh & Ho).
  - by eapply parse_object_value_ok, Ha.
  - exists w', v', reply. split; [|exact Ho]. by eapply handled.
Qed.

(**  A detach request either removes exactly the named controller from a
    database that held it, asks for a reload and answers OK; or it answers not-OK,
    asks for nothing, and the file either stays as it was or lost only that
    controller before a late write error. *)
Theorem detach_outcome {W : Type} `{FileStoreLaws W} (pf : Platform)
    (list_targets : prog (W * Vars) (list ControllerTarget)) (request path : string)
    (statuses : list VdsdControlControllerStatus) (port_statuses : list VdsdControlPortStatus)
    (fields : list JsonlField) (w : W) (v : Vars) :
  asks request "detach" fields ->
  exists w' v' reply,
    handle_vdsd_control_command pf request path statuses port_statuses list_targets (w, v) =
      ((w', v'), Ok reply) /\
    trace_flags v' = trace_flags v /\
    ((exists raw a, require_jsonl_string fields "address" context = Ok raw /\
        normalize_bluetooth_address raw = Ok a /\ is_Some (file_map w path !! a) /\
        file_map w' path = delete a (file_map w path) /\ valid_file w' path /\
        reload_requested v' = true /\ reply = format_control_detach_reply true "" a) \/
     (reload_requested v' = reload_requested v /\
      (exists err a, reply = format_control_detach_reply false err a) /\
      (fs_content w' path = fs_content w path \/
       exists a, file_map w' path = delete a (file_map w path)))).
Proof.
  intros Ha. destruct (detach_handler_outcome fields path w v) as (w' & v' & reply & Hh & Htr & Ho).
  exists w', v', reply. split; [by eapply handled|]. split; [done|].
  destruct Ho as [(a & Hd & Hc & Hrl & Hr & raw & Hraw & Hn)|(Hrl & Hr & Hf)].
  - left. exists raw, a. destruct (detached_map path w w' a Hc Hd) as (Hsome & Hm & Hvalid). done.
  - right. split_and!; [done..|]. destruct Hf as [Hf|(a & Hc & Hd)]; [by left|right]. exists a.
    by apply (detached_map path w w' a Hc Hd).
Qed.

(**  A well-formed trace request sets, or clears, exactly the bits of its
    scope in the trace flags and reports the flags that result; any other trace
    request changes nothing and answers not-OK.  Neither touches the files or the
    reload flag. *)
Theorem trace_outcome {W : Type} `{FileStore W} (fields : list JsonlField) (w : W) (v : Vars) :
  is_u32 (trace_flags v) ->
  exists v' reply, handle_trace_control_request fields (w, v) = ((w, v'), Ok reply) /\
    reload_requested v' = reload_requested v /\
    (forall mode scope, trace_request_ok fields mode scope ->
       reply = format_control_trace_reply true "" (trace_flags v') /\
       forall i, 0 <= i -> Z.testbit (trace_flags v') i =
         if decide (mode = "on") then Z.testbit (trace_flags v) i || Z.testbit scope i
         else Z.testbit (trace_flags v) i && negb (Z.testbit scope i)) /\
    ((forall mode scope, ~ trace_request_ok fields mode scope) ->
       v' = v /\ exists err, reply = format_control_trace_reply false err (trace_flags v)).
Proof.
  intros Hf. unfold handle_trace_control_request, try_catch, mbind, prog_bind.
  destruct (trace_body_spec fields w v) as [(mode & scope & Hok & ->)|(Hno & e & ->)]; simpl.
  - eexists _, _. split; [reflexivity|]. split; [done|]. split; [|intros Hno; by destruct (Hno mode scope)].
    intros mode' scope' Hok'. split; [done|]. intros i Hi. rewrite <- traced_bit by done.
    simpl. destruct Hok as (_ & Hm & _ & raw & Hr & Hs), Hok' as (_ & Hm' & _ & raw' & Hr' & Hs').
    congruence.
  - eexists _, _. split; [reflexivity|]. split; [done|]. split; [|eauto].
    intros mode scope Hok. by destruct (Hno mode scope).
Qed.

(**  Trace scopes: what the parser accepts uses only the three defined flags,
    and the name printed for any non-empty set of flags is parsed back to it. *)
Theorem trace_scope_names (text : string) (flags : Z) :
  (parse_trace_scope text = Ok flags -> Z.land flags kTraceAll = flags) /\
  (0 < flags <= kTraceAll -> parse_trace_scope (trace_scope_name flags) = Ok flags /\
     active_trace_name flags = trace_scope_name flags).
Proof.
  split.
  - intros Hp%parse_trace_scope_range. unfold trace_ok in Hp. change kTraceAll with (Z.ones 3).
    rewrite Z.land_ones by lia. by apply Z.mod_small.
  - change kTraceAll with 7. intros Hf. split; [apply trace_name_roundtrip; lia|].
    unfold active_trace_name. change kTraceAll with (Z.ones 3).
    rewrite Z.land_ones, Z.mod_small by lia. destruct (Z.eqb_spec flags 0); [lia|done].
Qed.

(**  The command line reaches the daemon unchanged: the printed options of any
    valid record are parsed back to it; whatever options are accepted give a valid
    record; and the request sent for a valid record is, behind the daemon's own
    trimming and parsing, an attach request for exactly its address, profile and
    ports. *)
Theorem vdsctl_attach_understood (prog_name raw : string) (argv : list string) (c : ControllerConfig) :
  (parse_vdsctl_attach argv = Ok c -> config_ok c) /\
  (config_ok c ->
   (normalize_bluetooth_address raw = Ok (address c) ->
    parse_vdsctl_attach [prog_name; "attach"; raw; "--ports"; format_ports (ports c);
                         "--profile"; controller_profile_name (profile c)] = Ok c) /\
   exists fields, asks (trim_command (attach_request c)) "attach" fields /\
     attach_fields fields (address c) (profile c) (ports c) /\
     reject_unknown_jsonl_fields fields ["command"; "address"; "profile"; "ports"] context = Ok tt).
Proof.
  split; [apply parse_vdsctl_attach_ok|]. intros Hc. split; [by apply parse_printed_options|].
  exists (attach_record c). rewrite attach_request_record. split; [|by apply attach_record_fields].
  apply request_asks; [by apply attach_record_ok|done].
Qed.

(** ** Witnesses *)

Definition sample_controller : ControllerConfig := mk_config "aa:bb:cc:dd:ee:0f" Dse [1; 3].
Definition sample_list_targets : prog (LinuxFs * Vars) (list ControllerTarget) :=
  mret [mk_target "aa:bb:cc:dd:ee:0f" "DualSense Edge" Dse true].
Definition sample_ports : list VdsdControlPortStatus := [mk_port_status 1 "/dev/vds1" false "" ""].
Definition sample_path : string := "/var/lib/vds/vdsd.db".
Definition no_files : LinuxFs := mk_fs ∅ false [].
Definition one_file : LinuxFs :=
  mk_fs {[sample_path := serialize_config_db (mk_db [sample_controller])]} false [].
Definition idle_vars : Vars := mk_vars 0 false [].

Lemma sample_attach_asks :
  asks (trim_command (attach_request sample_controller)) "attach" (attach_record sample_controller).
Proof. split; reflexivity. Qed.

(** The first case does occur. *)
Example sample_attach_succeeds :
  let out := handle_vdsd_control_command Linux (trim_command (attach_request sample_controller))
    sample_path [] sample_ports sample_list_targets (no_files, idle_vars) in
  out.2 = Ok (format_control_attach_reply true "" sample_controller) /\
  reload_requested out.1.2 = true /\
  files out.1.1 !! sample_path = Some (serialize_config_db (mk_db [sample_controller])).
Proof. split_and!; vm_compute; reflexivity. Qed.

Lemma attach_outcome_witness :
  exists w' v' reply,
    handle_vdsd_control_command Linux (trim_command (attach_request sample_controller)) sample_path []
      sample_ports sample_list_targets (no_files, idle_vars) = ((w', v'), Ok reply) /\
    trace_flags v' = trace_flags idle_vars /\
    ((exists a p ps, added (attach_record sample_controller) sample_path no_files w' a p ps /\
        reload_requested v' = true /\
        reply = format_control_attach_reply true "" (mk_config a p ps)) \/
     (reload_requested v' = reload_requested idle_vars /\
      (exists err c, reply = format_control_attach_reply false err c) /\
      (file_map w' sample_path = file_map no_files sample_path \/
       exists a p ps, added (attach_record sample_controller) sample_path no_files w' a p ps))).
Proof. apply attach_outcome; [done|done|apply sample_attach_asks]. Defined.

Example sample_detach_succeeds :
  let out := handle_vdsd_control_command Linux (trim_command (detach_request "AA:bb:cc:dd:ee:0f"))
    sample_path [] sample_ports sample_list_targets (one_file, idle_vars) in
  out.2 = Ok (format_control_detach_reply true "" "aa:bb:cc:dd:ee:0f") /\
  reload_requested out.1.2 = true /\ files out.1.1 !! sample_path = Some "".
Proof. split_and!; vm_compute; reflexivity. Qed.

Lemma detach_outcome_witness :
  exists w' v' reply,
    handle_vdsd_control_command Linux (trim_command (detach_request "AA:bb:cc:dd:ee:0f"))
      sample_path [] sample_ports sample_list_targets (one_file, idle_vars) = ((w', v'), Ok reply) /\
    trace_flags v' = trace_flags idle_vars /\
    ((exists raw a,
        require_jsonl_string (detach_record "AA:bb:cc:dd:ee:0f") "address" context = Ok raw /\
        normalize_bluetooth_address raw = Ok a /\ is_Some (file_map one_file sample_path !! a) /\
        file_map w' sample_path = delete a (file_map one_file sample_path) /\
        valid_file w' sample_path /\
        reload_requested v' = true /\ reply = format_control_detach_reply true "" a) \/
     (reload_requested v' = reload_requested idle_vars /\
      (exists err a, reply = format_control_detach_reply false err a) /\
      (fs_content w' sample_path = fs_content one_file sample_path \/
       exists a, file_map w' sample_path = delete a (file_map one_file sample_path)))).
Proof. apply detach_outcome. split; reflexivity. Defined.

Lemma trace_outcome_witness :
  exists v' reply,
    handle_trace_control_request (trace_record (mk_trace true "output,input-audio"))
      (no_files, mk_vars 2 false []) = ((no_files, v'), Ok reply) /\
    reply = format_control_trace_reply true "" (trace_flags v') /\ Z.testbit (trace_flags v') 2 = true.
Proof.
  destruct (trace_outcome (trace_record (mk_trace true "output,input-audio")) no_files (mk_vars 2 false []))
    as (v' & reply & Hh & _ & Hok & _); [done|].
  destruct (Hok "on" 5) as [Hr Hb].
  { split; [reflexivity|]. split; [reflexivity|]. split; [by left|]. by exists "output,input-audio". }
  exists v', reply. split; [done|]. split; [done|]. by apply Hb.
Defined.

Lemma trace_scope_names_witness :
  parse_trace_scope (trace_scope_name 6) = Ok 6 /\ Z.land 5 kTraceAll = 5.
Proof.
  split.
  - by apply (trace_scope_names "" 6).
  - by apply (trace_scope_names "input-audio,output" 5).
Defined.

Lemma vdsctl_attach_understood_witness :
  parse_vdsctl_attach ["vdsctl"; "attach"; "AA:BB:CC:DD:EE:0F"; "--ports"; "1,3"; "--profile"; "dse"] =
    Ok sample_controller /\
  exists fields, asks (trim_command (attach_request sample_controller)) "attach" fields /\
    attach_fields fields "aa:bb:cc:dd:ee:0f" Dse [1; 3].
Proof.
  destruct (vdsctl_attach_understood "vdsctl" "AA:BB:CC:DD:EE:0F"
    ["vdsctl"; "attach"; "AA:BB:CC:DD:EE:0F"; "--ports"; "1,3"; "--profile"; "dse"] sample_controller)
    as [Hok Hreq].
  specialize (Hok eq_refl). destruct (Hreq Hok) as [Hparse (fields & Hasks & Hf & _)].
  split; [by apply Hparse|]. by exists fields.
Defined.
