(* ===== verification/ConfigProps.v ===== *)
(** The properties of the configuration database, of its file, and of the
    supervisor's bookkeeping. *)
From stdpp Require Import base list strings numbers sorting gmap.
From Stdlib Require Import Ascii ZArith Lia.
From S2P Require Import Prelude Text Common Jsonl Store LinuxFs Config ConfigFacts ConfigFile.
From S2P Require Import Supervisor.

Local Open Scope Z_scope.

(** ** The record parser *)

(**  The record parser stops on every text: its loops never use up the fuel
    they are given.  And every record it accepts holds only values a client can
    print: strings, and lists of 32-bit unsigned numbers. *)
Theorem parse_object_total (text context : string) :
  finishes (parse_jsonl_object text context) /\
  forall fields, parse_jsonl_object text context = Ok fields ->
    Forall (fun f => value_ok (value f)) fields.
Proof.
  split; [apply clean_finishes, parse_object_clean|]. intros fields. apply parse_object_value_ok.
Qed.

Lemma parse_object_total_witness :
  Forall (fun f => value_ok (value f)) [array_field "ports" [1; 2]].
Proof.
  apply (parse_object_total (print_record [array_field "ports" [1; 2]]) ""). reflexivity.
Defined.

(** ** The database *)

(** C3.  The database text is a faithful encoding: whatever text is accepted gives
    distinct, normalized addresses with sorted, distinct ports below 4; and reading
    the text written for any such database gives the database back. *)
Theorem db_text_roundtrip (text : string) (db : ConfigDb) :
  (parse_config_db text = Ok db -> db_ok db) /\
  (db_ok db -> parse_config_db (serialize_config_db db) = Ok db).
Proof. split; [apply parse_db_ok|apply parse_serialize_db]. Qed.

(** C4.  Updates refine a finite map from addresses to settings: an upsert is a map
    insert at the normalized address with the sorted ports, a removal is a map
    delete that says whether the address was there, a lookup is a map lookup, and
    all keep the database well-formed. *)
Theorem db_refines_map (db : ConfigDb) (c : ControllerConfig) (raw : string) :
  db_ok db -> Forall (fun p => 0 <= p) (ports c) ->
  (forall db', upsert_controller_config db c = Ok db' ->
     db_ok db' /\ exists a ps, normalize_bluetooth_address (address c) = Ok a /\
       ps ≡ₚ ports c /\ db_map db' = <[a := (profile c, ps)]> (db_map db)) /\
  (forall db' removed, remove_controller_config db raw = Ok (db', removed) ->
     db_ok db' /\ exists a, normalize_bluetooth_address raw = Ok a /\
       db_map db' = delete a (db_map db) /\ removed = bool_decide (is_Some (db_map db !! a))) /\
  (forall found, find_controller_config_by_address db raw = Ok found ->
     exists a, normalize_bluetooth_address raw = Ok a /\ db_map db !! a = settings <$> found).
Proof.
  intros Hdb Hpos. split_and!.
  - intros db' Hup. split; [by eapply upsert_ok|].
    apply upsert_map in Hup as (a & ps & Ha & Hps & Hm).
    apply validate_ports_ok in Hps as [Hperm _]; [|done]. eauto.
  - intros db' removed Hrem. split; [by eapply remove_ok|]. by apply remove_map.
  - unfold find_controller_config_by_address. intros found (a & Ha & [= <-])%result_bind_ok.
    exists a. split; [done|]. apply db_map_lookup.
Qed.

(** C2.  An update of the database file is atomic: whatever system call fails, a
    reader finds afterwards either the old text or the complete new one, other
    files except the temporary one and the one of the lock are untouched, the new text is there whenever
    the update reports success, and a callback that throws leaves the file alone. *)
Theorem update_atomic {W L : Type} `{FileStoreLaws W}
    (g : ConfigDb -> L -> L * result ConfigDb) (path : string) (w w' : W) (l l' : L)
    (r : result ConfigDb) :
  update_config_db path (run_callback g) (w, l) = ((w', l'), r) ->
  (forall q, q <> path -> q <> tmp_path path -> q <> lock_path path -> fs_content w' q = fs_content w q) /\
  (forall db', r = Ok db' -> db_ok db' -> parse_config_db (text_of w' path) = Ok db') /\
  (fs_content w' path = fs_content w path \/
   exists db db', parse_config_db (text_of w path) = Ok db /\ (g db l).2 = Ok db' /\
     fs_content w' path = Some (serialize_config_db db')).
Proof.
  intros [Ho Hu]%update_inv. split; [exact Ho|]. unfold update_outcome in Hu.
  destruct Hu as [(-> & Hs & e & ->)|(db & Hp & Hl & Hr)]; [split; [done|left; by apply same_content]|].
  destruct (g db l).2 as [db'|e] eqn:Hg; [|destruct Hr as [-> Hs]; split; [done|left; by apply same_content]].
  destruct Hr as [[-> Hw]|(e & -> & [Hw|Hw])].
  - split; [|right; eauto]. intros db2 [= <-] Hok. by apply written_text.
  - split; [done|by left].
  - split; [done|right; eauto].
Qed.

(**  On Linux the write itself is atomic: with any sequence of failed, short or
    interrupted system calls, the file holds its old text or all of the new one,
    and all of the new one when the write reports success. *)
Theorem linux_write_atomic (path text : string) (s s' : LinuxFs) (r : result unit) :
  linux_write_file_atomic path text s = (s', r) ->
  (forall q, q <> path -> q <> tmp_path path -> files s' !! q = files s !! q) /\
  (files s' !! path = files s !! path \/ files s' !! path = Some text) /\
  (r = Ok tt -> files s' !! path = Some text).
Proof.
  intros [Ho Hr]%linux_write_spec. split; [done|]. destruct r as [[]|e]; naive_solver.
Qed.

(** ** Addresses and ports *)

(**  An address is accepted exactly when it is six pairs of hexadecimal digits
    with colons between them; it is then lower-cased, and a normalized address is
    left as it is. *)
Theorem normalize_address (a : string) :
  normalize_bluetooth_address a =
    (if valid_address a then Ok (str_map tolower a) else Throw (invalid_address a)) /\
  forall b, normalize_bluetooth_address a = Ok b -> normalize_bluetooth_address b = Ok b.
Proof. split; [apply normalize_spec|apply normalize_canonical]. Qed.

(**  Port texts and port device paths are read back: the printed list of any
    valid port set is parsed to it, whatever list is accepted is sorted, distinct
    and below 4, and the device path of a port leads back to that port and to no
    other. *)
Theorem ports_roundtrip (pf : Platform) (ps : list Z) (text path : string) (p : Z) :
  (ports_ok ps -> parse_ports (format_ports ps) = Ok ps) /\
  (parse_ports text = Ok ps -> ports_ok ps) /\
  (0 <= p -> port_path_for_index pf p = Ok path -> port_index_from_path pf path = Some p) /\
  (port_index_from_path pf path = Some p -> 0 <= p < kMaxPortCount).
Proof.
  split_and!; [apply parse_format_ports|apply parse_ports_ok|apply port_path_roundtrip|
               apply port_index_range].
Qed.

(**  Port selection gives the smallest port the record allows that is a
    candidate and not occupied, and nothing exactly when there is none. *)
Theorem select_port_least (config : ControllerConfig) (candidate_ports occupied_ports : list Z) :
  ports_ok (ports config) ->
  match select_controller_config_port config candidate_ports occupied_ports with
  | Some p => eligible config candidate_ports occupied_ports p /\
      forall q, eligible config candidate_ports occupied_ports q -> p <= q
  | None => forall q, ~ eligible config candidate_ports occupied_ports q
  end.
Proof. apply select_port_spec. Qed.

(**  The assignment check accepts a database exactly when it is empty, or there
    is a port device and every record that names ports names one of a device. *)
Theorem assignments_checked (pf : Platform) (db : ConfigDb) (devices : list string) :
  validate_config_assignments pf db devices = Ok tt <->
  controllers db = [] \/
  (devices <> [] /\
   Forall (fun c => ports c = [] \/ exists p d, p ∈ ports c /\ d ∈ devices /\
             port_index_from_path pf d = Some p) (controllers db)).
Proof. apply validate_assignments_ok. Qed.

(** ** The supervisor *)

(**  Warnings are reported once per change: the list of reported warnings is a
    map from keys to states; a warning is reported exactly when the state of its
    key is new, which is then the one recorded, and forgetting a key removes that
    key and no other. *)
Theorem warning_states_refine_map (warnings : list string) (key state : string) :
  warnings_ok warnings -> no_newline key = true ->
  (let '(warnings', report) := remember_vdsd_warning_state warnings key state in
   warnings_ok warnings' /\ report = bool_decide (warning_map warnings !! key <> Some state) /\
   warning_map warnings' = <[key := state]> (warning_map warnings)) /\
  warnings_ok (forget_vdsd_warning_state warnings key) /\
  warning_map (forget_vdsd_warning_state warnings key) = delete key (warning_map warnings).
Proof.
  intros Hok Hk. split; [|split; [by apply erase_entries_ok|by apply erase_entries_map]].
  apply remember_state_spec; done.
Qed.

(**  A worker that failed is not started again before its time: the backoffs
    are a map from addresses to times; recording a failure sets the time of that
    address only, and a retry is granted exactly when the address has no time or
    its time has come, and then its entry is used up. *)
Theorem backoffs_refine_map (backoffs backoffs' : list VdsdWorkerFailureBackoff) (a : string)
    (t now : Z) (granted : bool) :
  backoffs_ok backoffs ->
  (backoffs_ok (record_vdsd_worker_failure backoffs a t) /\
   backoff_map (record_vdsd_worker_failure backoffs a t) = <[a := t]> (backoff_map backoffs)) /\
  (consume_vdsd_worker_retry backoffs a now = (backoffs', granted) ->
   backoffs_ok backoffs' /\
   match backoff_map backoffs !! a with
   | Some due => granted = bool_decide (due <= now) /\
       backoff_map backoffs' = (if granted then delete a else id) (backoff_map backoffs)
   | None => granted = true /\ backoffs' = backoffs
   end).
Proof.
  intros Hok. split; [split; [by apply record_ok|apply record_map]|].
  intros (Hok' & _ & Hr)%consume_spec; [|done]. split; [done|].
  destruct (backoff_map backoffs !! a) as [due|]; [|done].
  destruct (Z.ltb_spec now due); destruct Hr as [-> Hr].
  - rewrite bool_decide_eq_false_2 by lia. by rewrite Hr.
  - by rewrite bool_decide_eq_true_2 by lia.
Qed.

(**  A worker is started exactly when the port provider is there, its device is
    not in use and an allowed port is free; it then gets the smallest such port and
    a record that allows this port alone; and a worker started for a record of the
    database is not stale as long as its port stays enabled. *)
Theorem worker_launch (db : ConfigDb) (config : ControllerConfig) (available reserved : list Z)
    (device : string) (provider : bool) (reserved_devices : list string) :
  db_ok db -> config ∈ controllers db ->
  let d := select_vdsd_worker_launch_decision config available reserved device provider
             reserved_devices in
  (d_status d = Ready <->
   provider = true /\ ~ (device ∈ reserved_devices) /\ exists p, eligible config available reserved p) /\
  (d_status d = Ready ->
   eligible config available reserved (d_port d) /\
   (forall q, eligible config available reserved q -> d_port d <= q) /\
   d_config d = mk_config (address config) (profile config) [d_port d] /\
   vdsd_worker_config_is_stale db (address config) (profile config) (d_port d) true = Ok false) /\
  d_device_address d = device.
Proof.
  intros Hdb Hin d. subst d. pose proof Hdb as [Hall _]. rewrite Forall_forall in Hall.
  destruct (Hall config Hin) as [Ha Hp]. unfold select_vdsd_worker_launch_decision.
  destruct provider; simpl; [|naive_solver]. case_decide; simpl; [naive_solver|].
  pose proof (select_port_spec config available reserved Hp) as Hs.
  destruct (select_controller_config_port config available reserved) as [p|]; simpl; [|naive_solver].
  destruct Hs as [He Hmin]. split; [naive_solver|]. split; [|done]. intros _.
  split_and!; [done..|]. destruct He as (_ & Hallow & _). by apply record_not_stale.
Qed.

(** ** Witnesses *)

Definition pad : ControllerConfig := mk_config "0a:bb:cc:dd:ee:0f" Dse [1; 3].
Definition pads : ConfigDb := mk_db [pad; mk_config "0a:bb:cc:dd:ee:10" Ds5 []].

Lemma pads_ok : db_ok pads.
Proof.
  split; simpl.
  - repeat apply List.Forall_cons; [..|apply List.Forall_nil]; (split; [reflexivity|]); split; simpl.
    + repeat constructor; lia.
    + repeat constructor; unfold kMaxPortCount; lia.
    + constructor.
    + constructor.
  - apply NoDup_cons. split; [|apply NoDup_singleton]. intros He%list_elem_of_singleton. done.
Qed.

Lemma db_text_roundtrip_witness :
  db_ok pads /\ parse_config_db (serialize_config_db pads) = Ok pads.
Proof.
  assert (db_ok pads) as Hok by (apply (db_text_roundtrip (serialize_config_db pads)); reflexivity).
  split; [exact Hok|]. by apply (db_text_roundtrip "").
Defined.

Lemma db_refines_map_witness :
  exists db', upsert_controller_config pads (mk_config "0A:BB:CC:DD:EE:10" Dse [2; 0]) = Ok db' /\
    db_ok db' /\ exists a ps, normalize_bluetooth_address "0A:BB:CC:DD:EE:10" = Ok a /\
      ps ≡ₚ [2; 0] /\ db_map db' = <[a := (Dse, ps)]> (db_map pads).
Proof.
  eexists. split; [reflexivity|].
  apply (db_refines_map pads (mk_config "0A:BB:CC:DD:EE:10" Dse [2; 0]) "");
    [apply pads_ok|repeat constructor; done|reflexivity].
Defined.

Definition pads_path : string := "/var/lib/vds/vdsd.db".
(** Every call succeeds but the sixth one: the write stops after four bytes and
    then fails. *)
Definition failing_disk : LinuxFs :=
  mk_fs {[pads_path := serialize_config_db pads]} false
    [Done; Done; Done; Done; Done; Done; Done; Done; Short 4; Failed "No space left on device"].
Definition drop_all (db : ConfigDb) (l : unit) : unit * result ConfigDb := (tt, Ok (mk_db [])).

Lemma update_atomic_witness :
  let out := update_config_db pads_path (run_callback drop_all) (failing_disk, tt) in
  fs_content out.1.1 pads_path = fs_content failing_disk pads_path \/
  exists db db', parse_config_db (text_of failing_disk pads_path) = Ok db /\
    (drop_all db tt).2 = Ok db' /\ fs_content out.1.1 pads_path = Some (serialize_config_db db').
Proof.
  cbv zeta. destruct (update_config_db pads_path (run_callback drop_all) (failing_disk, tt))
    as [[w' l'] r] eqn:Hu.
  destruct (update_atomic drop_all pads_path failing_disk w' tt l' r Hu) as (_ & _ & Ho). exact Ho.
Defined.

Lemma linux_write_atomic_witness :
  let out := linux_write_file_atomic "/db" "new text" (mk_fs {["/db" := "old"]} false
               [Done; Done; Interrupted; Short 4; Short 2]) in
  files out.1 !! "/db" = Some "new text".
Proof.
  cbv zeta. destruct (linux_write_file_atomic "/db" "new text" _) as [s' r] eqn:Hw.
  destruct (linux_write_atomic "/db" "new text" _ s' r Hw) as (_ & _ & Ho). apply Ho.
  transitivity (s', r).2; [done|]. rewrite <- Hw. vm_compute. reflexivity.
Defined.

Lemma normalize_address_witness :
  normalize_bluetooth_address "0a:bb:cc:dd:ee:0f" = Ok "0a:bb:cc:dd:ee:0f".
Proof. apply (normalize_address "0A:BB:cc:dd:EE:0F"). reflexivity. Defined.

Lemma ports_roundtrip_witness :
  parse_ports (format_ports [0; 2; 3]) = Ok [0; 2; 3] /\
  port_index_from_path Windows "\\.\vds3" = Some 3.
Proof.
  split.
  - apply (ports_roundtrip Linux [0; 2; 3] "" "" 0). split; repeat constructor; unfold kMaxPortCount; lia.
  - apply (ports_roundtrip Windows [] "" "\\.\vds3" 3); [lia|reflexivity].
Defined.

Lemma select_port_least_witness :
  eligible pad [3; 2; 1] [1] 3 /\ forall q, eligible pad [3; 2; 1] [1] q -> 3 <= q.
Proof.
  apply (select_port_least pad [3; 2; 1] [1]). split; repeat constructor; unfold kMaxPortCount; lia.
Defined.

Lemma warning_states_refine_map_witness :
  warning_map (remember_vdsd_warning_state ["db" +:+ String c_newline "bad"] "db" "gone").1 =
  <["db" := "gone"]> (warning_map ["db" +:+ String c_newline "bad"]).
Proof.
  apply (warning_states_refine_map ["db" +:+ String c_newline "bad"] "db" "gone"); [|reflexivity].
  split; [apply NoDup_singleton|]. apply Forall_singleton. by exists "db", "bad".
Defined.

Lemma backoffs_refine_map_witness :
  (consume_vdsd_worker_retry [mk_backoff "a" 100] "a" 99).2 = false /\
  backoff_map (record_vdsd_worker_failure [mk_backoff "a" 100] "b" 5) =
    <["b" := 5]> (backoff_map [mk_backoff "a" 100]).
Proof.
  split.
  - apply (backoffs_refine_map [mk_backoff "a" 100] [mk_backoff "a" 100] "a" 0 99 false);
      [apply NoDup_singleton|reflexivity].
  - apply (backoffs_refine_map [mk_backoff "a" 100] [] "b" 5 0 true). apply NoDup_singleton.
Defined.

Lemma worker_launch_witness :
  vdsd_worker_config_is_stale pads (address pad) (profile pad) 3 true = Ok false.
Proof.
  apply (worker_launch pads pad [3; 2; 1] [1] "dev" true []); [apply pads_ok|apply list_elem_of_here|].
  reflexivity.
Defined.
