(* ===== verification/Profile.v ===== *)
(** Device identification (src/src/vds_profile.hh): the vendor and product
    numbers of a modalias line, and the profile they stand for. *)
From stdpp Require Import base list strings numbers.
From Stdlib Require Import Ascii ZArith Lia.
From S2P Require Import Prelude Text Common Config Words.

Local Open Scope Z_scope.

(** ** Definitions *)

Record DeviceId := mk_device_id { vendor : Z; product : Z }.

(** The profile numbers and device ids of src/include/uapi/vds.h and
    src/include/vds/ds5_protocol.h. *)
Definition VDS_PROFILE_DS5 : Z := 0.
Definition VDS_PROFILE_DSE : Z := 1.
Definition VDS_SONY_VENDOR_ID : Z := 0x054c.
Definition VDS_DS5_PRODUCT_ID : Z := 0x0ce6.
Definition VDS_DSE_PRODUCT_ID : Z := 0x0df2.

Definition usb_profile_from_controller_profile (p : ControllerProfile) : result Z :=
  match p with
  | Ds5 => Ok VDS_PROFILE_DS5
  | Dse => Ok VDS_PROFILE_DSE
  | Unspecified => Throw "empty profile has no fixed USB profile"
  end.

Definition usb_profile_name (p : Z) : string := if p =? VDS_PROFILE_DSE then "dse" else "ds5".

(** The value of a hexadecimal digit, as the three branches compute it. *)
Definition hex_nibble (ch : ascii) : option Z :=
  if isdigit ch then Some (code ch - 48)
  else if is_lower_hex ch then Some (10 + code ch - 97)
  else if is_upper_hex ch then Some (10 + code ch - 65)
  else None.

(** The loop of [parse_hex_token]: [max_digits] more digits may be read. *)
Fixpoint hex_token_loop (text : string) (max_digits : nat) (value : Z) (digits : nat) : Z * nat :=
  match max_digits, text with
  | S more, String ch rest =>
      match hex_nibble ch with
      | Some nibble => hex_token_loop rest more (Z.lor (u32 (Z.shiftl value 4)) nibble) (S digits)
      | None => (value, digits)
      end
  | _, _ => (value, digits)
  end.

(** [parse_hex_token], on the text from the offset on. *)
Definition parse_hex_token (text : string) (max_digits : nat) : option Z :=
  let '(value, digits) := hex_token_loop text max_digits 0 0 in
  if (digits =? 0)%nat then None else Some value.

(** [line.find(text) != npos] *)
Fixpoint contains (text line : string) : bool :=
  match strip_prefix text line with
  | Some _ => true
  | None => match line with EmptyString => false | String _ rest => contains text rest end
  end.

Definition parse_modalias_device_id (line : string) : option DeviceId :=
  after_vendor ← (split_at "v" line).2;
  after_product ← (split_at "p" after_vendor).2;
  let digits := if contains "usb:" line then 4%nat else 8%nat in
  vendor ← parse_hex_token after_vendor digits;
  product ← parse_hex_token after_product digits;
  Some (mk_device_id (Z.land vendor 0xffff) (Z.land product 0xffff)).

Definition controller_profile_from_device_id (id : DeviceId) : option ControllerProfile :=
  if negb (vendor id =? VDS_SONY_VENDOR_ID) then None
  else if product id =? VDS_DS5_PRODUCT_ID then Some Ds5
  else if product id =? VDS_DSE_PRODUCT_ID then Some Dse
  else None.

Definition controller_profile_from_modalias (modalias : string) : option ControllerProfile :=
  id ← parse_modalias_device_id modalias;
  controller_profile_from_device_id id.

(** ** Printed identifiers *)

(** [%04X] or [%08X]: the lowest [digits] hexadecimal digits of a number. *)
Definition upper_digit (n : Z) : ascii := if n <? 10 then chr (48 + n) else chr (55 + n).
Fixpoint hex_text (digits : nat) (n : Z) : string :=
  match digits with
  | O => ""
  | S more => push_back (hex_text more (n / 16)) (upper_digit (n mod 16))
  end.

Lemma upper_digit_nibble n : 0 <= n < 16 -> hex_nibble (upper_digit n) = Some n.
Proof.
  intros Hn.
  by_cases_below n 16; reflexivity.
Qed.

Lemma upper_digit_not_letter n c : 0 <= n < 16 -> hex_nibble c = None -> upper_digit n <> c.
Proof. intros Hn Hc He. apply upper_digit_nibble in Hn. congruence. Qed.

Lemma hex_text_no_letter digits n c :
  hex_nibble c = None -> str_forall (fun d => bool_decide (d <> c)) (hex_text digits n) = true.
Proof.
  intros Hc. revert n. induction digits as [|k IH]; intros n; [done|]. simpl. unfold push_back.
  rewrite str_forall_app, IH. simpl. rewrite andb_true_r. apply bool_decide_eq_true.
  apply upper_digit_not_letter; [|done]. apply Z.mod_pos_bound. lia.
Qed.

Lemma shift_or v nibble : 0 <= v < 2 ^ 28 -> 0 <= nibble < 16 ->
  Z.lor (u32 (Z.shiftl v 4)) nibble = v * 16 + nibble.
Proof.
  intros Hv Hn. rewrite Z.shiftl_mul_pow2 by lia. change (2 ^ 4) with 16. rewrite u32_id
    by (unfold is_u32; lia).
  assert (Z.land (v * 16) nibble = 0) as Hl.
  { apply Z.bits_inj. intros i. rewrite Z.land_spec, Z.bits_0. change 16 with (2 ^ 4).
    destruct (decide (i < 4)); [by rewrite Z.mul_pow2_bits_low by lia|].
    assert (Z.testbit nibble i = false) as ->; [|apply andb_false_r].
    eapply (below_pow_testbit 4); [done|apply Hn|apply Hn|lia]. }
  rewrite <- Z.lxor_lor by done. symmetry. by apply Z.add_nocarry_lxor.
Qed.

(** The reader's value of a printed number, from the value read so far. *)
Lemma token_hex_text k n rest budget v d :
  (k <= budget)%nat -> 0 <= n < 16 ^ Z.of_nat k -> 0 <= v -> (v + 1) * 16 ^ Z.of_nat k <= 2 ^ 32 ->
  hex_token_loop (hex_text k n +:+ rest) budget v d =
  hex_token_loop rest (budget - k) (v * 16 ^ Z.of_nat k + n) (d + k).
Proof.
  revert n rest budget v d. induction k as [|k IH]; intros n rest budget v d Hb Hn Hv Hsz.
  - simpl in *. rewrite str_app_nil_l. f_equal; lia.
  - rewrite Nat2Z.inj_succ, Z.pow_succ_r in * by lia. cbn [hex_text]. rewrite push_back_app.
    assert (0 < 16 ^ Z.of_nat k) as Hpos by (apply Z.pow_pos_nonneg; lia).
    pose proof (Z.mod_pos_bound n 16 ltac:(lia)) as Hm. pose proof (Z.div_mod n 16 ltac:(lia)) as Hd.
    assert (0 <= n / 16 < 16 ^ Z.of_nat k) as Hq.
    { split; [apply Z.div_pos; lia|]. apply Z.div_lt_upper_bound; lia. }
    rewrite IH by (try lia; nia). destruct (budget - k)%nat as [|more] eqn:Hmore; [lia|].
    cbn [hex_token_loop]. rewrite upper_digit_nibble by done. rewrite shift_or by (try done; nia).
    replace (budget - S k)%nat with more by lia.
    replace (S (d + k)) with (d + S k)%nat by lia. f_equal. nia.
Qed.

Lemma token_end c rest budget v d :
  hex_nibble c = None -> hex_token_loop (String c rest) budget v d = (v, d).
Proof. intros Hc. destruct budget; [done|]. simpl. by rewrite Hc. Qed.

Lemma token_empty rest v d : hex_token_loop rest 0 v d = (v, d).
Proof. by destruct rest. Qed.

Lemma parse_hex_text k n rest :
  (0 < k <= 8)%nat -> 0 <= n < 16 ^ Z.of_nat k ->
  parse_hex_token (hex_text k n +:+ rest) k = Some n.
Proof.
  intros Hk Hn. unfold parse_hex_token.
  assert (16 ^ Z.of_nat k <= 2 ^ 32).
  { change (2 ^ 32) with (16 ^ 8). apply Z.pow_le_mono_r; lia. }
  rewrite token_hex_text by lia. replace (k - k)%nat with 0%nat by lia. rewrite token_empty.
  destruct (Nat.eqb_spec (0 + k) 0); [lia|done].
Qed.

(** A modalias line: a bus prefix, the vendor and the product with [digits]
    digits each, and more. *)
Definition modalias_line (prefix : string) (digits : nat) (vid pid : Z) (rest : string) : string :=
  prefix +:+ String "v" (hex_text digits vid +:+ String "p" (hex_text digits pid +:+ rest)).

(** The number of digits of a bus: four for USB, eight for the kernel's HID. *)
Definition modalias_digits (line : string) : nat := if contains "usb:" line then 4%nat else 8%nat.

(** ** Property *)

(**  A modalias line of the USB form (four digits) or of the kernel's HID form
    (eight digits) is read back to the vendor and product it was printed from, and
    stands for a profile exactly when these are the two known controllers. *)
Theorem modalias_identifies (prefix rest : string) (digits : nat) (vid pid : Z) :
  let line := modalias_line prefix digits vid pid rest in
  str_forall (fun d => bool_decide (d <> "v"%char)) prefix = true ->
  digits = modalias_digits line -> is_u16 vid -> is_u16 pid ->
  parse_modalias_device_id line = Some (mk_device_id vid pid) /\
  forall p, controller_profile_from_modalias line = Some p <->
    vid = VDS_SONY_VENDOR_ID /\
    ((pid = VDS_DS5_PRODUCT_ID /\ p = Ds5) \/ (pid = VDS_DSE_PRODUCT_ID /\ p = Dse)).
Proof.
  intros line Hpre Hk Hv Hp. unfold is_u16 in *.
  assert (0 < digits <= 8)%nat as Hk8 by (unfold modalias_digits in Hk; destruct (contains _ _); lia).
  assert (2 ^ 16 <= 16 ^ Z.of_nat digits) as Hsz.
  { change (2 ^ 16) with (16 ^ 4). apply Z.pow_le_mono_r; [lia|].
    unfold modalias_digits in Hk; destruct (contains _ _); lia. }
  assert (parse_modalias_device_id line = Some (mk_device_id vid pid)) as Hid.
  { unfold parse_modalias_device_id. change (if contains "usb:" line then 4%nat else 8%nat)
      with (modalias_digits line). rewrite <- Hk. unfold line, modalias_line.
    rewrite split_at_app by done. cbn [snd mbind option_bind].
    rewrite split_at_app by by apply hex_text_no_letter. cbn [snd mbind option_bind].
    rewrite !parse_hex_text by lia. cbn [mbind option_bind].
    change 0xffff with (Z.ones 16). by rewrite !Z.land_ones, !Z.mod_small by lia. }
  split; [done|]. intros p. unfold controller_profile_from_modalias. rewrite Hid.
  cbn [mbind option_bind]. unfold controller_profile_from_device_id. simpl.
  destruct (Z.eqb_spec vid VDS_SONY_VENDOR_ID); simpl; [|naive_solver].
  destruct (Z.eqb_spec pid VDS_DS5_PRODUCT_ID) as [->|]; [naive_solver|].
  destruct (Z.eqb_spec pid VDS_DSE_PRODUCT_ID) as [->|]; naive_solver.
Qed.

Lemma modalias_identifies_witness :
  controller_profile_from_modalias "usb:v054Cp0CE6d0100" = Some Ds5.
Proof.
  apply (modalias_identifies "usb:" "d0100" 4 0x054c 0x0ce6); [reflexivity|reflexivity|done|done|].
  auto.
Defined.

(** A four-digit line of another bus is not recognised: eight digits are read for
    the product, and the [d] of the device number is a hexadecimal digit too. *)
Example bluetooth_modalias_misread :
  parse_modalias_device_id "bluetooth:v054Cp0CE6d0100" = Some (mk_device_id 0x054c 0xd010) /\
  controller_profile_from_modalias "bluetooth:v054Cp0CE6d0100" = None.
Proof. split; reflexivity. Qed.
