(* ===== verification/Bluez.v ===== *)
(** What is asked of BlueZ over D-Bus (src/src/platform/linux/vds_bluez.cc).

    A message is the list of its values, a tree; an iterator of the D-Bus library is the
    list of the values from where it stands, and at the end it has no type.  The bus is an
    input: what it answers to each call, in order, with what it was asked. *)
From stdpp Require Import base list strings.
From Stdlib Require Import Ascii.
From S2P Require Import Prelude Text Config Profile.

Definition kBluezService : string := "org.bluez".
Definition kBluezRootPath : string := "/".
Definition kBluezDeviceInterface : string := "org.bluez.Device1".
Definition kDbusObjectManagerInterface : string := "org.freedesktop.DBus.ObjectManager".
Definition kDbusPropertiesInterface : string := "org.freedesktop.DBus.Properties".
Definition kDbusUnknownPropertyError : string := "org.freedesktop.DBus.Error.UnknownProperty".

(** ** Messages *)

(** The types the program asks for, and the others. *)
Inductive dbus :=
  | DString (s : string)
  | DObjectPath (s : string)
  | DBoolean (b : bool)
  | DVariant (v : dbus)
  | DArray (items : list dbus)
  | DDictEntry (fields : list dbus)
  | DOther.
Definition iter : Type := list dbus.

Definition unexpected {A} (context : string) : result A := Throw (context +:+ ": unexpected D-Bus type").

(** [require_message_type] and the values of an entry or an array. *)
Definition require_entry (it : iter) (context : string) : result iter :=
  match it with DDictEntry fields :: _ => Ok fields | _ => unexpected context end.
Definition require_array (it : iter) (context : string) : result iter :=
  match it with DArray items :: _ => Ok items | _ => unexpected context end.
Definition require_object_path (it : iter) (context : string) : result string :=
  match it with DObjectPath s :: _ => Ok s | _ => unexpected context end.
Definition read_dbus_string (it : iter) (context : string) : result string :=
  match it with DString s :: _ => Ok s | _ => unexpected context end.

(** [dbus_message_iter_next], where its result is looked at. *)
Definition require_next (it : iter) (message : string) : result iter :=
  match it with _ :: (x :: rest) => Ok (x :: rest) | _ => Throw message end.

Definition read_dbus_variant_string (it : iter) : option string :=
  match it with DVariant (DString s) :: _ => Some s | _ => None end.
Definition read_dbus_variant_bool (it : iter) : option bool :=
  match it with DVariant (DBoolean b) :: _ => Some b | _ => None end.

(** The name of a property, and the iterator at its value. *)
Definition read_property (properties : iter) : result (string * iter) :=
  property ← require_entry properties "BlueZ Device1 property";
  name ← read_dbus_string property "BlueZ property name";
  value ← require_next property "missing BlueZ property value";
  Ok (name, value).

(** ** Devices *)

Definition normalized (a : string) : option string :=
  match normalize_bluetooth_address a with Ok a => Some a | Throw _ => None end.

Fixpoint read_device_address (properties : iter) : result (option string) :=
  match properties with
  | [] => Ok None
  | _ :: rest =>
      p ← read_property properties;
      if bool_decide (p.1 = "Address")
      then Ok (read_dbus_variant_string p.2 ≫= normalized)
      else read_device_address rest
  end.

(** The variables of [read_controller_target]. *)
Record target_fields := mk_fields {
  f_address : option string;
  f_name : option string;
  f_alias : option string;
  f_modalias : option string;
  f_paired : bool;
  f_connected : bool
}.
Definition no_fields : target_fields := mk_fields None None None None false false.

(** One turn of the loop; [None] ends it without a target. *)
Definition read_target_property (name : string) (value : iter) (f : target_fields) : option target_fields :=
  let text := read_dbus_variant_string value in
  let flag := default false (read_dbus_variant_bool value) in
  if bool_decide (name = "Address") then
    match text with
    | None => Some f
    | Some a =>
        match normalize_bluetooth_address a with
        | Ok a => Some (mk_fields (Some a) (f_name f) (f_alias f) (f_modalias f) (f_paired f) (f_connected f))
        | Throw _ => None
        end
    end
  else if bool_decide (name = "Name") then
    Some (mk_fields (f_address f) text (f_alias f) (f_modalias f) (f_paired f) (f_connected f))
  else if bool_decide (name = "Alias") then
    Some (mk_fields (f_address f) (f_name f) text (f_modalias f) (f_paired f) (f_connected f))
  else if bool_decide (name = "Modalias") then
    Some (mk_fields (f_address f) (f_name f) (f_alias f) text (f_paired f) (f_connected f))
  else if bool_decide (name = "Paired") then
    Some (mk_fields (f_address f) (f_name f) (f_alias f) (f_modalias f) flag (f_connected f))
  else if bool_decide (name = "Connected") then
    Some (mk_fields (f_address f) (f_name f) (f_alias f) (f_modalias f) (f_paired f) flag)
  else Some f.

Fixpoint read_target_fields (properties : iter) (f : target_fields) : result (option target_fields) :=
  match properties with
  | [] => Ok (Some f)
  | _ :: rest =>
      p ← read_property properties;
      match read_target_property p.1 p.2 f with
      | None => Ok None
      | Some f => read_target_fields rest f
      end
  end.

(** What is made of the variables after the loop. *)
Definition target_of_fields (f : target_fields) : option ControllerTarget :=
  if negb (f_paired f) then None
  else
    address ← f_address f;
    modalias ← f_modalias f;
    profile ← controller_profile_from_modalias modalias;
    let display_name := default (default "" (f_alias f)) (f_name f) in
    Some (mk_target address (if bool_decide (display_name = "") then address else display_name) profile
            (f_connected f)).

Definition read_controller_target (properties : iter) : result (option ControllerTarget) :=
  f ← read_target_fields properties no_fields;
  Ok (f ≫= target_of_fields).

(** ** Objects *)

(** The name of an interface and its properties. *)
Definition read_interface (interfaces : iter) : result (string * iter) :=
  entry ← require_entry interfaces "BlueZ interface entry";
  name ← read_dbus_string entry "BlueZ interface name";
  entry ← require_next entry "malformed BlueZ interface entry";
  properties ← require_array entry "BlueZ interface properties";
  Ok (name, properties).

(** The path of an object and its interfaces. *)
Definition read_object (objects : iter) : result (string * iter) :=
  object ← require_entry objects "BlueZ object";
  path ← require_object_path object "BlueZ object path";
  object ← require_next object "malformed BlueZ object entry";
  interfaces ← require_array object "BlueZ interface list";
  Ok (path, interfaces).

(** Whether one of the interfaces is a device with this address. *)
Fixpoint has_device (interfaces : iter) (address : string) : result bool :=
  match interfaces with
  | [] => Ok false
  | _ :: rest =>
      i ← read_interface interfaces;
      if bool_decide (i.1 = kBluezDeviceInterface) then
        found ← read_device_address i.2;
        if bool_decide (found = Some address) then Ok true else has_device rest address
      else has_device rest address
  end.
Fixpoint find_object (objects : iter) (address : string) : result (option string) :=
  match objects with
  | [] => Ok None
  | _ :: rest =>
      o ← read_object objects;
      found ← has_device o.2 address;
      if found : bool then Ok (Some o.1) else find_object rest address
  end.

Fixpoint interface_targets (interfaces : iter) (targets : list ControllerTarget) :
    result (list ControllerTarget) :=
  match interfaces with
  | [] => Ok targets
  | _ :: rest =>
      i ← read_interface interfaces;
      if bool_decide (i.1 = kBluezDeviceInterface) then
        t ← read_controller_target i.2;
        interface_targets rest (targets ++ option_list t)
      else interface_targets rest targets
  end.
Fixpoint object_targets (objects : iter) (targets : list ControllerTarget) : result (list ControllerTarget) :=
  match objects with
  | [] => Ok targets
  | _ :: rest =>
      o ← read_object objects;
      targets ← interface_targets o.2 targets;
      object_targets rest targets
  end.

(** ** The bus *)

(** An error has a name and perhaps a message. *)
Inductive bus_answer := Reply (body : iter) | BusError (name : string) (message : option string).
(** A call: the object's path, the interface, the method and its arguments. *)
Record bus_call := mk_call {
  call_path : string;
  call_interface : string;
  call_method : string;
  call_arguments : list string
}.
Record Bus := mk_bus {
  connections : list (option string);  (* the error of an attempt that fails *)
  answers : list bus_answer;
  calls : list bus_call
}.

Definition error_message (name : string) (message : option string) : string := default name message.

Definition open_system_bus : prog Bus unit := fun b =>
  match connections b with
  | [] | None :: _ => (mk_bus (tail (connections b)) (answers b) (calls b), Ok tt)
  | Some e :: rest => (mk_bus rest (answers b) (calls b), Throw ("failed to connect to system D-Bus: " +:+ e))
  end.
(** Nobody answers when [answers] is used up. *)
Definition bus_send (call : bus_call) : prog Bus bus_answer := fun b =>
  (mk_bus (connections b) (tail (answers b)) (calls b ++ [call]),
   Ok (default (BusError "org.freedesktop.DBus.Error.NoReply" None) (head (answers b)))).

Definition call_dbus_method (call : bus_call) (context : string) : prog Bus iter :=
  r ← bus_send call;
  match r with
  | Reply body => mret body
  | BusError name message => throw (context +:+ ": " +:+ error_message name message)
  end.

Definition get_managed_objects : bus_call :=
  mk_call kBluezRootPath kDbusObjectManagerInterface "GetManagedObjects" [].

Definition find_device_path (address : string) : prog Bus (option string) :=
  root ← call_dbus_method get_managed_objects "failed to query BlueZ objects";
  match root with
  | [] => mret None
  | _ => lift (objects ← require_array root "BlueZ object list"; find_object objects address)
  end.

Definition get_device_string_property (path property : string) : prog Bus (option string) :=
  r ← bus_send (mk_call path kDbusPropertiesInterface "Get" [kBluezDeviceInterface; property]);
  match r with
  | Reply root => mret (read_dbus_variant_string root)
  | BusError name message =>
      if bool_decide (name = kDbusUnknownPropertyError) then mret None
      else throw ("failed to query BlueZ property: " +:+ error_message name message)
  end.

Definition bluez_device_modalias (address : string) : prog Bus (option string) :=
  normalized_address ← lift (normalize_bluetooth_address address);
  _ ← open_system_bus;
  path ← find_device_path normalized_address;
  match path with
  | None => mret None
  | Some path => get_device_string_property path "Modalias"
  end.

Definition list_bluez_controller_targets : prog Bus (list ControllerTarget) :=
  _ ← open_system_bus;
  root ← call_dbus_method get_managed_objects "failed to query BlueZ objects";
  match root with
  | [] => mret []
  | _ => lift (objects ← require_array root "BlueZ object list"; object_targets objects [])
  end.

Definition disconnect_bluez_device (address : string) : prog Bus bool :=
  normalized_address ← lift (normalize_bluetooth_address address);
  _ ← open_system_bus;
  path ← find_device_path normalized_address;
  match path with
  | None => mret false
  | Some path =>
      _ ← call_dbus_method (mk_call path kBluezDeviceInterface "Disconnect" [])
            "failed to disconnect BlueZ device";
      mret true
  end.
