(* ===== verification/BluezProps.v ===== *)
(** What the queries to BlueZ mean: the objects BlueZ manages, as they are sent, are read
    back, and the answers are functions of them. *)
From stdpp Require Import base list strings.
From Stdlib Require Import Ascii.
From S2P Require Import Prelude Text Config Profile Bluez.

(** ** The objects BlueZ manages *)

(** A device's properties, an object's interfaces, and the objects. *)
Abbreviation properties := (list (string * dbus)).
Abbreviation interfaces := (list (string * properties)).
Abbreviation objects := (list (string * interfaces)).

Definition encode_properties (ps : properties) : iter := (fun p => DDictEntry [DString p.1; p.2]) <$> ps.
Definition encode_interfaces (is_ : interfaces) : iter :=
  (fun i => DDictEntry [DString i.1; DArray (encode_properties i.2)]) <$> is_.
Definition encode_objects (os : objects) : iter :=
  (fun o => DDictEntry [DObjectPath o.1; DArray (encode_interfaces o.2)]) <$> os.

(** The value of a property. *)
Fixpoint property (name : string) (ps : properties) : option dbus :=
  match ps with
  | [] => None
  | (n, v) :: rest => if String.eqb n name then Some v else property name rest
  end.
Definition text_property (name : string) (ps : properties) : option string :=
  property name ps ≫= (fun v => read_dbus_variant_string [v]).
Definition flag_property (name : string) (ps : properties) : bool :=
  default false (property name ps ≫= (fun v => read_dbus_variant_bool [v])).

Definition device_address (ps : properties) : option string := text_property "Address" ps ≫= normalized.

(** A paired device with an address and a known controller's modalias is a target. *)
Definition device_target (ps : properties) : option ControllerTarget :=
  if flag_property "Paired" ps then
    a ← device_address ps;
    m ← text_property "Modalias" ps;
    p ← controller_profile_from_modalias m;
    let shown := default (default "" (text_property "Alias" ps)) (text_property "Name" ps) in
    Some (mk_target a (if bool_decide (shown = "") then a else shown) p (flag_property "Connected" ps))
  else None.

Definition devices_of (is_ : interfaces) : list properties :=
  omap (fun i => if bool_decide (i.1 = kBluezDeviceInterface) then Some i.2 else None) is_.
(** The devices, each with the path of its object. *)
Definition devices (os : objects) : list (string * properties) :=
  os ≫= (fun o => (fun ps => (o.1, ps)) <$> devices_of o.2).

(** D-Bus has no property twice. *)
Definition unique_properties (os : objects) : Prop := Forall (fun d => NoDup (d.2.*1)) (devices os).

(** ** Reading properties *)

Lemma read_property_encoded n v ps : read_property (encode_properties ((n, v) :: ps)) = Ok (n, [v]).
Proof. done. Qed.

Lemma property_absent name (ps : properties) : name ∉ ps.*1 -> property name ps = None.
Proof.
  induction ps as [|[n v] ps IH]; [done|]. cbn [property fmap list_fmap fst]. intros Hn.
  apply not_elem_of_cons in Hn as [Hne Hn].
  rewrite (proj2 (String.eqb_neq _ _)) by done. by apply IH.
Qed.

Lemma read_address_encoded ps : read_device_address (encode_properties ps) = Ok (device_address ps).
Proof.
  unfold device_address, text_property. induction ps as [|[n v] ps IH]; [done|].
  cbn [read_device_address encode_properties fmap list_fmap]. fold (encode_properties ps).
  cbn [property]. change (read_property _) with (Ok (A:=string * iter) (n, [v])).
  cbn [mbind result_bind fst snd]. case_bool_decide as Hn.
  - by rewrite (proj2 (String.eqb_eq _ _)).
  - rewrite (proj2 (String.eqb_neq _ _)) by done. exact IH.
Qed.

(** The variables after the loop, when it started with [f]. *)
Definition text_after (name : string) (ps : properties) (old : option string) : option string :=
  match property name ps with Some v => read_dbus_variant_string [v] | None => old end.
Definition flag_after (name : string) (ps : properties) (old : bool) : bool :=
  match property name ps with Some v => default false (read_dbus_variant_bool [v]) | None => old end.
Definition fields_after (ps : properties) (f : target_fields) : option target_fields :=
  let rest a := mk_fields a (text_after "Name" ps (f_name f)) (text_after "Alias" ps (f_alias f))
                  (text_after "Modalias" ps (f_modalias f)) (flag_after "Paired" ps (f_paired f))
                  (flag_after "Connected" ps (f_connected f)) in
  match text_property "Address" ps with
  | None => Some (rest (f_address f))
  | Some a => (fun a => rest (Some a)) <$> normalized a
  end.

Lemma read_fields_encoded ps f :
  NoDup (ps.*1) -> read_target_fields (encode_properties ps) f = Ok (fields_after ps f).
Proof.
  revert f. induction ps as [|[n v] ps IH]; intros f Hnd; [by destruct f|].
  cbn [fmap list_fmap fst] in Hnd. apply NoDup_cons in Hnd as [Hn Hnd].
  cbn [read_target_fields encode_properties fmap list_fmap]. fold (encode_properties ps).
  change (read_property _) with (Ok (A:=string * iter) (n, [v])). cbn [mbind result_bind fst snd].
  pose proof (property_absent n ps Hn) as Habs.
  unfold read_target_property, normalized.
  repeat (case_bool_decide; [subst n|]);
    try (rewrite IH by done);
    unfold fields_after, text_property, text_after, flag_after in *; cbn [property];
    rewrite ?Habs; cbn -[normalize_bluetooth_address read_dbus_variant_string read_dbus_variant_bool].
  { destruct (read_dbus_variant_string [v]) as [a|]; [|by rewrite IH, Habs].
    unfold normalized. destruct (normalize_bluetooth_address a); [|done]. by rewrite IH, Habs. }
  all: try done.
  repeat match goal with
  | |- context [String.eqb n ?k] => rewrite (proj2 (String.eqb_neq n k)) by done
  end. done.
Qed.

Lemma read_target_encoded ps :
  NoDup (ps.*1) -> read_controller_target (encode_properties ps) = Ok (device_target ps).
Proof.
  intros Hnd. unfold read_controller_target. rewrite read_fields_encoded by done.
  cbn [mbind result_bind]. f_equal. unfold fields_after, device_target, device_address.
  assert (flag_after "Paired" ps false = flag_property "Paired" ps) as Hp
    by (unfold flag_after, flag_property; by destruct (property "Paired" ps)).
  assert (flag_after "Connected" ps false = flag_property "Connected" ps) as Hc
    by (unfold flag_after, flag_property; by destruct (property "Connected" ps)).
  assert (forall k, text_after k ps None = text_property k ps) as Ht
    by (intros k; unfold text_after, text_property; by destruct (property k ps)).
  cbn [f_address f_name f_alias f_modalias f_paired f_connected no_fields]. rewrite Hp, Hc, !Ht.
  destruct (text_property "Address" ps) as [a|]; cbn [mbind option_bind fmap option_fmap].
  - destruct (normalized a) as [a'|]; unfold target_of_fields; cbn;
      by destruct (flag_property "Paired" ps).
  - unfold target_of_fields. cbn. by destruct (flag_property "Paired" ps).
Qed.

(** ** Reading objects *)

Lemma has_device_encoded is_ a :
  has_device (encode_interfaces is_) a
  = Ok (existsb (fun ps => bool_decide (device_address ps = Some a)) (devices_of is_)).
Proof.
  induction is_ as [|[n ps] is_ IH]; [done|].
  cbn [has_device encode_interfaces fmap list_fmap]. fold (encode_interfaces is_).
  change (read_interface _) with (Ok (A:=string * iter) (n, encode_properties ps)).
  unfold devices_of in *. cbn [mbind result_bind fst snd omap list_omap].
  case_bool_decide as Hn; [|exact IH]. rewrite read_address_encoded. cbn [mbind result_bind existsb].
  by case_bool_decide.
Qed.

(** The path of the first device with an address. *)
Definition device_path (os : objects) (a : string) : option string :=
  (fun d => d.2.1) <$> list_find (fun d => device_address d.2 = Some a) (devices os).

Lemma find_object_encoded os a : find_object (encode_objects os) a = Ok (device_path os a).
Proof.
  unfold device_path. induction os as [|[path is_] os IH]; [done|].
  cbn [find_object encode_objects fmap list_fmap]. fold (encode_objects os).
  change (read_object _) with (Ok (A:=string * iter) (path, encode_interfaces is_)).
  cbn [mbind result_bind fst snd]. rewrite has_device_encoded. cbn [mbind result_bind].
  unfold devices. rewrite bind_cons. fold (devices os). 
  assert (forall l : list properties,
    (if existsb (fun ps => bool_decide (device_address ps = Some a)) l then Ok (Some path)
     else find_object (encode_objects os) a)
    = Ok ((fun d => d.2.1) <$> list_find (fun d => device_address d.2 = Some a)
            (((fun ps => (path, ps)) <$> l) ++ devices os))) as Hl; [|apply Hl].
  induction l as [|ps l IHl]; cbn [existsb]; [exact IH|]. cbn. case_bool_decide as Hd.
  - by rewrite decide_True.
  - rewrite decide_False by done. cbn [orb]. rewrite IHl.
    rewrite <- option_fmap_compose. reflexivity.
Qed.

Lemma interface_targets_encoded is_ acc :
  Forall (fun ps => NoDup (ps.*1)) (devices_of is_) ->
  interface_targets (encode_interfaces is_) acc = Ok (acc ++ omap device_target (devices_of is_)).
Proof.
  revert acc. induction is_ as [|[n ps] is_ IH]; intros acc Hu; [by rewrite app_nil_r|].
  cbn [interface_targets encode_interfaces fmap list_fmap]. fold (encode_interfaces is_).
  change (read_interface _) with (Ok (A:=string * iter) (n, encode_properties ps)).
  unfold devices_of in *. cbn [mbind result_bind fst snd omap list_omap] in *.
  case_bool_decide as Hn; [|by apply IH]. apply Forall_cons_1 in Hu as [Hps Hu].
  rewrite read_target_encoded by done. cbn [mbind result_bind omap list_omap]. rewrite IH by done.
  destruct (device_target ps); cbn [option_list]; by rewrite <- ?(assoc_L app), ?app_nil_r.
Qed.

Lemma object_targets_encoded os acc :
  unique_properties os ->
  object_targets (encode_objects os) acc = Ok (acc ++ omap (fun d => device_target d.2) (devices os)).
Proof.
  unfold unique_properties. revert acc. induction os as [|[path is_] os IH]; intros acc Hu; [by rewrite app_nil_r|].
  cbn [object_targets encode_objects fmap list_fmap]. fold (encode_objects os).
  change (read_object _) with (Ok (A:=string * iter) (path, encode_interfaces is_)).
  unfold devices in *. rewrite bind_cons in *. cbn [fst snd] in *. apply Forall_app in Hu as [Hi Hu].
  cbn [mbind result_bind fst snd]. rewrite interface_targets_encoded.
  - cbn [mbind result_bind]. rewrite IH by done. rewrite omap_app, <- (assoc_L app).
    assert (forall l : list properties,
      omap (fun d => device_target d.2) ((fun ps => (path, ps)) <$> l) = omap device_target l) as Hl.
    { induction l as [|ps l IHl]; [done|]. cbn. destruct (device_target ps); [f_equal|]; exact IHl. }
    by rewrite Hl.
  - apply Forall_forall. intros ps Hps. apply (proj1 (Forall_forall _ _) Hi (path, ps)).
    apply list_elem_of_fmap. by exists ps.
Qed.

(** ** The properties *)

(** The bus can be opened, and the first answer lists these objects. *)
Record manages (os : objects) (later : list bus_answer) (b : Bus) : Prop := {
  manages_open : head (connections b) ≫= id = None;
  manages_answer : answers b = Reply [DArray (encode_objects os)] :: later
}.

Lemma open_manages os later b :
  manages os later b ->
  open_system_bus b = (mk_bus (tail (connections b)) (answers b) (calls b), Ok tt).
Proof. intros [Ho _]. unfold open_system_bus. by destruct (connections b) as [|[e|] ?]. Qed.

(** After the objects were asked for. *)
Definition asked (later : list bus_answer) (cs : list bus_call) (b : Bus) : Bus :=
  mk_bus (tail (connections b)) later (calls b ++ get_managed_objects :: cs).

Lemma find_path_manages os later b a :
  answers b = Reply [DArray (encode_objects os)] :: later ->
  find_device_path a b
  = (mk_bus (connections b) later (calls b ++ [get_managed_objects]), Ok (device_path os a)).
Proof.
  intros Ha. unfold find_device_path, call_dbus_method, bus_send, mbind, prog_bind, mret, prog_ret. rewrite Ha.
  cbn [head tail default]. unfold lift, require_array. f_equal. apply find_object_encoded.
Qed.

(** C31. The list of targets is read off the objects BlueZ manages, in their order: one for
    each paired device with a valid address and the modalias of a known controller, online
    when it is connected, named by its name, else its alias, else its address. *)
Theorem bluez_targets_listed (os : objects) (later : list bus_answer) (b : Bus) :
  manages os later b -> unique_properties os ->
  list_bluez_controller_targets b = (asked later [] b, Ok (omap (fun d => device_target d.2) (devices os))).
Proof.
  intros Hm Hu. unfold list_bluez_controller_targets. unfold mbind at 1, prog_bind at 1.
  rewrite (open_manages _ _ _ Hm). destruct Hm as [_ Ha].
  unfold call_dbus_method, bus_send, mbind, prog_bind, mret, prog_ret, lift. cbn [answers connections calls]. rewrite Ha.
  cbn [head tail default]. unfold asked, require_array. f_equal.
  pose proof (object_targets_encoded os [] Hu) as Ht. exact Ht.
Qed.

Lemma device_path_Some os a path :
  device_path os a = Some path -> exists ps, (path, ps) ∈ devices os /\ device_address ps = Some a.
Proof.
  unfold device_path. intros Hp. apply fmap_Some in Hp as ([i [path' ps]] & Hf & ->).
  apply list_find_Some in Hf as (Hi & Ha & _). exists ps. split; [|exact Ha].
  by apply list_elem_of_lookup_2 in Hi.
Qed.

Lemma disconnect_manages os later b text a :
  manages os later b -> normalize_bluetooth_address text = Ok a ->
  disconnect_bluez_device text b
  = match device_path os a with
    | None => mret false
    | Some path =>
        _ ← call_dbus_method (mk_call path kBluezDeviceInterface "Disconnect" []) "failed to disconnect BlueZ device";
        mret true
    end (asked later [] b).
Proof.
  intros Hm Hn. unfold disconnect_bluez_device. unfold mbind at 1, prog_bind at 1, lift. rewrite Hn.
  unfold mbind at 1, prog_bind at 1. rewrite (open_manages _ _ _ Hm). destruct Hm as [_ Ha].
  unfold mbind at 1, prog_bind at 1. rewrite (find_path_manages os later) by done.
  by destruct (device_path os a).
Qed.

(** A device is found by its address, however that is written: the call to disconnect
    goes to the object of a device with this address, the only one made besides the
    question for the objects, and to none when there is no such device; and every target
    that is listed is such a device. *)
Theorem bluez_disconnects_device (os : objects) (later : list bus_answer) (b : Bus) (text a : string) :
  manages os later b -> normalize_bluetooth_address text = Ok a ->
  (match device_path os a with
   | Some path =>
       (exists ps, (path, ps) ∈ devices os /\ device_address ps = Some a)
       /\ exists r, disconnect_bluez_device text b
            = (asked (tail later) [mk_call path kBluezDeviceInterface "Disconnect" []] b, r)
          /\ (r = Ok true <-> exists body, head later = Some (Reply body))
   | None => disconnect_bluez_device text b = (asked later [] b, Ok false)
   end)
  /\ forall path ps t, (path, ps) ∈ devices os -> device_target ps = Some t -> t_address t = a ->
       is_Some (device_path os a).
Proof.
  intros Hm Hn. split.
  - rewrite (disconnect_manages _ _ _ _ _ Hm Hn).
    destruct (device_path os a) as [path|] eqn:Ep; [|done]. split; [by apply device_path_Some|].
    unfold call_dbus_method, bus_send, mbind, prog_bind, mret, prog_ret, throw, asked.
    cbn [answers connections calls]. rewrite <- (assoc_L app).
    destruct later as [|[body|name message] later]; eexists; (split; [reflexivity|]);
      (split; [intros Hr; try discriminate Hr|intros [body' Hb]; try discriminate Hb]).
    + by exists body.
    + reflexivity.
  - intros path ps t Hin Ht Hta. unfold device_path. apply fmap_is_Some.
    eapply list_find_elem_of; [exact Hin|]. change (device_address ps = Some a). unfold device_target in Ht.
    destruct (flag_property "Paired" ps); [|discriminate].
    destruct (device_address ps) as [a'|] eqn:Ed; [|discriminate]. cbn in Ht.
    destruct (text_property "Modalias" ps) as [m|]; [|discriminate]. cbn in Ht.
    destruct (controller_profile_from_modalias m) as [p|]; [|discriminate]. cbn in Ht.
    injection Ht as <-. cbn in Hta. by subst.
Qed.

(** ** The properties on a concrete bus *)

Definition demo_device : properties :=
  [("Address", DVariant (DString "00:11:22:33:44:55")); ("Alias", DVariant (DString "Pad"));
   ("Modalias", DVariant (DString "usb:v054Cp0DF2d0100")); ("Paired", DVariant (DBoolean true));
   ("Connected", DVariant (DBoolean true))].
Definition demo_objects : objects :=
  [("/org/bluez", [("org.bluez.AgentManager1", [])]);
   ("/org/bluez/hci0/dev_1", [(kBluezDeviceInterface, demo_device)])].
Definition demo_bus : Bus := mk_bus [] [Reply [DArray (encode_objects demo_objects)]; Reply []] [].

Lemma demo_manages : manages demo_objects [Reply []] demo_bus.
Proof. split; reflexivity. Qed.

Lemma bluez_targets_listed_witness :
  (list_bluez_controller_targets demo_bus).2 = Ok [mk_target "00:11:22:33:44:55" "Pad" Dse true].
Proof.
  rewrite (bluez_targets_listed demo_objects [Reply []] demo_bus demo_manages).
  - vm_compute. reflexivity.
  - apply Forall_singleton. apply (bool_decide_unpack _). vm_compute. exact I.
Defined.

Lemma bluez_disconnects_device_witness :
  (disconnect_bluez_device "00:11:22:33:44:55" demo_bus).2 = Ok true
  /\ is_Some (device_path demo_objects "00:11:22:33:44:55").
Proof.
  destruct (bluez_disconnects_device demo_objects [Reply []] demo_bus "00:11:22:33:44:55" "00:11:22:33:44:55" demo_manages)
    as [Hd Hp]; [reflexivity|]. split.
  - destruct (device_path demo_objects "00:11:22:33:44:55") as [path|] eqn:E; [|discriminate E].
    destruct Hd as [_ (r & -> & Hr)]. apply Hr. exists []. reflexivity.
  - apply (Hp "/org/bluez/hci0/dev_1" demo_device (mk_target "00:11:22:33:44:55" "Pad" Dse true));
      [vm_compute; left|reflexivity|reflexivity].
Defined.
