(* ===== verification/UsbDescriptors.v ===== *)
(** The USB descriptors of the virtual controller (src/include/vds/ds5_usb.h):
    the tables as they are. *)
From stdpp Require Import base list strings numbers.
From Stdlib Require Import Ascii ZArith Lia.
From S2P Require Import Prelude Text Words.

Local Open Scope Z_scope.

(** ** The tables *)

Definition VDS_USB_MANUFACTURER_STRING : string := "Sony Interactive Entertainment".
Definition VDS_DS5_USB_PRODUCT_STRING : string := "DualSense Wireless Controller".
Definition VDS_DSE_USB_PRODUCT_STRING : string := "DualSense Edge Wireless Controller".

Definition VDS_USB_DEVICE_BCD : Z := 0x0100.
Definition VDS_USB_DEVICE_CLASS : Z := 0x00.
Definition VDS_USB_DEVICE_SUBCLASS : Z := 0x00.
Definition VDS_USB_DEVICE_PROTOCOL : Z := 0x00.
Definition VDS_USB_MAX_PACKET_SIZE0 : Z := 64.
Definition VDS_USB_NUM_CONFIGURATIONS : Z := 1.
Definition VDS_USB_CONFIGURATION_VALUE : Z := 1.

Definition VDS_USB_AUDIO_OUT_INTERFACE : Z := 1.
Definition VDS_USB_AUDIO_IN_INTERFACE : Z := 2.

Definition VDS_USB_AUDIO_OUT_ENDPOINT : Z := 0x01.
Definition VDS_USB_AUDIO_IN_ENDPOINT : Z := 0x82.
Definition VDS_USB_HID_IN_ENDPOINT : Z := 0x84.
Definition VDS_USB_HID_OUT_ENDPOINT : Z := 0x03.

Definition vds_ds5_usb_device_descriptor : list Z :=
  [0x12; 0x01; 0x00; 0x02; VDS_USB_DEVICE_CLASS; VDS_USB_DEVICE_SUBCLASS;
   VDS_USB_DEVICE_PROTOCOL; VDS_USB_MAX_PACKET_SIZE0; 0x4c; 0x05; 0xe6; 0x0c;
   Z.land VDS_USB_DEVICE_BCD 0xff; Z.land (Z.shiftr VDS_USB_DEVICE_BCD 8) 0xff; 0x01; 0x02;
   0x00; VDS_USB_NUM_CONFIGURATIONS].

Definition vds_dse_usb_device_descriptor : list Z :=
  [0x12; 0x01; 0x00; 0x02; VDS_USB_DEVICE_CLASS; VDS_USB_DEVICE_SUBCLASS;
   VDS_USB_DEVICE_PROTOCOL; VDS_USB_MAX_PACKET_SIZE0; 0x4c; 0x05; 0xf2; 0x0d;
   Z.land VDS_USB_DEVICE_BCD 0xff; Z.land (Z.shiftr VDS_USB_DEVICE_BCD 8) 0xff; 0x01; 0x02;
   0x00; VDS_USB_NUM_CONFIGURATIONS].

Definition vds_ds5_usb_configuration_descriptor : list Z :=
  [0x09; 0x02; 0xe3; 0x00; 0x04; 0x01; 0x00; 0xc0; 0xfa; 0x09; 0x04; 0x00; 0x00; 0x00; 0x01;
   0x01; 0x00; 0x00; 0x0a; 0x24; 0x01; 0x00; 0x01; 0x49; 0x00; 0x02; 0x01; 0x02; 0x0c; 0x24;
   0x02; 0x01; 0x01; 0x01; 0x06; 0x04; 0x33; 0x00; 0x00; 0x00; 0x0c; 0x24; 0x06; 0x02; 0x01;
   0x01; 0x03; 0x00; 0x00; 0x00; 0x00; 0x00; 0x09; 0x24; 0x03; 0x03; 0x01; 0x03; 0x04; 0x02;
   0x00; 0x0c; 0x24; 0x02; 0x04; 0x02; 0x04; 0x03; 0x02; 0x03; 0x00; 0x00; 0x00; 0x09; 0x24;
   0x06; 0x05; 0x04; 0x01; 0x03; 0x00; 0x00; 0x09; 0x24; 0x03; 0x06; 0x01; 0x01; 0x01; 0x05;
   0x00; 0x09; 0x04; 0x01; 0x00; 0x00; 0x01; 0x02; 0x00; 0x00; 0x09; 0x04; 0x01; 0x01; 0x01;
   0x01; 0x02; 0x00; 0x00; 0x07; 0x24; 0x01; 0x01; 0x01; 0x01; 0x00; 0x0b; 0x24; 0x02; 0x01;
   0x04; 0x02; 0x10; 0x01; 0x80; 0xbb; 0x00; 0x09; 0x05; 0x01; 0x09; 0x88; 0x01; 0x04; 0x00;
   0x00; 0x07; 0x25; 0x01; 0x00; 0x00; 0x00; 0x00; 0x09; 0x04; 0x02; 0x00; 0x00; 0x01; 0x02;
   0x00; 0x00; 0x09; 0x04; 0x02; 0x01; 0x01; 0x01; 0x02; 0x00; 0x00; 0x07; 0x24; 0x01; 0x06;
   0x01; 0x01; 0x00; 0x0b; 0x24; 0x02; 0x01; 0x02; 0x02; 0x10; 0x01; 0x80; 0xbb; 0x00; 0x09;
   0x05; 0x82; 0x05; 0xc4; 0x00; 0x04; 0x00; 0x00; 0x07; 0x25; 0x01; 0x00; 0x00; 0x00; 0x00;
   0x09; 0x04; 0x03; 0x00; 0x02; 0x03; 0x00; 0x00; 0x00; 0x09; 0x21; 0x11; 0x01; 0x00; 0x01;
   0x22; 0x21; 0x01; 0x07; 0x05; 0x84; 0x03; 0x40; 0x00; 0x06; 0x07; 0x05; 0x03; 0x03; 0x40;
   0x00; 0x06].

Definition vds_ds5_usb_hid_descriptor : list Z :=
  [0x09; 0x21; 0x11; 0x01; 0x00; 0x01; 0x22; 0x21; 0x01].

Definition vds_ds5_usb_hid_report_descriptor : list Z :=
  [0x05; 0x01; 0x09; 0x05; 0xa1; 0x01; 0x85; 0x01; 0x09; 0x30; 0x09; 0x31; 0x09; 0x32; 0x09;
   0x35; 0x09; 0x33; 0x09; 0x34; 0x15; 0x00; 0x26; 0xff; 0x00; 0x75; 0x08; 0x95; 0x06; 0x81;
   0x02; 0x06; 0x00; 0xff; 0x09; 0x20; 0x95; 0x01; 0x81; 0x02; 0x05; 0x01; 0x09; 0x39; 0x15;
   0x00; 0x25; 0x07; 0x35; 0x00; 0x46; 0x3b; 0x01; 0x65; 0x14; 0x75; 0x04; 0x95; 0x01; 0x81;
   0x42; 0x65; 0x00; 0x05; 0x09; 0x19; 0x01; 0x29; 0x0f; 0x15; 0x00; 0x25; 0x01; 0x75; 0x01;
   0x95; 0x0f; 0x81; 0x02; 0x06; 0x00; 0xff; 0x09; 0x21; 0x95; 0x0d; 0x81; 0x02; 0x06; 0x00;
   0xff; 0x09; 0x22; 0x15; 0x00; 0x26; 0xff; 0x00; 0x75; 0x08; 0x95; 0x34; 0x81; 0x02; 0x85;
   0x02; 0x09; 0x23; 0x95; 0x2f; 0x91; 0x02; 0x85; 0x05; 0x09; 0x33; 0x95; 0x28; 0xb1; 0x02;
   0x85; 0x08; 0x09; 0x34; 0x95; 0x2f; 0xb1; 0x02; 0x85; 0x09; 0x09; 0x24; 0x95; 0x13; 0xb1;
   0x02; 0x85; 0x0a; 0x09; 0x25; 0x95; 0x1a; 0xb1; 0x02; 0x85; 0x0b; 0x09; 0x41; 0x95; 0x29;
   0xb1; 0x02; 0x85; 0x0c; 0x09; 0x42; 0x95; 0x29; 0xb1; 0x02; 0x85; 0x20; 0x09; 0x26; 0x95;
   0x3f; 0xb1; 0x02; 0x85; 0x21; 0x09; 0x27; 0x95; 0x04; 0xb1; 0x02; 0x85; 0x22; 0x09; 0x40;
   0x95; 0x3f; 0xb1; 0x02; 0x85; 0x80; 0x09; 0x28; 0x95; 0x3f; 0xb1; 0x02; 0x85; 0x81; 0x09;
   0x29; 0x95; 0x3f; 0xb1; 0x02; 0x85; 0x82; 0x09; 0x2a; 0x95; 0x09; 0xb1; 0x02; 0x85; 0x83;
   0x09; 0x2b; 0x95; 0x3f; 0xb1; 0x02; 0x85; 0x84; 0x09; 0x2c; 0x95; 0x3f; 0xb1; 0x02; 0x85;
   0x85; 0x09; 0x2d; 0x95; 0x02; 0xb1; 0x02; 0x85; 0xa0; 0x09; 0x2e; 0x95; 0x01; 0xb1; 0x02;
   0x85; 0xe0; 0x09; 0x2f; 0x95; 0x3f; 0xb1; 0x02; 0x85; 0xf0; 0x09; 0x30; 0x95; 0x3f; 0xb1;
   0x02; 0x85; 0xf1; 0x09; 0x31; 0x95; 0x3f; 0xb1; 0x02; 0x85; 0xf2; 0x09; 0x32; 0x95; 0x0f;
   0xb1; 0x02; 0x85; 0xf4; 0x09; 0x35; 0x95; 0x3f; 0xb1; 0x02; 0x85; 0xf5; 0x09; 0x36; 0x95;
   0x03; 0xb1; 0x02; 0xc0].

Definition vds_dse_usb_configuration_descriptor : list Z :=
  [0x09; 0x02; 0xe3; 0x00; 0x04; 0x01; 0x00; 0xc0; 0xfa; 0x09; 0x04; 0x00; 0x00; 0x00; 0x01;
   0x01; 0x00; 0x00; 0x0a; 0x24; 0x01; 0x00; 0x01; 0x49; 0x00; 0x02; 0x01; 0x02; 0x0c; 0x24;
   0x02; 0x01; 0x01; 0x01; 0x06; 0x04; 0x33; 0x00; 0x00; 0x00; 0x0c; 0x24; 0x06; 0x02; 0x01;
   0x01; 0x03; 0x00; 0x00; 0x00; 0x00; 0x00; 0x09; 0x24; 0x03; 0x03; 0x01; 0x03; 0x04; 0x02;
   0x00; 0x0c; 0x24; 0x02; 0x04; 0x02; 0x04; 0x03; 0x02; 0x03; 0x00; 0x00; 0x00; 0x09; 0x24;
   0x06; 0x05; 0x04; 0x01; 0x03; 0x00; 0x00; 0x09; 0x24; 0x03; 0x06; 0x01; 0x01; 0x01; 0x05;
   0x00; 0x09; 0x04; 0x01; 0x00; 0x00; 0x01; 0x02; 0x00; 0x00; 0x09; 0x04; 0x01; 0x01; 0x01;
   0x01; 0x02; 0x00; 0x00; 0x07; 0x24; 0x01; 0x01; 0x01; 0x01; 0x00; 0x0b; 0x24; 0x02; 0x01;
   0x04; 0x02; 0x10; 0x01; 0x80; 0xbb; 0x00; 0x09; 0x05; 0x01; 0x09; 0x88; 0x01; 0x04; 0x00;
   0x00; 0x07; 0x25; 0x01; 0x00; 0x00; 0x00; 0x00; 0x09; 0x04; 0x02; 0x00; 0x00; 0x01; 0x02;
   0x00; 0x00; 0x09; 0x04; 0x02; 0x01; 0x01; 0x01; 0x02; 0x00; 0x00; 0x07; 0x24; 0x01; 0x06;
   0x01; 0x01; 0x00; 0x0b; 0x24; 0x02; 0x01; 0x02; 0x02; 0x10; 0x01; 0x80; 0xbb; 0x00; 0x09;
   0x05; 0x82; 0x05; 0xc4; 0x00; 0x04; 0x00; 0x00; 0x07; 0x25; 0x01; 0x00; 0x00; 0x00; 0x00;
   0x09; 0x04; 0x03; 0x00; 0x02; 0x03; 0x00; 0x00; 0x00; 0x09; 0x21; 0x11; 0x01; 0x00; 0x01;
   0x22; 0x95; 0x01; 0x07; 0x05; 0x84; 0x03; 0x40; 0x00; 0x04; 0x07; 0x05; 0x03; 0x03; 0x40;
   0x00; 0x06].

Definition vds_dse_usb_hid_descriptor : list Z :=
  [0x09; 0x21; 0x11; 0x01; 0x00; 0x01; 0x22; 0x95; 0x01].

Definition vds_dse_usb_hid_report_descriptor : list Z :=
  [0x05; 0x01; 0x09; 0x05; 0xa1; 0x01; 0x85; 0x01; 0x09; 0x30; 0x09; 0x31; 0x09; 0x32; 0x09;
   0x35; 0x09; 0x33; 0x09; 0x34; 0x15; 0x00; 0x26; 0xff; 0x00; 0x75; 0x08; 0x95; 0x06; 0x81;
   0x02; 0x06; 0x00; 0xff; 0x09; 0x20; 0x95; 0x01; 0x81; 0x02; 0x05; 0x01; 0x09; 0x39; 0x15;
   0x00; 0x25; 0x07; 0x35; 0x00; 0x46; 0x3b; 0x01; 0x65; 0x14; 0x75; 0x04; 0x95; 0x01; 0x81;
   0x42; 0x65; 0x00; 0x05; 0x09; 0x19; 0x01; 0x29; 0x0f; 0x15; 0x00; 0x25; 0x01; 0x75; 0x01;
   0x95; 0x0f; 0x81; 0x02; 0x06; 0x00; 0xff; 0x09; 0x21; 0x95; 0x0d; 0x81; 0x02; 0x06; 0x00;
   0xff; 0x09; 0x22; 0x15; 0x00; 0x26; 0xff; 0x00; 0x75; 0x08; 0x95; 0x34; 0x81; 0x02; 0x85;
   0x02; 0x09; 0x23; 0x95; 0x3f; 0x91; 0x02; 0x85; 0x05; 0x09; 0x33; 0x95; 0x28; 0xb1; 0x02;
   0x85; 0x08; 0x09; 0x34; 0x95; 0x2f; 0xb1; 0x02; 0x85; 0x09; 0x09; 0x24; 0x95; 0x13; 0xb1;
   0x02; 0x85; 0x0a; 0x09; 0x25; 0x95; 0x1a; 0xb1; 0x02; 0x85; 0x0b; 0x09; 0x41; 0x95; 0x29;
   0xb1; 0x02; 0x85; 0x0c; 0x09; 0x42; 0x95; 0x29; 0xb1; 0x02; 0x85; 0x20; 0x09; 0x26; 0x95;
   0x3f; 0xb1; 0x02; 0x85; 0x21; 0x09; 0x27; 0x95; 0x04; 0xb1; 0x02; 0x85; 0x22; 0x09; 0x40;
   0x95; 0x3f; 0xb1; 0x02; 0x85; 0x80; 0x09; 0x28; 0x95; 0x3f; 0xb1; 0x02; 0x85; 0x81; 0x09;
   0x29; 0x95; 0x3f; 0xb1; 0x02; 0x85; 0x82; 0x09; 0x2a; 0x95; 0x09; 0xb1; 0x02; 0x85; 0x83;
   0x09; 0x2b; 0x95; 0x3f; 0xb1; 0x02; 0x85; 0x84; 0x09; 0x2c; 0x95; 0x3f; 0xb1; 0x02; 0x85;
   0x85; 0x09; 0x2d; 0x95; 0x02; 0xb1; 0x02; 0x85; 0xa0; 0x09; 0x2e; 0x95; 0x01; 0xb1; 0x02;
   0x85; 0xe0; 0x09; 0x2f; 0x95; 0x3f; 0xb1; 0x02; 0x85; 0xf0; 0x09; 0x30; 0x95; 0x3f; 0xb1;
   0x02; 0x85; 0xf1; 0x09; 0x31; 0x95; 0x3f; 0xb1; 0x02; 0x85; 0xf2; 0x09; 0x32; 0x95; 0x34;
   0xb1; 0x02; 0x85; 0xf4; 0x09; 0x35; 0x95; 0x3f; 0xb1; 0x02; 0x85; 0xf5; 0x09; 0x36; 0x95;
   0x03; 0xb1; 0x02; 0x85; 0x60; 0x09; 0x41; 0x95; 0x3f; 0xb1; 0x02; 0x85; 0x61; 0x09; 0x42;
   0xb1; 0x02; 0x85; 0x62; 0x09; 0x43; 0xb1; 0x02; 0x85; 0x63; 0x09; 0x44; 0xb1; 0x02; 0x85;
   0x64; 0x09; 0x45; 0xb1; 0x02; 0x85; 0x65; 0x09; 0x46; 0xb1; 0x02; 0x85; 0x68; 0x09; 0x47;
   0xb1; 0x02; 0x85; 0x70; 0x09; 0x48; 0xb1; 0x02; 0x85; 0x71; 0x09; 0x49; 0xb1; 0x02; 0x85;
   0x72; 0x09; 0x4a; 0xb1; 0x02; 0x85; 0x73; 0x09; 0x4b; 0xb1; 0x02; 0x85; 0x74; 0x09; 0x4c;
   0xb1; 0x02; 0x85; 0x75; 0x09; 0x4d; 0xb1; 0x02; 0x85; 0x76; 0x09; 0x4e; 0xb1; 0x02; 0x85;
   0x77; 0x09; 0x4f; 0xb1; 0x02; 0x85; 0x78; 0x09; 0x50; 0xb1; 0x02; 0x85; 0x79; 0x09; 0x51;
   0xb1; 0x02; 0x85; 0x7a; 0x09; 0x52; 0xb1; 0x02; 0x85; 0x7b; 0x09; 0x53; 0xb1; 0x02; 0xc0].
