(* ===== verification/MicBuffer.v ===== *)
(** The microphone side of the USB/IP device (src/src/platform/win32/vds_usbip.cc):
    the capture gain and the jitter buffer between the daemon's bursts and the
    host's pulls. *)
From stdpp Require Import base list strings numbers.
From Stdlib Require Import Ascii ZArith Lia.
From S2P Require Import Prelude Text Words.

Local Open Scope Z_scope.

(** ** Single-precision numbers

    A finite [float] is a mantissa times a power of two.  Gains are at most 64 and
    samples have 16 bits, so products do not overflow; products below the normal
    range are far below one, and conversion to an integer makes them zero. *)
Record f32 := mk_f32 { mant : Z; expo : Z }.

(** [m * 2^e <= n] and [m * 2^e < n] for an integer [n]. *)
Definition f32_le (x : f32) (n : Z) : bool :=
  if 0 <=? expo x then mant x * 2 ^ expo x <=? n else mant x <=? n * 2 ^ (- expo x).
Definition f32_lt (x : f32) (n : Z) : bool :=
  if 0 <=? expo x then mant x * 2 ^ expo x <? n else mant x <? n * 2 ^ (- expo x).
Definition f32_eq (x : f32) (n : Z) : bool := f32_le x n && negb (f32_lt x n).

(** The nearest number with a mantissa of 24 bits, ties to even. *)
Definition round_half_even (x k : Z) : Z :=
  let q := Z.shiftr x k in
  let r := x - Z.shiftl q k in
  let half := 2 ^ (k - 1) in
  if r <? half then q else if half <? r then q + 1 else if Z.even q then q else q + 1.
Definition round_f32 (x : f32) : f32 :=
  let k := Z.log2 (Z.abs (mant x)) - 23 in
  if k <=? 0 then x else mk_f32 (round_half_even (mant x) k) (expo x + k).

(** [static_cast<float>(s) * gain] *)
Definition f32_scale (s : Z) (gain : f32) : f32 := round_f32 (mk_f32 (s * mant gain) (expo gain)).

(** [static_cast<std::int16_t>(v)]: the fraction is dropped. *)
Definition f32_trunc (x : f32) : Z :=
  if 0 <=? expo x then mant x * 2 ^ expo x else Z.quot (mant x) (2 ^ (- expo x)).

Definition set_mic_capture_gain (gain : f32) : f32 :=
  let gain := if f32_lt gain 0 then mk_f32 0 0 else gain in
  if negb (f32_le gain 64) then mk_f32 64 0 else gain.

(** ** Gain *)

(** One turn of the loop of [apply_pcm_gain_i16]: the two bytes of a sample. *)
Definition gain_sample (lo hi : Z) (gain : f32) : list Z :=
  let s := s16 (Z.lor lo (Z.shiftl hi 8)) in
  let v := f32_scale s gain in
  let o := if negb (f32_le v 32767) then 32767
           else if f32_lt v (-32768) then -32768 else f32_trunc v in
  [Z.land o 0xff; Z.land (Z.shiftr o 8) 0xff].

Fixpoint gain_loop (pcm : list Z) (gain : f32) : list Z :=
  match pcm with
  | lo :: hi :: rest => gain_sample lo hi gain ++ gain_loop rest gain
  | _ => pcm
  end.
Definition apply_pcm_gain_i16 (pcm : list Z) (gain : f32) : list Z :=
  if f32_eq gain 1 then pcm else gain_loop pcm gain.

(** ** The jitter buffer *)

Definition kMicBytesPerMs : nat := 192.
Definition kMicPrimeBytes : nat := 40 * kMicBytesPerMs.
Definition kMicMaxBufferBytes : nat := 120 * kMicBytesPerMs.

Record MicBuffer := mk_mic {
  mic_ring_buffer : list Z;
  mic_primed_ : bool;
  mic_pull_count_ : Z;
  mic_underrun_count_ : Z;
  mic_zero_pad_bytes_ : Z;
  mic_received_bytes_ : Z;
  mic_requested_bytes_ : Z
}.
Definition empty_mic : MicBuffer := mk_mic [] false 0 0 0 0 0.

Definition set_ring (ring : list Z) (primed : bool) (m : MicBuffer) : MicBuffer :=
  mk_mic ring primed (mic_pull_count_ m) (mic_underrun_count_ m) (mic_zero_pad_bytes_ m)
    (mic_received_bytes_ m) (mic_requested_bytes_ m).

(** The arm of [pipe_reader_loop] for a microphone frame. *)
Definition receive_mic (payload : list Z) (gain : f32) (m : MicBuffer) : MicBuffer :=
  let ring := mic_ring_buffer m ++ apply_pcm_gain_i16 payload gain in
  let ring := if (kMicMaxBufferBytes <? length ring)%nat
              then drop (length ring - kMicMaxBufferBytes) ring else ring in
  mk_mic ring (mic_primed_ m) (mic_pull_count_ m) (mic_underrun_count_ m)
    (mic_zero_pad_bytes_ m) (u64 (mic_received_bytes_ m + Z.of_nat (length payload)))
    (mic_requested_bytes_ m).

(** The largest number of bytes a vector can have. *)
Definition vector_max_size : Z := 2 ^ 63 - 1.
Definition length_error : string := "vector too long".

(** [take_mic_bytes]; [count] is a [size_t]. *)
Definition take_mic_bytes (count : Z) : prog MicBuffer (list Z) := fun m =>
  let m := mk_mic (mic_ring_buffer m) (mic_primed_ m) (u64 (mic_pull_count_ m + 1))
             (mic_underrun_count_ m) (mic_zero_pad_bytes_ m) (mic_received_bytes_ m)
             (u64 (mic_requested_bytes_ m + count)) in
  let n := Z.to_nat count in
  let ring := mic_ring_buffer m in
  if negb (mic_primed_ m) && (length ring <? kMicPrimeBytes)%nat then
    if vector_max_size <? count then (m, Throw length_error) else (m, Ok (replicate n 0))
  else
    let m := set_ring ring true m in
    if count <=? Z.of_nat (length ring) then
      (set_ring (drop n ring) true m, Ok (take n ring))
    else
      let padded := mk_mic ring true (mic_pull_count_ m) (mic_underrun_count_ m)
                      (u64 (mic_zero_pad_bytes_ m + (count - Z.of_nat (length ring))))
                      (mic_received_bytes_ m) (mic_requested_bytes_ m) in
      if vector_max_size <? count then (padded, Throw length_error)
      else
        (mk_mic [] false (mic_pull_count_ padded) (u64 (mic_underrun_count_ padded + 1))
           (mic_zero_pad_bytes_ padded) (mic_received_bytes_ padded)
           (mic_requested_bytes_ padded),
         Ok (ring ++ replicate (n - length ring) 0)).

(** Starting or stopping the microphone flushes the buffer. *)
Definition flush_mic (m : MicBuffer) : MicBuffer := set_ring [] false m.

(** ** The gain *)

Definition clamp16 (v : Z) : Z := if 32767 <? v then 32767 else if v <? -32768 then -32768 else v.

(** The sample two bytes hold. *)
Definition sample_of (lo hi : Z) : Z := s16 (Z.lor lo (Z.shiftl hi 8)).

Lemma gain_loop_length pcm gain : length (gain_loop pcm gain) = length pcm.
Proof.
  enough (forall n pcm, (length pcm < n)%nat -> length (gain_loop pcm gain) = length pcm) as Hn
    by by apply (Hn (S (length pcm))); lia.
  induction n as [|n IH]; intros l Hl; [lia|].
  destruct l as [|lo [|hi rest]]; [done..|]. simpl in *. rewrite IH by lia. done.
Qed.

Lemma apply_gain_length pcm gain : length (apply_pcm_gain_i16 pcm gain) = length pcm.
Proof. unfold apply_pcm_gain_i16. destruct (f32_eq gain 1); [done|]. apply gain_loop_length. Qed.

Lemma sample_range lo hi : -32768 <= sample_of lo hi <= 32767.
Proof. pose proof (s16_range (Z.lor lo (Z.shiftl hi 8))) as H. unfold is_s16, sample_of in *. lia. Qed.

Lemma round_small x : Z.abs (mant x) < 2 ^ 24 -> round_f32 x = x.
Proof.
  intros Hx. unfold round_f32. destruct (Z.leb_spec (Z.log2 (Z.abs (mant x)) - 23) 0) as [|Hk]; [done|].
  assert (Z.log2 (Z.abs (mant x)) < 24); [|lia].
  destruct (decide (mant x = 0)) as [->|]; [done|]. apply Z.log2_lt_pow2; lia.
Qed.

(** A 16-bit value and its bytes. *)
Lemma sample_bytes o :
  -32768 <= o <= 32767 -> sample_of (Z.land o 0xff) (Z.land (Z.shiftr o 8) 0xff) = o.
Proof.
  intros Ho. unfold sample_of. rewrite !land_255.
  rewrite Z.shiftr_div_pow2 by lia. change (2 ^ 8) with 256.
  pose proof (Z.mod_pos_bound o 256 ltac:(lia)). pose proof (Z.mod_pos_bound (o / 256) 256 ltac:(lia)).
  rewrite lor_bytes by (unfold is_u8; lia).
  assert (o mod 256 + 256 * ((o / 256) mod 256) = o mod 65536) as ->.
  { pose proof (Z.rem_mul_r o 256 256 ltac:(lia) ltac:(lia)) as Hr.
    change (256 * 256) with 65536 in Hr. lia. }
  unfold s16, signed, u16. change (2 ^ 16) with 65536. change (2 ^ (16 - 1)) with 32768.
  rewrite ?Z.mod_mod by lia. pose proof (Z.div_mod o 65536 ltac:(lia)).
  pose proof (Z.mod_pos_bound o 65536 ltac:(lia)).
  destruct (Z.ltb_spec (o mod 65536) 32768); lia.
Qed.

(** An integer gain is exact: the product has fewer than 24 bits. *)
Lemma gain_sample_integer lo hi g :
  0 <= g <= 64 ->
  gain_sample lo hi (mk_f32 g 0) =
  let o := clamp16 (sample_of lo hi * g) in [Z.land o 0xff; Z.land (Z.shiftr o 8) 0xff].
Proof.
  intros Hg. unfold gain_sample. fold (sample_of lo hi). pose proof (sample_range lo hi) as Hs.
  assert (f32_scale (sample_of lo hi) (mk_f32 g 0) = mk_f32 (sample_of lo hi * g) 0) as ->.
  { apply round_small. simpl. change (2 ^ 24) with 16777216. nia. }
  unfold f32_le, f32_lt, f32_trunc, clamp16. simpl. rewrite !Z.mul_1_r.
  destruct (Z.leb_spec (sample_of lo hi * g) 32767), (Z.ltb_spec 32767 (sample_of lo hi * g)); try lia;
    simpl; [|done]. by destruct (Z.ltb_spec (sample_of lo hi * g) (-32768)).
Qed.

(** The samples of a buffer, a last odd byte left out. *)
Fixpoint samples (pcm : list Z) : list Z :=
  match pcm with
  | lo :: hi :: rest => sample_of lo hi :: samples rest
  | _ => []
  end.

Lemma gain_samples pcm g :
  0 <= g <= 64 -> samples (gain_loop pcm (mk_f32 g 0)) = (fun s => clamp16 (s * g)) <$> samples pcm.
Proof.
  intros Hg. enough (forall n pcm, (length pcm < n)%nat ->
    samples (gain_loop pcm (mk_f32 g 0)) = (fun s => clamp16 (s * g)) <$> samples pcm) as Hn
    by by apply (Hn (S (length pcm))); lia.
  induction n as [|n IH]; intros l Hl; [lia|]. destruct l as [|lo [|hi rest]]; [done..|].
  cbn [gain_loop samples]. rewrite gain_sample_integer by done. cbv zeta. cbn [app samples].
  rewrite sample_bytes.
  - simpl in Hl. rewrite IH by lia. done.
  - unfold clamp16. repeat (case_match; try lia).
Qed.

Lemma apply_gain_samples pcm g :
  1 <= g <= 64 ->
  samples (apply_pcm_gain_i16 pcm (mk_f32 g 0)) = (fun s => clamp16 (s * g)) <$> samples pcm.
Proof.
  intros Hg. unfold apply_pcm_gain_i16. destruct (f32_eq (mk_f32 g 0) 1) eqn:He; [|by apply gain_samples; lia].
  unfold f32_eq, f32_le, f32_lt in He. simpl in He. assert (g = 1) as -> by lia.
  rewrite <- (gain_samples pcm 1) by lia.
  enough (forall n pcm, (length pcm < n)%nat -> samples pcm = samples (gain_loop pcm (mk_f32 1 0))) as Hn
    by by apply (Hn (S (length pcm))); lia.
  clear. induction n as [|n IH]; intros l Hl; [lia|]. destruct l as [|lo [|hi rest]]; [done..|].
  cbn [gain_loop samples]. rewrite gain_sample_integer by lia. cbv zeta. cbn [app samples].
  pose proof (sample_range lo hi). rewrite Z.mul_1_r.
  assert (clamp16 (sample_of lo hi) = sample_of lo hi) as ->.
  { unfold clamp16. repeat (case_match; try lia). }
  rewrite sample_bytes by done. simpl in Hl. by rewrite <- IH by lia.
Qed.

(** ** The jitter buffer *)

(** What a pull gives: data of the buffer, then silence. *)
Lemma take_mic_spec count m :
  0 <= count <= vector_max_size ->
  exists real m',
    take_mic_bytes count m =
      (m', Ok (real ++ replicate (Z.to_nat count - length real) 0)) /\
    mic_ring_buffer m = real ++ mic_ring_buffer m' /\ (length real <= Z.to_nat count)%nat /\
    (real <> [] -> mic_primed_ m = true \/ (kMicPrimeBytes <= length (mic_ring_buffer m))%nat) /\
    ((length real < Z.to_nat count)%nat -> mic_primed_ m' = false).
Proof.
  intros [Hc Hmax]. unfold take_mic_bytes. cbn [mic_ring_buffer mic_primed_].
  rewrite (proj2 (Z.ltb_ge _ _) Hmax). generalize (mic_ring_buffer m) as ring. intros ring.
  destruct (negb (mic_primed_ m) && (length ring <? kMicPrimeBytes)%nat) eqn:Hp.
  - exists [], (mk_mic ring (mic_primed_ m) (u64 (mic_pull_count_ m + 1)) (mic_underrun_count_ m)
      (mic_zero_pad_bytes_ m) (mic_received_bytes_ m) (u64 (mic_requested_bytes_ m + count))).
    rewrite Nat.sub_0_r. apply andb_true_iff in Hp as [Hp%negb_true_iff _].
    split_and!; [done..|simpl; lia|done|done].
  - assert (mic_primed_ m = true \/ (kMicPrimeBytes <= length ring)%nat) as Hprime.
    { apply andb_false_iff in Hp as [Hp%negb_false_iff|Hp%Nat.ltb_ge]; auto. }
    destruct (Z.leb_spec count (Z.of_nat (length ring))) as [Hle|Hgt].
    + eexists (take (Z.to_nat count) ring), _.
      assert (length (take (Z.to_nat count) ring) = Z.to_nat count) as Hl by (rewrite length_take; lia).
      rewrite Hl, Nat.sub_diag, app_nil_r. split; [reflexivity|]. simpl.
      split_and!; [by rewrite take_drop|lia|done|lia].
    + eexists ring, _. split; [reflexivity|]. simpl. rewrite app_nil_r. split_and!; [done|lia|done|done].
Qed.

Lemma receive_mic_spec payload gain m :
  exists dropped,
    mic_ring_buffer m ++ apply_pcm_gain_i16 payload gain =
      dropped ++ mic_ring_buffer (receive_mic payload gain m) /\
    (length (mic_ring_buffer (receive_mic payload gain m)) <= kMicMaxBufferBytes)%nat /\
    ((length (mic_ring_buffer m) + length payload <= kMicMaxBufferBytes)%nat -> dropped = []).
Proof.
  unfold receive_mic. simpl. set (ring := mic_ring_buffer m ++ _).
  assert (length ring = length (mic_ring_buffer m) + length payload)%nat as Hl
    by (unfold ring; by rewrite length_app, apply_gain_length).
  destruct (Nat.ltb_spec kMicMaxBufferBytes (length ring)).
  - exists (take (length ring - kMicMaxBufferBytes) ring). rewrite take_drop.
    split; [done|]. rewrite length_drop. split; lia.
  - exists []. split; [done|]. split; [lia|done].
Qed.

(** *** A run of bursts and pulls *)

Inductive mic_event :=
  | Burst (payload : list Z)
  | Pull (count : Z).

Fixpoint mic_run (gain : f32) (events : list mic_event) (m : MicBuffer) :
    list (list Z) * MicBuffer :=
  match events with
  | [] => ([], m)
  | Burst payload :: rest => mic_run gain rest (receive_mic payload gain m)
  | Pull count :: rest =>
      match take_mic_bytes count m with
      | (m', Ok out) => let '(outs, m'') := mic_run gain rest m' in (out :: outs, m'')
      | (m', Throw _) => mic_run gain rest m'
      end
  end.

Fixpoint bursts (gain : f32) (events : list mic_event) : list Z :=
  match events with
  | [] => []
  | Burst payload :: rest => apply_pcm_gain_i16 payload gain ++ bursts gain rest
  | Pull _ :: rest => bursts gain rest
  end.

Fixpoint pulls (events : list mic_event) : list Z :=
  match events with
  | [] => []
  | Burst _ :: rest => pulls rest
  | Pull count :: rest => count :: pulls rest
  end.

(** [reals] are the parts of the outputs that are not padding. *)
Definition padded (out real : list Z) : Prop := exists k, out = real ++ replicate k 0.

Lemma mic_run_spec gain events m :
  Forall (fun c => 0 <= c <= vector_max_size) (pulls events) ->
  (length (mic_ring_buffer m) <= kMicMaxBufferBytes)%nat ->
  exists reals,
    let '(outs, m') := mic_run gain events m in
    (fun out => Z.of_nat (length out)) <$> outs = pulls events /\ Forall2 padded outs reals /\
    (length (mic_ring_buffer m') <= kMicMaxBufferBytes)%nat /\
    sublist (concat reals ++ mic_ring_buffer m') (mic_ring_buffer m ++ bursts gain events) /\
    ((length (mic_ring_buffer m) + length (bursts gain events) <= kMicMaxBufferBytes)%nat ->
     concat reals ++ mic_ring_buffer m' = mic_ring_buffer m ++ bursts gain events).
Proof.
  revert m. induction events as [|[payload|count] rest IH]; intros m Hp Hcap; cbn [mic_run].
  - exists []. simpl. rewrite app_nil_r. split_and!; [done|constructor|done|done|done].
  - destruct (receive_mic_spec payload gain m) as (dropped & Hr & Hl & Hd).
    destruct (IH (receive_mic payload gain m)) as (reals & IHr); [done|done|]. exists reals.
    destruct (mic_run gain rest _) as [outs m']. destruct IHr as (Ho & Hpad & Hl' & Hsub & Heq).
    cbn [pulls bursts]. rewrite (app_assoc (mic_ring_buffer m)), Hr, <- app_assoc.
    split_and!; [done..|by apply sublist_inserts_l|].
    rewrite length_app, apply_gain_length. intros Hfit. rewrite Hd in * by lia. apply Heq.
    apply (f_equal length) in Hr. rewrite length_app, apply_gain_length in Hr. cbn [app] in Hr. lia.
  - cbn [pulls] in Hp. apply Forall_cons_1 in Hp as [Hc Hp].
    destruct (take_mic_spec count m Hc) as (real & m1 & Ht & Hring & Hlr & _ & _). rewrite Ht.
    assert (length (mic_ring_buffer m1) <= kMicMaxBufferBytes)%nat as Hcap1
      by (rewrite Hring, length_app in Hcap; lia).
    destruct (IH m1 Hp Hcap1) as (reals & IHr). exists (real :: reals).
    destruct (mic_run gain rest m1) as [outs m']. destruct IHr as (Ho & Hpad & Hl' & Hsub & Heq).
    cbn [pulls bursts concat]. rewrite Hring, <- !app_assoc. split_and!.
    + rewrite fmap_cons, Ho, length_app, length_replicate. f_equal. lia.
    + constructor; [by eexists|done].
    + done.
    + by apply sublist_app.
    + intros Hfit. f_equal. apply Heq. rewrite length_app in Hfit. lia.
Qed.
