(* ===== verification/Usbip.v ===== *)
(** The USB/IP device of the Windows daemon (src/src/platform/win32/vds_usbip.cc):
    the wire format, the USB requests, the daemon's frames, the pacing of
    isochronous replies, and a session with a client.

    Three threads share the device: the session, the reader of the daemon's pipe
    and the pacer.  Each of their critical sections is one operation here.  What the
    reader does while the session waits is an input: [arrivals] has, for each wait,
    the frames that come in before the wait returns.  Times are nanoseconds of the
    steady clock; the state of the pipe and of the socket is [pipe_ok] and
    [socket_ok], one entry per write, and writes succeed when there is none. *)
From stdpp Require Import base list strings numbers.
From Stdlib Require Import Ascii ZArith Lia.
From S2P Require Import Prelude Text Words BtPacket Profile UsbDescriptors MicBuffer.

Local Open Scope Z_scope.

(** ** Wire format: fields in network byte order *)

Definition kProtocolVersion : Z := 0x0111.
Definition kOpReqDevlist : Z := 0x8005.
Definition kOpRepDevlist : Z := 0x0005.
Definition kOpReqImport : Z := 0x8003.
Definition kOpRepImport : Z := 0x0003.
Definition kCmdSubmit : Z := 0x00000001.
Definition kRetSubmit : Z := 0x00000003.
Definition kCmdUnlink : Z := 0x00000002.
Definition kRetUnlink : Z := 0x00000004.
Definition kDirOut : Z := 0.
Definition kDirIn : Z := 1.
Definition kBusId : string := "1-1".
Definition kPath : string := "/vds/virtual/dualsense".

Definition kEpAudioOut : Z := Z.land VDS_USB_AUDIO_OUT_ENDPOINT 0x0f.
Definition kEpAudioIn : Z := Z.land VDS_USB_AUDIO_IN_ENDPOINT 0x0f.
Definition kEpHidIn : Z := Z.land VDS_USB_HID_IN_ENDPOINT 0x0f.
Definition kEpHidOut : Z := Z.land VDS_USB_HID_OUT_ENDPOINT 0x0f.

(** [hton16], [hton32] as the bytes that are sent; [ntoh16], [ntoh32] of the bytes
    that were received. *)
Definition hton16 (v : Z) : list Z := rev (le_bytes 2 v).
Definition hton32 (v : Z) : list Z := rev (le_bytes 4 v).
Definition ntoh (bytes : list Z) : Z := le_value (rev bytes).

Record UsbipHeaderBasic := mk_basic {
  command : Z; seqnum : Z; devid : Z; direction : Z; ep : Z
}.

(** The fields of [UsbipCmdSubmit] that are used; [start_frame] and [interval] are
    received and ignored. *)
Record UsbipCmdSubmit := mk_submit {
  base : UsbipHeaderBasic;
  transfer_flags : Z;
  transfer_buffer_length : Z;
  number_of_packets : Z;
  setup : list Z
}.

Definition cmd_size : nat := 48.
Definition field (bytes : list Z) (at_ : nat) : Z := ntoh (take 4 (drop at_ bytes)).
Definition decode_cmd (bytes : list Z) : UsbipCmdSubmit :=
  mk_submit (mk_basic (field bytes 0) (field bytes 4) (field bytes 8) (field bytes 12) (field bytes 16))
    (field bytes 20) (s32 (field bytes 24)) (s32 (field bytes 32)) (take 8 (drop 40 bytes)).

Record UsbipIsoPacketDescriptor := mk_iso { offset : Z; length_ : Z }.
Definition iso_size : nat := 16.
Definition decode_iso (bytes : list Z) : UsbipIsoPacketDescriptor :=
  mk_iso (field bytes 0) (field bytes 4).
Fixpoint decode_isos (n : nat) (bytes : list Z) : list UsbipIsoPacketDescriptor :=
  match n with
  | O => []
  | S n' => decode_iso (take iso_size bytes) :: decode_isos n' (drop iso_size bytes)
  end.

(** [UsbipRetSubmit]; the fields that are not set stay zero. *)
Definition ret_submit (b : UsbipHeaderBasic) (status actual_length packets : Z) : list Z :=
  hton32 kRetSubmit ++ hton32 (seqnum b) ++ hton32 (devid b) ++ hton32 (direction b)
  ++ hton32 (ep b) ++ hton32 (u32 status) ++ hton32 actual_length ++ hton32 0
  ++ hton32 (u32 packets) ++ hton32 0 ++ replicate 8 0.

Definition ret_unlink (seq : Z) : list Z :=
  hton32 kRetUnlink ++ hton32 seq ++ replicate 40 0.

(** ** Descriptors *)

Definition text_bytes (text : string) : list Z := code <$> String.list_ascii_of_string text.

Definition build_string_descriptor (text : string) : list Z :=
  let units := concat ((fun c => [c; 0]) <$> text_bytes text) in
  u8 (Z.of_nat (2 + length units)) :: 0x03 :: units.
Definition build_langid_descriptor : list Z := [0x04; 0x03; 0x09; 0x04].

Record ProfileDescriptors := mk_descriptors {
  device : list Z; config : list Z; hid : list Z; hid_report : list Z;
  idVendor : Z; idProduct : Z
}.
Definition descriptors_for_profile (profile : Z) : ProfileDescriptors :=
  if profile =? VDS_PROFILE_DSE then
    mk_descriptors vds_dse_usb_device_descriptor vds_dse_usb_configuration_descriptor
      vds_dse_usb_hid_descriptor vds_dse_usb_hid_report_descriptor 0x054c 0x0df2
  else
    mk_descriptors vds_ds5_usb_device_descriptor vds_ds5_usb_configuration_descriptor
      vds_ds5_usb_hid_descriptor vds_ds5_usb_hid_report_descriptor 0x054c 0x0ce6.

(** [strncpy] into a zeroed array of the given size. *)
Definition padded_text (size : nat) (text : string) : list Z :=
  let t := take (size - 1) (text_bytes text) in t ++ replicate (size - length t) 0.

(** [WireUsbDevice] as [tcp_server_loop] and [handle_import_session] fill it. *)
Definition wire_device (profile : Z) : list Z :=
  let desc := descriptors_for_profile profile in
  padded_text 256 kPath ++ padded_text 32 kBusId
  ++ hton32 1 ++ hton32 1 ++ hton32 3
  ++ hton16 (idVendor desc) ++ hton16 (idProduct desc) ++ hton16 VDS_USB_DEVICE_BCD
  ++ [byte_at (device desc) 4; byte_at (device desc) 5; byte_at (device desc) 6;
      VDS_USB_CONFIGURATION_VALUE; VDS_USB_NUM_CONFIGURATIONS; 4].

Definition op_reply (code : Z) : list Z := hton16 kProtocolVersion ++ hton16 code ++ hton32 0.
(** The interface table: audio control, audio out, audio in, HID. *)
Definition wire_interfaces : list Z :=
  [0x01; 0x01; 0x00; 0;  0x01; 0x02; 0x00; 0;  0x01; 0x02; 0x00; 0;  0x03; 0x00; 0x00; 0].

(** ** The state *)

Record Frame := mk_frame { frame_type : Z; payload : list Z }.
(** [Frame reply;] *)
Definition no_frame : Frame := mk_frame 0 [].

(** A reply waiting for its time. *)
Record PacedReply := mk_paced { due : Z; bytes : list Z }.

Record Impl := mk_impl {
  profile : Z;
  hid_in_queue : list Frame;
  feature_reply_queue : list Frame;
  mic : MicBuffer;
  mic_gain : f32;
  paced_replies : list PacedReply;
  iso_out_next_due : Z;
  iso_in_next_due : Z;
  speaker_gain_q15 : Z;
  fu_volume_db256 : Z;
  fu_muted : bool;
  to_daemon : list (Z * list Z);    (* frames written to the daemon's pipe *)
  to_client : list Z;               (* bytes sent on the socket *)
  arrivals : list (list Frame);
  pipe_ok : list bool;
  socket_ok : list bool;
  attached : bool
}.

Definition set_queues hid_q feature_q (m : MicBuffer) (s : Impl) : Impl :=
  mk_impl (profile s) hid_q feature_q m (mic_gain s) (paced_replies s) (iso_out_next_due s)
    (iso_in_next_due s) (speaker_gain_q15 s) (fu_volume_db256 s) (fu_muted s) (to_daemon s)
    (to_client s) (arrivals s) (pipe_ok s) (socket_ok s)
    (attached s).
Definition set_mic (m : MicBuffer) (s : Impl) : Impl :=
  set_queues (hid_in_queue s) (feature_reply_queue s) m s.
Definition set_volume gain volume muted (s : Impl) : Impl :=
  mk_impl (profile s) (hid_in_queue s) (feature_reply_queue s) (mic s) (mic_gain s)
    (paced_replies s) (iso_out_next_due s) (iso_in_next_due s) gain volume muted (to_daemon s)
    (to_client s) (arrivals s) (pipe_ok s) (socket_ok s)
    (attached s).
Definition set_pacer replies out_due in_due (s : Impl) : Impl :=
  mk_impl (profile s) (hid_in_queue s) (feature_reply_queue s) (mic s) (mic_gain s)
    replies out_due in_due (speaker_gain_q15 s) (fu_volume_db256 s) (fu_muted s) (to_daemon s)
    (to_client s) (arrivals s) (pipe_ok s) (socket_ok s)
    (attached s).
Definition set_arrivals frames (s : Impl) : Impl :=
  mk_impl (profile s) (hid_in_queue s) (feature_reply_queue s) (mic s) (mic_gain s)
    (paced_replies s) (iso_out_next_due s) (iso_in_next_due s) (speaker_gain_q15 s)
    (fu_volume_db256 s) (fu_muted s) (to_daemon s) (to_client s) frames (pipe_ok s) (socket_ok s)
    (attached s).
Definition set_pipe frames oks (s : Impl) : Impl :=
  mk_impl (profile s) (hid_in_queue s) (feature_reply_queue s) (mic s) (mic_gain s)
    (paced_replies s) (iso_out_next_due s) (iso_in_next_due s) (speaker_gain_q15 s)
    (fu_volume_db256 s) (fu_muted s) frames (to_client s) (arrivals s) oks (socket_ok s) (attached s).
Definition set_socket sent oks (s : Impl) : Impl :=
  mk_impl (profile s) (hid_in_queue s) (feature_reply_queue s) (mic s) (mic_gain s)
    (paced_replies s) (iso_out_next_due s) (iso_in_next_due s) (speaker_gain_q15 s)
    (fu_volume_db256 s) (fu_muted s) (to_daemon s) sent (arrivals s) (pipe_ok s) oks (attached s).
Definition set_attached (b : bool) (s : Impl) : Impl :=
  mk_impl (profile s) (hid_in_queue s) (feature_reply_queue s) (mic s) (mic_gain s)
    (paced_replies s) (iso_out_next_due s) (iso_in_next_due s) (speaker_gain_q15 s)
    (fu_volume_db256 s) (fu_muted s) (to_daemon s) (to_client s) (arrivals s) (pipe_ok s)
    (socket_ok s) b.

(** ** The daemon's pipe *)

(** One frame of [pipe_reader_loop]. *)
Definition demux_frame (frame : Frame) (s : Impl) : Impl :=
  if frame_type frame =? VDS_FRAME_USB_HID_IN then
    let q := hid_in_queue s ++ [frame] in
    set_queues (if (8 <? length q)%nat then tail q else q) (feature_reply_queue s) (mic s) s
  else if frame_type frame =? VDS_FRAME_USB_FEATURE_REPLY then
    set_queues (hid_in_queue s) (feature_reply_queue s ++ [frame]) (mic s) s
  else if frame_type frame =? VDS_FRAME_USB_AUDIO_IN then
    set_mic (receive_mic (payload frame) (mic_gain s) (mic s)) s
  else s.

Definition demux_frames (frames : list Frame) (s : Impl) : Impl :=
  foldl (fun s frame => demux_frame frame s) s frames.

(** What the reader does during one wait. *)
Definition wait_arrivals (s : Impl) : Impl :=
  match arrivals s with
  | [] => s
  | frames :: rest => demux_frames frames (set_arrivals rest s)
  end.

(** The first frame of the queue, when there is one at the end of the wait. *)
Definition wait_for_hid_in_frame : prog Impl (option Frame) := fun s =>
  let s := wait_arrivals s in
  match hid_in_queue s with
  | [] => (s, Ok None)
  | f :: rest => (set_queues rest (feature_reply_queue s) (mic s) s, Ok (Some f))
  end.
Definition wait_for_feature_reply : prog Impl (option Frame) := fun s =>
  let s := wait_arrivals s in
  match feature_reply_queue s with
  | [] => (s, Ok None)
  | f :: rest => (set_queues (hid_in_queue s) rest (mic s) s, Ok (Some f))
  end.

Definition write_daemon_frame (t : Z) (data : list Z) : prog Impl unit := fun s =>
  match frame_bytes t data with
  | Throw e => (s, Throw e)
  | Ok _ =>
      let ok := match pipe_ok s with [] => true | b :: _ => b end in
      if ok then (set_pipe (to_daemon s ++ [(t, data)]) (tail (pipe_ok s)) s, Ok tt)
      else (set_pipe (to_daemon s) (tail (pipe_ok s)) s, Throw "usbip-bridge write failed")
  end.

(** [send_exact]; what is sent of a message that fails does not matter, since the
    session ends. *)
Definition send_exact (message : list Z) : prog Impl bool := fun s =>
  let ok := match socket_ok s with [] => true | b :: _ => b end in
  (set_socket (if ok then to_client s ++ message else to_client s) (tail (socket_ok s)) s, Ok ok).

Definition on_mic {A} (m : prog MicBuffer A) : prog Impl A := fun s =>
  let '(mic', r) := m (mic s) in (set_mic mic' s, r).

(** ** Control requests *)

Section Device.
(** The speaker gain [update_speaker_gain] computes from a volume in 1/256 dB with
    the C library's [pow]: [2 ^ 15] times the linear gain, clamped to 0..1 and
    rounded. *)
Context (volume_gain : Z -> Z).

Definition update_speaker_gain (s : Impl) : Impl :=
  set_volume (if fu_muted s then 0 else volume_gain (fu_volume_db256 s))
    (fu_volume_db256 s) (fu_muted s) s.

Definition get_descriptor (s : Impl) (desc_type desc_index wLength : Z) : list Z :=
  let desc := descriptors_for_profile (profile s) in
  let clip (src : list Z) := take (Z.to_nat wLength) src in
  if desc_type =? 0x01 then clip (device desc)
  else if desc_type =? 0x02 then clip (config desc)
  else if desc_type =? 0x21 then clip (hid desc)
  else if desc_type =? 0x22 then clip (hid_report desc)
  else if desc_type =? 0x03 then
    if desc_index =? 0 then clip build_langid_descriptor
    else if desc_index =? 1 then clip (build_string_descriptor VDS_USB_MANUFACTURER_STRING)
    else if desc_index =? 2 then
      clip (build_string_descriptor
        (if profile s =? VDS_PROFILE_DSE then VDS_DSE_USB_PRODUCT_STRING
         else VDS_DS5_USB_PRODUCT_STRING))
    else []
  else [].

(** The answer to a request for the volume control. *)
Definition volume_answer (bRequest : Z) (s : Impl) : list Z :=
  if bRequest =? 0x82 then [0x01; 0xda]
  else if bRequest =? 0x83 then [0x00; 0x00]
  else if bRequest =? 0x84 then [0x01; 0x00]
  else
    let cur := u16 (fu_volume_db256 s) in
    [Z.land cur 0xff; Z.land (Z.shiftr cur 8) 0xff].

Definition is_feature_unit_request (bmRequestType bRequest : Z) : bool :=
  (Z.land bmRequestType 0x60 =? 0x20) && (Z.land bmRequestType 0x1f =? 0x01)
  && ((bRequest =? 0x81) || (bRequest =? 0x82) || (bRequest =? 0x83) || (bRequest =? 0x84)
      || (bRequest =? 0x01)).

Definition feature_unit (device_to_host : bool) (bRequest selector wLength : Z)
    (out_data : list Z) : prog Impl (list Z) :=
  let is_mute := selector =? 0x01 in
  let is_volume := selector =? 0x02 in
  s ← get_state;
  if device_to_host && (is_mute || is_volume) then
    let answer := if is_mute then [if fu_muted s then 1 else 0] else volume_answer bRequest s in
    mret (take (Z.to_nat wLength) answer)
  else if negb device_to_host && (bRequest =? 0x01) then
    _ ← (if is_mute && negb (length out_data =? 0)%nat then
           modify (fun s => update_speaker_gain
             (set_volume (speaker_gain_q15 s) (fu_volume_db256 s)
                (negb (byte_at out_data 0 =? 0)) s))
         else if is_volume && (2 <=? length out_data)%nat then
           modify (fun s => update_speaker_gain
             (set_volume (speaker_gain_q15 s)
                (s16 (Z.lor (byte_at out_data 0) (Z.shiftl (byte_at out_data 1) 8)))
                (fu_muted s) s))
         else mret tt);
    mret []
  else mret [].

(** SET_INTERFACE: the event for the daemon; the microphone's interface flushes
    the jitter buffer. *)
Definition interface_event (wIndex wValue : Z) : list Z :=
  [u8 wIndex; u8 wValue;
   if wIndex =? VDS_USB_AUDIO_OUT_INTERFACE then 1
   else if wIndex =? VDS_USB_AUDIO_IN_INTERFACE then 2 else 0; 0].

Definition set_interface (wIndex wValue : Z) : prog Impl unit :=
  _ ← (if wIndex =? VDS_USB_AUDIO_OUT_INTERFACE then mret tt
       else if wIndex =? VDS_USB_AUDIO_IN_INTERFACE
       then modify (fun s => set_mic (flush_mic (mic s)) s)
       else mret tt);
  write_daemon_frame VDS_FRAME_USB_INTERFACE (interface_event wIndex wValue).

(** HID GET_REPORT: ask the daemon and wait for its reply. *)
Definition get_report (report_id wLength : Z) : prog Impl (list Z) :=
  _ ← write_daemon_frame VDS_FRAME_USB_FEATURE_GET [report_id];
  reply ← wait_for_feature_reply;
  let reply := default no_frame reply in
  mret (if frame_type reply =? VDS_FRAME_USB_FEATURE_REPLY
        then take (Z.to_nat wLength) (payload reply) else []).

Definition setup_word (setup : list Z) (i : nat) : Z :=
  Z.lor (byte_at setup i) (Z.shiftl (byte_at setup (S i)) 8).

(** The branch of [handle_cmd_submit] for endpoint 0: the status and the data of
    the reply. *)
Definition handle_control (setup out_data : list Z) : prog Impl (Z * list Z) :=
  let bmRequestType := byte_at setup 0 in
  let bRequest := byte_at setup 1 in
  let wValue := setup_word setup 2 in
  let wIndex := setup_word setup 4 in
  let wLength := setup_word setup 6 in
  let device_to_host := negb (Z.land bmRequestType 0x80 =? 0) in
  let request_type := Z.land bmRequestType 0x60 in
  '(status, reply_data) ←
    (if (request_type =? 0x00) && (bRequest =? 0x06) && device_to_host then
       s ← get_state;
       mret (0, get_descriptor s (Z.shiftr wValue 8) (Z.land wValue 0xff) wLength)
     else if (request_type =? 0x00) && (bRequest =? 0x09) then mret (0, [])
     else if (bmRequestType =? 0x01) && (bRequest =? 0x0b) then
       _ ← set_interface wIndex wValue; mret (0, [])
     else if (request_type =? 0x20) && (bRequest =? 0x01) && device_to_host then
       d ← get_report (Z.land wValue 0xff) wLength; mret (0, d)
     else if (request_type =? 0x20) && (bRequest =? 0x09) then
       _ ← write_daemon_frame VDS_FRAME_USB_FEATURE_SET out_data; mret (0, [])
     else if is_feature_unit_request bmRequestType bRequest then
       d ← feature_unit device_to_host bRequest (Z.land (Z.shiftr wValue 8) 0xff) wLength out_data;
       mret (0, d)
     else mret (-32, []));
  mret (status, if device_to_host then take (Z.to_nat wLength) reply_data else reply_data).

(** ** Isochronous data *)

(** One sample of the speaker at the given gain. *)
Definition scale_sample (lo hi gain_q15 : Z) : list Z :=
  let scaled := Z.shiftr (sample_of lo hi * gain_q15) 15 in
  let clamped := clamp16 scaled in
  [Z.land clamped 0xff; Z.land (Z.shiftr clamped 8) 0xff].

(** The loop over the frames of four channels; the last two are haptics. *)
Fixpoint scale_frames (pcm : list Z) (gain_q15 : Z) : list Z :=
  match pcm with
  | l0 :: l1 :: r0 :: r1 :: a0 :: a1 :: b0 :: b1 :: rest =>
      scale_sample l0 l1 gain_q15 ++ scale_sample r0 r1 gain_q15 ++ [a0; a1; b0; b1]
      ++ scale_frames rest gain_q15
  | _ => pcm
  end.
Definition apply_speaker_gain (pcm : list Z) (gain_q15 : Z) : list Z :=
  if gain_q15 =? Z.shiftl 1 15 then pcm else scale_frames pcm gain_q15.

(** What one packet of a reply carried, as an unsigned number. *)
Definition iso_actual (dir size : Z) (d : UsbipIsoPacketDescriptor) : Z :=
  if dir =? kDirIn then
    if size <=? offset d then 0 else Z.min (length_ d) (size - offset d)
  else length_ d.
Definition iso_reply (dir size : Z) (d : UsbipIsoPacketDescriptor) : list Z :=
  hton32 (offset d) ++ hton32 (length_ d) ++ hton32 (iso_actual dir size d) ++ hton32 0.

Definition sum_list (l : list Z) : Z := foldr Z.add 0 l.

(** ** Pacing *)

(** [multimap::emplace]: behind the entries that are due at the same time. *)
Fixpoint emplace (r : PacedReply) (replies : list PacedReply) : list PacedReply :=
  match replies with
  | [] => [r]
  | x :: rest => if due r <? due x then r :: replies else x :: emplace r rest
  end.

Definition milliseconds (n : Z) : Z := n * 1000000.

(** When a reply is due, and the anchor of the next one. *)
Definition pace (now anchor packets : Z) : Z * Z :=
  let anchor := if (anchor =? 0) || (anchor <? now - milliseconds 250) then now else anchor in
  (anchor, anchor + milliseconds packets).

Definition enqueue_paced (out : bool) (now packets : Z) (message : list Z) : prog Impl unit :=
  modify (fun s =>
    let '(t, next) := pace now (if out then iso_out_next_due s else iso_in_next_due s) packets in
    set_pacer (emplace (mk_paced t message) (paced_replies s))
      (if out then next else iso_out_next_due s) (if out then iso_in_next_due s else next) s).

(** One turn of [iso_pacer_loop] at time [now]. *)
Definition pacer_step (now : Z) : prog Impl unit := fun s =>
  match paced_replies s with
  | [] => (s, Ok tt)
  | r :: rest =>
      if now <? due r then (s, Ok tt)
      else (_ ← send_exact (bytes r); mret tt)
             (set_pacer rest (iso_out_next_due s) (iso_in_next_due s) s)
  end.

(** ** A request *)

Definition is_audio_out (cmd : UsbipCmdSubmit) : bool :=
  (ep (base cmd) =? kEpAudioOut) && (direction (base cmd) =? kDirOut).
Definition is_audio_in (cmd : UsbipCmdSubmit) : bool :=
  (ep (base cmd) =? kEpAudioIn) && (direction (base cmd) =? kDirIn).

(** [static_cast<std::size_t>] of a signed 32-bit number. *)
Definition size_of_s32 (z : Z) : Z := u64 z.

(** The status, the data and the packet count of the reply. *)
Definition perform (cmd : UsbipCmdSubmit) (out_data : list Z) : prog Impl (Z * list Z * Z) :=
  let b := base cmd in
  if ep b =? 0 then
    '(status, d) ← handle_control (setup cmd) out_data; mret (status, d, 0)
  else if (ep b =? kEpHidIn) && (direction b =? kDirIn) then
    frame ← wait_for_hid_in_frame;
    mret (0, from_option payload [] frame, 0)
  else if (ep b =? kEpHidOut) && (direction b =? kDirOut) then
    _ ← write_daemon_frame VDS_FRAME_USB_HID_OUT out_data; mret (0, [], 0)
  else if is_audio_out cmd then
    s ← get_state;
    _ ← write_daemon_frame VDS_FRAME_USB_AUDIO_OUT (apply_speaker_gain out_data (speaker_gain_q15 s));
    mret (0, [], number_of_packets cmd)
  else if is_audio_in cmd then
    d ← on_mic (take_mic_bytes (size_of_s32 (transfer_buffer_length cmd)));
    mret (0, d, number_of_packets cmd)
  else mret (-32, [], 0).

Definition handle_cmd_submit (now : Z) (cmd : UsbipCmdSubmit) (out_data : list Z)
    (iso_descriptors : list UsbipIsoPacketDescriptor) : prog Impl bool :=
  let b := base cmd in
  '(status, reply_data, packets) ← perform cmd out_data;
  let size := Z.of_nat (length reply_data) in
  let has_packets := 0 <? number_of_packets cmd in
  let reply_iso := if has_packets
                   then concat (iso_reply (direction b) size <$> iso_descriptors) else [] in
  let actual_length := if has_packets
    then u32 (sum_list (iso_actual (direction b) size <$> iso_descriptors)) else u32 size in
  let ret := ret_submit b status actual_length packets in
  let pace_out := is_audio_out cmd && has_packets in
  let pace_in := is_audio_in cmd && has_packets in
  if pace_out || pace_in then
    _ ← enqueue_paced pace_out now (number_of_packets cmd)
          (ret ++ (if pace_in then reply_data else []) ++ reply_iso);
    mret true
  else
    sent ← send_exact ret;
    if negb sent : bool then mret false
    else
      sent ← (if (length reply_data =? 0)%nat then mret true else send_exact reply_data);
      if negb sent : bool then mret false
      else if (length reply_iso =? 0)%nat then mret true else send_exact reply_iso.

(** ** A session *)

(** What the other threads do before a request is handled, and when it is: the
    frames [wait_arrivals] takes come in while the session waits for the client, and
    the pacer has a turn at each of [pacer_times]. *)
Record Turn := mk_turn { pacer_times : list Z; now : Z }.

Fixpoint pacer_turns (times : list Z) : prog Impl unit :=
  match times with
  | [] => mret tt
  | t :: times' => _ ← pacer_step t; pacer_turns times'
  end.
Definition environment (turn : Turn) : prog Impl unit :=
  _ ← modify wait_arrivals; pacer_turns (pacer_times turn).

(** The loop of [handle_import_session], one entry of [turns] per request;
    [stop_requested] is set when they end.  [incoming] is what the client sends until
    it closes the connection. *)
Fixpoint session_loop (turns : list Turn) (incoming : list Z) : prog Impl unit :=
  match turns with
  | [] => mret tt
  | turn :: turns' =>
      _ ← environment turn;
      if (length incoming <? cmd_size)%nat then mret tt
      else
        let cmd := decode_cmd (take cmd_size incoming) in
        let incoming := drop cmd_size incoming in
        if command (base cmd) =? kCmdUnlink then
          _ ← send_exact (ret_unlink (seqnum (base cmd))); session_loop turns' incoming
        else if negb (command (base cmd) =? kCmdSubmit) then mret tt
        else
          let data_size := if (direction (base cmd) =? kDirOut) && (0 <? transfer_buffer_length cmd)
                           then Z.to_nat (transfer_buffer_length cmd) else 0%nat in
          let packets := Z.to_nat (number_of_packets cmd) in
          if (length incoming <? data_size)%nat then mret tt
          else
            let out_data := take data_size incoming in
            let incoming := drop data_size incoming in
            if (length incoming <? iso_size * packets)%nat then mret tt
            else
              let isos := decode_isos packets (take (iso_size * packets) incoming) in
              let incoming := drop (iso_size * packets) incoming in
              more ← try_catch (handle_cmd_submit (now turn) cmd out_data isos)
                       (fun _ => mret false);
              if more : bool then session_loop turns' incoming else mret tt
  end.

(** [handle_import_session]; [connected] is whether the daemon's pipe connects. *)
Definition handle_import_session (connected : bool) (turns : list Turn) (incoming : list Z) : prog Impl unit :=
  s ← get_state;
  _ ← send_exact (op_reply kOpRepImport);
  _ ← send_exact (wire_device (profile s));
  _ ← modify (set_attached true);
  if negb connected then modify (set_attached false)
  else
    _ ← session_loop turns incoming;
    _ ← modify (set_attached false);
    modify (set_pacer [] 0 0).

(** One connection of [tcp_server_loop]. *)
Definition serve_connection (connected : bool) (turns : list Turn) (incoming : list Z) : prog Impl unit :=
  if (length incoming <? 8)%nat then mret tt
  else
    let code := ntoh (take 2 (drop 2 incoming)) in
    let incoming := drop 8 incoming in
    if code =? kOpReqDevlist then
      s ← get_state;
      _ ← send_exact (op_reply kOpRepDevlist);
      _ ← send_exact (hton32 1);
      _ ← send_exact (wire_device (profile s));
      _ ← send_exact wire_interfaces;
      mret tt
    else if code =? kOpReqImport then
      if (length incoming <? 32)%nat then mret tt
      else handle_import_session connected turns (drop 32 incoming)
    else mret tt.
End Device.
