(* ===== verification/UsbipFacts.v ===== *)
(** Lemmas on the USB/IP device: the wire format, what each operation leaves
    alone, pacing, and the effect of the speaker's volume. *)
From stdpp Require Import base list strings numbers sorting.
From Stdlib Require Import Ascii ZArith Lia.
From S2P Require Import Prelude Text Words BtPacket Profile UsbDescriptors MicBuffer Usbip.

Local Open Scope Z_scope.

(** ** Network byte order *)

Lemma hton32_length v : length (hton32 v) = 4%nat.
Proof. unfold hton32. by rewrite length_rev, le_bytes_length. Qed.

Lemma ntoh_hton32 v : is_u32 v -> ntoh (hton32 v) = v.
Proof.
  intros Hv. unfold ntoh, hton32. rewrite rev_involutive, le_value_bytes. by apply Z.mod_small.
Qed.

Lemma hton32_ok v : bytes_ok (hton32 v).
Proof.
  unfold hton32, bytes_ok. rewrite Forall_forall. intros b Hb.
  pose proof (le_bytes_ok 4 v) as Hok. unfold bytes_ok in Hok. rewrite Forall_forall in Hok.
  apply Hok. rewrite <- in_rev in Hb || (apply list_elem_of_In in Hb; apply in_rev in Hb; by apply list_elem_of_In).
Qed.

(** A request as a client sends it; the two ignored fields are [start] and [poll]. *)
Definition encode_cmd (c : UsbipCmdSubmit) (start poll : Z) : list Z :=
  hton32 (command (base c)) ++ hton32 (seqnum (base c)) ++ hton32 (devid (base c))
  ++ hton32 (direction (base c)) ++ hton32 (ep (base c)) ++ hton32 (transfer_flags c)
  ++ hton32 (u32 (transfer_buffer_length c)) ++ hton32 start
  ++ hton32 (u32 (number_of_packets c)) ++ hton32 poll ++ setup c.

Definition is_s32 (z : Z) : Prop := - 2 ^ 31 <= z < 2 ^ 31.

Record cmd_ok (c : UsbipCmdSubmit) : Prop := {
  ok_command : is_u32 (command (base c));
  ok_seqnum : is_u32 (seqnum (base c));
  ok_devid : is_u32 (devid (base c));
  ok_direction : is_u32 (direction (base c));
  ok_ep : is_u32 (ep (base c));
  ok_flags : is_u32 (transfer_flags c);
  ok_length : is_s32 (transfer_buffer_length c);
  ok_packets : is_s32 (number_of_packets c);
  ok_setup : length (setup c) = 8%nat
}.

Lemma s32_u32 z : is_s32 z -> s32 (u32 z) = z.
Proof.
  unfold is_s32, s32, signed, u32. intros Hz. rewrite Z.mod_mod by lia.
  change (2 ^ (32 - 1)) with 2147483648. change (2 ^ 32) with 4294967296 in *.
  change (2 ^ 31) with 2147483648 in *.
  destruct (decide (0 <= z)).
  - rewrite Z.mod_small by lia. destruct (Z.ltb_spec z 2147483648); lia.
  - rewrite <- (Z_mod_plus_full z 1), Z.mod_small by lia.
    destruct (Z.ltb_spec (z + 1 * 4294967296) 2147483648); lia.
Qed.

(** Reading the field behind some bytes. *)
Lemma field_at pre v rest :
  is_u32 v -> field (pre ++ hton32 v ++ rest) (length pre) = v.
Proof.
  intros Hv. unfold field. rewrite drop_app_length. rewrite take_app_length' by by rewrite hton32_length.
  by apply ntoh_hton32.
Qed.

Lemma field_in pre v rest n all :
  is_u32 v -> length pre = n -> all = pre ++ hton32 v ++ rest -> field all n = v.
Proof. intros Hv <- ->. by apply field_at. Qed.

Lemma encode_cmd_length c start poll :
  length (setup c) = 8%nat -> length (encode_cmd c start poll) = cmd_size.
Proof. intros Hs. unfold encode_cmd. by rewrite !length_app, !hton32_length, Hs. Qed.

Lemma u32_is_u32 z : is_u32 (u32 z).
Proof. apply u32_range. Qed.

Lemma decode_encode_cmd c start poll : cmd_ok c -> decode_cmd (encode_cmd c start poll) = c.
Proof.
  intros [H1 H2 H3 H4 H5 H6 H7 H8 H9]. unfold decode_cmd, encode_cmd.
  destruct c as [[co se de di e] fl le pa su]. cbn [base command seqnum devid direction ep
    transfer_flags transfer_buffer_length number_of_packets setup] in *.
  set (a := hton32 co). set (b := hton32 se). set (c := hton32 de). set (d := hton32 di).
  set (f := hton32 e). set (g := hton32 fl). set (h := hton32 (u32 le)). set (i := hton32 start).
  set (j := hton32 (u32 pa)). set (k := hton32 poll).
  f_equal; [f_equal|..].
  - by apply (field_in [] co (b ++ c ++ d ++ f ++ g ++ h ++ i ++ j ++ k ++ su)).
  - by apply (field_in a se (c ++ d ++ f ++ g ++ h ++ i ++ j ++ k ++ su)).
  - apply (field_in (a ++ b) de (d ++ f ++ g ++ h ++ i ++ j ++ k ++ su)); [done..|].
    by rewrite <- !app_assoc.
  - apply (field_in (a ++ b ++ c) di (f ++ g ++ h ++ i ++ j ++ k ++ su)); [done..|].
    by rewrite <- !app_assoc.
  - apply (field_in (a ++ b ++ c ++ d) e (g ++ h ++ i ++ j ++ k ++ su)); [done..|].
    by rewrite <- !app_assoc.
  - apply (field_in (a ++ b ++ c ++ d ++ f) fl (h ++ i ++ j ++ k ++ su)); [done..|].
    by rewrite <- !app_assoc.
  - rewrite (field_in (a ++ b ++ c ++ d ++ f ++ g) (u32 le) (i ++ j ++ k ++ su));
      [by apply s32_u32|apply u32_is_u32|done|by rewrite <- !app_assoc].
  - rewrite (field_in (a ++ b ++ c ++ d ++ f ++ g ++ h ++ i) (u32 pa) (k ++ su));
      [by apply s32_u32|apply u32_is_u32|done|by rewrite <- !app_assoc].
  - assert (a ++ b ++ c ++ d ++ f ++ g ++ h ++ i ++ j ++ k ++ su =
            (a ++ b ++ c ++ d ++ f ++ g ++ h ++ i ++ j ++ k) ++ su) as -> by by rewrite <- !app_assoc.
    rewrite drop_app_length' by done. apply take_ge. lia.
Qed.

(** ** What the operations leave alone *)

(** Nothing is sent to the client and no reply is queued. *)
Definition silent (s s' : Impl) : Prop :=
  to_client s' = to_client s /\ socket_ok s' = socket_ok s /\ paced_replies s' = paced_replies s
  /\ iso_out_next_due s' = iso_out_next_due s /\ iso_in_next_due s' = iso_in_next_due s
  /\ profile s' = profile s /\ mic_gain s' = mic_gain s /\ attached s' = attached s.

(** The volume, what is muted and the gain. *)
Definition same_volume (s s' : Impl) : Prop :=
  fu_volume_db256 s' = fu_volume_db256 s /\ fu_muted s' = fu_muted s
  /\ speaker_gain_q15 s' = speaker_gain_q15 s.

#[export] Instance silent_preorder : PreOrder silent.
Proof.
  split; [by intros s; repeat split|]. intros s1 s2 s3 H12 H23. unfold silent in *.
  destruct_and!. split_and!; congruence.
Qed.
#[export] Instance same_volume_preorder : PreOrder same_volume.
Proof.
  split; [by intros s; repeat split|]. intros s1 s2 s3 H12 H23. unfold same_volume in *.
  destruct_and!. split_and!; congruence.
Qed.

Definition quiet (s s' : Impl) : Prop := silent s s' /\ same_volume s s'.
#[export] Instance quiet_preorder : PreOrder quiet.
Proof.
  split; [by intros s; split|]. intros s1 s2 s3 [H1 H2] [H3 H4].
  by split; [transitivity s2|transitivity s2].
Qed.

Lemma demux_quiet frame s : quiet s (demux_frame frame s).
Proof. unfold demux_frame. by repeat case_match. Qed.

Lemma demux_frames_quiet frames s : quiet s (demux_frames frames s).
Proof.
  unfold demux_frames. revert s. induction frames as [|f rest IH]; intros s; [done|]. simpl.
  etransitivity; [apply demux_quiet|apply IH].
Qed.

Lemma arrivals_quiet s : quiet s (wait_arrivals s).
Proof.
  unfold wait_arrivals. case_match; [done|]. by etransitivity; [|apply demux_frames_quiet].
Qed.

Lemma wait_hid_quiet : preserves quiet wait_for_hid_in_frame.
Proof.
  intros s. unfold wait_for_hid_in_frame. pose proof (arrivals_quiet s) as Hq.
  by case_match; simpl; (etransitivity; [exact Hq|]).
Qed.

Lemma wait_feature_quiet : preserves quiet wait_for_feature_reply.
Proof.
  intros s. unfold wait_for_feature_reply. pose proof (arrivals_quiet s) as Hq.
  by case_match; simpl; (etransitivity; [exact Hq|]).
Qed.

Lemma write_daemon_quiet t data : preserves quiet (write_daemon_frame t data).
Proof. intros s. unfold write_daemon_frame. by repeat case_match. Qed.

Lemma on_mic_quiet {A} (m : prog MicBuffer A) : preserves quiet (on_mic m).
Proof. intros s. unfold on_mic. by case_match. Qed.

#[export] Hint Resolve wait_hid_quiet wait_feature_quiet write_daemon_quiet @on_mic_quiet : preserves.

Lemma preserves_weaken {A} (R R' : Impl -> Impl -> Prop) (m : prog Impl A) :
  (forall s s', R s s' -> R' s s') -> preserves R m -> preserves R' m.
Proof. intros HR Hm s. apply HR, Hm. Qed.

Lemma set_interface_quiet wIndex wValue : preserves quiet (set_interface wIndex wValue).
Proof. unfold set_interface. solve_preserves. all: apply preserves_modify; by intros s. Qed.

Lemma get_report_quiet report_id wLength : preserves quiet (get_report report_id wLength).
Proof. unfold get_report. solve_preserves. Qed.

#[export] Hint Resolve set_interface_quiet get_report_quiet : preserves.

Lemma quiet_silent {A} (m : prog Impl A) : preserves quiet m -> preserves silent m.
Proof. apply preserves_weaken. by intros s s' [H _]. Qed.

#[export] Hint Extern 4 (preserves silent _) => apply quiet_silent : preserves.

(** A message that is sent at once, when nothing fails. *)
Lemma send_exact_ok message s :
  socket_ok s = [] -> send_exact message s = (set_socket (to_client s ++ message) [] s, Ok true).
Proof. intros Hs. unfold send_exact. by rewrite Hs. Qed.

Section Control.
Context (volume_gain : Z -> Z).

Lemma feature_unit_silent device_to_host bRequest selector wLength out_data :
  preserves silent (feature_unit volume_gain device_to_host bRequest selector wLength out_data).
Proof. unfold feature_unit. solve_preserves. all: apply preserves_modify; by intros s. Qed.
Local Hint Resolve feature_unit_silent : preserves.

Lemma handle_control_silent setup out_data :
  preserves silent (handle_control volume_gain setup out_data).
Proof.
  unfold handle_control. cbv zeta. solve_preserves.
Qed.
Local Hint Resolve handle_control_silent : preserves.

Lemma perform_silent cmd out_data : preserves silent (perform volume_gain cmd out_data).
Proof. unfold perform. cbv zeta. solve_preserves. Qed.

(** A request that throws does so before anything is sent or queued. *)
Lemma handle_submit_throws now cmd out_data isos s s' e :
  handle_cmd_submit volume_gain now cmd out_data isos s = (s', Throw e) ->
  perform volume_gain cmd out_data s = (s', Throw e).
Proof.
  unfold handle_cmd_submit. unfold mbind at 1, prog_bind at 1.
  destruct (perform volume_gain cmd out_data s) as [s1 [[[status data] packets]|e']]; [|congruence].
  cbv zeta. unfold mbind, prog_bind, mret, prog_ret, enqueue_paced, modify, send_exact.
  repeat (case_match; simplify_eq); done.
Qed.
End Control.


(** ** The effect of the speaker's volume on the audio of the host *)

(** One frame: two speaker samples and two haptics samples of 16 bits. *)
Record frame4 := mk_frame4 { left_ : Z; right_ : Z; haptics : list Z }.

(** The frames of a buffer, a last incomplete one left out. *)
Fixpoint frames4 (pcm : list Z) : list frame4 :=
  match pcm with
  | l0 :: l1 :: r0 :: r1 :: a0 :: a1 :: b0 :: b1 :: rest =>
      mk_frame4 (sample_of l0 l1) (sample_of r0 r1) [a0; a1; b0; b1] :: frames4 rest
  | _ => []
  end.

(** Induction in steps of a frame. *)
Lemma frame_ind (P : list Z -> Prop) :
  (forall pcm, (length pcm < 8)%nat -> P pcm) ->
  (forall l0 l1 r0 r1 a0 a1 b0 b1 rest, P rest -> P (l0 :: l1 :: r0 :: r1 :: a0 :: a1 :: b0 :: b1 :: rest)) ->
  forall pcm, P pcm.
Proof.
  intros Hshort Hframe pcm. remember (length pcm) as n eqn:Hn. revert pcm Hn.
  induction n as [n IH] using lt_wf_ind. intros pcm ->.
  destruct (decide (length pcm < 8)%nat) as [|Hl]; [by apply Hshort|].
  do 8 (destruct pcm as [|? pcm]; [simpl in Hl; lia|]). apply Hframe. eapply IH; [|done]. simpl. lia.
Qed.

Ltac short_pcm pcm H := do 8 (destruct pcm as [|? pcm]; [reflexivity|]); simpl in H; lia.

Lemma scale_frames_length pcm g : length (scale_frames pcm g) = length pcm.
Proof.
  induction pcm as [pcm H|???????? rest IH] using frame_ind; [short_pcm pcm H|].
  cbn [scale_frames]. rewrite !length_app, IH. done.
Qed.

Lemma apply_speaker_gain_length pcm g : length (apply_speaker_gain pcm g) = length pcm.
Proof. unfold apply_speaker_gain. case_match; [done|]. apply scale_frames_length. Qed.

(** A sample at a gain of [2 ^ 15] or less. *)
Definition gained (g s : Z) : Z := Z.shiftr (s * g) 15.

Lemma gained_range g s : 0 <= g <= 2 ^ 15 -> is_s16 s -> is_s16 (gained g s).
Proof.
  unfold is_s16, gained. rewrite Z.shiftr_div_pow2 by lia. change (2 ^ 15) with 32768. intros Hg Hs.
  assert (-32768 * 32768 <= s * g <= 32767 * 32768) by nia.
  pose proof (Z.div_le_lower_bound (s * g) 32768 (-32768)). pose proof (Z.div_le_upper_bound (s * g) 32768 32767).
  lia.
Qed.

Lemma clamp16_id v : is_s16 v -> clamp16 v = v.
Proof. unfold is_s16, clamp16. change (2 ^ 15) with 32768. intros Hv. repeat (case_match; try lia). Qed.

Lemma sample_of_s16 lo hi : is_s16 (sample_of lo hi).
Proof. apply s16_range. Qed.

Lemma scale_sample_spec lo hi g :
  0 <= g <= 2 ^ 15 ->
  exists lo' hi', scale_sample lo hi g = [lo'; hi'] /\ sample_of lo' hi' = gained g (sample_of lo hi).
Proof.
  intros Hg. unfold scale_sample. fold (gained g (sample_of lo hi)).
  pose proof (gained_range g _ Hg (sample_of_s16 lo hi)) as Hr. rewrite clamp16_id by done.
  eexists _, _. split; [done|]. apply sample_bytes. unfold is_s16 in Hr. change (2 ^ 15) with 32768 in Hr. lia.
Qed.

(** Frame by frame: the speaker follows the gain, the haptics do not. *)
Lemma scale_frames_spec pcm g :
  0 <= g <= 2 ^ 15 ->
  frames4 (scale_frames pcm g) =
    (fun f => mk_frame4 (gained g (left_ f)) (gained g (right_ f)) (haptics f)) <$> frames4 pcm.
Proof.
  intros Hg. induction pcm as [pcm H|l0 l1 r0 r1 a0 a1 b0 b1 rest IH] using frame_ind; [short_pcm pcm H|].
  cbn [scale_frames]. destruct (scale_sample_spec l0 l1 g Hg) as (? & ? & -> & Hl).
  destruct (scale_sample_spec r0 r1 g Hg) as (? & ? & -> & Hr).
  cbn [app frames4]. rewrite IH, Hl, Hr. done.
Qed.

(** The bytes behind the last whole frame. *)
Lemma scale_frames_tail pcm g :
  drop (8 * length (frames4 pcm)) (scale_frames pcm g) = drop (8 * length (frames4 pcm)) pcm.
Proof.
  induction pcm as [pcm H|l0 l1 r0 r1 a0 a1 b0 b1 rest IH] using frame_ind; [short_pcm pcm H|].
  cbn [scale_frames frames4 length]. rewrite Nat.mul_succ_r, Nat.add_comm.
  unfold scale_sample. cbn [app]. exact IH.
Qed.

Lemma frames4_s16 pcm f : f ∈ frames4 pcm -> is_s16 (left_ f) /\ is_s16 (right_ f).
Proof.
  induction pcm as [pcm H|l0 l1 r0 r1 a0 a1 b0 b1 rest IH] using frame_ind.
  - do 8 (destruct pcm as [|? pcm]; [by intros ?%elem_of_nil|]). simpl in H. lia.
  - cbn [frames4]. rewrite elem_of_cons. intros [->|Hf]; [|by apply IH].
    split; apply sample_of_s16.
Qed.

(** The shortcut at full gain changes nothing. *)
Lemma bytes_of_sample lo hi :
  is_u8 lo -> is_u8 hi ->
  [Z.land (sample_of lo hi) 0xff; Z.land (Z.shiftr (sample_of lo hi) 8) 0xff] = [lo; hi].
Proof.
  unfold is_u8. intros Hlo Hhi. unfold sample_of. rewrite !land_255, Z.shiftr_div_pow2 by lia.
  change (2 ^ 8) with 256 in *.
  assert (Z.lor lo (Z.shiftl hi 8) = lo + 256 * hi) as ->.
  { by rewrite lor_bytes by (unfold is_u8; lia). }
  unfold s16, signed. change (2 ^ 16) with 65536. change (2 ^ (16 - 1)) with 32768.
  rewrite (Z.mod_small (lo + 256 * hi)) by lia.
  set (v := if lo + 256 * hi <? 32768 then lo + 256 * hi else lo + 256 * hi - 65536).
  assert (exists k, v = lo + (hi + k * 256) * 256) as [k ->].
  { unfold v. destruct (Z.ltb_spec (lo + 256 * hi) 32768); [exists 0|exists (-1)]; lia. }
  assert ((lo + (hi + k * 256) * 256) mod 256 = lo) as -> by (rewrite Z.mod_add, Z.mod_small by lia; done).
  assert ((lo + (hi + k * 256) * 256) / 256 = hi + k * 256) as -> by (rewrite Z.div_add, Z.div_small by lia; lia).
  by rewrite Z.mod_add, Z.mod_small by lia.
Qed.

Lemma scale_frames_full pcm : bytes_ok pcm -> scale_frames pcm (2 ^ 15) = pcm.
Proof.
  induction pcm as [pcm H|l0 l1 r0 r1 a0 a1 b0 b1 rest IH] using frame_ind; [intros _; short_pcm pcm H|].
  intros Hb. unfold bytes_ok in *. do 8 (apply Forall_cons_1 in Hb as [? Hb]).
  cbn [scale_frames]. rewrite IH by done. unfold scale_sample.
  assert (forall lo hi, Z.shiftr (sample_of lo hi * 2 ^ 15) 15 = sample_of lo hi) as Hid.
  { intros lo hi. rewrite Z.shiftr_div_pow2 by lia. by apply Z.div_mul. }
  rewrite !Hid, !(clamp16_id (sample_of _ _)) by apply sample_of_s16.
  cbv zeta. rewrite !bytes_of_sample by done. done.
Qed.

Lemma apply_speaker_gain_spec pcm g : bytes_ok pcm -> apply_speaker_gain pcm g = scale_frames pcm g.
Proof.
  intros Hb. unfold apply_speaker_gain. destruct (Z.eqb_spec g (Z.shiftl 1 15)) as [->|]; [|done].
  change (Z.shiftl 1 15) with (2 ^ 15). by rewrite scale_frames_full.
Qed.

(** The bytes of a stored volume. *)
Lemma stored_volume_bytes lo hi :
  is_u8 lo -> is_u8 hi ->
  [Z.land (u16 (sample_of lo hi)) 0xff; Z.land (Z.shiftr (u16 (sample_of lo hi)) 8) 0xff] = [lo; hi].
Proof.
  unfold is_u8, sample_of. change (2 ^ 8) with 256. intros Hlo Hhi.
  rewrite lor_bytes by (unfold is_u8; lia).
  assert (u16 (s16 (lo + 256 * hi)) = lo + 256 * hi) as ->.
  { unfold s16, signed, u16. change (2 ^ 16) with 65536. change (2 ^ (16 - 1)) with 32768.
    rewrite (Z.mod_small (lo + 256 * hi) 65536) by lia.
    destruct (Z.ltb_spec (lo + 256 * hi) 32768); [by apply Z.mod_small; lia|].
    rewrite <- (Z.mod_add _ 1), Z.mod_small by lia. lia. }
  rewrite !land_255, Z.shiftr_div_pow2 by lia. change (2 ^ 8) with 256.
  assert ((lo + 256 * hi) mod 256 = lo) as -> by (rewrite Z.mul_comm, Z.mod_add, Z.mod_small by lia; done).
  assert ((lo + 256 * hi) / 256 = hi) as -> by (rewrite Z.mul_comm, Z.div_add, Z.div_small by lia; lia).
  by rewrite Z.mod_small by lia.
Qed.
