(* ===== verification/UsbipReply.v ===== *)
(** The replies of the USB/IP device: how a client reads one, that every well-formed
    request is answered by one that reads back, and how requests are taken from the
    stream. *)
From stdpp Require Import base list strings numbers.
From Stdlib Require Import Ascii ZArith Lia.
From S2P Require Import Prelude Text Words BtPacket Profile UsbDescriptors MicBuffer Usbip UsbipFacts.

Local Open Scope Z_scope.

(** ** The client's side of the protocol *)

Record Reply := mk_reply {
  r_seqnum : Z;
  r_status : Z;
  r_packets : Z;
  r_data : list Z;
  r_isos : list (Z * Z * Z)    (* offset, length and actual length *)
}.

Fixpoint read_isos (n : nat) (bytes : list Z) : list (Z * Z * Z) :=
  match n with
  | O => []
  | S n' => (field bytes 0, field bytes 4, field bytes 8) :: read_isos n' (drop iso_size bytes)
  end.

Definition actual_of (d : Z * Z * Z) : Z := snd d.

(** The header, the data of an IN request, and one descriptor for each packet; a
    client gives up the connection when the actual lengths do not add up. *)
Definition read_reply (dir : Z) (packets : nat) (bytes : list Z) : option (Reply * list Z) :=
  if (length bytes <? cmd_size)%nat || negb (field bytes 0 =? kRetSubmit) then None
  else
    let actual := field bytes 24 in
    let size := if dir =? kDirIn then Z.to_nat actual else 0%nat in
    let rest := drop cmd_size bytes in
    if (length rest <? size + iso_size * packets)%nat then None
    else
      let isos := read_isos packets (drop size rest) in
      if (0 <? packets)%nat && negb (sum_list (actual_of <$> isos) =? actual) then None
      else Some (mk_reply (field bytes 4) (s32 (field bytes 20)) (field bytes 32) (take size rest) isos,
                 drop (size + iso_size * packets) rest).

(** The packets of a request follow each other and fill the buffer. *)
Fixpoint tiles (from : Z) (ds : list UsbipIsoPacketDescriptor) (size : Z) : Prop :=
  match ds with
  | [] => from = size
  | d :: rest => offset d = from /\ 0 <= length_ d /\ tiles (from + length_ d) rest size
  end.

(** A request as a client makes it, with the data and the packets that come with it. *)
Record urb_ok (cmd : UsbipCmdSubmit) (out_data : list Z) (isos : list UsbipIsoPacketDescriptor) :
    Prop := {
  urb_cmd : cmd_ok cmd;
  urb_submit : command (base cmd) = kCmdSubmit;
  urb_direction : direction (base cmd) = kDirOut \/ direction (base cmd) = kDirIn;
  urb_control : ep (base cmd) = 0 ->
    (direction (base cmd) = kDirIn <-> Z.land (byte_at (setup cmd) 0) 0x80 <> 0);
  urb_buffer : 0 <= transfer_buffer_length cmd;
  urb_data : length out_data =
    if direction (base cmd) =? kDirOut then Z.to_nat (transfer_buffer_length cmd) else 0%nat;
  urb_setup : bytes_ok (setup cmd);
  urb_bytes : bytes_ok out_data;
  urb_fits : (length out_data <= VDS_FRAME_MAX_PAYLOAD)%nat;
  urb_isos : length isos = Z.to_nat (number_of_packets cmd);
  urb_packets : 0 < number_of_packets cmd -> is_audio_out cmd = true \/ is_audio_in cmd = true;
  urb_tiles : 0 < number_of_packets cmd -> tiles 0 isos (transfer_buffer_length cmd)
}.

(** ** Packets *)

Lemma tiles_le from ds size : tiles from ds size -> from <= size.
Proof.
  revert from. induction ds as [|d rest IH]; intros from; simpl; [lia|].
  intros (_ & Hl & Ht). specialize (IH _ Ht). lia.
Qed.

Lemma tiles_bounds from ds size :
  tiles from ds size -> 0 <= from -> size < 2 ^ 32 ->
  Forall (fun d => is_u32 (offset d) /\ is_u32 (length_ d)) ds.
Proof.
  unfold is_u32. revert from. induction ds as [|d rest IH]; intros from; simpl; [constructor|].
  intros (Ho & Hl & Ht) Hf Hs. pose proof (tiles_le _ _ _ Ht). constructor; [lia|].
  apply (IH _ Ht); lia.
Qed.

Lemma tiles_actual dir from ds size :
  tiles from ds size -> 0 <= from ->
  iso_actual dir size <$> ds = length_ <$> ds /\ sum_list (length_ <$> ds) = size - from.
Proof.
  revert from. induction ds as [|d rest IH]; intros from; cbn [tiles]; [intros ->; split; [done|simpl; lia]|].
  intros (Ho & Hl & Ht) Hf. destruct (IH _ Ht ltac:(lia)) as [Ha Hs]. pose proof (tiles_le _ _ _ Ht).
  rewrite !fmap_cons, Ha. cbn [sum_list foldr]. fold (sum_list (length_ <$> rest)). rewrite Hs.
  split; [|lia]. f_equal. unfold iso_actual. repeat (case_match; try lia).
Qed.

Lemma concat_iso_length dir size ds :
  length (concat (iso_reply dir size <$> ds)) = (iso_size * length ds)%nat.
Proof.
  induction ds as [|d rest IH]; [done|]. rewrite fmap_cons. cbn [concat]. rewrite length_app, IH.
  unfold iso_reply. rewrite !length_app, !hton32_length. unfold iso_size. simpl. lia.
Qed.

(** The packets of a reply are read back. *)
Lemma read_iso_replies dir size ds rest :
  Forall (fun d => is_u32 (offset d) /\ is_u32 (length_ d) /\ is_u32 (iso_actual dir size d)) ds ->
  read_isos (length ds) (concat (iso_reply dir size <$> ds) ++ rest) =
  (fun d => (offset d, length_ d, iso_actual dir size d)) <$> ds.
Proof.
  induction 1 as [|d ds (Ho & Hl & Ha) _ IH]; [done|]. rewrite !fmap_cons. cbn [concat length read_isos].
  rewrite <- app_assoc.
  assert (drop iso_size (iso_reply dir size d ++ concat (iso_reply dir size <$> ds) ++ rest) =
          concat (iso_reply dir size <$> ds) ++ rest) as -> by (by apply drop_app_length').
  rewrite IH. f_equal. unfold iso_reply. rewrite <- !app_assoc. repeat f_equal.
  - by apply (field_at []).
  - by apply (field_at (hton32 (offset d))).
  - rewrite app_assoc. by apply (field_at (hton32 (offset d) ++ hton32 (length_ d))).
Qed.

(** The fields of a header are read back. *)
Lemma ret_submit_length b status actual packets : length (ret_submit b status actual packets) = cmd_size.
Proof. unfold ret_submit. by rewrite !length_app, !hton32_length. Qed.

Definition base_ok (b : UsbipHeaderBasic) : Prop :=
  is_u32 (seqnum b) /\ is_u32 (devid b) /\ is_u32 (direction b) /\ is_u32 (ep b).

Lemma ret_submit_fields b status actual packets rest :
  base_ok b -> is_u32 actual ->
  let m := ret_submit b status actual packets ++ rest in
  field m 0 = kRetSubmit /\ field m 4 = seqnum b /\ field m 20 = u32 status /\
  field m 24 = actual /\ field m 32 = u32 packets.
Proof.
  intros (Hs & Hd & Hr & He) Ha. unfold ret_submit. cbv zeta. rewrite <- !app_assoc.
  set (a := hton32 kRetSubmit). set (b1 := hton32 (seqnum b)). set (c := hton32 (devid b)).
  set (d := hton32 (direction b)). set (e := hton32 (ep b)). set (f := hton32 (u32 status)).
  set (g := hton32 actual). set (h := hton32 0). set (p := hton32 (u32 packets)).
  split_and!.
  - by eapply (field_in []).
  - by eapply (field_in a).
  - eapply (field_in (a ++ b1 ++ c ++ d ++ e)); [apply u32_is_u32|done|by rewrite <- !app_assoc].
  - eapply (field_in (a ++ b1 ++ c ++ d ++ e ++ f)); [done|done|by rewrite <- !app_assoc].
  - eapply (field_in (a ++ b1 ++ c ++ d ++ e ++ f ++ g ++ h)); [apply u32_is_u32|done|by rewrite <- !app_assoc].
Qed.

(** The message for a reply, read by the client. *)
Lemma read_message dir b status actual packets data ds :
  base_ok b -> is_s32 status -> is_u32 actual ->
  (if dir =? kDirIn then actual = Z.of_nat (length data) else data = []) ->
  Forall (fun d => is_u32 (offset d) /\ is_u32 (length_ d) /\
                   is_u32 (iso_actual dir (Z.of_nat (length data)) d)) ds ->
  (ds <> [] -> sum_list (iso_actual dir (Z.of_nat (length data)) <$> ds) = actual) ->
  read_reply dir (length ds)
    (ret_submit b status actual packets ++ data ++
     concat (iso_reply dir (Z.of_nat (length data)) <$> ds)) =
  Some (mk_reply (seqnum b) status (u32 packets) data
          ((fun d => (offset d, length_ d, iso_actual dir (Z.of_nat (length data)) d)) <$> ds), []).
Proof.
  intros Hb Hst Ha Hdata Hds Hsum. set (size := Z.of_nat (length data)) in *.
  set (isos := concat _). pose proof (concat_iso_length dir size ds) as Hli. fold isos in Hli.
  destruct (ret_submit_fields b status actual packets (data ++ isos) Hb Ha) as (F0 & F4 & F20 & F24 & F32).
  unfold read_reply. rewrite F0, F4, F20, F24, F32, Z.eqb_refl.
  rewrite length_app, ret_submit_length.
  rewrite (proj2 (Nat.ltb_ge _ _)) by lia. cbn [orb negb].
  rewrite drop_app_length' by by rewrite ret_submit_length.
  assert ((if dir =? kDirIn then Z.to_nat actual else 0%nat) = length data) as ->.
  { destruct (dir =? kDirIn); rewrite Hdata; [apply Nat2Z.id|done]. }
  rewrite length_app, Hli, (proj2 (Nat.ltb_ge _ _)) by lia.
  rewrite drop_app_length.
  assert (read_isos (length ds) isos = (fun d => (offset d, length_ d, iso_actual dir size d)) <$> ds) as ->.
  { rewrite <- (app_nil_r isos). by apply read_iso_replies. }
  rewrite <- list_fmap_compose. unfold compose, actual_of. cbn [snd].
  assert ((0 <? length ds)%nat && negb (sum_list ((fun d => iso_actual dir size d) <$> ds) =? actual) = false) as ->.
  { destruct ds as [|d ds]; [done|]. apply andb_false_iff. right.
    apply negb_false_iff, Z.eqb_eq. by apply Hsum. }
  rewrite take_app_length, s32_u32 by done. rewrite drop_ge by (rewrite length_app, Hli; lia). done.
Qed.

(** ** Every request is answered *)

(** The pipe and the socket work, and the reader only lets through frames of the
    size [read_handle_frame] accepts. *)
Record working (s : Impl) : Prop := {
  w_pipe : pipe_ok s = [];
  w_socket : socket_ok s = [];
  w_queue : Forall (fun f => (length (payload f) <= VDS_FRAME_MAX_PAYLOAD)%nat) (hid_in_queue s);
  w_arrivals : Forall (Forall (fun f => (length (payload f) <= VDS_FRAME_MAX_PAYLOAD)%nat)) (arrivals s)
}.

Lemma demux_working frame s :
  (length (payload frame) <= VDS_FRAME_MAX_PAYLOAD)%nat -> working s -> working (demux_frame frame s).
Proof.
  intros Hf [Hp Hs Hq Ha]. unfold demux_frame.
  assert (Forall (fun f => (length (payload f) <= VDS_FRAME_MAX_PAYLOAD)%nat) (hid_in_queue s ++ [frame]))
    as Hq' by (apply Forall_app; by split; [|constructor]).
  repeat case_match; constructor; simpl; try done. destruct (hid_in_queue s ++ [frame]); [done|].
  by apply Forall_cons_1 in Hq' as [_ ?].
Qed.

Lemma demux_frames_working frames s :
  Forall (fun f => (length (payload f) <= VDS_FRAME_MAX_PAYLOAD)%nat) frames -> working s ->
  working (demux_frames frames s).
Proof.
  unfold demux_frames. intros Hf. revert s. induction Hf as [|f rest Hf _ IH]; intros s Hs; [done|].
  simpl. by apply IH, demux_working.
Qed.

Lemma arrivals_working s : working s -> working (wait_arrivals s).
Proof.
  intros Hw. pose proof Hw as [Hp Hs Hq Ha]. unfold wait_arrivals. destruct (arrivals s) as [|frames rest]; [done|].
  apply Forall_cons_1 in Ha as [Hf Hr]. by apply demux_frames_working; [|constructor].
Qed.

Lemma write_daemon_returns t data s (Q : Impl -> unit -> Prop) :
  (length data <= VDS_FRAME_MAX_PAYLOAD)%nat -> working s ->
  (forall s', working s' -> hid_in_queue s' = hid_in_queue s -> mic s' = mic s ->
     to_daemon s' = to_daemon s ++ [(t, data)] -> Q s' tt) ->
  returns (write_daemon_frame t data) s Q.
Proof.
  intros Hl [Hp Hs Hq Ha] HQ. unfold write_daemon_frame, returns, frame_bytes.
  rewrite (proj2 (Nat.ltb_ge _ _)) by done. rewrite Hp. cbn [tail]. eexists _, tt. split; [done|].
  apply HQ; [|done..]. by constructor.
Qed.

Lemma set_interface_returns wIndex wValue s (Q : Impl -> unit -> Prop) :
  working s -> (forall s', working s' -> Q s' tt) -> returns (set_interface wIndex wValue) s Q.
Proof.
  intros Hw HQ. unfold set_interface. apply returns_bind.
  assert (length (interface_event wIndex wValue) <= VDS_FRAME_MAX_PAYLOAD)%nat by (simpl; unfold VDS_FRAME_MAX_PAYLOAD; lia).
  assert (forall s1, working s1 -> returns (write_daemon_frame VDS_FRAME_USB_INTERFACE (interface_event wIndex wValue)) s1 Q)
    as Hwrite by (intros s1 Hw1; apply write_daemon_returns; auto).
  repeat case_match; [by apply returns_ret, Hwrite| |by apply returns_ret, Hwrite].
  apply returns_modify, Hwrite. by destruct Hw.
Qed.

Lemma get_report_returns report_id wLength s (Q : Impl -> list Z -> Prop) :
  working s -> (forall s' d, working s' -> Q s' d) -> returns (get_report report_id wLength) s Q.
Proof.
  intros Hw HQ. unfold get_report. apply returns_bind, write_daemon_returns; [simpl; unfold VDS_FRAME_MAX_PAYLOAD; lia|done|].
  intros s1 Hw1 _ _ _. apply returns_bind.
  pose proof (arrivals_working s1 Hw1) as Hw2. unfold wait_for_feature_reply.
  destruct (feature_reply_queue (wait_arrivals s1)) as [|f rest] eqn:Hq.
  - exists (wait_arrivals s1), None. rewrite Hq. split; [done|]. by apply returns_ret, HQ.
  - eexists _, (Some f). rewrite Hq. split; [done|]. apply returns_ret, HQ. by destruct Hw2.
Qed.

Section Requests.
Context (volume_gain : Z -> Z).

Lemma feature_unit_returns d2h bRequest selector wLength out_data s (Q : Impl -> list Z -> Prop) :
  working s -> (forall s' d, working s' -> (d2h = false -> d = []) -> Q s' d) ->
  returns (feature_unit volume_gain d2h bRequest selector wLength out_data) s Q.
Proof.
  intros Hw HQ. unfold feature_unit. apply returns_bind, returns_get.
  destruct d2h; cbn [andb negb].
  - case_match; by apply returns_ret, HQ.
  - case_match; [|by apply returns_ret, HQ]. apply returns_bind.
    repeat case_match; (apply returns_modify || apply returns_ret); apply returns_ret, HQ; by destruct Hw.
Qed.

Definition to_host (setup : list Z) : bool := negb (Z.land (byte_at setup 0) 0x80 =? 0).

(** What a control request returns: no data for a request that has none, and never
    more than was asked for. *)
Lemma handle_control_returns setup out_data s :
  working s -> (length out_data <= VDS_FRAME_MAX_PAYLOAD)%nat ->
  returns (handle_control volume_gain setup out_data) s (fun s' r =>
    working s' /\ is_s32 (fst r) /\
    if to_host setup then (length (snd r) <= Z.to_nat (setup_word setup 6))%nat else snd r = []).
Proof.
  intros Hw Hl. unfold handle_control. cbv zeta. fold (to_host setup). apply returns_bind.
  apply (returns_weaken _ _ (fun s' r => working s' /\ is_s32 (fst r) /\ (to_host setup = false -> snd r = []))).
  - assert (is_s32 0 /\ is_s32 (-32)) as [H0 H32] by (unfold is_s32; lia).
    case_match eqn:Hd; [|clear Hd; repeat case_match].
    + apply returns_bind, returns_get, returns_ret. split_and!; [done..|].
      intros Hh. rewrite Hh, andb_false_r in Hd. done.
    + by apply returns_ret.
    + apply returns_bind, set_interface_returns; [done|]. intros s1 Hw1. by apply returns_ret.
    + apply returns_bind, get_report_returns; [done|]. intros s1 d Hw1. apply returns_ret.
      split_and!; [done..|]. intros Hh. by rewrite Hh, andb_false_r in *.
    + apply returns_bind, write_daemon_returns; [done..|]. intros s1 Hw1 _ _ _. by apply returns_ret.
    + apply returns_bind, feature_unit_returns; [done|]. intros s1 d Hw1 Hd. by apply returns_ret.
    + by apply returns_ret.
  - intros s' [status d] (Hw' & Hs & Hd). apply returns_ret. cbn [fst snd] in *.
    split_and!; [done..|]. destruct (to_host setup); [|by apply Hd]. rewrite length_take. lia.
Qed.

Lemma setup_word_small setup i : bytes_ok setup -> 0 <= setup_word setup i < 2 ^ 16.
Proof.
  intros Hs. unfold setup_word. pose proof (byte_at_ok setup i Hs) as Hi.
  pose proof (byte_at_ok setup (S i) Hs) as Hj. unfold is_u8 in *.
  apply lor_range; [lia..|]. rewrite Z.shiftl_mul_pow2 by lia. lia.
Qed.

Definition has_packets (cmd : UsbipCmdSubmit) : bool := 0 <? number_of_packets cmd.
Definition is_audio (cmd : UsbipCmdSubmit) : bool := is_audio_out cmd || is_audio_in cmd.

(** What the branches of [handle_cmd_submit] give for a well-formed request. *)
Record good_answer (cmd : UsbipCmdSubmit) (s' : Impl) (r : Z * list Z * Z) : Prop := {
  ga_working : working s';
  ga_status : is_s32 (fst (fst r));
  ga_size : Z.of_nat (length (snd (fst r))) < 2 ^ 32;
  ga_out : direction (base cmd) = kDirOut -> snd (fst r) = [];
  ga_mic : is_audio_in cmd = true -> Z.of_nat (length (snd (fst r))) = transfer_buffer_length cmd;
  ga_packets : has_packets cmd = true -> snd r = number_of_packets cmd;
  ga_control : ep (base cmd) = 0 -> Z.of_nat (length (snd (fst r))) <= setup_word (setup cmd) 6
}.

Section Branches.
Context (cmd : UsbipCmdSubmit) (out_data : list Z) (isos : list UsbipIsoPacketDescriptor).
Context (Hu : urb_ok cmd out_data isos).

Lemma audio_packets : has_packets cmd = true -> is_audio cmd = true.
Proof.
  unfold has_packets, is_audio. intros Hp. apply orb_true_iff, (urb_packets _ _ _ Hu). lia.
Qed.

Lemma word_range : 0 <= setup_word (setup cmd) 6 < 65536.
Proof. apply (setup_word_small (setup cmd) 6), (urb_setup _ _ _ Hu). Qed.

(** An answer without packets, on an endpoint that is not an audio one. *)
Lemma plain_answer s' status data :
  working s' -> is_s32 status -> Z.of_nat (length data) < 2 ^ 32 -> is_audio cmd = false ->
  (direction (base cmd) = kDirOut -> data = []) ->
  (ep (base cmd) = 0 -> Z.of_nat (length data) <= setup_word (setup cmd) 6) ->
  good_answer cmd s' (status, data, 0).
Proof.
  intros Hw Hst Hl Ha Ho Hc. constructor; simpl; try done.
  - intros Hi. unfold is_audio in Ha. by rewrite Hi, orb_true_r in Ha.
  - intros Hp. by rewrite (audio_packets Hp) in Ha.
Qed.

Lemma control_returns s :
  ep (base cmd) = 0 -> working s ->
  returns ('(status, d) ← handle_control volume_gain (setup cmd) out_data; mret (status, d, 0)) s
    (good_answer cmd).
Proof.
  intros He Hw. apply returns_bind. eapply returns_weaken.
  { apply handle_control_returns; [done|apply (urb_fits _ _ _ Hu)]. }
  intros s' [status d] (Hw' & Hs & Hd). cbn [fst snd] in *. apply returns_ret.
  pose proof (urb_control _ _ _ Hu He) as Hc. pose proof word_range. change (2 ^ 16) with 65536 in *.
  unfold to_host in Hd. unfold kDirIn, kDirOut in *.
  assert (is_audio cmd = false) by (unfold is_audio, is_audio_out, is_audio_in; by rewrite He).
  destruct (Z.eqb_spec (Z.land (byte_at (setup cmd) 0) 128) 0) as [Hb|Hb]; cbn [negb] in Hd.
  - subst d. by apply plain_answer; simpl; try lia.
  - apply plain_answer; try done; change (2 ^ 32) with 4294967296; try lia.
    apply Hc in Hb. unfold kDirOut. lia.
Qed.

Lemma hid_in_returns s :
  ep (base cmd) = kEpHidIn -> direction (base cmd) = kDirIn -> working s ->
  returns (frame ← wait_for_hid_in_frame; mret (0, from_option payload [] frame, 0)) s
    (good_answer cmd).
Proof.
  intros He Hd Hw. apply returns_bind. pose proof (arrivals_working s Hw) as Hw'.
  pose proof (w_queue _ Hw') as Hq. unfold returns at 1, wait_for_hid_in_frame.
  assert (is_audio cmd = false) by (unfold is_audio, is_audio_out, is_audio_in; by rewrite He).
  assert (is_s32 0) by (unfold is_s32; lia).
  destruct (hid_in_queue (wait_arrivals s)) as [|f rest].
  - eexists _, None. split; [done|]. by apply returns_ret, plain_answer; simpl; try rewrite He.
  - apply Forall_cons_1 in Hq as [Hf Hrest]. eexists _, (Some f). split; [done|].
    unfold VDS_FRAME_MAX_PAYLOAD in Hf. apply returns_ret, plain_answer; simpl; try done.
    + destruct Hw'. by constructor.
    + lia.
    + by rewrite Hd.
    + by rewrite He.
Qed.

Lemma frame_out_returns t s :
  direction (base cmd) = kDirOut -> is_audio cmd = false -> ep (base cmd) <> 0 -> working s ->
  returns (_ ← write_daemon_frame t out_data; mret (0, [], 0)) s (good_answer cmd).
Proof.
  intros Hd Ha He Hw. apply returns_bind, write_daemon_returns; [apply (urb_fits _ _ _ Hu)|done|].
  intros s1 Hw1 _ _ _. apply returns_ret, plain_answer; simpl; try done; unfold is_s32; lia.
Qed.

Lemma audio_out_returns s :
  is_audio_out cmd = true -> working s ->
  returns (s0 ← get_state;
           _ ← write_daemon_frame VDS_FRAME_USB_AUDIO_OUT
                 (apply_speaker_gain out_data (speaker_gain_q15 s0));
           mret (0, [], number_of_packets cmd)) s (good_answer cmd).
Proof.
  intros Ha Hw. apply returns_bind, returns_get, returns_bind, write_daemon_returns; [|done|].
  { rewrite apply_speaker_gain_length. apply (urb_fits _ _ _ Hu). }
  intros s1 Hw1 _ _ _. apply andb_prop in Ha as [He%Z.eqb_eq Hd%Z.eqb_eq].
  apply returns_ret. constructor; simpl; try done; try (unfold is_s32; lia).
  - unfold is_audio_in. by rewrite Hd, andb_false_r.
  - by rewrite He.
Qed.

Lemma audio_in_returns s :
  is_audio_in cmd = true -> working s ->
  returns (d ← on_mic (take_mic_bytes (size_of_s32 (transfer_buffer_length cmd)));
           mret (0, d, number_of_packets cmd)) s (good_answer cmd).
Proof.
  intros Ha Hw. pose proof (urb_buffer _ _ _ Hu) as H0.
  pose proof (ok_length _ (urb_cmd _ _ _ Hu)) as Hlen. unfold is_s32 in Hlen.
  change (2 ^ 31) with 2147483648 in Hlen.
  assert (size_of_s32 (transfer_buffer_length cmd) = transfer_buffer_length cmd) as ->.
  { unfold size_of_s32, u64. apply Z.mod_small. change (2 ^ 64) with 18446744073709551616. lia. }
  apply returns_bind. unfold returns at 1, on_mic.
  destruct (take_mic_spec (transfer_buffer_length cmd) (mic s)) as (real & m' & -> & _ & Hr & _).
  { unfold vector_max_size. change (2 ^ 63) with 9223372036854775808. lia. }
  eexists _, _. split; [done|]. apply returns_ret. apply andb_prop in Ha as [He%Z.eqb_eq Hd%Z.eqb_eq].
  assert (Z.of_nat (length (real ++ replicate (Z.to_nat (transfer_buffer_length cmd) - length real) 0)) =
          transfer_buffer_length cmd) as Hl by (rewrite length_app, length_replicate; lia).
  constructor; cbn [fst snd]; try done.
  - by destruct Hw.
  - rewrite Hl. change (2 ^ 32) with 4294967296. lia.
  - by rewrite Hd.
  - by rewrite He.
Qed.

Lemma perform_returns s :
  working s -> returns (perform volume_gain cmd out_data) s (good_answer cmd).
Proof.
  intros Hw. unfold perform. cbv zeta.
  destruct (Z.eqb_spec (ep (base cmd)) 0); [by apply control_returns|].
  destruct ((ep (base cmd) =? kEpHidIn) && (direction (base cmd) =? kDirIn)) eqn:Hi.
  { apply andb_prop in Hi as [?%Z.eqb_eq ?%Z.eqb_eq]. by apply hid_in_returns. }
  destruct ((ep (base cmd) =? kEpHidOut) && (direction (base cmd) =? kDirOut)) eqn:Ho.
  { apply andb_prop in Ho as [He%Z.eqb_eq ?%Z.eqb_eq]. apply frame_out_returns; try done.
    unfold is_audio, is_audio_out, is_audio_in. by rewrite He. }
  destruct (is_audio_out cmd) eqn:Hao; [by apply audio_out_returns|].
  destruct (is_audio_in cmd) eqn:Hai; [by apply audio_in_returns|].
  apply returns_ret, plain_answer; simpl; try done; try (unfold is_s32; lia).
  unfold is_audio. by rewrite Hao, Hai.
Qed.
End Branches.

(** The data and the packets of a good answer make a message that reads back, with
    every packet complete. *)
Definition reply_of (cmd : UsbipCmdSubmit) (status : Z) (data : list Z) (packets : Z)
    (isos : list UsbipIsoPacketDescriptor) : Reply :=
  mk_reply (seqnum (base cmd)) status (u32 packets) data
    ((fun d => (offset d, length_ d, length_ d)) <$> isos).

(** Every packet of a well-formed request is complete. *)
Lemma packets_complete cmd out_data isos size :
  urb_ok cmd out_data isos -> 0 < number_of_packets cmd ->
  (is_audio_in cmd = true -> size = transfer_buffer_length cmd) ->
  iso_actual (direction (base cmd)) size <$> isos = length_ <$> isos /\
  sum_list (length_ <$> isos) = transfer_buffer_length cmd.
Proof.
  intros Hu Hp Hm. pose proof (urb_tiles _ _ _ Hu Hp) as Ht.
  destruct (tiles_actual (direction (base cmd)) 0 isos _ Ht ltac:(lia)) as [Ha Hs].
  rewrite Z.sub_0_r in Hs. split; [|done]. destruct (urb_packets _ _ _ Hu Hp) as [Hao|Hai].
  - apply andb_prop in Hao as [_ Hd%Z.eqb_eq]. unfold iso_actual. by rewrite Hd.
  - by rewrite <- (Hm Hai) in Ha.
Qed.

Lemma complete_descriptors dir size isos :
  iso_actual dir size <$> isos = length_ <$> isos ->
  Forall (fun d => is_u32 (offset d) /\ is_u32 (length_ d)) isos ->
  (fun d => (offset d, length_ d, iso_actual dir size d)) <$> isos =
    (fun d => (offset d, length_ d, length_ d)) <$> isos /\
  Forall (fun d => is_u32 (offset d) /\ is_u32 (length_ d) /\ is_u32 (iso_actual dir size d)) isos.
Proof.
  intros Ha Hd. induction Hd as [|d ds [Ho Hl] _ IH]; [done|]. rewrite !fmap_cons in *.
  injection Ha as Hda Ha. destruct (IH Ha) as [-> Hf]. rewrite Hda. split; [done|].
  constructor; [by rewrite Hda|done].
Qed.

Lemma answer_reads_back cmd out_data isos s1 status data packets :
  urb_ok cmd out_data isos -> good_answer cmd s1 (status, data, packets) ->
  let dir := direction (base cmd) in
  let size := Z.of_nat (length data) in
  let actual := if has_packets cmd then u32 (sum_list (iso_actual dir size <$> isos)) else u32 size in
  read_reply dir (length isos)
    (ret_submit (base cmd) status actual packets ++ data ++
     (if has_packets cmd then concat (iso_reply dir size <$> isos) else [])) =
  Some (reply_of cmd status data packets isos, []).
Proof.
  intros Hu [_ Hst Hl Ho Hm _ _]. cbn [fst snd] in *. cbv zeta.
  pose proof (urb_cmd _ _ _ Hu) as Hc. pose proof (ok_length _ Hc) as Hlen. unfold is_s32 in Hlen.
  pose proof (urb_buffer _ _ _ Hu) as H0. pose proof (urb_isos _ _ _ Hu) as Hli.
  change (2 ^ 31) with 2147483648 in Hlen. change (2 ^ 32) with 4294967296 in Hl.
  assert (base_ok (base cmd)) as Hb by by destruct Hc.
  set (dir := direction (base cmd)) in *. set (size := Z.of_nat (length data)) in *.
  assert (is_u32 size) by (unfold is_u32; change (2 ^ 32) with 4294967296; lia).
  unfold reply_of, has_packets in *. destruct (Z.ltb_spec 0 (number_of_packets cmd)) as [Hp|Hp].
  - pose proof (urb_tiles _ _ _ Hu Hp) as Ht.
    destruct (packets_complete cmd out_data isos size Hu Hp Hm) as [Ha Hs]. fold dir in Ha.
    rewrite Ha, Hs, u32_id by (unfold is_u32; change (2 ^ 32) with 4294967296; lia).
    pose proof (tiles_bounds _ _ _ Ht ltac:(lia) ltac:(change (2 ^ 32) with 4294967296; lia)) as Hd.
    destruct (complete_descriptors dir size isos Ha Hd) as [<- Hd'].
    apply read_message; try done.
    + unfold is_u32. change (2 ^ 32) with 4294967296. lia.
    + destruct (Z.eqb_spec dir kDirIn) as [Hd''|Hd''].
      * destruct (urb_packets _ _ _ Hu Hp) as [Hao|Hai]; [|by symmetry; apply Hm].
        apply andb_prop in Hao as [_ Hx%Z.eqb_eq]. unfold dir in Hd''. by rewrite Hx in Hd''.
      * apply Ho. by destruct (urb_direction _ _ _ Hu).
    + intros _. fold size. by rewrite Ha.
  - assert (isos = []) as -> by (apply length_zero_iff_nil; lia).
    rewrite u32_id by done. rewrite app_nil_r.
    pose proof (read_message dir (base cmd) status size packets data [] Hb Hst) as Hr.
    rewrite app_nil_r in Hr. apply Hr; try done.
    destruct (Z.eqb_spec dir kDirIn); [done|]. apply Ho. by destruct (urb_direction _ _ _ Hu).
Qed.

Lemma send_parts ret data iso s :
  socket_ok s = [] ->
  (sent ← send_exact ret;
   if negb sent : bool then mret false
   else
     sent ← (if (length data =? 0)%nat then mret true else send_exact data);
     if negb sent : bool then mret false
     else if (length iso =? 0)%nat then mret true else send_exact iso) s =
  (set_socket (to_client s ++ ret ++ data ++ iso) [] s, Ok true).
Proof.
  intros Hs. unfold mbind, prog_bind. rewrite send_exact_ok by done. cbn [negb].
  destruct data as [|d data]; destruct iso as [|i iso]; cbn [length Nat.eqb negb];
    unfold mret, prog_ret; repeat (simpl; rewrite send_exact_ok by done);
    unfold set_socket; simpl; by rewrite ?app_nil_r, <- ?app_assoc.
Qed.

(** How the answer leaves: at once, or through the pacer. *)
Definition sent_or_paced (now : Z) (cmd : UsbipCmdSubmit) (s s' : Impl) (message : list Z) : Prop :=
  if has_packets cmd then
    let '(t, next) := pace now (if is_audio_out cmd then iso_out_next_due s else iso_in_next_due s)
                        (number_of_packets cmd) in
    to_client s' = to_client s /\ paced_replies s' = emplace (mk_paced t message) (paced_replies s) /\
    (if is_audio_out cmd then iso_out_next_due s' = next /\ iso_in_next_due s' = iso_in_next_due s
     else iso_in_next_due s' = next /\ iso_out_next_due s' = iso_out_next_due s)
  else
    to_client s' = to_client s ++ message /\ paced_replies s' = paced_replies s /\
    iso_out_next_due s' = iso_out_next_due s /\ iso_in_next_due s' = iso_in_next_due s.

Lemma handle_submit_returns now cmd out_data isos s :
  urb_ok cmd out_data isos -> working s ->
  returns (handle_cmd_submit volume_gain now cmd out_data isos) s (fun s' more =>
    more = true /\ working s' /\
    exists s1 status data packets message,
      perform volume_gain cmd out_data s = (s1, Ok (status, data, packets)) /\
      good_answer cmd s1 (status, data, packets) /\
      sent_or_paced now cmd s s' message /\
      read_reply (direction (base cmd)) (length isos) message =
        Some (reply_of cmd status data packets isos, [])).
Proof.
  intros Hu Hw. destruct (perform_returns cmd out_data isos Hu s Hw) as (s1 & [[status data] packets] & Hp & Hg).
  pose proof (perform_silent volume_gain cmd out_data s) as Hq. rewrite Hp in Hq. cbn [fst] in Hq.
  pose proof (answer_reads_back cmd out_data isos s1 status data packets Hu Hg) as Hr. cbv zeta in Hr.
  pose proof (ga_working _ _ _ Hg) as Hw1. pose proof (w_socket _ Hw1) as Hsock.
  destruct Hq as (Qc & Qs & Qp & Qo & Qi & _).
  unfold handle_cmd_submit. cbv zeta. apply returns_bind. exists s1, (status, data, packets). split; [done|].
  fold (has_packets cmd). set (ret := ret_submit _ _ _ _) in *.
  destruct (has_packets cmd) eqn:Hhp.
  - pose proof (audio_packets cmd out_data isos Hu Hhp) as Ha. unfold is_audio in Ha.
    rewrite !andb_true_r, Ha. apply returns_bind, returns_modify.
    assert ((if is_audio_in cmd then data else []) = data) as ->.
    { destruct (is_audio_in cmd) eqn:Hai; [done|]. symmetry. apply (ga_out _ _ _ Hg).
      rewrite orb_false_r in Ha. by apply andb_prop in Ha as [_ ?%Z.eqb_eq]. }
    destruct (pace now _ _) as [t next] eqn:Hpace. apply returns_ret.
    split_and!; [done|by destruct Hw1|]. exists s1, status, data, packets, (ret ++ data ++
      concat (iso_reply (direction (base cmd)) (Z.of_nat (length data)) <$> isos)).
    split_and!; [done..| |done]. unfold sent_or_paced. rewrite Hhp, <- Qo, <- Qi, Hpace, <- Qp. simpl.
    split_and!; [done..|]. by destruct (is_audio_out cmd).
  - rewrite !andb_false_r. cbn [orb]. eexists _, true. split; [by apply send_parts|].
    split_and!; [done|by destruct Hw1|]. exists s1, status, data, packets, (ret ++ data ++ []).
    split_and!; [done..| |done]. unfold sent_or_paced. rewrite Hhp. simpl. by rewrite Qc, Qp, Qo, Qi.
Qed.
End Requests.
