(* ===== verification/UsbipSession.v ===== *)
(** Sessions of the USB/IP device: requests are taken from the stream one after the
    other, and answered in order. *)
From stdpp Require Import base list strings numbers.
From Stdlib Require Import Ascii ZArith Lia.
From S2P Require Import Prelude Text Words BtPacket Profile UsbDescriptors MicBuffer Usbip UsbipFacts.
From S2P Require Import UsbipReply.

Local Open Scope Z_scope.

(** ** What a client sends *)

Inductive client_message :=
  | Submit (cmd : UsbipCmdSubmit) (out_data : list Z) (isos : list UsbipIsoPacketDescriptor)
  | Unlink (cmd : UsbipCmdSubmit).

Definition encode_iso (d : UsbipIsoPacketDescriptor) : list Z :=
  hton32 (offset d) ++ hton32 (length_ d) ++ hton32 0 ++ hton32 0.

(** A request, its data, its packets. *)
Definition encode_message (m : client_message) : list Z :=
  match m with
  | Submit cmd out_data isos => encode_cmd cmd 0 0 ++ out_data ++ concat (encode_iso <$> isos)
  | Unlink cmd => encode_cmd cmd 0 0
  end.

(** What the framing of messages needs. *)
Definition framed (m : client_message) : Prop :=
  match m with
  | Submit cmd out_data isos =>
      cmd_ok cmd /\ command (base cmd) = kCmdSubmit /\
      length out_data = (if direction (base cmd) =? kDirOut
                         then Z.to_nat (transfer_buffer_length cmd) else 0%nat) /\
      length isos = Z.to_nat (number_of_packets cmd) /\
      Forall (fun d => is_u32 (offset d) /\ is_u32 (length_ d)) isos
  | Unlink cmd => cmd_ok cmd /\ command (base cmd) = kCmdUnlink
  end.

Definition message_ok (m : client_message) : Prop :=
  framed m /\ match m with Submit cmd out_data isos => urb_ok cmd out_data isos | Unlink _ => True end.

Lemma concat_encode_iso_length isos : length (concat (encode_iso <$> isos)) = (iso_size * length isos)%nat.
Proof.
  induction isos as [|d rest IH]; [done|]. rewrite fmap_cons. cbn [concat]. rewrite length_app, IH.
  unfold encode_iso. rewrite !length_app, !hton32_length. unfold iso_size. simpl. lia.
Qed.

Lemma decode_encode_isos isos :
  Forall (fun d => is_u32 (offset d) /\ is_u32 (length_ d)) isos ->
  decode_isos (length isos) (concat (encode_iso <$> isos)) = isos.
Proof.
  induction 1 as [|d rest [Ho Hl] _ IH]; [done|]. rewrite fmap_cons. cbn [concat length decode_isos].
  assert (length (encode_iso d) = iso_size) as Hs by by unfold encode_iso; rewrite !length_app, !hton32_length.
  rewrite take_app_length', drop_app_length' by done. rewrite IH. f_equal.
  unfold decode_iso, encode_iso. destruct d as [o l]. cbn [offset length_] in *. f_equal.
  - by apply (field_at []).
  - by apply (field_at (hton32 o)).
Qed.

Section Session.
Context (volume_gain : Z -> Z).

(** One message, handled; the result is whether the session goes on. *)
Definition handle_message (now : Z) (m : client_message) : prog Impl bool :=
  match m with
  | Submit cmd out_data isos =>
      try_catch (handle_cmd_submit volume_gain now cmd out_data isos) (fun _ => mret false)
  | Unlink cmd => _ ← send_exact (ret_unlink (seqnum (base cmd))); mret true
  end.

(** The session on whole messages. *)
Fixpoint serve (turns : list Turn) (ms : list client_message) : prog Impl unit :=
  match turns with
  | [] => mret tt
  | turn :: turns' =>
      _ ← environment turn;
      match ms with
      | [] => mret tt
      | m :: ms' =>
          more ← handle_message (now turn) m;
          if more : bool then serve turns' ms' else mret tt
      end
  end.

Lemma prog_bind_ext {S A B} (m : prog S A) (f g : A -> prog S B) s :
  (forall a s', f a s' = g a s') -> (m ≫= f) s = (m ≫= g) s.
Proof. intros Hfg. unfold mbind, prog_bind. destruct (m s) as [s' [a|e]]; [apply Hfg|done]. Qed.

Lemma prog_bind_assoc {S A B C} (m : prog S A) (f : A -> prog S B) (g : B -> prog S C) s :
  ((m ≫= f) ≫= g) s = (m ≫= (fun a => f a ≫= g)) s.
Proof. unfold mbind, prog_bind. by destruct (m s) as [s' [a|e]]. Qed.

(** One turn takes the next message from the stream. *)
Lemma session_loop_step turn turns m rest s :
  framed m ->
  session_loop volume_gain (turn :: turns) (encode_message m ++ rest) s =
  (_ ← environment turn;
   more ← handle_message (now turn) m;
   if more : bool then session_loop volume_gain turns rest else mret tt) s.
Proof.
  intros Hm. cbn [session_loop]. apply prog_bind_ext. intros _ s1.
  destruct m as [cmd out_data isos|cmd]; cbn [encode_message framed] in *; rewrite <- ?app_assoc.
  - destruct Hm as (Hc & Hcmd & Hdata & Hlen & Hiso).
    pose proof (encode_cmd_length cmd 0 0 (ok_setup _ Hc)) as Hl.
    rewrite (proj2 (Nat.ltb_ge _ _)) by (rewrite length_app; lia).
    rewrite take_app_length', drop_app_length', decode_encode_cmd by done. cbv zeta.
    rewrite Hcmd. cbn [Z.eqb negb kCmdSubmit kCmdUnlink Pos.eqb].
    set (size := if _ && _ then _ else _).
    assert (size = length out_data) as ->.
    { unfold size. rewrite Hdata. destruct (_ =? kDirOut); [|done]. cbn [andb].
      destruct (Z.ltb_spec 0 (transfer_buffer_length cmd)); lia. }
    rewrite length_app, (proj2 (Nat.ltb_ge _ _)) by lia.
    rewrite take_app_length, drop_app_length, <- Hlen.
    rewrite length_app, concat_encode_iso_length, (proj2 (Nat.ltb_ge _ _)) by lia.
    rewrite take_app_length', drop_app_length' by (by rewrite concat_encode_iso_length).
    by rewrite decode_encode_isos.
  - destruct Hm as [Hc Hcmd]. pose proof (encode_cmd_length cmd 0 0 (ok_setup _ Hc)) as Hl.
    rewrite (proj2 (Nat.ltb_ge _ _)) by (rewrite length_app; lia).
    rewrite take_app_length', drop_app_length', decode_encode_cmd by done. cbv zeta. rewrite Hcmd.
    cbn [Z.eqb kCmdUnlink Pos.eqb handle_message]. rewrite prog_bind_assoc. by apply prog_bind_ext.
Qed.

(** Where a client stopped in the middle of a request: in its header, in its data, or
    in its packets. *)
Definition incomplete (rest : list Z) : Prop :=
  (length rest < cmd_size)%nat
  \/ exists m more, framed m /\ rest ++ more = encode_message m /\ more <> [].

Lemma session_loop_header turn turns cmd rest s :
  cmd_ok cmd -> command (base cmd) = kCmdSubmit ->
  let size := if direction (base cmd) =? kDirOut then Z.to_nat (transfer_buffer_length cmd) else 0%nat in
  (length rest < size + iso_size * Z.to_nat (number_of_packets cmd))%nat ->
  session_loop volume_gain (turn :: turns) (encode_cmd cmd 0 0 ++ rest) s = (_ ← environment turn; mret tt) s.
Proof.
  intros Hc Hcmd size Hrest. cbn [session_loop]. apply prog_bind_ext. intros _ s1.
  pose proof (encode_cmd_length cmd 0 0 (ok_setup _ Hc)) as Hl.
  rewrite (proj2 (Nat.ltb_ge _ _)) by (rewrite length_app; lia).
  rewrite take_app_length', drop_app_length', decode_encode_cmd by done. cbv zeta.
  rewrite Hcmd. cbn [Z.eqb negb kCmdSubmit kCmdUnlink Pos.eqb].
  assert ((if (direction (base cmd) =? kDirOut) && (0 <? transfer_buffer_length cmd)
    then Z.to_nat (transfer_buffer_length cmd) else 0%nat) = size) as ->.
  { unfold size. destruct (_ =? kDirOut); [|done]. cbn [andb].
    destruct (Z.ltb_spec 0 (transfer_buffer_length cmd)); lia. }
  destruct (Nat.ltb_spec (length rest) size); [done|].
  rewrite (proj2 (Nat.ltb_lt _ _)); [done|]. rewrite length_drop. lia.
Qed.

(** An incomplete request is not handled. *)
Lemma session_loop_incomplete turn turns rest s :
  incomplete rest -> session_loop volume_gain (turn :: turns) rest s = (_ ← environment turn; mret tt) s.
Proof.
  intros Hrest. assert ((length rest < cmd_size)%nat ->
    session_loop volume_gain (turn :: turns) rest s = (_ ← environment turn; mret tt) s) as Hshort.
  { intros Hl. cbn [session_loop]. apply prog_bind_ext. intros _ s1. by rewrite (proj2 (Nat.ltb_lt _ _) Hl). }
  destruct Hrest as [|(m & more & Hm & E & Hne)]; [by apply Hshort|].
  destruct (Nat.lt_ge_cases (length rest) cmd_size) as [|Hge]; [by apply Hshort|].
  assert (0 < length more)%nat as Hpos by (destruct more; [done|cbn; lia]).
  destruct m as [cmd out_data isos|cmd]; cbn [encode_message framed] in *.
  - destruct Hm as (Hc & Hcmd & Hdata & Hlen & Hiso).
    pose proof (encode_cmd_length cmd 0 0 (ok_setup _ Hc)) as Hl.
    assert (rest = encode_cmd cmd 0 0 ++ drop cmd_size rest) as Er.
    { rewrite <- (take_drop cmd_size rest) at 1. f_equal.
      rewrite <- (take_app_le rest more), E by lia. by rewrite take_app_length'. }
    rewrite Er. apply session_loop_header; [done..|].
    apply (f_equal length) in E. rewrite !length_app, concat_encode_iso_length in E. rewrite length_drop, <- Hdata, <- Hlen. lia.
  - destruct Hm as [Hc _]. pose proof (encode_cmd_length cmd 0 0 (ok_setup _ Hc)) as Hl.
    apply (f_equal length) in E. rewrite length_app in E. lia.
Qed.

(** The session on bytes is the session on the messages they hold; an incomplete request
    at the end has no effect. *)
Lemma session_loop_serve turns ms rest s :
  Forall framed ms -> incomplete rest ->
  session_loop volume_gain turns (concat (encode_message <$> ms) ++ rest) s = serve turns ms s.
Proof.
  intros Hms Hrest. revert ms Hms s. induction turns as [|turn turns IH]; intros ms Hms s; [done|].
  destruct Hms as [|m ms Hm Hms].
  - cbn [serve fmap list_fmap concat app]. by apply session_loop_incomplete.
  - rewrite fmap_cons. cbn [concat serve]. rewrite <- !app_assoc, session_loop_step by done.
    apply prog_bind_ext. intros _ s1. apply prog_bind_ext. intros [|] s2; [by apply IH|done].
Qed.

(** ** Answers in order *)

Definition answered (m : client_message) (answer : list Z) : Prop :=
  match m with
  | Submit cmd _ isos =>
      exists reply, read_reply (direction (base cmd)) (length isos) answer = Some (reply, []) /\
        r_seqnum reply = seqnum (base cmd) /\
        (ep (base cmd) = 0 -> Z.of_nat (length (r_data reply)) <= setup_word (setup cmd) 6)
  | Unlink cmd => answer = ret_unlink (seqnum (base cmd))
  end.

Definition without_packets (m : client_message) : Prop :=
  match m with Submit cmd _ _ => has_packets cmd = false | Unlink _ => True end.

(** Without queued replies the other threads only fill the queues. *)
Lemma pacer_turns_idle times s : paced_replies s = [] -> pacer_turns times s = (s, Ok tt).
Proof.
  intros Hp. induction times as [|t times IH]; [done|]. cbn [pacer_turns].
  unfold mbind, prog_bind, pacer_step. by rewrite Hp.
Qed.

Lemma environment_idle turn s (Q : Impl -> unit -> Prop) :
  working s -> paced_replies s = [] ->
  (forall s', working s' -> paced_replies s' = [] -> to_client s' = to_client s -> Q s' tt) ->
  returns (environment turn) s Q.
Proof.
  intros Hw Hp HQ. unfold environment. apply returns_bind, returns_modify.
  pose proof (arrivals_working s Hw). destruct (arrivals_quiet s) as [(Hc & _ & Hpp & _) _].
  rewrite Hp in Hpp. eexists _, tt. split; [by apply pacer_turns_idle|]. by apply HQ.
Qed.

Lemma handle_message_answers t m s :
  message_ok m -> without_packets m -> working s -> paced_replies s = [] ->
  exists answer, answered m answer /\
    returns (handle_message t m) s (fun s' more =>
      more = true /\ working s' /\ paced_replies s' = [] /\ to_client s' = to_client s ++ answer).
Proof.
  intros Hm Hn Hw Hp. destruct m as [cmd out_data isos|cmd]; destruct Hm as [_ Hu];
    cbn [without_packets answered] in *.
  - destruct (handle_submit_returns volume_gain t cmd out_data isos s Hu Hw)
      as (s' & more & Hh & -> & Hw' & s1 & status & data & packets & message & _ & Hg & Hsent & Hr).
    unfold sent_or_paced in Hsent. rewrite Hn in Hsent. destruct Hsent as (Hc & Hp' & _).
    exists message. split.
    + eexists. split; [exact Hr|]. split; [done|]. apply (ga_control _ _ _ Hg).
    + exists s', true. cbn [handle_message]. unfold try_catch. rewrite Hh, Hp', Hp. done.
  - eexists. split; [done|]. cbn [handle_message]. apply returns_bind. eexists _, true.
    split; [apply send_exact_ok, (w_socket _ Hw)|]. apply returns_ret. split_and!; try done.
    by destruct Hw.
Qed.

Lemma serve_in_order turns ms s :
  Forall message_ok ms -> Forall without_packets ms -> working s -> paced_replies s = [] ->
  (length ms <= length turns)%nat ->
  exists answers, Forall2 answered ms answers /\
    returns (serve turns ms) s (fun s' _ => to_client s' = to_client s ++ concat answers).
Proof.
  intros Hms. revert turns s. induction Hms as [|m ms Hm _ IH]; intros turns s Hn Hw Hp Hlen.
  - exists []. split; [constructor|]. destruct turns as [|turn turns]; cbn [serve].
    + apply returns_ret. by rewrite app_nil_r.
    + apply returns_bind, environment_idle; [done..|]. intros s' _ _ Hc. apply returns_ret.
      by rewrite app_nil_r.
  - apply Forall_cons_1 in Hn as [Hn Hns]. destruct turns as [|turn turns]; [simpl in Hlen; lia|].
    cbn [serve]. destruct (environment_idle turn s (fun s' _ => working s' /\ paced_replies s' = [] /\
      to_client s' = to_client s)) as (s1 & [] & He & Hw1 & Hp1 & Hc1); [done..|].
    destruct (handle_message_answers (now turn) m s1 Hm Hn Hw1 Hp1) as (answer & Ha & s2 & more & Hh & -> & Hw2 & Hp2 & Hc2).
    destruct (IH turns s2 Hns Hw2 Hp2) as (answers & Has & Hserve); [simpl in Hlen; lia|].
    exists (answer :: answers). split; [by constructor|].
    apply returns_bind. exists s1, tt. split; [done|]. apply returns_bind. exists s2, true. split; [done|].
    eapply returns_weaken; [exact Hserve|]. intros s' _ ->. cbn [concat]. by rewrite Hc2, Hc1, !app_assoc.
Qed.
End Session.
