(* ===== verification/UsbipPacing.v ===== *)
(** The pacer of isochronous replies (src/src/platform/win32/vds_usbip.cc,
    [iso_pacer_loop] and the end of [handle_cmd_submit]): what is queued is sent once,
    in the order of each direction, not before its time and at the rate of the audio.  At
    the end, the invariant of the device. *)
From stdpp Require Import base list strings numbers sorting.
From Stdlib Require Import Ascii ZArith Lia.
From S2P Require Import Prelude Text Words Usbip UsbipFacts.
From S2P Require Import BtPacket Profile UsbDescriptors MicBuffer.

Local Open Scope Z_scope.

(** ** The queue *)

Definition due_le (x y : PacedReply) : Prop := due x <= due y.
Definition in_order (l : list PacedReply) : Prop := StronglySorted due_le l.

(** [emplace] puts a reply behind all that are due no later. *)
Lemma emplace_split r replies :
  in_order replies ->
  exists before after, replies = before ++ after /\ emplace r replies = before ++ r :: after /\
    Forall (fun x => due x <= due r) before /\ Forall (fun x => due r < due x) after.
Proof.
  induction 1 as [|x rest Hs IH Hx]; [by exists [], []|]. cbn [emplace].
  destruct (Z.ltb_spec (due r) (due x)).
  - exists [], (x :: rest). split_and!; [done..|constructor|]. constructor; [done|].
    eapply Forall_impl; [done|]. unfold due_le. simpl. lia.
  - destruct IH as (before & after & -> & -> & Hb & Ha). exists (x :: before), after.
    split_and!; [done..| |done]. by constructor.
Qed.

Lemma in_order_app l k :
  in_order l -> in_order k -> Forall (fun x => Forall (due_le x) k) l -> in_order (l ++ k).
Proof.
  intros Hl Hk Hlk. induction Hl as [|x l Hl IH Hx]; [done|]. apply Forall_cons_1 in Hlk as [Hxk Hlk].
  cbn [app]. constructor; [by apply IH|]. by apply Forall_app.
Qed.

Lemma in_order_app_inv l k : in_order (l ++ k) -> in_order l /\ in_order k.
Proof.
  induction l as [|x l IH]; cbn [app]; [intros Hk; split; [constructor|done]|].
  intros H. inversion H as [|? ? Hs Hx]; subst. destruct (IH Hs) as [Hl Hk].
  apply Forall_app in Hx as [Hx _]. split; [by constructor|done].
Qed.

Lemma emplace_in_order r replies : in_order replies -> in_order (emplace r replies).
Proof.
  intros Ho. destruct (emplace_split r replies Ho) as (before & after & -> & -> & Hb & Ha).
  apply in_order_app_inv in Ho as [Hb' Ha']. apply in_order_app; [done| |].
  - constructor; [done|]. eapply Forall_impl; [exact Ha|]. unfold due_le. simpl. lia.
  - eapply Forall_impl; [exact Hb|]. intros x Hx. cbv beta in Hx. unfold due_le. constructor; [done|].
    eapply Forall_impl; [exact Ha|]. simpl. lia.
Qed.

Lemma emplace_perm r replies : emplace r replies ≡ₚ r :: replies.
Proof.
  induction replies as [|x rest IH]; [done|]. cbn [emplace]. case_match; [done|].
  rewrite IH. apply Permutation_swap.
Qed.

Lemma sublist_fmap {A B} (f : A -> B) l k : l `sublist_of` k -> f <$> l `sublist_of` f <$> k.
Proof. induction 1; cbn [fmap list_fmap]; by constructor. Qed.

(** A list whose elements are due no later keeps its order in front of [r]. *)
Lemma sublist_emplace r sent replies mine :
  in_order replies -> Forall (fun x => due x <= due r) mine -> mine `sublist_of` sent ++ replies ->
  mine ++ [r] `sublist_of` sent ++ emplace r replies.
Proof.
  intros Ho Hm Hs. destruct (emplace_split r replies Ho) as (before & after & -> & -> & _ & Ha).
  rewrite app_assoc in Hs. apply sublist_app_r in Hs as (m1 & m2 & -> & H1 & H2).
  apply Forall_app in Hm as [_ Hm2].
  assert (m2 = []) as ->.
  { destruct m2 as [|y m2]; [done|]. apply Forall_cons_1 in Hm2 as [Hy _].
    assert (y ∈ after) as Hin by (eapply elem_of_sublist; [left|exact H2]).
    rewrite Forall_forall in Ha. specialize (Ha y Hin). simpl in Ha. lia. }
  rewrite app_nil_r, app_assoc. apply sublist_app; [done|]. apply sublist_skip, sublist_nil_l.
Qed.

Lemma sublist_emplace_other r sent replies mine :
  in_order replies -> mine `sublist_of` sent ++ replies -> mine `sublist_of` sent ++ emplace r replies.
Proof.
  intros Ho Hs. destruct (emplace_split r replies Ho) as (before & after & -> & -> & _ & _).
  etransitivity; [exact Hs|]. apply sublist_app; [done|]. apply sublist_app; [done|]. by apply sublist_cons.
Qed.

(** ** A run of the pacer *)

Inductive pacer_event :=
  | Enqueue (out : bool) (now packets : Z) (message : list Z)
  | Send (now : Z).

Definition pacer_op (e : pacer_event) : prog Impl unit :=
  match e with
  | Enqueue out now packets message => enqueue_paced out now packets message
  | Send now => pacer_step now
  end.

(** The reply an event queues or sends, in the state before it. *)
Definition queues (out : bool) (e : pacer_event) (s : Impl) : list PacedReply :=
  match e with
  | Enqueue o now packets message =>
      if Bool.eqb o out then
        [mk_paced (fst (pace now (if out then iso_out_next_due s else iso_in_next_due s) packets)) message]
      else []
  | Send _ => []
  end.
Definition sends (e : pacer_event) (s : Impl) : list (Z * PacedReply) :=
  match e, paced_replies s with
  | Send now, r :: _ => if now <? due r then [] else [(now, r)]
  | _, _ => []
  end.

(** A run, with what was sent and when, and what each direction queued. *)
Record pacer_trace := mk_trace {
  t_sent : list (Z * PacedReply);
  t_out : list PacedReply;
  t_in : list PacedReply
}.
Fixpoint pacer_run (events : list pacer_event) (t : pacer_trace) (s : Impl) : pacer_trace * Impl :=
  match events with
  | [] => (t, s)
  | e :: rest =>
      pacer_run rest (mk_trace (t_sent t ++ sends e s) (t_out t ++ queues true e s)
                               (t_in t ++ queues false e s)) (fst (pacer_op e s))
  end.

Definition event_ok (e : pacer_event) : Prop :=
  match e with Enqueue _ now packets _ => 0 < now /\ 0 < packets | Send _ => True end.

(** One direction: its replies in order, due no later than the next one. *)
Record direction_ok (mine : list PacedReply) (next_due : Z) (all : list PacedReply) : Prop := {
  dir_sublist : mine `sublist_of` all;
  dir_sorted : in_order mine;
  dir_next : Forall (fun x => due x <= next_due) mine;
  dir_anchor : mine = [] \/ 0 < next_due;
  dir_start : 0 <= next_due
}.

Record pacer_inv (before : list Z) (t : pacer_trace) (s : Impl) : Prop := {
  p_socket : socket_ok s = [];
  p_order : in_order (paced_replies s);
  p_client : to_client s = before ++ concat (bytes <$> (snd <$> t_sent t));
  p_times : Forall (fun p => due (snd p) <= fst p) (t_sent t);
  p_once : (snd <$> t_sent t) ++ paced_replies s ≡ₚ t_out t ++ t_in t;
  p_out : direction_ok (t_out t) (iso_out_next_due s) ((snd <$> t_sent t) ++ paced_replies s);
  p_in : direction_ok (t_in t) (iso_in_next_due s) ((snd <$> t_sent t) ++ paced_replies s)
}.

Lemma pace_next now anchor packets t next :
  pace now anchor packets = (t, next) -> 0 < now -> 0 < packets -> 0 <= anchor ->
  t <= next /\ 0 < next /\ (0 < anchor -> anchor <= t).
Proof.
  unfold pace, milliseconds. destruct ((anchor =? 0) || (anchor <? now - 250 * 1000000)) eqn:Hr;
    intros [= <- <-] Hn Hp Ha; lia.
Qed.

Lemma direction_enqueue mine now anchor packets t next sent replies message :
  direction_ok mine anchor (sent ++ replies) -> in_order replies ->
  pace now anchor packets = (t, next) -> 0 < now -> 0 < packets ->
  direction_ok (mine ++ [mk_paced t message]) next (sent ++ emplace (mk_paced t message) replies).
Proof.
  intros [Hs Hsorted Hn Ha H0] Ho Hp Hnow Hpk. destruct (pace_next _ _ _ _ _ Hp Hnow Hpk H0) as (Ht & Hpos & Hat).
  assert (Forall (fun x => due x <= t) mine) as Hmine.
  { destruct Ha as [->|Ha]; [constructor|]. eapply Forall_impl; [exact Hn|]. simpl. lia. }
  constructor.
  - by apply sublist_emplace.
  - apply in_order_app; [done|by repeat constructor|]. eapply Forall_impl; [exact Hmine|].
    intros x Hx. by constructor; [|constructor].
  - apply Forall_app. split; [|by constructor; [|constructor]].
    eapply Forall_impl; [exact Hmine|]. simpl. lia.
  - by right.
  - lia.
Qed.

Lemma direction_other mine anchor sent replies r :
  direction_ok mine anchor (sent ++ replies) -> in_order replies ->
  direction_ok mine anchor (sent ++ emplace r replies).
Proof. intros [Hs ????] Ho. constructor; try done. by apply sublist_emplace_other. Qed.

Lemma pacer_op_inv before t s e :
  event_ok e -> pacer_inv before t s ->
  pacer_inv before (mk_trace (t_sent t ++ sends e s) (t_out t ++ queues true e s)
                             (t_in t ++ queues false e s)) (fst (pacer_op e s)).
Proof.
  intros He [Hsock Ho Hc Ht Honce Hout Hin]. destruct e as [out now packets message|now]; cbn [pacer_op].
  - destruct He as [Hnow Hpk]. unfold enqueue_paced, modify. cbn [fst sends queues].
    rewrite app_nil_r. destruct out; cbn [Bool.eqb]; rewrite app_nil_r;
      destruct (pace now _ packets) as [d next] eqn:Hp; (constructor; simpl; [done|by apply emplace_in_order|done|done| | |]).
    + rewrite emplace_perm, <- Permutation_middle, Honce. solve_Permutation.
    + by eapply direction_enqueue.
    + by apply direction_other.
    + rewrite emplace_perm, <- Permutation_middle, Honce. solve_Permutation.
    + by apply direction_other.
    + by eapply direction_enqueue.
  - cbn [queues]. rewrite !app_nil_r. unfold pacer_step, sends.
    destruct (paced_replies s) as [|r rest] eqn:Hr.
    { rewrite app_nil_r. constructor; simpl; by rewrite ?Hr. }
    destruct (Z.ltb_spec now (due r)).
    { rewrite app_nil_r. constructor; simpl; by rewrite ?Hr. }
    inversion Ho; subst. unfold mbind, prog_bind. rewrite send_exact_ok by done. cbn [fst].
    constructor; simpl; rewrite ?fmap_app, <- ?app_assoc; cbn [fmap list_fmap snd app]; try done.
    + rewrite ?concat_app, Hc, <- ?app_assoc. simpl. by rewrite ?app_nil_r.
    + apply Forall_app. split; [done|]. by constructor; [simpl; lia|constructor].
Qed.

Lemma pacer_run_inv before events t s :
  Forall event_ok events -> pacer_inv before t s ->
  let '(t', s') := pacer_run events t s in pacer_inv before t' s'.
Proof.
  intros He. revert t s. induction He as [|e rest He _ IH]; intros t s Hi; [done|].
  cbn [pacer_run]. by apply IH, pacer_op_inv.
Qed.

(** What a run queued, from its events alone. *)
Fixpoint queued (out : bool) (events : list pacer_event) : list (list Z) :=
  match events with
  | [] => []
  | Enqueue o _ _ message :: rest => if Bool.eqb o out then message :: queued out rest else queued out rest
  | Send _ :: rest => queued out rest
  end.

Lemma pacer_run_queued events t s :
  bytes <$> t_out (fst (pacer_run events t s)) = (bytes <$> t_out t) ++ queued true events /\
  bytes <$> t_in (fst (pacer_run events t s)) = (bytes <$> t_in t) ++ queued false events.
Proof.
  revert t s. induction events as [|e rest IH]; intros t s; cbn [pacer_run queued]; [by rewrite !app_nil_r|].
  destruct (IH (mk_trace (t_sent t ++ sends e s) (t_out t ++ queues true e s) (t_in t ++ queues false e s))
    (fst (pacer_op e s))) as [-> ->]. cbn [t_out t_in].
  destruct e as [[|] now packets message|now]; simpl; rewrite ?fmap_app, ?app_nil_r, <- ?app_assoc; done.
Qed.

(** ** The rate *)

(** The due times of requests of one direction: the time each came in and how many
    packets it had. *)
Fixpoint due_times (anchor : Z) (requests : list (Z * Z)) : list Z :=
  match requests with
  | [] => []
  | (now, packets) :: rest =>
      let '(t, next) := pace now anchor packets in t :: due_times next rest
  end.

(** The slots of an ideal bus that takes a packet each millisecond. *)
Fixpoint slots (start : Z) (requests : list (Z * Z)) : list Z :=
  match requests with
  | [] => []
  | (_, packets) :: rest => start :: slots (start + milliseconds packets) rest
  end.

(** No request is more than the tolerance behind its slot. *)
Fixpoint punctual (start : Z) (requests : list (Z * Z)) : Prop :=
  match requests with
  | [] => True
  | (now, packets) :: rest =>
      now <= start + milliseconds 250 /\ 0 < packets /\ punctual (start + milliseconds packets) rest
  end.

Lemma due_times_slots anchor requests :
  0 < anchor -> punctual anchor requests -> due_times anchor requests = slots anchor requests.
Proof.
  revert anchor. induction requests as [|[now packets] rest IH]; intros anchor Ha; [done|].
  cbn [punctual due_times slots]. intros (Hn & Hp & Hr). unfold pace.
  assert ((anchor =? 0) || (anchor <? now - milliseconds 250) = false) as -> by (unfold milliseconds in *; lia).
  f_equal. apply IH; [unfold milliseconds; lia|done].
Qed.

(** The requests of one direction among the events. *)
Fixpoint requests (out : bool) (events : list pacer_event) : list (Z * Z) :=
  match events with
  | [] => []
  | Enqueue o now packets _ :: rest =>
      if Bool.eqb o out then (now, packets) :: requests out rest else requests out rest
  | Send _ :: rest => requests out rest
  end.

(** Due times depend on the requests of the direction only. *)
Lemma pacer_run_due events t s :
  due <$> t_out (fst (pacer_run events t s)) =
    (due <$> t_out t) ++ due_times (iso_out_next_due s) (requests true events) /\
  due <$> t_in (fst (pacer_run events t s)) =
    (due <$> t_in t) ++ due_times (iso_in_next_due s) (requests false events).
Proof.
  revert t s. induction events as [|e rest IH]; intros t s; cbn [pacer_run requests].
  { cbn [due_times fst]. by rewrite !app_nil_r. }
  destruct (IH (mk_trace (t_sent t ++ sends e s) (t_out t ++ queues true e s) (t_in t ++ queues false e s))
    (fst (pacer_op e s))) as [-> ->]. cbn [t_out t_in]. rewrite !fmap_app.
  destruct e as [[|] now packets message|now]; cbn [queues Bool.eqb pacer_op due_times].
  - unfold enqueue_paced, modify. cbn [fst]. destruct (pace now (iso_out_next_due s) packets) as [d next].
    simpl. by rewrite app_nil_r, <- app_assoc.
  - unfold enqueue_paced, modify. cbn [fst]. destruct (pace now (iso_in_next_due s) packets) as [d next].
    simpl. by rewrite app_nil_r, <- app_assoc.
  - rewrite !app_nil_r. unfold pacer_step. destruct (paced_replies s) as [|r l]; [done|].
    case_match; [done|]. done.
Qed.

(** ** Draining *)

Lemma pacer_drains times replies s :
  socket_ok s = [] -> paced_replies s = replies -> length times = length replies ->
  Forall (fun t => Forall (fun r => due r <= t) replies) times ->
  returns (pacer_turns times) s (fun s' _ =>
    paced_replies s' = [] /\ to_client s' = to_client s ++ concat (bytes <$> replies)).
Proof.
  revert times s. induction replies as [|r rest IH]; intros times s Hs Hr Hl Ht.
  - destruct times; [|done]. apply returns_ret. simpl. by rewrite app_nil_r.
  - destruct times as [|t times]; [done|]. apply Forall_cons_1 in Ht as [Hrt Ht].
    apply Forall_cons_1 in Hrt as [Hrt _]. cbn [pacer_turns]. apply returns_bind.
    unfold returns at 1, pacer_step. rewrite Hr, (proj2 (Z.ltb_ge _ _) Hrt).
    unfold mbind at 1, prog_bind at 1. rewrite send_exact_ok by done. eexists _, tt. split; [done|].
    eapply returns_weaken; [apply IH; simpl; [done|done|by injection Hl|]|].
    + eapply Forall_impl; [exact Ht|]. intros x Hx. by apply Forall_cons_1 in Hx as [_ ?].
    + intros s' [] [Hp Hc]. split; [done|]. rewrite Hc. simpl. by rewrite app_assoc.
Qed.


Section Invariant.
Context (volume_gain : Z -> Z).

(** The gain the volume control asks for. *)
Definition gain_of (s : Impl) : Z := if fu_muted s then 0 else volume_gain (fu_volume_db256 s).

Record device_inv (s : Impl) : Prop := {
  inv_hid : (length (hid_in_queue s) <= 8)%nat;
  inv_mic : (length (mic_ring_buffer (mic s)) <= kMicMaxBufferBytes)%nat;
  inv_volume : is_s16 (fu_volume_db256 s);
  inv_gain : speaker_gain_q15 s = gain_of s;
  inv_paced : in_order (paced_replies s)
}.
Abbreviation safe := (preserves (keeps device_inv)).

Lemma demux_inv frame s : device_inv s -> device_inv (demux_frame frame s).
Proof.
  intros [Hh Hm Hv Hg Hp]. unfold demux_frame.
  destruct (frame_type frame =? VDS_FRAME_USB_HID_IN); [|repeat case_match; constructor; simpl; try done].
  - destruct (Nat.ltb_spec 8 (length (hid_in_queue s ++ [frame]))) as [Hl|Hl]; constructor; simpl; try done.
    rewrite length_app in Hl. destruct (hid_in_queue s) as [|f l]; simpl in *; [lia|].
    rewrite length_app. simpl. lia.
  - destruct (receive_mic_spec (payload frame) (mic_gain s) (mic s)) as (? & _ & ? & _). done.
Qed.

Lemma arrivals_inv s : device_inv s -> device_inv (wait_arrivals s).
Proof.
  intros Hi. unfold wait_arrivals. destruct (arrivals s) as [|frames rest]; [done|].
  assert (device_inv (set_arrivals rest s)) as Hs by by destruct Hi.
  unfold demux_frames. clear Hi. revert Hs. generalize (set_arrivals rest s). clear s.
  induction frames as [|f fs IH]; intros s Hs; [done|]. by apply IH, demux_inv.
Qed.

Lemma wait_hid_inv : safe wait_for_hid_in_frame.
Proof.
  intros s Hi. unfold wait_for_hid_in_frame. pose proof (arrivals_inv s Hi) as Hi'.
  destruct (hid_in_queue (wait_arrivals s)) as [|f rest] eqn:Hq; [done|].
  destruct Hi' as [Hh ????]. rewrite Hq in Hh. simpl in *. constructor; simpl; try done. lia.
Qed.

Lemma wait_feature_inv : safe wait_for_feature_reply.
Proof.
  intros s Hi. unfold wait_for_feature_reply. pose proof (arrivals_inv s Hi) as Hi'.
  destruct (feature_reply_queue (wait_arrivals s)); [done|]. by destruct Hi'.
Qed.

Lemma write_daemon_inv t data : safe (write_daemon_frame t data).
Proof. intros s [????]. unfold write_daemon_frame. by repeat case_match. Qed.

Lemma take_mic_shrinks count m :
  (length (mic_ring_buffer (fst (take_mic_bytes count m))) <= length (mic_ring_buffer m))%nat.
Proof.
  unfold take_mic_bytes. repeat case_match; simpl; try lia. rewrite length_drop. lia.
Qed.

Lemma take_mic_inv count : safe (on_mic (take_mic_bytes count)).
Proof.
  intros s [Hh Hm Hv Hg Hp]. unfold on_mic. pose proof (take_mic_shrinks count (mic s)) as Hs.
  destruct (take_mic_bytes count (mic s)) as [m r]. simpl in *. constructor; simpl; try done. lia.
Qed.

Lemma flush_inv : safe (modify (fun s => set_mic (flush_mic (mic s)) s)).
Proof. intros s [Hh Hm Hv Hg Hp]. constructor; simpl; try done. unfold kMicMaxBufferBytes. lia. Qed.

Lemma set_muted_inv b :
  safe (modify (fun s => update_speaker_gain volume_gain
    (set_volume (speaker_gain_q15 s) (fu_volume_db256 s) b s))).
Proof. intros s [Hh Hm Hv _ Hp]. by constructor. Qed.

Lemma set_level_inv z :
  safe (modify (fun s => update_speaker_gain volume_gain
    (set_volume (speaker_gain_q15 s) (s16 z) (fu_muted s) s))).
Proof. intros s [Hh Hm _ _ Hp]. constructor; simpl; try done. apply s16_range. Qed.

Lemma send_inv message : safe (send_exact message).
Proof. by intros s [????]. Qed.

Lemma enqueue_inv out now packets message : safe (enqueue_paced out now packets message).
Proof.
  intros s [Hh Hm Hv Hg Hp]. unfold enqueue_paced, modify. cbn [fst]. destruct (pace now _ packets).
  constructor; simpl; try done. by apply emplace_in_order.
Qed.

Lemma pacer_step_inv now : safe (pacer_step now).
Proof.
  intros s [Hh Hm Hv Hg Hp]. unfold pacer_step. destruct (paced_replies s) as [|r rest] eqn:Hr.
  { constructor; simpl; by rewrite ?Hr. }
  case_match; [by constructor; simpl; rewrite ?Hr|]. inversion Hp; subst. by constructor.
Qed.

#[local] Hint Resolve wait_hid_inv wait_feature_inv write_daemon_inv take_mic_inv flush_inv send_inv
  set_muted_inv set_level_inv
  enqueue_inv pacer_step_inv : preserves.

Lemma set_interface_inv wIndex wValue : safe (set_interface wIndex wValue).
Proof. unfold set_interface. solve_preserves. Qed.
Lemma get_report_inv report_id wLength : safe (get_report report_id wLength).
Proof. unfold get_report. solve_preserves. Qed.

#[local] Hint Resolve set_interface_inv get_report_inv : preserves.

Lemma feature_unit_inv d2h bRequest selector wLength out_data :
  safe (feature_unit volume_gain d2h bRequest selector wLength out_data).
Proof. unfold feature_unit. solve_preserves. Qed.
#[local] Hint Resolve feature_unit_inv : preserves.

Lemma handle_control_inv setup out_data : safe (handle_control volume_gain setup out_data).
Proof. unfold handle_control. cbv zeta. solve_preserves. Qed.
#[local] Hint Resolve handle_control_inv : preserves.

Lemma perform_inv cmd out_data : safe (perform volume_gain cmd out_data).
Proof. unfold perform. cbv zeta. solve_preserves. Qed.
#[local] Hint Resolve perform_inv : preserves.

Lemma handle_cmd_submit_inv now cmd out_data isos :
  safe (handle_cmd_submit volume_gain now cmd out_data isos).
Proof. unfold handle_cmd_submit. cbv zeta. solve_preserves. Qed.
#[local] Hint Resolve handle_cmd_submit_inv : preserves.

Lemma pacer_turns_inv times : safe (pacer_turns times).
Proof. induction times as [|t times IH]; cbn [pacer_turns]; solve_preserves. Qed.

Lemma environment_inv turn : safe (environment turn).
Proof.
  unfold environment. apply preserves_bind; [typeclasses eauto| |intros; apply pacer_turns_inv].
  apply preserves_modify. intros s. intros Hi. by apply arrivals_inv.
Qed.
#[local] Hint Resolve environment_inv : preserves.

Lemma session_loop_inv turns incoming : safe (session_loop volume_gain turns incoming).
Proof.
  revert incoming. induction turns as [|turn turns IH]; intros incoming; cbn [session_loop]; cbv zeta;
    solve_preserves.
Qed.
#[local] Hint Resolve session_loop_inv : preserves.

Lemma set_attached_inv b : safe (modify (set_attached b)).
Proof. by intros s [????]. Qed.
Lemma clear_pacer_inv : safe (modify (set_pacer [] 0 0)).
Proof. intros s [Hh Hm Hv Hg _]. constructor; simpl; try done. constructor. Qed.
#[local] Hint Resolve set_attached_inv clear_pacer_inv : preserves.

Lemma serve_connection_inv connected turns incoming :
  safe (serve_connection volume_gain connected turns incoming).
Proof. unfold serve_connection, handle_import_session. cbv zeta. solve_preserves. Qed.
End Invariant.
