(* ===== verification/UsbipProps.v ===== *)
(** Properties of the USB/IP device: requests, sessions, pacing, sound. *)
From stdpp Require Import base list strings numbers sorting.
From Stdlib Require Import Ascii ZArith Lia.
From S2P Require Import Prelude Text Words BtPacket Profile UsbDescriptors MicBuffer Usbip UsbipFacts.
From S2P Require Import UsbipReply UsbipSession UsbipPacing.

Local Open Scope Z_scope.

(** A state for the examples: nothing queued, everything works. *)
Definition idle (profile : Z) (arrivals : list (list Frame)) : Impl :=
  mk_impl profile [] [] empty_mic (mk_f32 1 0) [] 0 0 (2 ^ 15) 0 false [] [] arrivals [] [] false.

Lemma idle_working profile : working (idle profile []).
Proof. by constructor. Qed.

(** The host asks for the device descriptor, on endpoint 0. *)
Definition get_device_descriptor (seq : Z) : UsbipCmdSubmit :=
  mk_submit (mk_basic kCmdSubmit seq 0x10001 kDirIn 0) 0 18 0 [0x80; 0x06; 0x00; 0x01; 0; 0; 18; 0].
Definition unlink_request (seq : Z) : UsbipCmdSubmit :=
  mk_submit (mk_basic kCmdUnlink seq 0x10001 kDirOut 0) 0 0 0 [0; 0; 0; 0; 0; 0; 0; 0].

Ltac wire_ok := repeat constructor; unfold is_u32, is_s32, is_u8; simpl; try lia; try done.

Lemma get_device_descriptor_ok seq : is_u32 seq -> urb_ok (get_device_descriptor seq) [] [].
Proof.
  intros Hs. constructor; try done; try (by repeat constructor); try (by right).
  all: wire_ok.
Qed.

Section Properties.
Context (volume_gain : Z -> Z).

(** C35. A well-formed request is answered, whatever the state of the device, as long
    as the pipe and the socket work: the session goes on, and what is sent or queued
    is one message that the client reads back with nothing left over.  It has the
    request's number, no data for an OUT request, at most the requested length for a
    control request, exactly the requested length for the microphone, and complete
    packets that add up. *)
Theorem request_answered now cmd out_data isos s :
  urb_ok cmd out_data isos -> working s ->
  returns (handle_cmd_submit volume_gain now cmd out_data isos) s (fun s' more =>
    more = true /\ working s' /\ exists message reply,
      sent_or_paced now cmd s s' message /\
      read_reply (direction (base cmd)) (length isos) message = Some (reply, []) /\
      r_seqnum reply = seqnum (base cmd) /\
      r_isos reply = (fun d => (offset d, length_ d, length_ d)) <$> isos /\
      (direction (base cmd) = kDirOut -> r_data reply = []) /\
      (ep (base cmd) = 0 -> Z.of_nat (length (r_data reply)) <= setup_word (setup cmd) 6) /\
      (is_audio_in cmd = true -> Z.of_nat (length (r_data reply)) = transfer_buffer_length cmd) /\
      (has_packets cmd = true -> r_packets reply = number_of_packets cmd)).
Proof.
  intros Hu Hw. eapply returns_weaken; [by apply handle_submit_returns|].
  intros s' more (Hm & Hw' & s1 & status & data & packets & message & _ & Hg & Hs & Hr).
  split_and!; [done..|]. exists message, (reply_of cmd status data packets isos).
  destruct Hg as [_ _ _ Ho Hmic Hp Hc]. cbn [fst snd] in *. split_and!; try done.
  intros Hhp. cbn. rewrite (Hp Hhp). pose proof (ok_packets _ (urb_cmd _ _ _ Hu)) as Hk.
  unfold has_packets in Hhp. unfold is_s32 in Hk. change (2 ^ 31) with 2147483648 in Hk.
  apply u32_id. unfold is_u32. change (2 ^ 32) with 4294967296. lia.
Qed.

(** C36. A session on the bytes of whole messages - requests with their data and
    packets, and unlinks - does the same as handling these messages one after the
    other; an incomplete request at the end, cut off in its header, its data or its
    packets, changes nothing. *)
Theorem session_framing turns ms rest s :
  Forall framed ms -> incomplete rest ->
  session_loop volume_gain turns (concat (encode_message <$> ms) ++ rest) s =
  serve volume_gain turns ms s.
Proof. apply session_loop_serve. Qed.

(** Control and HID requests and unlinks are answered completely and in order:
    what the client receives during a session is one answer for each message. *)
Theorem session_answers_in_order turns ms rest s :
  Forall message_ok ms -> Forall without_packets ms -> working s -> paced_replies s = [] ->
  (length ms <= length turns)%nat -> (length rest < cmd_size)%nat ->
  exists answers, Forall2 answered ms answers /\
    returns (session_loop volume_gain turns (concat (encode_message <$> ms) ++ rest)) s
      (fun s' _ => to_client s' = to_client s ++ concat answers).
Proof.
  intros Hms Hn Hw Hp Ht Hr. destruct (serve_in_order volume_gain turns ms s) as (answers & Ha & Hs); [done..|].
  exists answers. split; [done|]. unfold returns.
  rewrite session_loop_serve; [done| |by left]. eapply Forall_impl; [exact Hms|]. by intros m [? _].
Qed.

(** When a request fails - a frame too large for the pipe, a failed write, a
    buffer that cannot be allocated - nothing was sent to the client or queued for it,
    and the session ends with the state of the failure. *)
Theorem failed_request_ends_session turn turns cmd out_data isos rest s s1 s' e :
  framed (Submit cmd out_data isos) ->
  environment turn s = (s1, Ok tt) ->
  handle_cmd_submit volume_gain (now turn) cmd out_data isos s1 = (s', Throw e) ->
  silent s1 s' /\
  session_loop volume_gain (turn :: turns)
    (encode_message (Submit cmd out_data isos) ++ rest) s = (s', Ok tt).
Proof.
  intros Hf He Hh. split.
  - apply handle_submit_throws in Hh. pose proof (perform_silent volume_gain cmd out_data s1) as Hq.
    by rewrite Hh in Hq.
  - rewrite session_loop_step by done. unfold mbind, prog_bind. rewrite He. cbn [handle_message].
    unfold try_catch. by rewrite Hh.
Qed.

(** C37. The invariant of the device: at most 8 waiting input reports, at most 120 ms
    of microphone sound, a volume of 16 bits, a gain that is the volume's or zero when
    muted, and replies queued in the order of their times.  No connection breaks it,
    whatever the client sends, the daemon's frames and the failures. *)
Theorem device_invariant connected turns incoming s :
  device_inv volume_gain s ->
  device_inv volume_gain (fst (serve_connection volume_gain connected turns incoming s)).
Proof. intros Hi. by apply serve_connection_inv. Qed.

(** The host reads back the volume and the muting it set; one does not change the
    other, and the gain follows both. *)
Theorem volume_roundtrip lo hi b interface unit_ s :
  is_u8 lo -> is_u8 hi ->
  returns (_ ← handle_control volume_gain [0x21; 0x01; 0; 0x02; interface; unit_; 2; 0] [lo; hi];
           handle_control volume_gain [0xa1; 0x81; 0; 0x02; interface; unit_; 2; 0] []) s
    (fun s' r => r = (0, [lo; hi]) /\ fu_volume_db256 s' = sample_of lo hi /\
                 fu_muted s' = fu_muted s /\ speaker_gain_q15 s' = gain_of volume_gain s') /\
  returns (_ ← handle_control volume_gain [0x21; 0x01; 0; 0x01; interface; unit_; 1; 0] [b];
           handle_control volume_gain [0xa1; 0x81; 0; 0x01; interface; unit_; 1; 0] []) s
    (fun s' r => r = (0, [if b =? 0 then 0 else 1]) /\ fu_volume_db256 s' = fu_volume_db256 s /\
                 fu_muted s' = negb (b =? 0) /\ speaker_gain_q15 s' = gain_of volume_gain s').
Proof.
  intros Hlo Hhi. split.
  - eexists _, _. split; [reflexivity|]. cbn [fu_volume_db256 fu_muted update_speaker_gain set_volume].
    split_and!; try done. simpl. change (s16 _) with (sample_of lo hi). by rewrite stored_volume_bytes.
  - eexists _, _. split; [reflexivity|]. cbn [fu_volume_db256 fu_muted update_speaker_gain set_volume].
    split_and!; try done. simpl. change (byte_at [b] 0) with b. by destruct (b =? 0).
Qed.

(** The volume of the host changes the two speaker channels of each frame and
    nothing else: a sample is multiplied by the gain and stays a sample, the haptics
    and the bytes of a last incomplete frame are kept, and the shortcut at full volume
    gives what the loop would. *)
Theorem volume_spares_haptics pcm g :
  bytes_ok pcm -> 0 <= g <= 2 ^ 15 ->
  let out := apply_speaker_gain pcm g in
  length out = length pcm /\
  frames4 out = (fun f => mk_frame4 (gained g (left_ f)) (gained g (right_ f)) (haptics f)) <$> frames4 pcm /\
  drop (8 * length (frames4 pcm)) out = drop (8 * length (frames4 pcm)) pcm /\
  Forall (fun f => is_s16 (gained g (left_ f)) /\ is_s16 (gained g (right_ f))) (frames4 pcm) /\
  (g = 2 ^ 15 -> out = pcm /\ scale_frames pcm g = pcm).
Proof.
  intros Hb Hg. cbv zeta. rewrite apply_speaker_gain_spec by done.
  split_and!; [apply scale_frames_length|by apply scale_frames_spec|apply scale_frames_tail| |].
  - apply Forall_forall. intros f Hf. apply frames4_s16 in Hf as [Hl Hr].
    split; by apply gained_range.
  - intros ->. by rewrite scale_frames_full.
Qed.
End Properties.

Definition empty_trace : pacer_trace := mk_trace [] [] [].

Lemma start_inv s :
  socket_ok s = [] -> paced_replies s = [] -> iso_out_next_due s = 0 -> iso_in_next_due s = 0 ->
  pacer_inv (to_client s) empty_trace s.
Proof.
  intros Hs Hp Ho Hi. assert (direction_ok [] 0 []) as Hd.
  { constructor; try done; [constructor|by left]. }
  constructor; simpl; rewrite ?Hp, ?Ho, ?Hi, ?app_nil_r; try done. constructor.
Qed.

(** C38. The pacer sends each queued reply once, not before it is due, and the replies
    of a direction in the order they were queued, however the two directions and the
    turns of the pacer interleave. *)
Theorem pacer_once_in_order events s :
  Forall event_ok events -> socket_ok s = [] -> paced_replies s = [] ->
  iso_out_next_due s = 0 -> iso_in_next_due s = 0 ->
  let '(t, s') := pacer_run events empty_trace s in
  let sent := bytes <$> (snd <$> t_sent t) in
  let waiting := bytes <$> paced_replies s' in
  to_client s' = to_client s ++ concat sent /\
  Forall (fun p => due (snd p) <= fst p) (t_sent t) /\
  sent ++ waiting ≡ₚ queued true events ++ queued false events /\
  queued true events `sublist_of` sent ++ waiting /\
  queued false events `sublist_of` sent ++ waiting.
Proof.
  intros He Hs Hp Ho Hi.
  pose proof (pacer_run_inv (to_client s) events empty_trace s He (start_inv s Hs Hp Ho Hi)) as Hrun.
  pose proof (pacer_run_queued events empty_trace s) as [Hqo Hqi].
  destruct (pacer_run events empty_trace s) as [t s']. cbn [fst t_out t_in empty_trace] in *.
  cbn [fmap list_fmap app] in Hqo, Hqi. destruct Hrun as [_ _ Hc Ht Honce [Hso _ _ _ _] [Hsi _ _ _ _]].
  rewrite <- Hqo, <- Hqi, <- fmap_app, <- !fmap_app. split_and!; [done..| | |].
  - by apply fmap_Permutation.
  - by apply sublist_fmap.
  - by apply sublist_fmap.
Qed.

(** The pacer takes its rate from the audio: as long as no request is more than
    250 ms behind its slot, the replies of a direction are due one millisecond per
    packet after each other, with no drift, whatever the other direction does. *)
Theorem pacer_rate out now packets rest events s :
  socket_ok s = [] -> iso_out_next_due s = 0 -> iso_in_next_due s = 0 ->
  requests out events = (now, packets) :: rest -> 0 < now -> 0 < packets ->
  punctual (now + milliseconds packets) rest ->
  let t := fst (pacer_run events empty_trace s) in
  due <$> (if out then t_out t else t_in t) = slots now ((now, packets) :: rest).
Proof.
  intros Hs Ho Hi Hr Hn Hp Hpunct. cbv zeta.
  assert (due_times 0 ((now, packets) :: rest) = slots now ((now, packets) :: rest)) as Hd.
  { cbn [due_times slots]. unfold pace. cbn [Z.eqb orb]. f_equal. apply due_times_slots; [|done].
    unfold milliseconds. lia. }
  destruct (pacer_run_due events empty_trace s) as [Hout Hin]. rewrite Ho in Hout. rewrite Hi in Hin.
  destruct out; [rewrite Hout, Hr|rewrite Hin, Hr]; exact Hd.
Qed.

(** Everything that is queued is sent: a turn of the pacer for each reply, at a
    time when all are due, empties the queue in the order of the times. *)
Theorem pacer_empties times s :
  socket_ok s = [] -> length times = length (paced_replies s) ->
  Forall (fun t => Forall (fun r => due r <= t) (paced_replies s)) times ->
  returns (pacer_turns times) s (fun s' _ =>
    paced_replies s' = [] /\ to_client s' = to_client s ++ concat (bytes <$> paced_replies s)).
Proof. intros Hs Hl Ht. by apply pacer_drains. Qed.

(** The sound of the microphone reaches the host in order: over any sequence of
    bursts from the daemon and pulls of the host, each pull gives exactly what was
    asked for, its sound followed by silence; the sound is part of what arrived, in its
    order; the buffer holds at most 120 ms, and nothing is lost as long as no more than
    that arrived. *)
Theorem mic_stream_in_order gain events m :
  Forall (fun c => 0 <= c <= vector_max_size) (pulls events) ->
  (length (mic_ring_buffer m) <= kMicMaxBufferBytes)%nat ->
  exists reals,
    let '(outs, m') := mic_run gain events m in
    (fun out => Z.of_nat (length out)) <$> outs = pulls events /\ Forall2 padded outs reals /\
    (length (mic_ring_buffer m') <= kMicMaxBufferBytes)%nat /\
    sublist (concat reals ++ mic_ring_buffer m') (mic_ring_buffer m ++ bursts gain events) /\
    ((length (mic_ring_buffer m) + length (bursts gain events) <= kMicMaxBufferBytes)%nat ->
     concat reals ++ mic_ring_buffer m' = mic_ring_buffer m ++ bursts gain events).
Proof. apply mic_run_spec. Qed.

(** An integral capture gain is applied exactly in single precision: each sample is
    multiplied and limited to 16 bits, and the buffer keeps its length. *)
Theorem capture_gain_exact pcm g :
  1 <= g <= 64 ->
  samples (apply_pcm_gain_i16 pcm (mk_f32 g 0)) = (fun s => clamp16 (s * g)) <$> samples pcm /\
  length (apply_pcm_gain_i16 pcm (mk_f32 g 0)) = length pcm.
Proof. intros Hg. split; [by apply apply_gain_samples|apply apply_gain_length]. Qed.

(** ** Instances *)

Lemma request_answered_witness :
  exists s' reply,
    handle_cmd_submit (fun _ => 2 ^ 15) 5 (get_device_descriptor 7) [] [] (idle VDS_PROFILE_DSE []) =
      (s', Ok true) /\
    read_reply kDirIn 0 (to_client s') = Some (reply, []) /\ r_seqnum reply = 7.
Proof.
  destruct (request_answered (fun _ => 2 ^ 15) 5 (get_device_descriptor 7) [] [] (idle VDS_PROFILE_DSE []))
    as (s' & more & Hh & -> & _ & message & reply & Hs & Hr & Hn & _).
  - apply get_device_descriptor_ok. unfold is_u32. lia.
  - apply idle_working.
  - exists s', reply. split; [exact Hh|]. split; [|exact Hn].
    destruct Hs as (Hc & _). cbn [to_client idle app] in Hc. rewrite Hc. exact Hr.
Defined.

Lemma example_framed seq : is_u32 seq -> framed (Submit (get_device_descriptor seq) [] []).
Proof.
  intros Hs. cbn [framed]. split_and!; try done.
Qed.
Lemma example_unlink seq : is_u32 seq -> framed (Unlink (unlink_request seq)).
Proof. intros Hs. split; [|done]. constructor; try done; wire_ok. Qed.

(** A report for the device of three bytes, of which one has come. *)
Definition short_report : UsbipCmdSubmit :=
  mk_submit (mk_basic kCmdSubmit 9 0x10001 kDirOut kEpHidOut) 0 3 0 [0; 0; 0; 0; 0; 0; 0; 0].
Definition cut_report : list Z := encode_cmd short_report 0 0 ++ [1].
Lemma cut_report_incomplete : incomplete cut_report.
Proof.
  right. exists (Submit short_report [1; 2; 3] []), [2; 3]. split_and!; [|reflexivity|done].
  cbn [framed]. split_and!; done.
Qed.

Lemma session_framing_witness :
  session_loop (fun _ => 2 ^ 15) [mk_turn [] 1; mk_turn [] 2; mk_turn [] 3]
    (concat (encode_message <$> [Submit (get_device_descriptor 7) [] []; Unlink (unlink_request 7)]) ++ cut_report)
    (idle 0 []) =
  serve (fun _ => 2 ^ 15) [mk_turn [] 1; mk_turn [] 2; mk_turn [] 3]
    [Submit (get_device_descriptor 7) [] []; Unlink (unlink_request 7)] (idle 0 []).
Proof.
  apply (session_framing (fun _ => 2 ^ 15)).
  - constructor; [apply example_framed; unfold is_u32; lia|].
    constructor; [apply example_unlink; unfold is_u32; lia|constructor].
  - apply cut_report_incomplete.
Defined.

Lemma session_answers_in_order_witness :
  exists answers, Forall2 answered [Submit (get_device_descriptor 7) [] []; Unlink (unlink_request 8)] answers /\
    returns (session_loop (fun _ => 2 ^ 15) [mk_turn [] 1; mk_turn [] 2]
      (concat (encode_message <$> [Submit (get_device_descriptor 7) [] []; Unlink (unlink_request 8)]) ++ []))
      (idle 0 []) (fun s' _ => to_client s' = [] ++ concat answers).
Proof.
  apply (session_answers_in_order (fun _ => 2 ^ 15) [mk_turn [] 1; mk_turn [] 2]
    [Submit (get_device_descriptor 7) [] []; Unlink (unlink_request 8)] [] (idle 0 [])).
  - constructor; [split; [apply example_framed|apply get_device_descriptor_ok]; unfold is_u32; lia|].
    constructor; [split; [apply example_unlink; unfold is_u32; lia|done]|constructor].
  - by repeat constructor.
  - apply idle_working.
  - reflexivity.
  - simpl. lia.
  - simpl. unfold cmd_size. lia.
Defined.

(** An output report longer than a frame of the pipe. *)
Definition long_report : UsbipCmdSubmit :=
  mk_submit (mk_basic kCmdSubmit 9 0x10001 kDirOut kEpHidOut) 0 4097 0 [0; 0; 0; 0; 0; 0; 0; 0].

Lemma failed_request_ends_session_witness :
  framed (Submit long_report (replicate 4097 0) []) /\
  exists s', session_loop (fun _ => 2 ^ 15) [mk_turn [] 1; mk_turn [] 2]
    (encode_message (Submit long_report (replicate 4097 0) []) ++ [1; 2; 3]) (idle 0 []) = (s', Ok tt).
Proof.
  assert (framed (Submit long_report (replicate 4097 0) [])) as Hf.
  { cbn [framed]. split_and!; try done. }
  split; [exact Hf|].
  destruct (failed_request_ends_session (fun _ => 2 ^ 15) (mk_turn [] 1) [mk_turn [] 2] long_report
    (replicate 4097 0) [] [1; 2; 3] (idle 0 []) (idle 0 []) (idle 0 [])
    "frame payload exceeds VDS_FRAME_MAX_PAYLOAD") as [_ Hs].
  - exact Hf.
  - reflexivity.
  - vm_compute. reflexivity.
  - eexists. exact Hs.
Defined.

Lemma device_invariant_witness :
  device_inv (fun _ => 2 ^ 15) (idle 0 []) /\
  device_inv (fun _ => 2 ^ 15)
    (fst (serve_connection (fun _ => 2 ^ 15) true [mk_turn [] 1] [1; 17; 128; 5; 0; 0; 0; 0] (idle 0 []))).
Proof.
  assert (device_inv (fun _ => 2 ^ 15) (idle 0 [])) as Hi.
  { constructor; simpl; try done; try lia; try constructor; unfold is_s16; lia. }
  split; [exact Hi|]. apply (device_invariant (fun _ => 2 ^ 15)). exact Hi.
Defined.

Lemma volume_roundtrip_witness :
  exists s', (_ ← handle_control (fun v => 2 ^ 15 + v) [0x21; 0x01; 0; 0x02; 0; 2; 2; 0] [0x00; 0xf6];
     handle_control (fun v => 2 ^ 15 + v) [0xa1; 0x81; 0; 0x02; 0; 2; 2; 0] []) (idle 0 []) =
  (s', Ok (0, [0x00; 0xf6])).
Proof.
  destruct (volume_roundtrip (fun v => 2 ^ 15 + v) 0x00 0xf6 1 0 2 (idle 0 [])) as [(s' & r & Hr & -> & _) _].
  - unfold is_u8. lia.
  - unfold is_u8. lia.
  - exists s'. exact Hr.
Defined.

Lemma volume_spares_haptics_witness :
  bytes_ok [1; 2; 3; 4; 5; 6; 7; 8; 9] /\
  frames4 (apply_speaker_gain [1; 2; 3; 4; 5; 6; 7; 8; 9] 0x4000) =
    [mk_frame4 (gained 0x4000 513) (gained 0x4000 1027) [5; 6; 7; 8]].
Proof.
  assert (bytes_ok [1; 2; 3; 4; 5; 6; 7; 8; 9]) as Hb by (repeat constructor; unfold is_u8; lia).
  split; [exact Hb|].
  destruct (volume_spares_haptics [1; 2; 3; 4; 5; 6; 7; 8; 9] 0x4000 Hb) as (_ & Hf & _); [lia|].
  rewrite Hf. vm_compute. reflexivity.
Defined.

Definition example_events : list pacer_event :=
  [Enqueue true 1000 10 [1]; Enqueue false 1000 5 [2]; Enqueue true 2000 10 [3]; Send 1000; Send 1000; Send 5].

Lemma pacer_once_in_order_witness :
  let '(t, s') := pacer_run example_events empty_trace (idle 0 []) in
  (bytes <$> (snd <$> t_sent t)) = [[1]; [2]] /\ bytes <$> paced_replies s' = [[3]] /\
  queued true example_events `sublist_of` [[1]; [2]] ++ [[3]].
Proof.
  pose proof (pacer_once_in_order example_events (idle 0 [])) as H.
  assert (Forall event_ok example_events) as He by (repeat constructor; lia).
  specialize (H He eq_refl eq_refl eq_refl eq_refl).
  destruct (pacer_run example_events empty_trace (idle 0 [])) as [t s'] eqn:Hrun.
  destruct H as (_ & _ & _ & Hs & _). vm_compute in Hrun. injection Hrun as <- <-.
  split; [reflexivity|]. split; [reflexivity|]. exact Hs.
Defined.

Lemma pacer_rate_witness :
  due <$> t_out (fst (pacer_run example_events empty_trace (idle 0 []))) = [1000; 10001000].
Proof.
  pose proof (pacer_rate true 1000 10 [(2000, 10)] example_events (idle 0 [])) as H.
  assert (punctual (1000 + milliseconds 10) [(2000, 10)]) as Hp by (repeat split; unfold milliseconds; lia).
  exact (H eq_refl eq_refl eq_refl eq_refl eq_refl eq_refl Hp).
Defined.

Lemma pacer_empties_witness :
  exists s', pacer_turns [20; 30] (set_pacer [mk_paced 10 [1]; mk_paced 20 [2]] 0 0 (idle 0 [])) = (s', Ok tt) /\
    to_client s' = [1; 2].
Proof.
  destruct (pacer_empties [20; 30] (set_pacer [mk_paced 10 [1]; mk_paced 20 [2]] 0 0 (idle 0 [])))
    as (s' & [] & Hs & _ & Hc).
  - reflexivity.
  - reflexivity.
  - repeat constructor; simpl; lia.
  - exists s'. split; [exact Hs|exact Hc].
Defined.

Lemma mic_stream_in_order_witness :
  exists reals,
    let '(outs, m') := mic_run (mk_f32 2 0) [Burst [1; 0; 2; 0]; Pull 4] empty_mic in
    (fun out => Z.of_nat (length out)) <$> outs = [4] /\ Forall2 padded outs reals.
Proof.
  destruct (mic_stream_in_order (mk_f32 2 0) [Burst [1; 0; 2; 0]; Pull 4] empty_mic) as [reals H].
  - constructor; [unfold vector_max_size; lia|constructor].
  - simpl. lia.
  - exists reals. destruct (mic_run (mk_f32 2 0) [Burst [1; 0; 2; 0]; Pull 4] empty_mic) as [outs m'].
    destruct H as (Hl & Hp & _). split; [exact Hl|exact Hp].
Defined.

Lemma capture_gain_exact_witness :
  samples (apply_pcm_gain_i16 [0x00; 0x10; 0x00; 0x40] (mk_f32 4 0)) = [0x4000; 32767].
Proof.
  destruct (capture_gain_exact [0x00; 0x10; 0x00; 0x40] 4) as [H _]; [lia|]. rewrite H. vm_compute. reflexivity.
Defined.

(** ** What the code does not do *)

(** A reply to GET_REPORT that comes after the wait has ended is given to the next
    request, which asked for another report. *)
Example late_feature_reply_answers_next_request :
  let late := mk_frame VDS_FRAME_USB_FEATURE_REPLY [0x05; 1; 2] in
  let get report := handle_control (fun _ => 2 ^ 15) [0xa1; 0x01; report; 0x03; 3; 0; 64; 0] [] in
  snd ((_ ← get 0x05; get 0x09) (idle 0 [[]; [late]])) = Ok (0, [0x05; 1; 2]).
Proof. reflexivity. Qed.

(** An unlink is acknowledged, and the reply of the unlinked request is sent later all
    the same. *)
Example unlinked_reply_still_sent :
  let reply := mk_paced 10 [1; 2; 3] in
  let s := set_pacer [reply] 0 0 (idle 0 []) in
  to_client (fst ((_ ← handle_message (fun _ => 2 ^ 15) 5 (Unlink (unlink_request 7)); pacer_step 10) s)) =
  ret_unlink 7 ++ bytes reply.
Proof. reflexivity. Qed.
