(* ===== verification/Threads.v ===== *)
(** Threads that share a state.

    A thread is the sequence of its critical sections: what runs between taking a lock
    and giving it back is one step, a [prog] on the shared state, and between two steps
    the other threads may run.  [run] executes a thread without interference; [pool_step]
    is the interleaving of several threads, each of which starts new work when it is
    done with its last.  At the end, triples of a stateful computation: from a precondition
    on the state, a postcondition on the value and the state it returns, and one on the
    state it throws in. *)
From stdpp Require Import base list strings relations.
From S2P Require Import Prelude.

Inductive thread (S A : Type) : Type :=
  | Done (r : result A)
  | Step {B : Type} (m : prog S B) (k : result B -> thread S A).
Arguments Done {S A} r.
Arguments Step {S A B} m k.

Fixpoint thread_bind {S A B} (f : A -> thread S B) (t : thread S A) : thread S B :=
  match t with
  | Done (Ok a) => f a
  | Done (Throw e) => Done (Throw e)
  | Step m k => Step m (fun r => thread_bind f (k r))
  end.
#[export] Instance thread_ret {S} : MRet (thread S) := fun A a => Done (Ok a).
#[export] Instance thread_mbind {S} : MBind (thread S) := fun A B f t => thread_bind f t.

(** One critical section. *)
Definition locked {S A} (m : prog S A) : thread S A := Step m Done.

(** [try { t } catch (const std::exception &e) { h(e.what()) }] *)
Fixpoint guarded {S A} (t : thread S A) (h : string -> thread S A) : thread S A :=
  match t with
  | Done (Ok a) => Done (Ok a)
  | Done (Throw e) => h e
  | Step m k => Step m (fun r => guarded (k r) h)
  end.

(** Without interference. *)
Fixpoint run {S A} (t : thread S A) : prog S A := fun s =>
  match t with
  | Done r => (s, r)
  | Step m k => let '(s', r) := m s in run (k r) s'
  end.

(** The next critical section, if there is one. *)
Definition advance {S A} (t : thread S A) (s : S) : option (S * thread S A) :=
  match t with
  | Done _ => None
  | Step m k => let '(s', r) := m s in Some (s', k r)
  end.

(** All steps of a thread keep every assertion [I x], and what follows a step may rely on
    what the step gave. *)
Inductive all_gives {S A X} (I : X -> S -> Prop) : thread S A -> Prop :=
  | gives_done r : all_gives I (Done r)
  | gives_step {B} (Q : B -> Prop) (m : prog S B) k :
      (forall x, gives (I x) Q m) -> (forall b, Q b -> all_gives I (k (Ok b))) ->
      (forall e, all_gives I (k (Throw e))) -> all_gives I (Step m k).

(** A thread that makes assertions true as it goes: from the assertion [x], each step gives
    the one that holds after it. *)
Inductive proves {S A X} (I : X -> S -> Prop) : X -> thread S A -> Prop :=
  | proves_done x r : proves I x (Done r)
  | proves_step {B} x (y : result B -> X) (Q : B -> Prop) (m : prog S B) k :
      (forall s, I x s -> I (y (m s).2) (m s).1 /\ forall b, (m s).2 = Ok b -> Q b) ->
      (forall b, Q b -> proves I (y (Ok b)) (k (Ok b))) -> (forall e, proves I (y (Throw e)) (k (Throw e))) ->
      proves I x (Step m k).

Section Gives.
Context {S X : Type} (I : X -> S -> Prop).

Lemma all_gives_bind {A B} (t : thread S A) (f : A -> thread S B) :
  all_gives I t -> (forall a, all_gives I (f a)) -> all_gives I (t ≫= f).
Proof.
  intros Ht Hf. induction Ht as [[a|e]|C Q m k Hm Hk IH He IHe]; cbn; [apply Hf|constructor|].
  apply (gives_step I Q); [done|exact IH|exact IHe].
Qed.

Lemma all_gives_locked {A} (m : prog S A) : (forall x, preserves (keeps (I x)) m) -> all_gives I (locked m).
Proof.
  intros Hm. apply (gives_step I (fun _ => True)); [intros x; by apply preserves_gives|constructor..].
Qed.

Lemma all_gives_locked_bind {A B} (Q : A -> Prop) (m : prog S A) (f : A -> thread S B) :
  (forall x, gives (I x) Q m) -> (forall a, Q a -> all_gives I (f a)) -> all_gives I (locked m ≫= f).
Proof. intros Hm Hf. apply (gives_step I Q); [done|exact Hf|intros; constructor]. Qed.

Lemma all_gives_ret {A} (a : A) : all_gives I (mret a).
Proof. constructor. Qed.

Lemma all_gives_guarded {A} (t : thread S A) h :
  all_gives I t -> (forall e, all_gives I (h e)) -> all_gives I (guarded t h).
Proof.
  intros Ht Hh. induction Ht as [[a|e]|C Q m k Hm Hk IH He IHe]; cbn; [constructor|apply Hh|].
  apply (gives_step I Q); [done|exact IH|exact IHe].
Qed.

Lemma run_keeps {A} (t : thread S A) x : all_gives I t -> preserves (keeps (I x)) (run t).
Proof.
  intros Ht. induction Ht as [r|B Q m k Hm Hk IH He IHe]; intros s Hs; cbn [run]; [done|].
  destruct (Hm x s Hs) as [Hi Hq]. destruct (m s) as [s1 [b|e]]; cbn [fst snd] in *.
  - by apply (IH b (Hq b eq_refl)).
  - by apply IHe.
Qed.

Lemma all_gives_proves {A} (t : thread S A) x : all_gives I t -> proves I x t.
Proof.
  intros Ht. induction Ht as [r|B Q m k Hm Hk IH He IHe]; [constructor|].
  apply (proves_step I x (fun _ => x) Q); [apply Hm|done..].
Qed.

Lemma proves_bind {A B} x y (t : thread S A) (f : A -> thread S B) :
  all_gives I t -> (forall a, proves I x (f a)) -> y = x -> proves I y (t ≫= f).
Proof.
  intros Ht Hf ->. induction Ht as [[a|e]|C Q m k Hm Hk IH He IHe]; cbn; [apply Hf|constructor|].
  apply (proves_step I x (fun _ => x) Q); [apply Hm|done..].
Qed.

Lemma proves_then {A B} x (t : thread S A) (f : A -> thread S B) :
  proves I x t -> (forall a, all_gives I (f a)) -> proves I x (t ≫= f).
Proof.
  intros Ht Hf. induction Ht as [x [a|e]|C x y Q m k Hm Hk IH He IHe]; cbn; [apply all_gives_proves, Hf|constructor|].
  apply (proves_step I x y Q); [done|exact IH|exact IHe].
Qed.

Lemma proves_locked_bind {A B} x (y : result A -> X) (Q : A -> Prop) (m : prog S A) (f : A -> thread S B) :
  (forall s, I x s -> I (y (m s).2) (m s).1 /\ forall a, (m s).2 = Ok a -> Q a) ->
  (forall a, Q a -> proves I (y (Ok a)) (f a)) -> proves I x (locked m ≫= f).
Proof. intros Hm Hf. apply (proves_step I x y Q); [done|exact Hf|intros; constructor]. Qed.
End Gives.

(** Running a thread that continues another one. *)
Lemma run_bind {S A B} (t : thread S A) (f : A -> thread S B) s :
  run (t ≫= f) s = (run t ≫= fun a => run (f a)) s.
Proof.
  change (t ≫= f) with (thread_bind f t). revert s.
  induction t as [[a|e]|C m k IH]; intros s; [done..|]. cbn [run thread_bind].
  unfold mbind, prog_bind. cbn [run]. destruct (m s) as [s1 r]. apply IH.
Qed.
Lemma run_locked {S A} (m : prog S A) s : run (locked m) s = m s.
Proof. cbn. by destruct (m s). Qed.
Lemma run_guarded {S A} (t : thread S A) h s s1 a :
  run t s = (s1, Ok a) -> run (guarded t h) s = (s1, Ok a).
Proof.
  revert s. induction t as [[b|e]|C m k IH]; intros s; [done|discriminate|]. cbn [run guarded].
  destruct (m s) as [s2 r]. apply IH.
Qed.
Lemma run_then {S A B} (t : thread S A) (f : A -> thread S B) s s1 a :
  run t s = (s1, Ok a) -> run (t ≫= f) s = run (f a) s1.
Proof. intros E. rewrite run_bind. unfold mbind, prog_bind. by rewrite E. Qed.
Lemma run_locked_then {S A B} (m : prog S A) (f : A -> thread S B) s s1 a :
  m s = (s1, Ok a) -> run (locked m ≫= f) s = run (f a) s1.
Proof. intros E. apply run_then. by rewrite run_locked. Qed.

(** ** Interleaving *)

Section Pool.
Context {S : Type}.
(** The work a thread may take up. *)
Context (work : nat -> thread S unit -> Prop).

(** The shared state, and what each thread has left to do. *)
Definition pool : Type := S * list (thread S unit).

Inductive pool_step : pool -> pool -> Prop :=
  | pool_runs i t t' s s' ts :
      ts !! i = Some t -> advance t s = Some (s', t') -> pool_step (s, ts) (s', <[i := t']> ts)
  | pool_starts i a t s ts :
      ts !! i = Some (Done (Ok a)) -> work i t -> pool_step (s, ts) (s, <[i := t]> ts).

Definition pool_reaches : pool -> pool -> Prop := rtc pool_step.

(** A schedule that is played: a thread starts its next work, or goes on to its next section;
    what it cannot do is left out. *)
Inductive move := Begins (i : nat) (t : thread S unit) | Goes (i : nat).
Definition play (p : pool) (m : move) : pool :=
  match m with
  | Begins i t => match p.2 !! i with Some (Done (Ok _)) => (p.1, <[i := t]> p.2) | _ => p end
  | Goes i =>
      match p.2 !! i with
      | Some t => match advance t p.1 with Some (s', t') => (s', <[i := t']> p.2) | None => p end
      | None => p
      end
  end.
Definition allowed (m : move) : Prop := match m with Begins i t => work i t | Goes _ => True end.
Lemma play_reaches moves p : Forall allowed moves -> pool_reaches p (foldl play p moves).
Proof.
  intros Hm. revert p. induction Hm as [|m moves Hm _ IH]; intros [s ts]; cbn [foldl]; [apply rtc_refl|].
  etransitivity; [|apply IH]. destruct m as [i t|i]; cbn [play fst snd].
  - destruct (ts !! i) as [[[a|e]|B m k]|] eqn:E; try apply rtc_refl. apply rtc_once. by eapply pool_starts.
  - destruct (ts !! i) as [t|] eqn:E; [|apply rtc_refl]. destruct (advance t s) as [[s' t']|] eqn:Ea; [|apply rtc_refl].
    apply rtc_once. by eapply pool_runs.
Qed.

(** The first thread goes from assertion to assertion, and starts its work with [x0]; the
    others keep them all. *)
Context {X : Type} (I : X -> S -> Prop) (x0 : X).

Lemma all_gives_advance (t t' : thread S unit) x s s' :
  all_gives I t -> advance t s = Some (s', t') -> I x s -> I x s' /\ all_gives I t'.
Proof.
  intros Ht E Hs. destruct Ht as [r|B Q m k Hm Hk He]; [discriminate|]. cbn in E.
  destruct (Hm x s Hs) as [Hi Hq]. destruct (m s) as [s2 [b|e]]; cbn [fst snd] in *;
    injection E as <- <-; (split; [done|]); [apply Hk, Hq, eq_refl|apply He].
Qed.

Lemma proves_advance (t t' : thread S unit) x s s' :
  proves I x t -> advance t s = Some (s', t') -> I x s -> exists y, I y s' /\ proves I y t'.
Proof.
  intros Ht E Hs. destruct Ht as [x r|B x y Q m k Hm Hk He]; [discriminate|]. cbn in E.
  destruct (Hm s Hs) as [Hi Hq]. destruct (m s) as [s2 [b|e]]; cbn [fst snd] in *;
    injection E as <- <-; eexists; (split; [exact Hi|]); [apply Hk, Hq, eq_refl|apply He].
Qed.

Definition staged (p : pool) : Prop :=
  exists x t ts, p.2 = t :: ts /\ I x p.1 /\ proves I x t /\ Forall (all_gives I) ts.

(** What holds of the shared state in every interleaving. *)
Lemma pool_staged :
  (forall x s, I x s -> I x0 s) ->
  (forall t, work 0 t -> proves I x0 t) -> (forall i t, work (Datatypes.S i) t -> all_gives I t) ->
  forall p p', pool_reaches p p' -> staged p -> staged p'.
Proof.
  intros Hweak Hw0 Hw p p' Hp. induction Hp as [p|p q p' Hstep _ IH]; [done|].
  intros (x & t0 & ts & E & Hs & H0 & Hts). apply IH.
  destruct Hstep as [i t t' s s' ts' Hi Ea|i a t s ts' Hi Hwork]; cbn [fst snd] in *; subst ts';
    destruct i as [|i]; cbn in Hi |- *.
  - injection Hi as ->. destruct (proves_advance t t' x s s' H0 Ea Hs) as (y & Hy & Hk).
    by exists y, t', ts.
  - pose proof (Forall_lookup_1 _ _ _ _ Hts Hi) as Hm. cbn in Hm.
    destruct (all_gives_advance t t' x s s' Hm Ea Hs) as [Hx Hk].
    exists x, t0, (<[i := t']> ts). split_and!; [done..|]. by apply Forall_insert.
  - exists x0, t, ts. split_and!; [done|by eapply Hweak|by apply Hw0|done].
  - exists x, t0, (<[i := t]> ts). split_and!; [done..|]. apply Forall_insert; [done|]. by eapply Hw.
Qed.
End Pool.

(** ** Triples *)

Definition triple {S A} (P : S -> Prop) (m : prog S A) (Q : A -> S -> Prop) (E : S -> Prop) : Prop :=
  forall s, P s -> match m s with (s', Ok a) => Q a s' | (s', Throw _) => E s' end.

Section Rules.
Context {S : Type}.
Implicit Types (P E : S -> Prop).

Lemma triple_ret {A} (a : A) P (Q : A -> S -> Prop) E : (forall s, P s -> Q a s) -> triple P (mret a) Q E.
Proof. intros HQ s Hs. by apply HQ. Qed.

Lemma triple_throw {A} e P (Q : A -> S -> Prop) E : (forall s, P s -> E s) -> triple P (throw e) Q E.
Proof. intros HE s Hs. by apply HE. Qed.

Lemma triple_lift {A} (r : result A) P (Q : A -> S -> Prop) E :
  (forall s a, P s -> r = Ok a -> Q a s) -> (forall s, P s -> E s) -> triple P (lift r) Q E.
Proof. intros HQ HE s Hs. unfold lift. destruct r; [by apply HQ|by apply HE]. Qed.

Lemma triple_modify f P (Q : unit -> S -> Prop) E : (forall s, P s -> Q tt (f s)) -> triple P (modify f) Q E.
Proof. intros HQ s Hs. by apply HQ. Qed.

Lemma triple_bind {A B} (m : prog S A) (f : A -> prog S B) P (R : A -> S -> Prop) Q E :
  triple P m R E -> (forall a, triple (R a) (f a) Q E) -> triple P (m ≫= f) Q E.
Proof.
  intros Hm Hf s Hs. specialize (Hm s Hs). unfold mbind, prog_bind.
  destruct (m s) as [s1 [a|e]]; [by apply Hf|done].
Qed.

(** What is read is the state. *)
Lemma triple_get {B} (f : S -> prog S B) P Q E :
  (forall s0, P s0 -> triple (fun s => s = s0) (f s0) Q E) -> triple P (get_state ≫= f) Q E.
Proof. intros Hf s Hs. exact (Hf s Hs s eq_refl). Qed.

Lemma triple_catch {A} (m : prog S A) h P (Q : A -> S -> Prop) E E' :
  triple P m Q E' -> (forall e, triple E' (h e) Q E) -> triple P (try_catch m h) Q E.
Proof.
  intros Hm Hh s Hs. specialize (Hm s Hs). unfold try_catch.
  destruct (m s) as [s1 [a|e]]; [done|by apply Hh].
Qed.

Lemma triple_weaken {A} (m : prog S A) P P' (Q Q' : A -> S -> Prop) E E' :
  triple P' m Q' E' -> (forall s, P s -> P' s) -> (forall a s, Q' a s -> Q a s) ->
  (forall s, E' s -> E s) -> triple P m Q E.
Proof.
  intros Hm HP HQ HE s Hs. specialize (Hm s (HP s Hs)). destruct (m s) as [s1 [a|e]]; auto.
Qed.

Lemma triple_keeps {A} (m : prog S A) P : preserves (keeps P) m -> triple P m (fun _ => P) P.
Proof. intros Hm s Hs. specialize (Hm s Hs). by destruct (m s) as [s1 [a|e]]. Qed.

Lemma keeps_triple {A} (m : prog S A) P : triple P m (fun _ => P) P -> preserves (keeps P) m.
Proof. intros Hm s Hs. specialize (Hm s Hs). by destruct (m s) as [s1 [a|e]]. Qed.

(** A precondition about the state at the start can be kept at hand. *)
Lemma triple_start {A} (m : prog S A) P Q E :
  (forall s0, P s0 -> triple (fun s => s = s0) m Q E) -> triple P m Q E.
Proof. intros Hm s Hs. exact (Hm s Hs s eq_refl). Qed.

Lemma triple_preserves {A} (R : S -> S -> Prop) (m : prog S A) s0 :
  preserves R m -> triple (fun s => s = s0) m (fun _ s => R s0 s) (R s0).
Proof. intros Hm s ->. specialize (Hm s0). by destruct (m s0) as [s1 [a|e]]. Qed.

Lemma triple_and {A} (m : prog S A) P (Q Q' : A -> S -> Prop) E E' :
  triple P m Q E -> triple P m Q' E' -> triple P m (fun a s => Q a s /\ Q' a s) (fun s => E s /\ E' s).
Proof.
  intros H1 H2 s Hs. specialize (H1 s Hs). specialize (H2 s Hs). by destruct (m s) as [s1 [a|e]].
Qed.
End Rules.
