(* ===== verification/KernelUsb.v ===== *)
(** The USB device the Linux kernel module shows to the host: its state, its descriptors and
    its control transfers (src/module/vds_usb_core.c, vds_usb.h, vds_controller.h,
    dualsense.c and dualsense_edge.c), and what they guarantee.

    A transfer is a thread: what runs under a lock is one step, and so is each access to the
    URB, which belongs to the driver until it is given back.  The host controller that calls
    this code is a class, [UsbHost]: it holds the device, the URBs that are under way, and
    the operations it offers ([vds_usb_device_ops]).  An int is what the functions return:
    0, or the negative of an error number.  A pointer to data is never null but where the
    code looks for that; a URB that is gone is "use after free". *)
From stdpp Require Import base list strings numbers gmap.
From Stdlib Require Import Ascii ZArith Lia.
From S2P Require Import Prelude Text Words BtPacket Profile UsbDescriptors Threads.

Local Open Scope Z_scope.

(** ** Constants of the kernel's headers *)

Definition ENOENT : Z := 2.
Definition EAGAIN : Z := 11.
Definition ENOMEM : Z := 12.
Definition EFAULT : Z := 14.
Definition EBUSY : Z := 16.
Definition EINVAL : Z := 22.
Definition ENOTTY : Z := 25.
Definition ENOSPC : Z := 28.
Definition EPIPE : Z := 32.
Definition EOVERFLOW : Z := 75.
Definition EMSGSIZE : Z := 90.
Definition EOPNOTSUPP : Z := 95.
Definition ESHUTDOWN : Z := 108.
Definition EINPROGRESS : Z := 115.

Definition USB_DIR_IN : Z := 0x80.
Definition USB_TYPE_MASK : Z := 0x60.
Definition USB_TYPE_STANDARD : Z := 0x00.
Definition USB_TYPE_CLASS : Z := 0x20.
Definition USB_RECIP_MASK : Z := 0x1f.
Definition USB_RECIP_INTERFACE : Z := 0x01.
Definition USB_ENDPOINT_NUMBER_MASK : Z := 0x0f.
Definition USB_REQ_GET_STATUS : Z := 0x00.
Definition USB_REQ_CLEAR_FEATURE : Z := 0x01.
Definition USB_REQ_SET_FEATURE : Z := 0x03.
Definition USB_REQ_SET_ADDRESS : Z := 0x05.
Definition USB_REQ_GET_DESCRIPTOR : Z := 0x06.
Definition USB_REQ_GET_CONFIGURATION : Z := 0x08.
Definition USB_REQ_SET_CONFIGURATION : Z := 0x09.
Definition USB_REQ_GET_INTERFACE : Z := 0x0a.
Definition USB_REQ_SET_INTERFACE : Z := 0x0b.
Definition USB_DT_DEVICE : Z := 0x01.
Definition USB_DT_CONFIG : Z := 0x02.
Definition USB_DT_STRING : Z := 0x03.
Definition USB_DT_DEVICE_QUALIFIER : Z := 0x06.
Definition HID_DT_HID : Z := 0x21.
Definition HID_DT_REPORT : Z := 0x22.

(** ** Constants of the module *)

Definition HID_REQ_GET_REPORT : Z := 0x01.
Definition HID_REQ_GET_IDLE : Z := 0x02.
Definition HID_REQ_GET_PROTOCOL : Z := 0x03.
Definition HID_REQ_SET_REPORT : Z := 0x09.
Definition HID_REQ_SET_IDLE : Z := 0x0a.
Definition HID_REQ_SET_PROTOCOL : Z := 0x0b.
Definition HID_REPORT_TYPE_FEATURE : Z := 0x03.
Definition UAC_CS_REQ_SET_CUR : Z := 0x01.
Definition UAC_CS_REQ_GET_CUR : Z := 0x81.
Definition UAC_CS_REQ_GET_MIN : Z := 0x82.
Definition UAC_CS_REQ_GET_MAX : Z := 0x83.
Definition UAC_CS_REQ_GET_RES : Z := 0x84.
Definition UAC_FU_CTRL_MUTE : Z := 0x01.
Definition UAC_FU_CTRL_VOLUME : Z := 0x02.
Definition VDS_USB_NO_INTERFACE : Z := 0xff.
Definition VDS_USB_NO_ENDPOINT : Z := 0xff.
Definition VDS_USB_SPK_VOLUME_MIN : Z := -100 * 256.
Definition VDS_USB_SPK_VOLUME_MAX : Z := 0.
Definition VDS_USB_SPK_VOLUME_RES : Z := 0x0100.
Definition VDS_CONTROLLER_NO_AUDIO_FEATURE : Z := 0xff.
Definition VDS_CONTROLLER_HID_PACKET_SIZE : nat := 64.
Definition VDS_CONTROLLER_AUDIO_FEATURE_SPEAKER : Z := 0.
Definition VDS_CONTROLLER_AUDIO_FEATURE_MIC : Z := 1.
Definition VDS_STATUS_CONNECTED : Z := 1.
Definition VDS_STATUS_CONFIGURED : Z := 2.
Definition VDS_STATUS_HID_ENABLED : Z := 4.
Definition VDS_STATUS_AUDIO_ENABLED : Z := 8.
Definition VDS_USB_INTERFACE_HID : Z := 0.
Definition VDS_USB_INTERFACE_AUDIO_OUT : Z := 1.
Definition VDS_USB_INTERFACE_AUDIO_IN : Z := 2.
Definition VDS_USB_AUDIO_CONTROL_INTERFACE : Z := 0.
Definition VDS_USB_HID_INTERFACE : Z := 3.
Definition VDS_USB_SPEAKER_FEATURE_UNIT : Z := 2.
Definition VDS_USB_MIC_FEATURE_UNIT : Z := 5.
Definition VDS_DS5_USB_HID_IN_INTERVAL_US : Z := 4000.
Definition VDS_DSE_USB_HID_IN_INTERVAL_US : Z := 1000.

(** ** The profiles of a controller *)

(** The sizes of the descriptors are the lengths of the tables. *)
Record vds_controller_profile := mk_profile {
  profile_id : Z;
  product_id : Z;
  device_version : Z;
  device_class : Z;
  device_subclass : Z;
  device_protocol : Z;
  max_packet_size0 : Z;
  num_configurations : Z;
  configuration_value : Z;
  manufacturer : string;
  product_string : string;
  configuration_descriptor : list Z;
  hid_descriptor : list Z;
  hid_report_descriptor : list Z;
  audio_control_interface : Z;
  audio_out_interface : Z;
  audio_in_interface : Z;
  hid_interface : Z;
  audio_out_endpoint : Z;
  audio_in_endpoint : Z;
  hid_in_endpoint : Z;
  hid_out_endpoint : Z;
  hid_in_interval_us : Z;
  speaker_feature_unit : Z;
  mic_feature_unit : Z
}.

Definition vds_dualsense_profile : vds_controller_profile := {|
  profile_id := VDS_PROFILE_DS5;
  product_id := VDS_DS5_PRODUCT_ID;
  device_version := VDS_USB_DEVICE_BCD;
  device_class := VDS_USB_DEVICE_CLASS;
  device_subclass := VDS_USB_DEVICE_SUBCLASS;
  device_protocol := VDS_USB_DEVICE_PROTOCOL;
  max_packet_size0 := VDS_USB_MAX_PACKET_SIZE0;
  num_configurations := VDS_USB_NUM_CONFIGURATIONS;
  configuration_value := VDS_USB_CONFIGURATION_VALUE;
  manufacturer := VDS_USB_MANUFACTURER_STRING;
  product_string := VDS_DS5_USB_PRODUCT_STRING;
  configuration_descriptor := vds_ds5_usb_configuration_descriptor;
  hid_descriptor := vds_ds5_usb_hid_descriptor;
  hid_report_descriptor := vds_ds5_usb_hid_report_descriptor;
  audio_control_interface := VDS_USB_AUDIO_CONTROL_INTERFACE;
  audio_out_interface := VDS_USB_AUDIO_OUT_INTERFACE;
  audio_in_interface := VDS_USB_AUDIO_IN_INTERFACE;
  hid_interface := VDS_USB_HID_INTERFACE;
  audio_out_endpoint := VDS_USB_AUDIO_OUT_ENDPOINT;
  audio_in_endpoint := VDS_USB_AUDIO_IN_ENDPOINT;
  hid_in_endpoint := VDS_USB_HID_IN_ENDPOINT;
  hid_out_endpoint := VDS_USB_HID_OUT_ENDPOINT;
  hid_in_interval_us := VDS_DS5_USB_HID_IN_INTERVAL_US;
  speaker_feature_unit := VDS_USB_SPEAKER_FEATURE_UNIT;
  mic_feature_unit := VDS_USB_MIC_FEATURE_UNIT
|}.

Definition vds_dualsense_edge_profile : vds_controller_profile := {|
  profile_id := VDS_PROFILE_DSE;
  product_id := VDS_DSE_PRODUCT_ID;
  device_version := VDS_USB_DEVICE_BCD;
  device_class := VDS_USB_DEVICE_CLASS;
  device_subclass := VDS_USB_DEVICE_SUBCLASS;
  device_protocol := VDS_USB_DEVICE_PROTOCOL;
  max_packet_size0 := VDS_USB_MAX_PACKET_SIZE0;
  num_configurations := VDS_USB_NUM_CONFIGURATIONS;
  configuration_value := VDS_USB_CONFIGURATION_VALUE;
  manufacturer := VDS_USB_MANUFACTURER_STRING;
  product_string := VDS_DSE_USB_PRODUCT_STRING;
  configuration_descriptor := vds_dse_usb_configuration_descriptor;
  hid_descriptor := vds_dse_usb_hid_descriptor;
  hid_report_descriptor := vds_dse_usb_hid_report_descriptor;
  audio_control_interface := VDS_USB_AUDIO_CONTROL_INTERFACE;
  audio_out_interface := VDS_USB_AUDIO_OUT_INTERFACE;
  audio_in_interface := VDS_USB_AUDIO_IN_INTERFACE;
  hid_interface := VDS_USB_HID_INTERFACE;
  audio_out_endpoint := VDS_USB_AUDIO_OUT_ENDPOINT;
  audio_in_endpoint := VDS_USB_AUDIO_IN_ENDPOINT;
  hid_in_endpoint := VDS_USB_HID_IN_ENDPOINT;
  hid_out_endpoint := VDS_USB_HID_OUT_ENDPOINT;
  hid_in_interval_us := VDS_DSE_USB_HID_IN_INTERVAL_US;
  speaker_feature_unit := VDS_USB_SPEAKER_FEATURE_UNIT;
  mic_feature_unit := VDS_USB_MIC_FEATURE_UNIT
|}.

Definition vds_controller_audio_feature_index (p : vds_controller_profile) (entity_id : Z) : Z :=
  if entity_id =? speaker_feature_unit p then VDS_CONTROLLER_AUDIO_FEATURE_SPEAKER
  else if negb (mic_feature_unit p =? VDS_CONTROLLER_NO_AUDIO_FEATURE) && (entity_id =? mic_feature_unit p)
  then VDS_CONTROLLER_AUDIO_FEATURE_MIC
  else -1.

(** ** The state of the device *)

(** [feature_cache] has, for each report that [feature_cache_len] gives a length, that many
    bytes of the cache: no other byte of it is read. *)
Record vds_usb_device := mk_usb {
  profile : Z;
  address : Z;
  configuration : Z;
  audio_out_altsetting : Z;
  audio_in_altsetting : Z;
  hid_idle : Z;
  hid_protocol : Z;
  audio_mute : list Z;
  audio_volume : list Z;
  feature_cache : gmap Z (list Z)
}.

Definition set_address v d := mk_usb (profile d) v (configuration d) (audio_out_altsetting d) (audio_in_altsetting d)
  (hid_idle d) (hid_protocol d) (audio_mute d) (audio_volume d) (feature_cache d).
Definition set_configuration v d := mk_usb (profile d) (address d) v 0 0
  (hid_idle d) (hid_protocol d) (audio_mute d) (audio_volume d) (feature_cache d).
Definition set_audio_out v d := mk_usb (profile d) (address d) (configuration d) v (audio_in_altsetting d)
  (hid_idle d) (hid_protocol d) (audio_mute d) (audio_volume d) (feature_cache d).
Definition set_audio_in v d := mk_usb (profile d) (address d) (configuration d) (audio_out_altsetting d) v
  (hid_idle d) (hid_protocol d) (audio_mute d) (audio_volume d) (feature_cache d).
Definition set_idle v d := mk_usb (profile d) (address d) (configuration d) (audio_out_altsetting d)
  (audio_in_altsetting d) v (hid_protocol d) (audio_mute d) (audio_volume d) (feature_cache d).
Definition set_protocol v d := mk_usb (profile d) (address d) (configuration d) (audio_out_altsetting d)
  (audio_in_altsetting d) (hid_idle d) v (audio_mute d) (audio_volume d) (feature_cache d).
Definition set_mute (i : nat) v d := mk_usb (profile d) (address d) (configuration d) (audio_out_altsetting d)
  (audio_in_altsetting d) (hid_idle d) (hid_protocol d) (<[i := v]> (audio_mute d)) (audio_volume d) (feature_cache d).
Definition set_volume (i : nat) v d := mk_usb (profile d) (address d) (configuration d) (audio_out_altsetting d)
  (audio_in_altsetting d) (hid_idle d) (hid_protocol d) (audio_mute d) (<[i := v]> (audio_volume d)) (feature_cache d).
Definition set_cache (id : Z) (payload : list Z) d := mk_usb (profile d) (address d) (configuration d)
  (audio_out_altsetting d) (audio_in_altsetting d) (hid_idle d) (hid_protocol d) (audio_mute d) (audio_volume d)
  (<[id := payload]> (feature_cache d)).

Definition vds_usb_valid_profile (p : Z) : bool := (p =? VDS_PROFILE_DS5) || (p =? VDS_PROFILE_DSE).

Definition vds_usb_controller_profile_for_profile (p : Z) : vds_controller_profile :=
  if p =? VDS_PROFILE_DSE then vds_dualsense_edge_profile else vds_dualsense_profile.

Definition vds_usb_reset_state_locked (d : vds_usb_device) : vds_usb_device :=
  mk_usb (profile d) 0 0 0 0 0 0 [0; 0] [VDS_USB_SPK_VOLUME_MIN; VDS_USB_SPK_VOLUME_MIN] ∅.

Definition vds_usb_device_init (p : Z) : vds_usb_device :=
  vds_usb_reset_state_locked
    (mk_usb (if vds_usb_valid_profile p then p else VDS_PROFILE_DS5) 0 0 0 0 0 0 [0; 0] [0; 0] ∅).

Definition vds_usb_device_reset_state (d : vds_usb_device) : vds_usb_device := vds_usb_reset_state_locked d.

Definition vds_usb_device_set_profile (p : Z) (d : vds_usb_device) : vds_usb_device * Z :=
  if negb (vds_usb_valid_profile p) then (d, - EINVAL)
  else
    (vds_usb_reset_state_locked
       (mk_usb p (address d) (configuration d) (audio_out_altsetting d) (audio_in_altsetting d) (hid_idle d)
          (hid_protocol d) (audio_mute d) (audio_volume d) (feature_cache d)), 0).

Definition vds_usb_device_profile (d : vds_usb_device) : vds_controller_profile :=
  vds_usb_controller_profile_for_profile (profile d).

(** [payload] is null when there is none. *)
Definition vds_usb_device_update_feature_reply (payload : list Z) (d : vds_usb_device) : vds_usb_device * Z :=
  if (length payload =? 0)%nat || (VDS_CONTROLLER_HID_PACKET_SIZE <? length payload)%nat then (d, - EINVAL)
  else (set_cache (byte_at payload 0) payload d, 0).

Definition vds_usb_endpoint_number (endpoint_address : Z) : Z := Z.land endpoint_address USB_ENDPOINT_NUMBER_MASK.

Definition vds_usb_device_is_hid_in (d : vds_usb_device) (endpoint : Z) : bool :=
  endpoint =? vds_usb_endpoint_number (hid_in_endpoint (vds_usb_device_profile d)).
Definition vds_usb_device_is_hid_out (d : vds_usb_device) (endpoint : Z) : bool :=
  endpoint =? vds_usb_endpoint_number (hid_out_endpoint (vds_usb_device_profile d)).
Definition vds_usb_device_is_audio_out (d : vds_usb_device) (endpoint : Z) : bool :=
  endpoint =? vds_usb_endpoint_number (audio_out_endpoint (vds_usb_device_profile d)).
Definition vds_usb_device_is_audio_in (d : vds_usb_device) (endpoint : Z) : bool :=
  negb (audio_in_endpoint (vds_usb_device_profile d) =? VDS_USB_NO_ENDPOINT)
  && (endpoint =? vds_usb_endpoint_number (audio_in_endpoint (vds_usb_device_profile d))).

(** ** URBs *)

(** [struct usb_iso_packet_descriptor] *)
Record iso_packet := mk_iso { offset : Z; iso_length : Z; iso_actual_length : Z; iso_status : Z }.

Inductive pipe_type := PIPE_ISOCHRONOUS | PIPE_INTERRUPT | PIPE_CONTROL | PIPE_BULK.

(** [transfer_buffer] is null or has [transfer_buffer_length] bytes ([urb_ok]);
    [number_of_packets] is the length of [iso_frame_desc]. *)
Record urb := mk_urb {
  urb_pipe_type : pipe_type;
  urb_dir_in : bool;
  urb_endpoint : Z;
  setup_packet : option (list Z);
  transfer_buffer : option (list Z);
  transfer_buffer_length : Z;
  actual_length : Z;
  iso_frame_desc : list iso_packet;
  error_count : Z;
  start_frame : Z
}.

Definition put_buffer b u := mk_urb (urb_pipe_type u) (urb_dir_in u) (urb_endpoint u) (setup_packet u) b
  (transfer_buffer_length u) (actual_length u) (iso_frame_desc u) (error_count u) (start_frame u).
Definition put_actual v u := mk_urb (urb_pipe_type u) (urb_dir_in u) (urb_endpoint u) (setup_packet u)
  (transfer_buffer u) (transfer_buffer_length u) v (iso_frame_desc u) (error_count u) (start_frame u).
Definition put_iso ds errors u := mk_urb (urb_pipe_type u) (urb_dir_in u) (urb_endpoint u) (setup_packet u)
  (transfer_buffer u) (transfer_buffer_length u) (actual_length u) ds errors (start_frame u).
Definition put_start_frame v u := mk_urb (urb_pipe_type u) (urb_dir_in u) (urb_endpoint u) (setup_packet u)
  (transfer_buffer u) (transfer_buffer_length u) (actual_length u) (iso_frame_desc u) (error_count u) v.

(** [struct usb_ctrlrequest], from the eight bytes of a setup packet. *)
Record usb_ctrlrequest := mk_setup { bRequestType : Z; bRequest : Z; wValue : Z; wIndex : Z; wLength : Z }.
Definition decode_setup (bytes : list Z) : usb_ctrlrequest :=
  mk_setup (byte_at bytes 0) (byte_at bytes 1) (le_value (take 2 (drop 2 bytes)))
    (le_value (take 2 (drop 4 bytes))) (le_value (take 2 (drop 6 bytes))).

(** [memcpy] to the beginning of the transfer buffer, and [actual_length]. *)
Definition copy_out (u : urb) (data : list Z) (n : nat) : urb :=
  put_actual (Z.of_nat n) (put_buffer (match transfer_buffer u with
                                       | Some b => Some (copy_into b 0 (take n data))
                                       | None => None
                                       end) u).

Definition vds_usb_copy_to_urb (u : urb) (data : list Z) : urb * Z :=
  let copy_len := Nat.min (length data) (Z.to_nat (transfer_buffer_length u)) in
  if negb (copy_len =? 0)%nat && negb (bool_decide (is_Some (transfer_buffer u))) then (u, - EPIPE)
  else (copy_out u data copy_len, 0).

(** The characters of a string in UTF-16, as many as there is room for. *)
Fixpoint string_units (text : string) (n : Z) : list Z :=
  match text with
  | EmptyString => []
  | String c rest =>
      if (code c =? 0) || negb (n + 2 <=? 255) then [] else code c :: 0 :: string_units rest (u8 (n + 2))
  end.
Definition string_descriptor (text : option string) : list Z :=
  match text with
  | None => [4; USB_DT_STRING; 0x09; 0x04]
  | Some text => let units := string_units text 2 in u8 (2 + Z.of_nat (length units)) :: USB_DT_STRING :: units
  end.

Definition vds_qualifier_desc : list Z := [10; USB_DT_DEVICE_QUALIFIER] ++ le_bytes 2 0x0200 ++ [0; 0; 0; 64; 1; 0].

(** [device_desc] of [vds_usb_standard_control]. *)
Definition device_descriptor (p : vds_controller_profile) : list Z :=
  [18; USB_DT_DEVICE] ++ le_bytes 2 0x0200
  ++ [device_class p; device_subclass p; device_protocol p; max_packet_size0 p]
  ++ le_bytes 2 VDS_SONY_VENDOR_ID ++ le_bytes 2 (product_id p) ++ le_bytes 2 (device_version p)
  ++ [1; 2; 0; num_configurations p].

(** ** The host controller *)

Class UsbHost (S : Type) := {
  usb : S -> vds_usb_device;
  put_usb : vds_usb_device -> S -> S;
  urbs : S -> gmap nat urb;
  put_urbs : gmap nat urb -> S -> S
}.

(** A state that is reached through these accessors behaves as a record. *)
Class UsbHostLaws (S : Type) `{UsbHost S} := {
  usb_put d s : usb (put_usb d s) = d;
  urbs_put m s : urbs (put_urbs m s) = m;
  usb_put_urbs m s : usb (put_urbs m s) = usb s;
  urbs_put_usb d s : urbs (put_usb d s) = urbs s
}.

Definition use_after_free : string := "use after free".

Record vds_usb_device_ops (S : Type) := mk_ops {
  enqueue_frame : option (Z -> list Z -> prog S Z);
  defer_feature_get : option (nat -> Z -> prog S Z);
  set_status : option (Z -> bool -> prog S unit)
}.
Arguments mk_ops {S} _ _ _.
Arguments enqueue_frame {S} _.
Arguments defer_feature_get {S} _.
Arguments set_status {S} _.

Section Control.
Context {S : Type} `{UsbHost S}.

(** An access to URB [id]. *)
Definition on_urb {A} (id : nat) (f : urb -> urb * A) : prog S A := fun s =>
  match urbs s !! id with
  | None => (s, Throw use_after_free)
  | Some u => let '(u', a) := f u in (put_urbs (<[id := u']> (urbs s)) s, Ok a)
  end.
Definition urb_access {A} (id : nat) (f : urb -> urb * A) : thread S A := locked (on_urb id f).
Definition read_urb (id : nat) : thread S urb := urb_access id (fun u => (u, u)).

(** What runs under [dev->lock] of the device. *)
Definition on_usb {A} (f : vds_usb_device -> vds_usb_device * A) : prog S A := fun s =>
  let '(d, a) := f (usb s) in (put_usb d s, Ok a).
Definition usb_section {A} (f : vds_usb_device -> vds_usb_device * A) : thread S A := locked (on_usb f).

Definition reply (id : nat) (data : list Z) : thread S Z := urb_access id (fun u => vds_usb_copy_to_urb u data).

Definition vds_usb_copy_string_descriptor (id : nat) (text : option string) : thread S Z :=
  reply id (string_descriptor text).

Definition vds_usb_copy_cached_feature_report (id : nat) (report_id : Z) : thread S Z :=
  report ← usb_section (fun d => (d, feature_cache d !! report_id));
  match report with
  | None => mret (- ENOENT)
  | Some report => reply id report
  end.

Context (ops : option (vds_usb_device_ops S)).

Definition vds_usb_set_status (flags : Z) (enabled : bool) : thread S unit :=
  match (o ← ops; set_status o) with
  | Some f => locked (f flags enabled)
  | None => mret tt
  end.

Definition vds_usb_enqueue_frame (frame_type : Z) (payload : list Z) : thread S Z :=
  match (o ← ops; enqueue_frame o) with
  | Some f => locked (f frame_type payload)
  | None => mret 0
  end.

Definition vds_usb_enqueue_interface_event (interface_number altsetting interface_type : Z) : thread S unit :=
  _ ← vds_usb_enqueue_frame VDS_FRAME_USB_INTERFACE [interface_number; altsetting; interface_type; 0];
  mret tt.

Definition vds_usb_defer_feature_get (id : nat) (report_id : Z) : thread S Z :=
  match (o ← ops; f ← defer_feature_get o; _ ← enqueue_frame o; Some f) with
  | Some f => locked (f id report_id)
  | None => mret (- EPIPE)
  end.

(** The part of a request that sets a mute or a volume, under the lock. *)
Definition audio_set (id : nat) (selector feature_index : Z) : prog S Z := fun s =>
  match urbs s !! id with
  | None => (s, Throw use_after_free)
  | Some u =>
      let i := Z.to_nat feature_index in
      let buffer := default [] (transfer_buffer u) in
      if (selector =? UAC_FU_CTRL_MUTE) && (1 <=? transfer_buffer_length u) then
        (put_urbs (<[id := put_actual 1 u]> (urbs s)) (put_usb (set_mute i (byte_at buffer 0) (usb s)) s), Ok 0)
      else if (selector =? UAC_FU_CTRL_VOLUME) && (2 <=? transfer_buffer_length u) then
        (put_urbs (<[id := put_actual 2 u]> (urbs s))
           (put_usb (set_volume i (s16 (le_value (take 2 buffer))) (usb s)) s), Ok 0)
      else (s, Ok (- EPIPE))
  end.

Definition vds_usb_audio_control (id : nat) (setup : usb_ctrlrequest) (p : vds_controller_profile) : thread S Z :=
  let entity_id := Z.shiftr (wIndex setup) 8 in
  let intf := Z.land (wIndex setup) 0xff in
  let selector := Z.shiftr (wValue setup) 8 in
  let feature_index := vds_controller_audio_feature_index p entity_id in
  if negb (intf =? audio_control_interface p) then mret (- EPIPE)
  else if feature_index <? 0 then mret (- EPIPE)
  else if negb (Z.land (bRequestType setup) USB_DIR_IN =? 0) then
    if selector =? UAC_FU_CTRL_MUTE then
      if negb (bRequest setup =? UAC_CS_REQ_GET_CUR) then mret (- EPIPE)
      else
        mute ← usb_section (fun d => (d, byte_at (audio_mute d) (Z.to_nat feature_index)));
        reply id [mute]
    else if selector =? UAC_FU_CTRL_VOLUME then
      if bRequest setup =? UAC_CS_REQ_GET_CUR then
        volume ← usb_section (fun d => (d, default 0 (audio_volume d !! Z.to_nat feature_index)));
        reply id (le_bytes 2 (u16 volume))
      else if bRequest setup =? UAC_CS_REQ_GET_MIN then reply id (le_bytes 2 (u16 VDS_USB_SPK_VOLUME_MIN))
      else if bRequest setup =? UAC_CS_REQ_GET_MAX then reply id (le_bytes 2 (u16 VDS_USB_SPK_VOLUME_MAX))
      else if bRequest setup =? UAC_CS_REQ_GET_RES then reply id (le_bytes 2 (u16 VDS_USB_SPK_VOLUME_RES))
      else mret (- EPIPE)
    else mret (- EPIPE)
  else
    u ← read_urb id;
    if negb (bRequest setup =? UAC_CS_REQ_SET_CUR) || negb (bool_decide (is_Some (transfer_buffer u)))
    then mret (- EPIPE)
    else locked (audio_set id selector feature_index).

(** [GET_REPORT] of a feature report: from the cache, or deferred until the controller
    answers. *)
Definition get_feature_report (id : nat) (setup : usb_ctrlrequest) (report_id : Z) : thread S Z :=
  let requested_length := wLength setup in
  ret ← vds_usb_copy_cached_feature_report id report_id;
  if ret =? 0 then mret 0
  else if negb (ret =? - ENOENT) then mret ret
  else
    ret ← vds_usb_defer_feature_get id report_id;
    if negb (ret =? 0) then mret ret
    else
      ret ← vds_usb_enqueue_frame VDS_FRAME_USB_FEATURE_GET
              [report_id; Z.land requested_length 0xff; Z.shiftr requested_length 8];
      mret (if negb (ret =? 0) then ret else - EINPROGRESS).

(** [SET_REPORT] of a feature report. *)
Definition set_feature_report (id : nat) (report_id : Z) : thread S Z :=
  u ← read_urb id;
  let n := transfer_buffer_length u in
  if negb (n =? 0) && negb (bool_decide (is_Some (transfer_buffer u))) then mret (- EPIPE)
  else if negb (n =? 0) then
    if Z.of_nat VDS_CONTROLLER_HID_PACKET_SIZE <? n then mret (- EPIPE)
    else
      ret ← vds_usb_enqueue_frame VDS_FRAME_USB_FEATURE_SET (report_id :: default [] (transfer_buffer u));
      if negb (ret =? 0) then mret ret
      else urb_access id (fun u => (put_actual (transfer_buffer_length u) u, 0))
  else urb_access id (fun u => (put_actual (transfer_buffer_length u) u, 0)).

Definition vds_usb_hid_control (id : nat) (setup : usb_ctrlrequest) (p : vds_controller_profile) : thread S Z :=
  let report_type := Z.shiftr (wValue setup) 8 in
  let report_id := Z.land (wValue setup) 0xff in
  if negb (Z.land (wIndex setup) 0xff =? hid_interface p) then mret (- EPIPE)
  else if bRequest setup =? HID_REQ_GET_REPORT then
    if report_type =? HID_REPORT_TYPE_FEATURE then get_feature_report id setup report_id
    else reply id (report_id :: replicate 63 0)
  else if bRequest setup =? HID_REQ_SET_REPORT then
    if negb (report_type =? HID_REPORT_TYPE_FEATURE) then mret (- EPIPE) else set_feature_report id report_id
  else if bRequest setup =? HID_REQ_GET_IDLE then
    v ← usb_section (fun d => (d, hid_idle d)); reply id [v]
  else if bRequest setup =? HID_REQ_GET_PROTOCOL then
    v ← usb_section (fun d => (d, hid_protocol d)); reply id [v]
  else if bRequest setup =? HID_REQ_SET_IDLE then usb_section (fun d => (set_idle (Z.shiftr (wValue setup) 8) d, 0))
  else if bRequest setup =? HID_REQ_SET_PROTOCOL then
    usb_section (fun d => (set_protocol (Z.land (wValue setup) 0xff) d, 0))
  else mret (- EPIPE).

Definition get_descriptor (id : nat) (setup : usb_ctrlrequest) (p : vds_controller_profile) : thread S Z :=
  let desc_type := Z.shiftr (wValue setup) 8 in
  let desc_index := Z.land (wValue setup) 0xff in
  let intf := Z.land (wIndex setup) 0xff in
  if desc_type =? USB_DT_DEVICE then reply id (device_descriptor p)
  else if desc_type =? USB_DT_CONFIG then reply id (configuration_descriptor p)
  else if desc_type =? USB_DT_DEVICE_QUALIFIER then reply id vds_qualifier_desc
  else if desc_type =? USB_DT_STRING then
    if desc_index =? 0 then vds_usb_copy_string_descriptor id None
    else if desc_index =? 1 then vds_usb_copy_string_descriptor id (Some (manufacturer p))
    else if desc_index =? 2 then vds_usb_copy_string_descriptor id (Some (product_string p))
    else mret (- EPIPE)
  else if desc_type =? HID_DT_REPORT then
    if negb (intf =? hid_interface p) then mret (- EPIPE) else reply id (hid_report_descriptor p)
  else if desc_type =? HID_DT_HID then
    if negb (intf =? hid_interface p) then mret (- EPIPE) else reply id (hid_descriptor p)
  else mret (- EPIPE).

Definition set_interface (setup : usb_ctrlrequest) (p : vds_controller_profile) : thread S Z :=
  let value := wValue setup in
  let intf := Z.land (wIndex setup) 0xff in
  if intf =? hid_interface p then
    if negb (value =? 0) then mret (- EPIPE)
    else _ ← vds_usb_enqueue_interface_event (hid_interface p) 0 VDS_USB_INTERFACE_HID; mret 0
  else if 1 <? value then mret (- EPIPE)
  else if intf =? audio_out_interface p then
    audio_enabled ← usb_section (fun d => let d := set_audio_out (Z.land value 0xff) d in (d, audio_out_altsetting d =? 1));
    _ ← vds_usb_set_status VDS_STATUS_AUDIO_ENABLED audio_enabled;
    _ ← vds_usb_enqueue_interface_event (audio_out_interface p) (Z.land value 0xff) VDS_USB_INTERFACE_AUDIO_OUT;
    mret 0
  else if negb (audio_in_interface p =? VDS_USB_NO_INTERFACE) && (intf =? audio_in_interface p) then
    _ ← usb_section (fun d => (set_audio_in (Z.land value 0xff) d, tt));
    _ ← vds_usb_enqueue_interface_event (audio_in_interface p) (Z.land value 0xff) VDS_USB_INTERFACE_AUDIO_IN;
    mret 0
  else mret (- EPIPE).

Definition get_interface (id : nat) (setup : usb_ctrlrequest) (p : vds_controller_profile) : thread S Z :=
  let intf := Z.land (wIndex setup) 0xff in
  alt ← usb_section (fun d =>
    (d, if intf =? audio_out_interface p then Some (audio_out_altsetting d)
        else if negb (audio_in_interface p =? VDS_USB_NO_INTERFACE) && (intf =? audio_in_interface p)
        then Some (audio_in_altsetting d)
        else if intf =? hid_interface p then Some 0
        else None));
  match alt with
  | Some v => reply id [v]
  | None => mret (- EPIPE)
  end.

Definition vds_usb_standard_control (id : nat) (setup : usb_ctrlrequest) (p : vds_controller_profile) : thread S Z :=
  let value := wValue setup in
  if bRequest setup =? USB_REQ_GET_DESCRIPTOR then get_descriptor id setup p
  else if bRequest setup =? USB_REQ_SET_ADDRESS then usb_section (fun d => (set_address (Z.land value 0x7f) d, 0))
  else if bRequest setup =? USB_REQ_SET_CONFIGURATION then
    if negb (value =? 0) && negb (value =? configuration_value p) then mret (- EPIPE)
    else
      configured ← usb_section (fun d =>
        let d := set_configuration (Z.land value 0xff) d in (d, configuration d =? configuration_value p));
      _ ← vds_usb_set_status (Z.lor VDS_STATUS_CONFIGURED VDS_STATUS_HID_ENABLED) configured;
      _ ← vds_usb_set_status VDS_STATUS_AUDIO_ENABLED false;
      mret 0
  else if bRequest setup =? USB_REQ_GET_CONFIGURATION then
    v ← usb_section (fun d => (d, configuration d)); reply id [v]
  else if bRequest setup =? USB_REQ_SET_INTERFACE then set_interface setup p
  else if bRequest setup =? USB_REQ_GET_INTERFACE then get_interface id setup p
  else if bRequest setup =? USB_REQ_GET_STATUS then reply id (le_bytes 2 0)
  else if (bRequest setup =? USB_REQ_CLEAR_FEATURE) || (bRequest setup =? USB_REQ_SET_FEATURE) then mret 0
  else mret (- EPIPE).

Definition vds_usb_device_control_urb (id : nat) : thread S Z :=
  p ← usb_section (fun d => (d, vds_usb_device_profile d));
  packet ← urb_access id (fun u =>
    match setup_packet u with Some b => (put_actual 0 u, Some b) | None => (u, None) end);
  match packet with
  | None => mret (- EPIPE)
  | Some bytes =>
      let setup := decode_setup bytes in
      let kind := Z.land (bRequestType setup) USB_TYPE_MASK in
      if kind =? USB_TYPE_STANDARD then vds_usb_standard_control id setup p
      else if (kind =? USB_TYPE_CLASS) && (Z.land (bRequestType setup) USB_RECIP_MASK =? USB_RECIP_INTERFACE) then
        if Z.land (wIndex setup) 0xff =? hid_interface p then vds_usb_hid_control id setup p
        else vds_usb_audio_control id setup p
      else mret (- EPIPE)
  end.
End Control.
