(* ===== verification/KernelHcd.v ===== *)
(** The virtual host controller of the Linux kernel module (src/module/vds_hcd_core.c): a port
    whose device is that of KernelUsb.v, and a character device through which the daemon
    gives and takes frames.

    The entry points of the module run in any thread of the system: each is a thread here,
    and what it does under [dev->lock] is one step.  A URB that was accepted has a number;
    its context has the same one.  The lists of the module hold these numbers.  What the code
    would do with a context that was freed is "use after free"; putting one on a list that is
    on a list already, or freeing one that is on a list, is "list corruption"; a thread that
    comes to this stops.  What the kernel answers - allocations, the clock, copies from and to
    user space, the checks of the USB core - is part of the state or an argument, arbitrary
    everywhere; the clock is read in the section that uses it.  Waking a thread is not
    modelled: a waiting thread looks at its condition again.  At the end, what loading and
    unloading the module register. *)
From stdpp Require Import base list strings numbers gmap.
From Stdlib Require Import Ascii ZArith Lia.
From S2P Require Import Prelude Text Words BtPacket Profile UsbDescriptors Threads KernelUsb.

Local Open Scope Z_scope.

Definition VDS_AUDIO_IN_BYTES_PER_MS : Z := 192.
Definition VDS_AUDIO_OUT_BYTES_PER_MS : Z := 384.
Definition VDS_AUDIO_IN_QUEUE_MS : Z := 100.
Definition VDS_AUDIO_IN_QUEUE_MAX_BYTES : Z := VDS_AUDIO_IN_BYTES_PER_MS * VDS_AUDIO_IN_QUEUE_MS.
Definition VDS_MIN_PORT_COUNT : Z := 1.
Definition VDS_MAX_PORT_COUNT : Z := 4.
Definition kMaxEvents : Z := 16384.
Definition VDS_DRIVER_INFO_VERSION : Z := 1.
Definition VDS_DRIVER_VERSION_MAX : nat := 64.

Definition USB_PORT_STAT_CONNECTION : Z := 0x0001.
Definition USB_PORT_STAT_ENABLE : Z := 0x0002.
Definition USB_PORT_STAT_RESET : Z := 0x0010.
Definition USB_PORT_STAT_POWER : Z := 0x0100.
Definition USB_PORT_STAT_HIGH_SPEED : Z := 0x0400.
Definition USB_PORT_STAT_C_CONNECTION : Z := 0x0001.
Definition USB_PORT_STAT_C_ENABLE : Z := 0x0002.
Definition USB_PORT_STAT_C_SUSPEND : Z := 0x0004.
Definition USB_PORT_STAT_C_OVERCURRENT : Z := 0x0008.
Definition USB_PORT_STAT_C_RESET : Z := 0x0010.
Definition PORT_C_MASK : Z :=
  Z.shiftl (Z.lor (Z.lor (Z.lor (Z.lor USB_PORT_STAT_C_CONNECTION USB_PORT_STAT_C_ENABLE) USB_PORT_STAT_C_SUSPEND)
                     USB_PORT_STAT_C_OVERCURRENT) USB_PORT_STAT_C_RESET) 16.
Definition USB_PORT_FEAT_ENABLE : Z := 1.
Definition USB_PORT_FEAT_RESET : Z := 4.
Definition USB_PORT_FEAT_POWER : Z := 8.
Definition USB_PORT_FEAT_C_CONNECTION : Z := 16.
Definition USB_PORT_FEAT_C_RESET : Z := 20.
Definition ClearHubFeature : Z := 0x2001.
Definition ClearPortFeature : Z := 0x2301.
Definition GetHubDescriptor : Z := 0xa006.
Definition GetHubStatus : Z := 0xa000.
Definition GetPortStatus : Z := 0xa300.
Definition SetPortFeature : Z := 0x2303.
Definition USB_DT_HUB : Z := 0x29.
Definition HUB_CHAR_INDV_PORT_LPSM : Z := 0x0001.
Definition HUB_CHAR_COMMON_OCPM : Z := 0x0000.
Definition EPOLLIN : Z := 0x001.
Definition EPOLLOUT : Z := 0x004.
Definition EPOLLHUP : Z := 0x010.
Definition EPOLLRDNORM : Z := 0x040.
Definition EPOLLWRNORM : Z := 0x100.

(** ** The state *)

Inductive vds_urb_context_state :=
  | VDS_URB_ACTIVE
  | VDS_URB_PENDING_HID_IN
  | VDS_URB_PENDING_FEATURE_GET
  | VDS_URB_PENDING_GIVEBACK
  | VDS_URB_GIVING_BACK.
#[export] Instance vds_urb_context_state_eq_dec : EqDecision vds_urb_context_state.
Proof. solve_decision. Defined.

Record vds_urb_context := mk_context {
  ready_time : Z;
  context_status : Z;
  feature_report_id : Z;
  context_state : vds_urb_context_state;
  deliver_iso_out : bool;
  deliver_iso_in : bool
}.
Definition put_ready v c := mk_context v (context_status c) (feature_report_id c) (context_state c) (deliver_iso_out c) (deliver_iso_in c).
Definition put_status v c := mk_context (ready_time c) v (feature_report_id c) (context_state c) (deliver_iso_out c) (deliver_iso_in c).
Definition put_report_id v c := mk_context (ready_time c) (context_status c) v (context_state c) (deliver_iso_out c) (deliver_iso_in c).
Definition put_context_state v c := mk_context (ready_time c) (context_status c) (feature_report_id c) v (deliver_iso_out c) (deliver_iso_in c).
Definition put_deliver o i c := mk_context (ready_time c) (context_status c) (feature_report_id c) (context_state c) o i.

(** The URBs: those accepted and not given back, their contexts, those whose [hcpriv] is set,
    the three lists, and the calls of [usb_hcd_giveback_urb]. *)
Record UrbState := mk_urbs {
  urb_store : gmap nat urb;
  contexts : gmap nat vds_urb_context;
  hcpriv : gset nat;
  next_urb : nat;
  pending_hid_in : list nat;
  pending_feature_get : list nat;
  completed_urbs : list nat;
  given_back : list (nat * Z * urb)
}.
Definition put_store v q := mk_urbs v (contexts q) (hcpriv q) (next_urb q) (pending_hid_in q) (pending_feature_get q) (completed_urbs q) (given_back q).
Definition put_contexts v q := mk_urbs (urb_store q) v (hcpriv q) (next_urb q) (pending_hid_in q) (pending_feature_get q) (completed_urbs q) (given_back q).
Definition put_hcpriv v q := mk_urbs (urb_store q) (contexts q) v (next_urb q) (pending_hid_in q) (pending_feature_get q) (completed_urbs q) (given_back q).
Definition put_pending_hid_in v q := mk_urbs (urb_store q) (contexts q) (hcpriv q) (next_urb q) v (pending_feature_get q) (completed_urbs q) (given_back q).
Definition put_pending_feature_get v q := mk_urbs (urb_store q) (contexts q) (hcpriv q) (next_urb q) (pending_hid_in q) v (completed_urbs q) (given_back q).
Definition put_completed v q := mk_urbs (urb_store q) (contexts q) (hcpriv q) (next_urb q) (pending_hid_in q) (pending_feature_get q) v (given_back q).

(** Frames for the daemon. *)
Record EventState := mk_events {
  events : list (vds_frame_header * list Z);
  event_count : Z;
  next_sequence : Z;
  frames_to_user : Z
}.

(** Input reports and microphone packets that wait for the host: a packet is its [offset] and
    its payload. *)
Record HostState := mk_host {
  input_packets : list (list Z);
  input_packet_count : Z;
  audio_in_packets : list (nat * list Z);
  audio_in_packet_count : Z;
  audio_in_queued_bytes : Z
}.

(** The clock in nanoseconds, and when the next transfer of a kind may be given back. *)
Record ClockState := mk_clock {
  now : Z;
  next_iso_out_ready : Z;
  next_iso_in_ready : Z;
  next_hid_in_ready : Z
}.

Record PortState := mk_port {
  status_flags : Z;
  port_status : Z;
  stopping : bool;
  opened : bool;
  frames_from_user : Z
}.

(** [memory]: whether the next allocations succeed; they do when it is empty. *)
Record Hcd := mk_hcd {
  usb_dev : vds_usb_device;
  q_urbs : UrbState;
  q_events : EventState;
  q_host : HostState;
  clock : ClockState;
  port : PortState;
  memory : list bool
}.
Definition put_usb_dev v s := mk_hcd v (q_urbs s) (q_events s) (q_host s) (clock s) (port s) (memory s).
Definition put_q_urbs v s := mk_hcd (usb_dev s) v (q_events s) (q_host s) (clock s) (port s) (memory s).
Definition put_q_events v s := mk_hcd (usb_dev s) (q_urbs s) v (q_host s) (clock s) (port s) (memory s).
Definition put_q_host v s := mk_hcd (usb_dev s) (q_urbs s) (q_events s) v (clock s) (port s) (memory s).
Definition put_clock v s := mk_hcd (usb_dev s) (q_urbs s) (q_events s) (q_host s) v (port s) (memory s).
Definition put_port v s := mk_hcd (usb_dev s) (q_urbs s) (q_events s) (q_host s) (clock s) v (memory s).
Definition put_memory v s := mk_hcd (usb_dev s) (q_urbs s) (q_events s) (q_host s) (clock s) (port s) v.

#[export] Instance hcd_usb_host : UsbHost Hcd := {|
  usb := usb_dev;
  put_usb := put_usb_dev;
  urbs s := urb_store (q_urbs s);
  put_urbs m s := put_q_urbs (put_store m (q_urbs s)) s
|}.
#[export] Instance hcd_usb_host_laws : UsbHostLaws Hcd.
Proof. by split. Qed.

(** [vds_hcd_probe]: the state is zeroed, the device initialised, the lists are empty. *)
Definition initial_hcd (time : Z) (answers : list bool) : Hcd :=
  mk_hcd (vds_usb_device_init VDS_PROFILE_DS5) (mk_urbs ∅ ∅ ∅ 0 [] [] [] []) (mk_events [] 0 0 0)
    (mk_host [] 0 [] 0 0) (mk_clock time 0 0 0) (mk_port 0 0 false false 0) answers.

Definition on_urbs {A} (m : prog UrbState A) : prog Hcd A := fun s =>
  let '(q, r) := m (q_urbs s) in (put_q_urbs q s, r).
Definition put_port_with (f : PortState -> PortState) (s : Hcd) : Hcd := put_port (f (port s)) s.

(** [kmalloc] *)
Definition kmalloc : prog Hcd bool := fun s => (put_memory (tail (memory s)) s, Ok (default true (head (memory s)))).

Definition vds_status_set_locked (flags : Z) (enabled : bool) (p : PortState) : PortState :=
  mk_port (if enabled then Z.lor (status_flags p) flags else Z.ldiff (status_flags p) flags)
    (port_status p) (stopping p) (opened p) (frames_from_user p).
Definition put_port_status v p := mk_port (status_flags p) v (stopping p) (opened p) (frames_from_user p).
Definition put_stopping v p := mk_port (status_flags p) (port_status p) v (opened p) (frames_from_user p).
Definition put_opened v p := mk_port (status_flags p) (port_status p) (stopping p) v (frames_from_user p).
Definition count_from_user p := mk_port (status_flags p) (port_status p) (stopping p) (opened p) (u64 (frames_from_user p + 1)).

Definition vds_is_stopping : prog Hcd bool := s ← get_state; mret (stopping (port s)).
Definition vds_read_ready (s : Hcd) : bool := stopping (port s) || negb (bool_decide (events (q_events s) = [])).
Definition vds_completed_urbs_ready (s : Hcd) : bool := negb (bool_decide (completed_urbs (q_urbs s) = [])).

(** ** Frames to the daemon *)

Definition vds_enqueue_frame (frame_type : Z) (payload : list Z) : prog Hcd Z :=
  if (VDS_FRAME_MAX_PAYLOAD <? length payload)%nat then mret (- EMSGSIZE)
  else
    allocated ← kmalloc;
    if negb allocated then mret (- ENOMEM)
    else
      s ← get_state;
      let e := q_events s in
      if stopping (port s) then mret (- ESHUTDOWN)
      else if kMaxEvents <=? event_count e then mret (- ENOSPC)
      else
        _ ← modify (put_q_events
              (mk_events (events e ++ [(mk_header frame_type 0 (Z.of_nat (length payload)) (next_sequence e), payload)])
                 (event_count e + 1) (u64 (next_sequence e + 1)) (u64 (frames_to_user e + 1))));
        mret 0.

(** An access to context [id]. *)
Definition get_context (id : nat) : prog UrbState vds_urb_context := fun q =>
  match contexts q !! id with Some c => (q, Ok c) | None => (q, Throw use_after_free) end.
Definition update_context (id : nat) (f : vds_urb_context -> vds_urb_context) : prog UrbState unit :=
  c ← get_context id;
  modify (fun q => put_contexts (<[id := f c]> (contexts q)) q).

(** [list_add_tail] of a context that is on no list. *)
Definition on_a_list (id : nat) (q : UrbState) : bool :=
  bool_decide (id ∈ pending_hid_in q) || bool_decide (id ∈ pending_feature_get q) || bool_decide (id ∈ completed_urbs q).
Definition list_corruption : string := "list corruption".
Definition unlisted (id : nat) : prog UrbState unit := fun q =>
  (q, if on_a_list id q then Throw list_corruption else Ok tt).

(** [vds_usb_defer_feature_get] of the host controller's operations. *)
Definition hcd_defer_feature_get (id : nat) (report_id : Z) : prog Hcd Z :=
  s ← get_state;
  if negb (bool_decide (id ∈ hcpriv (q_urbs s))) then mret (- EINVAL)
  else if stopping (port s) then mret (- ESHUTDOWN)
  else
    on_urbs (_ ← unlisted id;
             _ ← update_context id (fun c => put_context_state VDS_URB_PENDING_FEATURE_GET (put_report_id report_id c));
             _ ← modify (fun q => put_pending_feature_get (pending_feature_get q ++ [id]) q);
             mret 0).

Definition hcd_set_status (flags : Z) (enabled : bool) : prog Hcd unit :=
  modify (put_port_with (vds_status_set_locked flags enabled)).

Definition vds_usb_ops : vds_usb_device_ops Hcd :=
  mk_ops (Some vds_enqueue_frame) (Some hcd_defer_feature_get) (Some hcd_set_status).

(** ** Giving URBs back *)

Definition ready_of (cs : gmap nat vds_urb_context) (id : nat) : Z :=
  match cs !! id with Some c => ready_time c | None => 0 end.

(** Where a context goes among those that are complete: one without a time before the first
    that has one, one with a time before the first that is due later. *)
Fixpoint insert_completed (cs : gmap nat vds_urb_context) (ready : Z) (id : nat) (l : list nat) : list nat :=
  match l with
  | [] => [id]
  | pos :: rest =>
      let r := ready_of cs pos in
      if (if ready =? 0 then negb (r =? 0) else negb (r =? 0) && (ready <? r)) then id :: pos :: rest
      else pos :: insert_completed cs ready id rest
  end.

Definition without (id : nat) (l : list nat) : list nat := filter (fun x => x <> id) l.
#[global] Arguments without : simpl never.
Definition list_del (id : nat) (q : UrbState) : UrbState :=
  put_completed (without id (completed_urbs q))
    (put_pending_feature_get (without id (pending_feature_get q))
       (put_pending_hid_in (without id (pending_hid_in q)) q)).

(** Whether the giveback thread is to be woken. *)
Definition vds_queue_urb_giveback_locked (id : nat) (status : Z) : prog UrbState bool :=
  c ← get_context id;
  if bool_decide (context_state c = VDS_URB_PENDING_GIVEBACK) || bool_decide (context_state c = VDS_URB_GIVING_BACK)
  then mret false
  else
    _ ← update_context id (fun c => put_context_state VDS_URB_PENDING_GIVEBACK (put_status status c));
    _ ← modify (list_del id);
    _ ← modify (fun q => put_hcpriv ({[id]} ∪ hcpriv q) q);
    _ ← modify (fun q => put_completed (insert_completed (contexts q) (ready_time c) id (completed_urbs q)) q);
    mret true.

(** The walks over a list that queue each of its contexts. *)
Fixpoint queue_all (status : nat -> prog UrbState Z) (ids : list nat) : prog UrbState bool :=
  match ids with
  | [] => mret false
  | id :: rest =>
      st ← status id;
      wake ← vds_queue_urb_giveback_locked id st;
      others ← queue_all status rest;
      mret (wake || others)
  end.

Definition vds_cancel_pending_urbs_locked (status : Z) : prog UrbState bool :=
  q ← get_state;
  hid ← queue_all (fun _ => mret status) (pending_hid_in q);
  q ← get_state;
  feature ← queue_all (fun _ => mret status) (pending_feature_get q);
  mret (hid || feature).

Definition vds_flush_buffered_frames_locked (s : Hcd) : Hcd :=
  let e := q_events s in
  put_q_events (mk_events [] 0 (next_sequence e) (frames_to_user e)) (put_q_host (mk_host [] 0 [] 0 0) s).

Definition vds_queue_urb_giveback (id : nat) (status : Z) : prog Hcd bool :=
  on_urbs (vds_queue_urb_giveback_locked id status).

(** ** Isochronous transfers *)

Definition iso_out_of_range (tbl : Z) (d : iso_packet) : bool :=
  (tbl <? offset d) || (tbl - offset d <? iso_length d).

(** The packets of an OUT transfer: their results, the pieces of the buffer that are sent, each
    an offset and a length, the bytes in total, and the number of errors.  [chunk] is the
    piece that is being gathered, with the offset of what would continue it. *)
Fixpoint iso_out_loop (tbl : Z) (chunk : option (Z * Z * Z)) (total errors : Z) (ds : list iso_packet) :
    list iso_packet * list (Z * Z) * Z * Z :=
  match ds with
  | [] => ([], match chunk with Some (start, len, _) => [(start, len)] | None => [] end, total, errors)
  | d :: rest =>
      if iso_out_of_range tbl d then
        let '(done, pieces, t, e) := iso_out_loop tbl chunk total (errors + 1) rest in
        (mk_iso (offset d) (iso_length d) 0 (- EOVERFLOW) :: done, pieces, t, e)
      else
        let d' := mk_iso (offset d) (iso_length d) (iso_length d) 0 in
        let total := u32 (total + iso_length d) in
        let fresh := Some (offset d, iso_length d, offset d + iso_length d) in
        let '(flushed, chunk) :=
          if iso_length d =? 0 then ([], chunk)
          else
            match chunk with
            | None => ([], fresh)
            | Some (start, len, next) =>
                if (offset d =? next) && (len + iso_length d <=? Z.of_nat VDS_FRAME_MAX_PAYLOAD)
                then ([], Some (start, len + iso_length d, next + iso_length d))
                else ([(start, len)], fresh)
            end in
        let '(done, pieces, t, e) := iso_out_loop tbl chunk total errors rest in
        (d' :: done, flushed ++ pieces, t, e)
  end.

Definition piece (buffer : list Z) (p : Z * Z) : list Z := take (Z.to_nat p.2) (drop (Z.to_nat p.1) buffer).

Fixpoint enqueue_pieces (buffer : list Z) (pieces : list (Z * Z)) : thread Hcd unit :=
  match pieces with
  | [] => mret tt
  | p :: rest => _ ← locked (vds_enqueue_frame VDS_FRAME_USB_AUDIO_OUT (piece buffer p)); enqueue_pieces buffer rest
  end.

Definition vds_iso_out_urb (id : nat) : thread Hcd Z :=
  u ← read_urb id;
  match transfer_buffer u with
  | None => mret (- EPIPE)
  | Some buffer =>
      let '(done, pieces, total, errors) := iso_out_loop (transfer_buffer_length u) None 0 0 (iso_frame_desc u) in
      _ ← enqueue_pieces buffer pieces;
      urb_access id (fun u => (put_actual total (put_iso done errors u), 0))
  end.

(** [vds_fill_audio_in_locked]: the bytes of the packets that are copied, the packets that
    remain, and what is left of the two counters. *)
Fixpoint fill_audio_in (need : nat) (packets : list (nat * list Z)) (count queued : Z) :
    list Z * list (nat * list Z) * Z * Z :=
  match packets with
  | [] => ([], [], count, queued)
  | (off, payload) :: rest =>
      if (need =? 0)%nat then ([], packets, count, queued)
      else
        let copy_len := Nat.min need (length payload - off) in
        let copied := take copy_len (drop off payload) in
        let queued := if Z.of_nat copy_len <? queued then queued - Z.of_nat copy_len else 0 in
        if (off + copy_len =? length payload)%nat then
          let '(more, kept, count, queued) := fill_audio_in (need - copy_len) rest (count - 1) queued in
          (copied ++ more, kept, count, queued)
        else (copied, ((off + copy_len)%nat, payload) :: rest, count, queued)
  end.
Definition vds_fill_audio_in_locked (length_ : nat) (h : HostState) : HostState * list Z :=
  let '(copied, kept, count, queued) :=
    fill_audio_in length_ (audio_in_packets h) (audio_in_packet_count h) (audio_in_queued_bytes h) in
  (mk_host (input_packets h) (input_packet_count h) kept count queued,
   copied ++ replicate (length_ - length copied) 0).

Fixpoint iso_in_loop (tbl : Z) (buffer : list Z) (total errors : Z) (ds : list iso_packet) (h : HostState) :
    HostState * list Z * list iso_packet * Z * Z :=
  match ds with
  | [] => (h, buffer, [], total, errors)
  | d :: rest =>
      if iso_out_of_range tbl d then
        let '(h, buffer, done, t, e) := iso_in_loop tbl buffer total (errors + 1) rest h in
        (h, buffer, mk_iso (offset d) (iso_length d) 0 (- EOVERFLOW) :: done, t, e)
      else
        let n := Z.min (iso_length d) VDS_AUDIO_IN_BYTES_PER_MS in
        let '(h, data) := vds_fill_audio_in_locked (Z.to_nat n) h in
        let buffer := copy_into buffer (Z.to_nat (offset d)) data in
        let '(h, buffer, done, t, e) := iso_in_loop tbl buffer (u32 (total + n)) errors rest h in
        (h, buffer, mk_iso (offset d) (iso_length d) n 0 :: done, t, e)
  end.

Definition vds_iso_in_urb (id : nat) : thread Hcd Z :=
  locked (fun s =>
    match urb_store (q_urbs s) !! id with
    | None => (s, Throw use_after_free)
    | Some u =>
        match transfer_buffer u with
        | None => (s, Ok (- EPIPE))
        | Some buffer =>
            let '(h, buffer, done, total, errors) :=
              iso_in_loop (transfer_buffer_length u) buffer 0 0 (iso_frame_desc u) (q_host s) in
            let u := put_actual total (put_iso done errors (put_buffer (Some buffer) u)) in
            (put_q_host h (put_q_urbs (put_store (<[id := u]> (urb_store (q_urbs s))) (q_urbs s)) s), Ok 0)
        end
    end).

(** ** The giveback thread *)

(** What it finds: the thread ends, looks again, sleeps until a time, or gives a URB back. *)
Inductive giveback_next := Ends | Again | SleepUntil (expires : Z) | Deliver (id : nat) (status : Z) (out in_ : bool).

(** [ktime_us_delta] *)
Definition ktime_us_delta (later earlier : Z) : Z := Z.quot (later - earlier) 1000.

Definition giveback_pick (should_stop : bool) : prog Hcd giveback_next :=
  s ← get_state;
  match completed_urbs (q_urbs s) with
  | [] => mret (if should_stop then Ends else Again)
  | id :: _ =>
      c ← on_urbs (get_context id);
      if negb (ready_time c =? 0) && (0 <? ktime_us_delta (ready_time c) (now (clock s)))
      then mret (SleepUntil (ready_time c))
      else
        _ ← on_urbs (modify (fun q => put_completed (without id (completed_urbs q)) q));
        _ ← on_urbs (update_context id (put_context_state VDS_URB_GIVING_BACK));
        _ ← on_urbs (modify (fun q => put_hcpriv (hcpriv q ∖ {[id]}) q));
        mret (Deliver id (context_status c) (deliver_iso_out c) (deliver_iso_in c))
  end.

(** [usb_hcd_giveback_urb] and [kfree]: the URB is the USB core's again, and its context, which
    must be on no list, is freed. *)
Definition usb_hcd_giveback_urb (id : nat) (status : Z) : prog Hcd unit :=
  on_urbs (
    _ ← unlisted id;
    q ← get_state;
    match urb_store q !! id with
    | None => throw use_after_free
    | Some u =>
        modify (fun q => mk_urbs (delete id (urb_store q)) (delete id (contexts q)) (hcpriv q ∖ {[id]}) (next_urb q)
                           (pending_hid_in q) (pending_feature_get q) (completed_urbs q)
                           (given_back q ++ [(id, status, u)]))
    end).

Definition deliver_urb (id : nat) (status : Z) (out in_ : bool) : thread Hcd unit :=
  status ← (if (status =? 0) && out then vds_iso_out_urb id else mret status);
  status ← (if (status =? 0) && in_ then vds_iso_in_urb id else mret status);
  locked (usb_hcd_giveback_urb id status).

(** A round of the loop, behind its wait. *)
Definition vds_giveback_round (should_stop : bool) : thread Hcd giveback_next :=
  next ← locked (giveback_pick should_stop);
  match next with
  | Deliver id status out in_ => _ ← deliver_urb id status out in_; mret next
  | _ => mret next
  end.

(** ** Input reports *)

Definition vds_fill_hid_in_urb (u : urb) (payload : list Z) : urb :=
  copy_out u payload (Nat.min (length payload) (Z.to_nat (transfer_buffer_length u))).

Definition vds_schedule_hid_in_giveback_locked (id : nat) : prog Hcd unit :=
  s ← get_state;
  let interval := hid_in_interval_us (vds_usb_device_profile (usb_dev s)) in
  let c := clock s in
  let base := if now c <? next_hid_in_ready c then next_hid_in_ready c else now c in
  let ready := base + interval * 1000 in
  _ ← on_urbs (update_context id (put_ready ready));
  modify (put_clock (mk_clock (now c) (next_iso_out_ready c) (next_iso_in_ready c) ready)).

Definition fill_urb (id : nat) (payload : list Z) : prog Hcd unit :=
  on_urb id (fun u => (vds_fill_hid_in_urb u payload, tt)).

(** Whether a URB that waits for input was completed. *)
Definition vds_complete_pending_input_locked (payload : list Z) : prog Hcd bool :=
  s ← get_state;
  match pending_hid_in (q_urbs s) with
  | [] => mret false
  | pending :: _ =>
      _ ← fill_urb pending payload;
      _ ← vds_schedule_hid_in_giveback_locked pending;
      _ ← vds_queue_urb_giveback pending 0;
      mret true
  end.

(** The newest report replaces the one that waits. *)
Definition vds_queue_input_packet_locked (payload : list Z) : prog Hcd Z :=
  s ← get_state;
  let h := q_host s in
  match reverse (input_packets h) with
  | _ :: before =>
      _ ← modify (put_q_host (mk_host (reverse (payload :: before)) (input_packet_count h) (audio_in_packets h)
                                (audio_in_packet_count h) (audio_in_queued_bytes h)));
      mret 0
  | [] =>
      allocated ← kmalloc;
      if negb allocated then mret (- ENOMEM)
      else
        _ ← modify (put_q_host (mk_host [payload] (input_packet_count h + 1) (audio_in_packets h)
                                  (audio_in_packet_count h) (audio_in_queued_bytes h)));
        mret 0
  end.

Definition vds_write_input_frame (payload : list Z) : prog Hcd Z :=
  if (length payload =? 0)%nat || (VDS_CONTROLLER_HID_PACKET_SIZE <? length payload)%nat then mret (- EINVAL)
  else
    s ← get_state;
    if stopping (port s) then mret (- ESHUTDOWN)
    else
      completed ← vds_complete_pending_input_locked payload;
      ret ← (if (completed : bool) then mret 0 else vds_queue_input_packet_locked payload);
      _ ← (if ret =? 0 then modify (put_port_with count_from_user) else mret tt);
      mret ret.

(** ** Feature replies *)

Definition vds_fill_feature_urb (u : urb) (payload : list Z) : urb * Z := vds_usb_copy_to_urb u payload.

Definition fill_feature (payload : list Z) (id : nat) : prog UrbState Z := fun q =>
  match urb_store q !! id with
  | None => (q, Throw use_after_free)
  | Some u => let '(u, st) := vds_fill_feature_urb u payload in (put_store (<[id := u]> (urb_store q)) q, Ok st)
  end.

Definition waits_for_report (report_id : Z) (q : UrbState) (id : nat) : bool :=
  match contexts q !! id with Some c => feature_report_id c =? report_id | None => false end.
Definition vds_complete_pending_feature_replies_locked (payload : list Z) : prog UrbState bool :=
  q ← get_state;
  queue_all (fill_feature payload) (filter (fun id => waits_for_report (byte_at payload 0) q id = true) (pending_feature_get q)).

Definition vds_write_feature_reply (payload : list Z) : thread Hcd Z :=
  ret ← usb_section (vds_usb_device_update_feature_reply payload);
  if negb (ret =? 0) then mret ret
  else
    locked (s ← get_state;
            if stopping (port s) then mret (- ESHUTDOWN)
            else
              _ ← on_urbs (vds_complete_pending_feature_replies_locked payload);
              _ ← modify (put_port_with count_from_user);
              mret 0).

(** ** Microphone packets *)

(** The oldest packets go until there is room. *)
Fixpoint drop_oldest (length_ : Z) (packets : list (nat * list Z)) (count queued : Z) :
    list (nat * list Z) * Z * Z :=
  match packets with
  | [] => ([], count, queued)
  | (off, payload) :: rest =>
      if VDS_AUDIO_IN_QUEUE_MAX_BYTES <? u32 (queued + length_) then
        let available := Z.of_nat (length payload) - Z.of_nat off in
        drop_oldest length_ rest (count - 1) (if available <? queued then queued - available else 0)
      else (packets, count, queued)
  end.

Definition vds_write_audio_in_frame (payload : list Z) : prog Hcd Z :=
  if (length payload =? 0)%nat then mret (- EINVAL)
  else
    allocated ← kmalloc;
    if negb allocated then mret (- ENOMEM)
    else
      s ← get_state;
      if stopping (port s) then mret (- ESHUTDOWN)
      else
        let h := q_host s in
        let n := Z.of_nat (length payload) in
        let '(packets, count, queued) :=
          drop_oldest n (audio_in_packets h) (audio_in_packet_count h) (audio_in_queued_bytes h) in
        _ ← modify (put_q_host (mk_host (input_packets h) (input_packet_count h) (packets ++ [(0%nat, payload)])
                                  (count + 1) (u32 (queued + n))));
        _ ← modify (put_port_with count_from_user);
        mret 0.

(** ** The character device *)

(** [vds_write]: [fault] when the header cannot be copied, [dup] the error of [memdup_user]. *)
Definition vds_write (bytes : list Z) (fault : bool) (dup : option Z) : thread Hcd Z :=
  if (length bytes <? frame_header_size)%nat then mret (- EINVAL)
  else
    stopped ← locked vds_is_stopping;
    if (stopped : bool) then mret (- ESHUTDOWN)
    else if fault then mret (- EFAULT)
    else
      let header := decode_header bytes in
      let payload := drop frame_header_size bytes in
      if (Z.of_nat VDS_FRAME_MAX_PAYLOAD <? header_length header)
         || negb (Z.of_nat (length bytes) =? Z.of_nat frame_header_size + header_length header) then mret (- EINVAL)
      else if negb (flags header =? 0) then mret (- EINVAL)
      else if negb (type header =? VDS_FRAME_USB_HID_IN) && negb (type header =? VDS_FRAME_USB_FEATURE_REPLY)
              && negb (type header =? VDS_FRAME_USB_AUDIO_IN) then mret (- EINVAL)
      else
        match (if header_length header =? 0 then None else dup) with
        | Some e => mret (- e)
        | None =>
            ret ← (if type header =? VDS_FRAME_USB_HID_IN then locked (vds_write_input_frame payload)
                   else if type header =? VDS_FRAME_USB_FEATURE_REPLY then vds_write_feature_reply payload
                   else locked (vds_write_audio_in_frame payload));
            mret (if negb (ret =? 0) then ret else Z.of_nat (length bytes))
        end.

(** [vds_read]: it still waits, or the error, or the bytes of a frame. *)
Inductive read_outcome := ReadWaits | ReadFails (error : Z) | ReadFrame (bytes : list Z).

(** The frame that is taken off the queue; a copy that fails loses it. *)
Definition take_event (count : Z) (copy_fails : bool) : prog Hcd read_outcome :=
  s ← get_state;
  let e := q_events s in
  match events e with
  | [] => mret (ReadFails (if stopping (port s) then - ESHUTDOWN else - EAGAIN))
  | (header, payload) :: rest =>
      if count <? Z.of_nat frame_header_size + header_length header then mret (ReadFails (- EMSGSIZE))
      else
        _ ← modify (put_q_events (mk_events rest (event_count e - 1) (next_sequence e) (frames_to_user e)));
        mret (if copy_fails then ReadFails (- EFAULT) else ReadFrame (encode_header header ++ payload))
  end.

(** [interrupted]: the error of a wait that a signal ends. *)
Definition vds_read (nonblock : bool) (interrupted : option Z) (count : Z) (copy_fails : bool) : thread Hcd read_outcome :=
  nothing ← (if nonblock
             then locked (s ← get_state;
                          mret (bool_decide (events (q_events s) = []) && negb (stopping (port s))))
             else mret false);
  if (nothing : bool) then mret (ReadFails (- EAGAIN))
  else
    ready ← locked (s ← get_state; mret (vds_read_ready s));
    if negb ready then mret (match interrupted with Some e => ReadFails (- e) | None => ReadWaits end)
    else locked (take_event count copy_fails).

Definition vds_poll (s : Hcd) : Z :=
  let mask := Z.lor EPOLLOUT EPOLLWRNORM in
  let mask := if negb (bool_decide (events (q_events s) = [])) then Z.lor mask (Z.lor EPOLLIN EPOLLRDNORM) else mask in
  if stopping (port s) then Z.lor mask EPOLLHUP else mask.

(** Connecting: the bits of the port. *)
Definition connect_port (p : PortState) : PortState :=
  let was_connected := negb (Z.land (port_status p) USB_PORT_STAT_CONNECTION =? 0) in
  let st := Z.lor (port_status p) (Z.lor USB_PORT_STAT_POWER USB_PORT_STAT_CONNECTION) in
  let st := if was_connected then st else Z.lor st (Z.shiftl USB_PORT_STAT_C_CONNECTION 16) in
  vds_status_set_locked VDS_STATUS_CONNECTED true (put_port_status st p).
Definition disconnect_port (p : PortState) : PortState :=
  let was_connected := negb (Z.land (port_status p) USB_PORT_STAT_CONNECTION =? 0) in
  let st := Z.ldiff (port_status p) (Z.lor (Z.lor USB_PORT_STAT_CONNECTION USB_PORT_STAT_ENABLE) USB_PORT_STAT_HIGH_SPEED) in
  let st := if was_connected then Z.lor st (Z.shiftl USB_PORT_STAT_C_CONNECTION 16) else st in
  vds_status_set_locked
    (Z.lor (Z.lor (Z.lor VDS_STATUS_CONNECTED VDS_STATUS_CONFIGURED) VDS_STATUS_HID_ENABLED) VDS_STATUS_AUDIO_ENABLED)
    false (put_port_status st p).
Definition reset_pacing (s : Hcd) : Hcd := put_clock (mk_clock (now (clock s)) 0 0 0) s.

(** The section of [vds_set_connection]; whether the device is to be reset behind it. *)
Definition set_connection (connected : bool) : prog Hcd bool :=
  s ← get_state;
  if stopping (port s) then mret false
  else if connected then _ ← modify (put_port_with connect_port); mret false
  else
    _ ← on_urbs (vds_cancel_pending_urbs_locked (- ESHUTDOWN));
    _ ← modify vds_flush_buffered_frames_locked;
    _ ← modify reset_pacing;
    _ ← modify (put_port_with disconnect_port);
    mret true.
Definition vds_set_connection (connected : bool) : thread Hcd unit :=
  reset_usb ← locked (set_connection connected);
  if (reset_usb : bool) then usb_section (fun d => (vds_usb_device_reset_state d, tt)) else mret tt.

Inductive ioctl :=
  | VDS_IOC_GET_STATUS
  | VDS_IOC_GET_DRIVER_INFO
  | VDS_IOC_SET_PROFILE (profile_ polling_rate_mode : Z)
  | VDS_IOC_CONNECT
  | VDS_IOC_DISCONNECT
  | OtherIoctl.

Definition encode_status (s : Hcd) : list Z :=
  le_bytes 4 (status_flags (port s)) ++ le_bytes 4 (profile (usb_dev s))
  ++ le_bytes 8 (frames_to_user (q_events s)) ++ le_bytes 8 (frames_from_user (port s)).
(** [strscpy] of the version into a buffer of zeros. *)
Definition encode_driver_info (version : list Z) : list Z :=
  let text := take (VDS_DRIVER_VERSION_MAX - 1) version in
  le_bytes 4 VDS_DRIVER_INFO_VERSION ++ le_bytes 4 72 ++ text ++ replicate (VDS_DRIVER_VERSION_MAX - length text) 0.

Definition set_profile (p polling_rate_mode : Z) : prog Hcd Z :=
  if negb (polling_rate_mode =? 0) then mret (- EOPNOTSUPP)
  else
    s ← get_state;
    if negb (Z.land (status_flags (port s)) VDS_STATUS_CONNECTED =? 0) then mret (- EBUSY)
    else
      let '(d, ret) := vds_usb_device_set_profile p (usb_dev s) in
      _ ← modify (put_usb_dev d);
      if negb (ret =? 0) then mret ret
      else
        _ ← modify (put_port_with (vds_status_set_locked
              (Z.lor (Z.lor VDS_STATUS_CONFIGURED VDS_STATUS_HID_ENABLED) VDS_STATUS_AUDIO_ENABLED) false));
        mret 0.

(** [version] is the text of [VDS_VERSION], [fault] whether a copy from or to user space fails;
    what is returned, and what is copied to the caller. *)
Definition vds_ioctl (version : list Z) (cmd : ioctl) (fault : bool) : thread Hcd (Z * list Z) :=
  let out data := if fault then (- EFAULT, []) else (0, data) in
  match cmd with
  | VDS_IOC_GET_STATUS => locked (s ← get_state; mret (out (encode_status s)))
  | VDS_IOC_GET_DRIVER_INFO => mret (out (encode_driver_info version))
  | _ =>
      stopped ← locked vds_is_stopping;
      if (stopped : bool) then mret (- ESHUTDOWN, [])
      else
        match cmd with
        | VDS_IOC_SET_PROFILE p mode =>
            if fault then mret (- EFAULT, [])
            else ret ← locked (set_profile p mode); mret (ret, [])
        | VDS_IOC_CONNECT => _ ← vds_set_connection true; mret (0, [])
        | VDS_IOC_DISCONNECT => _ ← vds_set_connection false; mret (0, [])
        | _ => mret (- ENOTTY, [])
        end
  end.

Definition vds_open : prog Hcd Z :=
  s ← get_state;
  if opened (port s) then mret (- EBUSY)
  else _ ← modify (put_port_with (put_opened true)); mret 0.

Definition vds_release : thread Hcd Z :=
  disconnect ← locked (s ← get_state;
                       _ ← modify (put_port_with (put_opened false));
                       mret (negb (Z.land (status_flags (port s)) VDS_STATUS_CONNECTED =? 0)));
  _ ← (if (disconnect : bool) then vds_set_connection false else mret tt);
  mret 0.

(** ** Submitting and unlinking URBs *)

Fixpoint iso_total (input : bool) (ds : list iso_packet) (total : Z) : Z :=
  match ds with
  | [] => total
  | d :: rest =>
      iso_total input rest
        (u32 (total + (if input then Z.min (iso_length d) VDS_AUDIO_IN_BYTES_PER_MS else iso_length d)))
  end.
(** The microseconds a transfer takes. *)
Definition iso_duration_us (input : bool) (ds : list iso_packet) : Z :=
  let total := iso_total input ds 0 in
  if total =? 0 then u32 (Z.max (Z.of_nat (length ds)) 1 * 1000)
  else
    let bytes_per_ms := if input then VDS_AUDIO_IN_BYTES_PER_MS else VDS_AUDIO_OUT_BYTES_PER_MS in
    Z.max (u32 ((total * 1000 + bytes_per_ms - 1) / bytes_per_ms)) 1000.

Definition vds_schedule_iso_giveback (id : nat) (u : urb) (input : bool) : prog Hcd unit :=
  let duration_us := iso_duration_us input (iso_frame_desc u) in
  s ← get_state;
  let c := clock s in
  let next_ready := if input then next_iso_in_ready c else next_iso_out_ready c in
  let base := if now c <? next_ready then next_ready else now c in
  let ready := base + duration_us * 1000 in
  _ ← on_urb id (fun u => (put_start_frame (s32 (base / 1000000)) u, tt));
  _ ← on_urbs (update_context id (put_ready ready));
  modify (put_clock (if input then mk_clock (now c) (next_iso_out_ready c) ready (next_hid_in_ready c)
                     else mk_clock (now c) ready (next_iso_in_ready c) (next_hid_in_ready c))).

Definition vds_interrupt_out_urb (id : nat) : thread Hcd Z :=
  u ← read_urb id;
  let n := transfer_buffer_length u in
  if n =? 0 then urb_access id (fun u => (put_actual 0 u, 0))
  else
    match transfer_buffer u with
    | None => mret (- EPIPE)
    | Some buffer =>
        if Z.of_nat VDS_CONTROLLER_HID_PACKET_SIZE <? n then mret (- EPIPE)
        else
          _ ← locked (vds_enqueue_frame VDS_FRAME_USB_HID_OUT (take (Z.to_nat n) buffer));
          urb_access id (fun u => (put_actual n u, 0))
    end.

Definition vds_interrupt_in_urb (id : nat) : prog Hcd Z :=
  s ← get_state;
  let h := q_host s in
  match input_packets h with
  | packet :: rest =>
      _ ← modify (put_q_host (mk_host rest (input_packet_count h - 1) (audio_in_packets h) (audio_in_packet_count h)
                                (audio_in_queued_bytes h)));
      _ ← fill_urb id packet;
      _ ← vds_schedule_hid_in_giveback_locked id;
      mret 0
  | [] =>
      on_urbs (_ ← unlisted id;
               _ ← update_context id (put_context_state VDS_URB_PENDING_HID_IN);
               _ ← modify (fun q => put_pending_hid_in (pending_hid_in q ++ [id]) q);
               mret (- EINPROGRESS))
  end.

(** The first part of [vds_urb_enqueue]: the number the URB gets, or the error.  [link] is what
    [usb_hcd_link_urb_to_ep] answers. *)
Definition link_urb (u : urb) (link : Z) : prog Hcd (Z + nat) :=
  allocated ← kmalloc;
  if negb allocated then mret (inl (- ENOMEM))
  else
    s ← get_state;
    if stopping (port s) then mret (inl (- ESHUTDOWN))
    else if negb (link =? 0) then mret (inl link)
    else
      let q := q_urbs s in
      let id := next_urb q in
      _ ← modify (put_q_urbs (mk_urbs (<[id := u]> (urb_store q))
                                (<[id := mk_context 0 0 0 VDS_URB_ACTIVE false false]> (contexts q))
                                ({[id]} ∪ hcpriv q) (S id) (pending_hid_in q) (pending_feature_get q)
                                (completed_urbs q) (given_back q)));
      mret (inr id).

(** Marks a transfer to be carried out when it is given back, with its time. *)
Definition time_iso (id : nat) (u : urb) (input : bool) : thread Hcd Z :=
  _ ← locked (on_urbs (update_context id (put_deliver (negb input) input)));
  _ ← locked (vds_schedule_iso_giveback id u input);
  mret 0.

(** The switch over the kind of the pipe. *)
Definition dispatch_urb (id : nat) (u : urb) : thread Hcd Z :=
  let endpoint := urb_endpoint u in
  d ← usb_section (fun d => (d, d));
  match urb_pipe_type u with
  | PIPE_CONTROL => vds_usb_device_control_urb (Some vds_usb_ops) id
  | PIPE_INTERRUPT =>
      if urb_dir_in u && vds_usb_device_is_hid_in d endpoint then locked (vds_interrupt_in_urb id)
      else if negb (urb_dir_in u) && vds_usb_device_is_hid_out d endpoint then vds_interrupt_out_urb id
      else mret (- EPIPE)
  | PIPE_ISOCHRONOUS =>
      if negb (urb_dir_in u) && vds_usb_device_is_audio_out d endpoint then
        if bool_decide (is_Some (transfer_buffer u)) then time_iso id u false else mret (- EPIPE)
      else if urb_dir_in u && vds_usb_device_is_audio_in d endpoint then
        if bool_decide (is_Some (transfer_buffer u)) then time_iso id u true else mret (- EPIPE)
      else mret (- EPIPE)
  | PIPE_BULK => mret (- EPIPE)
  end.

(** Whether a transfer that is under way is left to whoever completes it. *)
Definition left_pending (u : urb) (ret : Z) : bool :=
  (ret =? - EINPROGRESS) && match urb_pipe_type u with PIPE_CONTROL | PIPE_INTERRUPT => true | _ => false end.

Definition vds_urb_enqueue (u : urb) (link : Z) : thread Hcd Z :=
  linked ← locked (link_urb u link);
  match linked with
  | inl error => mret error
  | inr id =>
      ret ← dispatch_urb id u;
      if left_pending u ret then mret 0
      else _ ← locked (vds_queue_urb_giveback id ret); mret 0
  end.

(** [check] is what [usb_hcd_check_unlink_urb] answers. *)
Definition vds_urb_dequeue (id : nat) (check status : Z) : prog Hcd Z :=
  if negb (check =? 0) then mret check
  else
    s ← get_state;
    if negb (bool_decide (id ∈ hcpriv (q_urbs s))) then mret 0
    else
      c ← on_urbs (get_context id);
      _ ← (if bool_decide (context_state c = VDS_URB_PENDING_GIVEBACK)
           then _ ← on_urbs (update_context id (fun c => put_ready 0 (put_status status c))); mret true
           else vds_queue_urb_giveback id status);
      mret 0.

(** ** The root hub *)

Definition vds_get_frame_number (s : Hcd) : Z := s32 (now (clock s) / 1000000).

Definition hub_descriptor : list Z :=
  [9; USB_DT_HUB; 1] ++ le_bytes 2 (Z.lor HUB_CHAR_INDV_PORT_LPSM HUB_CHAR_COMMON_OCPM) ++ [0; 0; 0x00; 0xff].

(** The byte of the changes and its length. *)
Definition vds_hub_status_data (s : Hcd) : option Z * Z :=
  if negb (Z.land (port_status (port s)) PORT_C_MASK =? 0) then (Some 2, 1) else (None, 0).

(** What is copied to the caller, if anything is, and what is returned. *)
Definition vds_hub_control (type_req value index : Z) : prog Hcd (list Z * Z) :=
  s ← get_state;
  let st := port_status (port s) in
  let set st := modify (put_port_with (put_port_status st)) in
  if type_req =? ClearHubFeature then mret ([], 0)
  else if type_req =? GetHubDescriptor then mret (hub_descriptor, 0)
  else if type_req =? GetHubStatus then mret (le_bytes 4 0, 0)
  else if type_req =? GetPortStatus then
    if negb (index =? 1) then mret ([], - EPIPE)
    else mret (le_bytes 2 st ++ le_bytes 2 (Z.shiftr st 16), 0)
  else if type_req =? ClearPortFeature then
    if negb (index =? 1) then mret ([], - EPIPE)
    else if value =? USB_PORT_FEAT_ENABLE then _ ← set (Z.ldiff st USB_PORT_STAT_ENABLE); mret ([], 0)
    else if value =? USB_PORT_FEAT_POWER then _ ← set (Z.ldiff st USB_PORT_STAT_POWER); mret ([], 0)
    else if (USB_PORT_FEAT_C_CONNECTION <=? value) && (value <=? USB_PORT_FEAT_C_RESET) then
      _ ← set (Z.ldiff st (Z.shiftl 1 value)); mret ([], 0)
    else mret ([], - EPIPE)
  else if type_req =? SetPortFeature then
    if negb (index =? 1) then mret ([], - EPIPE)
    else if value =? USB_PORT_FEAT_POWER then _ ← set (Z.lor st USB_PORT_STAT_POWER); mret ([], 0)
    else if value =? USB_PORT_FEAT_RESET then
      if negb (Z.land st USB_PORT_STAT_CONNECTION =? 0) then
        _ ← set (Z.lor (Z.ldiff st USB_PORT_STAT_RESET)
                   (Z.lor (Z.lor USB_PORT_STAT_ENABLE USB_PORT_STAT_HIGH_SPEED) (Z.shiftl USB_PORT_STAT_C_RESET 16)));
        mret ([], 0)
      else mret ([], 0)
    else mret ([], - EPIPE)
  else mret ([], - EPIPE).

Definition vds_hcd_start : prog Hcd Z :=
  _ ← modify reset_pacing;
  _ ← modify (put_port_with (fun p =>
        vds_status_set_locked VDS_STATUS_CONNECTED false (put_port_status USB_PORT_STAT_POWER (put_stopping false p))));
  mret 0.

Definition vds_hcd_stop : prog Hcd unit :=
  _ ← modify (put_port_with (put_stopping true));
  _ ← on_urbs (vds_cancel_pending_urbs_locked (- ESHUTDOWN));
  _ ← modify vds_flush_buffered_frames_locked;
  modify (put_port_with (fun p => mk_port 0 (port_status p) (stopping p) (opened p) (frames_from_user p))).

(** Fields of the USB core that nothing else of the module looks at. *)
Inductive hc_state := HC_STATE_RUNNING | HC_STATE_SUSPENDED.
Definition vds_bus_suspend (h : hc_state) : hc_state * Z := (HC_STATE_SUSPENDED, 0).
Definition vds_bus_resume (h : hc_state) : hc_state * Z := (HC_STATE_RUNNING, 0).

(** ** Loading and unloading *)

(** What the module has registered: the driver, the array of its devices, how many of it are
    in use, and the devices the system has. *)
Record Registration := mk_registration {
  driver_registered : bool;
  vds_hcd_platform_devices : option (list nat);
  vds_hcd_port_count : nat;
  devices_present : gset nat
}.
Definition nothing_registered : Registration := mk_registration false None 0 ∅.

(** The loop that unregisters the devices from the last to the first. *)
Fixpoint unregister_devices (count : nat) (r : Registration) : Registration :=
  match count with
  | O => mk_registration (driver_registered r) (vds_hcd_platform_devices r) 0 (devices_present r)
  | S n =>
      let pdev := default [] (vds_hcd_platform_devices r) !! n in
      unregister_devices n
        (mk_registration (driver_registered r) (vds_hcd_platform_devices r) n
           (match pdev with Some d => devices_present r ∖ {[d]} | None => devices_present r end))
  end.
(** [unregister_devices] and [unregister_driver]: what the unwinding and the exit have in common. *)
Definition free_devices (r : Registration) : Registration :=
  let r := unregister_devices (vds_hcd_port_count r) r in
  mk_registration (driver_registered r) None (vds_hcd_port_count r) (devices_present r).
Definition unregister_driver (r : Registration) : Registration :=
  mk_registration false (vds_hcd_platform_devices r) (vds_hcd_port_count r) (devices_present r).

(** The devices from number [i] on, [todo] of them; [answer] is 0 or the error for a device. *)
Fixpoint register_devices (answer : nat -> Z) (todo i : nat) (r : Registration) : Registration * Z :=
  match todo with
  | O => (r, 0)
  | S todo =>
      if negb (answer i =? 0) then (unregister_driver (free_devices r), answer i)
      else
        register_devices answer todo (S i)
          (mk_registration (driver_registered r) ((fun l => l ++ [i]) <$> vds_hcd_platform_devices r)
             (S (vds_hcd_port_count r)) ({[i]} ∪ devices_present r))
  end.

Definition vds_hcd_init (max_port : Z) (driver : Z) (allocated : bool) (answer : nat -> Z) (r : Registration) : Registration * Z :=
  if (max_port <? VDS_MIN_PORT_COUNT) || (VDS_MAX_PORT_COUNT <? max_port) then (r, - EINVAL)
  else if negb (driver =? 0) then (r, driver)
  else
    let r := mk_registration true (vds_hcd_platform_devices r) (vds_hcd_port_count r) (devices_present r) in
    if negb allocated then (unregister_driver r, - ENOMEM)
    else
      register_devices answer (Z.to_nat max_port) 0
        (mk_registration true (Some []) (vds_hcd_port_count r) (devices_present r)).
Definition vds_hcd_exit (r : Registration) : Registration := unregister_driver (free_devices r).

(** What a device holds: its host controller, the giveback thread, the bus, the character device. *)
Record Probed := mk_probed { hcd_created : bool; giveback_thread : bool; hcd_added : bool; misc_registered : bool }.
Definition not_probed : Probed := mk_probed false false false false.
Definition vds_hcd_probe (created : bool) (kthread add misc : Z) (p : Probed) : Probed * Z :=
  let put_hcd p := mk_probed false (giveback_thread p) (hcd_added p) (misc_registered p) in
  let stop_giveback p := put_hcd (mk_probed (hcd_created p) false (hcd_added p) (misc_registered p)) in
  let remove_hcd p := stop_giveback (mk_probed (hcd_created p) (giveback_thread p) false (misc_registered p)) in
  if negb created then (p, - ENOMEM)
  else
    let p := mk_probed true false false false in
    if negb (kthread =? 0) then (put_hcd p, kthread)
    else
      let p := mk_probed true true false false in
      if negb (add =? 0) then (stop_giveback p, add)
      else
        let p := mk_probed true true true false in
        if negb (misc =? 0) then (remove_hcd p, misc) else (mk_probed true true true true, 0).
Definition vds_hcd_remove (p : Probed) : Probed :=
  let p := mk_probed (hcd_created p) (giveback_thread p) (hcd_added p) false in
  let p := mk_probed (hcd_created p) (giveback_thread p) false (misc_registered p) in
  let p := mk_probed (hcd_created p) (if giveback_thread p then false else giveback_thread p) (hcd_added p) (misc_registered p) in
  mk_probed false (giveback_thread p) (hcd_added p) (misc_registered p).
