(* ===== verification/KernelInv.v ===== *)
(** The invariant of the kernel module's host controller, and that every step of every entry
    point keeps it. *)
From stdpp Require Import base list strings numbers gmap.
From Stdlib Require Import Ascii ZArith Lia.
From S2P Require Import Prelude Text Words BtPacket Profile UsbDescriptors Threads KernelUsb KernelHcd.

Local Open Scope Z_scope.

(** ** The invariant *)

(** The device: a profile there is, an address, one of two configurations and settings, and
    replies of the controller, each under its own report id. *)
Definition cached_ok (id : Z) (report : list Z) : Prop :=
  byte_at report 0 = id /\ (1 <= length report <= 64)%nat /\ bytes_ok report.
Record usb_ok (d : vds_usb_device) : Prop := {
  ok_profile : vds_usb_valid_profile (profile d) = true;
  ok_address : 0 <= address d < 128;
  ok_configuration : 0 <= configuration d <= 1;
  ok_audio_out : 0 <= audio_out_altsetting d <= 1;
  ok_audio_in : 0 <= audio_in_altsetting d <= 1;
  ok_idle : is_u8 (hid_idle d);
  ok_protocol : is_u8 (hid_protocol d);
  ok_mute : length (audio_mute d) = 2%nat /\ bytes_ok (audio_mute d);
  ok_volume : length (audio_volume d) = 2%nat /\ Forall is_s16 (audio_volume d);
  ok_cache : map_Forall cached_ok (feature_cache d)
}.

(** What the USB core promises of a URB. *)
Record urb_ok (u : urb) : Prop := {
  ok_setup : forall b, setup_packet u = Some b -> bytes_ok b;
  ok_length : is_u32 (transfer_buffer_length u);
  ok_buffer : forall b, transfer_buffer u = Some b -> Z.of_nat (length b) = transfer_buffer_length u /\ bytes_ok b;
  ok_iso : Forall (fun d => is_u32 (offset d) /\ is_u32 (iso_length d)) (iso_frame_desc u)
}.

(** The contexts on [l] are those in state [st]. *)
Definition listed (st : vds_urb_context_state) (l : list nat) (cs : gmap nat vds_urb_context) : Prop :=
  NoDup l /\ forall id, id ∈ l <-> exists c, cs !! id = Some c /\ context_state c = st.

(** Every URB that was accepted and not given back has one context, which is on the list its
    state says and on no other; a URB is given back once, and none is lost. *)
Record urbs_ok (q : UrbState) : Prop := {
  ok_store : map_Forall (fun _ u => urb_ok u) (urb_store q);
  ok_contexts : forall id, is_Some (urb_store q !! id) <-> is_Some (contexts q !! id);
  ok_next : forall id, is_Some (contexts q !! id) -> (id < next_urb q)%nat;
  ok_hid_in : listed VDS_URB_PENDING_HID_IN (pending_hid_in q) (contexts q);
  ok_feature_get : listed VDS_URB_PENDING_FEATURE_GET (pending_feature_get q) (contexts q);
  ok_completed : listed VDS_URB_PENDING_GIVEBACK (completed_urbs q) (contexts q);
  ok_hcpriv : forall id, id ∈ hcpriv q -> is_Some (contexts q !! id);
  ok_given : NoDup ((fun g => g.1.1) <$> given_back q)
    /\ forall g, g ∈ given_back q -> (g.1.1 < next_urb q)%nat /\ contexts q !! g.1.1 = None;
  ok_accounted : forall id, (id < next_urb q)%nat -> is_Some (contexts q !! id) \/ id ∈ (fun g => g.1.1) <$> given_back q
}.

(** Frames wait in the order of their numbers, which follow each other. *)
Definition frame_ok (f : vds_frame_header * list Z) : Prop :=
  header_length f.1 = Z.of_nat (length f.2) /\ (length f.2 <= VDS_FRAME_MAX_PAYLOAD)%nat
  /\ flags f.1 = 0 /\ 0 <= type f.1 <= 10 /\ is_u8 (type f.1) /\ bytes_ok f.2.
Record events_ok (e : EventState) : Prop := {
  ok_event_count : event_count e = Z.of_nat (length (events e));
  ok_event_bound : event_count e <= kMaxEvents;
  ok_frames : Forall frame_ok (events e);
  ok_sequence : 0 <= next_sequence e < 2 ^ 64
    /\ forall i f, events e !! i = Some f -> sequence f.1 = u64 (next_sequence e - event_count e + Z.of_nat i)
}.

(** The bytes of the microphone that wait. *)
Definition mic_stream (packets : list (nat * list Z)) : list Z := concat ((fun p => drop p.1 p.2) <$> packets).
#[global] Arguments mic_stream : simpl never.
Record host_ok (h : HostState) : Prop := {
  ok_input : (length (input_packets h) <= 1)%nat /\ input_packet_count h = Z.of_nat (length (input_packets h))
    /\ Forall (fun p => (1 <= length p <= 64)%nat /\ bytes_ok p) (input_packets h);
  ok_audio_packets : Forall (fun p => (p.1 < length p.2 <= VDS_FRAME_MAX_PAYLOAD)%nat /\ bytes_ok p.2) (audio_in_packets h);
  ok_audio_count : audio_in_packet_count h = Z.of_nat (length (audio_in_packets h));
  ok_audio_bytes : audio_in_queued_bytes h = Z.of_nat (length (mic_stream (audio_in_packets h)));
  ok_audio_bound : audio_in_queued_bytes h <= VDS_AUDIO_IN_QUEUE_MAX_BYTES
}.

Record hcd_ok (s : Hcd) : Prop := {
  ok_usb : usb_ok (usb_dev s);
  ok_urbs : urbs_ok (q_urbs s);
  ok_events : events_ok (q_events s);
  ok_host : host_ok (q_host s)
}.

Create HintDb kernel.

Lemma initial_listed st : listed st [] ∅.
Proof.
  split; [constructor|]. intros id. rewrite elem_of_nil. split; [done|]. intros (c & Hc & _). by rewrite lookup_empty in Hc.
Qed.
Lemma initial_hcd_ok time answers : hcd_ok (initial_hcd time answers).
Proof.
  split; cbn.
  - split; cbn; try done.
    + split; [done|]. by repeat constructor.
    + split; [done|]. by repeat constructor.
  - constructor; cbn.
    + apply map_Forall_empty.
    + intros id. by rewrite !lookup_empty.
    + intros id. rewrite lookup_empty. by intros [].
    + apply initial_listed.
    + apply initial_listed.
    + apply initial_listed.
    + intros id Hid. by apply elem_of_empty in Hid.
    + split; [constructor|]. intros g Hg. by apply elem_of_nil in Hg.
    + intros id. lia.
  - by split.
  - split; cbn; try done. split_and!; [lia|done|constructor].
Qed.

(** ** Sections that keep it *)

Section Keep.

Lemma ok_put_usb d s : hcd_ok s -> usb_ok d -> hcd_ok (put_usb_dev d s).
Proof. by intros [] ?. Qed.
Lemma ok_put_urbs q s : hcd_ok s -> urbs_ok q -> hcd_ok (put_q_urbs q s).
Proof. by intros [] ?. Qed.
Lemma ok_put_events e s : hcd_ok s -> events_ok e -> hcd_ok (put_q_events e s).
Proof. by intros [] ?. Qed.
Lemma ok_put_host h s : hcd_ok s -> host_ok h -> hcd_ok (put_q_host h s).
Proof. by intros [] ?. Qed.
Lemma ok_put_clock c s : hcd_ok s -> hcd_ok (put_clock c s).
Proof. by intros []. Qed.
Lemma ok_put_port p s : hcd_ok s -> hcd_ok (put_port p s).
Proof. by intros []. Qed.
Lemma ok_put_memory m s : hcd_ok s -> hcd_ok (put_memory m s).
Proof. by intros []. Qed.

Lemma gives_on_usb {A} (Q : A -> Prop) (f : vds_usb_device -> vds_usb_device * A) :
  (forall d, usb_ok d -> usb_ok (f d).1 /\ Q (f d).2) -> gives hcd_ok Q (on_usb f : prog Hcd A).
Proof.
  intros Hf s Hs. destruct (Hf (usb_dev s) (ok_usb s Hs)) as [H1 H2]. unfold on_usb. cbn [usb hcd_usb_host].
  destruct (f (usb_dev s)) as [d a]. cbn in *. split; [by apply ok_put_usb|]. by intros ? [= <-].
Qed.

Lemma put_store_ok q id u u' : urbs_ok q -> urb_store q !! id = Some u -> urb_ok u' -> urbs_ok (put_store (<[id := u']> (urb_store q)) q).
Proof.
  intros [] Hu Hu'. split; cbn; try done.
  - by apply map_Forall_insert_2.
  - intros i. rewrite <- ok_contexts0, lookup_insert_is_Some. split; [|by destruct (decide (id = i)); auto].
    intros [<-|[_ ?]]; [by eexists|done].
Qed.

Lemma gives_on_urb {A} (Q : A -> Prop) id (f : urb -> urb * A) :
  (forall u, urb_ok u -> urb_ok (f u).1 /\ Q (f u).2) -> gives hcd_ok Q (on_urb id f : prog Hcd A).
Proof.
  intros Hf s Hs. unfold on_urb. cbn [urbs put_urbs hcd_usb_host].
  destruct (urb_store (q_urbs s) !! id) as [u|] eqn:Hu; [|done].
  destruct (Hf u) as [H1 H2]; [by eapply (ok_store _ (ok_urbs _ Hs))|].
  destruct (f u) as [u' a]. cbn in *. split; [|by intros ? [= <-]].
  apply ok_put_urbs; [done|]. eapply put_store_ok; [apply Hs|done..].
Qed.

Lemma gives_on_urbs {A} (Q : A -> Prop) (m : prog UrbState A) : gives urbs_ok Q m -> gives hcd_ok Q (on_urbs m).
Proof.
  intros Hm s Hs. destruct (Hm (q_urbs s) (ok_urbs s Hs)) as [H1 H2]. unfold on_urbs.
  destruct (m (q_urbs s)) as [q r]. cbn in *. split; [by apply ok_put_urbs|done].
Qed.
End Keep.

(** A context changes its state, and the lists with it. *)
Definition moved (id : nat) (st st' : vds_urb_context_state) (l l' : list nat) : Prop :=
  NoDup l' /\ (forall x, x <> id -> (x ∈ l' <-> x ∈ l)) /\ (id ∈ l' <-> st' = st).

Lemma listed_moved st l l' cs id c :
  listed st l cs -> moved id st (context_state c) l l' -> listed st l' (<[id := c]> cs).
Proof.
  intros [_ Hl] (Hd & Hx & Hi). split; [done|]. intros x. destruct (decide (x = id)) as [->|Hn].
  - rewrite Hi, lookup_insert_eq. split; [intros; by exists c|by intros (? & [= <-] & ?)].
  - by rewrite Hx, Hl, lookup_insert_ne by done.
Qed.

Lemma move_ok q id c' priv hid feature done_ :
  urbs_ok q -> is_Some (contexts q !! id) -> priv ⊆ {[id]} ∪ hcpriv q ->
  moved id VDS_URB_PENDING_HID_IN (context_state c') (pending_hid_in q) hid ->
  moved id VDS_URB_PENDING_FEATURE_GET (context_state c') (pending_feature_get q) feature ->
  moved id VDS_URB_PENDING_GIVEBACK (context_state c') (completed_urbs q) done_ ->
  urbs_ok (mk_urbs (urb_store q) (<[id := c']> (contexts q)) priv (next_urb q) hid feature done_ (given_back q)).
Proof.
  intros [] Hc Hp H1 H2 H3.
  assert (forall x, is_Some (<[id := c']> (contexts q) !! x) <-> is_Some (contexts q !! x)) as Hs.
  { intros x. rewrite lookup_insert_is_Some. split; [by intros [<-|[_ ?]]|]. destruct (decide (id = x)); auto. }
  constructor; cbn; try done.
  - intros x. by rewrite Hs.
  - intros x. rewrite Hs. apply ok_next0.
  - by eapply listed_moved.
  - by eapply listed_moved.
  - by eapply listed_moved.
  - intros x Hx. rewrite Hs. apply Hp in Hx. apply elem_of_union in Hx as [->%elem_of_singleton|Hx]; auto.
  - destruct ok_given0 as [Hd Hg]. split; [done|]. intros g Hgg. destruct (Hg g Hgg) as [? Hn]. split; [done|].
    rewrite lookup_insert_ne; [done|]. intros ->. rewrite Hn in Hc. by destruct Hc.
  - intros x Hx. rewrite Hs. by apply ok_accounted0.
Qed.

(** How lists move. *)
Lemma elem_without id x l : x ∈ without id l <-> x <> id /\ x ∈ l.
Proof. unfold without. by rewrite list_elem_of_filter. Qed.
Lemma insert_completed_perm cs ready id l : insert_completed cs ready id l ≡ₚ id :: l.
Proof.
  induction l as [|pos l IH]; cbn; [done|]. repeat case_match; try done; by rewrite IH; apply perm_swap.
Qed.

Section Moves.
Context (q : UrbState) (Hq : urbs_ok q) (id : nat) (c : vds_urb_context) (Hc : contexts q !! id = Some c).
Implicit Types (st : vds_urb_context_state).

Lemma moved_same st st' l :
  listed st l (contexts q) -> (st' = st <-> context_state c = st) -> moved id st st' l l.
Proof.
  intros [Hd Hl] Hs. split_and!; [done|done|]. rewrite Hl, Hs. split; [by intros (? & [= <-]%(eq_trans (eq_sym Hc)) & ?)|eauto].
Qed.
Lemma moved_off st st' l : listed st l (contexts q) -> st' <> st -> moved id st st' l (without id l).
Proof.
  intros [Hd _] Hs. split_and!; [by apply NoDup_filter| |].
  - intros x Hx. rewrite elem_without. intuition congruence.
  - rewrite elem_without. intuition congruence.
Qed.
Lemma moved_on st l : listed st l (contexts q) -> id ∉ l -> moved id st st l (l ++ [id]).
Proof.
  intros [Hd _] Hi. split_and!.
  - apply NoDup_app. split_and!; [done|intros x Hx ->%list_elem_of_singleton; done|apply NoDup_singleton].
  - intros x Hx. rewrite elem_of_app, list_elem_of_singleton. intuition congruence.
  - rewrite elem_of_app, list_elem_of_singleton. intuition congruence.
Qed.
Lemma moved_perm st l l' : listed st l (contexts q) -> l' ≡ₚ id :: without id l -> moved id st st l l'.
Proof.
  intros [Hd _] Hp. split_and!.
  - rewrite Hp. constructor; [rewrite elem_without; intuition congruence|by apply NoDup_filter].
  - intros x Hx. rewrite Hp, elem_of_cons, elem_without. intuition congruence.
  - rewrite Hp, elem_of_cons. intuition congruence.
Qed.

(** A change that leaves the state of the context alone. *)
Lemma update_state_ok c' : context_state c' = context_state c -> urbs_ok (put_contexts (<[id := c']> (contexts q)) q).
Proof.
  intros Hs. apply move_ok; try done; [apply union_subseteq_r|..]; (apply moved_same; [apply Hq|by rewrite Hs]).
Qed.
End Moves.

Definition no_wait (a : bool) : Prop := True.

Lemma get_context_spec id q : get_context id q = (q, match contexts q !! id with Some c => Ok c | None => Throw use_after_free end).
Proof. unfold get_context. by case_match. Qed.

Lemma update_context_gives (Q : unit -> Prop) id f :
  (forall c, context_state (f c) = context_state c) -> Q tt -> gives urbs_ok Q (update_context id f).
Proof.
  intros Hf HQ q Hq. unfold update_context, mbind, prog_bind, modify. rewrite get_context_spec.
  destruct (contexts q !! id) as [c|] eqn:Hc; cbn; [|done]. split; [by eapply update_state_ok|]. by intros [] _.
Qed.

(** The context that is queued for giveback is on that list and on no other. *)
Lemma queue_giveback_spec id status q :
  vds_queue_urb_giveback_locked id status q =
  match contexts q !! id with
  | None => (q, Throw use_after_free)
  | Some c =>
      if bool_decide (context_state c = VDS_URB_PENDING_GIVEBACK) || bool_decide (context_state c = VDS_URB_GIVING_BACK)
      then (q, Ok false)
      else
        let cs := <[id := put_context_state VDS_URB_PENDING_GIVEBACK (put_status status c)]> (contexts q) in
        (mk_urbs (urb_store q) cs ({[id]} ∪ hcpriv q) (next_urb q) (without id (pending_hid_in q))
           (without id (pending_feature_get q)) (insert_completed cs (ready_time c) id (without id (completed_urbs q)))
           (given_back q), Ok true)
  end.
Proof.
  unfold vds_queue_urb_giveback_locked, mbind, prog_bind. rewrite get_context_spec.
  destruct (contexts q !! id) as [c|] eqn:Hc; [|done]. case_match; [done|].
  unfold update_context, mbind, prog_bind, modify. rewrite get_context_spec, Hc. done.
Qed.

Lemma queue_giveback_ok id status q :
  urbs_ok q -> urbs_ok (vds_queue_urb_giveback_locked id status q).1.
Proof.
  intros Hq. rewrite queue_giveback_spec. destruct (contexts q !! id) as [c|] eqn:Hc; [|done].
  case_match; [done|]. cbn. apply move_ok; [done|by eexists|done|..]; cbn.
  - apply (moved_off q id); [apply Hq|done].
  - apply (moved_off q id); [apply Hq|done].
  - eapply (moved_perm q id); [apply Hq|]. apply insert_completed_perm.
Qed.
Lemma queue_giveback_gives id status : gives urbs_ok (fun _ => True) (vds_queue_urb_giveback_locked id status).
Proof. intros q Hq. split; [by apply queue_giveback_ok|done]. Qed.

Lemma queue_all_gives status ids :
  (forall id, gives urbs_ok (fun _ => True) (status id)) -> gives urbs_ok (fun _ => True) (queue_all status ids).
Proof.
  intros Hs. induction ids as [|id ids IH]; cbn [queue_all]; [done|].
  eapply gives_bind; [apply Hs|]. intros st _. eapply gives_bind; [apply queue_giveback_gives|]. intros w _.
  eapply gives_bind; [exact IH|]. done.
Qed.

Lemma cancel_gives status : gives urbs_ok (fun _ => True) (vds_cancel_pending_urbs_locked status).
Proof.
  unfold vds_cancel_pending_urbs_locked. apply gives_get. intros q Hq.
  eapply (gives_bind _ (fun _ => True)); [by apply queue_all_gives| |done]. intros w _. apply gives_get. intros q' Hq'.
  eapply (gives_bind _ (fun _ => True)); [by apply queue_all_gives|done|done].
Qed.

(** ** Frames to the daemon *)

Definition next_frame (t : Z) (payload : list Z) (e : EventState) : vds_frame_header * list Z :=
  (mk_header t 0 (Z.of_nat (length payload)) (next_sequence e), payload).
Definition add_event (t : Z) (payload : list Z) (e : EventState) : EventState :=
  mk_events (events e ++ [next_frame t payload e]) (event_count e + 1) (u64 (next_sequence e + 1)) (u64 (frames_to_user e + 1)).

Lemma kmalloc_spec s : kmalloc s = (put_memory (tail (memory s)) s, Ok (default true (head (memory s)))).
Proof. done. Qed.

(** What a frame for the daemon does, case by case. *)
Lemma enqueue_frame_spec t payload s :
  vds_enqueue_frame t payload s =
  if (VDS_FRAME_MAX_PAYLOAD <? length payload)%nat then (s, Ok (- EMSGSIZE))
  else
    let s' := put_memory (tail (memory s)) s in
    if negb (default true (head (memory s))) then (s', Ok (- ENOMEM))
    else if stopping (port s) then (s', Ok (- ESHUTDOWN))
    else if kMaxEvents <=? event_count (q_events s) then (s', Ok (- ENOSPC))
    else (put_q_events (add_event t payload (q_events s)) s', Ok 0).
Proof.
  unfold vds_enqueue_frame. case_match; [done|]. unfold mbind at 1, prog_bind. rewrite kmalloc_spec. cbv zeta.
  destruct (default true (head (memory s))); cbn [negb]; [|done]. unfold mbind, prog_bind, get_state.
  cbn [port q_events put_memory]. case_match; [done|]. by case_match.
Qed.

Lemma counted_next n c i : u64 (u64 (n + 1) - (c + 1) + i) = u64 (n - c + i).
Proof.
  replace (u64 (n + 1) - (c + 1) + i) with (u64 (n + 1) + (i - (c + 1))) by lia. unfold u64.
  rewrite Z.add_mod_idemp_l by lia. f_equal. lia.
Qed.
Lemma add_event_ok t payload e :
  events_ok e -> event_count e < kMaxEvents -> (length payload <= VDS_FRAME_MAX_PAYLOAD)%nat -> 0 <= t <= 10 -> bytes_ok payload ->
  events_ok (add_event t payload e).
Proof.
  intros [H1 H2 H3 [H4 H5]] Hm Hl Ht Hb. split; cbn.
  - rewrite length_app. cbn. lia.
  - lia.
  - apply Forall_app. split; [done|]. apply Forall_singleton. unfold frame_ok, next_frame. cbn.
    split_and!; try done; try lia. unfold is_u8. lia.
  - split; [apply Z.mod_pos_bound; lia|]. intros i f Hi. apply lookup_app_Some in Hi as [Hi|[Hlen Hi]].
    + by rewrite (H5 _ _ Hi), counted_next.
    + apply list_lookup_singleton_Some in Hi as [Hi <-]. cbn. rewrite counted_next.
      unfold u64. rewrite Z.mod_small; lia.
Qed.

Lemma enqueue_frame_gives t payload :
  0 <= t <= 10 -> bytes_ok payload -> gives hcd_ok (fun _ => True) (vds_enqueue_frame t payload).
Proof.
  intros Ht Hb s Hs. split; [|done]. rewrite enqueue_frame_spec.
  destruct (Nat.ltb_spec VDS_FRAME_MAX_PAYLOAD (length payload)); [done|]. cbv zeta.
  repeat (case_match; [by apply ok_put_memory|]). cbn [fst].
  apply ok_put_events; [by apply ok_put_memory|]. apply add_event_ok; try done; [apply Hs|].
  cbn in *. match goal with H : (_ <=? _) = false |- _ => apply Z.leb_gt in H; exact H end.
Qed.

(** ** The device *)

Definition safe {A} (t : thread Hcd A) : Prop := all_gives (fun _ : unit => hcd_ok) t.

Lemma safe_ret {A} (a : A) : safe (mret a).
Proof. apply all_gives_ret. Qed.
Lemma safe_bind {A B} (t : thread Hcd A) (f : A -> thread Hcd B) : safe t -> (forall a, safe (f a)) -> safe (t ≫= f).
Proof. apply all_gives_bind. Qed.
Lemma safe_locked {A} (m : prog Hcd A) : gives hcd_ok (fun _ => True) m -> safe (locked m).
Proof. intros Hm. apply (gives_step _ (fun _ => True)); [done|constructor..]. Qed.
Lemma safe_locked_bind {A B} (Q : A -> Prop) (m : prog Hcd A) (f : A -> thread Hcd B) :
  gives hcd_ok Q m -> (forall a, Q a -> safe (f a)) -> safe (locked m ≫= f).
Proof. intros Hm Hf. by apply (all_gives_locked_bind _ Q). Qed.
Lemma safe_usb {A B} (Q : A -> Prop) (f : vds_usb_device -> vds_usb_device * A) (g : A -> thread Hcd B) :
  (forall d, usb_ok d -> usb_ok (f d).1 /\ Q (f d).2) -> (forall a, Q a -> safe (g a)) -> safe (usb_section f ≫= g).
Proof. intros Hf Hg. apply (safe_locked_bind Q); [|done]. by apply gives_on_usb. Qed.
Lemma safe_urb {A} id (f : urb -> urb * A) : (forall u, urb_ok u -> urb_ok (f u).1) -> safe (urb_access id f).
Proof. intros Hf. apply safe_locked, gives_on_urb. auto. Qed.
Lemma safe_read_urb {B} id (g : urb -> thread Hcd B) : (forall u, urb_ok u -> safe (g u)) -> safe (read_urb id ≫= g).
Proof. intros Hg. apply (safe_locked_bind urb_ok); [|done]. by apply gives_on_urb. Qed.
#[export] Hint Resolve safe_ret : kernel.

Lemma put_actual_ok v u : urb_ok u -> urb_ok (put_actual v u).
Proof. by intros []. Qed.
#[export] Hint Resolve put_actual_ok : kernel.

Lemma copy_out_ok u data n :
  urb_ok u -> bytes_ok data -> (n <= length data)%nat -> Z.of_nat n <= transfer_buffer_length u -> urb_ok (copy_out u data n).
Proof.
  intros [H1 H2 H3 H4] Hd Hn Hl. split; cbn; try done. intros b. destruct (transfer_buffer u) as [b0|]; [|done].
  destruct (H3 b0 eq_refl) as [H5 H6]. intros [= <-]. rewrite copy_into_length by (rewrite length_take; lia).
  split; [done|]. apply bytes_ok_copy; [done|by apply Forall_take].
Qed.
Lemma copy_to_urb_ok u data : urb_ok u -> bytes_ok data -> urb_ok (vds_usb_copy_to_urb u data).1.
Proof.
  intros Hu Hd. unfold vds_usb_copy_to_urb. case_match; [done|]. cbn [fst]. pose proof (ok_length u Hu) as [? _].
  apply copy_out_ok; try done; lia.
Qed.
#[export] Hint Resolve copy_to_urb_ok : kernel.

Lemma reply_safe id data : bytes_ok data -> safe (reply id data).
Proof. intros Hd. apply safe_urb. auto with kernel. Qed.
Lemma set_status_safe flags enabled : safe (vds_usb_set_status (Some vds_usb_ops) flags enabled).
Proof. apply safe_locked. intros s Hs. split; [by apply ok_put_port|done]. Qed.
Lemma usb_enqueue_safe t payload : 0 <= t <= 10 -> bytes_ok payload -> safe (vds_usb_enqueue_frame (Some vds_usb_ops) t payload).
Proof. intros Ht Hp. by apply safe_locked, enqueue_frame_gives. Qed.

Lemma unlisted_spec id q :
  unlisted id q = (q, if on_a_list id q then Throw list_corruption else Ok tt).
Proof. done. Qed.
Lemma on_a_list_false id q :
  on_a_list id q = false -> id ∉ pending_hid_in q /\ id ∉ pending_feature_get q /\ id ∉ completed_urbs q.
Proof. unfold on_a_list. rewrite !orb_false_iff, !bool_decide_eq_false. tauto. Qed.

(** A context that is put on a waiting list. *)
Lemma defer_gives id report_id : gives hcd_ok (fun _ => True) (hcd_defer_feature_get id report_id).
Proof.
  unfold hcd_defer_feature_get. apply gives_get. intros s Hs. repeat (case_match; [done|]).
  refine (gives_on_urbs (fun _ => True) _ _ s Hs). intros q Hq. split; [|done].
  unfold mbind, prog_bind. rewrite unlisted_spec. destruct (on_a_list id q) eqn:Hl; [done|].
  apply on_a_list_false in Hl as (L1 & L2 & L3).
  unfold update_context, mbind, prog_bind, modify. rewrite get_context_spec.
  destruct (contexts q !! id) as [c|] eqn:Hc; [|done]. cbn [fst].
  refine (move_ok q id (put_context_state VDS_URB_PENDING_FEATURE_GET (put_report_id report_id c)) (hcpriv q) _ _ _ Hq _ _ _ _ _).
  - by eexists.
  - apply union_subseteq_r.
  - split_and!; [apply Hq|done|done].
  - apply (moved_on q id); [apply Hq|done].
  - split_and!; [apply Hq|done|done].
Qed.
Lemma usb_defer_safe id report_id : safe (vds_usb_defer_feature_get (Some vds_usb_ops) id report_id).
Proof. apply safe_locked, defer_gives. Qed.
#[export] Hint Resolve reply_safe set_status_safe usb_enqueue_safe usb_defer_safe : kernel.

Definition known_profile (p : vds_controller_profile) : Prop := p = vds_dualsense_profile \/ p = vds_dualsense_edge_profile.
Lemma known_device_profile d : known_profile (vds_usb_device_profile d).
Proof. unfold vds_usb_device_profile, vds_usb_controller_profile_for_profile. case_match; [by right|by left]. Qed.

Definition setup_ok (setup : usb_ctrlrequest) : Prop := is_u16 (wValue setup) /\ is_u16 (wIndex setup) /\ is_u16 (wLength setup).
Lemma le_value_u16 l : bytes_ok l -> is_u16 (le_value (take 2 l)).
Proof.
  intros Hl. unfold is_u16. destruct l as [|a [|b l]]; cbn [take le_value]; rewrite ?take_0; cbn [le_value].
  - lia.
  - apply Forall_cons in Hl as [Ha _]. unfold is_u8 in Ha. lia.
  - apply Forall_cons in Hl as [Ha [Hb _]%Forall_cons]. unfold is_u8 in *. lia.
Qed.
Lemma decode_setup_ok b : bytes_ok b -> setup_ok (decode_setup b).
Proof. intros Hb. split_and!; cbn; apply le_value_u16; by apply Forall_drop. Qed.

Lemma high_byte v : is_u16 v -> is_u8 (Z.shiftr v 8).
Proof. unfold is_u16, is_u8. intros Hv. rewrite Z.shiftr_div_pow2 by lia. split; [apply Z.div_pos; lia|]. apply Z.div_lt_upper_bound; lia. Qed.
Lemma low_byte v : is_u8 (Z.land v 0xff).
Proof. rewrite land_255. apply u8_range. Qed.
Lemma low_seven v : 0 <= Z.land v 0x7f < 128.
Proof. change 0x7f with (Z.ones 7). rewrite Z.land_ones by lia. apply Z.mod_pos_bound. lia. Qed.
Lemma low_of_small v : 0 <= v <= 1 -> Z.land v 0xff = v.
Proof. intros Hv. rewrite land_255. apply u8_id. unfold is_u8. lia. Qed.

Lemma known_bytes p :
  known_profile p ->
  bytes_ok (device_descriptor p) /\ bytes_ok (configuration_descriptor p) /\ bytes_ok (hid_descriptor p)
  /\ bytes_ok (hid_report_descriptor p) /\ bytes_ok (string_descriptor (Some (manufacturer p)))
  /\ bytes_ok (string_descriptor (Some (product_string p))).
Proof.
  assert (forall l, forallb (fun b => (0 <=? b) && (b <? 256)) l = true -> bytes_ok l) as Hl.
  { intros l. induction l as [|b l IH]; cbn [forallb]; [constructor|]. intros [Hb Hl]%andb_true_iff.
    constructor; [|by apply IH]. unfold is_u8. lia. }
  intros [-> | ->]; split_and!; apply Hl; by vm_compute.
Qed.

(** ** Control transfers *)

#[export] Hint Resolve le_bytes_ok high_byte low_byte : kernel.
Lemma bytes_one b : is_u8 b -> bytes_ok [b].
Proof. intros Hb. by apply Forall_singleton. Qed.
#[export] Hint Resolve bytes_one : kernel.

(** Goes through a thread: branches, then the hints of the database. *)
Ltac solve_safe :=
  repeat first
    [ lazymatch goal with |- forall _, _ => intros; cbv beta zeta end
    | by eauto with kernel
    | lazymatch goal with |- safe (if _ then _ else _) => case_match end
    | lazymatch goal with |- safe (match _ with _ => _ end) => case_match end
    | lazymatch goal with |- safe (_ ≫= _) => idtac end; apply safe_bind; [by eauto with kernel|intros; cbv beta zeta] ].

Lemma index_cases p entity : vds_controller_audio_feature_index p entity = 0 \/
  vds_controller_audio_feature_index p entity = 1 \/ vds_controller_audio_feature_index p entity = -1.
Proof. unfold vds_controller_audio_feature_index. repeat case_match; auto. Qed.

Lemma set_mute_ok i v d : usb_ok d -> is_u8 v -> usb_ok (set_mute i v d).
Proof.
  intros [] Hv. split; cbn; try done. rewrite length_insert. split; [tauto|]. apply bytes_ok_insert; tauto.
Qed.
Lemma set_volume_ok i v d : usb_ok d -> is_s16 v -> usb_ok (set_volume i v d).
Proof.
  intros [] Hv. split; cbn; try done. rewrite length_insert. split; [tauto|]. apply Forall_insert; tauto.
Qed.

Lemma audio_set_gives id selector i : gives hcd_ok (fun _ => True) (audio_set id selector i : prog Hcd Z).
Proof.
  intros s Hs. split; [|done]. unfold audio_set. cbn [urbs put_urbs usb put_usb hcd_usb_host].
  destruct (urb_store (q_urbs s) !! id) as [u|] eqn:Hu; [|done].
  pose proof (ok_store _ (ok_urbs _ Hs) id u Hu) as Huok. cbn in Huok.
  assert (bytes_ok (default [] (transfer_buffer u))) as Hb.
  { destruct (transfer_buffer u) as [b|] eqn:E; [by apply (ok_buffer u Huok)|constructor]. }
  case_match; [|case_match; [|done]]; cbn [fst].
  - apply ok_put_urbs; [|eapply put_store_ok; [apply Hs|done|by apply put_actual_ok]].
    apply ok_put_usb; [done|]. apply set_mute_ok; [apply Hs|auto with words].
  - apply ok_put_urbs; [|eapply put_store_ok; [apply Hs|done|by apply put_actual_ok]].
    apply ok_put_usb; [done|]. apply set_volume_ok; [apply Hs|auto with words].
Qed.

Lemma audio_control_safe id setup p : safe (vds_usb_audio_control id setup p).
Proof.
  unfold vds_usb_audio_control. solve_safe.
  - apply (safe_usb is_u8); [|solve_safe]. intros d Hd. split; [done|]. apply byte_at_ok, Hd.
  - apply (safe_usb (fun _ => True)); [done|]. solve_safe.
  - apply safe_read_urb. intros u Hu. solve_safe. apply safe_locked, audio_set_gives.
Qed.

Lemma cached_safe id report_id : safe (vds_usb_copy_cached_feature_report id report_id).
Proof.
  apply (safe_usb (fun r => forall report, r = Some report -> bytes_ok report)).
  - intros d Hd. split; [done|]. intros report Hr. by apply (ok_cache d Hd report_id).
  - intros [report|] Hr; [|apply safe_ret]. by apply reply_safe, Hr.
Qed.
#[export] Hint Resolve cached_safe : kernel.

Lemma get_feature_safe id setup report_id :
  setup_ok setup -> is_u8 report_id -> safe (get_feature_report (Some vds_usb_ops) id setup report_id).
Proof.
  intros (_ & _ & Hl) Hr. unfold get_feature_report. solve_safe.
  apply safe_bind; [|solve_safe]. apply usb_enqueue_safe; [done|]. unfold bytes_ok.
  rewrite !Forall_cons. split_and!; auto with kernel.
Qed.

Lemma set_feature_safe id report_id : is_u8 report_id -> safe (set_feature_report (Some vds_usb_ops) id report_id).
Proof.
  intros Hr. unfold set_feature_report. apply safe_read_urb. intros u Hu.
  assert (safe (urb_access id (fun u => (put_actual (transfer_buffer_length u) u, 0)))) as Hend.
  { apply safe_urb. intros v Hv. by apply put_actual_ok. }
  solve_safe. apply safe_bind; [|solve_safe]. apply usb_enqueue_safe; [done|]. constructor; [done|].
  destruct (transfer_buffer u) as [b|] eqn:E; [by apply (ok_buffer u Hu)|constructor].
Qed.

Lemma usb_set_safe (f : vds_usb_device -> vds_usb_device) : (forall d, usb_ok d -> usb_ok (f d)) -> safe (usb_section (fun d => (f d, 0))).
Proof. intros Hf. apply safe_locked, gives_on_usb. intros d Hd. by split; [apply Hf|]. Qed.
Lemma usb_get_safe id (f : vds_usb_device -> Z) :
  (forall d, usb_ok d -> is_u8 (f d)) -> safe (v ← usb_section (fun d => (d, f d)); reply id [v]).
Proof. intros Hf. apply (safe_usb is_u8); [by intros d Hd; split; [|apply Hf]|]. solve_safe. Qed.

Lemma hid_control_safe id setup p : setup_ok setup -> safe (vds_usb_hid_control (Some vds_usb_ops) id setup p).
Proof.
  intros Hs. pose proof Hs as (Hv & _ & _). unfold vds_usb_hid_control. solve_safe.
  - by apply get_feature_safe; [|apply low_byte].
  - apply reply_safe. constructor; [apply low_byte|apply bytes_ok_zeros].
  - by apply set_feature_safe, low_byte.
  - apply usb_get_safe. by intros d [].
  - apply usb_get_safe. by intros d [].
  - apply usb_set_safe. intros d []. split; cbn; try done. by apply high_byte.
  - apply usb_set_safe. intros d []. split; cbn; try done. by apply low_byte.
Qed.

Lemma get_descriptor_safe id setup p : known_profile p -> safe (get_descriptor id setup p).
Proof.
  intros (H1 & H2 & H3 & H4 & H5 & H6)%known_bytes. unfold get_descriptor, vds_usb_copy_string_descriptor. solve_safe.
  - apply reply_safe. by repeat constructor.
  - apply reply_safe. by repeat constructor.
Qed.

Lemma interface_event_safe n alt kind : is_u8 n -> is_u8 alt -> is_u8 kind -> safe (vds_usb_enqueue_interface_event (Some vds_usb_ops) n alt kind).
Proof.
  intros. unfold vds_usb_enqueue_interface_event. apply safe_bind; [|solve_safe].
  apply usb_enqueue_safe; [done|]. unfold bytes_ok. by rewrite !Forall_cons.
Qed.
Lemma known_interfaces p : known_profile p ->
  is_u8 (hid_interface p) /\ is_u8 (audio_out_interface p) /\ is_u8 (audio_in_interface p) /\ configuration_value p = 1.
Proof. by intros [-> | ->]. Qed.

Lemma set_interface_safe setup p : setup_ok setup -> known_profile p -> safe (set_interface (Some vds_usb_ops) setup p).
Proof.
  intros (Hv & _ & _) (H1 & H2 & H3 & _)%known_interfaces. unfold set_interface. solve_safe.
  - apply safe_bind; [by apply interface_event_safe|solve_safe].
  - assert (0 <= wValue setup <= 1) as Hsmall by (unfold is_u16 in Hv; match goal with H : (1 <? _) = false |- _ => apply Z.ltb_ge in H; lia end).
    apply (safe_usb (fun _ => True)).
    + intros d []. split; [|done]. split; cbn; try done. by rewrite low_of_small.
    + intros e _. apply safe_bind; [apply set_status_safe|]. intros _.
      apply safe_bind; [apply interface_event_safe; [done|apply low_byte|done]|solve_safe].
  - assert (0 <= wValue setup <= 1) as Hsmall by (unfold is_u16 in Hv; match goal with H : (1 <? _) = false |- _ => apply Z.ltb_ge in H; lia end).
    apply (safe_usb (fun _ => True)).
    + intros d []. split; [|done]. split; cbn; try done. by rewrite low_of_small.
    + intros e _. apply safe_bind; [apply interface_event_safe; [done|apply low_byte|done]|solve_safe].
Qed.

Lemma get_interface_safe id setup p : safe (get_interface id setup p).
Proof.
  unfold get_interface. apply (safe_usb (fun r => forall v, r = Some v -> is_u8 v)).
  - intros d []. split; [done|]. intros v. unfold is_u8. repeat case_match; intros [= <-]; lia.
  - intros [v|] Hv; solve_safe.
Qed.

Lemma standard_control_safe id setup p :
  setup_ok setup -> known_profile p -> safe (vds_usb_standard_control (Some vds_usb_ops) id setup p).
Proof.
  intros Hs Hp. pose proof Hs as (Hv & _ & _). unfold vds_usb_standard_control. solve_safe.
  - by apply get_descriptor_safe.
  - apply usb_set_safe. intros d []. split; cbn; try done. apply low_seven.
  - apply (safe_usb (fun _ => True)).
    + intros d []. split; [|done]. split; cbn; try done.
      apply known_interfaces in Hp as (_ & _ & _ & Hc). rewrite Hc in *.
      rewrite low_of_small; match goal with H : _ && _ = false |- _ => revert H end;
        destruct (Z.eqb_spec (wValue setup) 0), (Z.eqb_spec (wValue setup) 1); cbn; intros; lia || done.
    + intros e _. apply safe_bind; [apply set_status_safe|]. intros _. apply safe_bind; [apply set_status_safe|solve_safe].
  - apply usb_get_safe. intros d []. unfold is_u8. lia.
  - by apply set_interface_safe.
  - apply get_interface_safe.
Qed.

Lemma control_urb_safe id : safe (vds_usb_device_control_urb (Some vds_usb_ops) id).
Proof.
  unfold vds_usb_device_control_urb. apply (safe_usb known_profile).
  { intros d Hd. split; [done|]. apply known_device_profile. }
  intros p Hp. apply (safe_locked_bind (fun r => forall b, r = Some b -> bytes_ok b)).
  - apply gives_on_urb. intros u Hu. destruct (setup_packet u) as [b|] eqn:E; cbn; [|done].
    split; [by apply put_actual_ok|]. intros ? [= <-]. by apply (ok_setup u Hu).
  - intros [b|] Hb; [|apply safe_ret]. pose proof (decode_setup_ok b (Hb b eq_refl)). cbv zeta.
    repeat case_match; auto using safe_ret, standard_control_safe, hid_control_safe, audio_control_safe.
Qed.

(** ** Sound *)

Lemma iso_out_kept tbl chunk total errors ds :
  Forall (fun d => is_u32 (offset d) /\ is_u32 (iso_length d)) ds ->
  Forall (fun d => is_u32 (offset d) /\ is_u32 (iso_length d)) (iso_out_loop tbl chunk total errors ds).1.1.1.
Proof.
  intros Hds. revert chunk total errors. induction Hds as [|d ds Hd _ IH]; intros chunk total errors; cbn [iso_out_loop]; [constructor|].
  case_match.
  - specialize (IH chunk total (errors + 1)). destruct (iso_out_loop tbl chunk total (errors + 1) ds) as [[[done p] t] e]. by constructor.
  - destruct (if iso_length d =? 0 then _ else _) as [flushed chunk'].
    specialize (IH chunk' (u32 (total + iso_length d)) errors).
    destruct (iso_out_loop tbl chunk' _ errors ds) as [[[done p] t] e]. by constructor.
Qed.

Lemma enqueue_pieces_safe buffer pieces : bytes_ok buffer -> safe (enqueue_pieces buffer pieces).
Proof.
  intros Hb. induction pieces as [|p pieces IH]; cbn [enqueue_pieces]; [apply safe_ret|].
  apply safe_bind; [|by intros _]. apply safe_locked, enqueue_frame_gives; [done|]. by apply Forall_take, Forall_drop.
Qed.

Lemma iso_out_safe id : safe (vds_iso_out_urb id).
Proof.
  unfold vds_iso_out_urb. apply safe_read_urb. intros u Hu. destruct (transfer_buffer u) as [b|] eqn:Hb; [|apply safe_ret].
  pose proof (iso_out_kept (transfer_buffer_length u) None 0 0 _ (ok_iso u Hu)) as Hk.
  destruct (iso_out_loop _ _ _ _ _) as [[[done p] t] e]. cbn [fst] in Hk.
  apply safe_bind; [by apply enqueue_pieces_safe, (ok_buffer u Hu)|]. intros _. apply safe_urb. by intros v [].
Qed.

(** Bytes of the microphone that are taken are the first of the stream. *)
Lemma mic_stream_cons off payload rest : mic_stream ((off, payload) :: rest) = drop off payload ++ mic_stream rest.
Proof. done. Qed.
Lemma mic_stream_app l k : mic_stream (l ++ k) = mic_stream l ++ mic_stream k.
Proof. unfold mic_stream. by rewrite fmap_app, concat_app. Qed.

Definition packet_ok (p : nat * list Z) : Prop := (p.1 < length p.2 <= VDS_FRAME_MAX_PAYLOAD)%nat /\ bytes_ok p.2.
Definition audio_counted (packets : list (nat * list Z)) (count queued : Z) : Prop :=
  Forall packet_ok packets /\ count = Z.of_nat (length packets) /\ queued = Z.of_nat (length (mic_stream packets)).

Lemma fill_audio_in_spec need packets count queued copied kept count' queued' :
  audio_counted packets count queued -> fill_audio_in need packets count queued = (copied, kept, count', queued') ->
  copied = take need (mic_stream packets) /\ mic_stream kept = drop need (mic_stream packets) /\ audio_counted kept count' queued'.
Proof.
  revert need count queued copied kept count' queued'.
  induction packets as [|[off payload] rest IH]; intros need count queued copied kept count' queued' (Hp & Hc & Hq); cbn [fill_audio_in].
  - intros [= <- <- <- <-]. cbn [mic_stream]. unfold mic_stream. cbn. by rewrite take_nil, drop_nil.
  - apply Forall_cons in Hp as [Hp Hrest]. destruct Hp as [[Hoff Hlen] Hbytes]. cbn [fst snd] in *.
    destruct (Nat.eqb_spec need 0) as [->|Hneed].
    { intros [= <- <- <- <-]. rewrite take_0, drop_0. split_and!; [done..|]. split_and!; [by constructor|done|done]. }
    rewrite mic_stream_cons, length_app, length_drop in Hq. cbn [length] in Hc.
    set (copy_len := Nat.min need (length payload - off)).
    set (q1 := if Z.of_nat copy_len <? queued then queued - Z.of_nat copy_len else 0).
    assert (q1 = queued - Z.of_nat copy_len) as Hq1.
    { subst q1. destruct (Z.ltb_spec (Z.of_nat copy_len) queued); lia. }
    assert (copy_len = Nat.min need (length payload - off)) as Hcl by done.
    clearbody q1 copy_len. rewrite mic_stream_cons. destruct (Nat.eqb_spec (off + copy_len) (length payload)) as [He|He].
    + destruct (fill_audio_in (need - copy_len) rest (count - 1) q1) as [[[more k] c] q] eqn:E. intros [= <- <- <- <-].
      apply IH in E as (E1 & E2 & E3).
      2: { split_and!; [done|lia|]. lia. }
      assert (copy_len = length (drop off payload)) as Hl by (rewrite length_drop; lia).
      rewrite take_app_ge, drop_app_ge, <- Hl by lia. rewrite (take_ge (drop off payload)) by lia. by rewrite E1, E2.
    + intros [= <- <- <- <-]. assert (copy_len = need) as -> by lia. rewrite mic_stream_cons.
      rewrite take_app_le, drop_app_le, drop_drop by (rewrite length_drop; lia). split_and!; [done|done|].
      split_and!; [constructor; [|done]; split; cbn; [lia|done]|cbn [length]; lia|].
      rewrite mic_stream_cons, length_app, length_drop. lia.
Qed.

Lemma fill_locked_spec n h :
  host_ok h ->
  let '(h', data) := vds_fill_audio_in_locked n h in
  host_ok h' /\ data = take n (mic_stream (audio_in_packets h)) ++ replicate (n - length (mic_stream (audio_in_packets h))) 0
  /\ mic_stream (audio_in_packets h') = drop n (mic_stream (audio_in_packets h)) /\ input_packets h' = input_packets h.
Proof.
  intros [H1 H2 H3 H4 H5]. unfold vds_fill_audio_in_locked.
  destruct (fill_audio_in n _ _ _) as [[[copied kept] c] q] eqn:E.
  apply fill_audio_in_spec in E as (-> & E2 & (P1 & P2 & P3)); [|done].
  split_and!; cbn; try done.
  - split; cbn; try done. rewrite P3, E2, length_drop. lia.
  - f_equal. f_equal. rewrite length_take. lia.
Qed.
Lemma mic_bytes_ok h : host_ok h -> bytes_ok (mic_stream (audio_in_packets h)).
Proof.
  intros [_ H _ _ _]. unfold mic_stream. apply Forall_concat, Forall_fmap. eapply Forall_impl; [exact H|].
  intros [off payload] [_ Hb]. by apply Forall_drop.
Qed.

Lemma iso_in_loop_ok tbl buffer total errors ds h h' buffer' done_ t e :
  host_ok h -> bytes_ok buffer -> tbl = Z.of_nat (length buffer) -> Forall (fun d => is_u32 (offset d) /\ is_u32 (iso_length d)) ds ->
  iso_in_loop tbl buffer total errors ds h = (h', buffer', done_, t, e) ->
  host_ok h' /\ bytes_ok buffer' /\ length buffer' = length buffer /\ Forall (fun d => is_u32 (offset d) /\ is_u32 (iso_length d)) done_.
Proof.
  intros Hh Hb Ht Hds. revert buffer total errors h h' buffer' done_ t e Hh Hb Ht.
  induction Hds as [|d ds [Ho Hl] _ IH]; intros buffer total errors h h' buffer' done_ t e Hh Hb Ht; cbn [iso_in_loop].
  { by intros [= <- <- <- <- <-]. }
  destruct (iso_out_of_range tbl d) eqn:Hr.
  - destruct (iso_in_loop tbl buffer total (errors + 1) ds h) as [[[[h1 b1] d1] t1] e1] eqn:E. intros [= <- <- <- <- <-].
    apply IH in E as (? & ? & ? & ?); try done. split_and!; try done. by constructor.
  - pose proof (fill_locked_spec (Z.to_nat (Z.min (iso_length d) VDS_AUDIO_IN_BYTES_PER_MS)) h Hh) as Hf.
    destruct (vds_fill_audio_in_locked _ h) as [h2 data]. destruct Hf as (F1 & F2 & _).
    assert (length data = Z.to_nat (Z.min (iso_length d) VDS_AUDIO_IN_BYTES_PER_MS)) as Hdl.
    { rewrite F2, length_app, length_take, length_replicate. lia. }
    assert (bytes_ok data) as Hdb.
    { rewrite F2. apply bytes_ok_app; [by apply Forall_take, mic_bytes_ok|apply bytes_ok_zeros]. }
    unfold iso_out_of_range in Hr. apply orb_false_iff in Hr as [R1%Z.ltb_ge R2%Z.ltb_ge]. unfold is_u32 in *.
    assert (Z.to_nat (offset d) + length data <= length buffer)%nat as Hin by lia.
    destruct (iso_in_loop tbl (copy_into buffer (Z.to_nat (offset d)) data) _ errors ds h2) as [[[[h1 b1] d1] t1] e1] eqn:E.
    intros [= <- <- <- <- <-]. apply IH in E as (? & ? & E3 & ?); try done.
    + rewrite copy_into_length in E3 by done. split_and!; try done. by constructor.
    + by apply bytes_ok_copy.
    + by rewrite copy_into_length.
Qed.

Lemma iso_in_safe id : safe (vds_iso_in_urb id).
Proof.
  apply safe_locked. intros s Hs. split; [|done]. destruct (urb_store (q_urbs s) !! id) as [u|] eqn:Hu; [|done].
  pose proof (ok_store _ (ok_urbs _ Hs) id u Hu) as Huok. cbn in Huok.
  destruct (transfer_buffer u) as [b|] eqn:Hb; [|done]. destruct (ok_buffer u Huok b Hb) as [Hl Hbo].
  destruct (iso_in_loop _ b 0 0 _ _) as [[[[h b'] d] t] e] eqn:E.
  apply iso_in_loop_ok in E as (E1 & E2 & E3 & E4); try done; [|apply Hs|apply Huok]. cbn [fst].
  apply ok_put_host; [|done]. apply ok_put_urbs; [done|]. eapply put_store_ok; [apply Hs|exact Hu|].
  destruct Huok. split; cbn; try done. intros ? [= <-]. by rewrite E3.
Qed.

(** ** Giving back, input and replies *)

Lemma giveback_urb_gives id status : gives hcd_ok (fun _ => True) (usb_hcd_giveback_urb id status).
Proof.
  apply gives_on_urbs. intros q Hq. split; [|done]. unfold mbind, prog_bind, get_state, modify. rewrite unlisted_spec.
  destruct (on_a_list id q) eqn:Hl; [done|]. apply on_a_list_false in Hl as (L1 & L2 & L3).
  destruct (urb_store q !! id) as [u|] eqn:Hu; [|done]. cbn [fst]. pose proof Hq as [].
  assert (forall st l, listed st l (contexts q) -> id ∉ l -> listed st l (delete id (contexts q))) as Hdel.
  { intros st l [Hd Hm] Hi. split; [done|]. intros x. destruct (decide (x = id)) as [->|Hn].
    - rewrite lookup_delete_eq. split; [done|by intros (? & ? & ?)].
    - by rewrite lookup_delete_ne, Hm by done. }
  assert (is_Some (contexts q !! id)) as Hc by (apply ok_contexts0; by eexists).
  constructor; cbn.
  - by apply map_Forall_delete.
  - intros x. rewrite !lookup_delete_is_Some, ok_contexts0. done.
  - intros x. rewrite lookup_delete_is_Some. intros [_ ?]. auto.
  - by apply Hdel.
  - by apply Hdel.
  - by apply Hdel.
  - intros x [Hx Hn]%elem_of_difference. rewrite lookup_delete_is_Some. split; [set_solver|auto].
  - destruct ok_given0 as [Hd Hg]. rewrite fmap_app. cbn. split.
    + apply NoDup_app. split_and!; [done| |apply NoDup_singleton].
      intros x (g & -> & Hx)%list_elem_of_fmap He%list_elem_of_singleton. destruct (Hg g Hx) as [_ Hn].
      rewrite He in Hn. rewrite Hn in Hc. by destruct Hc.
    + intros g [Hg'| ->%list_elem_of_singleton]%elem_of_app; cbn.
      * destruct (Hg g Hg') as [? Hn]. split; [done|]. by apply lookup_delete_None; right.
      * split; [by apply ok_next0|apply lookup_delete_eq].
  - intros x Hx. rewrite fmap_app, elem_of_app, lookup_delete_is_Some. cbn. rewrite list_elem_of_singleton.
    destruct (decide (x = id)); [by right; right|]. destruct (ok_accounted0 x Hx); auto.
Qed.

(** A URB that is taken off the list to be given back. *)
Definition taken (id : nat) (c : vds_urb_context) (q : UrbState) : UrbState :=
  mk_urbs (urb_store q) (<[id := put_context_state VDS_URB_GIVING_BACK c]> (contexts q)) (hcpriv q ∖ {[id]}) (next_urb q)
    (pending_hid_in q) (pending_feature_get q) (without id (completed_urbs q)) (given_back q).
Lemma pick_spec should_stop s id rest c :
  completed_urbs (q_urbs s) = id :: rest -> contexts (q_urbs s) !! id = Some c ->
  giveback_pick should_stop s =
  if negb (ready_time c =? 0) && (0 <? ktime_us_delta (ready_time c) (now (clock s)))
  then (put_q_urbs (q_urbs s) s, Ok (SleepUntil (ready_time c)))
  else (put_q_urbs (taken id c (q_urbs s)) s, Ok (Deliver id (context_status c) (deliver_iso_out c) (deliver_iso_in c))).
Proof.
  intros Hl Hc. unfold giveback_pick. unfold mbind at 1, prog_bind, get_state. rewrite Hl.
  unfold mbind at 1, prog_bind, on_urbs at 1. rewrite get_context_spec, Hc. cbn [fst snd]. case_match; [done|].
  unfold mbind, prog_bind, on_urbs, update_context, modify, mbind, prog_bind. cbn [q_urbs put_q_urbs]. rewrite get_context_spec.
  cbn [contexts put_completed]. by rewrite Hc.
Qed.
Lemma listed_context st l q id : listed st l (contexts q) -> id ∈ l -> exists c, contexts q !! id = Some c /\ context_state c = st.
Proof. intros [_ Hl] Hi. by apply Hl. Qed.
Lemma not_listed st st' l q id c : listed st l (contexts q) -> contexts q !! id = Some c -> context_state c = st' -> st' <> st -> id ∉ l.
Proof. intros [_ Hl] Hc Hs Hn Hi. apply Hl in Hi as (c' & Hc' & ?). congruence. Qed.

Lemma taken_ok id rest c q :
  urbs_ok q -> completed_urbs q = id :: rest -> contexts q !! id = Some c -> urbs_ok (taken id c q).
Proof.
  intros Hq Hl Hc. pose proof Hq as [].
  destruct (listed_context _ _ _ id ok_completed0) as (c' & Hc' & Hst); [rewrite Hl; apply list_elem_of_here|].
  assert (c' = c) as -> by congruence.
  apply move_ok; try done; [set_solver +|..]; cbn.
  - split_and!; [apply ok_hid_in0|done|]. split; [|done]. intros Hi. by eapply (not_listed _ _ _ q id) in Hi.
  - split_and!; [apply ok_feature_get0|done|]. split; [|done]. intros Hi. by eapply (not_listed _ _ _ q id) in Hi.
  - by apply (moved_off q id).
Qed.

Lemma pick_gives should_stop : gives hcd_ok (fun _ => True) (giveback_pick should_stop).
Proof.
  intros s Hs. split; [|done]. destruct (completed_urbs (q_urbs s)) as [|id rest] eqn:Hl.
  - unfold giveback_pick, mbind, prog_bind, get_state. by rewrite Hl.
  - destruct (listed_context _ _ _ id (ok_completed _ (ok_urbs _ Hs))) as (c & Hc & _); [rewrite Hl; apply list_elem_of_here|].
    rewrite (pick_spec _ _ _ _ _ Hl Hc). case_match; cbn [fst]; (apply ok_put_urbs; [done|]); [apply Hs|].
    eapply taken_ok; [apply Hs|done..].
Qed.

Lemma deliver_safe id status out in_ : safe (deliver_urb id status out in_).
Proof.
  unfold deliver_urb. apply safe_bind; [case_match; [apply iso_out_safe|apply safe_ret]|]. intros st.
  apply safe_bind; [case_match; [apply iso_in_safe|apply safe_ret]|]. intros st'. apply safe_locked, giveback_urb_gives.
Qed.
Lemma giveback_round_safe should_stop : safe (vds_giveback_round should_stop).
Proof.
  unfold vds_giveback_round. apply (safe_locked_bind (fun _ => True)); [apply pick_gives|]. intros next _.
  destruct next; try apply safe_ret. apply safe_bind; [apply deliver_safe|intros; apply safe_ret].
Qed.

Lemma gives_weaken {A} (Q : A -> Prop) (m : prog Hcd A) : gives hcd_ok Q m -> gives hcd_ok (fun _ => True) m.
Proof. intros Hm s Hs. split; [by apply Hm|done]. Qed.
Lemma gives_seq {A B} (Q : B -> Prop) (m : prog Hcd A) (f : A -> prog Hcd B) :
  gives hcd_ok (fun _ => True) m -> (forall a, gives hcd_ok Q (f a)) -> gives hcd_ok Q (m ≫= f).
Proof. intros Hm Hf. by apply (gives_bind _ (fun _ => True)). Qed.
Lemma gives_ret {A} (a : A) : gives hcd_ok (fun _ => True) (mret a).
Proof. done. Qed.
Lemma gives_modify (f : Hcd -> Hcd) : (forall s, hcd_ok s -> hcd_ok (f s)) -> gives hcd_ok (fun _ => True) (modify f).
Proof. intros Hf s Hs. split; [by apply Hf|done]. Qed.
#[export] Hint Resolve gives_ret : kernel.

Lemma fill_hid_ok u payload : urb_ok u -> bytes_ok payload -> urb_ok (vds_fill_hid_in_urb u payload).
Proof. intros Hu Hp. pose proof (ok_length u Hu) as [? _]. apply copy_out_ok; try done; lia. Qed.
Lemma fill_urb_gives id payload : bytes_ok payload -> gives hcd_ok (fun _ => True) (fill_urb id payload).
Proof. intros Hp. apply gives_on_urb. intros u Hu. split; [by apply fill_hid_ok|done]. Qed.

Lemma ready_gives id v : gives hcd_ok (fun _ => True) (on_urbs (update_context id (put_ready v))).
Proof. by apply gives_on_urbs, update_context_gives. Qed.
Lemma schedule_hid_gives id : gives hcd_ok (fun _ => True) (vds_schedule_hid_in_giveback_locked id).
Proof.
  apply gives_get. intros s Hs. refine (gives_seq (fun _ => True) _ _ _ _ s Hs); [apply ready_gives|]. intros _.
  apply gives_modify. intros s' Hs'. by apply ok_put_clock.
Qed.
Lemma queue_gives id status : gives hcd_ok (fun _ => True) (vds_queue_urb_giveback id status).
Proof. apply gives_on_urbs, queue_giveback_gives. Qed.

Lemma complete_input_gives payload : bytes_ok payload -> gives hcd_ok (fun _ => True) (vds_complete_pending_input_locked payload).
Proof.
  intros Hp. apply gives_get. intros s Hs. destruct (pending_hid_in (q_urbs s)) as [|id rest]; [done|].
  refine (gives_seq (fun _ => True) _ _ _ _ s Hs); [by apply fill_urb_gives|]. intros _.
  apply gives_seq; [apply schedule_hid_gives|]. intros _. apply gives_seq; [apply queue_gives|]. auto with kernel.
Qed.

Definition report_ok (payload : list Z) : Prop := (1 <= length payload <= 64)%nat /\ bytes_ok payload.
Lemma queue_input_gives payload : report_ok payload -> gives hcd_ok (fun _ => True) (vds_queue_input_packet_locked payload).
Proof.
  intros Hp s Hs. split; [|done]. pose proof (ok_host s Hs) as [(H1 & H2 & H3) H4 H5 H6 H7].
  unfold vds_queue_input_packet_locked. unfold mbind at 1, prog_bind, get_state.
  destruct (input_packets (q_host s)) as [|p [|]] eqn:Hi; cbn in H1, H2; [| |lia]; cbn [reverse rev_append].
  - unfold reverse, rev_append, mbind, prog_bind. rewrite kmalloc_spec. case_match; cbn [fst]; [by apply ok_put_memory|].
    apply ok_put_host; [by apply ok_put_memory|]. split; cbn; try done. split_and!; [lia|lia|by constructor].
  - unfold reverse, rev_append, mbind, prog_bind, modify. cbn [fst]. apply ok_put_host; [done|].
    split; cbn; try done. split_and!; [lia|lia|by constructor].
Qed.

Lemma write_input_gives payload : bytes_ok payload -> gives hcd_ok (fun _ => True) (vds_write_input_frame payload).
Proof.
  intros Hb. unfold vds_write_input_frame. case_match eqn:He; [done|]. apply gives_get. intros s Hs. case_match; [done|].
  apply orb_false_iff in He as [E1%Nat.eqb_neq E2%Nat.ltb_ge]. unfold VDS_CONTROLLER_HID_PACKET_SIZE in E2.
  refine (gives_seq (fun _ => True) _ _ _ _ s Hs); [by apply complete_input_gives|]. intros completed.
  apply gives_seq.
  { destruct completed; [done|]. apply queue_input_gives. split; [lia|done]. }
  intros ret. apply gives_seq; [|auto with kernel]. case_match; [|done]. apply gives_modify. intros. by apply ok_put_port.
Qed.

Lemma fill_feature_gives payload id : bytes_ok payload -> gives urbs_ok (fun _ => True) (fill_feature payload id).
Proof.
  intros Hp q Hq. split; [|done]. unfold fill_feature, vds_fill_feature_urb. destruct (urb_store q !! id) as [u|] eqn:Hu; [|done].
  pose proof (copy_to_urb_ok u payload (ok_store q Hq id u Hu) Hp) as Hc. destruct (vds_usb_copy_to_urb u payload) as [u' st].
  by eapply put_store_ok.
Qed.
Lemma update_reply_ok payload d : usb_ok d -> bytes_ok payload -> usb_ok (vds_usb_device_update_feature_reply payload d).1.
Proof.
  intros [] Hb. unfold vds_usb_device_update_feature_reply. case_match eqn:He; [by split|].
  apply orb_false_iff in He as [E1%Nat.eqb_neq E2%Nat.ltb_ge]. unfold VDS_CONTROLLER_HID_PACKET_SIZE in E2.
  split; cbn; try done. apply map_Forall_insert_2; [|done]. split_and!; [done|lia|lia|done].
Qed.
Lemma feature_reply_safe payload : bytes_ok payload -> safe (vds_write_feature_reply payload).
Proof.
  intros Hb. apply (safe_usb (fun _ => True)); [intros d Hd; split; [by apply update_reply_ok|done]|]. intros ret _.
  case_match; [apply safe_ret|]. apply safe_locked, gives_get. intros s Hs. case_match; [done|].
  refine (gives_seq (fun _ => True) _ _ _ _ s Hs).
  - apply gives_on_urbs, gives_get. intros q Hq. refine (queue_all_gives _ _ _ q Hq). intros id. by apply fill_feature_gives.
  - intros _. apply gives_seq; [|auto with kernel]. apply gives_modify. intros. by apply ok_put_port.
Qed.

(** The oldest packets go, and what remains has room for the new one. *)
Lemma drop_oldest_spec n packets count queued :
  audio_counted packets count queued -> 0 <= n <= 4096 -> queued <= VDS_AUDIO_IN_QUEUE_MAX_BYTES ->
  let '(packets', count', queued') := drop_oldest n packets count queued in
  audio_counted packets' count' queued' /\ queued' + n <= VDS_AUDIO_IN_QUEUE_MAX_BYTES
  /\ (exists gone, packets = gone ++ packets') /\ (queued + n <= VDS_AUDIO_IN_QUEUE_MAX_BYTES -> packets' = packets).
Proof.
  revert count queued. induction packets as [|[off payload] rest IH]; intros count queued (Hp & Hc & Hq) Hn Hm; cbn [drop_oldest].
  - change (mic_stream []) with (@nil Z) in Hq. cbn in Hq. split_and!; [done|unfold VDS_AUDIO_IN_QUEUE_MAX_BYTES, VDS_AUDIO_IN_BYTES_PER_MS, VDS_AUDIO_IN_QUEUE_MS; lia|by exists []|done].
  - rewrite u32_id by (unfold is_u32, VDS_AUDIO_IN_QUEUE_MAX_BYTES, VDS_AUDIO_IN_BYTES_PER_MS, VDS_AUDIO_IN_QUEUE_MS in *; lia).
    destruct (Z.ltb_spec VDS_AUDIO_IN_QUEUE_MAX_BYTES (queued + n)) as [Hover|Hfits].
    + apply Forall_cons in Hp as [[[Hoff _] _] Hrest]. cbn [fst snd length] in *. rewrite mic_stream_cons, length_app, length_drop in Hq.
      set (q1 := if _ <? queued then _ else 0).
      assert (q1 = Z.of_nat (length (mic_stream rest))) as Hq1.
      { subst q1. destruct (Z.ltb_spec (Z.of_nat (length payload) - Z.of_nat off) queued); lia. }
      clearbody q1. specialize (IH (count - 1) q1). destruct (drop_oldest n rest (count - 1) q1) as [[p' c'] q'].
      destruct IH as (I1 & I2 & (gone & ->) & _); [split_and!; [done|lia|done]|done|lia|].
      split_and!; [done..|by exists ((off, payload) :: gone)|lia].
    + split_and!; [done|done|by exists []|done].
Qed.

Lemma write_audio_gives payload :
  bytes_ok payload -> (length payload <= VDS_FRAME_MAX_PAYLOAD)%nat -> gives hcd_ok (fun _ => True) (vds_write_audio_in_frame payload).
Proof.
  intros Hb Hl. unfold vds_write_audio_in_frame. case_match eqn:He; [done|]. apply Nat.eqb_neq in He.
  apply gives_seq; [intros s Hs; split; [by apply ok_put_memory|done]|]. intros allocated. case_match; [done|].
  apply gives_get. intros s Hs. case_match; [done|]. pose proof (ok_host s Hs) as [H1 H2 H3 H4 H5].
  pose proof (drop_oldest_spec (Z.of_nat (length payload)) _ _ _ (conj H2 (conj H3 H4))) as Hd.
  destruct (drop_oldest _ _ _ _) as [[packets count] queued].
  destruct Hd as ((D1 & D2 & D3) & D4 & _); [unfold VDS_FRAME_MAX_PAYLOAD in Hl; lia|done|].
  refine (gives_seq (fun _ => True) _ _ _ _ s Hs).
  - apply gives_modify. intros s' Hs'. apply ok_put_host; [done|].
    assert (is_u32 (queued + Z.of_nat (length payload))) as Hu.
    { unfold is_u32, VDS_AUDIO_IN_QUEUE_MAX_BYTES, VDS_AUDIO_IN_BYTES_PER_MS, VDS_AUDIO_IN_QUEUE_MS in *. lia. }
    split; cbn; [done| | | |]; rewrite ?(u32_id _ Hu); try done.
    + apply Forall_app. split; [done|]. apply Forall_singleton. split; [cbn; lia|done].
    + rewrite length_app. cbn. lia.
    + rewrite mic_stream_app, length_app, mic_stream_cons, length_app, length_drop. change (mic_stream []) with (@nil Z). cbn. lia.
  - intros _. apply gives_seq; [|auto with kernel]. apply gives_modify. intros. by apply ok_put_port.
Qed.

(** ** The character device, connecting, and the entry points of the USB core *)

Lemma write_safe bytes fault dup : bytes_ok bytes -> safe (vds_write bytes fault dup).
Proof.
  intros Hb. unfold vds_write. case_match; [apply safe_ret|]. apply (safe_locked_bind (fun _ => True)); [done|]. intros stopped _.
  case_match; [apply safe_ret|]. case_match; [apply safe_ret|]. cbv zeta. case_match eqn:Hsize; [apply safe_ret|].
  case_match; [apply safe_ret|]. case_match; [apply safe_ret|]. apply orb_false_iff in Hsize as [S1%Z.ltb_ge S2%negb_false_iff%Z.eqb_eq].
  assert (bytes_ok (drop frame_header_size bytes)) as Hp by by apply Forall_drop.
  assert (length (drop frame_header_size bytes) <= VDS_FRAME_MAX_PAYLOAD)%nat as Hl by (rewrite length_drop; lia).
  destruct (if header_length (decode_header bytes) =? 0 then None else dup); [apply safe_ret|].
  apply safe_bind; [|intros; apply safe_ret].
  case_match; [by apply safe_locked, write_input_gives|]. case_match; [by apply feature_reply_safe|].
  by apply safe_locked, write_audio_gives.
Qed.

Lemma take_event_gives count copy_fails : gives hcd_ok (fun _ => True) (take_event count copy_fails).
Proof.
  apply gives_get. intros s Hs. cbv zeta. destruct (events (q_events s)) as [|[h p] rest] eqn:He; [done|]. case_match; [done|].
  refine (gives_seq (fun _ => True) _ _ _ _ s Hs); [|auto with kernel]. apply gives_modify. intros s' Hs'.
  apply ok_put_events; [done|]. pose proof (ok_events s Hs) as [H1 H2 H3 [H4 H5]]. rewrite He in H1, H3, H5. cbn [length] in H1.
  split; cbn [events event_count next_sequence].
  - lia.
  - lia.
  - by apply Forall_cons in H3 as [_ ?].
  - split; [done|]. intros i f Hf. rewrite (H5 (S i) f Hf). f_equal. lia.
Qed.

Lemma locked_get_safe {A B} (f : Hcd -> A) (g : A -> thread Hcd B) :
  (forall a, safe (g a)) -> safe (locked (s ← get_state; mret (f s)) ≫= g).
Proof. intros Hg. by apply (safe_locked_bind (fun _ => True)). Qed.

Lemma read_safe nonblock interrupted count copy_fails : safe (vds_read nonblock interrupted count copy_fails).
Proof.
  unfold vds_read. apply safe_bind.
  - case_match; [by apply safe_locked|apply safe_ret].
  - intros nothing. case_match; [apply safe_ret|]. apply locked_get_safe. intros ready. case_match; [case_match; apply safe_ret|].
    apply safe_locked, take_event_gives.
Qed.

Lemma flush_ok s : hcd_ok s -> hcd_ok (vds_flush_buffered_frames_locked s).
Proof.
  intros Hs. apply ok_put_events.
  - apply ok_put_host; [done|]. split; cbn; try done. split_and!; [lia|done|constructor].
  - pose proof (ok_events s Hs) as [H1 H2 H3 [H4 H5]]. split; cbn; try done.
Qed.
Lemma cancel_hcd_gives status : gives hcd_ok (fun _ => True) (on_urbs (vds_cancel_pending_urbs_locked status)).
Proof. apply gives_on_urbs, cancel_gives. Qed.
Lemma port_gives f : gives hcd_ok (fun _ => True) (modify (put_port_with f)).
Proof. apply gives_modify. intros. by apply ok_put_port. Qed.
#[export] Hint Resolve cancel_hcd_gives port_gives : kernel.

Lemma set_connection_gives connected : gives hcd_ok (fun _ => True) (set_connection connected).
Proof.
  apply gives_get. intros s Hs. case_match; [done|]. case_match.
  - refine (gives_seq (fun _ => True) _ _ _ _ s Hs); auto with kernel.
  - refine (gives_seq (fun _ => True) _ _ _ _ s Hs); [auto with kernel|]. intros _.
    apply gives_seq; [apply gives_modify, flush_ok|]. intros _.
    apply gives_seq; [apply gives_modify; intros; by apply ok_put_clock|]. intros _. apply gives_seq; auto with kernel.
Qed.
Lemma reset_ok d : usb_ok d -> usb_ok (vds_usb_reset_state_locked d).
Proof. intros []. split; cbn; try done; (split; [done|by repeat constructor]). Qed.
Lemma vds_set_connection_safe connected : safe (vds_set_connection connected).
Proof.
  apply (safe_locked_bind (fun _ => True)); [apply set_connection_gives|]. intros reset _. case_match; [|apply safe_ret].
  apply safe_locked, gives_on_usb. intros d Hd. split; [by apply reset_ok|done].
Qed.

Lemma usb_set_profile_ok p d : usb_ok d -> usb_ok (vds_usb_device_set_profile p d).1.
Proof.
  intros Hd. unfold vds_usb_device_set_profile. case_match eqn:E; [done|]. apply negb_false_iff in E.
  pose proof (reset_ok d Hd) as []. by split.
Qed.
Lemma set_profile_gives p mode : gives hcd_ok (fun _ => True) (set_profile p mode).
Proof.
  unfold set_profile. case_match; [done|]. apply gives_get. intros s Hs. case_match; [done|].
  pose proof (usb_set_profile_ok p (usb_dev s) (ok_usb s Hs)) as Hd.
  destruct (vds_usb_device_set_profile p (usb_dev s)) as [d ret]. cbn in Hd.
  refine (gives_seq (fun _ => True) _ _ _ _ s Hs); [apply gives_modify; intros; by apply ok_put_usb|]. intros _.
  case_match; [done|]. apply gives_seq; auto with kernel.
Qed.

Lemma vds_ioctl_safe version cmd fault : safe (vds_ioctl version cmd fault).
Proof.
  destruct cmd; cbn [vds_ioctl]; try (by apply safe_locked); try apply safe_ret;
    (apply (safe_locked_bind (fun _ => True)); [done|]; intros stopped _; case_match; [apply safe_ret|]).
  - case_match; [apply safe_ret|]. apply (safe_locked_bind (fun _ => True)); [apply set_profile_gives|]. intros; apply safe_ret.
  - apply safe_bind; [apply vds_set_connection_safe|intros; apply safe_ret].
  - apply safe_bind; [apply vds_set_connection_safe|intros; apply safe_ret].
  - apply safe_ret.
Qed.

Lemma open_gives : gives hcd_ok (fun _ => True) vds_open.
Proof. apply gives_get. intros s Hs. case_match; [done|]. refine (gives_seq (fun _ => True) _ _ _ _ s Hs); auto with kernel. Qed.
Lemma release_safe : safe vds_release.
Proof.
  apply (safe_locked_bind (fun _ => True)).
  - apply gives_get. intros s Hs. refine (gives_seq (fun _ => True) _ _ _ _ s Hs); auto with kernel.
  - intros disconnect _. apply safe_bind; [|intros; apply safe_ret]. case_match; [apply vds_set_connection_safe|apply safe_ret].
Qed.

Lemma schedule_iso_gives id u input : gives hcd_ok (fun _ => True) (vds_schedule_iso_giveback id u input).
Proof.
  unfold vds_schedule_iso_giveback. apply gives_get. intros s Hs. refine (gives_seq (fun _ => True) _ _ _ _ s Hs).
  - apply gives_on_urb. by intros v [].
  - intros _. apply gives_seq; [apply ready_gives|]. intros _. apply gives_modify. intros. by apply ok_put_clock.
Qed.

Lemma interrupt_in_gives id : gives hcd_ok (fun _ => True) (vds_interrupt_in_urb id).
Proof.
  apply gives_get. intros s Hs. cbv zeta. destruct (input_packets (q_host s)) as [|p rest] eqn:Hi.
  - refine (gives_on_urbs (fun _ => True) _ _ s Hs). intros q Hq. split; [|done].
    unfold mbind, prog_bind. rewrite unlisted_spec. destruct (on_a_list id q) eqn:Hl; [done|].
    apply on_a_list_false in Hl as (L1 & L2 & L3).
    unfold update_context, mbind, prog_bind, modify. rewrite get_context_spec.
    destruct (contexts q !! id) as [c|] eqn:Hc; [|done]. cbn [fst].
    refine (move_ok q id (put_context_state VDS_URB_PENDING_HID_IN c) (hcpriv q) _ _ _ Hq _ _ _ _ _).
    + by eexists.
    + apply union_subseteq_r.
    + apply (moved_on q id); [apply Hq|done].
    + split_and!; [apply Hq|done|done].
    + split_and!; [apply Hq|done|done].
  - pose proof (ok_host s Hs) as [(H1 & H2 & H3) H4 H5 H6 H7]. rewrite Hi in H1, H2, H3. apply Forall_cons in H3 as [Hp H3]. cbn [length] in *.
    refine (gives_seq (fun _ => True) _ _ _ _ s Hs).
    { apply gives_modify. intros s' Hs'. apply ok_put_host; [done|]. split; cbn; try done. split_and!; [lia|lia|done]. }
    intros _. apply gives_seq; [apply fill_urb_gives, Hp|]. intros _. apply gives_seq; [apply schedule_hid_gives|]. auto with kernel.
Qed.

Lemma interrupt_out_safe id : safe (vds_interrupt_out_urb id).
Proof.
  apply safe_read_urb. intros u Hu. cbv zeta. destruct (transfer_buffer_length u =? 0).
  { apply safe_urb. intros v Hv. by apply put_actual_ok. }
  destruct (transfer_buffer u) as [b|] eqn:Hb; [|apply safe_ret]. case_match; [apply safe_ret|].
  apply (safe_locked_bind (fun _ => True)).
  - apply enqueue_frame_gives; [done|]. by apply Forall_take, (ok_buffer u Hu).
  - intros _ _. apply safe_urb. intros v Hv. by apply put_actual_ok.
Qed.

Lemma deliver_flags_gives id o i : gives hcd_ok (fun _ => True) (on_urbs (update_context id (put_deliver o i))).
Proof. by apply gives_on_urbs, update_context_gives. Qed.
Lemma dispatch_safe id u : safe (dispatch_urb id u).
Proof.
  unfold dispatch_urb. apply (safe_usb (fun _ => True)); [done|]. intros d _.
  assert (forall input, safe (time_iso id u input)) as Ht.
  { intros input. unfold time_iso. apply (safe_locked_bind (fun _ => True)); [apply deliver_flags_gives|]. intros _ _.
    apply (safe_locked_bind (fun _ => True)); [apply schedule_iso_gives|]. intros _ _. apply safe_ret. }
  repeat case_match; try apply safe_ret; try apply Ht.
  - apply safe_locked, interrupt_in_gives.
  - apply interrupt_out_safe.
  - apply control_urb_safe.
Qed.

Lemma link_gives u link : urb_ok u -> gives hcd_ok (fun _ => True) (link_urb u link).
Proof.
  intros Hu. apply gives_seq; [intros s Hs; split; [by apply ok_put_memory|done]|]. intros allocated. case_match; [done|].
  apply gives_get. intros s Hs. repeat (case_match; [done|]). refine (gives_seq (fun _ => True) _ _ _ _ s Hs); [|auto with kernel].
  apply gives_modify. intros s' Hs'. apply ok_put_urbs; [done|]. destruct (ok_urbs s Hs).
  set (id := next_urb (q_urbs s)) in *. set (c := mk_context 0 0 0 VDS_URB_ACTIVE false false).
  assert (contexts (q_urbs s) !! id = None) as Hn.
  { destruct (contexts (q_urbs s) !! id) eqn:E; [|done]. assert (id < id)%nat by (apply ok_next0; by eexists). lia. }
  assert (forall st l, st <> VDS_URB_ACTIVE -> listed st l (contexts (q_urbs s)) -> listed st l (<[id := c]> (contexts (q_urbs s)))) as Hl.
  { intros st l Hst [Hd Hm]. split; [done|]. intros x. rewrite Hm. destruct (decide (x = id)) as [->|Hx].
    - rewrite lookup_insert_eq, Hn. split; [by intros (? & ? & _)|]. intros (c' & [= <-] & Hc). by destruct Hst.
    - by rewrite lookup_insert_ne by done. }
  constructor; cbn.
  - by apply map_Forall_insert_2.
  - intros x. rewrite !lookup_insert_is_Some, ok_contexts0. done.
  - intros x. rewrite lookup_insert_is_Some. intros [<-|[_ Hx]]; [lia|]. apply ok_next0 in Hx. lia.
  - by apply Hl.
  - by apply Hl.
  - by apply Hl.
  - intros x [->%elem_of_singleton|Hx]%elem_of_union; rewrite lookup_insert_is_Some; [by left|].
    destruct (decide (id = x)); [by left|right; auto].
  - destruct ok_given0 as [Hd Hg]. split; [done|]. intros g Hin. destruct (Hg g Hin) as [Hlt Hc]. split; [lia|].
    rewrite lookup_insert_ne; [done|lia].
  - intros x Hx. rewrite lookup_insert_is_Some. destruct (decide (id = x)) as [|Hx']; [by left; left|].
    destruct (ok_accounted0 x); [lia|by left; right|by right].
Qed.

Lemma urb_enqueue_safe u link : urb_ok u -> safe (vds_urb_enqueue u link).
Proof.
  intros Hu. apply (safe_locked_bind (fun _ => True)); [by apply link_gives|]. intros [e|id] _; [apply safe_ret|].
  apply safe_bind; [apply dispatch_safe|]. intros ret. case_match; [apply safe_ret|].
  apply (safe_locked_bind (fun _ => True)); [apply queue_gives|]. intros; apply safe_ret.
Qed.

Lemma dequeue_gives id check status : gives hcd_ok (fun _ => True) (vds_urb_dequeue id check status).
Proof.
  unfold vds_urb_dequeue. case_match; [done|]. apply gives_get. intros s Hs. case_match; [done|].
  refine (gives_seq (fun _ => True) _ _ _ _ s Hs).
  { apply gives_on_urbs. intros q Hq. by rewrite get_context_spec. }
  intros c. apply gives_seq; [|auto with kernel]. case_match; [|apply queue_gives].
  apply gives_seq; [|auto with kernel]. by apply gives_on_urbs, update_context_gives.
Qed.

Lemma hub_gives req value index : gives hcd_ok (fun _ => True) (vds_hub_control req value index).
Proof.
  unfold vds_hub_control. apply gives_get. intros s Hs. cbv zeta.
  repeat case_match; try done; (refine (gives_seq (fun _ => True) _ _ _ _ s Hs); auto with kernel).
Qed.
Lemma start_gives : gives hcd_ok (fun _ => True) vds_hcd_start.
Proof.
  apply gives_seq; [apply gives_modify; intros; by apply ok_put_clock|]. intros _. apply gives_seq; auto with kernel.
Qed.
Lemma stop_gives : gives hcd_ok (fun _ => True) vds_hcd_stop.
Proof.
  apply gives_seq; [auto with kernel|]. intros _. apply gives_seq; [auto with kernel|]. intros _.
  apply gives_seq; [apply gives_modify, flush_ok|]. auto with kernel.
Qed.
