(* ===== verification/KernelProps.v ===== *)
(** What the kernel module guarantees: the invariant of the host controller in every
    interleaving of its entry points, what becomes of a URB, feature reports, sound in both
    directions, the order and the times of completion, disconnecting, the frames of the
    character device, and loading the module. *)
From stdpp Require Import base list strings numbers gmap sorting.
From Stdlib Require Import Ascii ZArith Lia.
From S2P Require Import Prelude Text Words Checksum BtPacket Profile UsbDescriptors Threads KernelUsb KernelHcd KernelInv.

Local Open Scope Z_scope.

(** ** What may run *)

(** Time passes. *)
Definition tick (ns : nat) : prog Hcd unit :=
  modify (fun s => let c := clock s in
    put_clock (mk_clock (now c + Z.of_nat ns) (next_iso_out_ready c) (next_iso_in_ready c) (next_hid_in_ready c)) s).

(** A thread of the system calls an entry point of the module: of the USB core, of the
    character device, or the giveback thread. *)
Definition call {A} (t : thread Hcd A) : thread Hcd unit := _ ← t; mret tt.
Inductive kernel_work (i : nat) : thread Hcd unit -> Prop :=
  | submits u link : urb_ok u -> kernel_work i (call (vds_urb_enqueue u link))
  | unlinks id check status : kernel_work i (call (locked (vds_urb_dequeue id check status)))
  | gives_back should_stop : kernel_work i (call (vds_giveback_round should_stop))
  | writes bytes fault dup : bytes_ok bytes -> kernel_work i (call (vds_write bytes fault dup))
  | reads nonblock interrupted count copy_fails : kernel_work i (call (vds_read nonblock interrupted count copy_fails))
  | controls version cmd fault : kernel_work i (call (vds_ioctl version cmd fault))
  | opens : kernel_work i (call (locked vds_open))
  | releases : kernel_work i (call vds_release)
  | hub request value index : kernel_work i (call (locked (vds_hub_control request value index)))
  | starts : kernel_work i (call (locked vds_hcd_start))
  | stops : kernel_work i (call (locked vds_hcd_stop))
  | time_passes ns : kernel_work i (call (locked (tick ns))).

Lemma call_safe {A} (t : thread Hcd A) : safe t -> safe (call t).
Proof. intros Ht. apply safe_bind; [done|]. intros. apply safe_ret. Qed.
Lemma work_safe i t : kernel_work i t -> safe t.
Proof.
  intros []; apply call_safe.
  - by apply urb_enqueue_safe.
  - apply safe_locked, dequeue_gives.
  - apply giveback_round_safe.
  - by apply write_safe.
  - apply read_safe.
  - apply vds_ioctl_safe.
  - apply safe_locked, open_gives.
  - apply release_safe.
  - apply safe_locked, hub_gives.
  - apply safe_locked, start_gives.
  - apply safe_locked, stop_gives.
  - apply safe_locked, gives_modify. intros s Hs. by apply ok_put_clock.
Qed.

(** ** Runs without interference *)

Lemma run_ret {A} (a : A) s : run (mret a : thread Hcd A) s = (s, Ok a).
Proof. done. Qed.
Lemma run_usb {A B} (f : vds_usb_device -> vds_usb_device * A) (g : A -> thread Hcd B) s :
  run (usb_section f ≫= g) s = run (g (f (usb_dev s)).2) (put_usb_dev (f (usb_dev s)).1 s).
Proof. apply run_locked_then. unfold on_usb. cbn. by destruct (f (usb_dev s)). Qed.
Lemma run_usb_end {A} (f : vds_usb_device -> vds_usb_device * A) s :
  run (usb_section f) s = (put_usb_dev (f (usb_dev s)).1 s, Ok (f (usb_dev s)).2).
Proof. unfold usb_section. rewrite run_locked. unfold on_usb. cbn. by destruct (f (usb_dev s)). Qed.

Definition with_urb (id : nat) (u : urb) (s : Hcd) : Hcd := put_q_urbs (put_store (<[id := u]> (urb_store (q_urbs s))) (q_urbs s)) s.
Lemma on_urb_spec {A} id (f : urb -> urb * A) s u :
  urb_store (q_urbs s) !! id = Some u -> on_urb id f s = (with_urb id (f u).1 s, Ok (f u).2).
Proof. intros Hu. unfold on_urb. cbn. rewrite Hu. by destruct (f u). Qed.
Lemma run_access {A B} id (f : urb -> urb * A) (g : A -> thread Hcd B) s u :
  urb_store (q_urbs s) !! id = Some u -> run (urb_access id f ≫= g) s = run (g (f u).2) (with_urb id (f u).1 s).
Proof. intros Hu. apply run_locked_then. by apply on_urb_spec. Qed.
Lemma run_access_end {A} id (f : urb -> urb * A) s u :
  urb_store (q_urbs s) !! id = Some u -> run (urb_access id f) s = (with_urb id (f u).1 s, Ok (f u).2).
Proof. intros Hu. unfold urb_access. rewrite run_locked. by apply on_urb_spec. Qed.
Lemma with_urb_same id u s : urb_store (q_urbs s) !! id = Some u -> with_urb id u s = s.
Proof. intros Hu. unfold with_urb. rewrite insert_id by done. by destruct s as [? [] ? ? ? ? ?]. Qed.
Lemma with_urb_lookup id u s : urb_store (q_urbs (with_urb id u s)) !! id = Some u.
Proof. cbn. apply lookup_insert_eq. Qed.
Lemma with_urb_twice id u v s : with_urb id u (with_urb id v s) = with_urb id u s.
Proof. unfold with_urb. cbn. by rewrite insert_insert_eq. Qed.

(** ** Control transfers *)

Lemma put_usb_same s : put_usb_dev (usb_dev s) s = s.
Proof. by destruct s. Qed.

(** The eight bytes of a setup packet. *)
Definition setup_bytes (request_type request value_low value_high index_low index_high length_low length_high : Z) : list Z :=
  [request_type; request; value_low; value_high; index_low; index_high; length_low; length_high].
Lemma decode_setup_bytes t r vl vh il ih ll lh :
  decode_setup (setup_bytes t r vl vh il ih ll lh) = mk_setup t r (vl + 256 * vh) (il + 256 * ih) (ll + 256 * lh).
Proof. unfold decode_setup, setup_bytes. cbn. f_equal; lia. Qed.
Lemma low_of l h : is_u8 l -> Z.land (l + 256 * h) 0xff = l.
Proof.
  intros Hl. rewrite land_255. unfold u8, is_u8 in *. change (2 ^ 8) with 256 in *.
  rewrite Z.mul_comm, Z.mod_add by lia. by apply Z.mod_small.
Qed.
Lemma high_of l h : is_u8 l -> Z.shiftr (l + 256 * h) 8 = h.
Proof.
  intros Hl. rewrite Z.shiftr_div_pow2 by lia. unfold is_u8 in *. change (2 ^ 8) with 256 in *.
  rewrite Z.mul_comm, Z.div_add by lia. rewrite Z.div_small; lia.
Qed.

Definition control (u : urb) (setup : list Z) : Prop := urb_pipe_type u = PIPE_CONTROL /\ setup_packet u = Some setup.

(** What a control transfer on URB [id] runs, by its setup packet. *)
Lemma run_standard id s u t r vl vh il ih ll lh :
  urb_store (q_urbs s) !! id = Some u -> setup_packet u = Some (setup_bytes t r vl vh il ih ll lh) ->
  Z.land t USB_TYPE_MASK = USB_TYPE_STANDARD ->
  run (vds_usb_device_control_urb (Some vds_usb_ops) id) s =
  run (vds_usb_standard_control (Some vds_usb_ops) id (mk_setup t r (vl + 256 * vh) (il + 256 * ih) (ll + 256 * lh))
         (vds_usb_device_profile (usb_dev s))) (with_urb id (put_actual 0 u) s).
Proof.
  intros Hu Hp Ht. unfold vds_usb_device_control_urb. rewrite run_usb. cbn [fst snd]. rewrite put_usb_same.
  rewrite (run_access _ _ _ _ u) by done. rewrite Hp. cbn [fst snd]. rewrite decode_setup_bytes. cbv zeta.
  cbn [bRequestType]. by rewrite Ht.
Qed.
Lemma run_class id s u t r vl vh il ih ll lh :
  urb_store (q_urbs s) !! id = Some u -> setup_packet u = Some (setup_bytes t r vl vh il ih ll lh) ->
  Z.land t USB_TYPE_MASK = USB_TYPE_CLASS -> Z.land t USB_RECIP_MASK = USB_RECIP_INTERFACE -> is_u8 il ->
  let p := vds_usb_device_profile (usb_dev s) in
  let setup := mk_setup t r (vl + 256 * vh) (il + 256 * ih) (ll + 256 * lh) in
  run (vds_usb_device_control_urb (Some vds_usb_ops) id) s =
  run (if il =? hid_interface p then vds_usb_hid_control (Some vds_usb_ops) id setup p else vds_usb_audio_control id setup p)
    (with_urb id (put_actual 0 u) s).
Proof.
  intros Hu Hp Ht Hr Hi. cbv zeta. unfold vds_usb_device_control_urb. rewrite run_usb. cbn [fst snd]. rewrite put_usb_same.
  rewrite (run_access _ _ _ _ u) by done. rewrite Hp. cbn [fst snd]. rewrite decode_setup_bytes. cbv zeta.
  cbn [bRequestType wIndex]. rewrite Ht, Hr, low_of by done. done.
Qed.
Lemma hid_interface_3 d : hid_interface (vds_usb_device_profile d) = 3.
Proof. by destruct (known_device_profile d) as [-> | ->]. Qed.


(** A transfer buffer that holds the beginning of [data], and what it held before. *)
Definition filled (u : urb) (data : list Z) : urb :=
  let n := Nat.min (length data) (Z.to_nat (transfer_buffer_length u)) in copy_out u data n.
Lemma filled_buffer u data b :
  transfer_buffer u = Some b -> Z.of_nat (length b) = transfer_buffer_length u ->
  let n := Nat.min (length data) (length b) in
  transfer_buffer (filled u data) = Some (take n data ++ drop n b) /\ actual_length (filled u data) = Z.of_nat n.
Proof.
  intros Hb Hl. unfold filled. rewrite <- Hl, Nat2Z.id. cbv zeta. cbn. rewrite Hb. split; [|done].
  unfold copy_into. rewrite take_0, length_take. cbn [app]. do 3 f_equal. lia.
Qed.

(** A feature report that is asked for. *)
Definition get_feature (r length_low length_high : Z) : list Z := setup_bytes 0xa1 HID_REQ_GET_REPORT r 3 3 0 length_low length_high.

(** ** Accepting a URB *)

Definition fresh_context : vds_urb_context := mk_context 0 0 0 VDS_URB_ACTIVE false false.
Definition linked (u : urb) (s : Hcd) : Hcd :=
  let q := q_urbs s in let id := next_urb q in
  put_q_urbs (mk_urbs (<[id := u]> (urb_store q)) (<[id := fresh_context]> (contexts q)) ({[id]} ∪ hcpriv q) (S id)
                (pending_hid_in q) (pending_feature_get q) (completed_urbs q) (given_back q)) s.

(** Nothing is in the way: the host controller runs, memory is there. *)
Definition running (s : Hcd) : Prop := stopping (port s) = false /\ memory s = [].

Lemma put_memory_nil s : memory s = [] -> put_memory [] s = s.
Proof. intros Hm. rewrite <- Hm. by destruct s. Qed.
Lemma put_memory_same s : memory s = [] -> put_memory (tail (memory s)) s = s.
Proof. intros Hm. rewrite Hm. cbn. rewrite <- Hm. by destruct s. Qed.
Lemma link_spec u s : running s -> link_urb u 0 s = (linked u s, Ok (inr (next_urb (q_urbs s)))).
Proof.
  intros [Hs Hm]. unfold link_urb. unfold mbind at 1, prog_bind. rewrite kmalloc_spec, put_memory_same, Hm by done.
  cbn [default head negb]. unfold mbind, prog_bind, get_state. by rewrite Hs.
Qed.
Lemma linked_store u s : urb_store (q_urbs (linked u s)) !! next_urb (q_urbs s) = Some u.
Proof. cbn. apply lookup_insert_eq. Qed.

Lemma run_enqueue u s :
  running s ->
  run (vds_urb_enqueue u 0) s =
  match run (dispatch_urb (next_urb (q_urbs s)) u) (linked u s) with
  | (s1, Ok ret) => if left_pending u ret then (s1, Ok 0)
                    else let '(s2, r) := vds_queue_urb_giveback (next_urb (q_urbs s)) ret s1 in
                         (s2, match r with Ok _ => Ok 0 | Throw e => Throw e end)
  | (s1, Throw e) => (s1, Throw e)
  end.
Proof.
  intros Hr. unfold vds_urb_enqueue. rewrite (run_locked_then _ _ _ _ _ (link_spec u s Hr)). rewrite run_bind.
  unfold mbind, prog_bind. destruct (run (dispatch_urb _ u) (linked u s)) as [s1 [ret|e]]; [|done].
  destruct (left_pending u ret); [done|].
  etransitivity; [exact (run_bind (locked (vds_queue_urb_giveback (next_urb (q_urbs s)) ret)) (fun _ => mret 0) s1)|].
  unfold mbind, prog_bind. rewrite run_locked.
  destruct (vds_queue_urb_giveback (next_urb (q_urbs s)) ret s1) as [s2 [w|e]]; done.
Qed.
Lemma run_dispatch_control id u s :
  urb_pipe_type u = PIPE_CONTROL -> run (dispatch_urb id u) s = run (vds_usb_device_control_urb (Some vds_usb_ops) id) s.
Proof. intros Hp. unfold dispatch_urb. rewrite run_usb, Hp. cbn [fst snd]. by rewrite put_usb_same. Qed.

(** A URB that is new is queued for giveback with its status. *)
Definition completes (id : nat) (status : Z) (s s' : Hcd) : Prop :=
  id ∈ completed_urbs (q_urbs s') /\ (exists c, contexts (q_urbs s') !! id = Some c /\ context_status c = status)
  /\ urb_store (q_urbs s') = urb_store (q_urbs s) /\ usb_dev s' = usb_dev s /\ q_events s' = q_events s
  /\ port s' = port s /\ memory s' = memory s /\ given_back (q_urbs s') = given_back (q_urbs s)
  /\ clock s' = clock s /\ q_host s' = q_host s.
Lemma queue_completes id status s c :
  contexts (q_urbs s) !! id = Some c -> context_state c <> VDS_URB_PENDING_GIVEBACK -> context_state c <> VDS_URB_GIVING_BACK ->
  exists s', vds_queue_urb_giveback id status s = (s', Ok true) /\ completes id status s s'.
Proof.
  intros Hc H1 H2. unfold vds_queue_urb_giveback, on_urbs. rewrite queue_giveback_spec, Hc.
  rewrite (bool_decide_eq_false_2 _ H1), (bool_decide_eq_false_2 _ H2). cbv zeta. cbn [orb]. eexists. split; [done|].
  split_and!; cbn; try done.
  - rewrite insert_completed_perm. apply list_elem_of_here.
  - rewrite lookup_insert_eq. by eexists.
Qed.
Lemma queue_keeps_ready id status s s' b c c' :
  contexts (q_urbs s) !! id = Some c -> vds_queue_urb_giveback id status s = (s', Ok b) ->
  contexts (q_urbs s') !! id = Some c' -> ready_time c' = ready_time c.
Proof.
  intros Hc. unfold vds_queue_urb_giveback, on_urbs. rewrite queue_giveback_spec, Hc. cbv zeta.
  destruct (_ || _); intros [= <- <-]; cbn; [|rewrite lookup_insert_eq; by intros [= <-]].
  rewrite Hc. by intros [= <-].
Qed.

(** ** Feature reports *)





(** A walk over waiting URBs: each is changed by [f], which also says with what status it is
    completed; no other is touched. *)
Definition changes (f : urb -> urb * Z) (status : nat -> prog UrbState Z) : Prop :=
  forall id q u, urb_store q !! id = Some u -> status id q = (put_store (<[id := (f u).1]> (urb_store q)) q, Ok (f u).2).

Record walked (f : urb -> urb * Z) (ids : list nat) (q q' : UrbState) : Prop := {
  walked_ok : urbs_ok q';
  walked_in : forall id u, id ∈ ids -> urb_store q !! id = Some u ->
    id ∈ completed_urbs q' /\ urb_store q' !! id = Some (f u).1
    /\ exists c, contexts q' !! id = Some c /\ context_status c = (f u).2;
  walked_out : forall id, id ∉ ids -> urb_store q' !! id = urb_store q !! id /\ contexts q' !! id = contexts q !! id;
  walked_done : forall id, id ∈ completed_urbs q -> id ∈ completed_urbs q';
  walked_hid : forall id, id ∈ pending_hid_in q' <-> id ∈ pending_hid_in q /\ id ∉ ids;
  walked_feature : forall id, id ∈ pending_feature_get q' <-> id ∈ pending_feature_get q /\ id ∉ ids;
  walked_given : given_back q' = given_back q /\ next_urb q' = next_urb q
}.

Definition waits (st : vds_urb_context_state) : Prop := st = VDS_URB_PENDING_HID_IN \/ st = VDS_URB_PENDING_FEATURE_GET.

Lemma queue_all_walks f status ids q :
  changes f status -> (forall u, urb_ok u -> urb_ok (f u).1) -> urbs_ok q -> NoDup ids ->
  (forall id, id ∈ ids -> exists c, contexts q !! id = Some c /\ waits (context_state c)) ->
  exists q' w, queue_all status ids q = (q', Ok w) /\ walked f ids q q'.
Proof.
  intros Hf Hfok. revert q. induction ids as [|id ids IH]; intros q Hq Hd Hw; cbn [queue_all].
  - exists q, false. split; [done|]. constructor; try done; [by intros id u ?%elem_of_nil|..];
      intros id; rewrite elem_of_nil; tauto.
  - apply NoDup_cons in Hd as [Hni Hd]. destruct (Hw id) as (c & Hc & Hst); [apply list_elem_of_here|].
    destruct (proj2 (ok_contexts q Hq id)) as [u Hu]; [by eexists|].
    unfold mbind at 1, prog_bind. rewrite (Hf id q u Hu). set (q1 := put_store _ q).
    assert (urbs_ok q1) as Hq1 by (eapply put_store_ok; [done|done|apply Hfok, (ok_store q Hq id u Hu)]).
    unfold mbind at 1, prog_bind. pose proof (queue_giveback_ok id (f u).2 q1 Hq1) as Hq2.
    rewrite queue_giveback_spec in *. change (contexts q1) with (contexts q) in *. rewrite Hc in *.
    assert (bool_decide (context_state c = VDS_URB_PENDING_GIVEBACK) || bool_decide (context_state c = VDS_URB_GIVING_BACK) = false) as Hb.
    { destruct Hst as [E|E]; rewrite E; reflexivity. }
    rewrite Hb in *. cbv zeta in *. cbn [fst] in Hq2.
    match type of Hq2 with urbs_ok ?x => set (q2 := x) in * end.
    destruct (IH q2 Hq2 Hd) as (q' & w & E & [W1 W2 W3 W4 W5 W6 W7]).
    { intros x Hx. destruct (Hw x) as (cx & Hcx & ?); [by apply list_elem_of_further|]. exists cx. split; [|done].
      cbn. rewrite lookup_insert_ne; [done|]. by intros ->. }
    unfold mbind, prog_bind. rewrite E. exists q', true. split; [done|]. split; [done| | | | | |].
    + intros x v [->|Hx]%elem_of_cons Hv.
      * destruct (W3 id Hni) as [A1 A2]. assert (v = u) as -> by congruence. split_and!.
        -- apply W4. cbn. rewrite insert_completed_perm. apply list_elem_of_here.
        -- rewrite A1. cbn. apply lookup_insert_eq.
        -- rewrite A2. cbn. rewrite lookup_insert_eq. by eexists.
      * apply W2; [done|]. cbn. rewrite lookup_insert_ne; [done|]. by intros ->.
    + intros x [Hx Hxs]%not_elem_of_cons. destruct (W3 x Hxs) as [-> ->]. cbn. by rewrite !lookup_insert_ne by done.
    + intros x Hx. destruct (decide (x = id)) as [->|Hn].
      * apply W4. cbn. rewrite insert_completed_perm. apply list_elem_of_here.
      * apply W4. cbn. rewrite insert_completed_perm. apply list_elem_of_further. by rewrite elem_without.
    + intros x. rewrite W5, not_elem_of_cons. cbn. rewrite elem_without. tauto.
    + intros x. rewrite W6, not_elem_of_cons. cbn. rewrite elem_without. tauto.
    + done.
Qed.

Lemma const_changes st : changes (fun u => (u, st)) (fun _ => mret st).
Proof. intros id q u Hu. cbn. rewrite insert_id by done. by destruct q. Qed.





(** Setting a feature report. *)
Definition set_feature (r length_low length_high : Z) : list Z := setup_bytes 0x21 HID_REQ_SET_REPORT r 3 3 0 length_low length_high.
Definition sets_feature (u : urb) (r length_low length_high : Z) (b : list Z) : Prop :=
  control u (set_feature r length_low length_high) /\ is_u8 r /\ transfer_buffer u = Some b
  /\ transfer_buffer_length u = Z.of_nat (length b) /\ (1 <= length b <= 64)%nat.
Lemma set_report u s r ll lh b :
  hcd_ok s -> running s -> event_count (q_events s) < kMaxEvents -> sets_feature u r ll lh b ->
  let id := next_urb (q_urbs s) in
  exists s', run (vds_urb_enqueue u 0) s = (s', Ok 0) /\ usb_dev s' = usb_dev s /\ port s' = port s /\ memory s' = memory s
  /\ events (q_events s') = events (q_events s) ++ [next_frame VDS_FRAME_USB_FEATURE_SET (r :: b) (q_events s)]
  /\ id ∈ completed_urbs (q_urbs s').
Proof.
  intros Hs Hr He ([Hp Hset] & Hru & Hb & Hl & Hlen). cbv zeta. rewrite run_enqueue, run_dispatch_control by done.
  set (id := next_urb (q_urbs s)).
  rewrite (run_class id (linked u s) u 0x21 HID_REQ_SET_REPORT r 3 3 0 ll lh) by (done || apply linked_store).
  rewrite hid_interface_3. change (3 =? 3) with true. cbv iota. unfold vds_usb_hid_control. rewrite hid_interface_3.
  cbn [wIndex wValue bRequest]. rewrite low_of, high_of, (low_of r) by done. change (negb (3 =? 3)) with false.
  change (HID_REQ_SET_REPORT =? HID_REQ_GET_REPORT) with false. change (HID_REQ_SET_REPORT =? HID_REQ_SET_REPORT) with true.
  change (3 =? HID_REPORT_TYPE_FEATURE) with true. cbn [negb]. cbv iota. unfold set_feature_report, read_urb.
  rewrite (run_access _ _ _ _ (put_actual 0 u)) by apply with_urb_lookup. cbn [fst snd].
  rewrite with_urb_twice. cbn [transfer_buffer_length transfer_buffer put_actual]. rewrite Hl, Hb.
  rewrite bool_decide_eq_true_2 by (by eexists). cbn [negb default]. rewrite andb_false_r.
  destruct (Z.eqb_spec (Z.of_nat (length b)) 0); [lia|]. cbn [negb].
  destruct (Z.ltb_spec (Z.of_nat VDS_CONTROLLER_HID_PACKET_SIZE) (Z.of_nat (length b))); [unfold VDS_CONTROLLER_HID_PACKET_SIZE in *; lia|].
  unfold vds_usb_enqueue_frame. cbn [mbind option_bind enqueue_frame vds_usb_ops].
  set (s0 := with_urb id (put_actual 0 u) (linked u s)).
  assert (vds_enqueue_frame VDS_FRAME_USB_FEATURE_SET (r :: b) s0 = (put_q_events (add_event VDS_FRAME_USB_FEATURE_SET (r :: b) (q_events s)) s0, Ok 0)) as E.
  { rewrite enqueue_frame_spec. rewrite (proj2 (Nat.ltb_ge _ _)) by (unfold VDS_FRAME_MAX_PAYLOAD; cbn [length]; lia). cbv zeta.
    change (memory s0) with (memory s). change (q_events s0) with (q_events s). change (port s0) with (port s).
    destruct Hr as [Hr1 Hr2]. rewrite Hr1, Hr2. cbn [default head negb tail]. rewrite (proj2 (Z.leb_gt _ _)) by done.
    by rewrite (put_memory_nil s0 Hr2). }
  rewrite (run_locked_then _ _ _ _ _ E). change (0 =? 0) with true. cbn [negb]. set (s1 := put_q_events _ s0).
  rewrite (run_access_end id _ s1 (put_actual 0 u)) by apply with_urb_lookup. cbn [fst snd].
  unfold left_pending. change (0 =? - EINPROGRESS) with false. cbn [andb]. set (s2 := with_urb id _ s1).
  destruct (queue_completes id 0 s2 fresh_context) as (s' & Eq & C1 & _ & _ & C4 & C5 & C6 & C7 & _).
  { cbn. apply lookup_insert_eq. }
  { done. }
  { done. }
  rewrite Eq. exists s'. split_and!; try done. by rewrite C5.
Qed.




(** ** Sound for the daemon *)

(** The bytes of the packets that lie in the buffer, and what the host is told of each packet. *)
Definition iso_data (buffer : list Z) (ds : list iso_packet) : list Z :=
  concat ((fun d => if iso_out_of_range (Z.of_nat (length buffer)) d then [] else piece buffer (offset d, iso_length d)) <$> ds).
Definition iso_result (tbl : Z) (d : iso_packet) : iso_packet :=
  if iso_out_of_range tbl d then mk_iso (offset d) (iso_length d) 0 (- EOVERFLOW) else mk_iso (offset d) (iso_length d) (iso_length d) 0.
Definition iso_errors (tbl : Z) (ds : list iso_packet) : Z := Z.of_nat (length (filter (fun d => iso_out_of_range tbl d = true) ds)).
Definition iso_valid (d : iso_packet) : Prop := is_u32 (offset d) /\ is_u32 (iso_length d).

Lemma piece_app buffer start len more :
  0 <= start -> 0 <= len -> 0 <= more -> start + len + more <= Z.of_nat (length buffer) ->
  piece buffer (start, len + more) = piece buffer (start, len) ++ piece buffer (start + len, more).
Proof.
  intros Hs Hl Hm Hb. unfold piece. cbn [fst snd]. rewrite !Z2Nat.inj_add by lia. rewrite <- drop_drop.
  set (l := drop (Z.to_nat start) buffer).
  rewrite <- (take_drop (Z.to_nat len) l) at 1. rewrite take_app_ge by (rewrite length_take; lia).
  f_equal. f_equal. rewrite length_take. subst l. rewrite length_drop. lia.
Qed.
Lemma piece_length buffer start len :
  0 <= start -> 0 <= len -> start + len <= Z.of_nat (length buffer) -> length (piece buffer (start, len)) = Z.to_nat len.
Proof. intros. unfold piece. cbn. rewrite length_take, length_drop. lia. Qed.

(** The piece that is being gathered lies in the buffer. *)
Definition chunk_ok (buffer : list Z) (bound : Z) (chunk : option (Z * Z * Z)) : Prop :=
  match chunk with
  | None => True
  | Some (start, len, next) => 0 <= start /\ 0 < len <= bound /\ next = start + len /\ next <= Z.of_nat (length buffer)
  end.
Definition chunk_data (buffer : list Z) (chunk : option (Z * Z * Z)) : list Z :=
  match chunk with None => [] | Some (start, len, _) => piece buffer (start, len) end.

Lemma iso_out_loop_spec buffer bound chunk total errors ds done_ pieces t e :
  Z.of_nat VDS_FRAME_MAX_PAYLOAD <= bound -> Forall iso_valid ds -> Forall (fun d => iso_length d <= bound) ds ->
  chunk_ok buffer bound chunk ->
  iso_out_loop (Z.of_nat (length buffer)) chunk total errors ds = (done_, pieces, t, e) ->
  concat (piece buffer <$> pieces) = chunk_data buffer chunk ++ iso_data buffer ds
  /\ Forall (fun p => 0 < p.2 <= bound /\ 0 <= p.1 /\ p.1 + p.2 <= Z.of_nat (length buffer)) pieces
  /\ done_ = iso_result (Z.of_nat (length buffer)) <$> ds /\ e = errors + iso_errors (Z.of_nat (length buffer)) ds.
Proof.
  intros Hmax Hv Hb. revert chunk total errors done_ pieces t e Hb. induction Hv as [|d ds [Ho Hl] _ IH]; intros chunk total errors done_ pieces t e Hb Hc.
  - cbn [iso_out_loop]. intros [= <- <- <- <-]. unfold iso_data, iso_errors. cbn. rewrite app_nil_r. split_and!; try done; [| |lia].
    + destruct chunk as [[[start len] next]|]; [|done]. cbn. by rewrite app_nil_r.
    + destruct chunk as [[[start len] next]|]; [|constructor]. cbn in Hc. apply Forall_singleton. cbn. lia.
  - apply Forall_cons in Hb as [Hbd Hb]. cbn [iso_out_loop]. unfold iso_data, iso_errors. rewrite !fmap_cons. cbn [concat]. rewrite filter_cons.
    unfold iso_result at 1. destruct (iso_out_of_range (Z.of_nat (length buffer)) d) eqn:Hr.
    + destruct (iso_out_loop _ chunk total (errors + 1) ds) as [[[done1 p1] t1] e1] eqn:E. intros [= <- <- <- <-].
      apply IH in E as (E1 & E2 & E3 & E4); try done. rewrite E1, E3, E4. split_and!; try done.
      rewrite decide_True by done. unfold iso_errors. cbn [length]. lia.
    + rewrite decide_False by done. unfold iso_out_of_range in Hr. apply orb_false_iff in Hr as [R1%Z.ltb_ge R2%Z.ltb_ge].
      unfold is_u32 in Ho, Hl. set (fresh := Some (offset d, iso_length d, offset d + iso_length d)).
      destruct (if iso_length d =? 0 then ([], chunk) else _) as [flushed chunk'] eqn:Ef.
      assert (chunk_ok buffer bound chunk' /\ Forall (fun p => 0 < p.2 <= bound /\ 0 <= p.1 /\ p.1 + p.2 <= Z.of_nat (length buffer)) flushed
              /\ concat (piece buffer <$> flushed) ++ chunk_data buffer chunk' = chunk_data buffer chunk ++ piece buffer (offset d, iso_length d))
        as (F1 & F2 & F3).
      { destruct (Z.eqb_spec (iso_length d) 0) as [Hz|Hz].
        { injection Ef as <- <-. rewrite Hz. split_and!; [done|done|]. unfold piece. cbn. by rewrite app_nil_r. }
        assert (chunk_ok buffer bound fresh) as Hfresh by (cbn; lia).
        destruct chunk as [[[start len] next]|]; [|injection Ef as <- <-; by split_and!].
        cbn in Hc. destruct Hc as (Hc1 & Hc2 & -> & Hc3).
        destruct ((offset d =? start + len) && (len + iso_length d <=? Z.of_nat VDS_FRAME_MAX_PAYLOAD)) eqn:Em; injection Ef as <- <-.
        - apply andb_true_iff in Em as [Em1%Z.eqb_eq Em2%Z.leb_le]. split_and!; [cbn; lia|constructor|].
          cbn [chunk_data concat fmap list_fmap app]. rewrite Em1. apply piece_app; lia.
        - split_and!; [done| |].
          + apply Forall_singleton. cbn. lia.
          + cbn. by rewrite app_nil_r. }
      destruct (iso_out_loop _ chunk' _ errors ds) as [[[done1 p1] t1] e1] eqn:E. intros [= <- <- <- <-].
      apply IH in E as (E1 & E2 & E3 & E4); try done. rewrite fmap_app, concat_app, E1, E3, E4, app_assoc, F3, <- app_assoc.
      split_and!; try done. by apply Forall_app.
Qed.

Definition add_all (t : Z) (payloads : list (list Z)) (e : EventState) : EventState := foldl (fun e p => add_event t p e) e payloads.
Lemma add_all_payloads t payloads e :
  (fun f => f.2) <$> events (add_all t payloads e) = ((fun f => f.2) <$> events e) ++ payloads.
Proof.
  revert e. induction payloads as [|p ps IH]; intros e; cbn [add_all foldl]; [by rewrite app_nil_r|].
  change (foldl _ ?x ps) with (add_all t ps x). rewrite IH. cbn. rewrite fmap_app. cbn. by rewrite <- app_assoc.
Qed.
Lemma add_all_events t payloads e : exists more, events (add_all t payloads e) = events e ++ more /\ Forall (fun f => type f.1 = t) more.
Proof.
  revert e. induction payloads as [|p ps IH]; intros e; cbn [add_all foldl]; [exists []; by rewrite app_nil_r|].
  change (foldl _ ?x ps) with (add_all t ps x). destruct (IH (add_event t p e)) as (more & -> & Hm).
  exists (next_frame t p e :: more). cbn. rewrite <- app_assoc. split; [done|]. by constructor.
Qed.

Lemma run_pieces buffer pieces s :
  running s -> event_count (q_events s) + Z.of_nat (length pieces) <= kMaxEvents ->
  Forall (fun p => (length (piece buffer p) <= VDS_FRAME_MAX_PAYLOAD)%nat) pieces ->
  run (enqueue_pieces buffer pieces) s = (put_q_events (add_all VDS_FRAME_USB_AUDIO_OUT (piece buffer <$> pieces) (q_events s)) s, Ok tt).
Proof.
  intros Hr Hn Hp. revert s Hr Hn. induction Hp as [|p pieces Hl _ IH]; intros s Hr Hn; cbn [enqueue_pieces].
  - cbn. by destruct s.
  - assert (vds_enqueue_frame VDS_FRAME_USB_AUDIO_OUT (piece buffer p) s
            = (put_q_events (add_event VDS_FRAME_USB_AUDIO_OUT (piece buffer p) (q_events s)) s, Ok 0)) as E.
    { rewrite enqueue_frame_spec, (proj2 (Nat.ltb_ge _ _)) by done. cbv zeta. destruct Hr as [Hr1 Hr2]. rewrite Hr1, Hr2.
      cbn [default head negb tail length] in *. rewrite (proj2 (Z.leb_gt _ _)) by lia. by rewrite (put_memory_nil s Hr2). }
    rewrite (run_locked_then _ _ _ _ _ E). rewrite IH; [done|done|]. cbn [length] in Hn. cbn. lia.
Qed.

(** ** The properties: the invariant *)

(** C16. Whatever threads enter the module at once - URBs submitted and unlinked, frames read
    and written, the giveback thread, ioctls, the hub, starting and stopping - and wherever
    they interrupt each other between their sections, every accepted URB has one context on
    exactly the list its state names and is given back at most once, none is lost; the queued
    frames are well-formed and numbered without gaps; at most one input report and 19200
    bytes of microphone sound wait; the device keeps a legal configuration.  (A thread that
    would touch a context that was freed stops instead.) *)
Theorem kernel_keeps_invariant time answers n s ts :
  pool_reaches kernel_work (initial_hcd time answers, replicate (S n) (mret tt)) (s, ts) -> hcd_ok s.
Proof.
  intros Hr. destruct (pool_staged kernel_work (fun _ : unit => hcd_ok) tt) with (2 := fun t H => all_gives_proves _ t tt (work_safe 0 t H))
    (3 := fun i t H => work_safe (S i) t H) (4 := Hr) as ([] & t & ts' & _ & Hs & _); [by intros []| |done].
  exists tt, (mret tt), (replicate n (mret tt)). split_and!; [done|apply initial_hcd_ok|constructor|].
  apply Forall_replicate, all_gives_ret.
Qed.

(** A transfer that asks for a report of 64 bytes. *)
Definition feature_urb (packet : list Z) (data : list Z) : urb :=
  mk_urb PIPE_CONTROL true 0 (Some packet) (Some data) (Z.of_nat (length data)) 0 [] 0 0.
Definition get_urb (r : Z) : urb := feature_urb (get_feature r 64 0) (replicate 64 0).
Lemma get_urb_ok r : is_u8 r -> urb_ok (get_urb r).
Proof.
  intros Hr. split; cbn; try done.
  - intros ? [= <-]. unfold get_feature, setup_bytes, bytes_ok. by rewrite !Forall_cons.
  - intros ? [= <-]. split; [done|]. apply (bytes_ok_zeros 64).
Qed.
Lemma initial_running time : running (initial_hcd time []).
Proof. by split. Qed.

Lemma kernel_keeps_invariant_witness :
  exists s ts, pool_reaches kernel_work (initial_hcd 0 [], replicate 2 (mret tt)) (s, ts)
  /\ next_urb (q_urbs s) = 1%nat /\ hcd_ok s.
Proof.
  assert (exists s ts, pool_reaches kernel_work (initial_hcd 0 [], replicate 2 (mret tt)) (s, ts) /\ next_urb (q_urbs s) = 1%nat)
    as (s & ts & Hr & Hn).
  { do 2 eexists. split; [eapply rtc_l; [|eapply rtc_l; [|apply rtc_refl]]|].
    - apply (pool_starts _ 0 tt (call (vds_urb_enqueue (get_urb 5) 0))); [done|]. by apply submits, get_urb_ok.
    - eapply (pool_runs _ 0); reflexivity.
    - reflexivity. }
  exists s, ts. split_and!; [done|done|by eapply (kernel_keeps_invariant 0 [] 1)].
Defined.

(** ** The properties: feature reports *)



(** A transfer that sets a report, and a device that has a reply. *)
Definition set_urb (r : Z) (data : list Z) : urb := feature_urb (set_feature r (Z.of_nat (length data)) 0) data.
Lemma set_urb_ok r data : is_u8 r -> bytes_ok data -> (length data <= 64)%nat -> urb_ok (set_urb r data).
Proof.
  intros Hr Hd Hl. split; cbn; try done.
  - intros ? [= <-]. unfold set_feature, setup_bytes, bytes_ok. rewrite !Forall_cons. split_and!; try done. unfold is_u8. lia.
  - unfold is_u32. lia.
  - intros ? [= <-]. by split.
Qed.


(** The transfer that sets a report begins with the id of the report; the module puts the
    id in front of it once more, and the packet the daemon makes of the frame has it twice:
    what the controller reads behind the id is the id again. *)
Theorem set_report_doubles_its_id u s r ll lh data :
  hcd_ok s -> running s -> event_count (q_events s) < kMaxEvents -> urb_ok u -> sets_feature u r ll lh (r :: data) ->
  (4 <= length data)%nat ->
  exists s' packet, run (vds_urb_enqueue u 0) s = (s', Ok 0)
  /\ events (q_events s') = events (q_events s) ++ [next_frame VDS_FRAME_USB_FEATURE_SET (r :: r :: data) (q_events s)]
  /\ feature_set_packet (r :: r :: data) = Ok packet /\ take 3 packet = [kBtHidpSetFeaturePrefix; r; r].
Proof.
  intros Hs Hr He Hu Hset Hl. destruct (set_report u s r ll lh (r :: data) Hs Hr He Hset) as (s' & E & _ & _ & _ & F & _).
  destruct Hset as (_ & Hru & Hb & _). destruct (ok_buffer u Hu _ Hb) as [_ Hbytes].
  pose proof (feature_set_spec (r :: r :: data) (proj2 (Forall_cons _ _ _) (conj Hru Hbytes))) as Ep.
  rewrite decide_False in Ep by done. rewrite (proj2 (Nat.ltb_ge _ _)) in Ep by (cbn; lia).
  eexists s', _. split_and!; [done|exact F|exact Ep|]. unfold checksummed.
  replace (length (r :: r :: data) - 4)%nat with (S (S (length data - 4))) by (cbn [length]; lia). done.
Qed.
Lemma set_report_doubles_its_id_witness :
  exists s', run (vds_urb_enqueue (set_urb 128 [128; 9; 2; 1; 0]) 0) (initial_hcd 0 []) = (s', Ok 0)
  /\ (fun f => f.2) <$> events (q_events s') = [[128; 128; 9; 2; 1; 0]].
Proof.
  destruct (set_report_doubles_its_id (set_urb 128 [128; 9; 2; 1; 0]) (initial_hcd 0 []) 128 5 0 [9; 2; 1; 0])
    as (s' & packet & E & F & _).
  - apply initial_hcd_ok.
  - done.
  - done.
  - apply set_urb_ok; [done|unfold bytes_ok; by rewrite !Forall_cons|cbn; lia].
  - split_and!; try done; cbn; lia.
  - cbn. lia.
  - exists s'. by rewrite F.
Defined.

(** ** The properties: sound for the daemon *)

Definition zsum (l : list Z) : Z := foldr Z.add 0 l.
Lemma iso_out_total tbl chunk total errors ds done_ pieces t e :
  iso_out_loop tbl chunk total errors ds = (done_, pieces, t, e) -> u32 total = total ->
  t = u32 (total + zsum (iso_actual_length <$> done_))
  /\ (length pieces <= length ds + match chunk with Some _ => 1 | None => 0 end)%nat.
Proof.
  revert chunk total errors done_ pieces t e. induction ds as [|d ds IH]; intros chunk total errors done_ pieces t e; cbn [iso_out_loop].
  - intros [= <- <- <- <-] Ht. cbn. rewrite Z.add_0_r, Ht. split; [done|]. by destruct chunk as [[[??]?]|]; cbn.
  - destruct (iso_out_of_range tbl d).
    + destruct (iso_out_loop tbl chunk total (errors + 1) ds) as [[[done1 p1] t1] e1] eqn:E. intros [= <- <- <- <-] Ht.
      apply IH in E as [-> Hn]; [|done]. split; [done|]. cbn [length]. lia.
    + destruct (if iso_length d =? 0 then _ else _) as [flushed chunk'] eqn:Ef.
      destruct (iso_out_loop tbl chunk' _ errors ds) as [[[done1 p1] t1] e1] eqn:E. intros [= <- <- <- <-] Ht.
      apply IH in E as [-> Hn]; [|unfold u32; by rewrite Z.mod_mod by done]. cbn. split.
      * unfold u32. rewrite Z.add_mod_idemp_l by done. f_equal. unfold zsum. lia.
      * rewrite length_app. destruct chunk as [[[??]?]|]; repeat case_match; simplify_eq; cbn in *; lia.
Qed.

Definition due (c : vds_urb_context) (s : Hcd) : Prop := ready_time c = 0 \/ ready_time c <= now (clock s).
Lemma pick_due should_stop s id rest c :
  completed_urbs (q_urbs s) = id :: rest -> contexts (q_urbs s) !! id = Some c -> due c s ->
  giveback_pick should_stop s =
  (put_q_urbs (taken id c (q_urbs s)) s, Ok (Deliver id (context_status c) (deliver_iso_out c) (deliver_iso_in c))).
Proof.
  intros Hl Hc Hd. rewrite (pick_spec _ _ _ _ _ Hl Hc). unfold ktime_us_delta.
  assert (negb (ready_time c =? 0) && (0 <? Z.quot (ready_time c - now (clock s)) 1000) = false) as ->; [|done].
  destruct Hd as [->|Hd]; [done|]. apply andb_false_iff. right. apply Z.ltb_ge.
  pose proof (Z.quot_opp_l (now (clock s) - ready_time c) 1000 ltac:(lia)) as Ho.
  replace (- (now (clock s) - ready_time c)) with (ready_time c - now (clock s)) in Ho by lia. rewrite Ho.
  pose proof (Z.quot_pos (now (clock s) - ready_time c) 1000). lia.
Qed.

(** What is on no list is given back. *)
Definition gone (id : nat) (status : Z) (u : urb) (q : UrbState) : UrbState :=
  mk_urbs (delete id (urb_store q)) (delete id (contexts q)) (hcpriv q ∖ {[id]}) (next_urb q)
    (pending_hid_in q) (pending_feature_get q) (completed_urbs q) (given_back q ++ [(id, status, u)]).
Lemma giveback_spec id status s u :
  on_a_list id (q_urbs s) = false -> urb_store (q_urbs s) !! id = Some u ->
  usb_hcd_giveback_urb id status s = (put_q_urbs (gone id status u (q_urbs s)) s, Ok tt).
Proof.
  intros Hl Hu. unfold usb_hcd_giveback_urb, on_urbs, mbind, prog_bind. rewrite unlisted_spec, Hl. unfold get_state. by rewrite Hu.
Qed.
Lemma taken_unlisted id rest c q :
  urbs_ok q -> completed_urbs q = id :: rest -> contexts q !! id = Some c -> on_a_list id (taken id c q) = false.
Proof.
  intros Hq Hl Hc. destruct (listed_context _ _ _ id (ok_completed _ Hq)) as (c' & Hc' & Hst); [rewrite Hl; apply list_elem_of_here|].
  assert (c' = c) as -> by congruence. unfold on_a_list. cbn.
  rewrite !bool_decide_eq_false_2; [done| | |].
  - rewrite elem_without. tauto.
  - by eapply not_listed; [apply Hq| | |].
  - by eapply not_listed; [apply Hq| | |].
Qed.

(** C19. When the giveback thread gets to an audio transfer of the host whose time has come,
    the sound of its packets is queued for the daemon byte for byte and in order, in frames
    of at most 4096 bytes; a packet that does not lie in the buffer is left out and reported
    as EOVERFLOW, every other one as sent; and the transfer is given back with status 0, the
    number of bytes and the number of errors.  The module is running with memory to be had,
    the queue has room for the frames, and no packet is longer than a frame. *)
Theorem iso_out_delivered should_stop s id rest c u buffer :
  hcd_ok s -> running s -> completed_urbs (q_urbs s) = id :: rest -> contexts (q_urbs s) !! id = Some c -> due c s ->
  context_status c = 0 -> deliver_iso_out c = true -> deliver_iso_in c = false ->
  urb_store (q_urbs s) !! id = Some u -> transfer_buffer u = Some buffer ->
  Forall (fun d => iso_length d <= Z.of_nat VDS_FRAME_MAX_PAYLOAD) (iso_frame_desc u) ->
  event_count (q_events s) + Z.of_nat (length (iso_frame_desc u)) <= kMaxEvents ->
  let results := iso_result (transfer_buffer_length u) <$> iso_frame_desc u in
  exists s' payloads, run (vds_giveback_round should_stop) s = (s', Ok (Deliver id 0 true false))
  /\ q_events s' = add_all VDS_FRAME_USB_AUDIO_OUT payloads (q_events s)
  /\ concat payloads = iso_data buffer (iso_frame_desc u)
  /\ Forall (fun p => (length p <= VDS_FRAME_MAX_PAYLOAD)%nat) payloads
  /\ given_back (q_urbs s') = given_back (q_urbs s)
       ++ [(id, 0, put_actual (u32 (zsum (iso_actual_length <$> results)))
                    (put_iso results (iso_errors (transfer_buffer_length u) (iso_frame_desc u)) u))]
  /\ completed_urbs (q_urbs s') = without id (completed_urbs (q_urbs s)).
Proof.
  intros Hs Hr Hl Hc Hd Hst Ho Hi Hu Hb Hlen Hroom. cbv zeta. unfold vds_giveback_round.
  rewrite (run_locked_then _ _ _ _ _ (pick_due _ _ _ _ _ Hl Hc Hd)), Hst, Ho, Hi. cbv iota. unfold deliver_urb.
  set (s1 := put_q_urbs (taken id c (q_urbs s)) s).
  pose proof (ok_store _ (ok_urbs _ Hs) id u Hu) as Huok. cbn in Huok. destruct (ok_buffer u Huok _ Hb) as [Hbl _].
  destruct (iso_out_loop (transfer_buffer_length u) None 0 0 (iso_frame_desc u)) as [[[done_ pieces] t] e] eqn:E.
  pose proof E as Es. rewrite <- Hbl in Es.
  apply (iso_out_loop_spec buffer (Z.of_nat VDS_FRAME_MAX_PAYLOAD)) in Es as (E1 & E2 & E3 & E4); [|done|apply Huok|done|done].
  rewrite Hbl in E3, E4. pose proof (iso_out_total _ _ _ _ _ _ _ _ _ E eq_refl) as [Et En].
  assert (run (vds_iso_out_urb id) s1 =
    (with_urb id (put_actual t (put_iso done_ e u))
       (put_q_events (add_all VDS_FRAME_USB_AUDIO_OUT (piece buffer <$> pieces) (q_events s)) s1), Ok 0)) as Eiso.
  { unfold vds_iso_out_urb, read_urb. rewrite (run_access id _ _ s1 u) by done. cbn [fst snd]. rewrite with_urb_same by done.
    rewrite Hb, E. rewrite (run_then _ _ _ _ _ (run_pieces buffer pieces s1 Hr ltac:(cbn in *; lia) ltac:(eapply Forall_impl; [exact E2|];
      intros [a b] (X1 & X2 & X3); cbn [fst snd] in *; rewrite piece_length by lia; lia))).
    by rewrite (run_access_end id _ _ u). }
  rewrite run_bind. unfold mbind at 1, prog_bind. change (0 =? 0) with true. cbn [andb].
  rewrite (run_then _ _ _ _ _ Eiso). change ((0 =? 0) && false) with false. cbv iota.
  set (s2 := with_urb id _ _). rewrite (run_then _ _ _ _ _ (run_ret 0 s2)), run_locked.
  rewrite (giveback_spec id 0 s2 (put_actual t (put_iso done_ e u))) by (exact (taken_unlisted id rest c _ (ok_urbs _ Hs) Hl Hc) || apply with_urb_lookup).
  rewrite run_ret. eexists _, (piece buffer <$> pieces). split_and!; [done|done|exact E1| |cbn|done].
  - apply Forall_fmap. eapply Forall_impl; [exact E2|]. intros [a b] (X1 & X2 & X3). cbn [fst snd] in *.
    change (length (piece buffer (a, b)) <= VDS_FRAME_MAX_PAYLOAD)%nat. rewrite piece_length by lia. lia.
  - do 3 f_equal. by rewrite Et, E3, E4.
Qed.

(** A transfer of the host's sound that is due: two packets, the second of which lies outside. *)
Definition sound_urb (data : list Z) : urb :=
  mk_urb PIPE_ISOCHRONOUS false 1 None (Some data) (Z.of_nat (length data)) 0 [mk_iso 0 4 0 0; mk_iso 4 99 0 0] 0 0.
Definition due_hcd (u : urb) : Hcd := put_clock (mk_clock 1000000000 0 0 0) (run (vds_urb_enqueue u 0) (initial_hcd 0 [])).1.
Lemma due_hcd_ok u : urb_ok u -> hcd_ok (due_hcd u).
Proof.
  intros Hu. apply ok_put_clock.
  exact (run_keeps (fun _ : unit => hcd_ok) _ tt (urb_enqueue_safe u 0 Hu) _ (initial_hcd_ok 0 [])).
Qed.
Lemma sound_urb_ok data : bytes_ok data -> (length data <= 64)%nat -> urb_ok (sound_urb data).
Proof.
  intros Hd Hl. split; cbn; try done.
  - unfold is_u32. lia.
  - intros ? [= <-]. by split.
  - by rewrite !Forall_cons.
Qed.
Lemma iso_out_delivered_witness :
  exists s' payloads, run (vds_giveback_round false) (due_hcd (sound_urb [1; 2; 3; 4; 5; 6])) = (s', Ok (Deliver 0 0 true false))
  /\ concat payloads = [1; 2; 3; 4] /\ length (given_back (q_urbs s')) = 1%nat.
Proof.
  destruct (iso_out_delivered false (due_hcd (sound_urb [1; 2; 3; 4; 5; 6])) 0%nat [] (mk_context 1000000 0 0 VDS_URB_PENDING_GIVEBACK true false)
              (sound_urb [1; 2; 3; 4; 5; 6]) [1; 2; 3; 4; 5; 6]) as (s' & payloads & E & _ & F & _ & G & _).
  - apply due_hcd_ok, sound_urb_ok; [unfold bytes_ok; by rewrite !Forall_cons|cbn; lia].
  - by split.
  - vm_compute. reflexivity.
  - vm_compute. reflexivity.
  - right. vm_compute. discriminate.
  - done.
  - done.
  - done.
  - vm_compute. reflexivity.
  - done.
  - cbn. by rewrite !Forall_cons.
  - vm_compute. discriminate.
  - exists s', payloads. split_and!; [done|done|]. rewrite G. vm_compute. reflexivity.
Defined.

(** ** The properties: the microphone *)

(** What the host gets of the bytes of the microphone: packet by packet the next ones, filled
    up with silence. *)
Fixpoint iso_in_reference (tbl : Z) (stream buffer : list Z) (ds : list iso_packet) : list Z * list Z :=
  match ds with
  | [] => (stream, buffer)
  | d :: rest =>
      if iso_out_of_range tbl d then iso_in_reference tbl stream buffer rest
      else
        let n := Z.to_nat (Z.min (iso_length d) VDS_AUDIO_IN_BYTES_PER_MS) in
        iso_in_reference tbl (drop n stream)
          (copy_into buffer (Z.to_nat (offset d)) (take n stream ++ replicate (n - length stream) 0)) rest
  end.
Definition iso_in_result (tbl : Z) (d : iso_packet) : iso_packet :=
  if iso_out_of_range tbl d then mk_iso (offset d) (iso_length d) 0 (- EOVERFLOW)
  else mk_iso (offset d) (iso_length d) (Z.min (iso_length d) VDS_AUDIO_IN_BYTES_PER_MS) 0.

Definition mic_bytes (s : Hcd) : list Z := mic_stream (audio_in_packets (q_host s)).

Lemma iso_in_loop_spec tbl buffer total errors ds h h' buffer' done_ t e :
  host_ok h -> iso_in_loop tbl buffer total errors ds h = (h', buffer', done_, t, e) ->
  (mic_stream (audio_in_packets h'), buffer') = iso_in_reference tbl (mic_stream (audio_in_packets h)) buffer ds
  /\ done_ = iso_in_result tbl <$> ds /\ e = errors + iso_errors tbl ds /\ host_ok h' /\ input_packets h' = input_packets h.
Proof.
  revert buffer total errors h h' buffer' done_ t e.
  induction ds as [|d ds IH]; intros buffer total errors h h' buffer' done_ t e Hh; cbn [iso_in_loop iso_in_reference].
  { intros [= <- <- <- <- <-]. unfold iso_errors. cbn. split_and!; try done. lia. }
  rewrite fmap_cons. unfold iso_in_result at 1, iso_errors. rewrite filter_cons. destruct (iso_out_of_range tbl d) eqn:Hr.
  - destruct (iso_in_loop tbl buffer total (errors + 1) ds h) as [[[[h1 b1] d1] t1] e1] eqn:E. intros [= <- <- <- <- <-].
    apply IH in E as (E1 & -> & -> & ? & ?); [|done]. rewrite decide_True by done. split_and!; try done.
    unfold iso_errors. cbn [length]. lia.
  - rewrite decide_False by done. cbv zeta.
    pose proof (fill_locked_spec (Z.to_nat (Z.min (iso_length d) VDS_AUDIO_IN_BYTES_PER_MS)) h Hh) as Hf.
    destruct (vds_fill_audio_in_locked _ h) as [h2 data]. destruct Hf as (F1 & F2 & F3 & F4).
    destruct (iso_in_loop tbl (copy_into buffer (Z.to_nat (offset d)) data) _ errors ds h2) as [[[[h1 b1] d1] t1] e1] eqn:E.
    intros [= <- <- <- <- <-]. apply IH in E as (E1 & -> & -> & ? & E5); [|done]. rewrite <- F2, <- F3.
    split_and!; try done. by rewrite E5.
Qed.

(** C20. The queue of microphone packets is a stream of bytes: a packet the daemon writes is
    appended to it, and only when more than 19200 bytes would wait do the oldest go; a
    transfer of the host takes the next bytes, at most 192 for each of its packets, and is
    filled up with silence where there are none.  No byte is repeated or reordered, and
    packets that do not lie in the buffer take none.  The module is running, with memory to
    be had. *)
Theorem microphone_is_a_stream s :
  hcd_ok s -> running s ->
  (forall payload, (1 <= length payload <= VDS_FRAME_MAX_PAYLOAD)%nat ->
     exists s' lost, vds_write_audio_in_frame payload s = (s', Ok 0) /\ mic_bytes s ++ payload = lost ++ mic_bytes s'
     /\ Z.of_nat (length (mic_bytes s')) <= VDS_AUDIO_IN_QUEUE_MAX_BYTES
     /\ (Z.of_nat (length (mic_bytes s ++ payload)) <= VDS_AUDIO_IN_QUEUE_MAX_BYTES -> lost = []))
  /\ (forall id u buffer, urb_store (q_urbs s) !! id = Some u -> transfer_buffer u = Some buffer ->
     let '(stream, data) := iso_in_reference (transfer_buffer_length u) (mic_bytes s) buffer (iso_frame_desc u) in
     exists s' u', run (vds_iso_in_urb id) s = (s', Ok 0) /\ mic_bytes s' = stream
     /\ urb_store (q_urbs s') !! id = Some u' /\ transfer_buffer u' = Some data
     /\ iso_frame_desc u' = iso_in_result (transfer_buffer_length u) <$> iso_frame_desc u
     /\ error_count u' = iso_errors (transfer_buffer_length u) (iso_frame_desc u)).
Proof.
  intros Hs [Hst Hm]. pose proof (ok_host s Hs) as [H1 H2 H3 H4 H5]. split.
  - intros payload Hl. unfold vds_write_audio_in_frame. destruct (Nat.eqb_spec (length payload) 0); [lia|].
    unfold mbind at 1, prog_bind. rewrite kmalloc_spec, put_memory_same, Hm by done. cbn [default head negb].
    unfold mbind at 1, prog_bind, get_state. rewrite Hst.
    pose proof (drop_oldest_spec (Z.of_nat (length payload)) _ _ _ (conj H2 (conj H3 H4))) as Hd.
    destruct (drop_oldest _ _ _ _) as [[packets count] queued].
    destruct Hd as ((D1 & D2 & D3) & D4 & (gone & Hg) & D5); [unfold VDS_FRAME_MAX_PAYLOAD in Hl; lia|done|].
    eexists _, (mic_stream gone). split; [done|]. unfold mic_bytes. cbn. rewrite mic_stream_app, mic_stream_cons. change (mic_stream []) with (@nil Z).
    cbn [fst snd]. rewrite drop_0, app_nil_r, !length_app. split_and!.
    + rewrite Hg at 1. by rewrite mic_stream_app, app_assoc.
    + change VDS_AUDIO_IN_QUEUE_MAX_BYTES with 19200 in *. lia.
    + change VDS_AUDIO_IN_QUEUE_MAX_BYTES with 19200 in *. intros Hfit. unfold mic_bytes in Hfit. rewrite D5 in Hg by lia. by rewrite (app_inv_tail _ gone [] (eq_sym Hg)).
  - intros id u buffer Hu Hb. unfold vds_iso_in_urb. rewrite run_locked, Hu, Hb.
    destruct (iso_in_loop _ buffer 0 0 _ _) as [[[[h b'] d] t] e] eqn:E.
    apply iso_in_loop_spec in E as (E1 & -> & -> & _); [|apply Hs]. unfold mic_bytes. rewrite <- E1.
    eexists _, _. split_and!; [done|done|apply lookup_insert_eq|done|done|done].
Qed.
Lemma microphone_is_a_stream_witness :
  exists s' lost, vds_write_audio_in_frame [1; 2; 3; 4] (initial_hcd 0 []) = (s', Ok 0) /\ [1; 2; 3; 4] = lost ++ mic_bytes s' /\ lost = [].
Proof.
  destruct (microphone_is_a_stream (initial_hcd 0 []) (initial_hcd_ok 0 []) (initial_running 0)) as [Hw _].
  destruct (Hw [1; 2; 3; 4]) as (s' & lost & E & F & _ & G); [cbn; unfold VDS_FRAME_MAX_PAYLOAD; lia|].
  exists s', lost. split_and!; [done|done|]. apply G. vm_compute. discriminate.
Defined.

(** ** The properties: the order and the times of completion *)



Lemma not_in_without id l : id ∉ l -> without id l = l.
Proof.
  unfold without. induction l as [|x l IH]; [done|]. intros [Hx Hl]%not_elem_of_cons. rewrite filter_cons, decide_True by done.
  by rewrite IH.
Qed.


(** A host controller with a sound transfer that has a time, and a control transfer that waits. *)
Definition busy_hcd : Hcd :=
  (run (_ ← vds_urb_enqueue (sound_urb [1; 2; 3; 4; 5; 6]) 0; vds_urb_enqueue (get_urb 5) 0) (initial_hcd 0 [])).1.
Lemma busy_hcd_ok : hcd_ok busy_hcd.
Proof.
  unfold busy_hcd. refine (run_keeps (fun _ : unit => hcd_ok) _ tt _ _ (initial_hcd_ok 0 [])). apply safe_bind.
  - apply urb_enqueue_safe, sound_urb_ok; [unfold bytes_ok; by rewrite !Forall_cons|cbn; lia].
  - intros _. by apply urb_enqueue_safe, get_urb_ok.
Qed.

(** The bytes of a transfer, as the pacing counts them. *)
Definition iso_bytes (input : bool) (d : iso_packet) : Z := if input then Z.min (iso_length d) VDS_AUDIO_IN_BYTES_PER_MS else iso_length d.
Lemma iso_total_sum input ds total : u32 total = total -> iso_total input ds total = u32 (total + zsum (iso_bytes input <$> ds)).
Proof.
  revert total. induction ds as [|d ds IH]; intros total Ht; cbn [iso_total].
  - cbn. by rewrite Z.add_0_r.
  - rewrite IH by (unfold u32; by rewrite Z.mod_mod by done). unfold u32. rewrite Z.add_mod_idemp_l by done. f_equal.
    rewrite fmap_cons. unfold zsum, iso_bytes. cbn. lia.
Qed.
Definition bytes_per_ms (input : bool) : Z := if input then VDS_AUDIO_IN_BYTES_PER_MS else VDS_AUDIO_OUT_BYTES_PER_MS.
Lemma duration_covers input ds :
  0 <= zsum (iso_bytes input <$> ds) < 2 ^ 26 -> (length ds <= 1024)%nat ->
  1000 <= iso_duration_us input ds /\ zsum (iso_bytes input <$> ds) * 1000 <= iso_duration_us input ds * bytes_per_ms input.
Proof.
  intros Hs Hn. unfold iso_duration_us. rewrite iso_total_sum by done. rewrite Z.add_0_l, u32_id by (unfold is_u32; lia).
  set (total := zsum _) in *. cbv zeta. fold (bytes_per_ms input).
  assert (192 <= bytes_per_ms input) as Hb by (by destruct input).
  destruct (Z.eqb_spec total 0) as [->|Hz].
  - rewrite u32_id by (unfold is_u32; lia). split; [lia|]. apply Z.mul_nonneg_nonneg; lia.
  - set (b := bytes_per_ms input) in *. pose proof (Z.div_mod (total * 1000 + b - 1) b ltac:(lia)) as Hdm.
    pose proof (Z.mod_pos_bound (total * 1000 + b - 1) b ltac:(lia)) as Hm.
    assert (0 <= (total * 1000 + b - 1) / b < 2 ^ 32) as Hd.
    { split; [apply Z.div_pos; lia|]. apply Z.div_lt_upper_bound; nia. }
    rewrite (u32_id ((total * 1000 + b - 1) / b)) by done. split; [lia|]. nia.
Qed.

Lemma delta_us x t : 0 < ktime_us_delta x t <-> t + 1000 <= x.
Proof.
  unfold ktime_us_delta. destruct (Z_lt_le_dec x t) as [Hlt|Hle].
  - pose proof (Z.quot_opp_l (t - x) 1000 ltac:(lia)) as Ho. replace (- (t - x)) with (x - t) in Ho by lia.
    pose proof (Z.quot_pos (t - x) 1000). lia.
  - rewrite Z.quot_div_nonneg by lia. pose proof (Z.div_mod (x - t) 1000 ltac:(lia)). pose proof (Z.mod_pos_bound (x - t) 1000 ltac:(lia)). lia.
Qed.

(** C23. A sound transfer that is scheduled is due no earlier than a millisecond from now, and
    so much later than the one before in its direction that the sound goes at 192 bytes each
    millisecond from the microphone and 384 to the speaker, no faster; and the
    giveback thread sleeps until that time, less a microsecond, before it takes the transfer.
    A transfer has at most 1024 packets and less than 2^26 bytes. *)
Theorem iso_transfers_paced id u input s c :
  contexts (q_urbs s) !! id = Some c -> urb_store (q_urbs s) !! id = Some u ->
  0 <= zsum (iso_bytes input <$> iso_frame_desc u) < 2 ^ 26 -> (length (iso_frame_desc u) <= 1024)%nat -> 0 <= now (clock s) ->
  let last := if input then next_iso_in_ready (clock s) else next_iso_out_ready (clock s) in
  exists s' ready, vds_schedule_iso_giveback id u input s = (s', Ok tt)
  /\ contexts (q_urbs s') !! id = Some (put_ready ready c)
  /\ (if input then next_iso_in_ready (clock s') else next_iso_out_ready (clock s')) = ready
  /\ now (clock s) + 1000000 <= ready
  /\ zsum (iso_bytes input <$> iso_frame_desc u) * 1000000 <= (ready - last) * bytes_per_ms input
  /\ forall should_stop s2 rest c2, completed_urbs (q_urbs s2) = id :: rest -> contexts (q_urbs s2) !! id = Some c2 ->
       ready_time c2 = ready -> ((giveback_pick should_stop s2).2 = Ok (SleepUntil ready) <-> now (clock s2) + 1000 <= ready).
Proof.
  intros Hc Hu Hsum Hn Hnow. cbv zeta. destruct (duration_covers input _ Hsum Hn) as [Hd1 Hd2].
  set (last := if input then _ else _).
  assert (exists base s', base = Z.max (now (clock s)) last
    /\ vds_schedule_iso_giveback id u input s = (s', Ok tt)
    /\ contexts (q_urbs s') !! id = Some (put_ready (base + iso_duration_us input (iso_frame_desc u) * 1000) c)
    /\ (if input then next_iso_in_ready (clock s') else next_iso_out_ready (clock s')) = base + iso_duration_us input (iso_frame_desc u) * 1000)
    as (base & s' & -> & E & F & G).
  { eexists _, _. split; [done|]. unfold vds_schedule_iso_giveback. unfold mbind at 1, prog_bind, get_state. fold last.
    replace (if now (clock s) <? last then last else now (clock s)) with (Z.max (now (clock s)) last) by (destruct (Z.ltb_spec (now (clock s)) last); lia).
    unfold mbind at 1, prog_bind. rewrite (on_urb_spec _ _ _ u) by done. unfold mbind, prog_bind, on_urbs, update_context, mbind, prog_bind, modify.
    cbn [q_urbs with_urb put_q_urbs fst]. rewrite get_context_spec. cbn [contexts put_store]. rewrite Hc. split; [done|]. split.
    - cbn. apply lookup_insert_eq.
    - by destruct input. }
  eexists s', _. split_and!; [done|exact F|done|nia|nia|].
  set (ready := Z.max _ _ + _). assert (ready <> 0) as Hz by (subst ready; lia). clearbody ready.
  intros should_stop s2 rest c2 Hl Hc2 Hr. rewrite (pick_spec _ _ _ _ _ Hl Hc2), Hr, <- delta_us.
  destruct (Z.eqb_spec ready 0); [done|]. cbn [negb andb]. destruct (Z.ltb_spec 0 (ktime_us_delta ready (now (clock s2)))) as [Hlt|Hle]; cbn [snd].
  - done.
  - split; [discriminate|lia].
Qed.
Lemma iso_transfers_paced_witness :
  exists s' ready, vds_schedule_iso_giveback 0 (sound_urb [1; 2; 3; 4; 5; 6]) false busy_hcd = (s', Ok tt)
  /\ next_iso_out_ready (clock s') = ready /\ 1000000 <= ready.
Proof.
  destruct (iso_transfers_paced 0 (sound_urb [1; 2; 3; 4; 5; 6]) false busy_hcd (mk_context 1000000 0 0 VDS_URB_PENDING_GIVEBACK true false))
    as (s' & ready & E & _ & F & G & _); try (vm_compute; reflexivity).
  - vm_compute. split; [discriminate|reflexivity].
  - cbn. lia.
  - vm_compute. discriminate.
  - exists s', ready. split_and!; [done|done|]. etransitivity; [|exact G]. vm_compute. discriminate.
Defined.

(** ** The properties: disconnecting *)

Lemma listed_waits st l q : listed st l (contexts q) -> waits st -> forall id, id ∈ l -> exists c, contexts q !! id = Some c /\ waits (context_state c).
Proof. intros [_ Hl] Hst id (c & Hc & <-)%Hl. by exists c. Qed.
Lemma listed_stored st l q : urbs_ok q -> listed st l (contexts q) -> forall id, id ∈ l -> is_Some (urb_store q !! id).
Proof. intros Hq [_ Hl] id (c & Hc & _)%Hl. apply (ok_contexts q Hq). by eexists. Qed.
Lemma walked_store st ids q q' :
  walked (fun u => (u, st)) ids q q' -> (forall id, id ∈ ids -> is_Some (urb_store q !! id)) -> urb_store q' = urb_store q.
Proof.
  intros [_ W2 W3 _ _ _ _] Hin. apply map_eq. intros id. destruct (decide (id ∈ ids)) as [Hi|Hi].
  - destruct (Hin id Hi) as [u Hu]. destruct (W2 id u Hi Hu) as (_ & -> & _). by rewrite Hu.
  - by destruct (W3 id Hi).
Qed.
Lemma cancel_walks st q :
  urbs_ok q ->
  exists q' w, vds_cancel_pending_urbs_locked st q = (q', Ok w)
  /\ urbs_ok q' /\ pending_hid_in q' = [] /\ pending_feature_get q' = [] /\ urb_store q' = urb_store q /\ given_back q' = given_back q
  /\ (forall id, id ∈ pending_hid_in q \/ id ∈ pending_feature_get q ->
       id ∈ completed_urbs q' /\ exists c, contexts q' !! id = Some c /\ context_status c = st)
  /\ (forall id, id ∈ completed_urbs q -> id ∈ completed_urbs q' /\ contexts q' !! id = contexts q !! id).
Proof.
  intros Hq. unfold vds_cancel_pending_urbs_locked, mbind, prog_bind, get_state.
  destruct (queue_all_walks (fun u => (u, st)) (fun _ => mret st) (pending_hid_in q) q) as (q1 & w1 & -> & [A1 A2 A3 A4 A5 A6 A7]).
  { apply const_changes. }
  { done. }
  { done. }
  { apply Hq. }
  { eapply listed_waits; [apply Hq|by left]. }
  destruct (queue_all_walks (fun u => (u, st)) (fun _ => mret st) (pending_feature_get q1) q1) as (q2 & w2 & -> & [B1 B2 B3 B4 B5 B6 B7]).
  { apply const_changes. }
  { done. }
  { done. }
  { apply A1. }
  { eapply listed_waits; [apply A1|by right]. }
  assert (forall id, id ∈ pending_hid_in q -> id ∉ pending_feature_get q) as Hdis.
  { intros id Hi Hj. apply (ok_hid_in q Hq) in Hi as (c & Hc & ?). apply (ok_feature_get q Hq) in Hj as (c' & Hc' & ?). congruence. }
  assert (forall id, id ∈ completed_urbs q -> (id ∉ pending_hid_in q) /\ (id ∉ pending_feature_get q)) as Hdone.
  { intros id Hi. apply (ok_completed q Hq) in Hi as (c & Hc & ?).
    split; intros Hj; [apply (ok_hid_in q Hq) in Hj as (c' & Hc' & ?)|apply (ok_feature_get q Hq) in Hj as (c' & Hc' & ?)]; congruence. }
  exists q2, (w1 || w2). split; [done|]. split; [done|].
  assert (pending_hid_in q2 = []) as Ehid.
  { apply elem_of_nil_inv. intros id. rewrite B5, A5. tauto. }
  assert (pending_feature_get q2 = []) as Efeature.
  { apply elem_of_nil_inv. intros id. rewrite B6. tauto. }
  split_and!; try done.
  - rewrite (walked_store st (pending_feature_get q1) q1 q2); [|by constructor|by eapply listed_stored, A1].
    apply (walked_store st (pending_hid_in q)); [by constructor|by eapply listed_stored, Hq].
  - destruct A7 as [A7 _], B7 as [B7 _]. by rewrite B7.
  - intros id [Hid|Hid].
    + destruct (listed_stored _ _ q Hq (ok_hid_in q Hq) id Hid) as [u Hu]. destruct (A2 id u Hid Hu) as (X1 & X2 & c & X3 & X4).
      split; [by apply B4|]. exists c. split; [|done]. destruct (B3 id) as [_ ->]; [|done]. rewrite A6. intros [? _]. by eapply Hdis.
    + assert (id ∈ pending_feature_get q1) as Hid1 by (apply A6; split; [done|intros ?; by eapply Hdis]).
      destruct (listed_stored _ _ q1 A1 (ok_feature_get q1 A1) id Hid1) as [u Hu]. destruct (B2 id u Hid1 Hu) as (X1 & X2 & c & X3 & X4).
      split; [done|]. by exists c.
  - intros id Hid. destruct (Hdone id Hid) as [N1 N2]. split; [by apply B4, A4|].
    destruct (B3 id) as [_ ->]; [rewrite A6; tauto|]. by destruct (A3 id N1).
Qed.

Lemma disconnect_bits p :
  Z.testbit (status_flags (disconnect_port p)) 0 = false /\ Z.testbit (port_status (disconnect_port p)) 0 = false.
Proof.
  unfold disconnect_port, vds_status_set_locked. cbv zeta. cbn [status_flags port_status put_port_status].
  rewrite Z.ldiff_spec. split; [apply andb_false_r|].
  destruct (negb _); rewrite ?Z.lor_spec, ?Z.ldiff_spec, andb_false_r; done.
Qed.

(** C22. When the daemon disconnects the port, no transfer is forgotten: each that waits for an
    input report or a reply completes with ESHUTDOWN, each that was complete keeps its status
    and time; frames, input reports and sound that wait are gone, the next frame goes on with
    the numbers; the device is as when it was made, with its profile, and the port is not
    connected. *)
Theorem disconnect_completes_transfers s :
  hcd_ok s -> stopping (port s) = false ->
  exists s', run (vds_set_connection false) s = (s', Ok tt) /\ hcd_ok s'
  /\ (forall id, id ∈ pending_hid_in (q_urbs s) \/ id ∈ pending_feature_get (q_urbs s) ->
       id ∈ completed_urbs (q_urbs s') /\ exists c, contexts (q_urbs s') !! id = Some c /\ context_status c = - ESHUTDOWN)
  /\ (forall id, id ∈ completed_urbs (q_urbs s) ->
       id ∈ completed_urbs (q_urbs s') /\ contexts (q_urbs s') !! id = contexts (q_urbs s) !! id)
  /\ pending_hid_in (q_urbs s') = [] /\ pending_feature_get (q_urbs s') = []
  /\ urb_store (q_urbs s') = urb_store (q_urbs s) /\ given_back (q_urbs s') = given_back (q_urbs s)
  /\ events (q_events s') = [] /\ next_sequence (q_events s') = next_sequence (q_events s)
  /\ input_packets (q_host s') = [] /\ mic_bytes s' = []
  /\ usb_dev s' = vds_usb_device_reset_state (usb_dev s)
  /\ Z.testbit (status_flags (port s')) 0 = false /\ Z.testbit (port_status (port s')) 0 = false.
Proof.
  intros Hs Hst. destruct (cancel_walks (- ESHUTDOWN) (q_urbs s) (ok_urbs s Hs)) as (q' & w & E & Hq & C1 & C2 & C3 & C4 & C5 & C6).
  assert (exists s1, set_connection false s = (s1, Ok true) /\ s1 = put_port_with disconnect_port (reset_pacing (vds_flush_buffered_frames_locked (put_q_urbs q' s))))
    as (s1 & E1 & Hs1).
  { eexists. split; [|done]. unfold set_connection. unfold mbind at 1, prog_bind, get_state. rewrite Hst.
    unfold mbind, prog_bind, on_urbs, modify. by rewrite E. }
  unfold vds_set_connection. rewrite (run_locked_then _ _ _ _ _ E1), run_usb_end. cbn [fst snd].
  pose proof (set_connection_gives false s Hs) as [Hok _]. rewrite E1 in Hok. cbn [fst] in Hok.
  eexists. split; [done|]. split; [apply ok_put_usb; [done|]; apply reset_ok, Hok|]. subst s1.
  destruct (disconnect_bits (port s)) as [B1 B2]. by split_and!.
Qed.
Lemma disconnect_completes_transfers_witness :
  exists s', run (vds_set_connection false) busy_hcd = (s', Ok tt) /\ 1%nat ∈ completed_urbs (q_urbs s') /\ 0%nat ∈ completed_urbs (q_urbs s').
Proof.
  destruct (disconnect_completes_transfers busy_hcd busy_hcd_ok) as (s' & E & _ & F & G & _); [vm_compute; reflexivity|].
  exists s'. split_and!; [done|apply F; right|apply G].
  - replace (pending_feature_get (q_urbs busy_hcd)) with [1%nat] by (vm_compute; reflexivity). apply list_elem_of_here.
  - replace (completed_urbs (q_urbs busy_hcd)) with [0%nat] by (vm_compute; reflexivity). apply list_elem_of_here.
Defined.

(** ** The properties: a race *)

(** A transfer that waits for an input report. *)
Definition input_urb : urb := mk_urb PIPE_INTERRUPT true 4 None (Some (replicate 64 0)) 64 0 [] 0 0.
Lemma input_urb_ok : urb_ok input_urb.
Proof. split; cbn; try done. intros ? [= <-]. split; [done|]. apply (bytes_ok_zeros 64). Qed.
Definition ECONNRESET : Z := 104.

(** One thread submits the transfer; another unlinks it, and gives it back. *)
Definition unlinking : list (@move Hcd) :=
  [ Begins 0 (call (vds_urb_enqueue input_urb 0)); Goes 0;
    Begins 1 (call (locked (vds_urb_dequeue 0 0 (- ECONNRESET)))); Goes 1;
    Begins 1 (call (vds_giveback_round false)); Goes 1; Goes 1;
    Goes 0; Goes 0 ].

(** C24. Submitting a URB goes on with its context after the lock was given back: when the URB
    is unlinked in between and the giveback thread gets to it first, the URB is given back
    with ECONNRESET and its context freed, and the submitting thread, which knows nothing of
    it, goes on to put the freed context on the list of those that wait for input: the model
    stops at this step. *)
Theorem enqueue_races_with_unlink :
  exists s ts, pool_reaches kernel_work (initial_hcd 0 [], replicate 2 (mret tt)) (s, ts)
  /\ given_back (q_urbs s) = [(0%nat, - ECONNRESET, input_urb)] /\ contexts (q_urbs s) = ∅
  /\ ts !! 0%nat = Some (Done (Throw use_after_free)).
Proof.
  assert (Forall (allowed kernel_work) unlinking) as Hm.
  { unfold unlinking. rewrite !Forall_cons. split_and!; try done; [apply submits, input_urb_ok|apply unlinks|apply gives_back]. }
  pose proof (play_reaches kernel_work unlinking (initial_hcd 0 [], replicate 2 (mret tt)) Hm) as Hr.
  exists (foldl play (initial_hcd 0 [], replicate 2 (mret tt)) unlinking).1, (foldl play (initial_hcd 0 [], replicate 2 (mret tt)) unlinking).2.
  split_and!; [by rewrite <- surjective_pairing|vm_compute; reflexivity..].
Qed.

(** ** The properties: frames of the character device *)

Lemma frame_parsed path h payload :
  is_u16 (type h) -> is_u16 (flags h) -> 0 <= sequence h < 2 ^ 64 ->
  header_length h = Z.of_nat (length payload) -> (length payload <= VDS_FRAME_MAX_PAYLOAD)%nat ->
  parse_vds_frame path (Got (encode_header h ++ payload)) = Ok (Some (h, payload)).
Proof.
  intros Ht Hf Hs Hl Hm. pose proof (encode_header_length h) as He.
  assert (decode_header (encode_header h ++ payload) = h) as Hd.
  { apply header_roundtrip; try done. unfold is_u32, VDS_FRAME_MAX_PAYLOAD in *. lia. }
  assert (length (encode_header h ++ payload) = (frame_header_size + length payload)%nat) as Hlen by (by rewrite length_app, He).
  assert (drop frame_header_size (encode_header h ++ payload) = payload) as Hdrop by (rewrite <- He; apply drop_app_length).
  unfold parse_vds_frame. destruct (encode_header h ++ payload) as [|b rest] eqn:Hb; [unfold frame_header_size in Hlen; cbn in Hlen; lia|].
  rewrite Hlen, Hd, Hdrop, Hl, Nat2Z.id, take_ge by done.
  rewrite (proj2 (Nat.ltb_ge _ _)), (proj2 (Z.ltb_ge _ _)), (proj2 (Z.eqb_eq _ _)) by lia. done.
Qed.

(** What a frame of the daemon is for. *)
Definition handles (t : Z) (payload : list Z) : option (thread Hcd Z) :=
  if t =? VDS_FRAME_USB_HID_IN then Some (locked (vds_write_input_frame payload))
  else if t =? VDS_FRAME_USB_FEATURE_REPLY then Some (vds_write_feature_reply payload)
  else if t =? VDS_FRAME_USB_AUDIO_IN then Some (locked (vds_write_audio_in_frame payload))
  else None.

Lemma take_spec count copy_fails s h payload rest :
  events (q_events s) = (h, payload) :: rest ->
  take_event count copy_fails s =
  if count <? Z.of_nat frame_header_size + header_length h then (s, Ok (ReadFails (- EMSGSIZE)))
  else (put_q_events (mk_events rest (event_count (q_events s) - 1) (next_sequence (q_events s)) (frames_to_user (q_events s))) s,
        Ok (if copy_fails then ReadFails (- EFAULT) else ReadFrame (encode_header h ++ payload))).
Proof. intros He. unfold take_event, mbind, prog_bind, get_state. cbv zeta. rewrite He. by case_match. Qed.

(** C21. Frames cross the character device unchanged in both directions: a read with room for
    the oldest frame takes it off the queue, and the daemon's reader finds in the bytes the
    type, number and payload that were queued; one without room gets EMSGSIZE and loses
    nothing.  A frame the daemon builds and writes reaches the handler of its type with its
    payload, and the write returns its length or the handler's error; every other type is
    refused with EINVAL and changes nothing.  The module is running, with memory to be had. *)
Theorem frames_cross_the_device s path :
  hcd_ok s -> running s ->
  (forall nonblock interrupted count h payload rest, events (q_events s) = (h, payload) :: rest ->
     if count <? Z.of_nat frame_header_size + header_length h
     then run (vds_read nonblock interrupted count false) s = (s, Ok (ReadFails (- EMSGSIZE)))
     else exists s' bytes, run (vds_read nonblock interrupted count false) s = (s', Ok (ReadFrame bytes))
          /\ parse_vds_frame path (Got bytes) = Ok (Some (h, payload)) /\ Z.of_nat (length bytes) <= count
          /\ events (q_events s') = rest)
  /\ (forall t payload frame, is_u16 t -> frame_bytes t payload = Ok frame ->
     run (vds_write frame false None) s =
     match handles t payload with
     | None => (s, Ok (- EINVAL))
     | Some m => match run m s with
                 | (s', Ok ret) => (s', Ok (if negb (ret =? 0) then ret else Z.of_nat (length frame)))
                 | (s', Throw e) => (s', Throw e)
                 end
     end).
Proof.
  intros Hs [Hst Hm]. pose proof (ok_events s Hs) as [V1 V2 V3 [V4 V5]]. split.
  - intros nonblock interrupted count h payload rest He. rewrite He in V1, V3. cbn [length] in V1.
    apply Forall_cons in V3 as [(F1 & F2 & F3 & F4 & _) _]. cbn [fst snd] in *.
    assert (forall B (g : bool -> thread Hcd B), run ((if nonblock then locked (s ← get_state; mret (bool_decide (events (q_events s) = []) && negb (stopping (port s)))) else mret false) ≫= g) s = run (g false) s) as Hn.
    { intros B g. destruct nonblock; [|done]. apply run_locked_then. unfold mbind, prog_bind, get_state. by rewrite He. }
    assert ((s ← get_state; mret (vds_read_ready s)) s = (s, Ok true)) as Hready.
    { unfold mbind, prog_bind, get_state, vds_read_ready. by rewrite He, Hst. }
    assert (run (vds_read nonblock interrupted count false) s = take_event count false s) as ->.
    { unfold vds_read. rewrite Hn, (run_locked_then _ _ _ _ _ Hready). cbn [negb]. apply run_locked. }
    rewrite (take_spec _ _ _ _ _ _ He).
    destruct (count <? _) eqn:Hc; [done|]. apply Z.ltb_ge in Hc. eexists _, _. split; [done|]. split_and!; [|rewrite length_app, encode_header_length; lia|done].
    apply frame_parsed; try done; unfold is_u16; try lia.
    pose proof (V5 0%nat (h, payload) ltac:(by rewrite He)) as Es. cbn [fst] in Es. rewrite Es. apply Z.mod_pos_bound. lia.
  - intros t payload frame Ht Hf. unfold frame_bytes in Hf. destruct (Nat.ltb_spec VDS_FRAME_MAX_PAYLOAD (length payload)); [done|].
    cbv zeta in Hf. assert (encode_header (mk_header (u16 t) 0 (u32 (Z.of_nat (length payload))) 0) ++ payload = frame) as <- by congruence.
    rewrite u16_id, u32_id by (done || unfold is_u32, VDS_FRAME_MAX_PAYLOAD in *; lia). set (h := mk_header t 0 (Z.of_nat (length payload)) 0).
    pose proof (encode_header_length h) as He.
    assert (decode_header (encode_header h ++ payload) = h) as Hd.
    { apply header_roundtrip; subst h; cbn; unfold is_u16, is_u32, VDS_FRAME_MAX_PAYLOAD in *; lia. }
    assert (length (encode_header h ++ payload) = (frame_header_size + length payload)%nat) as Hlen by (by rewrite length_app, He).
    unfold vds_write. rewrite Hlen, (proj2 (Nat.ltb_ge _ _)) by lia. erewrite run_locked_then.
    2: { unfold vds_is_stopping, mbind, prog_bind, get_state. by rewrite Hst. }
    assert (drop frame_header_size (encode_header h ++ payload) = payload) as -> by (rewrite <- He; apply drop_app_length).
    rewrite Hd. unfold h. cbn [header_length flags type].
    rewrite (proj2 (Z.ltb_ge _ _)), (proj2 (Z.eqb_eq _ _)) by lia. cbn [orb negb Z.eqb].
    assert (forall B (m : thread Hcd Z) (f : Z -> thread Hcd B) (r : Z -> B), (forall a, f a = mret (r a)) ->
      run (m ≫= f) s = match run m s with (s', Ok ret) => (s', Ok (r ret)) | (s', Throw e) => (s', Throw e) end) as Hend.
    { intros B m f r Hr. rewrite run_bind. unfold mbind, prog_bind. destruct (run m s) as [s' [a|e]]; [by rewrite Hr|done]. }
    unfold handles. destruct (t =? VDS_FRAME_USB_HID_IN), (t =? VDS_FRAME_USB_FEATURE_REPLY), (t =? VDS_FRAME_USB_AUDIO_IN);
      cbn [negb andb]; try done; (destruct (_ =? 0); by apply (Hend _ _ _ (fun ret => if negb (ret =? 0) then ret else Z.of_nat _))).
Qed.
Lemma frames_cross_the_device_witness :
  exists frame, frame_bytes VDS_FRAME_USB_HID_IN [1; 2; 3] = Ok frame
  /\ (run (vds_write frame false None) (initial_hcd 0 [])).2 = Ok (Z.of_nat (length frame)).
Proof.
  destruct (frames_cross_the_device (initial_hcd 0 []) EmptyString (initial_hcd_ok 0 []) (initial_running 0)) as [_ Hw].
  eexists. split; [reflexivity|]. rewrite (Hw VDS_FRAME_USB_HID_IN [1; 2; 3]) by (reflexivity || by split). vm_compute. reflexivity.
Defined.

(** ** The properties: input reports *)

Definition hid_ready (s : Hcd) : Z :=
  Z.max (now (clock s)) (next_hid_in_ready (clock s)) + hid_in_interval_us (vds_usb_device_profile (usb_dev s)) * 1000.
Definition with_context (id : nat) (c : vds_urb_context) (s : Hcd) : Hcd :=
  put_q_urbs (put_contexts (<[id := c]> (contexts (q_urbs s))) (q_urbs s)) s.
Lemma schedule_hid_spec id s c :
  contexts (q_urbs s) !! id = Some c ->
  vds_schedule_hid_in_giveback_locked id s =
  (put_clock (mk_clock (now (clock s)) (next_iso_out_ready (clock s)) (next_iso_in_ready (clock s)) (hid_ready s))
     (with_context id (put_ready (hid_ready s) c) s), Ok tt).
Proof.
  intros Hc. unfold vds_schedule_hid_in_giveback_locked. unfold mbind at 1, prog_bind, get_state. cbv zeta.
  unfold mbind, prog_bind, on_urbs, update_context, mbind, prog_bind, modify. rewrite get_context_spec, Hc. unfold hid_ready.
  destruct (Z.ltb_spec (now (clock s)) (next_hid_in_ready (clock s)));
    [rewrite Z.max_r by lia|rewrite Z.max_l by lia]; done.
Qed.

Lemma run_dispatch_input id u s :
  urb_pipe_type u = PIPE_INTERRUPT -> urb_dir_in u = true -> vds_usb_device_is_hid_in (usb_dev s) (urb_endpoint u) = true ->
  run (dispatch_urb id u) s = vds_interrupt_in_urb id s.
Proof. intros Hp Hd He. unfold dispatch_urb. rewrite run_usb, Hp. cbn [fst snd]. rewrite put_usb_same, Hd, He. apply run_locked. Qed.

Lemma report_length {A} payload (a b : A) :
  report_ok payload -> (if (length payload =? 0)%nat || (VDS_CONTROLLER_HID_PACKET_SIZE <? length payload)%nat then a else b) = b.
Proof. intros [Hl _]. rewrite (proj2 (Nat.eqb_neq _ _)), (proj2 (Nat.ltb_ge _ _)) by (unfold VDS_CONTROLLER_HID_PACKET_SIZE; lia). done. Qed.

(** Nothing waits for the report: it waits itself. *)
Lemma write_queues s payload :
  hcd_ok s -> running s -> report_ok payload -> pending_hid_in (q_urbs s) = [] ->
  exists s1, vds_write_input_frame payload s = (s1, Ok 0) /\ input_packets (q_host s1) = [payload]
  /\ usb_dev s1 = usb_dev s /\ q_urbs s1 = q_urbs s /\ clock s1 = clock s /\ running s1.
Proof.
  intros Hs [Hst Hm] Hl Hp. pose proof (ok_host s Hs) as [[H1 _] _ _ _ _].
  unfold vds_write_input_frame. rewrite report_length by done. unfold mbind at 1, prog_bind, get_state. rewrite Hst.
  unfold mbind at 1, prog_bind, vds_complete_pending_input_locked, mbind at 1, prog_bind, get_state. rewrite Hp.
  unfold vds_queue_input_packet_locked. unfold mbind at 1, prog_bind, mret, prog_ret, mbind at 1, prog_bind, mbind at 1, prog_bind, get_state.
  destruct (input_packets (q_host s)) as [|p [|]] eqn:Hpk; [| |cbn in H1; lia]; unfold reverse, rev_append.
  - unfold mbind at 1, prog_bind. rewrite kmalloc_spec, put_memory_same, Hm by done. cbn [default head negb].
    eexists. split; [reflexivity|]. by split_and!.
  - eexists. split; [reflexivity|]. by split_and!.
Qed.

(** A transfer takes the report that waits. *)
Lemma enqueue_takes s u payload :
  running s -> input_packets (q_host s) = [payload] -> urb_pipe_type u = PIPE_INTERRUPT -> urb_dir_in u = true ->
  vds_usb_device_is_hid_in (usb_dev s) (urb_endpoint u) = true ->
  let id := next_urb (q_urbs s) in
  exists s', run (vds_urb_enqueue u 0) s = (s', Ok 0) /\ input_packets (q_host s') = []
  /\ id ∈ completed_urbs (q_urbs s') /\ urb_store (q_urbs s') !! id = Some (filled u payload)
  /\ next_hid_in_ready (clock s') = hid_ready s
  /\ exists c, contexts (q_urbs s') !! id = Some c /\ context_status c = 0 /\ ready_time c = hid_ready s.
Proof.
  intros Hr Hi Hu1 Hu2 Hu3 id.
  set (s1 := put_clock (mk_clock (now (clock s)) (next_iso_out_ready (clock s)) (next_iso_in_ready (clock s)) (hid_ready s))
               (with_context id (put_ready (hid_ready s) fresh_context) (with_urb id (filled u payload)
                  (put_q_host (mk_host [] (input_packet_count (q_host s) - 1) (audio_in_packets (q_host s)) (audio_in_packet_count (q_host s))
                                 (audio_in_queued_bytes (q_host s))) (linked u s))))).
  assert (run (dispatch_urb id u) (linked u s) = (s1, Ok 0)) as E.
  { rewrite run_dispatch_input by done.
    unfold vds_interrupt_in_urb, mbind at 1, prog_bind, get_state. cbv zeta. change (q_host (linked u s)) with (q_host s). rewrite Hi.
    unfold mbind at 1, prog_bind, modify. unfold mbind at 1, prog_bind, fill_urb.
    rewrite (on_urb_spec _ _ _ u) by apply linked_store. cbn [fst snd].
    unfold mbind at 1, prog_bind. erewrite (schedule_hid_spec id _ fresh_context); [reflexivity|]. cbn. apply lookup_insert_eq. }
  destruct (queue_completes id 0 s1 (put_ready (hid_ready s) fresh_context)) as (s2 & E2 & C1 & (c & C2 & C5) & C3 & _ & _ & _ & _ & _ & C7 & C4).
  { cbn. apply lookup_insert_eq. }
  { done. }
  { done. }
  exists s2. rewrite run_enqueue by done. fold id. rewrite E. unfold left_pending. change (0 =? - EINPROGRESS) with false. cbn [andb].
  rewrite E2. split_and!; try done; [by rewrite C4| |by rewrite C7|exists c]. { rewrite C3. cbn. apply lookup_insert_eq. }
  split_and!; try done. rewrite (queue_keeps_ready id 0 s1 s2 true (put_ready (hid_ready s) fresh_context) c); try done.
  cbn. apply lookup_insert_eq.
Qed.

(** C18. The host gets the newest input report: a report the daemon writes completes the
    transfer that waits longest, with its beginning and status 0; when none waits, the report
    takes the place of one that does (and no time is taken for it), and the next transfer of
    the host completes with it.  Either way the transfer is due one interval of the controller
    behind the one before or behind now, if that is later, and the next one is counted from
    this time. *)
Theorem newest_report_reaches_host s payload :
  hcd_ok s -> running s -> report_ok payload ->
  match pending_hid_in (q_urbs s) with
  | id :: rest =>
      exists s' u c, vds_write_input_frame payload s = (s', Ok 0) /\ urb_store (q_urbs s) !! id = Some u
      /\ urb_store (q_urbs s') !! id = Some (filled u payload) /\ id ∈ completed_urbs (q_urbs s')
      /\ contexts (q_urbs s') !! id = Some c /\ context_status c = 0 /\ ready_time c = hid_ready s
      /\ next_hid_in_ready (clock s') = hid_ready s
      /\ pending_hid_in (q_urbs s') = rest /\ input_packets (q_host s') = input_packets (q_host s)
  | [] =>
      forall u, urb_pipe_type u = PIPE_INTERRUPT -> urb_dir_in u = true ->
      vds_usb_device_is_hid_in (usb_dev s) (urb_endpoint u) = true ->
      exists s1 s2, vds_write_input_frame payload s = (s1, Ok 0) /\ input_packets (q_host s1) = [payload]
      /\ run (vds_urb_enqueue u 0) s1 = (s2, Ok 0) /\ input_packets (q_host s2) = []
      /\ next_urb (q_urbs s1) ∈ completed_urbs (q_urbs s2)
      /\ urb_store (q_urbs s2) !! next_urb (q_urbs s1) = Some (filled u payload)
      /\ (exists c, contexts (q_urbs s2) !! next_urb (q_urbs s1) = Some c /\ context_status c = 0 /\ ready_time c = hid_ready s)
      /\ next_hid_in_ready (clock s1) = next_hid_in_ready (clock s) /\ next_hid_in_ready (clock s2) = hid_ready s
  end.
Proof.
  intros Hs Hr Hl. pose proof Hr as [Hst Hm]. pose proof (ok_urbs s Hs) as Hq.
  destruct (pending_hid_in (q_urbs s)) as [|id rest] eqn:Hp.
  - intros u Hu1 Hu2 Hu3. destruct (write_queues s payload Hs Hr Hl Hp) as (s1 & E1 & Hi & Hd & _ & Hk & Hr1).
    destruct (enqueue_takes s1 u payload Hr1 Hi Hu1 Hu2) as (s2 & E2 & F1 & F2 & F3 & F4 & F5); [by rewrite Hd|].
    assert (hid_ready s1 = hid_ready s) as Hh by (unfold hid_ready; by rewrite Hk, Hd).
    rewrite Hh in F4, F5. exists s1, s2. by rewrite Hk.
  - destruct (listed_context _ _ _ id (ok_hid_in _ Hq)) as (c & Hc & Hcs); [rewrite Hp; apply list_elem_of_here|].
    destruct (listed_stored _ _ _ Hq (ok_hid_in _ Hq) id) as [u Hu]; [rewrite Hp; apply list_elem_of_here|].
    assert (id ∉ rest) as Hnr by (pose proof (proj1 (ok_hid_in _ Hq)) as Hnd; rewrite Hp in Hnd; by apply NoDup_cons in Hnd as [? _]).
    unfold vds_write_input_frame. rewrite report_length by done. unfold mbind at 1, prog_bind, get_state. rewrite Hst.
    unfold mbind at 1, prog_bind, vds_complete_pending_input_locked, mbind at 1, prog_bind, get_state. rewrite Hp.
    unfold mbind at 1, prog_bind, fill_urb. rewrite (on_urb_spec _ _ _ u) by done. cbn [fst snd].
    unfold mbind at 1, prog_bind. rewrite (schedule_hid_spec id _ c) by done.
    unfold mbind at 1, prog_bind, vds_queue_urb_giveback, on_urbs. rewrite queue_giveback_spec. cbn [q_urbs with_context put_q_urbs put_clock contexts put_contexts].
    rewrite lookup_insert_eq. cbn [context_state put_ready]. rewrite Hcs. cbv zeta. cbn [orb bool_decide].
    eexists _, u, _. split; [reflexivity|]. split_and!; cbn; try done.
    + apply lookup_insert_eq.
    + rewrite insert_completed_perm. apply list_elem_of_here.
    + apply lookup_insert_eq.
    + done.
    + done.
    + rewrite Hp. unfold without. rewrite filter_cons, decide_False by (intros Hn; by apply Hn). by apply (not_in_without id rest).
Qed.
Lemma newest_report_reaches_host_witness :
  exists s1 s2, vds_write_input_frame [1; 2; 3] (initial_hcd 0 []) = (s1, Ok 0) /\ run (vds_urb_enqueue input_urb 0) s1 = (s2, Ok 0)
  /\ urb_store (q_urbs s2) !! next_urb (q_urbs s1) = Some (filled input_urb [1; 2; 3]).
Proof.
  assert (report_ok [1; 2; 3]) as Hp by (split; [cbn; lia|unfold bytes_ok; by rewrite !Forall_cons]).
  destruct (newest_report_reaches_host (initial_hcd 0 []) [1; 2; 3] (initial_hcd_ok 0 []) (initial_running 0) Hp input_urb)
    as (s1 & s2 & E1 & _ & E2 & _ & _ & F & _); [done..|].
  by exists s1, s2.
Defined.

(** ** The properties: loading *)

Definition loaded (n : nat) : Registration := mk_registration true (Some (seq 0 n)) n (list_to_set (seq 0 n)).
Lemma unregister_seq m n driver k :
  (n <= m)%nat ->
  unregister_devices n (mk_registration driver (Some (seq 0 m)) k (list_to_set (seq 0 n)))
  = mk_registration driver (Some (seq 0 m)) 0 ∅.
Proof.
  revert k. induction n as [|n IH]; intros k Hn; cbn [unregister_devices]; [done|].
  cbv zeta. cbn [vds_hcd_platform_devices driver_registered devices_present].
  change (default [] (Some (seq 0 m)) !! n) with (seq 0 m !! n). rewrite lookup_seq_lt by lia. cbn [Nat.add]. rewrite <- (IH n) by lia. do 2 f_equal.
  rewrite seq_S, list_to_set_app_L. cbn [Nat.add].
  assert (n ∉ (list_to_set (seq 0 n) : gset nat)) by (rewrite elem_of_list_to_set, elem_of_seq; lia). set_solver.
Qed.
Lemma unload_all n : unregister_driver (free_devices (loaded n)) = nothing_registered.
Proof. unfold free_devices, loaded. cbn [vds_hcd_port_count]. by rewrite unregister_seq. Qed.
Lemma register_spec answer todo i :
  let '(r, ret) := register_devices answer todo i (loaded i) in
  (ret = 0 /\ r = loaded (i + todo)) \/ (ret <> 0 /\ r = nothing_registered).
Proof.
  revert i. induction todo as [|todo IH]; intros i; cbn [register_devices].
  - left. by rewrite Nat.add_0_r.
  - destruct (Z.eqb_spec (answer i) 0); cbn [negb].
    + replace (mk_registration _ _ _ _) with (loaded (S i)); [rewrite <- Nat.add_succ_comm; apply IH|].
      unfold loaded. rewrite seq_S, list_to_set_app_L. cbn. f_equal. set_solver.
    + right. split; [done|]. apply unload_all.
Qed.

(**  Loading the module registers the driver and the devices that were asked for, between one
    and four, or, whatever call fails, nothing at all and returns an error; unloading it
    unregisters what loading registered.  A device likewise has its host controller, thread,
    bus and character device, or none of them, and gives all back when it is removed. *)
Theorem loading_all_or_nothing max_port driver allocated answer created kthread add misc :
  (let '(r, ret) := vds_hcd_init max_port driver allocated answer nothing_registered in
   if ret =? 0 then 1 <= max_port <= 4 /\ r = loaded (Z.to_nat max_port) /\ vds_hcd_exit r = nothing_registered
   else r = nothing_registered)
  /\ (let '(p, ret) := vds_hcd_probe created kthread add misc not_probed in
      if ret =? 0 then p = mk_probed true true true true /\ vds_hcd_remove p = not_probed else p = not_probed).
Proof.
  split.
  - unfold vds_hcd_init, VDS_MIN_PORT_COUNT, VDS_MAX_PORT_COUNT.
    destruct (Z.ltb_spec max_port 1), (Z.ltb_spec 4 max_port); try done. cbn [orb].
    destruct (Z.eqb_spec driver 0) as [->|Hd]; cbn [negb]; [|by rewrite (proj2 (Z.eqb_neq _ _) Hd)].
    destruct allocated; [|done]. cbn [negb]. change (mk_registration true (Some []) _ _) with (loaded 0).
    pose proof (register_spec answer (Z.to_nat max_port) 0) as Hr. destruct (register_devices _ _ _ _) as [r ret].
    destruct Hr as [[-> ->]|[Hne ->]]; [|by rewrite (proj2 (Z.eqb_neq _ _) Hne)].
    split_and!; [lia|lia|done|apply unload_all].
  - unfold vds_hcd_probe. destruct created; [|done]. cbn [negb].
    destruct (Z.eqb_spec kthread 0) as [->|Hk]; cbn [negb]; [|by rewrite (proj2 (Z.eqb_neq _ _) Hk)].
    destruct (Z.eqb_spec add 0) as [->|Ha]; cbn [negb]; [|by rewrite (proj2 (Z.eqb_neq _ _) Ha)].
    destruct (Z.eqb_spec misc 0) as [->|Hm]; cbn [negb]; [done|by rewrite (proj2 (Z.eqb_neq _ _) Hm)].
Qed.
