(* ===== verification/LinuxIo.v ===== *)
(** System calls of the Linux daemon, the full write of src/src/platform/linux/vds_io.cc,
    the Bluetooth channels of src/src/platform/linux/vds_bt.cc, and what is made of udev's
    answers.

    What the kernel answers is an input: each list of the world has one entry per
    call, in order; when a list is used up, writes take everything, reads have no data,
    polls time out, and the other calls succeed.  [sent] is what the kernel took, one entry per call, and
    [moments] places the ioctls among it. *)
From stdpp Require Import base list strings numbers sorting.
From Stdlib Require Import Ascii ZArith Lia.
From S2P Require Import Prelude Text Words BtPacket.
From S2P Require Import Common Config Supervisor.

Local Open Scope Z_scope.

(** ** The world *)

(** [EWOULDBLOCK] is [EAGAIN] on Linux. *)
Inductive Errno := EINTR | EAGAIN | ENOSPC | OtherError (text : string).
Definition strerror (e : Errno) : string :=
  match e with
  | EINTR => "Interrupted system call"
  | EAGAIN => "Resource temporarily unavailable"
  | ENOSPC => "No space left on device"
  | OtherError text => text
  end.

Inductive write_answer := Wrote (n : nat) | WriteError (e : Errno).
Inductive read_answer := Received (bytes : list Z) | ReadError (e : Errno).
(** [PollEvents ready error]: whether the event that was asked for is set, and whether
    one of [POLLERR], [POLLHUP] and [POLLNVAL] is. *)
Inductive poll_answer := PollEvents (ready error : bool) | PollTimeout | PollError (e : Errno).

Record World := mk_world {
  writes : list write_answer;
  reads : list read_answer;
  polls : list poll_answer;
  ioctls : list (option string);    (* the error text of a call that fails *)
  time : Z;                         (* of the steady clock, in nanoseconds *)
  ticks : list N;                   (* how far each reading of the clock moves it *)
  sent : list (Z * list Z);
  commands : list (Z * string * Z); (* the ioctls that succeeded, with their argument *)
  moments : list nat                (* for each of them, how much had been sent *)
}.

Definition set_writes rest out (w : World) : World :=
  mk_world rest (reads w) (polls w) (ioctls w) (time w) (ticks w) out (commands w) (moments w).
Definition set_reads rest (w : World) : World :=
  mk_world (writes w) rest (polls w) (ioctls w) (time w) (ticks w) (sent w) (commands w) (moments w).
Definition set_polls rest (w : World) : World :=
  mk_world (writes w) (reads w) rest (ioctls w) (time w) (ticks w) (sent w) (commands w) (moments w).
Definition set_ioctls rest (w : World) : World :=
  mk_world (writes w) (reads w) (polls w) rest (time w) (ticks w) (sent w) (commands w) (moments w).
(** An ioctl that succeeds is recorded, with its place among what is sent. *)
Definition add_command command (w : World) : World :=
  mk_world (writes w) (reads w) (polls w) (ioctls w) (time w) (ticks w) (sent w)
    (commands w ++ [command]) (moments w ++ [length (sent w)]).
Definition set_time now rest (w : World) : World :=
  mk_world (writes w) (reads w) (polls w) (ioctls w) now rest (sent w) (commands w) (moments w).

(** [write] and [send] *)
Definition sys_write (fd : Z) (bytes : list Z) : prog World write_answer := fun w =>
  match writes w with
  | [] => (set_writes [] (sent w ++ [(fd, bytes)]) w, Ok (Wrote (length bytes)))
  | Wrote n :: rest =>
      let n := Nat.min n (length bytes) in
      (set_writes rest (sent w ++ [(fd, take n bytes)]) w, Ok (Wrote n))
  | WriteError e :: rest => (set_writes rest (sent w) w, Ok (WriteError e))
  end.
Definition sys_read : prog World read_answer := fun w =>
  match reads w with
  | [] => (w, Ok (ReadError EAGAIN))
  | r :: rest => (set_reads rest w, Ok r)
  end.
Definition sys_poll : prog World poll_answer := fun w =>
  match polls w with
  | [] => (w, Ok PollTimeout)
  | r :: rest => (set_polls rest w, Ok r)
  end.
Definition sys_ioctl (fd : Z) (name : string) (arg : Z) : prog World (option string) := fun w =>
  match ioctls w with
  | [] => (add_command (fd, name, arg) w, Ok None)
  | None :: rest => (add_command (fd, name, arg) (set_ioctls rest w), Ok None)
  | Some e :: rest => (set_ioctls rest w, Ok (Some e))
  end.
(** [Clock::now()] *)
Definition clock_now : prog World Z := fun w =>
  let now := time w + Z.of_N (default 0%N (head (ticks w))) in
  (set_time now (tail (ticks w)) w, Ok now).
(** [std::this_thread::sleep_for] *)
Definition sleep_for (ns : Z) : prog World unit := modify (fun w => set_time (time w + ns) (ticks w) w).

(** ** vds_io.cc *)

(** [write_full]: each round takes an answer of [writes], and writes all that is left
    when there is none, so their number bounds the rounds. *)
Fixpoint write_full_loop (fuel : nat) (fd : Z) (bytes : list Z) (label : string)
    (poll_timeout_ms : Z) : prog World unit :=
  match fuel with
  | O => throw "<fuel>"
  | S f =>
      if (length bytes =? 0)%nat then mret tt
      else
        r ← sys_write fd bytes;
        match r with
        | WriteError EINTR => write_full_loop f fd bytes label poll_timeout_ms
        | WriteError e =>
            if bool_decide (0 <= poll_timeout_ms) && match e with EAGAIN => true | _ => false end then
              p ← sys_poll;
              match p with
              | PollEvents true _ => write_full_loop f fd bytes label poll_timeout_ms
              | PollTimeout => throw (label +:+ " write timed out")
              | PollError EINTR => write_full_loop f fd bytes label poll_timeout_ms
              | PollEvents false _ => throw (label +:+ " write poll reported socket error")
              | PollError e => throw (label +:+ " write poll failed: " +:+ strerror e)
              end
            else throw (label +:+ " write failed: " +:+ strerror e)
        | Wrote O => throw (label +:+ " write returned zero bytes")
        | Wrote n => write_full_loop f fd (drop n bytes) label poll_timeout_ms
        end
  end.
Definition write_full (fd : Z) (bytes : list Z) (label : string) (poll_timeout_ms : Z) :
    prog World unit :=
  w ← get_state; write_full_loop (S (S (length (writes w)))) fd bytes label poll_timeout_ms.

(** ** vds_bt.cc *)

Definition kBtWritePollTimeoutMs : Z := 1000.
Definition kBtReadBufferSize : nat := 1024.
Definition bt_label : string := "Bluetooth L2CAP".

Fixpoint try_write_loop (fuel : nat) (fd : Z) (bytes : list Z) : prog World bool :=
  match fuel with
  | O => throw "<fuel>"
  | S f =>
      r ← sys_write fd bytes;
      match r with
      | Wrote n => if (n =? length bytes)%nat then mret true
                   else throw "Bluetooth L2CAP short packet write"
      | WriteError EINTR => try_write_loop f fd bytes
      | WriteError EAGAIN => mret false
      | WriteError e => throw ("Bluetooth L2CAP write failed: " +:+ strerror e)
      end
  end.
Definition try_write_packet (fd : Z) (bytes : list Z) : prog World bool :=
  w ← get_state; try_write_loop (S (length (writes w))) fd bytes.

(** A descriptor that was moved away is negative. *)
Record BtL2capBackend := mk_backend {
  bt_address : string;
  control_fd : Z;
  interrupt_fd : Z
}.

Definition send_output_report (b : BtL2capBackend) (report : list Z) : prog World unit :=
  if interrupt_fd b <? 0 then mret tt
  else write_full (interrupt_fd b) (hidp_output_packet report) bt_label kBtWritePollTimeoutMs.

Definition try_send_output_report (b : BtL2capBackend) (report : list Z) : prog World bool :=
  if interrupt_fd b <? 0 then mret false
  else try_write_packet (interrupt_fd b) (hidp_output_packet report).

Definition send_feature_get (b : BtL2capBackend) (report_id : Z) : prog World unit :=
  if control_fd b <? 0 then mret tt
  else write_full (control_fd b) (feature_get_packet report_id) bt_label kBtWritePollTimeoutMs.

Definition send_feature_set (b : BtL2capBackend) (report : list Z) : prog World unit :=
  if control_fd b <? 0 then mret tt
  else
    packet ← lift (feature_set_packet report);
    if (length packet =? 0)%nat then mret tt
    else write_full (control_fd b) packet bt_label kBtWritePollTimeoutMs.

(** One read; the buffer takes what fits. *)
Definition bt_read (failed closed : string) : prog World (option (list Z)) :=
  r ← sys_read;
  match r with
  | ReadError EAGAIN | ReadError EINTR => mret None
  | ReadError e => throw (failed +:+ strerror e)
  | Received [] => throw closed
  | Received bytes => mret (Some (take kBtReadBufferSize bytes))
  end.

Definition read_feature_report (b : BtL2capBackend) : prog World (option (list Z)) :=
  r ← bt_read "Bluetooth L2CAP control read failed: " "Bluetooth L2CAP control channel closed";
  mret (r ≫= bt_feature_to_usb_feature_reply).

Definition read_interrupt_packet (b : BtL2capBackend) : prog World (option (list Z)) :=
  bt_read "Bluetooth L2CAP read failed: " "Bluetooth L2CAP interrupt channel closed".

(** ** What udev is asked (src/src/platform/linux/vds_udev.cc)

    libudev's answers are inputs: the device nodes of the devices of a subsystem, the names
    and [uniq] attributes of the HID devices, and the devices of a monitor. *)

(** Of a device: its node, or none. *)
Definition is_vds_device_path (path : string) : bool :=
  match strip_prefix "/dev/vds" path with
  | Some number => is_decimal_number number
  | None => false
  end.
Definition require_vds_devnode (devnode : option string) : string :=
  match devnode with
  | Some path => if is_vds_device_path path then path else ""
  | None => ""
  end.

(** [std::sort]: equal strings cannot be told apart. *)
Definition string_le (x y : string) : Prop := String.leb x y = true.
#[export] Instance string_le_dec x y : Decision (string_le x y).
Proof. unfold string_le. apply _. Defined.

Definition discover_vds_devices (devnodes : list (option string)) : list string :=
  merge_sort string_le (filter (fun s => s <> EmptyString) (require_vds_devnode <$> devnodes)).

(** A HID device: its name and its [uniq] attribute. *)
Abbreviation hid_device := (option string * option string)%type.

(** One turn of the loop: whether this device is the controller. *)
Definition hid_device_matches (normalized : string) (d : hid_device) : bool :=
  match d with
  | (Some name, Some uniq) =>
      starts_with "0005:" name
      && match normalize_bluetooth_address uniq with
         | Ok a => bool_decide (a = normalized)
         | Throw _ => false
         end
  | _ => false
  end.

(** [None]: udev cannot be asked. *)
Definition bluetooth_hid_device_present (address_ : string) (devices : option (list hid_device)) :
    result bool :=
  normalized ← normalize_bluetooth_address address_;
  Ok (match devices with Some ds => existsb (hid_device_matches normalized) ds | None => false end).

(** [VdsDeviceMonitor::drain], the devices received. *)
Definition drain (received : list (option string)) : bool :=
  existsb (fun d => negb (bool_decide (require_vds_devnode d = ""))) received.
