(* ===== verification/LinuxState.v ===== *)
(** The state of a virtual port of the Linux daemon (struct [VirtualPort] of
    src/src/platform/linux/vdsd.cc).

    Log lines, and the statistics that are only kept while tracing is on, are not
    modelled, so the trace flags do not appear; [trace_state] has the other counters. *)
From stdpp Require Import base list strings numbers.
From Stdlib Require Import ZArith.
From S2P Require Import Prelude Words OutputState Audio.

Local Open Scope Z_scope.

Inductive counter :=
  | dropped_usb_frame_count | dropped_audio_haptics_count | queue_dropped_audio_haptics_count
  | stale_audio_haptics_count | blocked_audio_haptics_count | deferred_bt_state_count
  | coalesced_bt_state_count | blocked_bt_state_count | bt_mic_packet_count
  | bt_mic_drop_count | bt_mic_decode_fail_count | audio_in_forward_count.
#[export] Instance counter_eq_dec : EqDecision counter.
Proof. solve_decision. Defined.

Section State.
Context {Encoder Dec : Type}.

(** [feature_cache] holds what [feature_cached] marks, by report number.  Times are
    nanoseconds, zero when unset. *)
Record VirtualPort := mk_port {
  path : string;
  fd : Z;
  extractor : PcmAudioExtractor Encoder;
  waveout_extractor : PcmAudioExtractor Encoder;
  mic_decoder : Dec;
  haptics_builder : HapticsPacketBuilder;
  output_state : DsOutputState;
  pending_audio_chunks : list AudioChunk;
  last_sent_bt_state : option (list Z);
  pending_bt_state : option (list Z);
  pending_bt_state_report : option (list Z);
  next_haptics_send_time : Z;
  audio_out_stream_active : bool;
  audio_in_stream_active : bool;
  mic_muted : bool;
  mute_button_down : bool;
  headset_plugged : bool;
  headset_mic_plugged : bool;
  speaker_waveout_selected : bool;
  speaker_waveout_active : bool;
  speaker_waveout_phase : Z;
  feature_cache : list (option (list Z));
  pending_feature_reports : list Z;
  trace_state : counter -> Z
}.

(** Assignments to one member. *)
Definition put_extractor (v : PcmAudioExtractor Encoder) (p : VirtualPort) : VirtualPort :=
  mk_port (path p) (fd p) v (waveout_extractor p) (mic_decoder p) (haptics_builder p)
    (output_state p) (pending_audio_chunks p) (last_sent_bt_state p) (pending_bt_state p)
    (pending_bt_state_report p) (next_haptics_send_time p) (audio_out_stream_active p)
    (audio_in_stream_active p) (mic_muted p) (mute_button_down p) (headset_plugged p)
    (headset_mic_plugged p) (speaker_waveout_selected p) (speaker_waveout_active p)
    (speaker_waveout_phase p) (feature_cache p) (pending_feature_reports p) (trace_state p).
Definition put_waveout_extractor (v : PcmAudioExtractor Encoder) (p : VirtualPort) : VirtualPort :=
  mk_port (path p) (fd p) (extractor p) v (mic_decoder p) (haptics_builder p) (output_state p)
    (pending_audio_chunks p) (last_sent_bt_state p) (pending_bt_state p)
    (pending_bt_state_report p) (next_haptics_send_time p) (audio_out_stream_active p)
    (audio_in_stream_active p) (mic_muted p) (mute_button_down p) (headset_plugged p)
    (headset_mic_plugged p) (speaker_waveout_selected p) (speaker_waveout_active p)
    (speaker_waveout_phase p) (feature_cache p) (pending_feature_reports p) (trace_state p).
Definition put_mic_decoder (v : Dec) (p : VirtualPort) : VirtualPort :=
  mk_port (path p) (fd p) (extractor p) (waveout_extractor p) v (haptics_builder p)
    (output_state p) (pending_audio_chunks p) (last_sent_bt_state p) (pending_bt_state p)
    (pending_bt_state_report p) (next_haptics_send_time p) (audio_out_stream_active p)
    (audio_in_stream_active p) (mic_muted p) (mute_button_down p) (headset_plugged p)
    (headset_mic_plugged p) (speaker_waveout_selected p) (speaker_waveout_active p)
    (speaker_waveout_phase p) (feature_cache p) (pending_feature_reports p) (trace_state p).
Definition put_haptics_builder (v : HapticsPacketBuilder) (p : VirtualPort) : VirtualPort :=
  mk_port (path p) (fd p) (extractor p) (waveout_extractor p) (mic_decoder p) v (output_state p)
    (pending_audio_chunks p) (last_sent_bt_state p) (pending_bt_state p)
    (pending_bt_state_report p) (next_haptics_send_time p) (audio_out_stream_active p)
    (audio_in_stream_active p) (mic_muted p) (mute_button_down p) (headset_plugged p)
    (headset_mic_plugged p) (speaker_waveout_selected p) (speaker_waveout_active p)
    (speaker_waveout_phase p) (feature_cache p) (pending_feature_reports p) (trace_state p).
Definition put_output_state (v : DsOutputState) (p : VirtualPort) : VirtualPort :=
  mk_port (path p) (fd p) (extractor p) (waveout_extractor p) (mic_decoder p) (haptics_builder
    p) v (pending_audio_chunks p) (last_sent_bt_state p) (pending_bt_state p)
    (pending_bt_state_report p) (next_haptics_send_time p) (audio_out_stream_active p)
    (audio_in_stream_active p) (mic_muted p) (mute_button_down p) (headset_plugged p)
    (headset_mic_plugged p) (speaker_waveout_selected p) (speaker_waveout_active p)
    (speaker_waveout_phase p) (feature_cache p) (pending_feature_reports p) (trace_state p).
Definition put_pending_audio_chunks (v : list AudioChunk) (p : VirtualPort) : VirtualPort :=
  mk_port (path p) (fd p) (extractor p) (waveout_extractor p) (mic_decoder p) (haptics_builder
    p) (output_state p) v (last_sent_bt_state p) (pending_bt_state p) (pending_bt_state_report
    p) (next_haptics_send_time p) (audio_out_stream_active p) (audio_in_stream_active p)
    (mic_muted p) (mute_button_down p) (headset_plugged p) (headset_mic_plugged p)
    (speaker_waveout_selected p) (speaker_waveout_active p) (speaker_waveout_phase p)
    (feature_cache p) (pending_feature_reports p) (trace_state p).
Definition put_last_sent_bt_state (v : option (list Z)) (p : VirtualPort) : VirtualPort :=
  mk_port (path p) (fd p) (extractor p) (waveout_extractor p) (mic_decoder p) (haptics_builder
    p) (output_state p) (pending_audio_chunks p) v (pending_bt_state p) (pending_bt_state_report
    p) (next_haptics_send_time p) (audio_out_stream_active p) (audio_in_stream_active p)
    (mic_muted p) (mute_button_down p) (headset_plugged p) (headset_mic_plugged p)
    (speaker_waveout_selected p) (speaker_waveout_active p) (speaker_waveout_phase p)
    (feature_cache p) (pending_feature_reports p) (trace_state p).
Definition put_pending_bt_state (v : option (list Z)) (p : VirtualPort) : VirtualPort :=
  mk_port (path p) (fd p) (extractor p) (waveout_extractor p) (mic_decoder p) (haptics_builder
    p) (output_state p) (pending_audio_chunks p) (last_sent_bt_state p) v
    (pending_bt_state_report p) (next_haptics_send_time p) (audio_out_stream_active p)
    (audio_in_stream_active p) (mic_muted p) (mute_button_down p) (headset_plugged p)
    (headset_mic_plugged p) (speaker_waveout_selected p) (speaker_waveout_active p)
    (speaker_waveout_phase p) (feature_cache p) (pending_feature_reports p) (trace_state p).
Definition put_pending_bt_state_report (v : option (list Z)) (p : VirtualPort) : VirtualPort :=
  mk_port (path p) (fd p) (extractor p) (waveout_extractor p) (mic_decoder p) (haptics_builder
    p) (output_state p) (pending_audio_chunks p) (last_sent_bt_state p) (pending_bt_state p) v
    (next_haptics_send_time p) (audio_out_stream_active p) (audio_in_stream_active p) (mic_muted
    p) (mute_button_down p) (headset_plugged p) (headset_mic_plugged p)
    (speaker_waveout_selected p) (speaker_waveout_active p) (speaker_waveout_phase p)
    (feature_cache p) (pending_feature_reports p) (trace_state p).
Definition put_next_haptics_send_time (v : Z) (p : VirtualPort) : VirtualPort :=
  mk_port (path p) (fd p) (extractor p) (waveout_extractor p) (mic_decoder p) (haptics_builder
    p) (output_state p) (pending_audio_chunks p) (last_sent_bt_state p) (pending_bt_state p)
    (pending_bt_state_report p) v (audio_out_stream_active p) (audio_in_stream_active p)
    (mic_muted p) (mute_button_down p) (headset_plugged p) (headset_mic_plugged p)
    (speaker_waveout_selected p) (speaker_waveout_active p) (speaker_waveout_phase p)
    (feature_cache p) (pending_feature_reports p) (trace_state p).
Definition put_audio_out_stream_active (v : bool) (p : VirtualPort) : VirtualPort :=
  mk_port (path p) (fd p) (extractor p) (waveout_extractor p) (mic_decoder p) (haptics_builder
    p) (output_state p) (pending_audio_chunks p) (last_sent_bt_state p) (pending_bt_state p)
    (pending_bt_state_report p) (next_haptics_send_time p) v (audio_in_stream_active p)
    (mic_muted p) (mute_button_down p) (headset_plugged p) (headset_mic_plugged p)
    (speaker_waveout_selected p) (speaker_waveout_active p) (speaker_waveout_phase p)
    (feature_cache p) (pending_feature_reports p) (trace_state p).
Definition put_audio_in_stream_active (v : bool) (p : VirtualPort) : VirtualPort :=
  mk_port (path p) (fd p) (extractor p) (waveout_extractor p) (mic_decoder p) (haptics_builder
    p) (output_state p) (pending_audio_chunks p) (last_sent_bt_state p) (pending_bt_state p)
    (pending_bt_state_report p) (next_haptics_send_time p) (audio_out_stream_active p) v
    (mic_muted p) (mute_button_down p) (headset_plugged p) (headset_mic_plugged p)
    (speaker_waveout_selected p) (speaker_waveout_active p) (speaker_waveout_phase p)
    (feature_cache p) (pending_feature_reports p) (trace_state p).
Definition put_mic_muted (v : bool) (p : VirtualPort) : VirtualPort :=
  mk_port (path p) (fd p) (extractor p) (waveout_extractor p) (mic_decoder p) (haptics_builder
    p) (output_state p) (pending_audio_chunks p) (last_sent_bt_state p) (pending_bt_state p)
    (pending_bt_state_report p) (next_haptics_send_time p) (audio_out_stream_active p)
    (audio_in_stream_active p) v (mute_button_down p) (headset_plugged p) (headset_mic_plugged
    p) (speaker_waveout_selected p) (speaker_waveout_active p) (speaker_waveout_phase p)
    (feature_cache p) (pending_feature_reports p) (trace_state p).
Definition put_mute_button_down (v : bool) (p : VirtualPort) : VirtualPort :=
  mk_port (path p) (fd p) (extractor p) (waveout_extractor p) (mic_decoder p) (haptics_builder
    p) (output_state p) (pending_audio_chunks p) (last_sent_bt_state p) (pending_bt_state p)
    (pending_bt_state_report p) (next_haptics_send_time p) (audio_out_stream_active p)
    (audio_in_stream_active p) (mic_muted p) v (headset_plugged p) (headset_mic_plugged p)
    (speaker_waveout_selected p) (speaker_waveout_active p) (speaker_waveout_phase p)
    (feature_cache p) (pending_feature_reports p) (trace_state p).
Definition put_headset_plugged (v : bool) (p : VirtualPort) : VirtualPort :=
  mk_port (path p) (fd p) (extractor p) (waveout_extractor p) (mic_decoder p) (haptics_builder
    p) (output_state p) (pending_audio_chunks p) (last_sent_bt_state p) (pending_bt_state p)
    (pending_bt_state_report p) (next_haptics_send_time p) (audio_out_stream_active p)
    (audio_in_stream_active p) (mic_muted p) (mute_button_down p) v (headset_mic_plugged p)
    (speaker_waveout_selected p) (speaker_waveout_active p) (speaker_waveout_phase p)
    (feature_cache p) (pending_feature_reports p) (trace_state p).
Definition put_headset_mic_plugged (v : bool) (p : VirtualPort) : VirtualPort :=
  mk_port (path p) (fd p) (extractor p) (waveout_extractor p) (mic_decoder p) (haptics_builder
    p) (output_state p) (pending_audio_chunks p) (last_sent_bt_state p) (pending_bt_state p)
    (pending_bt_state_report p) (next_haptics_send_time p) (audio_out_stream_active p)
    (audio_in_stream_active p) (mic_muted p) (mute_button_down p) (headset_plugged p) v
    (speaker_waveout_selected p) (speaker_waveout_active p) (speaker_waveout_phase p)
    (feature_cache p) (pending_feature_reports p) (trace_state p).
Definition put_speaker_waveout_selected (v : bool) (p : VirtualPort) : VirtualPort :=
  mk_port (path p) (fd p) (extractor p) (waveout_extractor p) (mic_decoder p) (haptics_builder
    p) (output_state p) (pending_audio_chunks p) (last_sent_bt_state p) (pending_bt_state p)
    (pending_bt_state_report p) (next_haptics_send_time p) (audio_out_stream_active p)
    (audio_in_stream_active p) (mic_muted p) (mute_button_down p) (headset_plugged p)
    (headset_mic_plugged p) v (speaker_waveout_active p) (speaker_waveout_phase p)
    (feature_cache p) (pending_feature_reports p) (trace_state p).
Definition put_speaker_waveout_active (v : bool) (p : VirtualPort) : VirtualPort :=
  mk_port (path p) (fd p) (extractor p) (waveout_extractor p) (mic_decoder p) (haptics_builder
    p) (output_state p) (pending_audio_chunks p) (last_sent_bt_state p) (pending_bt_state p)
    (pending_bt_state_report p) (next_haptics_send_time p) (audio_out_stream_active p)
    (audio_in_stream_active p) (mic_muted p) (mute_button_down p) (headset_plugged p)
    (headset_mic_plugged p) (speaker_waveout_selected p) v (speaker_waveout_phase p)
    (feature_cache p) (pending_feature_reports p) (trace_state p).
Definition put_speaker_waveout_phase (v : Z) (p : VirtualPort) : VirtualPort :=
  mk_port (path p) (fd p) (extractor p) (waveout_extractor p) (mic_decoder p) (haptics_builder
    p) (output_state p) (pending_audio_chunks p) (last_sent_bt_state p) (pending_bt_state p)
    (pending_bt_state_report p) (next_haptics_send_time p) (audio_out_stream_active p)
    (audio_in_stream_active p) (mic_muted p) (mute_button_down p) (headset_plugged p)
    (headset_mic_plugged p) (speaker_waveout_selected p) (speaker_waveout_active p) v
    (feature_cache p) (pending_feature_reports p) (trace_state p).
Definition put_feature_cache (v : list (option (list Z))) (p : VirtualPort) : VirtualPort :=
  mk_port (path p) (fd p) (extractor p) (waveout_extractor p) (mic_decoder p) (haptics_builder
    p) (output_state p) (pending_audio_chunks p) (last_sent_bt_state p) (pending_bt_state p)
    (pending_bt_state_report p) (next_haptics_send_time p) (audio_out_stream_active p)
    (audio_in_stream_active p) (mic_muted p) (mute_button_down p) (headset_plugged p)
    (headset_mic_plugged p) (speaker_waveout_selected p) (speaker_waveout_active p)
    (speaker_waveout_phase p) v (pending_feature_reports p) (trace_state p).
Definition put_pending_feature_reports (v : list Z) (p : VirtualPort) : VirtualPort :=
  mk_port (path p) (fd p) (extractor p) (waveout_extractor p) (mic_decoder p) (haptics_builder
    p) (output_state p) (pending_audio_chunks p) (last_sent_bt_state p) (pending_bt_state p)
    (pending_bt_state_report p) (next_haptics_send_time p) (audio_out_stream_active p)
    (audio_in_stream_active p) (mic_muted p) (mute_button_down p) (headset_plugged p)
    (headset_mic_plugged p) (speaker_waveout_selected p) (speaker_waveout_active p)
    (speaker_waveout_phase p) (feature_cache p) v (trace_state p).
Definition put_trace_state (v : counter -> Z) (p : VirtualPort) : VirtualPort :=
  mk_port (path p) (fd p) (extractor p) (waveout_extractor p) (mic_decoder p) (haptics_builder
    p) (output_state p) (pending_audio_chunks p) (last_sent_bt_state p) (pending_bt_state p)
    (pending_bt_state_report p) (next_haptics_send_time p) (audio_out_stream_active p)
    (audio_in_stream_active p) (mic_muted p) (mute_button_down p) (headset_plugged p)
    (headset_mic_plugged p) (speaker_waveout_selected p) (speaker_waveout_active p)
    (speaker_waveout_phase p) (feature_cache p) (pending_feature_reports p) v.

(** A 64-bit counter goes up. *)
Definition bump (c : counter) (n : Z) (p : VirtualPort) : VirtualPort :=
  put_trace_state (fun c' => if decide (c' = c) then u64 (trace_state p c' + n) else trace_state p c') p.
End State.
Arguments VirtualPort : clear implicits.
