(* ===== verification/LinuxPort.v ===== *)
(** One virtual port of the Linux daemon (src/src/platform/linux/vdsd.cc): the frames of
    the kernel driver, the packets of the controller, and the reports and audio that
    wait to be sent. *)
From stdpp Require Import base list strings numbers.
From Stdlib Require Import Ascii ZArith Lia.
From S2P Require Import Prelude Text Words BtPacket OutputState Audio LinuxIo LinuxState.

Local Open Scope Z_scope.

(** ** Constants *)

Definition kUsbInputReportSize : nat := 64.
Definition kUsbInputMuteButtonOffset : nat := 10.
Definition kUsbInputHeadsetOffset : nat := 54.
Definition kUsbInputHeadphonesPluggedMask : Z := 0x01.
Definition kUsbInputMicPluggedMask : Z := 0x02.
Definition kUsbInputMuteButtonMask : Z := 0x04.
Definition kAudioOutputInterval : Z := 10 * 1000000.
Definition kHapticsOutputBlockedRetry : Z := 2 * 1000000.
Definition kMaxPendingAudioChunks : nat := 8.
Definition kFreshPendingAudioChunks : nat := 4.
Definition kTestCommandReportId : Z := 0x80.
Definition kTestCommandResultReportId : Z := 0x81.
Definition kTestCommandCompleteStatus : Z := 0x02.
Definition kTestCommandAudioDevice : Z := 0x06.
Definition kTestCommandWaveoutPrepare : Z := 0x04.
Definition kTestCommandWaveoutControl : Z := 0x02.
Definition kTestCommandSpeakerParam : Z := 0x08.
Definition kSpeakerWaveoutPeriodFrames : Z := 48.
Definition VDS_USB_INTERFACE_AUDIO_OUT : Z := 1.
Definition VDS_USB_INTERFACE_AUDIO_IN : Z := 2.

Section Port.
Context {Encoder Dec : Type} `{Codecs Encoder Dec}.

Abbreviation port := (VirtualPort Encoder Dec).
(** A port and the world. *)
Abbreviation state := (port * World)%type.

Definition update (f : port -> port) : prog state unit := modify (fun s => (f s.1, s.2)).
Definition the_port : prog state port := fun s => (s, Ok s.1).
Definition io {A} (m : prog World A) : prog state A := fun s =>
  let '(w, r) := m s.2 in ((s.1, w), r).
Definition on_output {A} (m : prog DsOutputState A) : prog state A := fun s =>
  let '(o, r) := m (output_state s.1) in ((put_output_state o s.1, s.2), r).
Definition on_builder {A} (m : prog HapticsPacketBuilder A) : prog state A := fun s =>
  let '(b, r) := m (haptics_builder s.1) in ((put_haptics_builder b s.1, s.2), r).
Definition on_extractor {A} (m : prog (PcmAudioExtractor Encoder) A) : prog state A := fun s =>
  let '(x, r) := m (extractor s.1) in ((put_extractor x s.1, s.2), r).
Definition on_waveout_extractor {A} (m : prog (PcmAudioExtractor Encoder) A) : prog state A := fun s =>
  let '(x, r) := m (waveout_extractor s.1) in ((put_waveout_extractor x s.1, s.2), r).
Definition on_decoder {A} (m : prog Dec A) : prog state A := fun s =>
  let '(d, r) := m (mic_decoder s.1) in ((put_mic_decoder d s.1, s.2), r).

(** ** Writing to the port *)

Fixpoint write_vds_loop (fuel : nat) (path : string) (fd : Z) (bytes : list Z) : prog World bool :=
  match fuel with
  | O => throw "<fuel>"
  | S f =>
      r ← sys_write fd bytes;
      match r with
      | Wrote n => if (n =? length bytes)%nat then mret true
                   else throw ("short " +:+ path +:+ " frame write")
      | WriteError EINTR => write_vds_loop f path fd bytes
      | WriteError EAGAIN | WriteError ENOSPC => mret false
      | WriteError e => throw ("write failed: " +:+ strerror e)
      end
  end.

Definition write_vds_frame (bytes : list Z) : prog state bool :=
  p ← the_port;
  written ← io (w ← get_state; write_vds_loop (S (length (writes w))) (path p) (fd p) bytes);
  if written : bool then mret true
  else _ ← update (bump dropped_usb_frame_count 1); mret false.

Definition set_cached (report_id : Z) (report : list Z) (p : port) : port :=
  put_feature_cache (<[Z.to_nat report_id := Some report]> (feature_cache p)) p.
Definition cached (report_id : Z) (p : port) : option (list Z) :=
  mjoin (feature_cache p !! Z.to_nat report_id).

Definition cache_feature_report (report : list Z) : prog state unit :=
  match report with
  | [] => mret tt
  | report_id :: _ =>
      _ ← update (set_cached report_id report);
      frame ← lift (frame_bytes VDS_FRAME_USB_FEATURE_REPLY report);
      _ ← write_vds_frame frame; mret tt
  end.

(** ** Controller state reports *)

Definition clear_pending_bt_state (p : port) : port :=
  put_pending_bt_state_report None (put_pending_bt_state None p).

Definition flush_pending_bt_state_report (bt : BtL2capBackend) : prog state bool :=
  p ← the_port;
  match pending_bt_state_report p, pending_bt_state p with
  | Some report, Some pending =>
      sent ← io (try_send_output_report bt report);
      if sent : bool then
        _ ← update (fun p => clear_pending_bt_state (put_last_sent_bt_state (Some pending) p));
        mret true
      else _ ← update (bump blocked_bt_state_count 1); mret false
  | _, _ => mret true
  end.

(** [forward_bt_state_if_changed], after the flush. *)
Definition send_changed_state (bt : BtL2capBackend) : prog state unit :=
  p ← the_port;
  let st := state_ (output_state p) in
  if bool_decide (last_sent_bt_state p = Some st) then
    if bool_decide (is_Some (pending_bt_state p)) then
      update (fun p => bump coalesced_bt_state_count 1 (clear_pending_bt_state p))
    else mret tt
  else if bool_decide (pending_bt_state p = Some st) then mret tt
  else
    packet ← on_output build_bt_state_report;
    sent ← io (try_send_output_report bt packet);
    if sent : bool then
      update (fun p => clear_pending_bt_state (put_last_sent_bt_state (Some st) p))
    else
      _ ← (if bool_decide (is_Some (pending_bt_state p))
           then update (bump coalesced_bt_state_count 1) else mret tt);
      update (fun p => put_pending_bt_state_report (Some packet)
                         (put_pending_bt_state (Some st) (bump deferred_bt_state_count 1 p))).

Definition forward_bt_state_if_changed (bt : BtL2capBackend) : prog state unit :=
  _ ← flush_pending_bt_state_report bt; send_changed_state bt.

(** What is done with a backend, when there is one. *)
Definition when_connected (bt : option BtL2capBackend) (m : BtL2capBackend -> prog state unit) :
    prog state unit :=
  match bt with Some b => m b | None => mret tt end.

(** [output_state.set_audio_out_stream_active(active, headset_plugged)] *)
Definition route_audio (active : bool) (p : port) : port :=
  put_output_state (set_audio_out_stream_active active (headset_plugged p) (output_state p)) p.

(** The microphone's state, and whether it is open, for the controller. *)
Definition send_mic_state (bt : BtL2capBackend) : prog state unit :=
  p ← the_port;
  report ← on_output (build_bt_mic_state_report (audio_in_stream_active p) (mic_muted p));
  _ ← io (try_send_output_report bt report); mret tt.
Definition send_mic_open (bt : BtL2capBackend) : prog state unit :=
  p ← the_port;
  report ← on_output (build_bt_mic_report (audio_in_stream_active p));
  _ ← io (try_send_output_report bt report); mret tt.

(** ** Frames of the driver *)

Definition handle_interface_frame (payload : list Z) (bt : option BtL2capBackend) : prog state unit :=
  if negb (length payload =? 4)%nat then mret tt
  else
    let altsetting := byte_at payload 1 in
    let interface_type := byte_at payload 2 in
    let active := negb (altsetting =? 0) in
    if interface_type =? VDS_USB_INTERFACE_AUDIO_OUT then
      _ ← update (put_audio_out_stream_active active);
      if negb active then
        _ ← update (put_pending_audio_chunks []);
        x ← lift fresh_extractor;
        update (put_extractor x)
      else
        _ ← update (route_audio true);
        when_connected bt forward_bt_state_if_changed
    else if interface_type =? VDS_USB_INTERFACE_AUDIO_IN then
      _ ← update (put_audio_in_stream_active active);
      d ← lift create_decoder;
      _ ← update (put_mic_decoder d);
      when_connected bt (fun b => _ ← send_mic_state b; send_mic_open b)
    else mret tt.

Definition handle_hid_out_frame (payload : list Z) (bt : option BtL2capBackend) : prog state unit :=
  accepted ← on_output (apply_usb_output_report payload);
  if negb accepted : bool then mret tt
  else
    _ ← update (fun p => if audio_out_stream_active p || speaker_waveout_active p
                         then route_audio true p else p);
    when_connected bt forward_bt_state_if_changed.

Definition handle_feature_get_frame (payload : list Z) (bt : option BtL2capBackend) : prog state unit :=
  match payload with
  | [] => mret tt
  | report_id :: _ =>
      p ← the_port;
      match cached report_id p with
      | Some report =>
          frame ← lift (frame_bytes VDS_FRAME_USB_FEATURE_REPLY report);
          _ ← write_vds_frame frame; mret tt
      | None =>
          when_connected bt (fun b =>
            _ ← update (fun p => put_pending_feature_reports (pending_feature_reports p ++ [report_id]) p);
            io (send_feature_get b report_id))
      end
  end.

(** A test command of the WebHID tools: the device, the action and the data, when the
    report is one. *)
Definition test_command (payload : list Z) : option (Z * Z * list Z) :=
  if (3 <=? length payload)%nat && (byte_at payload 0 =? kTestCommandReportId) then
    let command_offset := if (1 <? length payload)%nat && (byte_at payload 1 =? kTestCommandReportId)
                          then 2%nat else 1%nat in
    if (command_offset + 1 <? length payload)%nat
    then Some (byte_at payload command_offset, byte_at payload (command_offset + 1),
               drop (command_offset + 2) payload)
    else None
  else None.

Definition test_result (device action : Z) : list Z :=
  [kTestCommandResultReportId; device; action; kTestCommandCompleteStatus]
  ++ replicate (kUsbInputReportSize - 4) 0.

Definition handle_waveout_control (enable : bool) (bt : option BtL2capBackend) : prog state unit :=
  p ← the_port;
  let speaker_waveout := enable && speaker_waveout_selected p in
  _ ← update (fun p => put_speaker_waveout_phase 0 (put_speaker_waveout_active speaker_waveout p));
  x ← lift fresh_extractor;
  _ ← update (put_waveout_extractor x);
  _ ← update (route_audio speaker_waveout);
  _ ← update (put_audio_out_stream_active speaker_waveout);
  _ ← (if negb speaker_waveout then update (put_pending_audio_chunks []) else mret tt);
  when_connected bt forward_bt_state_if_changed.

Definition handle_test_command (device action : Z) (data : list Z) (bt : option BtL2capBackend) :
    prog state unit :=
  _ ← cache_feature_report (test_result device action);
  if (device =? kTestCommandAudioDevice) && (action =? kTestCommandWaveoutPrepare) then
    update (put_speaker_waveout_selected
      ((2 <? length data)%nat && (byte_at data 2 =? kTestCommandSpeakerParam)))
  else if (device =? kTestCommandAudioDevice) && (action =? kTestCommandWaveoutControl)
          && (0 <? length data)%nat
  then handle_waveout_control (negb (byte_at data 0 =? 0)) bt
  else mret tt.

Definition handle_feature_set_frame (payload : list Z) (bt : option BtL2capBackend) : prog state unit :=
  if (length payload =? 0)%nat then mret tt
  else
    _ ← match test_command payload with
        | Some (device, action, data) => handle_test_command device action data bt
        | None => mret tt
        end;
    when_connected bt (fun b => io (send_feature_set b payload)).

Definition pop_chunk (p : port) : port := put_pending_audio_chunks (tail (pending_audio_chunks p)) p.

(** One chunk for the queue: the oldest makes room. *)
Definition queue_chunk (chunk : AudioChunk) (p : port) : port :=
  let p := if (kMaxPendingAudioChunks <=? length (pending_audio_chunks p))%nat
           then bump queue_dropped_audio_haptics_count 1 (bump dropped_audio_haptics_count 1 (pop_chunk p))
           else p in
  put_pending_audio_chunks (pending_audio_chunks p ++ [chunk]) p.

Definition handle_audio_out_frame (payload : list Z) (bt : option BtL2capBackend) : prog state unit :=
  when_connected bt (fun _ =>
    chunks ← on_extractor (push_usb_audio opus_encode opus_strerror payload);
    update (fun p => foldl (fun p chunk => queue_chunk chunk p) p chunks)).

Definition handle_frame (frame_type : Z) (payload : list Z) (bt : option BtL2capBackend) :
    prog state unit :=
  if frame_type =? VDS_FRAME_USB_INTERFACE then handle_interface_frame payload bt
  else if frame_type =? VDS_FRAME_USB_HID_OUT then handle_hid_out_frame payload bt
  else if frame_type =? VDS_FRAME_USB_FEATURE_GET then handle_feature_get_frame payload bt
  else if frame_type =? VDS_FRAME_USB_FEATURE_SET then handle_feature_set_frame payload bt
  else if frame_type =? VDS_FRAME_USB_AUDIO_OUT then handle_audio_out_frame payload bt
  else mret tt.

(** [handle_vds_frame]: whether a frame was read. *)
Definition read_frame (r : read_answer) : read_result :=
  match r with
  | Received bytes => Got (take (frame_header_size + VDS_FRAME_MAX_PAYLOAD) bytes)
  | ReadError EINTR | ReadError EAGAIN => Retry
  | ReadError e => ReadFailed (strerror e)
  end.
Definition handle_vds_frame (bt : option BtL2capBackend) : prog state bool :=
  p ← the_port;
  r ← io sys_read;
  frame ← lift (parse_vds_frame (path p) (read_frame r));
  match frame with
  | None => mret false
  | Some (header, payload) => _ ← handle_frame (type header) payload bt; mret true
  end.

(** ** Packets of the controller *)

Definition handle_mic_packet (packet : list Z) : prog state unit :=
  _ ← update (bump bt_mic_packet_count 1);
  p ← the_port;
  if negb (audio_in_stream_active p) then update (bump bt_mic_drop_count 1)
  else
    match bt_mic_opus_payload packet with
    | None => update (bump bt_mic_decode_fail_count 1)
    | Some opus_payload =>
        try_catch
          (pcm ← on_decoder (decode opus_decode opus_strerror opus_payload);
           frame ← lift (frame_bytes VDS_FRAME_USB_AUDIO_IN pcm);
           _ ← write_vds_frame frame;
           update (bump audio_in_forward_count 1))
          (fun _ => update (bump bt_mic_decode_fail_count 1))
    end.

Definition flag_at (report : list Z) (offset : nat) (mask : Z) : bool :=
  negb (Z.land (byte_at report offset) mask =? 0).

(** The buttons and plugs of an input report, up to the microphone's state. *)
Definition update_mic_controls (report : list Z) (bt : BtL2capBackend) : prog state unit :=
  p ← the_port;
  let mute_button := flag_at report kUsbInputMuteButtonOffset kUsbInputMuteButtonMask in
  let headset_mic := flag_at report kUsbInputHeadsetOffset kUsbInputMicPluggedMask in
  let mic_mute_changed := mute_button && negb (mute_button_down p) in
  let headset_mic_changed := negb (Bool.eqb headset_mic (headset_mic_plugged p)) in
  _ ← update (fun p => if mic_mute_changed then put_mic_muted (negb (mic_muted p)) p else p);
  _ ← update (fun p => put_headset_mic_plugged headset_mic (put_mute_button_down mute_button p));
  p ← the_port;
  if mic_mute_changed || (headset_mic_changed && audio_in_stream_active p)
  then send_mic_state bt else mret tt.

Definition update_headset (report : list Z) (bt : BtL2capBackend) : prog state unit :=
  p ← the_port;
  let headset := flag_at report kUsbInputHeadsetOffset kUsbInputHeadphonesPluggedMask in
  if Bool.eqb headset (headset_plugged p) then mret tt
  else
    _ ← update (put_headset_plugged headset);
    if audio_out_stream_active p || speaker_waveout_active p then
      _ ← update (route_audio true); forward_bt_state_if_changed bt
    else mret tt.

Definition handle_input_report (report : list Z) (bt : BtL2capBackend) : prog state unit :=
  _ ← update_mic_controls report bt;
  _ ← update_headset report bt;
  let header := mk_header VDS_FRAME_USB_HID_IN 0 (Z.of_nat (length report)) 0 in
  _ ← write_vds_frame (encode_header header ++ report); mret tt.

Definition handle_packet (packet : list Z) (bt : BtL2capBackend) : prog state unit :=
  if decide (bt_input_payload_type packet = Audio) then handle_mic_packet packet
  else match bt_input_to_usb_input packet with
       | None => mret tt
       | Some report => handle_input_report report bt
       end.

(** Whether a packet was read. *)
Definition handle_bt_input (bt : BtL2capBackend) : prog state bool :=
  packet ← io (read_interrupt_packet bt);
  match packet with
  | None => mret false
  | Some packet => _ ← handle_packet packet bt; mret true
  end.

(** [erase(find(begin, end, id))] *)
Fixpoint erase_first (id : Z) (l : list Z) : list Z :=
  match l with
  | [] => []
  | x :: rest => if x =? id then rest else x :: erase_first id rest
  end.

Definition handle_feature_report (report : list Z) : prog state unit :=
  match report with
  | [] => mret tt
  | report_id :: _ =>
      _ ← update (set_cached report_id report);
      p ← the_port;
      if bool_decide (report_id ∈ pending_feature_reports p) then
        _ ← update (fun p =>
              put_pending_feature_reports (erase_first report_id (pending_feature_reports p)) p);
        frame ← lift (frame_bytes VDS_FRAME_USB_FEATURE_REPLY report);
        _ ← write_vds_frame frame; mret tt
      else mret tt
  end.

Definition handle_bt_control (bt : BtL2capBackend) : prog state bool :=
  report ← io (read_feature_report bt);
  match report with
  | None => mret false
  | Some report => _ ← handle_feature_report report; mret true
  end.

(** ** What waits to be sent *)

(** [while (size() > kFreshPendingAudioChunks)] *)
Definition drop_stale (p : port) : port :=
  let n := (length (pending_audio_chunks p) - kFreshPendingAudioChunks)%nat in
  let k := Z.of_nat n in
  bump stale_audio_haptics_count k (bump queue_dropped_audio_haptics_count k
    (bump dropped_audio_haptics_count k (put_pending_audio_chunks (drop n (pending_audio_chunks p)) p))).

Definition flush_pending_audio_chunk (bt : BtL2capBackend) : prog state bool :=
  p ← the_port;
  if (length (pending_audio_chunks p) =? 0)%nat then mret true
  else
    now ← io clock_now;
    if negb (next_haptics_send_time p =? 0) && (now <? next_haptics_send_time p) then mret true
    else
      _ ← update drop_stale;
      p ← the_port;
      match pending_audio_chunks p with
      | [] => mret true
      | chunk :: _ =>
          packet ← on_builder (build_packet (haptics chunk) (speaker chunk) (state_ (output_state p))
                                 true (headset_plugged p));
          _ ← io clock_now;
          sent ← io (try_send_output_report bt packet);
          if negb sent : bool then
            _ ← update (fun p => pop_chunk (bump blocked_audio_haptics_count 1
                                              (bump dropped_audio_haptics_count 1 p)));
            now ← io clock_now;
            _ ← update (put_next_haptics_send_time (now + kHapticsOutputBlockedRetry));
            mret false
          else
            _ ← io clock_now;
            _ ← update (fun p =>
              let p := put_last_sent_bt_state (Some (state_ (output_state p))) (pop_chunk p) in
              let p := if bool_decide (pending_bt_state p = Some (state_ (output_state p)))
                       then clear_pending_bt_state p else p in
              put_next_haptics_send_time (now + kAudioOutputInterval) p);
            mret true
      end.

(** The frames of the test tone, the phase after each. *)
Fixpoint waveout_pcm (frames : nat) (phase : Z) : list Z * Z :=
  match frames with
  | O => ([], phase)
  | S n =>
      let value := u16 (waveout_sample phase) in
      let sample := [u8 (Z.land value 0xff); u8 (Z.land (Z.shiftr value 8) 0xff)] in
      let '(rest, phase') := waveout_pcm n ((phase + 1) mod kSpeakerWaveoutPeriodFrames) in
      (sample ++ sample ++ [0; 0; 0; 0] ++ rest, phase')
  end.

Fixpoint append_while_room (chunks : list AudioChunk) (p : port) : port :=
  match chunks with
  | [] => p
  | chunk :: rest =>
      if (kMaxPendingAudioChunks <=? length (pending_audio_chunks p))%nat then p
      else append_while_room rest (put_pending_audio_chunks (pending_audio_chunks p ++ [chunk]) p)
  end.

Definition enqueue_speaker_waveout_chunk : prog state unit :=
  p ← the_port;
  if negb (speaker_waveout_active p) || negb (length (pending_audio_chunks p) =? 0)%nat then mret tt
  else
    let '(pcm, phase) := waveout_pcm kPcmWindowFrames (speaker_waveout_phase p) in
    _ ← update (put_speaker_waveout_phase phase);
    chunks ← on_waveout_extractor (push_usb_audio opus_encode opus_strerror pcm);
    update (append_while_room chunks).

(** The turn of one port in [flush_pending_outputs]. *)
Definition flush_port (bt : BtL2capBackend) : prog state unit :=
  flushed ← flush_pending_bt_state_report bt;
  if negb flushed : bool then mret tt
  else
    _ ← enqueue_speaker_waveout_chunk;
    _ ← flush_pending_audio_chunk bt; mret tt.

(** ** Connecting and disconnecting *)

Definition no_stats : counter -> Z := fun _ => 0.

(** The members are assigned one after the other; making a codec may throw. *)
Definition reset_virtual_port : prog state unit :=
  x ← lift fresh_extractor; _ ← update (put_extractor x);
  x ← lift fresh_extractor; _ ← update (put_waveout_extractor x);
  d ← lift create_decoder; _ ← update (put_mic_decoder d);
  update (fun p =>
    mk_port (path p) (fd p) (extractor p) (waveout_extractor p) (mic_decoder p)
      (mk_builder 0 0) initial_output_state [] None None None 0 false false false false false false
      true false 0 (replicate 256 None) [] no_stats).

Definition ioctl_with (name : string) (arg : Z) : prog state unit :=
  p ← the_port;
  r ← io (sys_ioctl (fd p) name arg);
  match r with None => mret tt | Some e => throw (name +:+ " failed: " +:+ e) end.
Definition ioctl_noarg (name : string) : prog state unit := ioctl_with name 0.
Definition ioctl_set_profile (profile : Z) : prog state unit := ioctl_with "VDS_IOC_SET_PROFILE" profile.

Definition disconnect_virtual_port : prog state unit :=
  _ ← update (fun p =>
    put_speaker_waveout_phase 0 (put_speaker_waveout_active false (put_mute_button_down false
      (put_mic_muted false (put_audio_in_stream_active false (put_audio_out_stream_active false
        (put_next_haptics_send_time 0 (put_pending_audio_chunks [] p))))))));
  try_catch (ioctl_noarg "VDS_IOC_DISCONNECT") (fun _ => mret tt).
End Port.
