(* ===== verification/LinuxDaemon.v ===== *)
(** The Linux daemon (src/src/platform/linux/vdsd.cc): its ports and controllers.

    What other programs and the kernel answer is an input, one entry per call:
    [Host] for BlueZ, udev, new channels and control clients, [World] of LinuxIo.v for
    the rest.  This file has the state and the look-ups; LinuxConnect.v, LinuxReload.v
    and LinuxLoop.v have the operations. *)
From stdpp Require Import base list strings numbers.
From Stdlib Require Import Ascii ZArith Lia.
From S2P Require Import Prelude Text Words BtPacket OutputState Audio Store Config Control Supervisor.
From S2P Require Import Profile LinuxIo LinuxState LinuxPort.

Local Open Scope Z_scope.

Definition kVirtualPortProviderUnavailableReason : string := "virtual port provider unavailable".
Definition kLinuxVirtualPortProviderUnavailable : string :=
  "vds_hcd kernel module is not loaded or no /dev/vds# ports are available".
Definition kPendingOutputPollMs : Z := 2.
Definition kBluetoothPreemptWait : Z := 2000 * 1000000.
Definition kBluetoothPreemptPoll : Z := 100 * 1000000.
Definition kInitialFeatureReportIds : list Z := [0x09; 0x20; 0x05].
Definition kMaxPortFramesPerWake : nat := 64.
Definition kMaxBtPacketsPerWake : nat := 64.

(** A descriptor that is not open is [None]. *)
Record ControllerRuntime := mk_runtime {
  config : ControllerConfig;
  device : string;
  detected_profile : option Z;
  backend : option BtL2capBackend;
  pending_control_fd : option Z;
  pending_interrupt_fd : option Z;
  virtual_connected : bool;
  last_error : string
}.

Definition is_open {A} (x : option A) : bool := bool_decide (is_Some x).

Definition controller_uses_port (c : ControllerRuntime) : bool :=
  is_open (backend c) || is_open (pending_control_fd c) || is_open (pending_interrupt_fd c)
  || virtual_connected c.

(** The runtime of a controller that is not connected. *)
Definition idle_runtime (cfg : ControllerConfig) (profile : option Z) (error : string) : ControllerRuntime :=
  mk_runtime cfg "" profile None None None false error.
Definition released (c : ControllerRuntime) : ControllerRuntime :=
  idle_runtime (config c) (detected_profile c) (last_error c).
Definition with_error (e : string) (c : ControllerRuntime) : ControllerRuntime :=
  mk_runtime (config c) (device c) (detected_profile c) (backend c) (pending_control_fd c)
    (pending_interrupt_fd c) (virtual_connected c) e.
Definition with_device (d : string) (c : ControllerRuntime) : ControllerRuntime :=
  mk_runtime (config c) d (detected_profile c) (backend c) (pending_control_fd c)
    (pending_interrupt_fd c) (virtual_connected c) (last_error c).
Definition with_pending (control interrupt : option Z) (c : ControllerRuntime) : ControllerRuntime :=
  mk_runtime (config c) (device c) (detected_profile c) (backend c) control interrupt
    (virtual_connected c) (last_error c).
Definition with_backend (b : option BtL2capBackend) (profile : option Z) (c : ControllerRuntime) :
    ControllerRuntime :=
  mk_runtime (config c) (device c) profile b (pending_control_fd c) (pending_interrupt_fd c)
    (virtual_connected c) (last_error c).
Definition with_connected (b : bool) (error : string) (c : ControllerRuntime) : ControllerRuntime :=
  mk_runtime (config c) (device c) (detected_profile c) (backend c) (pending_control_fd c)
    (pending_interrupt_fd c) b error.

(** The answers of udev, BlueZ, the listeners and epoll. *)
Record Host := mk_host {
  hids : list (option (list hid_device));        (* the HID devices *)
  modaliases : list (result (option string));    (* [bluez_device_modalias] *)
  misc : list (result (list (option string)));   (* the nodes of the misc devices *)
  received : list (list (option string));        (* by the udev monitor *)
  opens : list (result Z);                       (* of an endpoint *)
  accepts : list (result (option (string * Z))); (* [accept_control], [accept_interrupt] *)
  clients : list (result (option string));       (* what a control client sends *)
  epolls : list (result unit);                   (* making an epoll instance *)
  replies : list string                          (* what control clients are sent *)
}.
Definition set_hids v (h : Host) : Host :=
  mk_host v (modaliases h) (misc h) (received h) (opens h) (accepts h) (clients h) (epolls h) (replies h).
Definition set_modaliases v (h : Host) : Host :=
  mk_host (hids h) v (misc h) (received h) (opens h) (accepts h) (clients h) (epolls h) (replies h).
Definition set_misc v (h : Host) : Host :=
  mk_host (hids h) (modaliases h) v (received h) (opens h) (accepts h) (clients h) (epolls h) (replies h).
Definition set_received v (h : Host) : Host :=
  mk_host (hids h) (modaliases h) (misc h) v (opens h) (accepts h) (clients h) (epolls h) (replies h).
Definition set_opens v (h : Host) : Host :=
  mk_host (hids h) (modaliases h) (misc h) (received h) v (accepts h) (clients h) (epolls h) (replies h).
Definition set_accepts v (h : Host) : Host :=
  mk_host (hids h) (modaliases h) (misc h) (received h) (opens h) v (clients h) (epolls h) (replies h).
Definition set_clients v (h : Host) : Host :=
  mk_host (hids h) (modaliases h) (misc h) (received h) (opens h) (accepts h) v (epolls h) (replies h).
Definition set_epolls v (h : Host) : Host :=
  mk_host (hids h) (modaliases h) (misc h) (received h) (opens h) (accepts h) (clients h) v (replies h).
Definition add_reply r (h : Host) : Host :=
  mk_host (hids h) (modaliases h) (misc h) (received h) (opens h) (accepts h) (clients h) (epolls h)
    (replies h ++ [r]).

(** The next answer of a list, and [none] when the list is used up. *)
Definition ask {A} (get : Host -> list A) (set : list A -> Host -> Host) (none : A) : prog Host A :=
  fun h => match get h with
           | [] => (h, Ok none)
           | r :: rest => (set rest h, Ok r)
           end.
Definition ask_result {A} (get : Host -> list (result A)) (set : list (result A) -> Host -> Host)
    (none : result A) : prog Host A := r ← ask get set none; lift r.

(** ** Errors *)

Definition is_bluetooth_error (what : string) : bool :=
  starts_with "Bluetooth L2CAP" what || starts_with "failed to connect Bluetooth" what.

Section Daemon.
Context {Encoder Dec W : Type}.

Abbreviation port := (VirtualPort Encoder Dec).

Record Daemon := mk_daemon {
  ports : list port;
  controllers : list ControllerRuntime;
  world : World;
  host : Host;
  files : W;
  vars : Vars;                       (* trace flags, reload request and log *)
  epoll_dirty : bool;
  epoll : option (list (Z * Z));     (* descriptors and their event data *)
  waits : list Z                     (* the timeouts of [epoll_wait] so far *)
}.
Definition set_ports v (d : Daemon) : Daemon :=
  mk_daemon v (controllers d) (world d) (host d) (files d) (vars d) (epoll_dirty d) (epoll d) (waits d).
Definition set_controllers v (d : Daemon) : Daemon :=
  mk_daemon (ports d) v (world d) (host d) (files d) (vars d) (epoll_dirty d) (epoll d) (waits d).
Definition set_world v (d : Daemon) : Daemon :=
  mk_daemon (ports d) (controllers d) v (host d) (files d) (vars d) (epoll_dirty d) (epoll d) (waits d).
Definition set_host v (d : Daemon) : Daemon :=
  mk_daemon (ports d) (controllers d) (world d) v (files d) (vars d) (epoll_dirty d) (epoll d) (waits d).
Definition set_shared v (d : Daemon) : Daemon :=
  mk_daemon (ports d) (controllers d) (world d) (host d) (fst v) (snd v) (epoll_dirty d) (epoll d) (waits d).
Definition set_dirty v (d : Daemon) : Daemon :=
  mk_daemon (ports d) (controllers d) (world d) (host d) (files d) (vars d) v (epoll d) (waits d).
Definition set_epoll v (d : Daemon) : Daemon :=
  mk_daemon (ports d) (controllers d) (world d) (host d) (files d) (vars d) (epoll_dirty d) v (waits d).
Definition set_waits v (d : Daemon) : Daemon :=
  mk_daemon (ports d) (controllers d) (world d) (host d) (files d) (vars d) (epoll_dirty d) (epoll d) v.
Definition request_reload (b : bool) (d : Daemon) : Daemon :=
  set_shared (files d, mk_vars (trace_flags (vars d)) b (log_ (vars d))) d.

(** The parts of the state an operation works on. *)
Definition on_world {A} (m : prog World A) : prog Daemon A := fun d =>
  let '(w, r) := m (world d) in (set_world w d, r).
Definition on_host {A} (m : prog Host A) : prog Daemon A := fun d =>
  let '(h, r) := m (host d) in (set_host h d, r).
Definition on_shared {A} (m : prog (W * Vars) A) : prog Daemon A := fun d =>
  let '(s, r) := m (files d, vars d) in (set_shared s d, r).
(** [ports[i]]; an index out of range does not occur. *)
Definition on_port {A} (i : nat) (m : prog (port * World) A) : prog Daemon A := fun d =>
  match ports d !! i with
  | None => (d, Throw "<index>")
  | Some p =>
      let '((p', w'), r) := m (p, world d) in
      (set_ports (<[i := p']> (ports d)) (set_world w' d), r)
  end.
Definition on_controller (i : nat) (f : ControllerRuntime -> ControllerRuntime) : prog Daemon unit :=
  modify (fun d => set_controllers (alter f i (controllers d)) d).

(** ** Looking up *)

Definition find_port_index (ps : list port) (path_ : string) : option nat :=
  fst <$> list_find (fun p => path p = path_) ps.

Definition present_port_indices (ps : list port) : list Z :=
  omap (fun p => port_index_from_path Linux (path p)) ps.

(** The controllers but the one at [self], compared by address in memory. *)
Definition others (self : nat) (cs : list ControllerRuntime) : list ControllerRuntime := delete self cs.

Definition port_used_by_other_controller (cs : list ControllerRuntime) (self : nat) (dev : string) : bool :=
  existsb (fun c => bool_decide (device c = dev) && controller_uses_port c) (others self cs).

Definition occupied_ports (cs : list ControllerRuntime) (self : nat) : list Z :=
  omap (fun c => if controller_uses_port c then port_index_from_path Linux (device c) else None)
    (others self cs).

Definition available_port_index (ps : list port) (cs : list ControllerRuntime) (self : nat) :
    option nat :=
  match cs !! self with
  | None => None
  | Some c =>
      match select_controller_config_port (config c) (present_port_indices ps) (occupied_ports cs self) with
      | None => None
      | Some selected =>
          fst <$> list_find (fun p => port_index_from_path Linux (path p) = Some selected) ps
      end
  end.

Definition controller_for_port (cs : list ControllerRuntime) (dev : string) : option nat :=
  fst <$> list_find (fun c => device c = dev /\ controller_uses_port c = true) cs.
Definition controller_for_address (cs : list ControllerRuntime) (a : string) : option nat :=
  fst <$> list_find (fun c => address (config c) = a) cs.

(** ** Losing a connection *)

Definition drop_bt_backend (i j : nat) : prog Daemon unit :=
  d ← get_state;
  match controllers d !! i with
  | None => throw "<index>"
  | Some c =>
      if negb (is_open (backend c)) && negb (virtual_connected c) then mret tt
      else
        _ ← on_port j (update clear_pending_bt_state);
        _ ← on_controller i released;
        on_port j disconnect_virtual_port
  end.
End Daemon.
Arguments Daemon : clear implicits.
