(* ===== verification/LinuxConnect.v ===== *)
(** Connecting a controller in the Linux daemon (src/src/platform/linux/vdsd.cc): its
    profile, taking it from the default Bluetooth stack, the first reports, and the
    channels it opens. *)
From stdpp Require Import base list strings numbers.
From Stdlib Require Import Ascii ZArith Lia.
From S2P Require Import Prelude Text Common Words BtPacket OutputState Audio Config Profile.
From S2P Require Import LinuxIo LinuxState LinuxPort LinuxDaemon.

Local Open Scope Z_scope.

Section Connect.
Context {Encoder Dec W : Type} `{Codecs Encoder Dec}.

Abbreviation port := (VirtualPort Encoder Dec).
Abbreviation port_state := (port * World)%type.
Abbreviation Daemon := (Daemon Encoder Dec W).

(** ** Profiles *)

Definition detect_bluetooth_profile (address_ : string) : prog Daemon Z :=
  modalias ← on_host (ask_result modaliases set_modaliases (Ok None));
  match modalias : option string with
  | None => throw ("failed to query BlueZ modalias for " +:+ address_)
  | Some text =>
      match controller_profile_from_modalias text with
      | None => throw ("failed to detect Bluetooth device ID for " +:+ address_)
      | Some p => lift (usb_profile_from_controller_profile p)
      end
  end.

Definition resolve_config_profile (cfg : ControllerConfig) : prog Daemon Z :=
  match profile cfg with
  | Unspecified => detect_bluetooth_profile (address cfg)
  | Ds5 | Dse => lift (usb_profile_from_controller_profile (profile cfg))
  end.

(** ** The default Bluetooth stack *)

Definition hid_present (address_ : string) : prog Daemon bool :=
  devices ← on_host (ask hids set_hids None);
  lift (bluetooth_hid_device_present address_ devices).

(** The clock does not go back and each round sleeps, so 21 rounds reach a deadline that
    is 20 sleeps away. *)
Fixpoint preempt_wait (fuel : nat) (address_ : string) (deadline : Z) : prog Daemon unit :=
  match fuel with
  | O => throw "<fuel>"
  | S f =>
      now ← on_world clock_now;
      if now <? deadline then
        present ← hid_present address_;
        if negb present : bool then mret tt
        else
          _ ← on_world (sleep_for kBluetoothPreemptPoll);
          preempt_wait f address_ deadline
      else mret tt
  end.

(** [disconnect_bluez_device] only decides what is logged. *)
Definition preempt_default_bluetooth_owner (address_ : string) : prog Daemon unit :=
  present ← hid_present address_;
  if negb present : bool then mret tt
  else
    now ← on_world clock_now;
    preempt_wait 21 address_ (now + kBluetoothPreemptWait).

(** ** The first reports *)

(** Wait for a feature report; each round takes an answer of [polls], and times out when
    there is none. *)
Fixpoint await_feature_report (fuel : nat) (bt : BtL2capBackend) (report_id : Z) :
    prog port_state unit :=
  match fuel with
  | O => throw "<fuel>"
  | S f =>
      p ← io sys_poll;
      match p with
      | PollError EINTR | PollEvents false false => await_feature_report f bt report_id
      | PollError _ | PollTimeout =>
          throw ("timed out waiting for initial Bluetooth feature report " +:+ hex_u8 report_id)
      | PollEvents _ true =>
          throw "Bluetooth control channel closed during initial feature report fetch"
      | PollEvents true false =>
          report ← io (read_feature_report bt);
          match report with
          | None | Some [] => await_feature_report f bt report_id
          | Some (id :: rest) =>
              _ ← cache_feature_report (id :: rest);
              if id =? report_id then mret tt else await_feature_report f bt report_id
          end
      end
  end.

Fixpoint initialize_bt_loop (ids : list Z) (bt : BtL2capBackend) : prog port_state unit :=
  match ids with
  | [] => mret tt
  | report_id :: rest =>
      _ ← io (send_feature_get bt report_id);
      s ← get_state;
      _ ← await_feature_report (S (length (polls s.2))) bt report_id;
      initialize_bt_loop rest bt
  end.
Definition initialize_bt_controller (bt : BtL2capBackend) : prog port_state unit :=
  initialize_bt_loop kInitialFeatureReportIds bt.

(** The part of [complete_pending_controller] that works on the port. *)
Definition connect_port (bt : BtL2capBackend) (usb_profile : Z) : prog port_state unit :=
  _ ← reset_virtual_port;
  _ ← ioctl_noarg "VDS_IOC_DISCONNECT";
  _ ← ioctl_set_profile usb_profile;
  _ ← initialize_bt_controller bt;
  report ← on_output build_bt_init_report;
  _ ← io (send_output_report bt report);
  update (fun p => put_last_sent_bt_state (Some (state_ (output_state p))) p).

Definition complete_pending_controller (i j : nat) : prog Daemon unit :=
  d ← get_state;
  match controllers d !! i with
  | None => throw "<index>"
  | Some c =>
      usb_profile ← resolve_config_profile (config c);
      _ ← preempt_default_bluetooth_owner (address (config c));
      let candidate := mk_backend (address (config c))
                         (default (-1) (pending_control_fd c)) (default (-1) (pending_interrupt_fd c)) in
      _ ← on_controller i (with_pending None None);
      _ ← on_port j (connect_port candidate usb_profile);
      _ ← on_controller i (with_backend (Some candidate) (Some usb_profile));
      _ ← on_port j (ioctl_noarg "VDS_IOC_CONNECT");
      on_controller i (with_connected true "")
  end.

(** ** Accepting channels *)

(** The port for a controller's channel: the one it has, or a free one, which is then
    its own. *)
Definition assign_port (i : nat) (c : ControllerRuntime) : prog Daemon bool :=
  d ← get_state;
  let own := if decide (device c = "") then None else find_port_index (ports d) (device c) in
  if bool_decide (is_Some own) && negb (port_used_by_other_controller (controllers d) i (device c))
  then mret true
  else if (length (ports d) =? 0)%nat then
    _ ← on_controller i (with_error kLinuxVirtualPortProviderUnavailable); mret false
  else
    match available_port_index (ports d) (controllers d) i ≫= (fun j => ports d !! j) with
    | None => _ ← on_controller i (with_error "no available virtual port"); mret false
    | Some p => _ ← on_controller i (with_device (path p)); mret true
    end.

Definition store_channel (control_channel : bool) (fd_ : Z) (c : ControllerRuntime) : ControllerRuntime :=
  if control_channel then with_pending (Some fd_) (pending_interrupt_fd c) c
  else with_pending (pending_control_fd c) (Some fd_) c.

Definition mark_dirty : prog Daemon unit := modify (set_dirty true).

(** Both channels are open. *)
Definition complete_channels (i : nat) : prog Daemon unit :=
  d ← get_state;
  match controllers d !! i with
  | None => throw "<index>"
  | Some c =>
      match find_port_index (ports d) (device c) with
      | None =>
          on_controller i (fun c => with_error "assigned virtual port disappeared"
                                      (with_device "" (with_pending None None c)))
      | Some j =>
          try_catch (_ ← complete_pending_controller i j; mark_dirty)
            (fun e => on_controller i (fun c => idle_runtime (config c) (detected_profile c) e))
      end
  end.

(** [complete_channels] when there are two. *)
Definition both_channels (i : nat) : prog Daemon unit :=
  d ← get_state;
  match controllers d !! i with
  | None => throw "<index>"
  | Some c => if is_open (pending_control_fd c) && is_open (pending_interrupt_fd c)
              then complete_channels i else mret tt
  end.

(** One turn of the loop of [handle_bt_accept], from the look-up on. *)
Definition accept_channel (control_channel : bool) (from : string) (fd_ : Z) : prog Daemon unit :=
  d ← get_state;
  match controller_for_address (controllers d) from with
  | None => mret tt
  | Some i =>
      match controllers d !! i with
      | None => throw "<index>"
      | Some c =>
          if is_open (backend c) then mret tt
          else
            assigned ← assign_port i c;
            if negb assigned : bool then mret tt
            else
              _ ← on_controller i (store_channel control_channel fd_);
              both_channels i
      end
  end.

(** [handle_bt_accept]; each turn takes an answer of [accepts], and ends without one. *)
Fixpoint accept_loop (fuel : nat) (control_channel : bool) : prog Daemon unit :=
  match fuel with
  | O => throw "<fuel>"
  | S f =>
      accepted ← on_host (ask_result accepts set_accepts (Ok None));
      match accepted : option (string * Z) with
      | None => mret tt
      | Some (from, fd_) =>
          _ ← accept_channel control_channel from fd_;
          accept_loop f control_channel
      end
  end.
Definition handle_bt_accept (control_channel : bool) : prog Daemon unit :=
  d ← get_state; accept_loop (S (length (accepts (host d)))) control_channel.
End Connect.
