(* ===== verification/LinuxReload.v ===== *)
(** Reloading in the Linux daemon (src/src/platform/linux/vdsd.cc): the endpoints there
    are become the ports, and the database the controllers; what stays connected is kept. *)
From stdpp Require Import base list strings numbers.
From Stdlib Require Import Ascii ZArith Lia.
From S2P Require Import Prelude Text Words OutputState Audio Store Config Control Profile.
From S2P Require Import LinuxIo LinuxState LinuxPort LinuxDaemon LinuxConnect.

Local Open Scope Z_scope.

Section Reload.
Context {Encoder Dec W : Type} `{Codecs Encoder Dec} `{FileStore W}.

Abbreviation port := (VirtualPort Encoder Dec).
Abbreviation Daemon := (Daemon Encoder Dec W).

(** ** The ports *)

Definition open_required (dev : string) : prog Daemon Z :=
  on_host (fun h =>
    let '(h, r) := ask_result opens set_opens (Throw "No such file or directory") h in
    (h, match r with
        | Ok fd_ => Ok fd_
        | Throw e => Throw ("failed to open " +:+ dev +:+ ": " +:+ e)
        end)).

(** What stays behind of a port that was moved: an empty path, no descriptor, empty
    containers; the other members are not read again. *)
Definition moved_from (p : port) : port :=
  mk_port "" (-1) (extractor p) (waveout_extractor p) (mic_decoder p) (haptics_builder p)
    (output_state p) [] (last_sent_bt_state p) (pending_bt_state p) (pending_bt_state_report p)
    (next_haptics_send_time p) (audio_out_stream_active p) (audio_in_stream_active p) (mic_muted p)
    (mute_button_down p) (headset_plugged p) (headset_mic_plugged p) (speaker_waveout_selected p)
    (speaker_waveout_active p) (speaker_waveout_phase p) (feature_cache p) [] (trace_state p).

Definition new_port (dev : string) (fd_ : Z) : result port :=
  x ← fresh_extractor; y ← fresh_extractor; d ← create_decoder;
  Ok (mk_port dev fd_ x y d (mk_builder 0 0) initial_output_state [] None None None 0 false false
        false false false false true false 0 (replicate 256 None) [] no_stats).

(** [updated] is what was moved or opened so far; the driver's version is only logged. *)
Fixpoint sync_loop (devices : list string) (updated : list port) : prog Daemon (list port) :=
  match devices with
  | [] => mret updated
  | dev :: rest =>
      d ← get_state;
      match list_find (fun p => path p = dev) (ports d) with
      | Some (i, p) =>
          _ ← modify (fun d => set_ports (<[i := moved_from p]> (ports d)) d);
          sync_loop rest (updated ++ [p])
      | None =>
          fd_ ← open_required dev;
          _ ← on_world (sys_ioctl fd_ "VDS_IOC_GET_DRIVER_INFO" 0);
          p ← lift (new_port dev fd_);
          sync_loop rest (updated ++ [p])
      end
  end.

Definition sync_virtual_ports (devices : list string) : prog Daemon unit :=
  updated ← sync_loop devices []; modify (set_ports updated).

(** ** The controllers *)

(** Disconnect the port of a device, when it has one. *)
Definition disconnect_device (dev : string) : prog Daemon unit :=
  d ← get_state;
  match find_port_index (ports d) dev with
  | Some j => on_port j disconnect_virtual_port
  | None => mret tt
  end.

(** [std::binary_search] in the sorted list of devices. *)
Definition is_listed (devices : list string) (dev : string) : bool := bool_decide (dev ∈ devices).

(** The controllers whose device is gone, from the one at [i]. *)
Fixpoint release_missing (n i : nat) (devices : list string) : prog Daemon unit :=
  match n with
  | O => mret tt
  | S n =>
      d ← get_state;
      _ ← match controllers d !! i with
          | None => throw "<index>"
          | Some c =>
              if negb (controller_uses_port c) || is_listed devices (device c) then mret tt
              else _ ← disconnect_device (device c); on_controller i released
          end;
      release_missing n (S i) devices
  end.

(** What stays behind of a controller that was kept. *)
Definition moved_out (c : ControllerRuntime) : ControllerRuntime :=
  mk_runtime (config c) "" (detected_profile c)
    ((fun _ => mk_backend "" (-1) (-1)) <$> backend c) None None (virtual_connected c) "".

(** The runtime of the controller that a record of the database describes, and what is
    left of the one before. *)
Definition keeps_device (ps : list port) (cfg : ControllerConfig) (active : list string)
    (old : ControllerRuntime) : bool :=
  controller_uses_port old && negb (bool_decide (device old = ""))
  && is_open (find_port_index ps (device old))
  && controller_config_allows_path Linux cfg (device old)
  && negb (bool_decide (device old ∈ active)).

Definition adopt (i : nat) (old : ControllerRuntime) (cfg : ControllerConfig) (active : list string) :
    prog Daemon (ControllerRuntime * list string) :=
  d ← get_state;
  if keeps_device (ports d) cfg active old then
    _ ← on_controller i moved_out;
    mret (mk_runtime cfg (device old) (detected_profile old) (backend old) (pending_control_fd old)
            (pending_interrupt_fd old) (virtual_connected old) (last_error old),
          active ++ [device old])
  else
    _ ← on_controller i (with_error "");
    _ ← (if controller_uses_port old then
           _ ← (if virtual_connected old && negb (bool_decide (device old = ""))
                then disconnect_device (device old) else mret tt);
           on_controller i released
         else mret tt);
    mret (idle_runtime cfg (detected_profile old) (last_error old), active).

(** The first controller of before that is not kept yet and has the record's address and
    profile. *)
Fixpoint find_old_from (i : nat) (cs : list ControllerRuntime) (preserved : list nat)
    (cfg : ControllerConfig) : option (nat * ControllerRuntime) :=
  match cs with
  | [] => None
  | c :: rest =>
      if bool_decide (i ∈ preserved \/ address (config c) <> address cfg \/ profile (config c) <> profile cfg)
      then find_old_from (S i) rest preserved cfg
      else Some (i, c)
  end.
Definition find_old (cs : list ControllerRuntime) (preserved : list nat) (cfg : ControllerConfig) :
    option (nat * ControllerRuntime) := find_old_from 0 cs preserved cfg.

Fixpoint register (available : bool) (cfgs : list ControllerConfig) (preserved : list nat)
    (active : list string) (next : list ControllerRuntime) :
    prog Daemon (list nat * list ControllerRuntime) :=
  match cfgs with
  | [] => mret (preserved, next)
  | cfg :: rest =>
      _ ← (if available then preempt_default_bluetooth_owner (address cfg) else mret tt);
      d ← get_state;
      match find_old (controllers d) preserved cfg with
      | None => register available rest preserved active (next ++ [idle_runtime cfg None ""])
      | Some (i, old) =>
          r ← adopt i old cfg active;
          register available rest (i :: preserved) r.2 (next ++ [r.1])
      end
  end.

(** The controllers of before that are not kept, from the one at [i]. *)
Fixpoint disconnect_removed (n i : nat) (preserved : list nat) : prog Daemon unit :=
  match n with
  | O => mret tt
  | S n =>
      d ← get_state;
      _ ← match controllers d !! i with
          | None => throw "<index>"
          | Some c =>
              if bool_decide (i ∈ preserved) || negb (virtual_connected c) then mret tt
              else disconnect_device (device c)
          end;
      disconnect_removed n (S i) preserved
  end.

Definition reconcile_controller_configs (db_path : string) : prog Daemon unit :=
  nodes ← on_host (ask_result misc set_misc (Ok []));
  let devices := discover_vds_devices nodes in
  let available := negb (length devices =? 0)%nat in
  d ← get_state;
  _ ← release_missing (length (controllers d)) 0 devices;
  _ ← sync_virtual_ports devices;
  db ← on_shared (on_first (load_config_db db_path));
  r ← register available (Config.controllers db) [] [] [];
  d ← get_state;
  _ ← disconnect_removed (length (controllers d)) 0 r.1;
  modify (set_controllers r.2).
End Reload.
