(* ===== verification/LinuxLoop.v ===== *)
(** The event loop of the Linux daemon (src/src/platform/linux/vdsd.cc): what is sent
    late, the control clients, epoll, and the dispatch of events. *)
From stdpp Require Import base list strings numbers.
From Stdlib Require Import Ascii ZArith Lia.
From S2P Require Import Prelude Text Words OutputState Audio Store Config Control Bluez.
From S2P Require Import LinuxIo LinuxState LinuxPort LinuxDaemon LinuxConnect LinuxReload.

Local Open Scope Z_scope.

(** ** Events *)

Inductive EventType :=
  | ControlEvent | PortEvent | BtControl | BtInterrupt | BtAcceptControl | BtAcceptInterrupt | Udev.
#[export] Instance event_type_eq_dec : EqDecision EventType.
Proof. solve_decision. Defined.
Definition event_number (t : EventType) : Z :=
  match t with
  | ControlEvent => 1 | PortEvent => 2 | BtControl => 3 | BtInterrupt => 4
  | BtAcceptControl => 5 | BtAcceptInterrupt => 6 | Udev => 7
  end.
Definition event_of_number (n : Z) : option EventType :=
  snd <$> list_find (fun t => event_number t = n)
    [ControlEvent; PortEvent; BtControl; BtInterrupt; BtAcceptControl; BtAcceptInterrupt; Udev].

Definition encode_event (t : EventType) (index : nat) : Z :=
  Z.lor (u64 (Z.shiftl (event_number t) 32)) (u32 (Z.of_nat index)).
(** Another number than these seven is no type of the loop. *)
Definition decode_event (data : Z) : option EventType * nat :=
  (event_of_number (Z.shiftr data 32), Z.to_nat (u32 data)).

(** What [epoll_wait] gives: for each event its data, whether [EPOLLIN] is set and
    whether [EPOLLERR] or [EPOLLHUP] is. *)
Inductive wakeup :=
  | Interrupted
  | WaitFailed (e : string)
  | Events (events : list (Z * bool * bool)).

(** The descriptors of the listeners. *)
Record Listeners := mk_listeners {
  control_listener : Z;
  udev_monitor : Z;
  bt_control_listener : Z;
  bt_interrupt_listener : Z
}.

(** The way [main] lets the control protocol ask BlueZ, in a world with the files and the
    bus. *)
Definition daemon_targets {F} : prog ((F * Bus) * Vars) (list ControllerTarget) := fun s =>
  let '(b, r) := list_bluez_controller_targets s.1.2 in (((s.1.1, b), s.2), r).

Section Loop.
Context {Encoder Dec W : Type} `{Codecs Encoder Dec} `{FileStore W}.
(** [list_bluez_controller_targets] *)
Context (list_targets : prog (W * Vars) (list ControllerTarget)).

Abbreviation port := (VirtualPort Encoder Dec).
Abbreviation Daemon := (Daemon Encoder Dec W).

(** ** What is sent late *)

(** The port a connected controller uses. *)
Definition connected_port (ps : list port) (c : ControllerRuntime) : option port :=
  if is_open (backend c) then find_port_index ps (device c) ≫= (fun j => ps !! j) else None.

Definition has_pending_bt_output (ps : list port) (cs : list ControllerRuntime) : bool :=
  existsb (fun c => match connected_port ps c with
                    | Some p => is_open (pending_bt_state_report p)
                                || negb (length (pending_audio_chunks p) =? 0)%nat
                                || speaker_waveout_active p
                    | None => false
                    end) cs.

(** The wait for the audio of these controllers, in milliseconds rounded up. *)
Fixpoint audio_timeout (ps : list port) (cs : list ControllerRuntime) (now timeout_ms : Z) : Z :=
  match cs with
  | [] => timeout_ms
  | c :: rest =>
      match connected_port ps c with
      | None => audio_timeout ps rest now timeout_ms
      | Some p =>
          if (length (pending_audio_chunks p) =? 0)%nat then audio_timeout ps rest now timeout_ms
          else
            let next_time := next_haptics_send_time p in
            if (next_time =? 0) || (next_time <=? now) then 0
            else audio_timeout ps rest now (Z.min timeout_ms ((next_time - now + 999999) / 1000000))
      end
  end.

Definition next_wakeup_timeout_ms (ps : list port) (cs : list ControllerRuntime) (now : Z) : Z :=
  audio_timeout ps cs now (if has_pending_bt_output ps cs then Z.min 60000 kPendingOutputPollMs else 60000).

(** What is done about an exception while a controller is served: only a Bluetooth error
    costs the connection, and nothing more. *)
Definition bluetooth_catch {A} (i j : nat) (m : prog Daemon A) (after : prog Daemon A) : prog Daemon A :=
  try_catch m (fun e =>
    if is_bluetooth_error e then _ ← drop_bt_backend i j; _ ← mark_dirty; after else throw e).

Definition flush_controller (i : nat) : prog Daemon unit :=
  d ← get_state;
  match controllers d !! i with
  | None => throw "<index>"
  | Some c =>
      match backend c with
      | None => mret tt
      | Some bt =>
          match find_port_index (ports d) (device c) with
          | None => _ ← on_controller i released; mark_dirty
          | Some j => bluetooth_catch i j (on_port j (flush_port bt)) (mret tt)
          end
      end
  end.

(** The controllers from the one at [i]. *)
Fixpoint flush_from (n i : nat) : prog Daemon unit :=
  match n with
  | O => mret tt
  | S n => _ ← flush_controller i; flush_from n (S i)
  end.
Definition flush_pending_outputs : prog Daemon unit :=
  d ← get_state; flush_from (length (controllers d)) 0.

(** ** Control clients *)

Definition controller_status (c : ControllerRuntime) : VdsdControlControllerStatus :=
  mk_controller_status (address (config c)) (virtual_connected c)
    (if virtual_connected c then device c else "").
Definition port_candidates (ps : list port) : list VdsdControlPortCandidate :=
  omap (fun p => (fun n => mk_candidate n (path p)) <$> port_index_from_path Linux (path p)) ps.
Definition port_bindings (cs : list ControllerRuntime) : list VdsdControlPortBinding :=
  omap (fun c => if controller_uses_port c
                 then (fun n => mk_binding n (address (config c)) "")
                        <$> port_index_from_path Linux (device c)
                 else None) cs.

(** The first characters of a text. *)
Fixpoint take_text (n : nat) (s : string) : string :=
  match n, s with
  | S n, String c rest => String c (take_text n rest)
  | _, _ => ""
  end.

(** One read takes at most 255 bytes.  A reply that cannot be written is only logged. *)
Definition handle_control_client (db_path : string) : prog Daemon unit :=
  got ← on_host (ask_result clients set_clients (Ok None));
  match got : option string with
  | None | Some EmptyString => mret tt
  | Some text =>
      d ← get_state;
      let port_statuses := build_vdsd_control_port_statuses (port_candidates (ports d))
                             (port_bindings (controllers d)) in
      reply ← on_shared (handle_vdsd_control_command Linux (trim_command (take_text 255 text)) db_path
                 (controller_status <$> controllers d) port_statuses list_targets);
      on_host (modify (add_reply reply))
  end.

(** ** epoll *)

Definition epoll_entries (ls : Listeners) (ps : list port) (cs : list ControllerRuntime) : list (Z * Z) :=
  [(control_listener ls, encode_event ControlEvent 0); (udev_monitor ls, encode_event Udev 0);
   (bt_control_listener ls, encode_event BtAcceptControl 0);
   (bt_interrupt_listener ls, encode_event BtAcceptInterrupt 0)]
  ++ imap (fun i p => (fd p, encode_event PortEvent i)) ps
  ++ concat (imap (fun i c =>
       match backend c with
       | None => []
       | Some bt => [(control_fd bt, encode_event BtControl i); (interrupt_fd bt, encode_event BtInterrupt i)]
       end) cs).

(** A negative descriptor cannot be added; [epolls] has the other failures. *)
Definition rebuild_epoll (ls : Listeners) : prog Daemon unit :=
  _ ← on_host (ask_result epolls set_epolls (Ok tt));
  d ← get_state;
  let entries := epoll_entries ls (ports d) (controllers d) in
  if existsb (fun e => e.1 <? 0) entries then throw "epoll add failed: Bad file descriptor"
  else _ ← modify (set_epoll (Some entries)); modify (set_dirty false).

(** ** Dispatch *)

Definition reload_later : prog Daemon unit := modify (fun d => set_dirty true (request_reload true d)).

(** Up to [n] turns, as long as one says there may be more. *)
Fixpoint up_to (n : nat) (m : prog Daemon bool) : prog Daemon unit :=
  match n with
  | O => mret tt
  | S n => again ← m; if again : bool then up_to n m else mret tt
  end.

(** The backend of the controller at [i]. *)
Definition backend_of (d : Daemon) (i : nat) : option BtL2capBackend :=
  controllers d !! i ≫= backend.

Definition handle_port_event (j : nat) (readable failed : bool) : prog Daemon unit :=
  d ← get_state;
  match ports d !! j with
  | None => mret tt
  | Some p =>
      let owner := controller_for_port (controllers d) (path p) in
      let bt := owner ≫= backend_of d in
      let frame := on_port j (handle_vds_frame bt) in
      _ ← (if readable then
             up_to kMaxPortFramesPerWake
               (match owner with
                | Some i => bluetooth_catch i j frame (mret false)
                | None => frame
                end)
           else mret tt);
      if failed then reload_later else mret tt
  end.

(** The packets of one of a controller's channels. *)
Definition handle_bt_event (i : nat) (turn : BtL2capBackend -> prog (port * World) bool)
    (readable failed : bool) : prog Daemon unit :=
  d ← get_state;
  match controllers d !! i with
  | None => mret tt
  | Some c =>
      match backend c with
      | None => mret tt
      | Some bt =>
          match find_port_index (ports d) (device c) with
          | None =>
              _ ← on_controller i (fun c => with_connected false (last_error c)
                                              (with_backend None (detected_profile c) c));
              mark_dirty
          | Some j =>
              _ ← (if readable then
                     up_to kMaxBtPacketsPerWake (bluetooth_catch i j (on_port j (turn bt)) (mret false))
                   else mret tt);
              if failed then _ ← drop_bt_backend i j; mark_dirty else mret tt
          end
      end
  end.

(** A listener that fails ends the daemon. *)
Definition failing (failed : bool) (text : string) : prog Daemon unit :=
  if failed then throw text else mret tt.

Definition handle_udev_event (readable failed : bool) : prog Daemon unit :=
  _ ← (if readable then
         devices ← on_host (ask received set_received []);
         if drain devices then reload_later else mret tt
       else mret tt);
  failing failed "udev monitor epoll error".

Definition handle_event (db_path : string) (event : Z * bool * bool) : prog Daemon unit :=
  let '(data, readable, failed) := event in
  let '(type_, index) := decode_event data in
  match type_ with
  | Some ControlEvent =>
      _ ← (if readable then handle_control_client db_path else mret tt);
      failing failed "control socket epoll error"
  | Some BtAcceptControl =>
      _ ← (if readable then handle_bt_accept true else mret tt);
      failing failed "Bluetooth listener epoll error"
  | Some BtAcceptInterrupt =>
      _ ← (if readable then handle_bt_accept false else mret tt);
      failing failed "Bluetooth listener epoll error"
  | Some Udev => handle_udev_event readable failed
  | Some PortEvent => handle_port_event index readable failed
  | Some BtControl => handle_bt_event index handle_bt_control readable failed
  | Some BtInterrupt => handle_bt_event index handle_bt_input readable failed
  | None => handle_bt_event index (fun _ => mret false) false false
  end.

Fixpoint handle_events (db_path : string) (events : list (Z * bool * bool)) : prog Daemon unit :=
  match events with
  | [] => mret tt
  | e :: rest => _ ← handle_event db_path e; handle_events db_path rest
  end.

(** ** The loop *)

Definition reload_if_requested (db_path : string) : prog Daemon unit :=
  d ← get_state;
  if reload_requested (vars d) then
    _ ← try_catch (_ ← reconcile_controller_configs db_path; mark_dirty) (fun _ => mret tt);
    modify (request_reload false)
  else mret tt.

Definition loop_turn (ls : Listeners) (db_path : string) (answer : wakeup) : prog Daemon unit :=
  _ ← reload_if_requested db_path;
  d ← get_state;
  _ ← (if epoll_dirty d || negb (is_open (epoll d)) then rebuild_epoll ls else mret tt);
  now ← on_world clock_now;
  _ ← modify (fun d => set_waits (waits d ++ [next_wakeup_timeout_ms (ports d) (controllers d) now]) d);
  match answer with
  | Interrupted => mret tt
  | WaitFailed e => throw ("epoll_wait failed: " +:+ e)
  | Events events => _ ← handle_events db_path events; flush_pending_outputs
  end.

(** The turns until a stop is requested. *)
Fixpoint run_loop (ls : Listeners) (db_path : string) (answers : list wakeup) : prog Daemon unit :=
  match answers with
  | [] => mret tt
  | a :: rest => _ ← loop_turn ls db_path a; run_loop ls db_path rest
  end.

Fixpoint disconnect_from (n i : nat) : prog Daemon unit :=
  match n with
  | O => mret tt
  | S n =>
      d ← get_state;
      _ ← match controllers d !! i with
          | None => throw "<index>"
          | Some c =>
              if negb (virtual_connected c) then mret tt
              else
                _ ← disconnect_device (device c);
                on_controller i (fun c => with_connected false (last_error c) c)
          end;
      disconnect_from n (S i)
  end.
Definition disconnect_all : prog Daemon unit :=
  d ← get_state;
  _ ← disconnect_from (length (controllers d)) 0;
  modify (set_controllers []).

(** [main], from the first look for endpoints on; the exit code. *)
Definition daemon_main (ls : Listeners) (db_path : string) (answers : list wakeup) : prog Daemon Z :=
  try_catch
    (nodes ← on_host (ask_result misc set_misc (Ok []));
     if (length (discover_vds_devices nodes) =? 0)%nat then throw kLinuxVirtualPortProviderUnavailable
     else _ ← run_loop ls db_path answers; _ ← disconnect_all; mret 0)
    (fun _ => mret 1).
End Loop.
