(* ===== verification/LinuxInv.v ===== *)
(** The invariant of a virtual port of the Linux daemon, and that every handler of
    LinuxPort.v keeps it. *)
From stdpp Require Import base list strings numbers.
From Stdlib Require Import Ascii ZArith Lia.
From S2P Require Import Prelude Text Words Checksum BtPacket OutputState OutputInv OutputReports Audio.
From S2P Require Import LinuxIo LinuxState LinuxPort.

Local Open Scope Z_scope.

(** ** The world: bytes are bytes *)

Definition answer_ok (r : read_answer) : Prop :=
  match r with Received bytes => bytes_ok bytes | ReadError _ => True end.
Definition reads_ok (w : World) : Prop := Forall answer_ok (reads w).
Abbreviation world_safe := (preserves (keeps reads_ok)).

Lemma sys_write_ok fd bytes : world_safe (sys_write fd bytes).
Proof. intros w Hw. unfold sys_write. by destruct (writes w) as [|[n|e] rest]. Qed.
Lemma sys_poll_ok : world_safe sys_poll.
Proof. intros w Hw. unfold sys_poll. by destruct (polls w). Qed.
Lemma sys_ioctl_ok fd name arg : world_safe (sys_ioctl fd name arg).
Proof. intros w Hw. unfold sys_ioctl. by destruct (ioctls w) as [|[e|] rest]. Qed.
Lemma clock_now_ok : world_safe clock_now.
Proof. intros w Hw. exact Hw. Qed.
Lemma sys_read_ok : gives reads_ok answer_ok sys_read.
Proof.
  intros w Hw. unfold sys_read, reads_ok in *. destruct (reads w) as [|r rest] eqn:Hr; simpl.
  - rewrite Hr. split; [done|]. by intros a [= <-].
  - apply Forall_cons_1 in Hw as [Hr1 Hr2]. split; [exact Hr2|]. by intros a [= <-].
Qed.
Lemma lift_keeps {S A} (I : S -> Prop) (r : result A) : preserves (keeps I) (lift r).
Proof. intros s Hs. exact Hs. Qed.
#[export] Hint Resolve sys_write_ok sys_poll_ok sys_ioctl_ok clock_now_ok lift_keeps : preserves.

Lemma write_full_ok fd bytes label ms : world_safe (write_full fd bytes label ms).
Proof.
  unfold write_full. apply preserves_bind; [typeclasses eauto|auto with preserves|]. intros w.
  generalize (S (S (length (writes w)))). intros n. clear w. revert bytes.
  induction n as [|n IH]; intros bytes; cbn [write_full_loop]; solve_preserves.
Qed.
Lemma try_write_ok fd bytes : world_safe (try_write_packet fd bytes).
Proof.
  unfold try_write_packet. apply preserves_bind; [typeclasses eauto|auto with preserves|]. intros w.
  generalize (S (length (writes w))). intros n. clear w.
  induction n as [|n IH]; cbn [try_write_loop]; solve_preserves.
Qed.
Lemma write_vds_ok n path fd bytes : world_safe (write_vds_loop n path fd bytes).
Proof. induction n as [|n IH]; cbn [write_vds_loop]; solve_preserves. Qed.
#[export] Hint Resolve write_full_ok try_write_ok write_vds_ok : preserves.

Lemma send_output_ok b r : world_safe (send_output_report b r).
Proof. unfold send_output_report. solve_preserves. Qed.
Lemma try_send_ok b r : world_safe (try_send_output_report b r).
Proof. unfold try_send_output_report. solve_preserves. Qed.
Lemma feature_get_ok b i : world_safe (send_feature_get b i).
Proof. unfold send_feature_get. solve_preserves. Qed.
Lemma feature_set_ok b r : world_safe (send_feature_set b r).
Proof. unfold send_feature_set. solve_preserves. Qed.
#[export] Hint Resolve send_output_ok try_send_ok feature_get_ok feature_set_ok : preserves.

Lemma bt_read_ok failed closed :
  gives reads_ok (fun r => forall bs, r = Some bs -> bytes_ok bs) (bt_read failed closed).
Proof.
  intros w Hw. destruct (sys_read_ok w Hw) as [Hi Hq]. unfold bt_read, mbind, prog_bind.
  destruct (sys_read w) as [w1 [r|e]]; cbn [fst snd] in *; [|done].
  specialize (Hq r eq_refl). destruct r as [[|z bs]|[| | |]]; cbn; (split; [done|]);
    intros a; try discriminate; intros [= <-] bs'; try discriminate; intros [= <-].
  apply (bytes_ok_take kBtReadBufferSize (z :: bs)). exact Hq.
Qed.

(** What a read of a feature report gives: bytes. *)
Definition report_ok (r : option (list Z)) : Prop := forall bs, r = Some bs -> bytes_ok bs.
Lemma read_feature_ok b : gives reads_ok report_ok (read_feature_report b).
Proof.
  intros w Hw. unfold read_feature_report.
  edestruct (bt_read_ok "Bluetooth L2CAP control read failed: " "Bluetooth L2CAP control channel closed" w Hw)
    as [Hi Hq].
  unfold mbind, prog_bind. destruct (bt_read _ _ w) as [w1 [r|e]]; cbn [fst snd] in *; [|done].
  specialize (Hq r eq_refl). split; [done|]. intros a [= <-] bs Hbs.
  destruct r as [p|]; [|discriminate]. specialize (Hq p eq_refl). cbn in Hbs.
  unfold bt_feature_to_usb_feature_reply in Hbs. destruct (_ || _); [discriminate|].
  injection Hbs as <-. by apply bytes_ok_drop.
Qed.

(** ** The port *)

(** A report that carries a state. *)
Definition reports_state (st report : list Z) : Prop :=
  exists o, out_ok o /\ state_ o = st /\ report = checksummed 0xa2 (state_report_body o).

Definition pending_state_ok (last pending report : option (list Z)) : Prop :=
  match pending, report with
  | None, None => True
  | Some st, Some r => last <> Some st /\ reports_state st r
  | _, _ => False
  end.

Definition cache_ok (cache : list (option (list Z))) : Prop :=
  length cache = 256%nat /\
  forall id report, cache !! id = Some (Some report) -> head report = Some (Z.of_nat id).

Section Inv.
Context {Encoder Dec : Type} `{Codecs Encoder Dec}.
Abbreviation port := (VirtualPort Encoder Dec).

Record port_ok (p : port) : Prop := {
  ok_output : out_ok (output_state p);
  ok_builder : builder_ok (haptics_builder p);
  ok_queue : (length (pending_audio_chunks p) <= kMaxPendingAudioChunks)%nat;
  ok_pending : pending_state_ok (last_sent_bt_state p) (pending_bt_state p) (pending_bt_state_report p);
  ok_phase : 0 <= speaker_waveout_phase p < kSpeakerWaveoutPeriodFrames;
  ok_cache : cache_ok (feature_cache p);
  ok_counters : forall c, u64 (trace_state p c) = trace_state p c
}.
Definition inv (s : port * World) : Prop := port_ok s.1 /\ reads_ok s.2.
Abbreviation safe := (preserves (keeps inv)).

Lemma update_safe (f : port -> port) : (forall p, port_ok p -> port_ok (f p)) -> safe (update f).
Proof. intros Hf [p w] [Hp Hw]. split; [by apply Hf|done]. Qed.
Lemma the_port_safe : safe the_port.
Proof. intros s Hs. exact Hs. Qed.
Lemma io_safe {A} (m : prog World A) : world_safe m -> safe (io m).
Proof.
  intros Hm [p w] [Hp Hw]. unfold io. specialize (Hm w Hw). cbn [fst snd] in *.
  destruct (m w) as [w1 r]. done.
Qed.
Lemma io_gives {A} (Q : A -> Prop) (m : prog World A) : gives reads_ok Q m -> gives inv Q (io m).
Proof.
  intros Hm [p w] [Hp Hw]. unfold io. destruct (Hm w Hw) as [Hi Hq]. cbn [fst snd] in *.
  destruct (m w) as [w1 r]. done.
Qed.

Lemma on_output_safe {A} (m : prog DsOutputState A) :
  (forall o, out_ok o -> out_ok (m o).1) -> safe (on_output m).
Proof.
  intros Hm [p w] [Hp Hw]. unfold on_output. cbn [fst snd]. specialize (Hm (output_state p)).
  destruct (m (output_state p)) as [o r]. destruct Hp. split; [|done].
  constructor; cbn; auto.
Qed.
Lemma on_extractor_safe {A} (m : prog (PcmAudioExtractor Encoder) A) : safe (on_extractor m).
Proof.
  intros [p w] [Hp Hw]. unfold on_extractor. cbn [fst snd].
  destruct (m (extractor p)) as [x r]. by destruct Hp.
Qed.
Lemma on_waveout_safe {A} (m : prog (PcmAudioExtractor Encoder) A) : safe (on_waveout_extractor m).
Proof.
  intros [p w] [Hp Hw]. unfold on_waveout_extractor. cbn [fst snd].
  destruct (m (waveout_extractor p)) as [x r]. by destruct Hp.
Qed.
Lemma on_decoder_safe {A} (m : prog Dec A) : safe (on_decoder m).
Proof.
  intros [p w] [Hp Hw]. unfold on_decoder. cbn [fst snd].
  destruct (m (mic_decoder p)) as [x r]. by destruct Hp.
Qed.
Hint Extern 2 (safe (io _)) => apply io_safe; solve_preserves : preserves.
Hint Resolve the_port_safe on_extractor_safe on_waveout_safe on_decoder_safe : preserves.

Lemma state_report_safe : safe (on_output build_bt_state_report).
Proof. apply on_output_safe. intros o Ho. apply (output_step_ok o); [done|apply step_state]. Qed.
Lemma init_report_safe : safe (on_output build_bt_init_report).
Proof. apply on_output_safe. intros o Ho. apply (output_step_ok o); [done|apply step_init]. Qed.
Lemma mic_state_safe a m : safe (on_output (build_bt_mic_state_report a m)).
Proof. apply on_output_safe. intros o Ho. apply (output_step_ok o); [done|apply step_mic_state]. Qed.
Lemma mic_open_safe a : safe (on_output (build_bt_mic_report a)).
Proof. apply on_output_safe. intros o Ho. apply (output_step_ok o); [done|apply step_mic]. Qed.
Lemma usb_report_safe payload : bytes_ok payload -> safe (on_output (apply_usb_output_report payload)).
Proof.
  intros Hp. apply on_output_safe. intros o Ho. apply (output_step_ok o); [done|by apply step_usb_report].
Qed.
Lemma build_packet_safe h s st a k : safe (on_builder (build_packet h s st a k)).
Proof.
  intros [p w] [Hp Hw]. unfold on_builder. cbn [fst snd].
  assert (builder_ok (build_packet h s st a k (haptics_builder p)).1) as Hb.
  { destruct (ok_builder p Hp) as [Hq Hn]. cbn. split; cbn; [|apply u8_range].
    apply next_sequence_range. }
  destruct (build_packet h s st a k (haptics_builder p)) as [b r]. split; [|done].
  destruct Hp. by constructor.
Qed.
Hint Resolve state_report_safe init_report_safe mic_state_safe mic_open_safe usb_report_safe
  build_packet_safe : preserves.

(** *** Writing to the port *)

Lemma bump_ok c n (p : port) : port_ok p -> port_ok (bump c n p).
Proof.
  intros []. constructor; try done. intros c'. cbn. case_decide; [|done]. apply u64_u64.
Qed.
Create HintDb port.
Hint Resolve bump_ok : port.
Hint Extern 2 (safe (update _)) => apply update_safe; intros : preserves.
Hint Extern 3 (port_ok _) => solve [auto with port] : preserves.

Lemma write_frame_safe bytes : safe (write_vds_frame bytes).
Proof. unfold write_vds_frame. solve_preserves. Qed.
Hint Resolve write_frame_safe : preserves.

Lemma set_cached_ok id rest (p : port) : is_u8 id -> port_ok p -> port_ok (set_cached id (id :: rest) p).
Proof.
  intros Hid [Ho Hb Hq Hp Hph [Hl Hc] Hct]. constructor; try done. split; cbn.
  - by rewrite length_insert.
  - intros i report Hi. apply list_lookup_insert_Some in Hi as [(<- & [= <-] & _)|(_ & Hi)]; [|by eapply Hc].
    cbn. f_equal. unfold is_u8 in Hid. lia.
Qed.

Lemma cache_report_safe report : bytes_ok report -> safe (cache_feature_report report).
Proof.
  intros Hr. unfold cache_feature_report. destruct report as [|id rest]; [solve_preserves|].
  apply Forall_cons_1 in Hr as [Hid _].
  apply preserves_bind; [typeclasses eauto| |intros; solve_preserves].
  apply update_safe. intros p. by apply set_cached_ok.
Qed.

(** *** Controller state reports *)

Lemma clear_pending_ok (p : port) : port_ok p -> port_ok (clear_pending_bt_state p).
Proof. by intros []. Qed.
Lemma route_ok a (p : port) : port_ok p -> port_ok (route_audio a p).
Proof. intros []. constructor; try done. cbn. by apply stream_ok. Qed.
Hint Resolve clear_pending_ok route_ok : port.

Lemma flush_state_safe bt : safe (flush_pending_bt_state_report bt).
Proof.
  unfold flush_pending_bt_state_report. solve_preserves.
  apply update_safe. by intros p' [].
Qed.
Hint Resolve flush_state_safe : preserves.

(** A new state, in closed form: the port and the world after it, and the result. *)
Definition deferred (st packet : list Z) (p : port) : port :=
  let p := if bool_decide (is_Some (pending_bt_state p)) then bump coalesced_bt_state_count 1 p else p in
  put_pending_bt_state_report (Some packet)
    (put_pending_bt_state (Some st) (bump deferred_bt_state_count 1 p)).
Definition delivered (st : list Z) (p : port) : port :=
  clear_pending_bt_state (put_last_sent_bt_state (Some st) p).

Lemma send_changed_spec bt (p : port) (w : World) :
  port_ok p ->
  let st := state_ (output_state p) in
  let o := set_report_sequence ((report_sequence_ (output_state p) + 1) mod 16) (output_state p) in
  let packet := checksummed 0xa2 (state_report_body (output_state p)) in
  send_changed_state bt (p, w) =
  if bool_decide (last_sent_bt_state p = Some st) then
    ((if bool_decide (is_Some (pending_bt_state p))
      then bump coalesced_bt_state_count 1 (clear_pending_bt_state p) else p, w), Ok tt)
  else if bool_decide (pending_bt_state p = Some st) then ((p, w), Ok tt)
  else match try_send_output_report bt packet w with
       | (w', Ok true) => ((delivered st (put_output_state o p), w'), Ok tt)
       | (w', Ok false) => ((deferred st packet (put_output_state o p), w'), Ok tt)
       | (w', Throw e) => ((put_output_state o p, w'), Throw e)
       end.
Proof.
  intros Hp st o packet. unfold send_changed_state, mbind, prog_bind, the_port. cbn [fst snd].
  fold st. case_bool_decide; [by case_bool_decide|]. case_bool_decide; [done|].
  unfold on_output. cbn [fst snd]. rewrite state_report_spec by apply Hp. fold o packet.
  cbn [fst snd]. unfold io. cbn [fst snd].
  destruct (try_send_output_report bt packet w) as [w' [[|]|e]]; try done.
  unfold deferred. change (pending_bt_state (put_output_state o p)) with (pending_bt_state p).
  by case_bool_decide.
Qed.

Lemma put_output_ok o (p : port) : out_ok o -> port_ok p -> port_ok (put_output_state o p).
Proof. intros Ho []. by constructor. Qed.
Lemma sequence_ok (o : DsOutputState) :
  out_ok o -> out_ok (set_report_sequence ((report_sequence_ o + 1) mod 16) o).
Proof. apply report_sequence_ok, Z.mod_pos_bound. lia. Qed.
Lemma delivered_ok st (p : port) : port_ok p -> port_ok (delivered st p).
Proof. intros []. by constructor. Qed.
Lemma deferred_ok st packet (p : port) :
  port_ok p -> last_sent_bt_state p <> Some st -> reports_state st packet ->
  port_ok (deferred st packet p).
Proof.
  intros Hp Hl Hr. unfold deferred.
  assert (forall q, port_ok q -> last_sent_bt_state q <> Some st ->
            port_ok (put_pending_bt_state_report (Some packet) (put_pending_bt_state (Some st) q))) as Hq
    by (intros q [] ?; by constructor).
  case_bool_decide; apply Hq; try done; repeat apply bump_ok; done.
Qed.
Hint Resolve put_output_ok sequence_ok delivered_ok : port.

Lemma send_changed_safe bt : safe (send_changed_state bt).
Proof.
  intros [p w] [Hp Hw]. cbn [fst snd] in *. pose proof (send_changed_spec bt p w Hp) as E. cbv zeta in E.
  unfold inv. rewrite E. clear E. case_bool_decide as Hl; [case_bool_decide; cbn; auto with port|].
  case_bool_decide; [done|]. pose proof (ok_output p Hp) as Ho.
  pose proof (try_send_ok bt (checksummed 0xa2 (state_report_body (output_state p))) w Hw) as Hw'.
  destruct (try_send_output_report _ _ w) as [w' [[|]|e]]; cbn [fst snd] in *; split; auto with port.
  apply deferred_ok; auto with port. by exists (output_state p).
Qed.
Hint Resolve send_changed_safe : preserves.

Lemma forward_safe bt : safe (forward_bt_state_if_changed bt).
Proof. unfold forward_bt_state_if_changed. solve_preserves. Qed.
Hint Resolve forward_safe : preserves.
Lemma connected_safe bt (m : BtL2capBackend -> prog (port * World) unit) :
  (forall b, safe (m b)) -> safe (when_connected bt m).
Proof. intros Hm. destruct bt; cbn; auto with preserves. Qed.
Hint Extern 2 (safe (when_connected _ _)) => apply connected_safe; intros; solve_preserves : preserves.

Lemma send_mic_state_safe bt : safe (send_mic_state bt).
Proof. unfold send_mic_state. solve_preserves. Qed.
Lemma send_mic_open_safe bt : safe (send_mic_open bt).
Proof. unfold send_mic_open. solve_preserves. Qed.
Hint Resolve send_mic_state_safe send_mic_open_safe : preserves.

(** *** Frames *)

(** Assignments to members the invariant does not speak of. *)
Ltac other_member :=
  match goal with |- port_ok (_ _ ?p) => cut (port_ok p); [generalize p; by intros ? []|] end.
Hint Extern 5 (port_ok (_ _ _)) => other_member : port.

Lemma no_chunks_ok (p : port) : port_ok p -> port_ok (put_pending_audio_chunks [] p).
Proof. intros []. constructor; try done. unfold kMaxPendingAudioChunks. cbn. lia. Qed.
Lemma phase_zero_ok (p : port) : port_ok p -> port_ok (put_speaker_waveout_phase 0 p).
Proof. intros []. by constructor. Qed.
Hint Resolve no_chunks_ok phase_zero_ok : port.

Lemma interface_safe payload bt : safe (handle_interface_frame payload bt).
Proof. unfold handle_interface_frame. cbv zeta. solve_preserves. Qed.

Lemma hid_out_safe payload bt : bytes_ok payload -> safe (handle_hid_out_frame payload bt).
Proof.
  intros Hp. unfold handle_hid_out_frame. solve_preserves. apply update_safe. intros p Hok.
  case_match; auto with port.
Qed.

Lemma feature_get_frame_safe payload bt : safe (handle_feature_get_frame payload bt).
Proof. unfold handle_feature_get_frame. solve_preserves. Qed.

Lemma waveout_control_safe enable bt : safe (handle_waveout_control enable bt).
Proof. unfold handle_waveout_control. cbv zeta. solve_preserves. Qed.

Lemma test_command_safe device action data bt : 
  is_u8 device -> is_u8 action -> safe (handle_test_command device action data bt).
Proof.
  intros Hd Ha. unfold handle_test_command. apply preserves_bind; [typeclasses eauto| |intros _].
  - apply cache_report_safe. unfold test_result. apply Forall_app_2; [|apply bytes_ok_zeros].
    unfold bytes_ok, is_u8 in *. repeat (apply Forall_cons; [done|]). apply Forall_nil.
  - pose proof waveout_control_safe. solve_preserves.
Qed.

Lemma test_command_bytes payload device action data :
  bytes_ok payload -> test_command payload = Some (device, action, data) -> is_u8 device /\ is_u8 action.
Proof.
  intros Hp. unfold test_command. destruct (_ && _); [|discriminate]. destruct (_ <? _)%nat; [|discriminate].
  intros [= <- <- _]. split; by apply byte_at_ok.
Qed.

Lemma feature_set_frame_safe payload bt : bytes_ok payload -> safe (handle_feature_set_frame payload bt).
Proof.
  intros Hp. unfold handle_feature_set_frame. destruct (_ =? _)%nat; [solve_preserves|].
  apply preserves_bind; [typeclasses eauto| |intros; solve_preserves].
  destruct (test_command payload) as [[[d a] data]|] eqn:Ht; [|solve_preserves].
  apply test_command_bytes in Ht as []; [|done]. by apply test_command_safe.
Qed.

Lemma pop_ok (p : port) : port_ok p -> port_ok (pop_chunk p).
Proof.
  intros []. constructor; try done. cbn. destruct (pending_audio_chunks p); cbn in *; lia.
Qed.

Lemma push_chunk_ok chunk (p : port) :
  (length (pending_audio_chunks p) < kMaxPendingAudioChunks)%nat -> port_ok p ->
  port_ok (put_pending_audio_chunks (pending_audio_chunks p ++ [chunk]) p).
Proof. intros Hl []. constructor; try done. cbn. rewrite length_app. cbn. lia. Qed.

Lemma queue_chunk_ok chunk (p : port) : port_ok p -> port_ok (queue_chunk chunk p).
Proof.
  intros Hp. unfold queue_chunk.
  destruct (Nat.leb_spec kMaxPendingAudioChunks (length (pending_audio_chunks p))) as [Hl|Hl].
  - apply push_chunk_ok; [|by apply bump_ok, bump_ok, pop_ok]. cbn. pose proof (ok_queue p Hp).
    unfold kMaxPendingAudioChunks in *. destruct (pending_audio_chunks p); cbn in *; lia.
  - by apply push_chunk_ok.
Qed.

Lemma audio_out_safe payload bt : safe (handle_audio_out_frame payload bt).
Proof.
  unfold handle_audio_out_frame. apply connected_safe. intros b. solve_preserves. apply update_safe.
  induction a as [|c cs IH]; intros p Hp; cbn; [done|]. by apply IH, queue_chunk_ok.
Qed.
Hint Resolve interface_safe hid_out_safe feature_get_frame_safe feature_set_frame_safe audio_out_safe : preserves.

Lemma handle_frame_safe t payload bt : bytes_ok payload -> safe (handle_frame t payload bt).
Proof. intros Hp. unfold handle_frame. solve_preserves. Qed.
Hint Resolve handle_frame_safe : preserves.

Lemma parse_frame_bytes path_ r header payload :
  answer_ok r -> parse_vds_frame path_ (read_frame r) = Ok (Some (header, payload)) -> bytes_ok payload.
Proof.
  intros Hr. unfold parse_vds_frame, read_frame. destruct r as [bytes|[| | |]]; try discriminate.
  pose proof (bytes_ok_take (frame_header_size + VDS_FRAME_MAX_PAYLOAD) bytes Hr) as Hb. revert Hb.
  generalize (take (frame_header_size + VDS_FRAME_MAX_PAYLOAD) bytes). intros [|z frame] Hb; [discriminate|].
  intros Hf. repeat case_match; simplify_eq.
  apply bytes_ok_take, (bytes_ok_drop frame_header_size (z :: frame)), Hb.
Qed.

Lemma vds_frame_safe bt : safe (handle_vds_frame bt).
Proof.
  unfold handle_vds_frame. apply preserves_bind; [typeclasses eauto|auto with preserves|intros p].
  apply (preserves_bind_gives _ answer_ok); [apply io_gives, sys_read_ok|intros r Hr].
  intros s Hs. unfold mbind, prog_bind, lift.
  destruct (parse_vds_frame (path p) (read_frame r)) as [[[header payload]|]|e] eqn:Hf; [|done..].
  apply parse_frame_bytes in Hf; [|done].
  assert (safe (_ ← handle_frame (type header) payload bt; mret true)) as Hh by solve_preserves.
  exact (Hh s Hs).
Qed.

(** *** Packets *)

Lemma mic_packet_safe packet : safe (handle_mic_packet packet).
Proof. unfold handle_mic_packet. solve_preserves. Qed.
Lemma mic_controls_safe report bt : safe (update_mic_controls report bt).
Proof.
  unfold update_mic_controls. cbv zeta. solve_preserves.
Qed.
Lemma headset_safe report bt : safe (update_headset report bt).
Proof. unfold update_headset. cbv zeta. solve_preserves. Qed.
Hint Resolve mic_packet_safe mic_controls_safe headset_safe : preserves.

Lemma input_report_safe report bt : safe (handle_input_report report bt).
Proof. unfold handle_input_report. cbv zeta. solve_preserves. Qed.
Hint Resolve input_report_safe : preserves.
Lemma handle_packet_safe packet bt : safe (handle_packet packet bt).
Proof. unfold handle_packet. solve_preserves. Qed.
Hint Resolve handle_packet_safe : preserves.

Lemma bt_input_safe bt : safe (handle_bt_input bt).
Proof.
  unfold handle_bt_input. solve_preserves.
  apply io_safe. intros w Hw. by apply bt_read_ok.
Qed.

Lemma feature_report_safe report : bytes_ok report -> safe (handle_feature_report report).
Proof.
  intros Hr. unfold handle_feature_report. destruct report as [|id rest]; [solve_preserves|].
  apply Forall_cons_1 in Hr as [Hid _].
  apply preserves_bind; [typeclasses eauto| |intros; solve_preserves].
  apply update_safe. intros p. by apply set_cached_ok.
Qed.

Lemma bt_control_safe bt : safe (handle_bt_control bt).
Proof.
  unfold handle_bt_control. apply (preserves_bind_gives _ report_ok); [apply io_gives, read_feature_ok|].
  intros [report|] Hr; [|solve_preserves].
  apply preserves_bind; [typeclasses eauto|apply feature_report_safe; by apply Hr|intros; solve_preserves].
Qed.

(** *** What waits to be sent *)

Lemma drop_stale_ok (p : port) : port_ok p -> port_ok (drop_stale p).
Proof.
  intros Hp. unfold drop_stale. do 3 apply bump_ok. destruct Hp. constructor; try done. cbn.
  rewrite length_drop. lia.
Qed.
Hint Resolve pop_ok drop_stale_ok : port.

Lemma sent_audio_ok st (p : port) :
  port_ok p ->
  port_ok (let p := put_last_sent_bt_state (Some st) p in
           if bool_decide (pending_bt_state p = Some st) then clear_pending_bt_state p else p).
Proof.
  intros []. cbv zeta. case_bool_decide as Hs; constructor; try done; cbn in *.
  destruct (pending_bt_state p) as [st'|], (pending_bt_state_report p); try done. cbn in *.
  destruct ok_pending0 as [_ ?]. split; [congruence|done].
Qed.

Lemma flush_audio_safe bt : safe (flush_pending_audio_chunk bt).
Proof.
  unfold flush_pending_audio_chunk. solve_preserves.
  apply update_safe. intros p Hp. cbv zeta. other_member.
  exact (sent_audio_ok (state_ (output_state p)) (pop_chunk p) (pop_ok p Hp)).
Qed.

Lemma waveout_phase n phase :
  0 <= phase < kSpeakerWaveoutPeriodFrames -> 0 <= (waveout_pcm n phase).2 < kSpeakerWaveoutPeriodFrames.
Proof.
  revert phase. induction n as [|n IH]; intros phase Hp; cbn [waveout_pcm]; [done|].
  pose proof (IH ((phase + 1) mod kSpeakerWaveoutPeriodFrames)) as Hn.
  destruct (waveout_pcm n _) as [rest q]. apply Hn. unfold kSpeakerWaveoutPeriodFrames.
  apply Z.mod_pos_bound. lia.
Qed.

Lemma append_ok chunks (p : port) : port_ok p -> port_ok (append_while_room chunks p).
Proof.
  revert p. induction chunks as [|c cs IH]; intros p Hp; cbn [append_while_room]; [done|].
  destruct (Nat.leb_spec kMaxPendingAudioChunks (length (pending_audio_chunks p))) as [Hl|Hl]; [done|].
  apply IH, push_chunk_ok; [lia|done].
Qed.

Lemma enqueue_safe : safe enqueue_speaker_waveout_chunk.
Proof.
  intros [p w] [Hp Hw]. unfold enqueue_speaker_waveout_chunk, mbind, prog_bind, the_port. cbn [fst snd].
  destruct (_ || _); [done|]. pose proof (waveout_phase kPcmWindowFrames _ (ok_phase p Hp)) as Hph.
  destruct (waveout_pcm kPcmWindowFrames (speaker_waveout_phase p)) as [pcm phase]. cbn [snd] in Hph.
  assert (port_ok (put_speaker_waveout_phase phase p)) as Hp' by (destruct Hp; by constructor).
  assert (safe (chunks ← on_waveout_extractor (push_usb_audio opus_encode opus_strerror pcm);
                update (append_while_room chunks))) as Hs.
  { solve_preserves. apply update_safe. apply append_ok. }
  exact (Hs (put_speaker_waveout_phase phase p, w) (conj Hp' Hw)).
Qed.
Hint Resolve flush_audio_safe enqueue_safe : preserves.

Lemma flush_port_safe bt : safe (flush_port bt).
Proof. unfold flush_port. solve_preserves. Qed.

(** *** Connecting and disconnecting *)

Lemma ioctl_safe name arg : safe (ioctl_with name arg).
Proof. unfold ioctl_with. solve_preserves. Qed.
Hint Resolve ioctl_safe : preserves.

Lemma ioctl_noarg_safe name : safe (ioctl_noarg name).
Proof. apply ioctl_safe. Qed.

Lemma disconnect_safe : safe disconnect_virtual_port.
Proof.
  unfold disconnect_virtual_port, ioctl_noarg.
  apply preserves_bind; [typeclasses eauto| |intros; solve_preserves].
  apply update_safe. intros p Hp. apply phase_zero_ok. do 6 other_member. by apply no_chunks_ok.
Qed.

(** A port as it is after opening it: all members are new. *)
Lemma empty_cache_ok : cache_ok (replicate 256 None).
Proof.
  split; [apply length_replicate|]. intros id report Hi.
  apply lookup_replicate in Hi as [Hi _]. discriminate.
Qed.

Lemma fresh_port_ok path_ fd_ x y (d : Dec) :
  port_ok (mk_port path_ fd_ x y d (mk_builder 0 0) initial_output_state [] None None None 0 false false
    false false false false true false 0 (replicate 256 None) [] no_stats).
Proof.
  constructor; [apply initial_ok|by repeat split|apply Nat.le_0_l|done|by split|apply empty_cache_ok|done].
Qed.

Lemma reset_safe : safe reset_virtual_port.
Proof. unfold reset_virtual_port. solve_preserves. apply update_safe. intros. apply fresh_port_ok. Qed.
End Inv.
#[export] Hint Resolve the_port_safe vds_frame_safe bt_input_safe bt_control_safe flush_port_safe disconnect_safe
  reset_safe ioctl_safe ioctl_noarg_safe init_report_safe : preserves.
