(* ===== verification/LinuxFacts.v ===== *)
(** What the Linux daemon's writes do: what is sent, when they fail, and that their loops
    end; the closed form of the operations on the queue of audio chunks; and the effect of
    an input report. *)
From stdpp Require Import base list strings numbers.
From Stdlib Require Import Ascii ZArith Lia.
From S2P Require Import Prelude Text Words Checksum BtPacket OutputState OutputInv OutputReports Audio.
From S2P Require Import LinuxIo LinuxState LinuxPort LinuxInv.

Local Open Scope Z_scope.

(** ** The writing loops end *)

(** More rounds than these change nothing: each round but the last takes an answer. *)
Lemma try_write_enough n fd bytes w :
  (length (writes w) < n)%nat -> try_write_loop n fd bytes w = try_write_packet fd bytes w.
Proof.
  unfold try_write_packet, mbind, prog_bind, get_state.
  assert (forall k m w, (length (writes w) < m <= k)%nat ->
            try_write_loop k fd bytes w = try_write_loop m fd bytes w) as Hk.
  { clear. intros k. induction k as [|k IH]; intros [|m] w Hm; [lia..|].
    cbn [try_write_loop]. unfold mbind, prog_bind, sys_write.
    destruct (writes w) as [|[j|[| | |t]] rest] eqn:Hw; try done. cbn [length] in Hm.
    apply IH. cbn. lia. }
  intros Hn. apply Hk. lia.
Qed.

Lemma write_vds_enough n m path fd bytes w :
  (length (writes w) < m <= n)%nat ->
  write_vds_loop n path fd bytes w = write_vds_loop m path fd bytes w.
Proof.
  revert m w. induction n as [|n IH]; intros [|m] w Hm; [lia..|].
  cbn [write_vds_loop]. unfold mbind, prog_bind, sys_write.
  destruct (writes w) as [|[j|[| | |t]] rest] eqn:Hw; try done. cbn [length] in Hm.
  apply IH. cbn. lia.
Qed.

(** A full write takes one more round when it ends on an answer, and one when the answers
    are used up. *)
Lemma write_full_enough n m fd bytes label ms w :
  (S (length (writes w)) < m <= n)%nat ->
  write_full_loop n fd bytes label ms w = write_full_loop m fd bytes label ms w.
Proof.
  revert m w bytes. induction n as [|n IH]; intros [|m] w bytes Hm; [lia..|].
  cbn [write_full_loop]. destruct (length bytes =? 0)%nat eqn:Hb; [done|].
  unfold mbind, prog_bind, sys_write.
  destruct (writes w) as [|[j|e] rest] eqn:Hw; cbn [length] in Hm.
  - destruct (length bytes) as [|l] eqn:Hl; [done|]. destruct n as [|n], m as [|m]; try lia.
    cbn [write_full_loop]. rewrite drop_ge by lia. done.
  - destruct (Nat.min j (length bytes)) as [|k]; [done|]. apply IH. cbn. lia.
  - assert (forall w', writes w' = rest ->
      write_full_loop n fd bytes label ms w' = write_full_loop m fd bytes label ms w') as Hr
      by (intros w' Hw'; apply IH; rewrite Hw'; lia).
    destruct e; try done; [by apply Hr| | |]; destruct (_ && _); try done;
      unfold sys_poll; cbn [polls set_writes];
      destruct (polls w) as [|[[|] ?| |[| | |?]] ?]; try done; by apply Hr.
Qed.

(** ** What is sent *)

(** A write that was taken added its bytes to what is sent; one that would block added
    nothing. *)
Definition outcome (fd : Z) (bytes : list Z) (w : World) (out : World * result bool) : Prop :=
  match out.2 with
  | Ok true => sent out.1 = sent w ++ [(fd, bytes)]
  | Ok false => sent out.1 = sent w
  | Throw _ => True
  end.

Lemma try_write_outcome fd bytes w : outcome fd bytes w (try_write_packet fd bytes w).
Proof.
  unfold try_write_packet, mbind, prog_bind, get_state.
  generalize (S (length (writes w))). intros n. revert w.
  induction n as [|n IH]; intros w; [done|]. cbn [try_write_loop]. unfold mbind, prog_bind, sys_write.
  destruct (writes w) as [|[j|[| | |t]] rest] eqn:Hw; try done.
  - rewrite Nat.eqb_refl. done.
  - destruct (Nat.eqb_spec (Nat.min j (length bytes)) (length bytes)) as [->|]; [|done].
    unfold outcome. cbn. by rewrite firstn_all.
  - specialize (IH (set_writes rest (sent w) w)). exact IH.
Qed.

Lemma write_vds_outcome n path fd bytes w : outcome fd bytes w (write_vds_loop n path fd bytes w).
Proof.
  revert w. induction n as [|n IH]; intros w; [done|]. cbn [write_vds_loop]. unfold mbind, prog_bind, sys_write.
  destruct (writes w) as [|[j|[| | |t]] rest] eqn:Hw; try done.
  - rewrite Nat.eqb_refl. done.
  - destruct (Nat.eqb_spec (Nat.min j (length bytes)) (length bytes)) as [->|]; [|done].
    unfold outcome. cbn. by rewrite firstn_all.
  - specialize (IH (set_writes rest (sent w) w)). exact IH.
Qed.

Lemma try_send_outcome b report w :
  outcome (interrupt_fd b) (hidp_output_packet report) w (try_send_output_report b report w).
Proof. unfold try_send_output_report. destruct (_ <? 0); [done|apply try_write_outcome]. Qed.

(** A world that takes every write. *)
Definition accepts_all (w : World) : Prop := writes w = [].
Definition add_sent (l : list (Z * list Z)) (w : World) : World := set_writes [] (sent w ++ l) w.

Lemma add_sent_app l l' w : add_sent l' (add_sent l w) = add_sent (l ++ l') w.
Proof. unfold add_sent. cbn. by rewrite <- (assoc_L app). Qed.

Lemma try_send_free b report w :
  accepts_all w -> 0 <= interrupt_fd b ->
  try_send_output_report b report w = (add_sent [(interrupt_fd b, hidp_output_packet report)] w, Ok true).
Proof.
  intros Hw Hb. unfold try_send_output_report. rewrite (proj2 (Z.ltb_ge _ _)) by done.
  unfold try_write_packet, mbind, prog_bind, get_state. cbn [try_write_loop].
  unfold mbind, prog_bind, sys_write. rewrite Hw. by rewrite Nat.eqb_refl.
Qed.

Lemma write_full_free fd bytes label ms w :
  accepts_all w -> bytes <> [] ->
  write_full fd bytes label ms w = (add_sent [(fd, bytes)] w, Ok tt).
Proof.
  intros Hw Hb. unfold write_full, mbind, prog_bind, get_state. rewrite Hw. cbn [length write_full_loop].
  destruct bytes as [|z bytes]; [done|]. cbn [length Nat.eqb].
  unfold mbind, prog_bind, sys_write. rewrite Hw. cbn [length]. rewrite drop_ge by (cbn; lia). done.
Qed.

Section Ports.
Context {Encoder Dec : Type} `{Codecs Encoder Dec}.
Abbreviation port := (VirtualPort Encoder Dec).

Lemma write_frame_free bytes (p : port) w :
  accepts_all w -> write_vds_frame bytes (p, w) = ((p, add_sent [(fd p, bytes)] w), Ok true).
Proof.
  intros Hw. unfold write_vds_frame, mbind, prog_bind, the_port, io, get_state. cbn [fst snd].
  rewrite Hw. cbn [length write_vds_loop]. unfold mbind, prog_bind, sys_write. rewrite Hw.
  by rewrite Nat.eqb_refl.
Qed.

(** A frame for the USB side is taken, or dropped and counted, or the port fails. *)
Lemma write_frame_outcome bytes (p : port) w :
  match write_vds_frame bytes (p, w) with
  | ((p', w'), Ok true) => p' = p /\ sent w' = sent w ++ [(fd p, bytes)]
  | ((p', w'), Ok false) => p' = bump dropped_usb_frame_count 1 p /\ sent w' = sent w
  | ((p', w'), Throw _) => p' = p
  end.
Proof.
  unfold write_vds_frame, mbind, prog_bind, the_port, io, get_state. cbn [fst snd].
  pose proof (write_vds_outcome (S (length (writes w))) (path p) (fd p) bytes w) as Ho.
  destruct (write_vds_loop _ _ _ _ w) as [w' [[|]|e]]; done.
Qed.

(** ** The queue of audio chunks *)

(** What made room is counted twice. *)
Definition room_made (n : nat) (p : port) : counter -> Z :=
  trace_state (bump queue_dropped_audio_haptics_count (Z.of_nat n)
                (bump dropped_audio_haptics_count (Z.of_nat n) p)).

Lemma u64_add x a b : u64 (u64 (x + a) + b) = u64 (x + (a + b)).
Proof. unfold u64. rewrite Zplus_mod_idemp_l. f_equal. lia. Qed.

Lemma bump_at c n (p : port) c' :
  trace_state (bump c n p) c' = if decide (c' = c) then u64 (trace_state p c' + n) else trace_state p c'.
Proof. done. Qed.

Lemma room_made_zero (p : port) c : port_ok p -> room_made 0 p c = trace_state p c.
Proof.
  intros Hp. pose proof (ok_counters p Hp) as Hc. unfold room_made. rewrite !bump_at.
  change (Z.of_nat 0) with 0. repeat case_decide; rewrite ?Z.add_0_r, ?Hc; done.
Qed.

Lemma room_made_succ n (p q : port) c :
  (forall c, trace_state q c = room_made 1 p c) -> room_made n q c = room_made (S n) p c.
Proof.
  intros Hq. unfold room_made. rewrite !bump_at, Hq. unfold room_made. rewrite !bump_at.
  rewrite Nat2Z.inj_succ. change (Z.of_nat 1) with 1.
  repeat case_decide; subst; try done; rewrite u64_add; f_equal; lia.
Qed.

(** The chunks one after the other: the newest eight stay. *)
Lemma queue_chunks_spec chunks (p : port) :
  port_ok p ->
  let all := pending_audio_chunks p ++ chunks in
  let n := (length all - kMaxPendingAudioChunks)%nat in
  exists t, foldl (fun p c => queue_chunk c p) p chunks
            = put_trace_state t (put_pending_audio_chunks (drop n all) p)
    /\ forall c, t c = room_made n p c.
Proof.
  revert p. induction chunks as [|x chunks IH]; intros p Hp; cbv zeta.
  - rewrite app_nil_r. pose proof (ok_queue p Hp) as Hq.
    replace (length (pending_audio_chunks p) - kMaxPendingAudioChunks)%nat with 0%nat by lia.
    exists (trace_state p). split; [by destruct p|]. intros c. by rewrite room_made_zero.
  - cbn [foldl]. pose proof (queue_chunk_ok x p Hp) as Hp1. destruct (IH _ Hp1) as (t & -> & Ht).
    clear IH. revert Ht. pose proof (ok_queue p Hp) as Hq. unfold queue_chunk.
    destruct (Nat.leb_spec kMaxPendingAudioChunks (length (pending_audio_chunks p))) as [Hl|Hl]; intros Ht.
    + assert (exists y ys, pending_audio_chunks p = y :: ys) as (y & ys & Hys)
        by (destruct (pending_audio_chunks p) as [|y ys]; [cbv in Hl; lia|by eauto]).
      revert Ht. cbn [pending_audio_chunks put_pending_audio_chunks bump put_trace_state pop_chunk].
      rewrite Hys in *. cbn [tail app]. rewrite <- (assoc_L app). cbn [app length]. intros Ht.
      cbn [length] in Hq, Hl.
      replace (S (length (ys ++ x :: chunks)) - kMaxPendingAudioChunks)%nat
        with (S (length (ys ++ x :: chunks) - kMaxPendingAudioChunks))
        by (rewrite length_app in *; cbn [length] in *; lia).
      exists t. split; [done|]. intros c. rewrite Ht. by apply room_made_succ.
    + exists t. revert Ht. cbn [pending_audio_chunks put_pending_audio_chunks].
      rewrite <- (assoc_L app). intros Ht. split; [done|exact Ht].
Qed.
End Ports.


(** ** Input reports in a world that takes every write

    What they send, and what they do to the port. *)

Section Input.
Context {Encoder Dec : Type} `{Codecs Encoder Dec}.
Abbreviation port := (VirtualPort Encoder Dec).
Implicit Types (p : port) (w : World).

Lemma add_sent_nil w : accepts_all w -> add_sent [] w = w.
Proof. intros Hw. unfold add_sent. rewrite app_nil_r. destruct w. cbn in *. by rewrite Hw. Qed.

(** What most of it does not change. *)
Definition same_controls p p' : Prop :=
  path p' = path p /\ fd p' = fd p /\ mic_muted p' = mic_muted p /\ mute_button_down p' = mute_button_down p.

Definition calm w : Prop := accepts_all w /\ reads_ok w.
Definition to_interrupt (bt : BtL2capBackend) (l : list (Z * list Z)) : Prop :=
  Forall (fun x => x.1 = interrupt_fd bt) l.

(** [m] returns, sends only on the interrupt channel, and [Q] holds of the port after it. *)
Definition quietly (bt : BtL2capBackend) (m : prog (port * World) unit) p w (Q : port -> Prop) : Prop :=
  exists p' l, m (p, w) = ((p', add_sent l w), Ok tt) /\ to_interrupt bt l /\ Q p'.
Definition quiet bt (m : prog (port * World) unit) : Prop :=
  forall p w, port_ok p -> calm w -> quietly bt m p w (same_controls p).

Lemma quietly_bind bt m (f : unit -> prog (port * World) unit) p w (Q : port -> Prop) :
  preserves (keeps inv) m -> port_ok p -> calm w ->
  quietly bt m p w (fun p1 => forall w1, calm w1 -> port_ok p1 -> quietly bt (f tt) p1 w1 Q) ->
  quietly bt (m ≫= f) p w Q.
Proof.
  intros Hm Hp [Hw Hr] (p1 & l1 & E1 & Hl1 & H1). specialize (Hm (p, w) (conj Hp Hr)). rewrite E1 in Hm.
  destruct (H1 (add_sent l1 w)) as (p2 & l2 & E2 & Hl2 & HQ); [done|apply Hm|].
  exists p2, (l1 ++ l2). unfold mbind, prog_bind. rewrite E1, E2, add_sent_app.
  split; [done|]. split; [by apply Forall_app_2|done].
Qed.

Lemma quietly_weaken bt m p w (Q Q' : port -> Prop) :
  quietly bt m p w Q -> (forall p', Q p' -> Q' p') -> quietly bt m p w Q'.
Proof. intros (p' & l & ? & ? & ?) HQ. exists p', l. auto. Qed.

Lemma quietly_update bt (f : port -> port) p w (Q : port -> Prop) :
  calm w -> Q (f p) -> quietly bt (update f) p w Q.
Proof. intros [Hw _] HQ. exists (f p), []. rewrite add_sent_nil by done. split_and!; by try apply Forall_nil_2. Qed.

Lemma quietly_ret bt p w (Q : port -> Prop) : calm w -> Q p -> quietly bt (mret tt) p w Q.
Proof. intros [Hw _] HQ. exists p, []. rewrite add_sent_nil by done. split_and!; by try apply Forall_nil_2. Qed.

Lemma same_controls_trans p1 p2 p3 : same_controls p1 p2 -> same_controls p2 p3 -> same_controls p1 p3.
Proof. unfold same_controls. intuition congruence. Qed.

(** A report that is tried on the interrupt channel. *)
Lemma try_send_either bt r w :
  accepts_all w ->
  exists l b, try_send_output_report bt r w = (add_sent l w, Ok b) /\ to_interrupt bt l.
Proof.
  intros Hw. destruct (Z.le_gt_cases 0 (interrupt_fd bt)) as [Hb|Hb].
  - exists [(interrupt_fd bt, hidp_output_packet r)], true. rewrite try_send_free by done.
    split; [done|]. by apply Forall_singleton.
  - exists [], false. rewrite add_sent_nil by done. unfold try_send_output_report.
    rewrite (proj2 (Z.ltb_lt _ _)) by done. split; [done|apply Forall_nil_2].
Qed.

Lemma send_mic_state_quiet bt : quiet bt (send_mic_state bt).
Proof.
  intros p w Hp [Hw _]. unfold quietly, send_mic_state, mbind, prog_bind, the_port, on_output. cbn [fst snd].
  rewrite mic_state_report_spec by apply Hp. unfold io. cbn [fst snd].
  match goal with |- context [try_send_output_report bt ?r w] =>
    destruct (try_send_either bt r w Hw) as (l & b & E & Hl) end.
  rewrite E. by eexists _, l.
Qed.

Lemma flush_state_quiet bt p w :
  port_ok p -> calm w ->
  exists p' l b, flush_pending_bt_state_report bt (p, w) = ((p', add_sent l w), Ok b) /\
    to_interrupt bt l /\ same_controls p p'.
Proof.
  intros Hp [Hw _]. unfold flush_pending_bt_state_report, mbind, prog_bind, the_port. cbn [fst snd].
  assert (((p, w), Ok true) = ((p, add_sent [] w), Ok true)) as E0 by by rewrite add_sent_nil.
  destruct (pending_bt_state_report p) as [r|], (pending_bt_state p) as [st|];
    try (exists p, [], true; split; [exact E0|split; [apply Forall_nil_2|done]]).
  unfold io. cbn [fst snd]. destruct (try_send_either bt r w Hw) as (l & b & E & Hl). rewrite E.
  destruct b; by eexists _, l, _.
Qed.

Lemma send_changed_quiet bt : quiet bt (send_changed_state bt).
Proof.
  intros p w Hp [Hw _]. unfold quietly. rewrite send_changed_spec by done.
  assert (forall q, (q, w, Ok tt) = (q, add_sent [] w, Ok tt) :> port * World * result unit) as E0
    by by rewrite add_sent_nil.
  case_bool_decide.
  { rewrite E0. eexists _, []. split; [done|]. split; [apply Forall_nil_2|]. by case_bool_decide. }
  case_bool_decide; [by exists p, []; rewrite E0; split_and!; try apply Forall_nil_2|].
  match goal with |- context [try_send_output_report bt ?r w] =>
    destruct (try_send_either bt r w Hw) as (l & b & E & Hl) end.
  rewrite E. destruct b; eexists _, l; split_and!; try done.
  unfold deferred. by case_bool_decide.
Qed.

Lemma forward_quiet bt : quiet bt (forward_bt_state_if_changed bt).
Proof.
  intros p w Hp Hw. destruct (flush_state_quiet bt p w Hp Hw) as (p1 & l1 & b & E1 & Hl1 & Hs1).
  assert (inv (flush_pending_bt_state_report bt (p, w)).1) as Hi
    by (apply flush_state_safe; split; [done|apply Hw]).
  rewrite E1 in Hi. destruct Hi as [Hp1 Hw1].
  destruct (send_changed_quiet bt p1 (add_sent l1 w)) as (p2 & l2 & E2 & Hl2 & Hs2); [done|done|].
  exists p2, (l1 ++ l2). unfold forward_bt_state_if_changed, mbind, prog_bind.
  rewrite E1, E2, add_sent_app. split_and!; [done|by apply Forall_app_2|].
  by eapply same_controls_trans.
Qed.

(** The port after the buttons of a report. *)
Definition mute_button (report : list Z) : bool :=
  flag_at report kUsbInputMuteButtonOffset kUsbInputMuteButtonMask.
Definition after_buttons (report : list Z) p p' : Prop :=
  path p' = path p /\ fd p' = fd p /\ mute_button_down p' = mute_button report /\
  mic_muted p' = xorb (mic_muted p) (mute_button report && negb (mute_button_down p)).

Lemma after_buttons_same report p p1 p2 :
  after_buttons report p p1 -> same_controls p1 p2 -> after_buttons report p p2.
Proof. unfold after_buttons, same_controls. intuition congruence. Qed.

(** The button, and the plug of the microphone, on the port. *)
Definition press (report : list Z) p : port :=
  let q := if mute_button report && negb (mute_button_down p) then put_mic_muted (negb (mic_muted p)) p else p in
  put_headset_mic_plugged (flag_at report kUsbInputHeadsetOffset kUsbInputMicPluggedMask)
    (put_mute_button_down (mute_button report) q).

Lemma press_after report p : after_buttons report p (press report p).
Proof.
  unfold after_buttons, press. destruct (mute_button report), (mute_button_down p), (mic_muted p) eqn:Hm; cbn;
    rewrite ?Hm; done.
Qed.

Lemma press_ok report p : port_ok p -> port_ok (press report p).
Proof. intros []. unfold press. destruct (_ && _); by constructor. Qed.

Lemma mic_controls_quiet report bt p w :
  port_ok p -> calm w -> quietly bt (update_mic_controls report bt) p w (after_buttons report p).
Proof.
  intros Hp Hw.
  assert (quietly bt (send_mic_state bt) (press report p) w (after_buttons report p)) as Hsend.
  { eapply quietly_weaken; [apply send_mic_state_quiet; [by apply press_ok|done]|].
    intros p' Hs. eapply after_buttons_same; [apply press_after|done]. }
  assert (quietly bt (mret tt) (press report p) w (after_buttons report p)) as Hret
    by (apply quietly_ret; [done|apply press_after]).
  unfold update_mic_controls, mbind, prog_bind, the_port, update, modify. cbn [fst snd].
  unfold quietly in *. fold (mute_button report). fold (press report p).
  by destruct (_ || _).
Qed.

Lemma headset_quiet report bt : quiet bt (update_headset report bt).
Proof.
  intros p w Hp Hw. unfold quietly, update_headset, mbind, prog_bind, the_port. cbn [fst snd]. cbv zeta.
  set (b := flag_at _ _ _). destruct (Bool.eqb b (headset_plugged p)); [by apply quietly_ret|].
  assert (port_ok (put_headset_plugged b p)) as Hb by (destruct Hp; by constructor).
  destruct (audio_out_stream_active p || speaker_waveout_active p).
  - destruct (forward_quiet bt (route_audio true (put_headset_plugged b p)) w) as (p2 & l & E & Hl & Hs);
      [by apply route_ok|done|].
    exists p2, l. unfold update, modify. cbn [fst snd]. rewrite E. done.
  - by exists (put_headset_plugged b p), []; rewrite add_sent_nil by apply Hw; split_and!; try apply Forall_nil_2.
Qed.

Lemma input_report_free report bt p w :
  port_ok p -> calm w ->
  exists p' mid,
    handle_input_report report bt (p, w)
    = ((p', add_sent (mid ++ [(fd p, encode_header (mk_header VDS_FRAME_USB_HID_IN 0 (Z.of_nat (length report)) 0)
                                       ++ report)]) w), Ok tt) /\
    to_interrupt bt mid /\ after_buttons report p p'.
Proof.
  intros Hp Hw. destruct (mic_controls_quiet report bt p w Hp Hw) as (p1 & l1 & E1 & Hl1 & H1).
  assert (inv (update_mic_controls report bt (p, w)).1) as Hi
    by (apply mic_controls_safe; split; [done|apply Hw]).
  rewrite E1 in Hi. destruct Hi as [Hp1 Hw1].
  destruct (headset_quiet report bt p1 (add_sent l1 w)) as (p2 & l2 & E2 & Hl2 & H2); [done|done|].
  exists p2, (l1 ++ l2). unfold handle_input_report, mbind, prog_bind.
  rewrite E1, E2, add_sent_app, write_frame_free, add_sent_app by done.
  assert (after_buttons report p p2) as H12 by by eapply after_buttons_same.
  pose proof H12 as (_ & -> & _). split; [done|]. split; [by apply Forall_app_2|done].
Qed.
End Input.
