(* ===== verification/LinuxPortProps.v ===== *)
(** The properties of a virtual port of the Linux daemon. *)
From stdpp Require Import base list strings numbers sets.
From Stdlib Require Import Ascii ZArith Lia.
From S2P Require Import Prelude Text Words Checksum BtPacket OutputState OutputInv OutputReports Audio AudioFacts.
From S2P Require Import LinuxIo LinuxState LinuxPort LinuxInv LinuxFacts.

Local Open Scope Z_scope.

Section Port.
Context {Encoder Dec : Type} `{Codecs Encoder Dec}.
Abbreviation port := (VirtualPort Encoder Dec).

(** ** Controller state reports *)

Lemma flush_state_output bt (p : port) w :
  output_state (flush_pending_bt_state_report bt (p, w)).1.1 = output_state p.
Proof.
  unfold flush_pending_bt_state_report, mbind, prog_bind, the_port. cbn [fst snd].
  destruct (pending_bt_state_report p), (pending_bt_state p); try done.
  unfold io. cbn [fst snd]. by destruct (try_send_output_report bt _ w) as [w' [[|]|e]].
Qed.

Lemma flush_state_free bt (p : port) w st r :
  accepts_all w -> 0 <= interrupt_fd bt ->
  pending_bt_state p = Some st -> pending_bt_state_report p = Some r ->
  flush_pending_bt_state_report bt (p, w)
  = ((delivered st p, add_sent [(interrupt_fd bt, hidp_output_packet r)] w), Ok true).
Proof.
  intros Hw Hb Hst Hr. unfold flush_pending_bt_state_report, mbind, prog_bind, the_port. cbn [fst snd].
  rewrite Hst, Hr. unfold io. cbn [fst snd]. by rewrite try_send_free.
Qed.

(** After [forward_bt_state_if_changed] the newest state is the last one the controller
    got and nothing waits, or it is the one that waits, in a report that carries it; and
    what waits is what the next flush sends, once, when the channel takes it. *)
Theorem newest_state_sent_or_waiting (bt : BtL2capBackend) (p p' : port) (w w' : World) :
  port_ok p -> reads_ok w ->
  forward_bt_state_if_changed bt (p, w) = ((p', w'), Ok tt) ->
  let st := state_ (output_state p) in
  state_ (output_state p') = st
  /\ ((last_sent_bt_state p' = Some st /\ pending_bt_state p' = None)
      \/ exists r, pending_bt_state p' = Some st /\ reports_state st r
           /\ forall w2, accepts_all w2 -> 0 <= interrupt_fd bt ->
                exists p2, flush_pending_bt_state_report bt (p', w2)
                  = ((p2, add_sent [(interrupt_fd bt, hidp_output_packet r)] w2), Ok true)
                /\ last_sent_bt_state p2 = Some st /\ pending_bt_state p2 = None).
Proof.
  intros Hp Hw. unfold forward_bt_state_if_changed, mbind, prog_bind.
  assert (inv (flush_pending_bt_state_report bt (p, w)).1) as [Hp1 _]
    by (apply flush_state_safe; by split).
  pose proof (flush_state_output bt p w) as Ho.
  destruct (flush_pending_bt_state_report bt (p, w)) as [[p1 w1] [b|e]]; [|discriminate].
  cbn [fst snd] in *. rewrite <- Ho. clear Ho.
  pose proof (send_changed_spec bt p1 w1 Hp1) as E. cbv zeta in E. rewrite E. clear E.
  pose proof (ok_pending p1 Hp1) as Hpend. set (st := state_ (output_state p1)) in *.
  assert (forall (q : port) r, pending_bt_state q = Some st -> pending_bt_state_report q = Some r ->
    forall w2, accepts_all w2 -> 0 <= interrupt_fd bt ->
      exists p2, flush_pending_bt_state_report bt (q, w2)
        = ((p2, add_sent [(interrupt_fd bt, hidp_output_packet r)] w2), Ok true)
      /\ last_sent_bt_state p2 = Some st /\ pending_bt_state p2 = None) as Hflush.
  { intros q r Hq Hr w2 Hw2 Hb. exists (delivered st q). by rewrite (flush_state_free bt q w2 st r). }
  case_bool_decide as Hl.
  { case_bool_decide as Hs; intros [= <- <-]; split; try done; left; split; try done.
    destruct (pending_bt_state p1); [|done]. exfalso. by apply Hs. }
  case_bool_decide as Hs.
  { intros [= <- <-]. split; [done|]. right. rewrite Hs in Hpend.
    destruct (pending_bt_state_report p1) as [r|] eqn:Hr; [|done]. exists r.
    split; [done|]. split; [apply Hpend|]. by apply Hflush. }
  destruct (try_send_output_report bt _ w1) as [w2 [[|]|e]]; intros [= <- <-].
  - split; [done|]. by left.
  - split; [unfold deferred; by case_bool_decide|]. right.
    exists (checksummed 0xa2 (state_report_body (output_state p1))).
    split; [unfold deferred; by case_bool_decide|]. split.
    { exists (output_state p1). split; [apply Hp1|done]. }
    apply Hflush; unfold deferred; by case_bool_decide.
Qed.

(** ** Input reports *)

(** Whatever the port does about the mute button and the plugs, an input packet of the
    controller reaches the USB side unchanged: its last write is one HID_IN frame with the
    63 bytes of the packet behind report number 1, and the others are reports for the
    controller. *)
Theorem input_report_reaches_usb (bt : BtL2capBackend) (p : port) (w : World) (header : Z) (payload : list Z) :
  port_ok p -> accepts_all w -> reads_ok w ->
  Z.land header 0x0f = 1 -> (63 <= length payload)%nat ->
  exists p' mid,
    handle_packet (0xa1 :: 0x31 :: header :: payload) bt (p, w)
    = ((p', add_sent (mid ++ [(fd p, encode_header (mk_header VDS_FRAME_USB_HID_IN 0 64 0)
                                       ++ 1 :: take 63 payload)]) w), Ok tt)
    /\ to_interrupt bt mid /\ path p' = path p /\ fd p' = fd p.
Proof.
  intros Hp Hw Hr Hh Hl.
  assert (bt_input_payload_type (0xa1 :: 0x31 :: header :: payload) = Control) as Ht
    by (unfold bt_input_payload_type; cbn -[Z.land]; by rewrite Hh).
  assert (bt_input_to_usb_input (0xa1 :: 0x31 :: header :: payload) = Some (1 :: take 63 payload)) as Hin.
  { unfold bt_input_to_usb_input. rewrite Ht. change kBtInputMinimumSize with 66%nat.
    rewrite (proj2 (Nat.ltb_ge _ _)) by (cbn [length]; lia). cbn -[take drop replicate Nat.sub].
    unfold copy_into. cbn [take drop app]. change (_ - _)%nat with 63%nat.
    change (drop kBtInputUsbPayloadOffset (0xa1 :: 0x31 :: header :: payload)) with payload.
    rewrite length_take_le by done. cbn. by rewrite app_nil_r. }
  unfold handle_packet. rewrite Ht, Hin. cbn [decide].
  destruct (input_report_free (1 :: take 63 payload) bt p w Hp (conj Hw Hr)) as (p' & mid & E & Hm & Hb).
  exists p', mid. rewrite length_cons, length_take_le in E by done.
  split; [exact E|]. split; [done|]. by destruct Hb as (? & ? & _).
Qed.

(** The presses of the mute button in these reports, when it was [down] before. *)
Fixpoint presses (down : bool) (reports : list (list Z)) : nat :=
  match reports with
  | [] => 0
  | r :: rest => (if mute_button r && negb down then 1 else 0) + presses (mute_button r) rest
  end%nat.

Fixpoint handle_input_reports (reports : list (list Z)) (bt : BtL2capBackend) : prog (port * World) unit :=
  match reports with
  | [] => mret tt
  | r :: rest => _ ← handle_input_report r bt; handle_input_reports rest bt
  end.

(** The microphone is muted or not by the parity of the presses of the mute button,
    however long the button is held and however often it is reported. *)
Theorem mute_button_toggles (reports : list (list Z)) (bt : BtL2capBackend) (p : port) (w : World) :
  port_ok p -> accepts_all w -> reads_ok w ->
  exists p' w', handle_input_reports reports bt (p, w) = ((p', w'), Ok tt)
    /\ mic_muted p' = xorb (mic_muted p) (Nat.odd (presses (mute_button_down p) reports)).
Proof.
  revert p w. induction reports as [|r reports IH]; intros p w Hp Hw Hr.
  { exists p, w. split; [done|]. cbn. by destruct (mic_muted p). }
  destruct (input_report_free r bt p w Hp (conj Hw Hr)) as (p1 & mid & E & _ & _ & _ & Hd & Hm).
  assert (inv (handle_input_report r bt (p, w)).1) as [Hp1 Hr1] by (apply input_report_safe; by split).
  rewrite E in Hp1, Hr1. cbn [fst snd] in Hp1, Hr1.
  match type of E with _ = ((_, ?w1), _) =>
    destruct (IH p1 w1 Hp1) as (p' & w' & E' & Hm'); [done|done|] end.
  exists p', w'. cbn [handle_input_reports]. unfold mbind, prog_bind. rewrite E.
  split; [exact E'|]. rewrite Hm', Hm, Hd. cbn [presses]. rewrite Nat.odd_add.
  generalize (Nat.odd (presses (mute_button r) reports)). intros b.
  by destruct (mic_muted p), (mute_button r), (mute_button_down p), b.
Qed.

(** ** Feature reports *)

Lemma cached_set_eq id report (p : port) :
  cache_ok (feature_cache p) -> is_u8 id -> cached id (set_cached id report p) = Some report.
Proof.
  intros [Hl _] Hid. unfold cached, set_cached. cbn. unfold is_u8 in Hid.
  by rewrite list_lookup_insert_eq by lia.
Qed.
Lemma cached_set_ne id other report (p : port) :
  is_u8 id -> is_u8 other -> other <> id -> cached other (set_cached id report p) = cached other p.
Proof.
  intros Hid Hot Hne. unfold cached, set_cached. cbn. unfold is_u8 in *.
  by rewrite list_lookup_insert_ne by lia.
Qed.

Lemma send_feature_get_free bt id w :
  accepts_all w -> 0 <= control_fd bt ->
  send_feature_get bt id w = (add_sent [(control_fd bt, feature_get_packet id)] w, Ok tt).
Proof.
  intros Hw Hb. unfold send_feature_get. rewrite (proj2 (Z.ltb_ge _ _)) by done. by apply write_full_free.
Qed.

(** A feature request that the cache answers. *)
Lemma cached_get id more report (p : port) bt w :
  accepts_all w -> cached id p = Some report -> (length report <= VDS_FRAME_MAX_PAYLOAD)%nat ->
  exists frame, frame_bytes VDS_FRAME_USB_FEATURE_REPLY report = Ok frame /\
    handle_feature_get_frame (id :: more) bt (p, w) = ((p, add_sent [(fd p, frame)] w), Ok tt).
Proof.
  intros Hw Hc Hl. unfold frame_bytes. rewrite (proj2 (Nat.ltb_ge _ _)) by done. eexists. split; [done|].
  unfold handle_feature_get_frame, mbind, prog_bind, the_port. cbn [fst snd]. rewrite Hc.
  unfold lift, frame_bytes. rewrite (proj2 (Nat.ltb_ge _ _)) by done. by rewrite write_frame_free.
Qed.

(** A feature report the host asks for is fetched once: the request goes to the
    controller, the report that comes back goes to the host as it is and is cached, and the
    next request is answered at once with the same bytes and no traffic to the controller.
    Other reports stay cached, and a report nobody asked for is only cached. *)
Theorem feature_report_fetched_once (bt : BtL2capBackend) (p : port) (w : World) (id : Z) (rest more : list Z) :
  port_ok p -> accepts_all w -> 0 <= control_fd bt -> is_u8 id -> cached id p = None ->
  id ∉ pending_feature_reports p -> (length rest < VDS_FRAME_MAX_PAYLOAD)%nat ->
  exists p1 p2 frame,
    frame_bytes VDS_FRAME_USB_FEATURE_REPLY (id :: rest) = Ok frame
    /\ handle_feature_get_frame (id :: more) (Some bt) (p, w)
       = ((p1, add_sent [(control_fd bt, feature_get_packet id)] w), Ok tt)
    /\ (forall w1, accepts_all w1 ->
          handle_feature_report (id :: rest) (p1, w1) = ((p2, add_sent [(fd p, frame)] w1), Ok tt))
    /\ pending_feature_reports p2 = pending_feature_reports p
    /\ (forall w2, accepts_all w2 ->
          handle_feature_get_frame (id :: more) (Some bt) (p2, w2) = ((p2, add_sent [(fd p, frame)] w2), Ok tt)
          /\ exists p3, handle_feature_report (id :: rest) (p2, w2) = ((p3, w2), Ok tt))
    /\ (forall other, is_u8 other -> other <> id -> cached other p2 = cached other p).
Proof.
  intros Hp Hw Hb Hid Hc Hn Hl.
  set (p1 := put_pending_feature_reports (pending_feature_reports p ++ [id]) p).
  set (p2 := put_pending_feature_reports (pending_feature_reports p) (set_cached id (id :: rest) p1)).
  assert (cached id p2 = Some (id :: rest)) as Hc2 by (apply (cached_set_eq id (id :: rest) p1); [apply Hp|done]).
  destruct (cached_get id more (id :: rest) p2 (Some bt) (add_sent [] w)) as (frame & Hf & _); [done|done|cbn; lia|].
  assert (erase_first id (pending_feature_reports p ++ [id]) = pending_feature_reports p) as He.
  { clear -Hn. induction (pending_feature_reports p) as [|x l IH]; cbn; [by rewrite Z.eqb_refl|].
    destruct (Z.eqb_spec x id) as [->|]; [set_solver|]. rewrite IH by set_solver. done. }
  exists p1, p2, frame. split; [done|]. split_and!.
  - unfold handle_feature_get_frame, mbind, prog_bind, the_port. cbn [fst snd]. rewrite Hc.
    cbn [when_connected]. unfold update, modify, io. cbn [fst snd]. by rewrite send_feature_get_free.
  - intros w1 Hw1. unfold handle_feature_report, mbind, prog_bind, update, modify, the_port. cbn [fst snd].
    rewrite bool_decide_eq_true_2 by (cbn; set_solver). unfold lift. rewrite Hf.
    rewrite write_frame_free by done. unfold p2. cbn. by rewrite He.
  - done.
  - intros w2 Hw2. split.
    + destruct (cached_get id more (id :: rest) p2 (Some bt) w2) as (frame' & Hf' & E); [done|done|cbn; lia|].
      rewrite Hf in Hf'. injection Hf' as <-. exact E.
    + unfold handle_feature_report, mbind, prog_bind, update, modify, the_port. cbn [fst snd].
      rewrite bool_decide_eq_false_2 by done. by eexists.
  - intros other Ho Hne. by apply (cached_set_ne id other (id :: rest) p1).
Qed.

(** ** Audio *)

(** Of the chunks a packet of USB audio completes, the queue takes all, in order, and
    keeps the newest eight; each chunk that made room is counted, and the device is not
    touched. *)
Theorem audio_queue_keeps_newest (bt : BtL2capBackend) (p : port) (w : World) (payload : list Z)
    (x : PcmAudioExtractor Encoder) (chunks : list AudioChunk) :
  port_ok p -> push_usb_audio opus_encode opus_strerror payload (extractor p) = (x, Ok chunks) ->
  let all := pending_audio_chunks p ++ chunks in
  let n := (length all - kMaxPendingAudioChunks)%nat in
  exists p', handle_audio_out_frame payload (Some bt) (p, w) = ((p', w), Ok tt)
    /\ extractor p' = x /\ pending_audio_chunks p' = drop n all
    /\ (length (pending_audio_chunks p') <= 8)%nat
    /\ trace_state p' queue_dropped_audio_haptics_count
       = u64 (trace_state p queue_dropped_audio_haptics_count + Z.of_nat n)
    /\ trace_state p' dropped_audio_haptics_count = u64 (trace_state p dropped_audio_haptics_count + Z.of_nat n)
    /\ (forall c, c <> queue_dropped_audio_haptics_count -> c <> dropped_audio_haptics_count ->
          trace_state p' c = trace_state p c).
Proof.
  intros Hp Hx all n.
  assert (port_ok (put_extractor x p)) as Hp1 by (destruct Hp; by constructor).
  destruct (queue_chunks_spec chunks (put_extractor x p) Hp1) as (t & Hf & Ht). fold all n in Hf, Ht.
  exists (put_trace_state t (put_pending_audio_chunks (drop n all) (put_extractor x p))).
  split.
  { unfold handle_audio_out_frame, when_connected, mbind, prog_bind, on_extractor. cbn [fst snd].
    rewrite Hx. unfold update, modify. cbn [fst snd]. by rewrite Hf. }
  unfold room_made in Ht. split; [done|]. split; [done|]. split.
  { cbn. rewrite length_drop. unfold n, kMaxPendingAudioChunks. lia. }
  cbn [trace_state put_trace_state]. rewrite !Ht, !bump_at.
  split; [done|]. split; [done|]. intros c Hq Hd. rewrite Ht, !bump_at.
  by rewrite !decide_False.
Qed.

(** The packet of a chunk, for the port as it is. *)
Definition audio_packet (p : port) (c : AudioChunk) : list Z :=
  checksummed 0xa2 (haptics_body (haptics_builder p) (haptics c) (speaker c) (state_ (output_state p))
                      true (headset_plugged p)).

(** The clock reads this next. *)
Definition next_tick (w : World) : Z := time w + Z.of_N (default 0%N (head (ticks w))).

Lemma not_due bt (p : port) w :
  next_haptics_send_time p <> 0 -> next_tick w < next_haptics_send_time p ->
  exists w', flush_pending_audio_chunk bt (p, w) = ((p, w'), Ok true) /\ sent w' = sent w.
Proof.
  intros Hn Ht. unfold flush_pending_audio_chunk, mbind, prog_bind, the_port. cbn [fst snd].
  destruct (length (pending_audio_chunks p) =? 0)%nat; [by exists w|].
  unfold io, clock_now. cbn [fst snd]. fold (next_tick w).
  rewrite (proj2 (Z.eqb_neq _ _)), (proj2 (Z.ltb_lt _ _)) by done. cbn [negb andb]. by eexists.
Qed.

(** When a chunk waits and its time has come, one packet with the oldest of the newest
    four, and the current state, goes to the controller, and the queue holds the ones after
    it; the controller then has that state.  The next packet has to wait ten milliseconds,
    whatever is queued in between. *)
Theorem audio_output_paced (bt : BtL2capBackend) (p : port) (w : World) (chunk : AudioChunk) (rest : list AudioChunk) :
  port_ok p -> accepts_all w -> 0 <= interrupt_fd bt -> 0 <= next_tick w ->
  drop (length (pending_audio_chunks p) - 4) (pending_audio_chunks p) = chunk :: rest -> chunk_ok chunk ->
  next_haptics_send_time p = 0 \/ next_haptics_send_time p <= next_tick w ->
  exists p' w', flush_pending_audio_chunk bt (p, w) = ((p', w'), Ok true)
    /\ sent w' = sent w ++ [(interrupt_fd bt, hidp_output_packet (audio_packet p chunk))]
    /\ pending_audio_chunks p' = rest
    /\ last_sent_bt_state p' = Some (state_ (output_state p))
    /\ (forall (q : port) w2, next_haptics_send_time q = next_haptics_send_time p' ->
          next_tick w2 < next_tick w + 10000000 ->
          exists w3, flush_pending_audio_chunk bt (q, w2) = ((q, w3), Ok true) /\ sent w3 = sent w2).
Proof.
  intros Hp Hw Hb H0 Hq [Hh [Hs Hsb]] Hdue.
  unfold flush_pending_audio_chunk at 1, mbind, prog_bind, the_port. cbn [fst snd].
  destruct (Nat.eqb_spec (length (pending_audio_chunks p)) 0) as [Hz|Hz].
  { apply nil_length_inv in Hz. rewrite Hz in Hq. discriminate. }
  unfold io at 1, clock_now at 1. cbn [fst snd]. fold (next_tick w).
  assert (negb (next_haptics_send_time p =? 0) && (next_tick w <? next_haptics_send_time p) = false) as ->.
  { destruct Hdue as [->|Hd]; [done|]. rewrite (proj2 (Z.ltb_ge _ _)) by done. apply andb_false_r. }
  unfold update at 1, modify at 1. cbn [fst snd].
  set (w1 := set_time _ _ w).
  change (pending_audio_chunks (drop_stale p))
    with (drop (length (pending_audio_chunks p) - kFreshPendingAudioChunks) (pending_audio_chunks p)).
  unfold kFreshPendingAudioChunks. rewrite Hq. unfold on_builder. cbn [fst snd].
  change (haptics_builder (drop_stale p)) with (haptics_builder p).
  change (state_ (output_state (drop_stale p))) with (state_ (output_state p)).
  change (headset_plugged (drop_stale p)) with (headset_plugged p).
  rewrite build_packet_spec; [|apply Hp|done|done|apply ok_length, Hp|done|apply state_bytes_ok, Hp].
  unfold io, clock_now. cbn [fst snd].
  fold (audio_packet p chunk). 
  match goal with |- context [try_send_output_report bt _ ?w2] =>
    rewrite (try_send_free bt (audio_packet p chunk) w2) by done end.
  cbn [negb]. unfold update, modify. cbn [fst snd].
  eexists _, _. split; [reflexivity|]. split; [done|].
  split; [|split; [by case_bool_decide|]].
  { transitivity (tail (pending_audio_chunks (drop_stale p))); [by case_bool_decide|].
    change (pending_audio_chunks (drop_stale p))
      with (drop (length (pending_audio_chunks p) - 4) (pending_audio_chunks p)). by rewrite Hq. }
  intros q w2 Hn Ht. apply not_due; rewrite Hn; cbn; unfold kAudioOutputInterval; lia.
Qed.
End Port.

(** ** The properties at concrete ports *)

(** An encoder that counts its calls, and gives silence. *)
#[local] Instance demo_codecs : Codecs Z Z := {|
  opus_encode e pcm := (e + 1, (200, replicate 200 0));
  opus_decode d payload := (d + 1, (2, [100; -3]));
  opus_strerror _ := "error";
  create_encoder := Ok 0;
  create_decoder := Ok 0;
  waveout_sample phase := phase
|}.
Definition demo_extractor : PcmAudioExtractor Z :=
  mk_extractor 0 (replicate 8 0) (replicate 1024 0) (replicate 1024 0) 16 0 0 false false.
Definition demo_port : VirtualPort Z Z :=
  mk_port "/dev/vds0" 5 demo_extractor demo_extractor 0 (mk_builder 0 0) initial_output_state []
    None None None 0 false false false false false false true false 0 (replicate 256 None) [] no_stats.
Definition demo_world : World := mk_world [] [] [] [] 0 [] [] [] [].
Definition busy_world : World := mk_world [WriteError EAGAIN] [] [] [] 0 [] [] [] [].
Definition demo_backend : BtL2capBackend := mk_backend "00:11:22:33:44:55" 6 7.
Definition demo_chunk (n : Z) : AudioChunk := mk_chunk (replicate 64 n) (replicate 200 n) true true.

Lemma demo_port_ok : port_ok demo_port.
Proof. apply fresh_port_ok. Qed.
Lemma demo_reads_ok : reads_ok demo_world.
Proof. apply Forall_nil_2. Qed.

Lemma busy_reads_ok : reads_ok busy_world.
Proof. apply Forall_nil_2. Qed.

Lemma newest_state_sent_or_waiting_witness :
  forward_bt_state_if_changed demo_backend (demo_port, busy_world)
  = ((deferred (state_ initial_output_state)
        (checksummed 0xa2 (state_report_body initial_output_state))
        (put_output_state (set_report_sequence 1 initial_output_state) demo_port), demo_world), Ok tt) /\
  exists r, reports_state (state_ initial_output_state) r.
Proof.
  assert (forward_bt_state_if_changed demo_backend (demo_port, busy_world)
    = ((deferred (state_ initial_output_state)
        (checksummed 0xa2 (state_report_body initial_output_state))
        (put_output_state (set_report_sequence 1 initial_output_state) demo_port), demo_world), Ok tt)) as E
    by (vm_compute; reflexivity).
  split; [exact E|].
  destruct (newest_state_sent_or_waiting _ _ _ _ _ demo_port_ok busy_reads_ok E) as [_ [[Hl _]|(r & _ & Hr & _)]].
  - discriminate Hl.
  - exists r. exact Hr.
Defined.

Lemma input_report_reaches_usb_witness :
  exists p' mid,
    handle_packet (0xa1 :: 0x31 :: 1 :: replicate 70 9) demo_backend (demo_port, demo_world)
    = ((p', add_sent (mid ++ [(5, encode_header (mk_header VDS_FRAME_USB_HID_IN 0 64 0)
                                       ++ 1 :: take 63 (replicate 70 9))]) demo_world), Ok tt).
Proof.
  destruct (input_report_reaches_usb demo_backend demo_port demo_world 1 (replicate 70 9)) as (p' & mid & E & _).
  - apply demo_port_ok.
  - reflexivity.
  - apply demo_reads_ok.
  - reflexivity.
  - apply Nat.leb_le. reflexivity.
  - exists p', mid. exact E.
Defined.

(** Held for two reports, released, pressed again, and once more. *)
Definition demo_presses : list (list Z) :=
  (fun b => <[kUsbInputMuteButtonOffset := b]> (replicate 64 0)) <$> [4; 4; 0; 4; 0; 4].
Lemma mute_button_toggles_witness :
  exists p' w', handle_input_reports demo_presses demo_backend (demo_port, demo_world) = ((p', w'), Ok tt)
    /\ mic_muted p' = true.
Proof.
  destruct (mute_button_toggles demo_presses demo_backend demo_port demo_world) as (p' & w' & E & Hm).
  - apply demo_port_ok.
  - reflexivity.
  - apply demo_reads_ok.
  - exists p', w'. split; [exact E|]. rewrite Hm. vm_compute. reflexivity.
Defined.

Lemma feature_report_fetched_once_witness :
  exists p1 p2 frame,
    handle_feature_get_frame [9] (Some demo_backend) (demo_port, demo_world)
    = ((p1, add_sent [(6, [0x43; 9])] demo_world), Ok tt)
    /\ handle_feature_report [9; 1; 2] (p1, demo_world) = ((p2, add_sent [(5, frame)] demo_world), Ok tt).
Proof.
  destruct (feature_report_fetched_once demo_backend demo_port demo_world 9 [1; 2] [])
    as (p1 & p2 & frame & _ & E1 & E2 & _).
  - apply demo_port_ok.
  - reflexivity.
  - vm_compute. discriminate.
  - split; [discriminate|reflexivity].
  - reflexivity.
  - apply not_elem_of_nil.
  - apply Nat.ltb_lt. reflexivity.
  - exists p1, p2, frame. split; [exact E1|]. apply E2. reflexivity.
Defined.

Lemma audio_queue_keeps_newest_witness :
  exists x chunks p',
    push_usb_audio opus_encode opus_strerror (replicate 128 1) demo_extractor = (x, Ok chunks)
    /\ handle_audio_out_frame (replicate 128 1) (Some demo_backend)
         (put_pending_audio_chunks (replicate 8 (demo_chunk 0)) demo_port, demo_world) = ((p', demo_world), Ok tt)
    /\ pending_audio_chunks p' = drop 1 (replicate 8 (demo_chunk 0) ++ chunks).
Proof.
  destruct (push_usb_audio opus_encode opus_strerror (replicate 128 1) demo_extractor) as [x [chunks|e]] eqn:E;
    [|vm_compute in E; discriminate E].
  assert (port_ok (put_pending_audio_chunks (replicate 8 (demo_chunk 0)) demo_port)) as Hp
    by (destruct demo_port_ok; constructor; auto).
  destruct (audio_queue_keeps_newest demo_backend _ demo_world _ x chunks Hp E) as (p' & Hr & _ & Hq & _).
  exists x, chunks, p'. split; [reflexivity|]. split; [exact Hr|]. rewrite Hq. f_equal.
  vm_compute in E. injection E as _ <-. reflexivity.
Defined.

Lemma audio_output_paced_witness :
  exists p' w', flush_pending_audio_chunk demo_backend
      (put_pending_audio_chunks (demo_chunk <$> [1; 2; 3; 4; 5; 6]) demo_port, demo_world) = ((p', w'), Ok true)
    /\ pending_audio_chunks p' = demo_chunk <$> [4; 5; 6].
Proof.
  assert (port_ok (put_pending_audio_chunks (demo_chunk <$> [1; 2; 3; 4; 5; 6]) demo_port)) as Hp.
  { destruct demo_port_ok. constructor; auto. apply Nat.leb_le. reflexivity. }
  destruct (audio_output_paced demo_backend _ demo_world (demo_chunk 3) (demo_chunk <$> [4; 5; 6]) Hp)
    as (p' & w' & E & _ & Hq & _).
  - reflexivity.
  - vm_compute. discriminate.
  - vm_compute. discriminate.
  - reflexivity.
  - split; [reflexivity|]. split; [reflexivity|]. apply Forall_replicate. split; [discriminate|reflexivity].
  - left. reflexivity.
  - exists p', w'. split; [exact E|exact Hq].
Defined.
