(* ===== verification/LinuxDaemonInv.v ===== *)
(** The invariant of the Linux daemon: its ports are well-formed, and no two controllers
    in use share a device.  Every operation keeps it, however it ends. *)
From stdpp Require Import base list strings numbers.
From Stdlib Require Import Ascii ZArith Lia.
From S2P Require Import Prelude Text Words BtPacket OutputState OutputInv OutputReports Audio Store Config.
From S2P Require Import Control Profile LinuxIo LinuxState LinuxPort LinuxInv LinuxFacts LinuxDaemon.
From S2P Require Import LinuxConnect LinuxReload LinuxLoop.

Local Open Scope Z_scope.

(** ** Connecting a port *)

Section Connect.
Context {Encoder Dec : Type} `{Codecs Encoder Dec}.
Abbreviation port := (VirtualPort Encoder Dec).

(** Up to the last step of [connect_port] no report waits. *)
Definition none_waits (s : port * World) : Prop := inv s /\ pending_bt_state s.1 = None.
Abbreviation safe := (preserves (keeps none_waits)).

Lemma io_none {A} (m : prog World A) : world_safe m -> safe (io m).
Proof.
  intros Hm [p w] [[Hp Hw] Hn]. unfold io. specialize (Hm w Hw). cbn [fst snd] in *. by destruct (m w).
Qed.
Lemma port_none : safe the_port.
Proof. intros s Hs. exact Hs. Qed.
Lemma state_none : safe get_state.
Proof. intros s Hs. exact Hs. Qed.
Hint Extern 2 (safe (io _)) => apply io_none; solve_preserves : preserves.
Hint Resolve port_none state_none : preserves.

Lemma ioctl_none name arg : safe (ioctl_with name arg).
Proof. unfold ioctl_with. solve_preserves. Qed.

Lemma write_frame_none bytes : safe (write_vds_frame bytes).
Proof.
  intros [p w] [[Hp Hw] Hn]. split; [by apply write_frame_safe|].
  pose proof (write_frame_outcome bytes p w) as Ho. 
  destruct (write_vds_frame bytes (p, w)) as [[p' w'] [[|]|e]]; [destruct Ho as [-> _]..|subst p']; done.
Qed.
Hint Resolve ioctl_none write_frame_none : preserves.

Lemma cache_report_none report : bytes_ok report -> safe (cache_feature_report report).
Proof.
  intros Hr. unfold cache_feature_report. destruct report as [|id rest]; [solve_preserves|].
  apply Forall_cons_1 in Hr as [Hid _].
  apply preserves_bind; [typeclasses eauto| |intros; solve_preserves].
  intros [p w] [[Hp Hw] Hn]. split; [split; [by apply set_cached_ok|done]|done].
Qed.

Lemma await_none n bt id : safe (await_feature_report n bt id).
Proof.
  induction n as [|n IH]; cbn [await_feature_report]; [solve_preserves|].
  apply preserves_bind; [typeclasses eauto|auto with preserves|intros a].
  destruct a as [[|] [|]| |[| | |]]; try solve [solve_preserves].
  apply (preserves_bind_gives _ report_ok).
  - intros [p w] [[Hp Hw] Hn]. destruct (io_gives report_ok _ (read_feature_ok bt) (p, w) (conj Hp Hw)) as [Hi Hq].
    split; [|exact Hq]. split; [exact Hi|]. revert Hn. unfold io. cbn [fst snd].
    by destruct (read_feature_report bt w).
  - intros [[|z rest]|] Hr; [done| |done].
    apply preserves_bind; [typeclasses eauto| |intros; solve_preserves].
    apply cache_report_none. by apply Hr.
Qed.

Lemma initialize_none ids bt : safe (initialize_bt_loop ids bt).
Proof.
  pose proof await_none. induction ids as [|id ids IH]; cbn [initialize_bt_loop]; solve_preserves.
Qed.

Lemma init_report_none : safe (on_output build_bt_init_report).
Proof.
  intros s [Hi Hn]. split; [by apply init_report_safe|]. unfold on_output.
  by destruct (build_bt_init_report _).
Qed.

Lemma sent_state_none : safe (update (fun p : port => put_last_sent_bt_state (Some (state_ (output_state p))) p)).
Proof.
  intros [p w] [[Hp Hw] Hn]. cbn [fst snd] in *. split; [|done]. split; [|done].
  destruct Hp as [? ? ? Hpend]. constructor; try done. cbn in *. rewrite Hn in *.
  by destruct (pending_bt_state_report p).
Qed.

Lemma connect_port_safe bt profile_ : preserves (keeps inv) (connect_port bt profile_).
Proof.
  intros s Hs. unfold connect_port. unfold mbind at 1, prog_bind at 1.
  assert (inv (reset_virtual_port s).1) as Hi by by apply reset_safe.
  assert (forall s1, reset_virtual_port s = (s1, Ok tt) -> pending_bt_state s1.1 = None) as Hn.
  { intros s1. unfold reset_virtual_port, mbind, prog_bind, lift, update, modify. destruct s as [p w].
    destruct fresh_extractor as [x|e]; [|discriminate].
    destruct create_decoder as [d|e]; [|discriminate]. by intros [= <-]. }
  destruct (reset_virtual_port s) as [s1 [[]|e]]; [|exact Hi]. specialize (Hn s1 eq_refl).
  assert (safe (_ ← ioctl_noarg "VDS_IOC_DISCONNECT"; _ ← ioctl_set_profile profile_;
                _ ← initialize_bt_controller bt; report ← on_output build_bt_init_report;
                _ ← io (send_output_report bt report);
                update (fun p => put_last_sent_bt_state (Some (state_ (output_state p))) p))) as Hc.
  { pose proof initialize_none. pose proof init_report_none. pose proof sent_state_none.
    unfold ioctl_noarg, ioctl_set_profile, initialize_bt_controller. solve_preserves. }
  apply (Hc s1). by split.
Qed.
End Connect.
#[export] Hint Resolve connect_port_safe : preserves.

(** ** Devices *)

(** A controller that counts as one that uses its device: it does, or it is the [extra]
    one, which is being connected. *)
Definition claims (extra : option nat) (i : nat) (c : ControllerRuntime) : Prop :=
  controller_uses_port c = true \/ extra = Some i.

Definition exclusive (extra : option nat) (cs : list ControllerRuntime) : Prop :=
  forall i j ci cj, i <> j -> cs !! i = Some ci -> cs !! j = Some cj ->
    claims extra i ci -> claims extra j cj -> device ci = device cj -> device ci = "".

Lemma exclusive_weaken i cs : exclusive (Some i) cs -> exclusive None cs.
Proof.
  intros H a b ca cb Hab Ha Hb [Hua|] [Hub|]; try done. apply (H a b); try done; by left.
Qed.

(** A change of a controller that claims nothing new. *)
Definition modest (f : ControllerRuntime -> ControllerRuntime) : Prop :=
  forall c, device (f c) = "" \/
    (device (f c) = device c /\ (controller_uses_port (f c) = true -> controller_uses_port c = true)).

Lemma exclusive_alter extra f i cs : modest f -> exclusive extra cs -> exclusive extra (alter f i cs).
Proof.
  intros Hf Hx a b ca cb Hab Ha Hb Hca Hcb Hd.
  assert (forall k ck, alter f i cs !! k = Some ck -> claims extra k ck ->
    exists c0, cs !! k = Some c0 /\ (device ck = "" \/ (device ck = device c0 /\ claims extra k c0))) as Hold.
  { intros k ck Hk Hc. rewrite list_lookup_alter in Hk. case_decide as Hik; [subst k|by exists ck; auto].
    destruct (cs !! i) as [c0|]; [|done]. injection Hk as <-. exists c0. split; [done|].
    destruct (Hf c0) as [|[Hd0 Hu]]; [by left|right]. split; [done|]. destruct Hc as [Hc|]; [left; auto|by right]. }
  destruct (Hold a ca Ha Hca) as (c0 & Ha0 & [?|[Hda Hc0]]); [done|].
  destruct (Hold b cb Hb Hcb) as (c1 & Hb1 & [?|[Hdb Hc1]]); [congruence|].
  rewrite Hda. apply (Hx a b c0 c1); try done. congruence.
Qed.

(** A change of the controller that is being connected. *)
Lemma exclusive_own f i cs :
  (forall c, device (f c) = "" \/ device (f c) = device c) ->
  exclusive (Some i) cs -> exclusive (Some i) (alter f i cs).
Proof.
  intros Hf Hx a b ca cb Hab Ha Hb Hca Hcb Hd.
  assert (forall k ck, alter f i cs !! k = Some ck -> claims (Some i) k ck ->
    exists c0, cs !! k = Some c0 /\ claims (Some i) k c0 /\ (device ck = "" \/ device ck = device c0)) as Hold.
  { intros k ck Hk Hc. rewrite list_lookup_alter in Hk. case_decide as Hik; [subst k|by exists ck; auto].
    destruct (cs !! i) as [c0|]; [|done]. injection Hk as <-. exists c0. split; [done|].
    split; [by right|apply Hf]. }
  destruct (Hold a ca Ha Hca) as (c0 & Ha0 & Hc0 & [?|Hda]); [done|].
  destruct (Hold b cb Hb Hcb) as (c1 & Hb1 & Hc1 & [?|Hdb]); [congruence|].
  rewrite Hda. apply (Hx a b c0 c1); try done. congruence.
Qed.

Create HintDb modest.
Lemma released_modest : modest released.
Proof. intros c. by left. Qed.
Lemma error_modest e : modest (with_error e).
Proof. intros c. by right. Qed.
Lemma idle_modest e : modest (fun c => idle_runtime (config c) (detected_profile c) e).
Proof. intros c. by left. Qed.
Lemma moved_out_modest : modest moved_out.
Proof. intros c. by left. Qed.
#[export] Hint Resolve released_modest error_modest idle_modest moved_out_modest : modest.

Section Inv.
Context {Encoder Dec W : Type} `{Codecs Encoder Dec}.
Abbreviation port := (VirtualPort Encoder Dec).
Abbreviation Daemon := (Daemon Encoder Dec W).
Implicit Types (d : Daemon).

Record daemon_ok (extra : option nat) d : Prop := {
  ok_ports : Forall port_ok (ports d);
  ok_reads : reads_ok (world d);
  ok_exclusive : exclusive extra (controllers d)
}.
Abbreviation dsafe extra := (preserves (keeps (daemon_ok extra))).

Lemma on_port_safe {A} extra j (m : prog (port * World) A) :
  preserves (keeps inv) m -> dsafe extra (on_port j m).
Proof.
  intros Hm d [Hp Hr Hx]. unfold on_port. destruct (ports d !! j) as [p|] eqn:Hj; [|done].
  assert (inv (p, world d)) as Hi by (split; [by eapply Forall_lookup_1|done]).
  specialize (Hm _ Hi). destruct (m (p, world d)) as [[p' w'] r]. destruct Hm as [Hp' Hw'].
  constructor; try done. cbn. by apply Forall_insert.
Qed.
Lemma on_world_safe {A} extra (m : prog World A) :
  preserves (keeps reads_ok) m -> dsafe extra (on_world m).
Proof.
  intros Hm d [Hp Hr Hx]. unfold on_world. specialize (Hm _ Hr). by destruct (m (world d)) as [w' r].
Qed.
Lemma on_host_safe {A} extra (m : prog Host A) : dsafe extra (on_host m).
Proof. intros d [Hp Hr Hx]. unfold on_host. by destruct (m (host d)) as [h r]. Qed.
Lemma on_shared_safe {A} extra (m : prog (W * Control.Vars) A) : dsafe extra (on_shared m).
Proof. intros d [Hp Hr Hx]. unfold on_shared. by destruct (m (files d, vars d)) as [s r]. Qed.
Lemma on_controller_safe extra i f : modest f -> dsafe extra (on_controller (Encoder:=Encoder) (Dec:=Dec) (W:=W) i f).
Proof. intros Hf d [Hp Hr Hx]. constructor; try done. by apply exclusive_alter. Qed.
Lemma on_own_safe i f :
  (forall c, device (f c) = "" \/ device (f c) = device c) ->
  dsafe (Some i) (on_controller (Encoder:=Encoder) (Dec:=Dec) (W:=W) i f).
Proof. intros Hf d [Hp Hr Hx]. constructor; try done. by apply exclusive_own. Qed.
Lemma mark_dirty_safe extra : dsafe extra mark_dirty.
Proof. by intros d []. Qed.
Lemma get_state_safe extra : dsafe extra get_state.
Proof. intros d Hd. exact Hd. Qed.

Hint Extern 2 (dsafe _ (on_port _ _)) => apply on_port_safe; solve_preserves : preserves.
Hint Extern 2 (dsafe _ (on_world _)) => apply on_world_safe; solve_preserves : preserves.
Hint Extern 2 (dsafe _ (on_controller _ _)) => apply on_controller_safe; auto with modest : preserves.
Hint Resolve on_host_safe on_shared_safe mark_dirty_safe get_state_safe : preserves.

Lemma modify_safe extra (f : Daemon -> Daemon) :
  (forall d, daemon_ok extra d -> daemon_ok extra (f d)) -> dsafe extra (modify f).
Proof. intros Hf d Hd. by apply Hf. Qed.

Lemma sleep_safe ns : preserves (keeps reads_ok) (sleep_for ns).
Proof. intros w Hw. exact Hw. Qed.
Hint Resolve sleep_safe : preserves.

(** *** Connecting *)

Lemma drop_safe extra i j : dsafe extra (drop_bt_backend i j).
Proof.
  unfold drop_bt_backend. solve_preserves.
  apply on_port_safe, update_safe, clear_pending_ok.
Qed.

Lemma resolve_safe extra cfg : dsafe extra (resolve_config_profile cfg).
Proof. unfold resolve_config_profile, detect_bluetooth_profile. solve_preserves. Qed.

Lemma preempt_safe extra a : dsafe extra (preempt_default_bluetooth_owner a).
Proof.
  assert (forall n deadline, dsafe extra (preempt_wait n a deadline)) as Hw
    by (induction n; intros; cbn [preempt_wait]; unfold hid_present; solve_preserves).
  unfold preempt_default_bluetooth_owner, hid_present. solve_preserves.
Qed.
Hint Resolve drop_safe resolve_safe preempt_safe : preserves.

Lemma complete_safe i j : dsafe (Some i) (complete_pending_controller i j).
Proof.
  unfold complete_pending_controller. solve_preserves; apply on_own_safe; intros c'; by right.
Qed.
Hint Resolve complete_safe : preserves.

Lemma channels_safe i : dsafe (Some i) (complete_channels i).
Proof.
  unfold complete_channels. solve_preserves.
  apply on_controller_safe. intros c'. by left.
Qed.
Hint Resolve channels_safe : preserves.

Lemma both_safe i : dsafe (Some i) (both_channels i).
Proof. unfold both_channels. solve_preserves. Qed.

(** *** Accepting channels *)

Lemma exclusive_claim i c cs cs' :
  (forall k, k <> i -> cs' !! k = cs !! k) -> cs' !! i = Some c -> exclusive None cs ->
  (forall j cj, j <> i -> cs !! j = Some cj -> controller_uses_port cj = true -> device cj <> device c) ->
  exclusive (Some i) cs'.
Proof.
  intros Hsame Hi Hx Hfree a b ca cb Hab Ha Hb Hca Hcb Hd.
  destruct (decide (a = i)) as [->|Hai].
  - rewrite Hi in Ha. injection Ha as <-. rewrite Hsame in Hb by done.
    destruct Hcb as [Hcb|[= ->]]; [|done]. by destruct (Hfree b cb).
  - destruct Hca as [Hca|[= ->]]; [|done]. rewrite Hsame in Ha by done.
    destruct (decide (b = i)) as [->|Hbi].
    + rewrite Hi in Hb. injection Hb as <-. by destruct (Hfree a ca).
    + rewrite Hsame in Hb by done. destruct Hcb as [Hcb|[= ->]]; [|done].
      apply (Hx a b ca cb); try done; by left.
Qed.

Lemma others_lookup i j (cs : list ControllerRuntime) c : j <> i -> cs !! j = Some c -> c ∈ others i cs.
Proof.
  intros Hj Hc. apply list_elem_of_lookup. unfold others. destruct (decide (j < i)%nat) as [Hl|Hl].
  - exists j. by rewrite list_lookup_delete_lt.
  - exists (pred j). rewrite list_lookup_delete_ge by lia. by replace (S (pred j)) with j by lia.
Qed.

Lemma not_used_elsewhere i cs dev :
  port_used_by_other_controller cs i dev = false ->
  forall j cj, j <> i -> cs !! j = Some cj -> controller_uses_port cj = true -> device cj <> dev.
Proof.
  intros Hu j cj Hj Hc Huse Hd. revert Hu. apply not_false_iff_true. apply existsb_exists. exists cj.
  split; [apply list_elem_of_In; by eapply others_lookup|]. by rewrite bool_decide_eq_true_2, Huse.
Qed.

Lemma selected_not_occupied targets present occupied n :
  select_port_loop targets present occupied = Some n -> n ∉ occupied.
Proof.
  induction targets as [|t targets IH]; cbn; [discriminate|].
  repeat case_decide; auto. by intros [= <-].
Qed.

Lemma available_free ps cs i j (p : port) :
  available_port_index ps cs i = Some j -> ps !! j = Some p ->
  forall k ck, k <> i -> cs !! k = Some ck -> controller_uses_port ck = true -> device ck <> path p.
Proof.
  unfold available_port_index. destruct (cs !! i) as [c|]; [|discriminate].
  destruct (select_controller_config_port _ _ _) as [n|] eqn:Hs; [|discriminate].
  intros Hf Hj k ck Hk Hc Hu Hd. apply selected_not_occupied in Hs. apply Hs.
  destruct (list_find _ ps) as [[j' p']|] eqn:Hl; [|discriminate]. injection Hf as ->.
  apply list_find_Some in Hl as (Hp' & Hidx & _). rewrite Hj in Hp'. injection Hp' as ->.
  apply list_elem_of_omap. exists ck. split; [by eapply others_lookup|]. by rewrite Hu, Hd.
Qed.

Lemma assign_safe i c d :
  daemon_ok None d -> controllers d !! i = Some c ->
  let '(d', r) := assign_port i c d in
  match r with Ok true => daemon_ok (Some i) d' | _ => daemon_ok None d' end.
Proof.
  intros Hd Hi. unfold assign_port, mbind, prog_bind, get_state. cbv zeta.
  assert (forall e, daemon_ok None (on_controller i (with_error e) d).1) as Herr
    by (intros e; apply on_controller_safe; auto with modest).
  destruct (bool_decide _ && _) eqn:Hown.
  - apply andb_true_iff in Hown as [_ Hown]. apply negb_true_iff in Hown.
    destruct Hd as [Hp Hr Hx]. constructor; try done.
    eapply exclusive_claim; [done|exact Hi|done|]. by apply not_used_elsewhere.
  - destruct (length (ports d) =? 0)%nat; [apply Herr|].
    destruct (available_port_index (ports d) (controllers d) i) as [j|] eqn:Hav; [|apply Herr].
    destruct (ports d !! j) as [p|] eqn:Hj; [|cbn; rewrite Hj; apply Herr].
    cbn. rewrite Hj. cbn. destruct Hd as [Hp Hr Hx]. constructor; try done.
    eapply (exclusive_claim i (with_device (path p) c)); [| |exact Hx|].
    + intros k Hk. cbn. by rewrite list_lookup_alter_ne.
    + cbn. by rewrite list_lookup_alter_eq, Hi.
    + by apply (available_free (ports d) (controllers d) i j p).
Qed.

Lemma accept_safe control from fd_ : dsafe None (accept_channel control from fd_).
Proof.
  intros d Hd. unfold accept_channel. unfold mbind at 1, prog_bind at 1, get_state at 1.
  destruct (controller_for_address (controllers d) from) as [i|]; [|done].
  destruct (controllers d !! i) as [c|] eqn:Hi; [|done]. destruct (is_open (backend c)); [done|].
  pose proof (assign_safe i c d Hd Hi) as Ha. unfold mbind at 1, prog_bind at 1.
  destruct (assign_port i c d) as [d1 [[|]|e]]; cbn [fst negb]; try done.
  assert (dsafe (Some i) (_ ← on_controller i (store_channel control fd_); both_channels i)) as Hs.
  { pose proof both_safe. solve_preserves. apply on_own_safe. intros c'. right. by destruct control. }
  specialize (Hs d1 Ha). destruct Hs as [Hp Hr Hx]. constructor; try done. by eapply exclusive_weaken.
Qed.

Lemma handle_accept_safe control : dsafe None (handle_bt_accept control).
Proof.
  assert (forall n, dsafe None (accept_loop n control)) as Hl.
  { pose proof accept_safe. induction n; cbn [accept_loop]; solve_preserves. }
  unfold handle_bt_accept. solve_preserves.
Qed.

(** *** Reloading *)

Lemma disconnect_device_safe extra dev : dsafe extra (disconnect_device dev).
Proof. unfold disconnect_device. solve_preserves. Qed.
Hint Resolve disconnect_device_safe : preserves.

Lemma release_missing_safe n i devices : dsafe None (release_missing n i devices).
Proof. revert i. induction n as [|n IH]; intros i; cbn [release_missing]; solve_preserves. Qed.

Lemma moved_from_ok (p : port) : port_ok p -> port_ok (moved_from p).
Proof. intros []. constructor; try done. cbn. apply Nat.le_0_l. Qed.

Lemma new_port_ok dev fd_ (p : port) : new_port dev fd_ = Ok p -> port_ok p.
Proof.
  unfold new_port. destruct fresh_extractor as [x|e]; [|discriminate].
  destruct create_decoder as [c|e]; [|discriminate]. cbn. intros [= <-]. apply fresh_port_ok.
Qed.

Lemma sync_loop_gives devices (updated : list port) :
  Forall port_ok updated -> gives (daemon_ok None) (Forall port_ok) (sync_loop devices updated).
Proof.
  revert updated. induction devices as [|dev devices IH]; intros updated Hu.
  { intros d Hd. split; [done|]. by intros a [= <-]. }
  cbn [sync_loop]. apply gives_get. intros d Hd.
  destruct (list_find _ (ports d)) as [[i p]|] eqn:Hf.
  - apply list_find_Some in Hf as (Hi & _ & _).
    assert (port_ok p) as Hp by (eapply Forall_lookup_1; [apply Hd|done]).
    apply (IH (updated ++ [p])); [by apply Forall_app_2; [|constructor]|].
    destruct Hd as [Hps Hr Hx]. constructor; try done. by apply Forall_insert, moved_from_ok.
  - revert d Hd Hf. intros d Hd _. revert d Hd.
    apply (gives_bind _ (fun _ => True)); [apply preserves_gives, on_host_safe|intros fd_ _].
    apply (gives_bind _ (fun _ => True)); [apply preserves_gives; solve_preserves|intros _ _].
    apply (gives_bind _ port_ok).
    + intros d Hd. split; [done|]. intros p Hp. exact (new_port_ok dev fd_ p Hp).
    + intros p Hp. apply IH. by apply Forall_app_2; [|constructor].
Qed.

Lemma sync_safe devices : dsafe None (sync_virtual_ports devices).
Proof.
  unfold sync_virtual_ports. apply (preserves_bind_gives _ (Forall port_ok)).
  - by apply sync_loop_gives.
  - intros ps Hps. apply modify_safe. intros d []. by constructor.
Qed.

(** The controllers so far, and the devices they use. *)
Definition next_ok (active : list string) (next : list ControllerRuntime) : Prop :=
  (forall i c, next !! i = Some c -> controller_uses_port c = true -> device c ∈ active)
  /\ exclusive None next.

Lemma next_idle cfg profile_ e active next :
  next_ok active next -> next_ok active (next ++ [idle_runtime cfg profile_ e]).
Proof.
  assert (forall i c, (next ++ [idle_runtime cfg profile_ e]) !! i = Some c -> controller_uses_port c = true ->
            next !! i = Some c) as Hn.
  { intros i c Hi Hu. apply lookup_app_Some in Hi as [Hi|[_ Hi]]; [done|].
    apply list_lookup_singleton_Some in Hi as [_ <-]. discriminate Hu. }
  intros [Ha Hx]. split; [by eauto|]. intros a b ca cb Hab Hia Hib [Hua|] [Hub|]; try done.
  apply (Hx a b); auto; by left.
Qed.

Lemma next_adopt c active next :
  next_ok active next -> device c ∉ active -> next_ok (active ++ [device c]) (next ++ [c]).
Proof.
  intros [Ha Hx] Hn.
  assert (forall i ci, (next ++ [c]) !! i = Some ci -> controller_uses_port ci = true ->
            (next !! i = Some ci /\ device ci ∈ active) \/ (i = length next /\ ci = c)) as Hcase.
  { intros i ci Hi Hu. apply lookup_app_Some in Hi as [Hi|[Hl Hi]]; [left; eauto|right].
    apply list_lookup_singleton_Some in Hi as [Hi <-]. split; [lia|done]. }
  split.
  - intros i ci Hi Hu. apply elem_of_app. destruct (Hcase i ci Hi Hu) as [[_ ?]|[_ ->]]; [by left|right].
    by apply list_elem_of_singleton.
  - intros a b ca cb Hab Hia Hib [Hua|] [Hub|] Hd; try done.
    destruct (Hcase a ca Hia Hua) as [[Hia' Hda]|[-> ->]], (Hcase b cb Hib Hub) as [[Hib' Hdb]|[-> ->]].
    + apply (Hx a b ca cb); try done; by left.
    + by rewrite Hd in Hda.
    + by rewrite <- Hd in Hdb.
    + done.
Qed.

Lemma adopt_gives i old cfg active next :
  next_ok active next ->
  gives (daemon_ok None) (fun r => next_ok r.2 (next ++ [r.1])) (adopt i old cfg active).
Proof.
  intros Hn. apply gives_get. intros d Hd.
  destruct (keeps_device (ports d) cfg active old) eqn:Hk.
  - split; [apply on_controller_safe; auto with modest|]. intros r [= <-].
    apply andb_true_iff in Hk as [_ Hk]. apply negb_true_iff, bool_decide_eq_false_1 in Hk.
    apply (next_adopt (mk_runtime cfg (device old) _ _ _ _ _ _) active next Hn Hk).
  - revert d Hd Hk. intros d Hd _. revert d Hd.
    apply (gives_bind _ (fun _ => True)); [apply preserves_gives; solve_preserves|intros _ _].
    apply (gives_bind _ (fun _ => True)); [apply preserves_gives; solve_preserves|intros _ _].
    intros d Hd. split; [done|]. intros r [= <-]. by apply next_idle.
Qed.

Lemma register_gives available cfgs preserved active next :
  next_ok active next ->
  gives (daemon_ok None) (fun r => exclusive None r.2) (register available cfgs preserved active next).
Proof.
  revert preserved active next. induction cfgs as [|cfg cfgs IH]; intros preserved active next Hn.
  { intros d Hd. split; [done|]. intros r [= <-]. apply Hn. }
  cbn [register]. apply (gives_bind _ (fun _ => True)); [apply preserves_gives; solve_preserves|intros _ _].
  apply gives_get. intros d Hd.
  destruct (find_old (controllers d) preserved cfg) as [[i old]|]; revert d Hd.
  - apply (gives_bind _ (fun r => next_ok r.2 (next ++ [r.1]))); [by apply adopt_gives|].
    intros r Hr. by apply IH.
  - apply IH. by apply next_idle.
Qed.

Lemma disconnect_removed_safe n i preserved : dsafe None (disconnect_removed n i preserved).
Proof. revert i. induction n as [|n IH]; intros i; cbn [disconnect_removed]; solve_preserves. Qed.

Context `{FileStore W}.
Lemma reconcile_safe db_path : dsafe None (reconcile_controller_configs db_path).
Proof.
  pose proof release_missing_safe. pose proof sync_safe. unfold reconcile_controller_configs. cbv zeta.
  do 5 (apply preserves_bind; [typeclasses eauto|solve_preserves|intros ?; cbv beta zeta]).
  apply (preserves_bind_gives _ (fun r => exclusive None r.2)).
  - apply register_gives. split; [done|]. intros i j ci cj _ Hi. discriminate Hi.
  - intros r Hr. pose proof disconnect_removed_safe. solve_preserves.
    apply modify_safe. intros d []. by constructor.
Qed.

(** *** The loop *)

Context (list_targets : prog (W * Control.Vars) (list ControllerTarget)).

Lemma catch_safe {A} extra i j (m after : prog Daemon A) :
  dsafe extra m -> dsafe extra after -> dsafe extra (bluetooth_catch i j m after).
Proof. intros Hm Ha. unfold bluetooth_catch. solve_preserves. Qed.
Hint Extern 2 (dsafe _ (bluetooth_catch _ _ _ _)) => apply catch_safe; solve_preserves : preserves.

Lemma flush_controller_safe i : dsafe None (flush_controller i).
Proof. unfold flush_controller. solve_preserves. Qed.
Lemma flush_safe : dsafe None flush_pending_outputs.
Proof.
  assert (forall n i, dsafe None (flush_from n i)) as Hf.
  { pose proof flush_controller_safe. induction n; intros i; cbn [flush_from]; solve_preserves. }
  unfold flush_pending_outputs. solve_preserves.
Qed.

Lemma client_safe db_path : dsafe None (handle_control_client list_targets db_path).
Proof. unfold handle_control_client. solve_preserves. Qed.

Lemma reload_later_safe : dsafe None reload_later.
Proof. apply modify_safe. by intros d []. Qed.
Hint Resolve flush_safe client_safe reload_later_safe reconcile_safe handle_accept_safe : preserves.

Lemma up_to_safe n (m : prog Daemon bool) : dsafe None m -> dsafe None (up_to n m).
Proof. intros Hm. induction n; cbn [up_to]; solve_preserves. Qed.
Hint Extern 2 (dsafe _ (up_to _ _)) => apply up_to_safe; solve_preserves : preserves.

Lemma port_event_safe j readable failed : dsafe None (handle_port_event j readable failed).
Proof. unfold handle_port_event. cbv zeta. solve_preserves. Qed.

Lemma bt_event_safe i turn readable failed :
  (forall bt, preserves (keeps inv) (turn bt)) -> dsafe None (handle_bt_event i turn readable failed).
Proof.
  intros Ht. unfold handle_bt_event. solve_preserves. apply on_controller_safe. intros c'. right.
  split; [done|]. unfold controller_uses_port. cbn.
  by destruct (is_open (backend c')), (is_open (pending_control_fd c')), (is_open (pending_interrupt_fd c')).
Qed.

Lemma udev_event_safe readable failed : dsafe None (handle_udev_event readable failed).
Proof. unfold handle_udev_event, failing. solve_preserves. Qed.
Hint Resolve port_event_safe udev_event_safe : preserves.

Lemma event_safe db_path event : dsafe None (handle_event list_targets db_path event).
Proof.
  unfold handle_event, failing. destruct event as [[data readable] failed].
  destruct (decode_event data) as [[[]|] index]; solve_preserves; apply bt_event_safe; solve_preserves.
Qed.
Hint Resolve event_safe : preserves.

Lemma turn_safe ls db_path answer : dsafe None (loop_turn list_targets ls db_path answer).
Proof.
  assert (forall events, dsafe None (handle_events list_targets db_path events)) as He
    by (induction events; cbn [handle_events]; solve_preserves).
  assert (dsafe None (reload_if_requested db_path)) as Hl.
  { unfold reload_if_requested. solve_preserves. apply modify_safe. by intros d []. }
  assert (dsafe None (rebuild_epoll ls)) as Hb.
  { unfold rebuild_epoll. cbv zeta. solve_preserves; apply modify_safe; by intros d []. }
  unfold loop_turn. solve_preserves. apply modify_safe. by intros d [].
Qed.

Lemma disconnect_all_safe : dsafe None disconnect_all.
Proof.
  assert (forall n i, dsafe None (disconnect_from n i)) as Hf.
  { induction n; intros i; cbn [disconnect_from]; solve_preserves. apply on_controller_safe.
    intros c'. right. split; [done|]. unfold controller_uses_port. cbn.
    by destruct (is_open (backend c')), (is_open (pending_control_fd c')), (is_open (pending_interrupt_fd c')). }
  unfold disconnect_all. solve_preserves. apply modify_safe. by intros d [].
Qed.

Lemma run_loop_safe ls db_path answers : dsafe None (run_loop list_targets ls db_path answers).
Proof. pose proof turn_safe. induction answers; cbn [run_loop]; solve_preserves. Qed.

Lemma main_safe ls db_path answers : dsafe None (daemon_main list_targets ls db_path answers).
Proof.
  pose proof run_loop_safe. pose proof disconnect_all_safe. unfold daemon_main. solve_preserves.
Qed.
End Inv.
