(* ===== verification/LinuxReloadFacts.v ===== *)
(** A reload in closed form: it returns, the ports are the endpoints there are, and the
    controllers are a function of the database and the controllers of before. *)
From stdpp Require Import base list strings numbers.
From Stdlib Require Import Ascii ZArith Lia.
From S2P Require Import Prelude Text Words OutputState Audio Store Config Control Profile.
From S2P Require Import LinuxIo LinuxState LinuxPort LinuxDaemon LinuxConnect LinuxReload.

Local Open Scope Z_scope.

Section Facts.
Context {Encoder Dec W : Type} `{Codecs Encoder Dec}.
Abbreviation port := (VirtualPort Encoder Dec).
Abbreviation Daemon := (Daemon Encoder Dec W).
Implicit Types (d : Daemon) (cs : list ControllerRuntime) (ps : list port).

Definition paths ps : list string := path <$> ps.

(** What a step leaves alone: the endpoints, and the controllers. *)
Record same_setup d d' : Prop := {
  same_paths : paths (ports d') = paths (ports d);
  same_controllers : controllers d' = controllers d;
  same_files : files d' = files d;
  same_opens : opens (host d') = opens (host d)
}.

Lemma same_setup_refl d : same_setup d d.
Proof. by constructor. Qed.
Lemma same_setup_trans d1 d2 d3 : same_setup d1 d2 -> same_setup d2 d3 -> same_setup d1 d3.
Proof. intros [] []. constructor; congruence. Qed.

(** ** Waiting for the default stack *)

Lemma hid_present_returns a normalized d :
  normalize_bluetooth_address a = Ok normalized ->
  returns (hid_present a) d (fun d' _ => same_setup d d' /\ world d' = world d).
Proof.
  intros Ha. unfold hid_present. apply returns_bind. unfold on_host, ask.
  assert (forall h v, opens h = opens (host d) -> returns (lift (bluetooth_hid_device_present a v)) (set_host h d)
            (fun d' _ => same_setup d d' /\ world d' = world d)) as Hl.
  { intros h v Hh. unfold lift, bluetooth_hid_device_present. rewrite Ha. by eexists _, _. }
  destruct (hids (host d)) as [|r rest] eqn:E; eexists _, _; rewrite E; (split; [reflexivity|]); by apply Hl.
Qed.

Lemma preempt_wait_returns n a normalized deadline d :
  normalize_bluetooth_address a = Ok normalized ->
  deadline <= time (world d) + Z.of_nat n * kBluetoothPreemptPoll ->
  returns (preempt_wait (S n) a deadline) d (fun d' _ => same_setup d d').
Proof.
  intros Ha. revert d. induction n as [|n IH]; intros d Hd; cbn [preempt_wait].
  - apply returns_bind. unfold on_world, clock_now. eexists _, _. split; [reflexivity|].
    rewrite (proj2 (Z.ltb_ge _ _)) by lia. by apply returns_ret.
  - apply returns_bind. unfold on_world at 1, clock_now. eexists _, _. split; [reflexivity|].
    set (d1 := set_world _ d). case_match; [|by apply returns_ret].
    apply returns_bind. eapply returns_weaken; [by eapply hid_present_returns|].
    intros d2 present [Hs Hw]. cbv beta. destruct (negb present); [apply returns_ret; destruct Hs; by constructor|].
    apply returns_bind. eexists _, _. split; [reflexivity|].
    eapply returns_weaken; [apply IH|].
    + cbn. rewrite Hw. cbn. unfold kBluetoothPreemptPoll in *. lia.
    + intros d3 _ [F1 F2 F3 F4]. destruct Hs as [E1 E2 E3 E4]. constructor; [exact (eq_trans F1 E1)|exact (eq_trans F2 E2)|exact (eq_trans F3 E3)|exact (eq_trans F4 E4)].
Qed.

Lemma preempt_returns a normalized d :
  normalize_bluetooth_address a = Ok normalized ->
  returns (preempt_default_bluetooth_owner a) d (fun d' _ => same_setup d d').
Proof.
  intros Ha. unfold preempt_default_bluetooth_owner. apply returns_bind.
  eapply returns_weaken; [by eapply hid_present_returns|].
  intros d1 present [Hs Hw]. cbv beta. destruct (negb present); [apply returns_ret; destruct Hs; by constructor|].
  apply returns_bind. unfold on_world, clock_now. eexists _, _. split; [reflexivity|].
  eapply returns_weaken; [eapply (preempt_wait_returns 20); [exact Ha|]|].
  - cbn. unfold kBluetoothPreemptWait, kBluetoothPreemptPoll. lia.
  - intros d2 _ [F1 F2 F3 F4]. destruct Hs as [E1 E2 E3 E4]. constructor; [exact (eq_trans F1 E1)|exact (eq_trans F2 E2)|exact (eq_trans F3 E3)|exact (eq_trans F4 E4)].
Qed.

(** ** Disconnecting *)

Lemma disconnect_port_returns (s : port * World) :
  returns disconnect_virtual_port s (fun s' _ => path s'.1 = path s.1 /\ fd s'.1 = fd s.1).
Proof.
  unfold disconnect_virtual_port. apply returns_bind. destruct s as [p w].
  eexists _, _. split; [reflexivity|]. unfold try_catch, ioctl_noarg, ioctl_with, mbind, prog_bind, the_port, io.
  cbn [fst snd]. unfold sys_ioctl.
  destruct (ioctls w) as [|[e|] rest] eqn:E; eexists _, _; cbn [fst snd]; rewrite E; (split; [reflexivity|done]).
Qed.

Lemma on_port_disconnect_returns j p d :
  ports d !! j = Some p ->
  returns (on_port j disconnect_virtual_port) d (fun d' _ => same_setup d d').
Proof.
  intros Hj. destruct (disconnect_port_returns (p, world d)) as ([p' w'] & [] & E & Hp & _).
  exists (set_ports (<[j := p']> (ports d)) (set_world w' d)), tt. unfold on_port. rewrite Hj, E.
  split; [done|]. constructor; try done. cbn. unfold paths. rewrite list_fmap_insert.
  apply list_insert_id. rewrite list_lookup_fmap, Hj. cbn in *. by rewrite Hp.
Qed.

Lemma find_port_lookup ps dev j : find_port_index ps dev = Some j -> exists p, ps !! j = Some p /\ path p = dev.
Proof.
  unfold find_port_index. destruct (list_find _ ps) as [[i p]|] eqn:Hf; [|discriminate].
  intros [= <-]. apply list_find_Some in Hf as (Hi & Hp & _). by eauto.
Qed.

Lemma disconnect_device_returns dev d :
  returns (disconnect_device dev) d (fun d' _ => same_setup d d').
Proof.
  unfold disconnect_device. apply returns_bind, returns_get.
  destruct (find_port_index (ports d) dev) as [j|] eqn:Hf; [|apply returns_ret, same_setup_refl].
  apply find_port_lookup in Hf as (p & Hj & _). by eapply on_port_disconnect_returns.
Qed.

(** ** The controllers whose endpoint is gone *)

Definition settle (devices : list string) (c : ControllerRuntime) : ControllerRuntime :=
  if controller_uses_port c && negb (is_listed devices (device c)) then released c else c.

Lemma alter_lookup {A} (f : A -> A) i (l : list A) x : l !! i = Some x -> alter f i l = <[i := f x]> l.
Proof.
  revert i. induction l as [|y l IH]; intros [|i]; cbn; [done..|by intros [= ->]|].
  intros Hi. f_equal. by apply IH.
Qed.

Lemma release_missing_returns n i devices d :
  (i + n = length (controllers d))%nat ->
  returns (release_missing n i devices) d (fun d' _ =>
    paths (ports d') = paths (ports d) /\ files d' = files d /\ opens (host d') = opens (host d) /\
    controllers d' = take i (controllers d) ++ (settle devices <$> drop i (controllers d))).
Proof.
  revert i d. induction n as [|n IH]; intros i d Hl; cbn [release_missing].
  { apply returns_ret. rewrite take_ge, drop_ge by lia. by rewrite app_nil_r. }
  destruct (lookup_lt_is_Some_2 (controllers d) i) as [c Hi]; [lia|].
  assert (forall d1, paths (ports d1) = paths (ports d) -> files d1 = files d -> opens (host d1) = opens (host d) ->
      controllers d1 = <[i := settle devices c]> (controllers d) ->
      returns (release_missing n (S i) devices) d1 (fun d' _ =>
        paths (ports d') = paths (ports d) /\ files d' = files d /\ opens (host d') = opens (host d) /\
        controllers d' = take i (controllers d) ++ (settle devices <$> drop i (controllers d)))) as Hnext.
  { intros d1 Hp Hf Ho Hc. eapply returns_weaken; [apply IH; rewrite Hc, length_insert; lia|].
    intros d2 _ (Hp2 & Hf2 & Ho2 & Hc2). split_and!; [congruence..|]. rewrite Hc2, Hc.
    rewrite drop_insert_lt by lia. rewrite (drop_S _ _ _ Hi). cbn.
    rewrite (take_S_r _ _ (settle devices c)) by (apply list_lookup_insert_eq; lia).
    rewrite take_insert_ge by lia. by rewrite <- (assoc_L app). }
  apply returns_bind, returns_get. rewrite Hi. apply returns_bind.
  destruct (_ || _) eqn:Hk.
  - apply returns_ret, Hnext; try done. rewrite list_insert_id; [done|]. rewrite Hi. f_equal.
    unfold settle. destruct (controller_uses_port c), (is_listed devices (device c)); done.
  - apply returns_bind. eapply returns_weaken; [apply disconnect_device_returns|].
    intros d1 _ [E1 E2 E3 E4]. exists (set_controllers (alter released i (controllers d1)) d1), tt.
    split; [reflexivity|]. apply Hnext; try done. cbn. rewrite E2, (alter_lookup _ _ _ c) by done.
    apply orb_false_iff in Hk as [Hu Hn]. apply negb_false_iff in Hu. unfold settle. by rewrite Hu, Hn.
Qed.

(** ** The endpoints *)

Lemma new_port_path dev fd_ (p : port) : new_port dev fd_ = Ok p -> path p = dev.
Proof.
  unfold new_port. destruct fresh_extractor as [x|e]; [|discriminate].
  destruct create_decoder as [c|e]; [|discriminate]. cbn. by intros [= <-].
Qed.

Lemma sys_ioctl_returns fd_ name arg w : exists w' a, sys_ioctl fd_ name arg w = (w', Ok a).
Proof. unfold sys_ioctl. destruct (ioctls w) as [|[e|] rest]; by eauto. Qed.

Lemma sync_loop_returns devices updated d fds :
  is_ok (fresh_extractor (Encoder:=Encoder) (Dec:=Dec)) = true ->
  is_ok (create_decoder (Encoder:=Encoder) (Dec:=Dec)) = true ->
  opens (host d) = Ok <$> fds -> (length devices <= length fds)%nat ->
  returns (sync_loop devices updated) d (fun d' ps =>
    paths ps = paths updated ++ devices /\ controllers d' = controllers d /\ files d' = files d).
Proof.
  intros Hx Hd. destruct fresh_extractor as [x|] eqn:Ex; [clear Hx|discriminate].
  destruct create_decoder as [dd|] eqn:Ed; [clear Hd|discriminate].
  revert updated d fds. induction devices as [|dev devices IH]; intros updated d fds Ho Hl; cbn [sync_loop].
  { apply returns_ret. by rewrite app_nil_r. }
  apply returns_bind, returns_get.
  assert (forall p d1 fds1, path p = dev -> opens (host d1) = Ok <$> fds1 -> (length devices <= length fds1)%nat ->
    controllers d1 = controllers d -> files d1 = files d ->
    returns (sync_loop devices (updated ++ [p])) d1 (fun d' ps =>
      paths ps = paths updated ++ dev :: devices /\ controllers d' = controllers d /\ files d' = files d)) as Hnext.
  { intros p d1 fds1 Hp Ho1 Hl1 Hc Hf. eapply returns_weaken; [by eapply IH|].
    intros d' ps (Hps & Hc' & Hf'). rewrite Hps, Hc', Hf'. split; [|done]. unfold paths.
    rewrite fmap_app. cbn. by rewrite Hp, <- (assoc_L app). }
  destruct (list_find _ (ports d)) as [[i p]|] eqn:Hf.
  - apply list_find_Some in Hf as (_ & Hp & _). apply returns_bind, returns_modify.
    eapply Hnext; try done. cbn in Hl. lia.
  - destruct fds as [|fd_ fds]; [cbn in Hl; lia|]. apply returns_bind.
    exists (set_host (set_opens (Ok <$> fds) (host d)) d), fd_. split.
    { unfold open_required, on_host, ask_result, ask, mbind, prog_bind. by rewrite Ho. }
    apply returns_bind.
    assert (forall w1, returns (p ← lift (new_port dev fd_); sync_loop devices (updated ++ [p]))
       (set_world w1 (set_host (set_opens (Ok <$> fds) (host d)) d)) (fun d' ps =>
      paths ps = paths updated ++ dev :: devices /\ controllers d' = controllers d /\ files d' = files d)) as Hw.
    { intros w1. apply returns_bind. unfold lift. destruct (new_port dev fd_) as [p|e] eqn:En.
      - eexists _, _. split; [reflexivity|]. eapply (Hnext p); [by eapply new_port_path|done| |done..].
        cbn in Hl. lia.
      - unfold new_port in En. rewrite Ex, Ed in En. discriminate. }
    destruct (sys_ioctl_returns fd_ "VDS_IOC_GET_DRIVER_INFO" 0 (world d)) as (w1 & a & E).
    exists (set_world w1 (set_host (set_opens (Ok <$> fds) (host d)) d)), a. split; [|apply Hw].
    unfold on_world. cbn [world set_host]. by rewrite E.
Qed.

(** ** The controllers of the database *)

Definition kept (cfg : ControllerConfig) (old : ControllerRuntime) : ControllerRuntime :=
  mk_runtime cfg (device old) (detected_profile old) (backend old) (pending_control_fd old)
    (pending_interrupt_fd old) (virtual_connected old) (last_error old).

(** What the records of the database become: the runtimes, and the controllers of before
    that were found for them. *)
Fixpoint plan (cs : list ControllerRuntime) (ps : list port) (cfgs : list ControllerConfig)
    (preserved : list nat) (active : list string) : list nat * list ControllerRuntime :=
  match cfgs with
  | [] => (preserved, [])
  | cfg :: rest =>
      match find_old cs preserved cfg with
      | None => let '(found, l) := plan cs ps rest preserved active in (found, idle_runtime cfg None "" :: l)
      | Some (i, old) =>
          if keeps_device ps cfg active old then
            let '(found, l) := plan cs ps rest (i :: preserved) (active ++ [device old]) in (found, kept cfg old :: l)
          else
            let '(found, l) := plan cs ps rest (i :: preserved) active in
            (found, idle_runtime cfg (detected_profile old) (last_error old) :: l)
      end
  end.

Lemma plan_configs cs ps cfgs preserved active : config <$> (plan cs ps cfgs preserved active).2 = cfgs.
Proof.
  revert preserved active. induction cfgs as [|cfg cfgs IH]; intros preserved active; cbn [plan]; [done|].
  destruct (find_old cs preserved cfg) as [[i old]|]; [case_match|].
  - specialize (IH (i :: preserved) (active ++ [device old])). destruct (plan _ _ _ _ _). cbn in *. by rewrite IH.
  - specialize (IH (i :: preserved) active). destruct (plan _ _ _ _ _). cbn in *. by rewrite IH.
  - specialize (IH preserved active). destruct (plan _ _ _ _ _). cbn in *. by rewrite IH.
Qed.

Lemma find_port_paths ps ps' dev :
  paths ps = paths ps' -> find_port_index ps dev = find_port_index ps' dev.
Proof.
  intros Hp. unfold find_port_index. revert ps' Hp.
  induction ps as [|p ps IH]; intros [|p' ps'] Hp; try discriminate; [done|].
  injection Hp as Hp Hps. cbn. rewrite Hp. case_decide; [done|]. specialize (IH _ Hps).
  destruct (list_find _ ps) as [[i x]|], (list_find _ ps') as [[i' x']|]; cbn in *; congruence.
Qed.

Lemma keeps_paths ps ps' cfg active old :
  paths ps = paths ps' -> keeps_device ps cfg active old = keeps_device ps' cfg active old.
Proof. intros Hp. unfold keeps_device. by rewrite (find_port_paths _ _ _ Hp). Qed.

(** The controllers that are not kept yet are still as they were. *)
Definition agree (preserved : list nat) (cs cs' : list ControllerRuntime) : Prop :=
  length cs' = length cs /\ forall k, k ∉ preserved -> cs' !! k = cs !! k.

Lemma find_old_agree preserved cs cs' cfg :
  agree preserved cs cs' -> find_old cs' preserved cfg = find_old cs preserved cfg.
Proof.
  assert (forall i, length cs' = length cs -> (forall k, (i + k)%nat ∉ preserved -> cs' !! k = cs !! k) ->
            find_old_from i cs' preserved cfg = find_old_from i cs preserved cfg) as Hf.
  { revert cs'. induction cs as [|c cs IH]; intros [|c' cs'] i Hl Hk; try discriminate; [done|].
    cbn [find_old_from]. destruct (decide (i ∈ preserved)) as [Hi|Hi].
    - rewrite !bool_decide_eq_true_2 by by left. apply IH; [by injection Hl|].
      intros k Hn. apply (Hk (S k)). by rewrite Nat.add_succ_r.
    - assert (c' = c) as ->. { specialize (Hk 0%nat). rewrite Nat.add_0_r in Hk. by injection (Hk Hi). }
      case_bool_decide; [|done]. apply IH; [by injection Hl|].
      intros k Hn. apply (Hk (S k)). by rewrite Nat.add_succ_r. }
  intros [Hl Hk]. by apply Hf.
Qed.

Lemma agree_alter preserved cs cs' i f :
  agree preserved cs cs' -> agree (i :: preserved) cs (alter f i cs').
Proof.
  intros [Hl Hk]. split; [by rewrite length_alter|]. intros k Hn. apply not_elem_of_cons in Hn as [Hne Hn].
  rewrite list_lookup_alter_ne by done. by apply Hk.
Qed.

Lemma agree_more preserved cs cs' i : agree preserved cs cs' -> agree (i :: preserved) cs cs'.
Proof. intros [Hl Hk]. split; [done|]. intros k Hn. apply not_elem_of_cons in Hn as [_ Hn]. by apply Hk. Qed.

Lemma adopt_returns i old cfg active cs ps preserved d :
  paths (ports d) = paths ps -> agree preserved cs (controllers d) ->
  returns (adopt i old cfg active) d (fun d' r =>
    paths (ports d') = paths ps /\ agree (i :: preserved) cs (controllers d') /\
    r = if keeps_device ps cfg active old then (kept cfg old, active ++ [device old])
        else (idle_runtime cfg (detected_profile old) (last_error old), active)).
Proof.
  intros Hp Ha. unfold adopt. apply returns_bind, returns_get.
  rewrite (keeps_paths (ports d) ps) by done. destruct (keeps_device ps cfg active old).
  - apply returns_bind. eexists _, _. split; [reflexivity|]. apply returns_ret.
    split; [done|]. split; [by apply agree_alter|done].
  - apply returns_bind. eexists _, _. split; [reflexivity|]. set (d1 := set_controllers _ d).
    assert (agree (i :: preserved) cs (controllers d1)) as Ha1 by by apply agree_alter.
    apply returns_bind. destruct (controller_uses_port old); [|by apply returns_ret, returns_ret].
    apply returns_bind.
    assert (forall d2, paths (ports d2) = paths ps -> agree (i :: preserved) cs (controllers d2) ->
      returns (on_controller i released) d2 (fun d3 _ =>
        returns (mret (idle_runtime cfg (detected_profile old) (last_error old), active)) d3 (fun d' r =>
          paths (ports d') = paths ps /\ agree (i :: preserved) cs (controllers d') /\
          r = (idle_runtime cfg (detected_profile old) (last_error old), active)))) as Hrel.
    { intros d2 Hp2 Ha2. eexists _, _. split; [reflexivity|]. apply returns_ret. split; [done|]. split; [|done].
      cbn. destruct Ha2 as [Hl Hk]. split; [by rewrite length_alter|]. intros k Hn.
      rewrite list_lookup_alter_ne; [by apply Hk|]. apply not_elem_of_cons in Hn as [? _]. done. }
    destruct (_ && _); [|apply returns_ret, Hrel; done].
    eapply returns_weaken; [apply disconnect_device_returns|]. intros d2 _ [E1 E2 E3 E4].
    apply Hrel; [by rewrite E1|by rewrite E2].
Qed.

Lemma register_returns available cs ps cfgs preserved active next d :
  Forall (fun cfg => is_ok (normalize_bluetooth_address (address cfg)) = true) cfgs ->
  paths (ports d) = paths ps -> agree preserved cs (controllers d) ->
  returns (register available cfgs preserved active next) d (fun d' r =>
    paths (ports d') = paths ps /\ length (controllers d') = length cs /\
    r = ((plan cs ps cfgs preserved active).1, next ++ (plan cs ps cfgs preserved active).2)).
Proof.
  intros Hok. revert preserved active next d. induction Hok as [|cfg cfgs Hn Hok IH];
    intros preserved active next d Hp Ha; cbn [register plan].
  { apply returns_ret. cbn. rewrite app_nil_r. split; [done|]. split; [apply Ha|done]. }
  destruct (normalize_bluetooth_address (address cfg)) as [normalized|e] eqn:En; [|discriminate].
  apply returns_bind. apply (returns_weaken _ _ (fun d' _ => same_setup d d')).
  { destruct available; [by eapply preempt_returns|apply returns_ret, same_setup_refl]. }
  intros d1 _ [E1 E2 E3 E4]. apply returns_bind, returns_get.
  assert (agree preserved cs (controllers d1)) as Ha1 by by rewrite E2.
  rewrite (find_old_agree preserved cs (controllers d1)) by done.
  destruct (find_old cs preserved cfg) as [[i old]|].
  - apply returns_bind. eapply returns_weaken; [eapply (adopt_returns i old cfg active cs ps preserved d1); [by rewrite E1|done]|].
    intros d2 r (Hp2 & Ha2 & ->). case_match.
    + eapply returns_weaken; [by apply IH|]. intros d3 r3 (Hp3 & Hl3 & ->). cbn [fst snd].
      destruct (plan _ _ _ _ _). cbn. by rewrite <- (assoc_L app).
    + eapply returns_weaken; [by apply IH|]. intros d3 r3 (Hp3 & Hl3 & ->). cbn [fst snd].
      destruct (plan _ _ _ _ _). cbn. by rewrite <- (assoc_L app).
  - eapply returns_weaken; [apply IH; [by rewrite E1|done]|]. intros d3 r3 (Hp3 & Hl3 & ->).
    destruct (plan _ _ _ _ _). cbn. by rewrite <- (assoc_L app).
Qed.

Lemma disconnect_removed_returns n i preserved d :
  (i + n <= length (controllers d))%nat ->
  returns (disconnect_removed n i preserved) d (fun d' _ => same_setup d d').
Proof.
  revert i d. induction n as [|n IH]; intros i d Hl; cbn [disconnect_removed].
  { apply returns_ret, same_setup_refl. }
  destruct (lookup_lt_is_Some_2 (controllers d) i) as [c Hi]; [lia|].
  apply returns_bind, returns_get. rewrite Hi. apply returns_bind.
  apply (returns_weaken _ _ (fun d' _ => same_setup d d')).
  { destruct (_ || _); [apply returns_ret, same_setup_refl|apply disconnect_device_returns]. }
  intros d1 u1 Hs1. eapply returns_weaken; [apply IH|].
  - rewrite (same_controllers _ _ Hs1). lia.
  - intros d2 u Hs2. by eapply same_setup_trans.
Qed.

Lemma plan_paths cs ps ps' cfgs preserved active :
  paths ps = paths ps' -> plan cs ps cfgs preserved active = plan cs ps' cfgs preserved active.
Proof.
  intros Hp. revert preserved active. induction cfgs as [|cfg cfgs IH]; intros preserved active; cbn [plan]; [done|].
  destruct (find_old cs preserved cfg) as [[i old]|]; [|by rewrite IH].
  rewrite (keeps_paths ps ps') by done. case_match; by rewrite IH.
Qed.

Context `{FileStore W}.

Lemma reconcile_returns db_path d nodes rest fds w' db :
  is_ok (fresh_extractor (Encoder:=Encoder) (Dec:=Dec)) = true ->
  is_ok (create_decoder (Encoder:=Encoder) (Dec:=Dec)) = true ->
  misc (host d) = Ok nodes :: rest ->
  opens (host d) = Ok <$> fds -> (length (discover_vds_devices nodes) <= length fds)%nat ->
  load_config_db db_path (files d) = (w', Ok db) ->
  Forall (fun cfg => is_ok (normalize_bluetooth_address (address cfg)) = true) (Config.controllers db) ->
  returns (reconcile_controller_configs db_path) d (fun d' _ =>
    paths (ports d') = discover_vds_devices nodes /\
    controllers d' = (plan (settle (discover_vds_devices nodes) <$> controllers d) (ports d')
                        (Config.controllers db) [] []).2).
Proof.
  intros Hx Hd Hm Ho Hl Hdb Hok. unfold reconcile_controller_configs.
  set (devices := discover_vds_devices nodes) in *.
  apply returns_bind. exists (set_host (set_misc rest (host d)) d), nodes.
  split; [unfold on_host, ask_result, ask, mbind, prog_bind; by rewrite Hm|].
  fold devices. apply returns_bind, returns_get, returns_bind.
  eapply returns_weaken; [by apply release_missing_returns|]. intros d1 _ (Hp1 & Hf1 & Ho1 & Hc1).
  cbn in Hf1, Ho1, Hc1. rewrite drop_0 in Hc1.
  apply returns_bind. unfold sync_virtual_ports. apply returns_bind.
  eapply returns_weaken; [eapply (sync_loop_returns devices [] d1 fds); [done|done|congruence|done]|].
  intros d2 ps (Hps & Hc2 & Hf2). apply returns_modify. set (d3 := set_ports ps d2).
  apply returns_bind. exists (set_shared (w', vars d3) d3), db.
  split; [unfold on_shared, on_first; cbn; by rewrite Hf2, Hf1, Hdb|].
  apply returns_bind.
  eapply returns_weaken; [eapply (register_returns _ (controllers d1) ps); [done|done|]|].
  { split; [by cbn; rewrite Hc2|]. intros k _. cbn. by rewrite Hc2. }
  intros d4 r (Hp4 & Hl4 & ->). apply returns_bind, returns_get, returns_bind.
  eapply returns_weaken; [by apply disconnect_removed_returns|]. intros d5 _ [E1 E2 E3 E4].
  apply returns_modify. cbn [ports set_controllers controllers snd]. rewrite E1, Hp4, Hps. split; [done|].
  rewrite Hc1. cbn [app]. f_equal. apply plan_paths. by rewrite E1.
Qed.
End Facts.
