(* ===== verification/LinuxDaemonFacts.v ===== *)
(** Facts about connecting, events and waiting in the Linux daemon. *)
From stdpp Require Import base list strings numbers sorting.
From Stdlib Require Import Ascii ZArith Lia.
From S2P Require Import Prelude Text Common Words BtPacket OutputState OutputInv OutputReports Audio Store.
From S2P Require Import Config Control Profile LinuxIo LinuxState LinuxPort LinuxInv LinuxFacts.
From S2P Require Import LinuxDaemon LinuxConnect LinuxReload LinuxLoop LinuxDaemonInv LinuxReloadFacts.

Local Open Scope Z_scope.

(** ** Plans and connections *)

Lemma exclusive_fmap f cs : modest f -> exclusive None cs -> exclusive None (f <$> cs).
Proof.
  intros Hf Hx a b ca cb Hab Ha Hb [Hua|] [Hub|] Hd; try done.
  rewrite list_lookup_fmap in Ha, Hb.
  destruct (cs !! a) as [xa|] eqn:Ea; [|discriminate]. destruct (cs !! b) as [xb|] eqn:Eb; [|discriminate].
  injection Ha as <-. injection Hb as <-.
  destruct (Hf xa) as [|[Da Ua]]; [done|]. destruct (Hf xb) as [|[Db Ub]]; [congruence|].
  rewrite Da. apply (Hx a b xa xb); try done; [left; auto|left; auto|congruence].
Qed.

Lemma settle_modest devices : modest (settle devices).
Proof. intros c. unfold settle. destruct (_ && _); [by left|by right]. Qed.

(** The record of a controller that is not kept yet finds it, when addresses differ. *)
Lemma find_old_unique cs preserved cfg i c :
  cs !! i = Some c -> i ∉ preserved -> address (config c) = address cfg -> profile (config c) = profile cfg ->
  (forall k ck, k <> i -> cs !! k = Some ck -> address (config ck) <> address cfg) ->
  find_old cs preserved cfg = Some (i, c).
Proof.
  intros Hi Hn Ha Hp Hother. unfold find_old.
  assert (forall n cs, cs !! (i - n)%nat = Some c -> (n <= i)%nat ->
    (forall k ck, (n + k)%nat <> i -> cs !! k = Some ck -> address (config ck) <> address cfg) ->
    find_old_from n cs preserved cfg = Some (i, c)) as Hf.
  { clear cs Hi Hother. intros n cs. revert n. induction cs as [|x cs IH]; intros n Hi Hle Hother; [done|].
    cbn [find_old_from]. destruct (decide (n = i)) as [->|Hne].
    - rewrite Nat.sub_diag in Hi. injection Hi as ->.
      rewrite bool_decide_eq_false_2; [done|]. intros [?|[?|?]]; done.
    - rewrite bool_decide_eq_true_2.
      + apply IH; [|lia|intros k ck Hk; apply (Hother (S k)); lia].
        replace (i - n)%nat with (S (i - S n)) in Hi by lia. exact Hi.
      + right. left. apply (Hother 0%nat); [lia|done]. }
  apply Hf; [by rewrite Nat.sub_0_r|lia|exact Hother].
Qed.

Lemma find_old_Some cs preserved cfg i c :
  find_old cs preserved cfg = Some (i, c) -> cs !! i = Some c /\ address (config c) = address cfg.
Proof.
  unfold find_old.
  assert (forall n, find_old_from n cs preserved cfg = Some (i, c) ->
    (n <= i)%nat /\ cs !! (i - n)%nat = Some c /\ address (config c) = address cfg) as Hf.
  { induction cs as [|x cs IH]; intros n; cbn [find_old_from]; [discriminate|].
    case_bool_decide as Hm.
    - intros Hf. apply IH in Hf as (Hle & Hi & Ha). split; [lia|]. split; [|done].
      by replace (i - n)%nat with (S (i - S n)) by lia.
    - intros [= -> ->]. split; [lia|]. rewrite Nat.sub_diag. split; [done|].
      destruct (decide (address (config c) = address cfg)); [done|]. exfalso. apply Hm. by right; left. }
  intros H. apply Hf in H as (_ & Hi & Ha). by rewrite Nat.sub_0_r in Hi.
Qed.

Section Plan.
Context {Encoder Dec : Type}.
Implicit Types (ps : list (VirtualPort Encoder Dec)).

Lemma plan_keeps cs ps cfgs preserved active i c cfg :
  exclusive None cs -> cs !! i = Some c -> i ∉ preserved -> device c ∉ active ->
  controller_uses_port c = true -> device c <> "" -> device c ∈ paths ps ->
  controller_config_allows_path Linux cfg (device c) = true ->
  address (config c) = address cfg -> profile (config c) = profile cfg ->
  (forall k ck, k <> i -> cs !! k = Some ck -> address (config ck) <> address cfg) ->
  NoDup (address <$> cfgs) -> cfg ∈ cfgs ->
  kept cfg c ∈ (plan cs ps cfgs preserved active).2.
Proof.
  intros Hx Hi Hn Hact Hu Hd Hps Hal Ha Hp Hother Hnd Hin.
  revert preserved active Hn Hact. induction cfgs as [|cfg0 cfgs IH]; intros preserved active Hn Hact;
    [by apply not_elem_of_nil in Hin|].
  apply NoDup_cons in Hnd as [Hhead Hnd]. cbn [plan]. apply elem_of_cons in Hin as [<-|Hin].
  - rewrite (find_old_unique cs preserved cfg i c) by done.
    assert (keeps_device ps cfg active c = true) as ->.
    { unfold keeps_device. rewrite Hu, Hal, !bool_decide_eq_false_2 by done. cbn.
      apply list_elem_of_fmap in Hps as (p & -> & Hp'). apply list_elem_of_lookup in Hp' as [j Hj].
      unfold find_port_index, is_open. rewrite andb_true_r. rewrite bool_decide_eq_true_2; [done|].
      destruct (list_find_elem_of (fun q => path q = path p) ps p) as [[k q] E];
        [by eapply list_elem_of_lookup_2|done|].
      by rewrite E. }
    destruct (plan _ _ _ _ _). cbn. apply elem_of_cons. by left.
  - assert (address cfg0 <> address cfg) as Hne.
    { intros E. apply Hhead. rewrite E. apply list_elem_of_fmap. by exists cfg. }
    destruct (find_old cs preserved cfg0) as [[i0 old]|] eqn:Hf.
    + apply find_old_Some in Hf as [Hi0 Ha0].
      assert (i0 <> i) as Hii by (intros ->; congruence).
      destruct (keeps_device ps cfg0 active old) eqn:Hk.
      * assert (device c ∉ active ++ [device old]) as Hact'.
        { intros [?|Ho]%elem_of_app; [done|]. apply list_elem_of_singleton in Ho.
          unfold keeps_device in Hk. apply andb_true_iff in Hk as [Hk _]. apply andb_true_iff in Hk as [Hk _].
          apply andb_true_iff in Hk as [Hk _]. apply andb_true_iff in Hk as [Huo _].
          apply Hd, (Hx i i0 c old); try done; by left. }
        specialize (IH Hnd Hin (i0 :: preserved) (active ++ [device old])).
        destruct (plan _ _ _ _ _). cbn in *. apply elem_of_cons. right.
        apply IH; [|done]. apply not_elem_of_cons. done.
      * specialize (IH Hnd Hin (i0 :: preserved) active). destruct (plan _ _ _ _ _). cbn in *.
        apply elem_of_cons. right. apply IH; [|done]. apply not_elem_of_cons. done.
    + specialize (IH Hnd Hin preserved active Hn Hact). destruct (plan _ _ _ _ _). cbn in *.
      apply elem_of_cons. by right.
Qed.
End Plan.

(** ** What is sent *)

(** Writes on [fd] that together are [bytes]; nothing goes to a closed channel. *)
Definition carries (fd : Z) (bytes : list Z) (out : list (Z * list Z)) : Prop :=
  if fd <? 0 then out = [] else Forall (fun e => e.1 = fd) out /\ concat out.*2 = bytes.
(** Getting a feature report: the request on the control channel, then, while its reply is
    waited for, only frames to the port. *)
Definition fetched (bt : BtL2capBackend) (port_fd id : Z) (e : list (Z * list Z) * list (Z * list Z)) : Prop :=
  carries (control_fd bt) (feature_get_packet id) e.1 /\ Forall (fun e => e.1 = port_fd) e.2.

Lemma write_loop_carries n fd bytes label ms w w' :
  write_full_loop n fd bytes label ms w = (w', Ok tt) ->
  exists out, sent w' = sent w ++ out /\ Forall (fun e => e.1 = fd) out /\ concat out.*2 = bytes.
Proof.
  revert bytes w. induction n as [|n IH]; intros bytes w; cbn [write_full_loop]; [discriminate|].
  destruct (Nat.eqb_spec (length bytes) 0) as [El|Hl].
  { apply length_zero_iff_nil in El as ->. intros [= <-]. exists []. by rewrite app_nil_r. }
  assert (forall k w1, (0 < k <= length bytes)%nat -> sent w1 = sent w ++ [(fd, take k bytes)] ->
    write_full_loop n fd (drop k bytes) label ms w1 = (w', Ok tt) ->
    exists out, sent w' = sent w ++ out /\ Forall (fun e => e.1 = fd) out /\ concat out.*2 = bytes) as Hstep.
  { intros k w1 Hk Hs (out & Ho & Hf & Hc)%IH. exists ((fd, take k bytes) :: out).
    rewrite Ho, Hs, <- (assoc_L app). split; [done|]. split; [by constructor|].
    cbn. by rewrite Hc, take_drop. }
  unfold mbind, prog_bind, sys_write. destruct (writes w) as [|[k|e] rest] eqn:Ew.
  - destruct (length bytes) as [|k] eqn:Eb; [done|]. apply Hstep; [lia|]. cbn.
    by rewrite <- Eb, firstn_all.
  - destruct (Nat.min k (length bytes)) as [|k'] eqn:Ek; [discriminate|]. apply Hstep; [lia|done].
  - destruct e; cbn [andb]; try (intros Hc; by apply IH in Hc); rewrite ?andb_false_r; try discriminate.
    rewrite andb_true_r. case_bool_decide; [|discriminate]. unfold sys_poll. cbn [polls set_writes].
    destruct (polls w) as [|[[|] er| |[| | |t]] prest]; try discriminate; intros Hc; by apply IH in Hc.
Qed.

Lemma write_full_carries fd bytes label ms w w' :
  0 <= fd -> write_full fd bytes label ms w = (w', Ok tt) ->
  exists out, sent w' = sent w ++ out /\ carries fd bytes out.
Proof.
  intros Hfd (out & Ho & Hc)%write_loop_carries. exists out. split; [done|]. unfold carries.
  by rewrite (proj2 (Z.ltb_ge fd 0)).
Qed.

Lemma feature_get_carries bt id w w' :
  send_feature_get bt id w = (w', Ok tt) ->
  exists out, sent w' = sent w ++ out /\ carries (control_fd bt) (feature_get_packet id) out.
Proof.
  unfold send_feature_get. destruct (Z.ltb_spec (control_fd bt) 0) as [Hf|Hf].
  - intros [= <-]. exists []. rewrite app_nil_r. split; [done|]. unfold carries.
    by rewrite (proj2 (Z.ltb_lt _ _)).
  - by apply write_full_carries.
Qed.

Lemma send_output_carries bt report w w' :
  send_output_report bt report w = (w', Ok tt) ->
  exists out, sent w' = sent w ++ out /\ carries (interrupt_fd bt) (hidp_output_packet report) out.
Proof.
  unfold send_output_report. destruct (Z.ltb_spec (interrupt_fd bt) 0) as [Hf|Hf].
  - intros [= <-]. exists []. rewrite app_nil_r. split; [done|]. unfold carries.
    by rewrite (proj2 (Z.ltb_lt _ _)).
  - by apply write_full_carries.
Qed.

(** ** Connecting *)

(** The ioctls that succeeded, and when. *)
Definition driven (w : World) : list (Z * string * Z) * list nat := (commands w, moments w).

Section Connect.
Context {Encoder Dec : Type} `{Codecs Encoder Dec}.
Abbreviation port := (VirtualPort Encoder Dec).
Abbreviation state := (port * World)%type.

(** Steps that do no ioctl, keep the port's place, and keep what is cached. *)
Definition steady (s s' : state) : Prop :=
  driven s'.2 = driven s.2 /\ path s'.1 = path s.1 /\ fd s'.1 = fd s.1
  /\ output_state s'.1 = output_state s.1 /\ pending_bt_state s'.1 = pending_bt_state s.1
  /\ length (feature_cache s'.1) = length (feature_cache s.1)
  /\ forall id, is_Some (cached id s.1) -> is_Some (cached id s'.1).
#[local] Instance steady_preorder : PreOrder steady.
Proof.
  split; [done|]. intros s1 s2 s3 (?&?&?&?&?&?&Hc1) (?&?&?&?&?&?&Hc2). unfold steady.
  split_and!; try congruence. auto.
Qed.
Abbreviation quiet_io := (preserves (fun w w' : World => driven w' = driven w)).
#[local] Instance commands_preorder : PreOrder (fun w w' : World => driven w' = driven w).
Proof. split; [done|]. intros w1 w2 w3. congruence. Qed.

Lemma sys_write_commands fd_ bytes : quiet_io (sys_write fd_ bytes).
Proof. intros w. unfold sys_write. by destruct (writes w) as [|[n|e] rest]. Qed.
Lemma sys_poll_commands : quiet_io sys_poll.
Proof. intros w. unfold sys_poll. by destruct (polls w). Qed.
Lemma sys_read_commands : quiet_io sys_read.
Proof. intros w. unfold sys_read. by destruct (reads w). Qed.
Lemma lift_steady {S A} (R : S -> S -> Prop) `{!PreOrder R} (r : result A) : preserves R (lift r).
Proof. intros s. apply PreOrder_Reflexive. Qed.
Hint Resolve sys_write_commands sys_poll_commands sys_read_commands : preserves.
Hint Extern 2 (preserves _ (lift _)) => apply lift_steady; typeclasses eauto : preserves.

Lemma write_full_commands fd_ bytes label ms : quiet_io (write_full fd_ bytes label ms).
Proof.
  unfold write_full. apply preserves_bind; [typeclasses eauto|auto with preserves|]. intros w.
  generalize (S (S (length (writes w)))). intros n. clear w. revert bytes.
  induction n as [|n IH]; intros bytes; cbn [write_full_loop]; solve_preserves.
Qed.
Lemma write_vds_commands n path_ fd_ bytes : quiet_io (write_vds_loop n path_ fd_ bytes).
Proof. induction n as [|n IH]; cbn [write_vds_loop]; solve_preserves. Qed.
Hint Resolve write_full_commands write_vds_commands : preserves.
Lemma feature_get_commands bt id : quiet_io (send_feature_get bt id).
Proof. unfold send_feature_get. solve_preserves. Qed.
Lemma send_output_commands bt r : quiet_io (send_output_report bt r).
Proof. unfold send_output_report. solve_preserves. Qed.
Lemma read_feature_commands bt : quiet_io (read_feature_report bt).
Proof. unfold read_feature_report, bt_read. solve_preserves. Qed.
Hint Resolve feature_get_commands send_output_commands read_feature_commands : preserves.

Lemma io_steady {A} (m : prog World A) : quiet_io m -> preserves steady (io m).
Proof. intros Hm [p w]. unfold io. specialize (Hm w). cbn [fst snd] in *. by destruct (m w). Qed.
Lemma the_port_steady : preserves steady the_port.
Proof. by intros s. Qed.
Lemma get_steady : preserves steady get_state.
Proof. by intros s. Qed.
Hint Extern 2 (preserves steady (io _)) => apply io_steady; solve_preserves : preserves.
Hint Resolve the_port_steady get_steady : preserves.
Lemma write_frame_steady bytes : preserves steady (write_vds_frame bytes).
Proof. unfold write_vds_frame. solve_preserves. Qed.
Hint Resolve write_frame_steady : preserves.

Lemma set_cached_steady id report : preserves steady (update (set_cached id report)).
Proof.
  intros [p w]. unfold steady. cbn. split_and!; try done; [by rewrite length_insert|].
  intros id' [r Hr]. unfold cached, set_cached in *. cbn.
  destruct (decide (Z.to_nat id = Z.to_nat id')) as [E|E].
  - rewrite <- E. destruct (feature_cache p !! Z.to_nat id) as [x|] eqn:El.
    + rewrite list_lookup_insert_eq by (by eapply lookup_lt_Some). by exists report.
    + rewrite <- E, El in Hr. discriminate.
  - rewrite list_lookup_insert_ne by done. by exists r.
Qed.
Lemma cache_report_steady report : preserves steady (cache_feature_report report).
Proof. pose proof set_cached_steady. unfold cache_feature_report. solve_preserves. Qed.
Hint Resolve cache_report_steady : preserves.

Lemma await_steady n bt id : preserves steady (await_feature_report n bt id).
Proof. induction n as [|n IH]; cbn [await_feature_report]; solve_preserves. Qed.
Hint Resolve await_steady : preserves.

(** Steps that only write to the port. *)
Definition to_port (s s' : state) : Prop :=
  fd s'.1 = fd s.1 /\ exists out, sent s'.2 = sent s.2 ++ out /\ Forall (fun e => e.1 = fd s.1) out.
#[local] Instance to_port_preorder : PreOrder to_port.
Proof.
  split.
  - intros s. split; [done|]. exists []. by rewrite app_nil_r.
  - intros s1 s2 s3 [F1 (o1 & S1 & H1)] [F2 (o2 & S2 & H2)]. split; [congruence|]. exists (o1 ++ o2).
    rewrite S2, S1, <- (assoc_L app), Forall_app. rewrite F1 in H2. done.
Qed.
Lemma silent_to_port {A} (m : prog World A) :
  preserves (fun w w' : World => sent w' = sent w) m -> preserves to_port (io m).
Proof.
  intros Hm [p w]. unfold io, to_port. specialize (Hm w). cbn [fst snd] in *. destruct (m w) as [w' r].
  split; [done|]. exists []. by rewrite app_nil_r.
Qed.
Lemma sys_poll_silent : preserves (fun w w' : World => sent w' = sent w) sys_poll.
Proof. intros w. unfold sys_poll. by destruct (polls w). Qed.
Lemma read_feature_silent bt : preserves (fun w w' : World => sent w' = sent w) (read_feature_report bt).
Proof.
  intros w. unfold read_feature_report, bt_read, mbind, prog_bind, sys_read.
  destruct (reads w) as [|[[|z bs]|[| | |e]] rest]; done.
Qed.
Lemma vds_loop_to_port n path_ fd_ bytes w :
  exists out, sent (write_vds_loop n path_ fd_ bytes w).1 = sent w ++ out /\ Forall (fun e => e.1 = fd_) out.
Proof.
  assert (forall w1 : World, sent w1 = sent w -> exists out, sent w1 = sent w ++ out
    /\ Forall (fun e : Z * list Z => e.1 = fd_) out) as H0 by (intros w1 ->; exists []; by rewrite app_nil_r).
  revert w H0. induction n as [|n IH]; intros w H0; [by apply H0|]. cbn [write_vds_loop].
  unfold mbind, prog_bind, sys_write. destruct (writes w) as [|[j|[| | |t]] rest]; try (by apply H0).
  - rewrite Nat.eqb_refl. exists [(fd_, bytes)]. split; [done|by constructor].
  - exists [(fd_, take (Nat.min j (length bytes)) bytes)]. split; [by destruct (Nat.eqb (Nat.min j (length bytes)) (length bytes))|by constructor].
  - apply (IH (set_writes rest (sent w) w)). intros w1 ->. exists []. by rewrite app_nil_r.
Qed.
Lemma write_frame_to_port bytes : preserves to_port (write_vds_frame bytes).
Proof.
  intros [p w]. unfold write_vds_frame, mbind, prog_bind, the_port, io, get_state. cbn [fst snd].
  match goal with |- context [write_vds_loop ?n ?a ?b ?c w] =>
    pose proof (vds_loop_to_port n a b c w) as Hp; destruct (write_vds_loop n a b c w) as [w' [[|]|e]] end; by split.
Qed.
Lemma the_cache_to_port id report : preserves to_port (update (set_cached id report)).
Proof. intros [p w]. split; [done|]. exists []. by rewrite app_nil_r. Qed.
Hint Resolve write_frame_to_port the_cache_to_port sys_poll_silent read_feature_silent : preserves.
Hint Extern 2 (preserves to_port (io _)) => apply silent_to_port; auto with preserves : preserves.
Lemma cache_report_to_port report : preserves to_port (cache_feature_report report).
Proof. unfold cache_feature_report. solve_preserves. Qed.
Hint Resolve cache_report_to_port : preserves.
Lemma await_to_port n bt id : preserves to_port (await_feature_report n bt id).
Proof. induction n as [|n IH]; cbn [await_feature_report]; solve_preserves. Qed.

(** The reports are fetched one after the other. *)
Lemma initialize_fetches ids bt (s s' : state) :
  initialize_bt_loop ids bt s = (s', Ok tt) ->
  exists exchanges, Forall2 (fetched bt (fd s.1)) ids exchanges
    /\ sent s'.2 = sent s.2 ++ concat ((fun e => e.1 ++ e.2) <$> exchanges).
Proof.
  revert s. induction ids as [|id ids IH]; intros [p w]; cbn [initialize_bt_loop].
  { intros [= <-]. exists []. cbn. by rewrite app_nil_r. }
  unfold mbind, prog_bind, get_state, io. cbn [fst snd].
  destruct (send_feature_get bt id w) as [w1 [[]|e]] eqn:E1; [|discriminate].
  apply feature_get_carries in E1 as (o1 & S1 & C1). cbn [fst snd].
  pose proof (await_to_port (S (length (polls w1))) bt id (p, w1)) as [F2 (o2 & S2 & C2)].
  destruct (await_feature_report _ bt id (p, w1)) as [s2 [[]|e]]; [|discriminate]. cbn [fst snd] in *.
  intros (xs & Hx & S3)%IH. exists ((o1, o2) :: xs). rewrite F2 in Hx.
  split; [by constructor|]. cbn. by rewrite S3, S2, S1, <- !(assoc_L app).
Qed.
Lemma initialize_steady ids bt : preserves steady (initialize_bt_loop ids bt).
Proof. induction ids as [|id ids IH]; cbn [initialize_bt_loop]; solve_preserves. Qed.

(** Waiting for a report ends with it in the cache. *)
Lemma await_caches n bt id (s s' : state) :
  is_u8 id -> length (feature_cache s.1) = 256%nat ->
  await_feature_report n bt id s = (s', Ok tt) -> is_Some (cached id s'.1).
Proof.
  intros Hid. revert s. induction n as [|n IH]; intros s Hl; cbn [await_feature_report]; [discriminate|].
  assert (forall A (m : prog state A) (f : A -> prog state unit), preserves steady m ->
    (forall a s1, length (feature_cache s1.1) = 256%nat -> f a s1 = (s', Ok tt) -> is_Some (cached id s'.1)) ->
    (m ≫= f) s = (s', Ok tt) -> is_Some (cached id s'.1)) as Hbind.
  { intros A m f Hm Hf. unfold mbind, prog_bind. specialize (Hm s) as (_&_&_&_&_&Hlen&_).
    destruct (m s) as [s1 [a|e]]; [|discriminate]. apply Hf. cbn in Hlen. congruence. }
  apply Hbind; [solve_preserves|]. intros a s1 Hl1.
  destruct a as [[|] [|]| |[| | |]]; try discriminate; try (by apply IH).
  unfold mbind at 1, prog_bind at 1. destruct (io (read_feature_report bt) s1) as [s2 [r|e]] eqn:E; [|discriminate].
  assert (length (feature_cache s2.1) = 256%nat) as Hl2.
  { pose proof (io_steady _ (read_feature_commands bt) s1) as (_&_&_&_&_&Hlen&_). rewrite E in Hlen.
    cbn in Hlen. congruence. }
  destruct r as [[|z rest]|]; [by apply IH| |by apply IH].
  unfold mbind, prog_bind. destruct (cache_feature_report (z :: rest) s2) as [s3 [[]|e]] eqn:E3; [|discriminate].
  destruct (Z.eqb_spec z id) as [->|_].
  - intros [= <-]. destruct s2 as [p2 w2]. cbn in Hl2.
    assert (is_Some (cached id (set_cached id (id :: rest) p2))) as Hc.
    { unfold cached, set_cached. cbn. unfold is_u8 in Hid. rewrite list_lookup_insert_eq by lia. by eexists. }
    unfold cache_feature_report in E3. unfold mbind at 1, prog_bind at 1, update, modify in E3. cbn [fst snd] in E3.
    assert (preserves steady (frame ← lift (frame_bytes VDS_FRAME_USB_FEATURE_REPLY (id :: rest));
                              _ ← write_vds_frame frame; mret tt)) as Hs by solve_preserves.
    specialize (Hs (set_cached id (id :: rest) p2, w2)) as (_&_&_&_&_&_&Hs). rewrite E3 in Hs. by apply Hs.
  - apply IH. pose proof (cache_report_steady (z :: rest) s2) as (_&_&_&_&_&Hlen&_). rewrite E3 in Hlen.
    cbn in Hlen. congruence.
Qed.

Lemma initialize_caches ids bt (s s' : state) :
  Forall is_u8 ids -> length (feature_cache s.1) = 256%nat ->
  initialize_bt_loop ids bt s = (s', Ok tt) -> Forall (fun id => is_Some (cached id s'.1)) ids.
Proof.
  intros Hids. revert s. induction Hids as [|id ids Hid Hids IH]; intros s Hl; cbn [initialize_bt_loop].
  { intros _. apply Forall_nil_2. }
  unfold mbind, prog_bind, get_state. 
  pose proof (io_steady _ (feature_get_commands bt id) s) as (_&_&_&_&_&Hl1&_).
  destruct (io (send_feature_get bt id) s) as [s1 [[]|e]]; [|discriminate]. cbn [fst] in Hl1.
  pose proof (await_steady (S (length (polls s1.2))) bt id s1) as (_&_&_&_&_&Hl2&_).
  destruct (await_feature_report _ bt id s1) as [s2 [[]|e]] eqn:E; [|discriminate]. cbn [fst] in Hl2.
  apply await_caches in E; [|done|congruence]. intros Hi.
  pose proof (initialize_steady ids bt s2) as (_&_&_&_&_&_&Hc). rewrite Hi in Hc. cbn [fst] in Hc.
  apply Forall_cons; split; [by apply Hc|]. eapply IH; [|done]. congruence.
Qed.
End Connect.

Section Complete.
Context {Encoder Dec W : Type} `{Codecs Encoder Dec}.
Abbreviation port := (VirtualPort Encoder Dec).
Abbreviation Daemon := (Daemon Encoder Dec W).

Lemma ioctl_Ok name arg (p : port) w s' :
  ioctl_with name arg (p, w) = (s', Ok tt) ->
  s'.1 = p /\ commands s'.2 = commands w ++ [(fd p, name, arg)]
  /\ moments s'.2 = moments w ++ [length (sent w)] /\ sent s'.2 = sent w.
Proof.
  unfold ioctl_with, mbind, prog_bind, the_port, io, sys_ioctl. cbn [fst snd].
  destruct (ioctls w) as [|[e|] rest]; try discriminate; by intros [= <-].
Qed.

Lemma reset_Ok (p : port) w s' :
  reset_virtual_port (p, w) = (s', Ok tt) ->
  s'.2 = w /\ path s'.1 = path p /\ fd s'.1 = fd p /\ output_state s'.1 = initial_output_state
  /\ length (feature_cache s'.1) = 256%nat /\ pending_bt_state s'.1 = None.
Proof.
  unfold reset_virtual_port, mbind, prog_bind, lift, update, modify.
  destruct fresh_extractor as [x|e]; [|discriminate]. destruct create_decoder as [d|e]; [|discriminate].
  by intros [= <-].
Qed.

(** What connecting sends: a fetch per initial report, then the initial state. *)
Definition opening (bt : BtL2capBackend) (port_fd : Z) (new : list (Z * list Z)) : Prop :=
  exists exchanges out, Forall2 (fetched bt port_fd) kInitialFeatureReportIds exchanges
    /\ (exists report, (build_bt_init_report initial_output_state).2 = Ok report
          /\ carries (interrupt_fd bt) (hidp_output_packet report) out)
    /\ new = concat ((fun e => e.1 ++ e.2) <$> exchanges) ++ out.

Lemma connect_port_Ok bt profile_ (p : port) w (p' : port) w' :
  connect_port bt profile_ (p, w) = ((p', w'), Ok tt) ->
  (exists new, opening bt (fd p) new /\ sent w' = sent w ++ new)
  /\ moments w' = moments w ++ [length (sent w); length (sent w)]
  /\ commands w' = commands w ++ [(fd p, "VDS_IOC_DISCONNECT", 0); (fd p, "VDS_IOC_SET_PROFILE", profile_)]
  /\ path p' = path p /\ fd p' = fd p
  /\ Forall (fun id => is_Some (cached id p')) kInitialFeatureReportIds
  /\ last_sent_bt_state p' = Some (state_ initial_output_state) /\ pending_bt_state p' = None
  /\ output_state p' = initial_output_state.
Proof.
  unfold connect_port. unfold mbind at 1, prog_bind at 1.
  destruct (reset_virtual_port (p, w)) as [[p1 w1] [[]|e]] eqn:E1; [|discriminate].
  apply reset_Ok in E1. cbn [fst snd] in E1. destruct E1 as (-> & Hpa1 & Hfd1 & Ho1 & Hl1 & Hn1).
  unfold mbind at 1, prog_bind at 1. destruct (ioctl_noarg _ (p1, w)) as [[p2 w2] [[]|e]] eqn:E2; [|discriminate].
  apply ioctl_Ok in E2. cbn [fst snd] in E2. destruct E2 as (-> & Hc2 & Hm2 & Hs2).
  unfold mbind at 1, prog_bind at 1. destruct (ioctl_set_profile _ (p1, w2)) as [[p3 w3] [[]|e]] eqn:E3; [|discriminate].
  apply ioctl_Ok in E3. cbn [fst snd] in E3. destruct E3 as (-> & Hc3 & Hm3 & Hs3).
  unfold mbind at 1, prog_bind at 1. unfold initialize_bt_controller.
  pose proof (initialize_steady kInitialFeatureReportIds bt (p1, w3)) as (Hc4 & Hpa4 & Hfd4 & Ho4 & Hn4 & _ & _).
  destruct (initialize_bt_loop _ bt (p1, w3)) as [[p4 w4] [[]|e]] eqn:E4; [|discriminate].
  pose proof (initialize_fetches _ _ _ _ E4) as (xs & Hx & Hs4).
  apply initialize_caches in E4; [|by repeat constructor|done]. cbn [fst snd] in *.
  unfold mbind at 1, prog_bind at 1, on_output. cbn [fst snd].
  assert (output_state p4 = initial_output_state) as Ho by congruence.
  rewrite Ho, (init_report_spec _) by apply initial_ok.
  unfold mbind, prog_bind, io. cbn [fst snd].
  match goal with |- context [send_output_report bt ?r w4] =>
    pose proof (send_output_commands bt r w4) as Hc5; destruct (send_output_report bt r w4) as [w5 [[]|e]] eqn:E5 end;
    [|discriminate].
  apply send_output_carries in E5 as (out & Hs5 & Ho5).
  cbn [fst] in Hc5. unfold driven in Hc4, Hc5. unfold update, modify. intros [= <- <-]. cbn.
  assert (commands w5 = commands w3 /\ moments w5 = moments w3) as [-> ->] by (split; congruence).
  rewrite Hc3, Hc2, Hm3, Hm2, Hs2, Hpa4, Hfd4, Hpa1, Hfd1, Hn4, Hn1, <- !(assoc_L app).
  split; [|split_and!; try done; congruence].
  exists (concat ((fun e => e.1 ++ e.2) <$> xs) ++ out). split.
  - exists xs, out. rewrite <- Hfd1. split; [done|]. split; [|done].
    rewrite (init_report_spec _) by apply initial_ok. by eexists.
  - by rewrite Hs5, Hs4, Hs3, Hs2, <- !(assoc_L app).
Qed.

(** What does not touch the ports, the controllers, or the driver. *)
Definition aside (d d' : Daemon) : Prop :=
  ports d' = ports d /\ controllers d' = controllers d
  /\ driven (world d') = driven (world d) /\ sent (world d') = sent (world d).
#[local] Instance aside_preorder : PreOrder aside.
Proof. split; [done|]. intros d1 d2 d3 (?&?&?&?) (?&?&?&?). unfold aside. split_and!; congruence. Qed.

Lemma on_host_aside {A} (m : prog Host A) : preserves aside (on_host m).
Proof. intros d. unfold on_host. by destruct (m (host d)). Qed.
Lemma clock_aside : preserves aside (on_world clock_now).
Proof. by intros d. Qed.
Lemma sleep_aside ns : preserves aside (on_world (sleep_for ns)).
Proof. by intros d. Qed.
Lemma lift_aside {A} (r : result A) : preserves aside (lift r).
Proof. by intros d. Qed.
Hint Resolve on_host_aside clock_aside sleep_aside lift_aside : preserves.

Lemma resolve_aside cfg : preserves aside (resolve_config_profile cfg).
Proof. unfold resolve_config_profile, detect_bluetooth_profile. solve_preserves. Qed.
Lemma preempt_aside a : preserves aside (preempt_default_bluetooth_owner a).
Proof.
  assert (forall n deadline, preserves aside (preempt_wait n a deadline)) as Hw
    by (induction n; intros; cbn [preempt_wait]; unfold hid_present; solve_preserves).
  unfold preempt_default_bluetooth_owner, hid_present. solve_preserves.
Qed.

Lemma alter_alter {A} (f g : A -> A) i (l : list A) : alter f i (alter g i l) = alter (fun x => f (g x)) i l.
Proof. revert i. induction l as [|x l IH]; intros [|i]; cbn; [done..|]. f_equal. apply IH. Qed.

(** However it ends, completing a controller changes no other one, and keeps its record. *)
Definition of_controller (i : nat) (d d' : Daemon) : Prop :=
  exists f, controllers d' = alter f i (controllers d) /\ forall c, config (f c) = config c.
#[local] Instance of_controller_preorder i : PreOrder (of_controller i).
Proof.
  split.
  - intros d. exists (fun c => c). split; [|done]. generalize (controllers d). intros cs. revert i.
    induction cs as [|x l IH]; intros [|i]; cbn; [done..|]. f_equal. apply IH.
  - intros d1 d2 d3 (f & E1 & Hf) (g & E2 & Hg). exists (fun x => g (f x)). rewrite E2, E1, alter_alter.
    split; [done|]. intros c. by rewrite Hg, Hf.
Qed.
Lemma aside_of i {A} (m : prog Daemon A) : preserves aside m -> preserves (of_controller i) m.
Proof.
  intros Hm d. destruct (Hm d) as (_ & E & _). destruct (of_controller_preorder i) as [Hr _].
  destruct (Hr d) as (f & Ef & Hf). exists f. by rewrite E.
Qed.
Lemma on_port_of i j {A} (m : prog (port * World) A) : preserves (of_controller i) (on_port (W:=W) j m).
Proof.
  intros d. unfold on_port. destruct (ports d !! j) as [p|]; [|reflexivity].
  destruct (m (p, world d)) as [[p' w'] r]. destruct (of_controller_preorder i) as [Hr _].
  destruct (Hr d) as (f & Ef & Hf). by exists f.
Qed.
Lemma on_controller_of i f :
  (forall c, config (f c) = config c) ->
  preserves (of_controller i) (on_controller (Encoder:=Encoder) (Dec:=Dec) (W:=W) i f).
Proof. intros Hf d. by exists f. Qed.
Hint Resolve on_port_of : preserves.

Lemma complete_of i j : preserves (of_controller i) (complete_pending_controller (W:=W) i j).
Proof.
  pose proof (fun cfg => aside_of i _ (resolve_aside cfg)). pose proof (fun a => aside_of i _ (preempt_aside a)).
  unfold complete_pending_controller. solve_preserves; by apply on_controller_of.
Qed.
End Complete.

(** ** The loops end *)

Section Loops.
Context {Encoder Dec W : Type} `{Codecs Encoder Dec}.
Abbreviation port := (VirtualPort Encoder Dec).
Abbreviation Daemon := (Daemon Encoder Dec W).

Definition accepts_kept (d d' : Daemon) : Prop := accepts (host d') = accepts (host d).
#[local] Instance accepts_preorder : PreOrder accepts_kept.
Proof. split; [done|]. intros d1 d2 d3. unfold accepts_kept. congruence. Qed.
Abbreviation kept_ := (preserves accepts_kept).

Lemma on_port_accepts {A} j (m : prog (port * World) A) : kept_ (on_port j m).
Proof. intros d. unfold on_port. destruct (ports d !! j) as [p|]; [|done]. by destruct (m (p, world d)) as [[p' w'] r]. Qed.
Lemma on_world_accepts {A} (m : prog World A) : kept_ (on_world m).
Proof. intros d. unfold on_world. by destruct (m (world d)). Qed.
Lemma on_controller_accepts i f : kept_ (on_controller i f).
Proof. by intros d. Qed.
Lemma hids_accepts : kept_ (on_host (ask hids set_hids None)).
Proof. intros d. unfold on_host, ask. by destruct (hids (host d)). Qed.
Lemma modalias_accepts : kept_ (on_host (ask_result modaliases set_modaliases (Ok None))).
Proof.
  intros d. unfold on_host, ask_result, ask, mbind, prog_bind. by destruct (modaliases (host d)) as [|[v|e] l].
Qed.
Lemma lift_accepts {A} (r : result A) : kept_ (lift r).
Proof. by intros d. Qed.
Lemma dirty_accepts : kept_ mark_dirty.
Proof. by intros d. Qed.
Hint Resolve on_port_accepts on_world_accepts on_controller_accepts hids_accepts modalias_accepts lift_accepts
  dirty_accepts : preserves.

Lemma accept_channel_accepts control from fd_ : kept_ (accept_channel control from fd_).
Proof.
  assert (forall n a deadline, kept_ (preempt_wait n a deadline)) as Hw
    by (induction n; intros; cbn [preempt_wait]; unfold hid_present; solve_preserves).
  unfold accept_channel, assign_port, both_channels, complete_channels, complete_pending_controller,
    resolve_config_profile, detect_bluetooth_profile, preempt_default_bluetooth_owner, hid_present.
  cbv zeta. solve_preserves.
Qed.

Lemma accept_enough n m control (d : Daemon) :
  (length (accepts (host d)) < m <= n)%nat -> accept_loop n control d = accept_loop m control d.
Proof.
  revert m d. induction n as [|n IH]; intros [|m] d Hm; [lia..|]. cbn [accept_loop].
  unfold mbind, prog_bind, on_host, ask_result, ask, mbind, prog_bind, lift.
  destruct (accepts (host d)) as [|[[[from fd_]|]|e] rest] eqn:E; try done. cbn [length] in Hm.
  cbv beta iota.
  match goal with |- context [accept_channel control from fd_ ?d1] =>
    pose proof (accept_channel_accepts control from fd_ d1) as Hk; destruct (accept_channel control from fd_ d1) as [d2 [[]|e]] end;
    [|done].
  apply IH. unfold accepts_kept in Hk. cbn in Hk. rewrite Hk. lia.
Qed.

Definition polls_kept (s s' : port * World) : Prop := polls s'.2 = polls s.2.
#[local] Instance polls_preorder : PreOrder polls_kept.
Proof. split; [done|]. intros s1 s2 s3. unfold polls_kept. congruence. Qed.

Lemma vds_loop_polls n path_ fd_ bytes w : polls (write_vds_loop n path_ fd_ bytes w).1 = polls w.
Proof.
  revert w. induction n as [|n IH]; intros w; [done|]. cbn [write_vds_loop]. unfold mbind, prog_bind, sys_write.
  destruct (writes w) as [|[j|[| | |t]] rest]; try done; [case_match; done..|by rewrite IH].
Qed.

Lemma cache_report_polls report : preserves polls_kept (cache_feature_report (Encoder:=Encoder) (Dec:=Dec) report).
Proof.
  intros [p w]. unfold polls_kept, cache_feature_report. destruct report as [|id rest]; [done|].
  unfold mbind, prog_bind, update, modify, lift. destruct (frame_bytes _ _) as [frame|e]; [|done].
  unfold write_vds_frame, mbind, prog_bind, the_port, io, get_state. cbn [fst snd].
  match goal with |- context [write_vds_loop ?n ?a ?b ?c w] =>
    pose proof (vds_loop_polls n a b c w) as Hp; destruct (write_vds_loop n a b c w) as [w' [[|]|e]] end; done.
Qed.

Lemma read_polls bt w : polls (read_feature_report bt w).1 = polls w.
Proof.
  unfold read_feature_report, bt_read, mbind, prog_bind, sys_read.
  destruct (reads w) as [|[[|z bs]|[| | |e]] rest]; done.
Qed.

Lemma await_enough n m bt id (s : port * World) :
  (length (polls s.2) < m <= n)%nat ->
  await_feature_report n bt id s = await_feature_report m bt id s.
Proof.
  revert m s. induction n as [|n IH]; intros [|m] [p w] Hm; [lia..|]. cbn [await_feature_report fst snd] in *.
  unfold mbind, prog_bind, io, sys_poll. cbn [fst snd].
  destruct (polls w) as [|a rest] eqn:E; [done|]. cbn [length] in Hm.
  assert (forall s1 : port * World, polls s1.2 = rest ->
            await_feature_report n bt id s1 = await_feature_report m bt id s1) as Hs
    by (intros s1 Hs1; apply IH; rewrite Hs1; lia).
  destruct a as [[|] [|]| |[| | |t]]; try done; try (by apply Hs).
  cbv beta iota. cbn [fst snd]. pose proof (read_polls bt (set_polls rest w)) as Hr.
  destruct (read_feature_report bt (set_polls rest w)) as [w1 [[[|z l]|]|e]]; try done; try (by apply Hs).
  pose proof (cache_report_polls (z :: l) (p, w1)) as Hc. unfold polls_kept in Hc.
  destruct (cache_feature_report (z :: l) (p, w1)) as [s1 [[]|e]]; [|done].
  destruct (z =? id); [done|]. apply Hs. cbn [fst snd] in *. rewrite Hc. exact Hr.
Qed.
End Loops.
