(* ===== verification/LinuxDaemonProps.v ===== *)
(** The properties of the Linux daemon. *)
From stdpp Require Import base list strings numbers sorting sets.
From Stdlib Require Import Ascii ZArith Lia.
From S2P Require Import Prelude Text Common Words BtPacket OutputState OutputInv OutputReports Audio Store.
From S2P Require Import Config Control Profile LinuxIo LinuxState LinuxPort LinuxInv LinuxFacts.
From S2P Require Import LinuxDaemon LinuxConnect LinuxReload LinuxLoop LinuxDaemonInv LinuxReloadFacts.
From S2P Require Import LinuxDaemonFacts LinuxPortProps.

Local Open Scope Z_scope.

Section Daemon.
Context {Encoder Dec W : Type} `{Codecs Encoder Dec}.
Abbreviation port := (VirtualPort Encoder Dec).
Abbreviation Daemon := (Daemon Encoder Dec W).

(** ** The whole daemon *)

(** C6. Whatever the driver, the controllers, the clients and the system calls do, and
    however a turn of the loop ends: every port stays well-formed (its queue bounded, its
    controller state as the protocol has it, what waits to be sent newer than what was
    sent, its feature cache by report number), and no two controllers in use have the same
    device. *)
Theorem daemon_invariant `{FileStore W} (list_targets : prog (W * Control.Vars) (list ControllerTarget))
    (ls : Listeners) (db_path : string) (answers : list wakeup) (d : Daemon) :
  ports d = [] -> controllers d = [] -> reads_ok (world d) ->
  let d' := (run_loop list_targets ls db_path answers d).1 in
  Forall port_ok (ports d')
  /\ forall i j ci cj, i <> j -> controllers d' !! i = Some ci -> controllers d' !! j = Some cj ->
       controller_uses_port ci = true -> controller_uses_port cj = true -> device ci <> "" ->
       device ci <> device cj.
Proof.
  intros Hp Hc Hr d'.
  assert (daemon_ok None d) as Hd.
  { constructor; [by rewrite Hp|done|]. rewrite Hc. intros i j ci cj _ Hi. discriminate Hi. }
  apply (run_loop_safe list_targets ls db_path answers) in Hd. fold d' in Hd.
  split; [apply Hd|]. intros i j ci cj Hij Hi Hj Hui Huj Hne Hd'. apply Hne.
  by apply (ok_exclusive _ _ Hd i j ci cj Hij Hi Hj (or_introl Hui) (or_introl Huj)).
Qed.

(** ** Connecting *)

(** C7. A controller whose two channels are open is connected completely or not at all.
    Connected: the driver was told to disconnect and got the profile before anything was
    sent; then each of the three initial feature reports was asked for on the control
    channel, and cached, with only frames to the port sent while it was waited for; then
    the initial state was sent on the interrupt channel, and recorded as what was sent
    last; and the driver was told to connect after all of this was sent.  Otherwise its
    channels and its device are given up, and the daemon goes on; the other controllers are
    not affected either way. *)
Theorem connect_all_or_nothing (i j : nat) (c : ControllerRuntime) (p : port) (d : Daemon) :
  controllers d !! i = Some c -> find_port_index (ports d) (device c) = Some j -> ports d !! j = Some p ->
  exists d' c', complete_channels i d = (d', Ok tt) /\ controllers d' = <[i := c']> (controllers d)
    /\ ((exists profile_ bt p',
           c' = mk_runtime (config c) (device c) (Some profile_) (Some bt) None None true ""
           /\ bt = mk_backend (address (config c)) (default (-1) (pending_control_fd c))
                     (default (-1) (pending_interrupt_fd c))
           /\ commands (world d') = commands (world d)
                ++ [(fd p, "VDS_IOC_DISCONNECT", 0); (fd p, "VDS_IOC_SET_PROFILE", profile_);
                    (fd p, "VDS_IOC_CONNECT", 0)]
           /\ (exists new, opening bt (fd p) new /\ sent (world d') = sent (world d) ++ new)
           /\ moments (world d') = moments (world d)
                ++ [length (sent (world d)); length (sent (world d)); length (sent (world d'))]
           /\ ports d' !! j = Some p'
           /\ Forall (fun id => is_Some (cached id p')) kInitialFeatureReportIds
           /\ last_sent_bt_state p' = Some (state_ initial_output_state) /\ epoll_dirty d' = true)
        \/ (exists profile_ e, c' = idle_runtime (config c) profile_ e)).
Proof.
  intros Hi Hf Hj. unfold complete_channels. unfold mbind at 1, prog_bind at 1, get_state at 1. rewrite Hi, Hf.
  unfold try_catch. unfold mbind at 1, prog_bind at 1.
  destruct (complete_pending_controller i j d) as [d1 [[]|e]] eqn:E.
  - unfold mark_dirty, modify. revert E. unfold complete_pending_controller. unfold mbind at 1, prog_bind at 1, get_state at 1. rewrite Hi.
    unfold mbind at 1, prog_bind at 1. pose proof (resolve_aside (W:=W) (config c) d) as (Hp2 & Hc2 & Hw2 & Hs2).
    destruct (resolve_config_profile (config c) d) as [d2 [profile_|e]]; [|discriminate]. cbn [fst] in *.
    unfold mbind at 1, prog_bind at 1. pose proof (preempt_aside (address (config c)) d2) as (Hp3 & Hc3 & Hw3 & Hs3).
    destruct (preempt_default_bluetooth_owner (address (config c)) d2) as [d3 [[]|e]]; [|discriminate].
    cbn [fst] in *. cbv zeta. set (bt := mk_backend _ _ _).
    unfold mbind at 1, prog_bind at 1. unfold on_controller at 1, modify at 1. set (d4 := set_controllers _ d3).
    unfold mbind at 1, prog_bind at 1. unfold on_port at 1.
    assert (ports d4 !! j = Some p) as Hj4 by (unfold d4; cbn; by rewrite Hp3, Hp2).
    rewrite Hj4. destruct (connect_port bt profile_ (p, world d4)) as [[p5 w5] [[]|e]] eqn:E5; [|discriminate].
    apply connect_port_Ok in E5 as (Hnew & Hmom & Hcmd & _ & Hfd & Hca & Hls & _).
    unfold mbind at 1, prog_bind at 1. unfold on_controller at 1, modify at 1. set (d6 := set_controllers _ _).
    unfold mbind at 1, prog_bind at 1. unfold on_port.
    assert (ports d6 !! j = Some p5) as Hj6.
    { unfold d6. cbn. rewrite list_lookup_insert_eq; [done|]. by eapply lookup_lt_Some. }
    rewrite Hj6. destruct (ioctl_noarg "VDS_IOC_CONNECT" (p5, world d6)) as [[p7 w7] [[]|e]] eqn:E7; [|discriminate].
    apply ioctl_Ok in E7. cbn [fst snd] in E7. destruct E7 as (-> & Hcmd7 & Hmom7 & Hs7).
    unfold driven in Hw2, Hw3.
    assert (commands (world d3) = commands (world d) /\ moments (world d3) = moments (world d)) as [Hw Hm]
      by (split; congruence).
    unfold on_controller, modify. intros [= <-]. eexists _, _. split; [reflexivity|].
    cbn [set_dirty epoll_dirty controllers set_controllers set_ports set_world ports world].
    split.
    + unfold d6, d4. cbn [controllers set_controllers set_ports set_world].
      rewrite Hc3, Hc2, !alter_alter, (alter_lookup _ _ _ c) by done. reflexivity.
    + left. exists profile_, bt, p5. split; [done|]. split; [done|]. split.
      { rewrite Hcmd7. change (commands (world d6)) with (commands w5). rewrite Hcmd, Hfd.
        change (commands (world d4)) with (commands (world d3)). by rewrite Hw, <- (assoc_L app). }
      change (world d6) with w5 in Hs7, Hmom7. change (world d4) with (world d3) in Hnew, Hmom.
      rewrite Hs3, Hs2 in Hnew, Hmom. rewrite Hm in Hmom.
      split; [by rewrite Hs7|]. split; [by rewrite Hmom7, Hmom, Hs7, <- (assoc_L app)|].
      split_and!; try done.
      rewrite list_lookup_insert_eq; [done|]. by eapply lookup_lt_Some.
  - pose proof (complete_of (W:=W) i j d) as (f & Ef & Hcf). rewrite E in Ef. cbn [fst] in Ef.
    unfold on_controller, modify. eexists _, _. split; [reflexivity|]. cbn [controllers set_controllers].
    rewrite Ef, alter_alter. rewrite (alter_lookup _ _ _ c) by done. split; [done|]. right.
    rewrite Hcf. by eexists _, _.
Qed.

(** ** Reloading *)

(** The conditions under which nothing stands in the way of a reload: the codecs can be
    made, enough endpoints can be opened, and the database can be read and has the
    addresses the parser lets through. *)
Record can_reload `{FileStore W} (db_path : string) (nodes : list (option string)) (db : ConfigDb) (d : Daemon) :
    Prop := {
  reload_codecs : is_ok (fresh_extractor (Encoder:=Encoder) (Dec:=Dec)) = true
                  /\ is_ok (create_decoder (Encoder:=Encoder) (Dec:=Dec)) = true;
  reload_nodes : exists rest, misc (host d) = Ok nodes :: rest;
  reload_opens : exists fds, opens (host d) = Ok <$> fds /\ (length (discover_vds_devices nodes) <= length fds)%nat;
  reload_db : exists w', load_config_db db_path (files d) = (w', Ok db);
  reload_addresses : Forall (fun cfg => is_ok (normalize_bluetooth_address (address cfg)) = true) (Config.controllers db)
}.

(** C8. A reload makes the ports the endpoints there are and the controllers the records of
    the database, in their order, with no other; and a controller that is in use stays
    connected through it, with its channels, its device and its state, when its endpoint is
    still there and its record still has its address and profile and allows its port. *)
Theorem reload_follows_database `{FileStore W} (db_path : string) (nodes : list (option string))
    (db : ConfigDb) (d : Daemon) :
  can_reload db_path nodes db d ->
  exists d', reconcile_controller_configs db_path d = (d', Ok tt)
    /\ path <$> ports d' = discover_vds_devices nodes
    /\ config <$> controllers d' = Config.controllers db
    /\ (daemon_ok None d -> NoDup (address <$> Config.controllers db) ->
        NoDup ((fun c => address (config c)) <$> controllers d) ->
        forall c cfg, c ∈ controllers d -> controller_uses_port c = true -> device c <> "" ->
          device c ∈ discover_vds_devices nodes -> cfg ∈ Config.controllers db ->
          address (config c) = address cfg -> profile (config c) = profile cfg ->
          controller_config_allows_path Linux cfg (device c) = true ->
          mk_runtime cfg (device c) (detected_profile c) (backend c) (pending_control_fd c)
            (pending_interrupt_fd c) (virtual_connected c) (last_error c) ∈ controllers d').
Proof.
  intros [[Hx Hd] [rest Hm] [fds [Ho Hl]] [w' Hdb] Hok].
  destruct (reconcile_returns db_path d nodes rest fds w' db Hx Hd Hm Ho Hl Hdb Hok) as (d' & [] & E & Hp & Hc).
  exists d'. split; [done|]. split; [done|]. split; [rewrite Hc; apply plan_configs|].
  intros Hinv Hnd Hold c cfg Hin Hu Hne Hdev Hcfg Ha Hpr Hal. rewrite Hc.
  apply list_elem_of_lookup in Hin as [i Hi].
  assert ((settle (discover_vds_devices nodes) <$> controllers d) !! i = Some c) as Hi'.
  { rewrite list_lookup_fmap, Hi. cbn. unfold settle. unfold is_listed.
    rewrite bool_decide_eq_true_2 by done. by rewrite andb_false_r. }
  eapply plan_keeps; try done.
  - apply exclusive_fmap; [apply settle_modest|apply Hinv].
  - apply not_elem_of_nil.
  - apply not_elem_of_nil.
  - by rewrite Hp.
  - intros k ck Hk Hck. rewrite list_lookup_fmap in Hck.
    destruct (controllers d !! k) as [c0|] eqn:Ek; [|discriminate]. injection Hck as <-.
    assert (config (settle (discover_vds_devices nodes) c0) = config c0) as ->
      by (unfold settle; by destruct (_ && _)).
    rewrite <- Ha. intros Heq. apply Hk. eapply (NoDup_lookup _ _ _ (address (config c)) Hold).
    + rewrite list_lookup_fmap, Ek. cbn. by rewrite Heq.
    + by rewrite list_lookup_fmap, Hi.
Qed.

(** ** Events *)

Lemma event_roundtrip t i : Z.of_nat i < 2 ^ 32 -> decode_event (encode_event t i) = (Some t, i).
Proof.
  intros Hi. unfold decode_event, encode_event.
  assert (u64 (Z.shiftl (event_number t) 32) = event_number t * 2 ^ 32) as ->.
  { rewrite Z.shiftl_mul_pow2 by lia. unfold u64. apply Z.mod_small. destruct t; cbn; lia. }
  assert (u32 (Z.of_nat i) = Z.of_nat i) as -> by (apply Z.mod_small; lia).
  assert (Z.lor (event_number t * 2 ^ 32) (Z.of_nat i) = event_number t * 2 ^ 32 + Z.of_nat i) as ->.
  { symmetry. apply Z.add_nocarry_lor. rewrite <- Z.shiftl_mul_pow2 by lia.
    apply Z.bits_inj'. intros n Hn. rewrite Z.land_spec, Z.bits_0, Z.shiftl_spec by done.
    destruct (Z.lt_ge_cases n 32) as [Hlt|Hge].
    - rewrite Z.testbit_neg_r by lia. done.
    - apply andb_false_intro2, Z.testbit_false; [done|]. rewrite Z.div_small; [done|].
      split; [lia|]. eapply Z.lt_le_trans; [exact Hi|]. apply Z.pow_le_mono_r; lia. }
  rewrite Z.shiftr_div_pow2 by lia. rewrite Z.div_add_l, Z.div_small, Z.add_0_r by lia.
  f_equal; [by destruct t|]. unfold u32. rewrite Z.add_comm, Z.mod_add by lia. rewrite Z.mod_small by lia. lia.
Qed.

Lemma event_of_entry {A} t (l : list A) i x :
  Z.of_nat (length l) < 2 ^ 32 -> l !! i = Some x -> decode_event (encode_event t i) = (Some t, i).
Proof.
  intros Hl Hi. apply event_roundtrip. apply lookup_lt_Some in Hi. eapply Z.lt_trans; [|exact Hl]. lia.
Qed.

(** What an event of the table stands for. *)
Definition owns (ls : Listeners) (ps : list port) (cs : list ControllerRuntime) (fd_ : Z)
    (event : option EventType * nat) : Prop :=
  match event with
  | (Some ControlEvent, _) => fd_ = control_listener ls
  | (Some Udev, _) => fd_ = udev_monitor ls
  | (Some BtAcceptControl, _) => fd_ = bt_control_listener ls
  | (Some BtAcceptInterrupt, _) => fd_ = bt_interrupt_listener ls
  | (Some PortEvent, j) => exists p, ps !! j = Some p /\ fd_ = fd p
  | (Some BtControl, i) => exists c bt, cs !! i = Some c /\ backend c = Some bt /\ fd_ = control_fd bt
  | (Some BtInterrupt, i) => exists c bt, cs !! i = Some c /\ backend c = Some bt /\ fd_ = interrupt_fd bt
  | (None, _) => False
  end.

(** The table of descriptors the daemon waits on is exact: an event that is read back
    from it leads to the listener, the port or the channel whose descriptor it came with,
    and every port and every channel of a connected controller is in it. *)
Theorem epoll_table_exact (ls : Listeners) (ps : list port) (cs : list ControllerRuntime) :
  Z.of_nat (length ps) < 2 ^ 32 -> Z.of_nat (length cs) < 2 ^ 32 ->
  Forall (fun e => owns ls ps cs e.1 (decode_event e.2)) (epoll_entries ls ps cs)
  /\ (forall j p, ps !! j = Some p -> (fd p, encode_event PortEvent j) ∈ epoll_entries ls ps cs)
  /\ (forall i c bt, cs !! i = Some c -> backend c = Some bt ->
        (control_fd bt, encode_event BtControl i) ∈ epoll_entries ls ps cs
        /\ (interrupt_fd bt, encode_event BtInterrupt i) ∈ epoll_entries ls ps cs).
Proof.
  intros Hps Hcs. unfold epoll_entries. split; [|split].
  - apply Forall_app_2; [|].
    { repeat (apply Forall_cons; split; [cbn [fst snd]; rewrite event_roundtrip by (cbn; lia); reflexivity|]).
      apply Forall_nil_2. }
    apply Forall_app_2.
    + apply Forall_forall. intros e He. apply list_elem_of_lookup in He as [j Hj].
      rewrite list_lookup_imap in Hj. apply fmap_Some in Hj as (p & E & ->).
      cbn [fst snd]. rewrite (event_of_entry PortEvent _ _ _ Hps E). by exists p.
    + apply Forall_concat. apply Forall_forall. intros l Hl. apply list_elem_of_lookup in Hl as [i Hi].
      rewrite list_lookup_imap in Hi. apply fmap_Some in Hi as (c & E & ->).
      destruct (backend c) as [bt|] eqn:Eb; [|apply Forall_nil_2]. 
      apply Forall_cons. split.
      { cbn [fst snd]. rewrite (event_of_entry BtControl _ _ _ Hcs E). by exists c, bt. }
      apply Forall_singleton. cbn [fst snd]. rewrite (event_of_entry BtInterrupt _ _ _ Hcs E). by exists c, bt.
  - intros j p Hj. apply elem_of_app. right. apply elem_of_app. left. apply list_elem_of_lookup. exists j.
    by rewrite list_lookup_imap, Hj.
  - intros i c bt Hi Hb.
    assert (forall x, x ∈ [(control_fd bt, encode_event BtControl i); (interrupt_fd bt, encode_event BtInterrupt i)] ->
      x ∈ concat (imap (fun i c => match backend c with
       | None => []
       | Some bt => [(control_fd bt, encode_event BtControl i); (interrupt_fd bt, encode_event BtInterrupt i)]
       end) cs)) as Hin.
    { intros x Hx. apply list_elem_of_In, List.in_concat. eexists. split; [|exact (proj1 (list_elem_of_In _ _) Hx)].
      apply list_elem_of_In, list_elem_of_lookup. exists i.
      rewrite list_lookup_imap, Hi. cbn. by rewrite Hb. }
    split; apply elem_of_app; right; apply elem_of_app; right; apply Hin; set_solver.
Qed.
End Daemon.
