(* ===== verification/LinuxLoopProps.v ===== *)
(** The properties of the Linux daemon's event loop: errors, waiting, and that its loops
    end. *)
From stdpp Require Import base list strings numbers sorting.
From Stdlib Require Import Ascii ZArith Lia.
From S2P Require Import Prelude Text Common Words BtPacket OutputState OutputInv Audio Store Config Control.
From S2P Require Import Profile Bluez LinuxFs LinuxIo LinuxState LinuxPort LinuxInv LinuxFacts LinuxDaemon.
From S2P Require Import LinuxConnect LinuxReload LinuxLoop LinuxDaemonInv LinuxReloadFacts LinuxDaemonFacts.
From S2P Require Import LinuxPortProps LinuxDaemonProps.

Local Open Scope Z_scope.

(** ** The endpoints *)

Lemma is_vds_nonempty n : is_vds_device_path n = true -> n <> "".
Proof. by intros Hn ->. Qed.

#[local] Instance string_le_total : Total string_le.
Proof. intros x y. apply String.leb_total. Qed.

(** The endpoints found are the nodes of the form /dev/vds with a number, each as often
    as it was reported, in the order of their names: so the binary searches in them find
    what is there. *)
Theorem endpoints_found (nodes : list (option string)) :
  Sorted string_le (discover_vds_devices nodes)
  /\ Permutation (discover_vds_devices nodes) (filter (fun n => is_vds_device_path n = true) (omap id nodes))
  /\ forall n, is_listed (discover_vds_devices nodes) n = true
       <-> Some n ∈ nodes /\ is_vds_device_path n = true.
Proof.
  assert (Permutation (discover_vds_devices nodes)
            (filter (fun n => is_vds_device_path n = true) (omap id nodes))) as Hp.
  { unfold discover_vds_devices. rewrite merge_sort_Permutation. apply Permutation_refl'.
    induction nodes as [|[n|] nodes IH]; [done| |done]. cbn [fmap list_fmap omap list_omap id].
    cbn [filter list_filter require_vds_devnode]. destruct (is_vds_device_path n) eqn:E.
    - rewrite !decide_True by (done || by apply is_vds_nonempty). f_equal. exact IH.
    - rewrite !decide_False by (try done; intros []; done). exact IH. }
  split; [|split; [exact Hp|]].
  - unfold discover_vds_devices. apply (Sorted_merge_sort string_le).
  - intros n. unfold is_listed. rewrite bool_decide_eq_true, Hp, list_elem_of_filter, list_elem_of_omap.
    split; [intros [Hn (x & Hx & Hxn)]; unfold id in Hxn; by subst|]. intros [Hx Hn]. split; [done|]. by exists (Some n).
Qed.

Section Loop.
Context {Encoder Dec W : Type} `{Codecs Encoder Dec}.
Abbreviation port := (VirtualPort Encoder Dec).
Abbreviation Daemon := (Daemon Encoder Dec W).

(** ** Errors *)

(** What a port is after its controller is lost. *)
Definition silent (p : port) : Prop :=
  pending_bt_state p = None /\ pending_bt_state_report p = None /\ pending_audio_chunks p = []
  /\ audio_out_stream_active p = false /\ audio_in_stream_active p = false
  /\ speaker_waveout_active p = false /\ mic_muted p = false.

Lemma drop_spec i j c bt (p : port) (d : Daemon) :
  controllers d !! i = Some c -> backend c = Some bt -> ports d !! j = Some p ->
  exists p' w', drop_bt_backend i j d
      = (set_controllers (<[i := released c]> (controllers d)) (set_ports (<[j := p']> (ports d)) (set_world w' d)), Ok tt)
    /\ path p' = path p /\ fd p' = fd p /\ silent p' /\ sent w' = sent (world d)
    /\ (ioctls (world d) = [] -> commands w' = commands (world d) ++ [(fd p, "VDS_IOC_DISCONNECT", 0)]).
Proof.
  intros Hi Hb Hj. pose proof (lookup_lt_Some _ _ _ Hj) as Hl.
  unfold drop_bt_backend, mbind, prog_bind, get_state. rewrite Hi, Hb. change (is_open (Some bt)) with true. cbn [negb andb].
  unfold on_port at 1. rewrite Hj. unfold update, modify. cbn [fst snd].
  unfold on_controller, modify.
  unfold on_port. cbn [ports set_ports set_controllers set_world world controllers].
  rewrite list_lookup_insert_eq by done.
  unfold disconnect_virtual_port, mbind, prog_bind, update, modify, try_catch, ioctl_noarg, ioctl_with, mbind,
    prog_bind, the_port, io, sys_ioctl. cbn [fst snd].
  rewrite (alter_lookup _ _ _ c Hi).
  destruct (ioctls (world d)) as [|[e|] rest] eqn:E; unfold mret, prog_ret, throw;
    cbv beta iota; rewrite ?list_insert_insert_eq; eexists _, _; (split; [reflexivity|]);
    split_and!; try done; by intros.
Qed.

(** C9. An error of a Bluetooth channel costs that controller its connection and nothing
    else: it is released, its port is silenced, keeps its endpoint and is disconnected
    from USB, the other ports and controllers are as before, and the daemon goes on and
    will look at its descriptors again.  Another error ends the turn. *)
Theorem bluetooth_error_isolated (turn : BtL2capBackend -> prog (port * World) bool)
    (i j : nat) (c : ControllerRuntime) (bt : BtL2capBackend) (p p' : port) (w' : World) (e : string) (d : Daemon) :
  controllers d !! i = Some c -> backend c = Some bt -> find_port_index (ports d) (device c) = Some j ->
  ports d !! j = Some p -> turn bt (p, world d) = ((p', w'), Throw e) ->
  exists d' r, handle_bt_event i turn true false d = (d', r) /\
    if is_bluetooth_error e then
      r = Ok tt /\ epoll_dirty d' = true /\ controllers d' = <[i := released c]> (controllers d)
      /\ (exists q, ports d' = <[j := q]> (ports d) /\ path q = path p' /\ fd q = fd p' /\ silent q)
      /\ sent (world d') = sent w'
      /\ (ioctls w' = [] -> commands (world d') = commands w' ++ [(fd p', "VDS_IOC_DISCONNECT", 0)])
    else r = Throw e /\ controllers d' = controllers d /\ ports d' = <[j := p']> (ports d).
Proof.
  intros Hi Hb Hf Hj Ht. pose proof (lookup_lt_Some _ _ _ Hj) as Hl.
  unfold handle_bt_event. unfold mbind at 1, prog_bind at 1, get_state at 1. rewrite Hi, Hb, Hf.
  unfold mbind at 1, prog_bind at 1. unfold kMaxBtPacketsPerWake. cbn [up_to].
  unfold mbind at 1, prog_bind at 1. unfold bluetooth_catch, try_catch, on_port at 1. rewrite Hj, Ht.
  set (d1 := set_ports _ _). destruct (is_bluetooth_error e) eqn:He.
  - destruct (drop_spec i j c bt p' d1) as (q & w & E & Hp & Hfd & Hs & Hsent & Hc); [done|done| |].
    { unfold d1. cbn. by rewrite list_lookup_insert_eq. }
    unfold mbind at 1, prog_bind at 1. rewrite E. unfold mark_dirty, modify.
    eexists _, _. split; [reflexivity|]. split_and!; try done.
    exists q. split; [|done]. unfold d1. cbn. by rewrite list_insert_insert_eq.
  - eexists _, _. split; [reflexivity|]. done.
Qed.

(** ** Waiting *)

Definition due (now : Z) (p : port) : Prop :=
  pending_audio_chunks p <> [] /\ (next_haptics_send_time p = 0 \/ next_haptics_send_time p <= now).

Lemma has_chunks (p : port) : (length (pending_audio_chunks p) =? 0)%nat = bool_decide (pending_audio_chunks p = []).
Proof. by destruct (pending_audio_chunks p). Qed.

Lemma due_now now (p : port) :
  (next_haptics_send_time p =? 0) || (next_haptics_send_time p <=? now) = true <->
  next_haptics_send_time p = 0 \/ next_haptics_send_time p <= now.
Proof. by rewrite orb_true_iff, Z.eqb_eq, Z.leb_le. Qed.

(** The wait rounded up: never zero, and less than a millisecond late. *)
Lemma wait_rounded delay : 0 < delay ->
  1 <= (delay + 999999) / 1000000 /\ ((delay + 999999) / 1000000) * 1000000 < delay + 1000000.
Proof.
  intros Hd. pose proof (Z.div_mod (delay + 999999) 1000000 ltac:(lia)).
  pose proof (Z.mod_pos_bound (delay + 999999) 1000000 ltac:(lia)). lia.
Qed.

Lemma audio_timeout_spec (ps : list port) cs now t : 0 < t ->
  let r := audio_timeout ps cs now t in
  0 <= r <= t
  /\ (r = 0 <-> exists c p, c ∈ cs /\ connected_port ps c = Some p /\ due now p)
  /\ (forall c p, c ∈ cs -> connected_port ps c = Some p -> pending_audio_chunks p <> [] ->
        r * 1000000 < Z.max 0 (next_haptics_send_time p - now) + 1000000).
Proof.
  revert t. induction cs as [|c cs IH]; intros t Ht r.
  { subst r. cbn [audio_timeout]. split; [lia|]. split; [|by intros c p Hc; apply elem_of_nil in Hc].
    split; [lia|]. intros (c & p & Hc & _). by apply elem_of_nil in Hc. }
  assert (forall t', 0 < t' <= t -> r = audio_timeout ps cs now t' ->
    (forall p, connected_port ps c = Some p -> pending_audio_chunks p <> [] -> ~ due now p
       /\ t' * 1000000 < Z.max 0 (next_haptics_send_time p - now) + 1000000) ->
    0 <= r <= t /\ (r = 0 <-> exists c' p, c' ∈ c :: cs /\ connected_port ps c' = Some p /\ due now p)
    /\ (forall c' p, c' ∈ c :: cs -> connected_port ps c' = Some p -> pending_audio_chunks p <> [] ->
          r * 1000000 < Z.max 0 (next_haptics_send_time p - now) + 1000000)) as Hrest.
  { intros t' Ht' Hr Hown. destruct (IH t') as (Hb & Hz & Hl); [lia|]. rewrite <- Hr in *.
    split; [lia|]. split.
    - rewrite Hz. split; intros (c' & p & Hc & Hp & Hd); exists c', p; [by split; [right|]|].
      apply elem_of_cons in Hc as [->|Hc]; [|done]. by destruct (Hown p Hp (proj1 Hd)) as [[] _].
    - intros c' p Hc Hp Hq. apply elem_of_cons in Hc as [->|Hc]; [|by apply (Hl c' p)].
      destruct (Hown p Hp Hq) as [_ ?]. lia. }
  subst r. cbn [audio_timeout] in *. destruct (connected_port ps c) as [p|] eqn:Ep; [|by apply (Hrest t)].
  rewrite has_chunks in *. case_bool_decide as Hq.
  { apply (Hrest t); [lia|done|]. by intros p' [= <-]. }
  destruct (_ || _) eqn:Ed in *.
  - apply due_now in Ed. split; [lia|]. split; [|lia].
    split; [|done]. intros _. exists c, p. split; [left|]. done.
  - assert (~ (next_haptics_send_time p = 0 \/ next_haptics_send_time p <= now)) as Hn
      by (rewrite <- due_now, Ed; discriminate).
    destruct (wait_rounded (next_haptics_send_time p - now)) as [H1 H2]; [lia|].
    apply (Hrest (Z.min t ((next_haptics_send_time p - now + 999999) / 1000000))); [lia|done|].
    intros p' [= <-] _. split; [by intros [_ ?]|]. lia.
Qed.

(** The daemon wakes up in time.  It does not wait when and only when the audio of a
    connected controller is due; otherwise it waits less than a millisecond past the time
    of any of them, at most two milliseconds while anything waits to be sent, and a minute
    when nothing does. *)
Theorem wakeup_in_time (ps : list port) (cs : list ControllerRuntime) (now : Z) :
  let t := next_wakeup_timeout_ms ps cs now in
  0 <= t <= 60000
  /\ (t = 0 <-> exists c p, c ∈ cs /\ connected_port ps c = Some p /\ due now p)
  /\ (forall c p, c ∈ cs -> connected_port ps c = Some p -> pending_audio_chunks p <> [] ->
        t * 1000000 < Z.max 0 (next_haptics_send_time p - now) + 1000000)
  /\ (has_pending_bt_output ps cs = true -> t <= 2)
  /\ (has_pending_bt_output ps cs = false -> t = 60000).
Proof.
  intros t. unfold t, next_wakeup_timeout_ms.
  destruct (audio_timeout_spec ps cs now (if has_pending_bt_output ps cs then Z.min 60000 kPendingOutputPollMs else 60000))
    as (Hb & Hz & Hl); [by destruct (has_pending_bt_output ps cs)|].
  split; [destruct (has_pending_bt_output ps cs); lia|]. split; [exact Hz|]. split; [exact Hl|].
  destruct (has_pending_bt_output ps cs) eqn:E; (split; [|done]) || (split; [done|]); [intros _; change (Z.min 60000 kPendingOutputPollMs) with 2 in *; lia|].
  intros _. assert (forall c p, c ∈ cs -> connected_port ps c = Some p -> pending_audio_chunks p = []) as Hno.
  { intros c p Hc Hp. destruct (decide (pending_audio_chunks p = [])) as [|Hq]; [done|]. exfalso.
    revert E. apply not_false_iff_true, existsb_exists. exists c. split; [by apply list_elem_of_In|].
    rewrite Hp, has_chunks, bool_decide_eq_false_2 by done. cbn. by rewrite orb_true_r. }
  clear -Hno. induction cs as [|c cs IH]; [done|]. cbn [audio_timeout].
  destruct (connected_port ps c) as [p|] eqn:Ep; [|apply IH; intros c' p Hc Hp; apply (Hno c' p); [by right|done]].
  rewrite (Hno c p) by (done || left). apply IH. intros c' p' Hc Hp; apply (Hno c' p'); [by right|done].
Qed.

(** ** The loops end *)

(** The rounds that are allowed for are never used up by a write. *)
Lemma try_write_never_stuck fd_ bytes w : (try_write_packet fd_ bytes w).2 <> Throw "<fuel>".
Proof.
  unfold try_write_packet, mbind, prog_bind, get_state.
  assert (forall n w, (length (writes w) < n)%nat -> (try_write_loop n fd_ bytes w).2 <> Throw "<fuel>") as Hn.
  { clear. intros n. induction n as [|n IH]; intros w Hw; [lia|]. cbn [try_write_loop].
    unfold mbind, prog_bind, sys_write.
    destruct (writes w) as [|[k|[| | |t]] rest]; cbn [length] in Hw; try done;
      try (by case_match). apply IH. cbn. lia. }
  apply Hn. lia.
Qed.

Lemma write_full_never_stuck fd_ bytes ms w : (write_full fd_ bytes bt_label ms w).2 <> Throw "<fuel>".
Proof.
  unfold write_full, mbind, prog_bind, get_state.
  assert (forall n bytes w, (S (length (writes w)) < n)%nat ->
            (write_full_loop n fd_ bytes bt_label ms w).2 <> Throw "<fuel>") as Hn; [|apply Hn; lia].
  clear. intros n. induction n as [|n IH]; intros bytes w Hw; [lia|]. cbn [write_full_loop].
  destruct (length bytes =? 0)%nat eqn:Hb; [done|]. unfold mbind, prog_bind, sys_write.
  destruct (writes w) as [|[k|e] rest] eqn:E; cbn [length] in Hw.
  - destruct (length bytes) as [|l] eqn:Hl; [done|]. destruct n as [|n]; [lia|].
    cbn [write_full_loop]. by rewrite drop_ge by lia.
  - destruct (Nat.min k (length bytes)); [done|]. apply IH. cbn. lia.
  - assert (forall w', writes w' = rest -> (write_full_loop n fd_ bytes bt_label ms w').2 <> Throw "<fuel>") as Hr
      by (intros w' Hw'; apply IH; rewrite Hw'; lia).
    destruct e; try done; [by apply Hr| | |]; destruct (_ && _); try done;
      unfold sys_poll; cbn [polls set_writes];
      destruct (polls w) as [|[[|] ?| |[| | |?]] ?]; try done; by apply Hr.
Qed.

(** Every loop of the daemon that is not over a list ends, however often calls are
    interrupted or would block: the rounds allowed for are enough, since more of them give
    the same state and result - in writing to a channel in full or at once, in writing to a
    port, in waiting for a feature report and in accepting channels - and a write to a
    channel never runs out of them. *)
Theorem loops_end :
  (forall n fd_ bytes label ms w, (S (length (writes w)) < n)%nat ->
     write_full_loop n fd_ bytes label ms w = write_full fd_ bytes label ms w)
  /\ (forall n fd_ bytes w, (length (writes w) < n)%nat ->
        try_write_loop n fd_ bytes w = try_write_packet fd_ bytes w)
  /\ (forall fd_ bytes ms w, (write_full fd_ bytes bt_label ms w).2 <> Throw "<fuel>"
        /\ (try_write_packet fd_ bytes w).2 <> Throw "<fuel>")
  /\ (forall n path_ fd_ bytes w, (length (writes w) < n)%nat ->
        write_vds_loop n path_ fd_ bytes w = write_vds_loop (S (length (writes w))) path_ fd_ bytes w)
  /\ (forall n bt id (s : port * World), (length (polls s.2) < n)%nat ->
        await_feature_report n bt id s = await_feature_report (S (length (polls s.2))) bt id s)
  /\ (forall n control (d : Daemon), (length (accepts (host d)) < n)%nat ->
        accept_loop n control d = handle_bt_accept control d).
Proof.
  split; [intros; apply write_full_enough; lia|]. split; [intros; by apply try_write_enough|].
  split; [intros; split; [apply write_full_never_stuck|apply try_write_never_stuck]|].
  split; [intros; apply write_vds_enough; lia|]. split; [intros; apply await_enough; lia|].
  intros. unfold handle_bt_accept, mbind, prog_bind, get_state. apply accept_enough. lia.
Qed.
End Loop.

(** ** The properties at concrete daemons *)

#[local] Existing Instance demo_codecs.

Definition demo_config : ControllerConfig := mk_config "00:11:22:33:44:55" Dse [0; 3].
Definition demo_db_path : string := "/var/lib/vds/vdsd.db".
Definition demo_files : LinuxFs :=
  mk_fs {[demo_db_path := serialize_config_db (mk_db [demo_config])]} false [].
Definition demo_host : Host := mk_host [] [] [] [] [] [] [] [] [].
Definition demo_vars : Vars := mk_vars 0 false [].
(** With both channels open, and connected. *)
Definition demo_pending : ControllerRuntime :=
  mk_runtime demo_config "/dev/vds0" None None (Some 6) (Some 7) false "".
Definition demo_connected : ControllerRuntime :=
  mk_runtime demo_config "/dev/vds0" (Some 2) (Some demo_backend) None None true "".
Definition demo_daemon (cs : list ControllerRuntime) (w : World) (h : Host) : Daemon Z Z LinuxFs :=
  mk_daemon [demo_port] cs w h demo_files demo_vars false None [].
Definition demo_listeners : Listeners := mk_listeners 20 21 22 23.
Definition demo_bus_daemon : Daemon Z Z (LinuxFs * Bus) :=
  mk_daemon [] [] demo_world demo_host (demo_files, mk_bus [] [] []) demo_vars false None [].
Definition demo_targets : prog (LinuxFs * Vars) (list ControllerTarget) := mret [].

Lemma daemon_invariant_witness :
  let d' := (run_loop daemon_targets demo_listeners demo_db_path [Interrupted; Events []] demo_bus_daemon).1 in
  Forall port_ok (ports d').
Proof. apply daemon_invariant; [done|done|apply demo_reads_ok]. Defined.

(** The three feature reports arrive. *)
Definition answering_world : World :=
  mk_world [] [Received [0xa3; 0x09; 1]; Received [0xa3; 0x20; 2]; Received [0xa3; 0x05; 3]]
    [PollEvents true false; PollEvents true false; PollEvents true false] [] 0 [] [] [] [].
Example answered_connects :
  let out := complete_channels 0 (demo_daemon [demo_pending] answering_world demo_host) in
  out.2 = Ok tt /\ (virtual_connected <$> controllers out.1) = [true]
  /\ (sent (world out.1)).*1 = [6; 5; 6; 5; 6; 5; 7] /\ moments (world out.1) = [0; 0; 7]%nat.
Proof. vm_compute. split_and!; reflexivity. Qed.

Lemma connect_all_or_nothing_witness :
  exists d' c', complete_channels 0 (demo_daemon [demo_pending] answering_world demo_host) = (d', Ok tt)
    /\ controllers d' = [c'] /\ virtual_connected c' = true.
Proof.
  pose proof answered_connects as (_ & Hv & _). cbv zeta in Hv.
  destruct (connect_all_or_nothing 0 0 demo_pending demo_port
    (demo_daemon [demo_pending] answering_world demo_host)) as (d' & c' & E & Hc & _);
    [reflexivity|reflexivity|reflexivity|].
  rewrite E in Hv. cbn [fst] in Hv. rewrite Hc in Hv. injection Hv as Hv.
  exists d', c'. split; [exact E|]. split; [exact Hc|exact Hv].
Defined.

(** A second endpoint appears. *)
Definition two_nodes : list (option string) := [Some "/dev/vds1"; None; Some "/dev/other"; Some "/dev/vds0"].
Definition two_hosts : Host := mk_host [] [] [Ok two_nodes] [] [Ok 8; Ok 9] [] [] [] [].
Lemma demo_can_reload :
  can_reload demo_db_path two_nodes (mk_db [demo_config]) (demo_daemon [demo_connected] demo_world two_hosts).
Proof.
  constructor.
  - split; reflexivity.
  - exists []. reflexivity.
  - exists [8; 9]. split; [reflexivity|]. apply Nat.leb_le. vm_compute. reflexivity.
  - eexists. vm_compute. reflexivity.
  - apply Forall_singleton. vm_compute. reflexivity.
Qed.

Lemma reload_follows_database_witness :
  exists d', reconcile_controller_configs demo_db_path (demo_daemon [demo_connected] demo_world two_hosts) = (d', Ok tt)
    /\ path <$> ports d' = ["/dev/vds0"; "/dev/vds1"] /\ demo_connected ∈ controllers d'.
Proof.
  destruct (reload_follows_database _ _ _ _ demo_can_reload) as (d' & E & Hp & _ & Hk).
  exists d'. split; [exact E|]. split; [rewrite Hp; vm_compute; reflexivity|].
  apply (Hk) with (c := demo_connected) (cfg := demo_config); try reflexivity.
  - constructor; [apply Forall_singleton, demo_port_ok|apply demo_reads_ok|].
    intros i j ci cj Hij Hi Hj. destruct i as [|i], j as [|j]; done.
  - apply NoDup_singleton.
  - apply NoDup_singleton.
  - apply list_elem_of_singleton. reflexivity.
  - discriminate.
  - vm_compute. left.
  - apply list_elem_of_singleton. reflexivity.
Defined.

Lemma epoll_table_exact_witness :
  (fd demo_port, encode_event PortEvent 0) ∈ epoll_entries demo_listeners [demo_port] [demo_connected]
  /\ (6, encode_event BtControl 0) ∈ epoll_entries demo_listeners [demo_port] [demo_connected].
Proof.
  destruct (epoll_table_exact demo_listeners [demo_port] [demo_connected]) as (_ & Hp & Hc); [done|done|].
  split; [by apply Hp|]. by apply (Hc 0%nat demo_connected demo_backend).
Defined.

(** The controller closes its channel. *)
Definition closed_world : World := mk_world [] [Received []] [] [] 0 [] [] [] [].
Lemma bluetooth_error_isolated_witness :
  exists d' r, handle_bt_event 0 handle_bt_input true false (demo_daemon [demo_connected] closed_world demo_host) = (d', r)
    /\ r = Ok tt /\ controllers d' = [released demo_connected].
Proof.
  destruct (bluetooth_error_isolated handle_bt_input 0 0 demo_connected demo_backend demo_port demo_port demo_world
    "Bluetooth L2CAP interrupt channel closed" (demo_daemon [demo_connected] closed_world demo_host))
    as (d' & r & E & Hr & _ & Hc & _); [reflexivity..|].
  exists d', r. split; [exact E|]. split; [exact Hr|exact Hc].
Defined.

(** ** What modelling showed *)

(** When a new endpoint cannot be opened, the ports are left moved away, and making the
    table of descriptors ends the daemon. *)
Definition refused_host : Host := mk_host [] [] [Ok two_nodes] [] [Throw "Permission denied"] [] [] [] [].
Example failed_open_ends_daemon :
  let d := set_dirty true (request_reload true (demo_daemon [] demo_world refused_host)) in
  let out := loop_turn demo_targets demo_listeners demo_db_path (Events []) d in
  out.2 = Throw "epoll add failed: Bad file descriptor" /\ path <$> ports out.1 = [""].
Proof. vm_compute. split; reflexivity. Qed.

(** A state report that waits is sent after a newer one about the microphone: the mute
    button is pressed while a report waits, the controller gets the report with the light
    of the button on, and then the one from before, with the light off. *)
Definition mute_led (packet : Z * list Z) : Z :=
  byte_at packet.2 (1 + kBtStateOffset + kOutputMuteLedOffset).
Example waiting_report_undoes_mute :
  let out := (_ ← forward_bt_state_if_changed demo_backend;
              _ ← update_mic_controls (<[kUsbInputMuteButtonOffset := 4]> (replicate 64 0)) demo_backend;
              flush_pending_bt_state_report demo_backend) (demo_port, busy_world) in
  mic_muted out.1.1 = true /\ mute_led <$> sent out.1.2 = [kMuteLedOn; kMuteLedOff].
Proof. vm_compute. split; reflexivity. Qed.
