(* ===== verification/WinIo.v ===== *)
(** Frames over the handle of a device (src/src/platform/win32/vds_io.cc): overlapped
    reads and writes, in full, and the frames made of them; error messages
    (src/src/platform/win32/vds_win32.cc).

    What the system answers to an operation is given by a list, as are the bytes a device
    has for its reader; the text [FormatMessageA] has for an error code is a parameter, as is the
    environment of the process. *)
From stdpp Require Import base list strings numbers.
From Stdlib Require Import Ascii ZArith Lia.
From S2P Require Import Prelude Text Words BtPacket.

Local Open Scope Z_scope.

Definition ERROR_IO_PENDING : Z := 997.
Definition ERROR_IO_INCOMPLETE : Z := 996.
Definition ERROR_OPERATION_ABORTED : Z := 995.
Definition MAXDWORD : Z := 0xffffffff.

(** [GetOverlappedResult]: the bytes moved, or the error code. *)
Inductive overlapped_result := Transferred (n : nat) | Error (code : Z).
Inductive wait_result := WaitCompleted | WaitStopEvent | WaitFailed (code : Z).

(** What happens to one operation: making the event, starting, asking for the result,
    waiting, asking again; whether a stop is requested when that is looked at, and the
    bytes that are moved although the operation fails. *)
Record overlapped := mk_overlapped {
  event_error : option Z;
  start_error : option Z;
  first_result : overlapped_result;
  waited : wait_result;
  second_result : overlapped_result;
  stop_seen : bool;
  moved_anyway : nat
}.

(** An operation that completes at once with [n] bytes. *)
Definition completes (n : nat) : overlapped :=
  mk_overlapped None None (Transferred n) WaitCompleted (Transferred n) false 0.

(** A handle: the answers of the system, the bytes to be read, the bytes written. *)
Record HandleIo := mk_handle {
  operations : list overlapped;
  incoming : list Z;
  outgoing : list Z
}.

(** [FormatMessageA] ([None] when it fails) and [GetEnvironmentVariableA] ([None] when the
    variable is not set). *)
Class WinSystem := {
  format_message : Z -> option string;
  environment_variable : string -> option string
}.

Section Io.
Context `{WinSystem}.

(** [while (!text.empty() && (text.back() == '\r' || text.back() == '\n')) pop_back()] *)
Definition line_end (c : ascii) : bool := bool_decide (c = "013"%char) || bool_decide (c = "010"%char).
Fixpoint strip_line_ends (text : string) : string :=
  match text with
  | EmptyString => ""
  | String c rest =>
      let r := strip_line_ends rest in
      if decide (r = "") then (if line_end c then "" else String c "") else String c r
  end.

Definition win32_error_message (error : Z) : string :=
  match format_message error with
  | None | Some "" => "Win32 error " +:+ to_string error
  | Some text => strip_line_ends text
  end.

(** [HandleIoCancellation]; the stop event is what [WaitStopEvent] answers. *)
Context (operation_aborted_is_stop : bool).

Definition is_stop_requested (o : overlapped) : bool := operation_aborted_is_stop || stop_seen o.
Definition stopped_message (label operation : string) : string :=
  label +:+ " " +:+ operation +:+ " stopped".
Definition failed_message (label operation : string) (error : Z) : string :=
  label +:+ " " +:+ operation +:+ " failed: " +:+ win32_error_message error.

(** What is thrown for an error of [GetOverlappedResult]. *)
Definition result_error (o : overlapped) (label operation : string) (error : Z) : string :=
  if (error =? ERROR_OPERATION_ABORTED) && is_stop_requested o
  then stopped_message label operation else failed_message label operation error.

Definition finish_overlapped_io (o : overlapped) (label operation : string) : result nat :=
  match first_result o with
  | Transferred n => Ok n
  | Error error =>
      if negb (error =? ERROR_IO_INCOMPLETE) then Throw (result_error o label operation error)
      else
        match waited o with
        | WaitStopEvent => Throw (stopped_message label operation)
        | WaitFailed e =>
            Throw (label +:+ " " +:+ operation +:+ " wait failed: " +:+ win32_error_message e)
        | WaitCompleted =>
            match second_result o with
            | Transferred n => Ok n
            | Error error => Throw (result_error o label operation error)
            end
        end
  end.

(** [read_overlapped] and [write_overlapped] up to the bytes themselves. *)
Definition overlapped_io (o : overlapped) (label operation : string) : result nat :=
  match event_error o with
  | Some e => Throw (label +:+ " " +:+ operation +:+ " event failed: " +:+ win32_error_message e)
  | None =>
      match start_error o with
      | Some e =>
          if e =? ERROR_IO_PENDING then finish_overlapped_io o label operation
          else Throw (failed_message label operation e)
      | None => finish_overlapped_io o label operation
      end
  end.

(** An operation moves at most what the buffer holds; a reader, what has come. *)
Definition read_overlapped (size : nat) (label : string) : prog HandleIo (list Z) := fun h =>
  let room := Nat.min size (length (incoming h)) in
  let o := default (completes room) (head (operations h)) in
  let n := Nat.min (match overlapped_io o label "read" with Ok n => n | Throw _ => moved_anyway o end) room in
  (mk_handle (tail (operations h)) (drop n (incoming h)) (outgoing h),
   _ ← overlapped_io o label "read"; Ok (take n (incoming h))).

Definition write_overlapped (bytes : list Z) (label : string) : prog HandleIo nat := fun h =>
  let o := default (completes (length bytes)) (head (operations h)) in
  let n := Nat.min (match overlapped_io o label "write" with Ok n => n | Throw _ => moved_anyway o end)
             (length bytes) in
  (mk_handle (tail (operations h)) (incoming h) (outgoing h ++ take n bytes),
   _ ← overlapped_io o label "write"; Ok n).

(** The loops of [read_handle_exact] and [write_handle_exact]: each round moves a byte, so
    the bytes that remain bound the rounds. *)
Fixpoint read_exact_loop (fuel remaining : nat) (label : string) : prog HandleIo (list Z) :=
  match fuel with
  | O => throw "<fuel>"
  | S f =>
      if (remaining =? 0)%nat then mret []
      else
        let chunk := Z.to_nat (Z.min (Z.of_nat remaining) MAXDWORD) in
        got ← read_overlapped chunk label;
        if (length got =? 0)%nat then throw (label +:+ " closed")
        else
          rest ← read_exact_loop f (remaining - length got) label;
          mret (got ++ rest)
  end.
Definition read_handle_exact (size : nat) (label : string) : prog HandleIo (list Z) :=
  read_exact_loop (S size) size label.

Fixpoint write_exact_loop (fuel : nat) (bytes : list Z) (label : string) : prog HandleIo unit :=
  match fuel with
  | O => throw "<fuel>"
  | S f =>
      if (length bytes =? 0)%nat then mret tt
      else
        let chunk := Z.to_nat (Z.min (Z.of_nat (length bytes)) (64 * 1024)) in
        written ← write_overlapped (take chunk bytes) label;
        if (written =? 0)%nat then throw (label +:+ " write returned zero bytes")
        else write_exact_loop f (drop written bytes) label
  end.
Definition write_handle_exact (bytes : list Z) (label : string) : prog HandleIo unit :=
  write_exact_loop (S (length bytes)) bytes label.

Definition read_handle_frame (label : string) : prog HandleIo (vds_frame_header * list Z) :=
  bytes ← read_handle_exact frame_header_size label;
  let header := decode_header bytes in
  if Z.of_nat VDS_FRAME_MAX_PAYLOAD <? header_length header
  then throw (label +:+ " oversized frame length=" +:+ to_string (header_length header))
  else
    payload ← (if header_length header =? 0 then mret []
               else read_handle_exact (Z.to_nat (header_length header)) label);
    mret (header, payload).

Definition write_handle_frame (frame_type : Z) (payload : list Z) (label : string) :
    prog HandleIo unit :=
  bytes ← lift (frame_bytes frame_type payload);
  write_handle_exact bytes label.
End Io.

(** ** Facts *)

Section Facts.
Context `{WinSystem} (operation_aborted_is_stop : bool).
Abbreviation read_exact_loop := (read_exact_loop operation_aborted_is_stop).
Abbreviation write_exact_loop := (write_exact_loop operation_aborted_is_stop).
Abbreviation overlapped_io := (overlapped_io operation_aborted_is_stop).

Lemma read_overlapped_spec size label h h' r :
  read_overlapped operation_aborted_is_stop size label h = (h', r) ->
  outgoing h' = outgoing h /\ operations h' = tail (operations h) /\
  forall bytes, r = Ok bytes -> incoming h = bytes ++ incoming h' /\ (length bytes <= size)%nat.
Proof.
  unfold read_overlapped. set (o := default (completes _) (head (operations h))). intros [= <- <-]. split_and!; [done..|].
  intros bytes Hb. cbn. destruct (overlapped_io o label "read") as [n|e] eqn:Ho; [|discriminate].
  injection Hb as <-. rewrite length_take, take_drop. split; [done|]. lia.
Qed.

Lemma write_overlapped_spec bytes label h h' r :
  write_overlapped operation_aborted_is_stop bytes label h = (h', r) ->
  incoming h' = incoming h /\ operations h' = tail (operations h) /\
  exists k, outgoing h' = outgoing h ++ take k bytes /\ (k <= length bytes)%nat /\ forall n, r = Ok n -> n = k.
Proof.
  unfold write_overlapped. set (o := default (completes _) (head (operations h))). set (n := Nat.min _ _). intros [= <- <-].
  split_and!; [done..|]. exists n. split_and!; [done|lia|]. intros m Hm. subst n.
  destruct (overlapped_io o label "write"); [|discriminate]. by injection Hm as <-.
Qed.

(** What a full read returns came next, and is as long as was asked for. *)
Lemma read_exact_spec fuel remaining label h h' bytes :
  read_exact_loop fuel remaining label h = (h', Ok bytes) ->
  length bytes = remaining /\ incoming h = bytes ++ incoming h' /\ outgoing h' = outgoing h.
Proof.
  revert remaining h bytes. induction fuel as [|f IH]; intros remaining h bytes; [discriminate|].
  cbn [WinIo.read_exact_loop]. case_match eqn:Hr.
  - apply Nat.eqb_eq in Hr as ->. by intros [= <- <-].
  - intros (h1 & got & Hg & H1)%prog_bind_ok.
    destruct (read_overlapped_spec _ _ _ _ _ Hg) as (Ho & _ & Hi). destruct (Hi got eq_refl) as [Hi1 Hl].
    case_match eqn:Hz; [discriminate|]. apply prog_bind_ok in H1 as (h2 & rest & Hrest & [= <- <-]).
    destruct (IH _ _ _ Hrest) as (Hlr & Hir & Hor). apply Nat.eqb_neq in Hr, Hz.
    split_and!; [|by rewrite Hi1, Hir, app_assoc|congruence].
    rewrite length_app, Hlr. enough (length got <= remaining)%nat by lia. lia.
Qed.

(** Whatever a full read returns, what remains is an end of what there was. *)
Lemma read_exact_kept fuel remaining label h h' r :
  read_exact_loop fuel remaining label h = (h', r) -> exists k, incoming h' = drop k (incoming h).
Proof.
  revert remaining h h' r. induction fuel as [|f IH]; intros remaining h h' r; cbn [WinIo.read_exact_loop].
  { intros [= <- _]. by exists 0%nat. }
  case_match; [intros [= <- _]; by exists 0%nat|]. unfold mbind, prog_bind, read_overlapped. cbv zeta.
  set (o := default _ _). set (n := Nat.min _ _).
  destruct (overlapped_io o label "read"); cbn [mbind result_bind]; [|intros [= <- _]; by exists n].
  case_match; [intros [= <- _]; by exists n|]. case_match eqn:E.
  apply IH in E as [k Hk]. cbn [incoming] in Hk. rewrite drop_drop in Hk.
  destruct r0; intros [= <- _]; by eexists.
Qed.

(** A full write writes a beginning of its bytes, and all of them when it returns. *)
Lemma write_exact_spec fuel bytes label h h' r :
  write_exact_loop fuel bytes label h = (h', r) ->
  incoming h' = incoming h /\
  exists k, outgoing h' = outgoing h ++ take k bytes /\ (r = Ok tt -> (length bytes <= k)%nat).
Proof.
  revert bytes h. induction fuel as [|f IH]; intros bytes h; cbn [WinIo.write_exact_loop].
  { intros [= <- <-]. split; [done|]. exists 0%nat. cbn. rewrite app_nil_r. by split; [|discriminate]. }
  case_match eqn:Hz.
  { apply Nat.eqb_eq, length_zero_iff_nil in Hz as ->. intros [= <- <-]. split; [done|]. exists 0%nat.
    by rewrite app_nil_r. }
  unfold mbind, prog_bind. set (chunk := Z.to_nat _).
  destruct (write_overlapped _ _ label h) as [h1 r1] eqn:Hw.
  destruct (write_overlapped_spec _ _ _ _ _ Hw) as (Hi & _ & k & Ho & Hk & Hn).
  rewrite take_take in Ho. destruct r1 as [n|e].
  - rewrite (Hn n eq_refl). destruct (k =? 0)%nat eqn:Hk0.
    + intros [= <- <-]. split; [done|]. exists (Nat.min k chunk). by split; [|discriminate].
    + intros Hrest. destruct (IH _ _ Hrest) as (Hi' & k' & Ho' & Hok).
      split; [congruence|]. rewrite length_take in Hk. replace (Nat.min k chunk) with k in Ho by lia.
      exists (k + k')%nat. split.
      * rewrite Ho', Ho, <- app_assoc. f_equal. by rewrite take_take_drop.
      * intros E. specialize (Hok E). rewrite length_drop in Hok. lia.
  - intros [= <- <-]. split; [done|]. exists (Nat.min k chunk). by split; [|discriminate].
Qed.

(** An operation that moves at least a byte. *)
Definition moves (label operation : string) (o : overlapped) : Prop :=
  exists n, overlapped_io o label operation = Ok (S n).

Lemma read_exact_moves fuel remaining label h :
  Forall (moves label "read") (operations h) -> (remaining < fuel)%nat ->
  (remaining <= length (incoming h))%nat ->
  returns (read_exact_loop fuel remaining label) h (fun h' _ => Forall (moves label "read") (operations h')).
Proof.
  revert remaining h. induction fuel as [|f IH]; intros remaining h Hops Hf Hl; [lia|].
  cbn [WinIo.read_exact_loop]. case_match eqn:Hr; [by apply returns_ret|]. apply Nat.eqb_neq in Hr.
  apply returns_bind. set (chunk := Z.to_nat _). assert (0 < chunk <= remaining)%nat as Hc.
  { subst chunk. unfold MAXDWORD. lia. }
  unfold returns at 1. unfold read_overlapped. set (o := default (completes _) (head (operations h))).
  assert (exists n, overlapped_io o label "read" = Ok (S n)) as [n Hn].
  { subst o. destruct (operations h) as [|o ops]; cbn.
    - exists (Nat.min chunk (length (incoming h)) - 1)%nat. unfold WinIo.overlapped_io, finish_overlapped_io. cbn -[Nat.min]. f_equal. lia.
    - by apply Forall_cons_1 in Hops as [? _]. }
  do 2 eexists. rewrite Hn. split; [reflexivity|]. set (m := Nat.min (S n) _).
  assert (0 < m <= remaining /\ m <= length (incoming h))%nat as Hm by (subst m; lia). clearbody m.
  rewrite length_take. replace (Nat.min m (length (incoming h))) with m by lia.
  case_match eqn:Hz; [apply Nat.eqb_eq in Hz; lia|]. apply returns_bind.
  eapply returns_weaken; [apply IH; cbn|intros s' a Hs'; by apply returns_ret].
  - destruct Hops; [constructor|done].
  - lia.
  - rewrite length_drop. lia.
Qed.

Lemma write_exact_moves fuel bytes label h :
  Forall (moves label "write") (operations h) -> (length bytes < fuel)%nat ->
  returns (write_exact_loop fuel bytes label) h (fun h' _ => Forall (moves label "write") (operations h')).
Proof.
  revert bytes h. induction fuel as [|f IH]; intros bytes h Hops Hf; [lia|].
  cbn [WinIo.write_exact_loop]. case_match eqn:Hr; [by apply returns_ret|]. apply Nat.eqb_neq in Hr.
  apply returns_bind. set (chunk := Z.to_nat _). assert (0 < chunk <= length bytes)%nat as Hc by (subst chunk; lia).
  unfold returns at 1. unfold write_overlapped. set (o := default (completes _) (head (operations h))). rewrite length_take.
  assert (exists n, overlapped_io o label "write" = Ok (S n)) as [n Hn].
  { subst o. destruct (operations h) as [|o ops]; cbn.
    - exists (Nat.min chunk (length bytes) - 1)%nat. unfold WinIo.overlapped_io, finish_overlapped_io. cbn -[Nat.min take]. rewrite length_take. f_equal. lia.
    - by apply Forall_cons_1 in Hops as [? _]. }
  do 2 eexists. rewrite Hn. split; [reflexivity|]. set (m := Nat.min (S n) _).
  assert (0 < m <= length bytes)%nat as Hm by (subst m; lia). clearbody m.
  case_match eqn:Hz; [apply Nat.eqb_eq in Hz; lia|]. apply IH; cbn.
  - destruct Hops; [constructor|done].
  - rewrite length_drop. lia.
Qed.
End Facts.
