(* ===== verification/WinState.v ===== *)
(** The state of a worker of the Windows daemon (structs [WorkerStatus] and [BridgeState]
    of src/src/platform/win32/vdsd.cc), and the world it acts on: the handle of the virtual
    port, the Bluetooth transport (the interface of vds_bt.hh) and the clock.

    Clock readings that only log lines use are not modelled. *)
From stdpp Require Import base list strings numbers.
From Stdlib Require Import Ascii ZArith Lia.
From S2P Require Import Prelude Text Words OutputState Audio WinIo.

Local Open Scope Z_scope.

(** ** Constants, some of them from the environment of the process *)

Definition microseconds (n : Z) : Z := n * 1000.
Definition milliseconds (n : Z) : Z := n * 1000000.
Definition ULONG_MAX : Z := 2 ^ 32 - 1.

(** [std::strtoul(text, &end, 10)]: the value, or nothing when [end == text].  A [long] has
    32 bits. *)
Fixpoint skip_space (text : string) : string :=
  match text with
  | String c rest => if isspace c then skip_space rest else text
  | EmptyString => ""
  end.
Fixpoint leading_digits (text : string) (value : Z) : Z :=
  match text with
  | String c rest => if isdigit c then leading_digits rest (value * 10 + (code c - 48)) else value
  | EmptyString => value
  end.
Definition strtoul (text : string) : option Z :=
  let text := skip_space text in
  let '(negative, digits) :=
    match text with
    | String c rest => if decide (c = "-"%char) then (true, rest)
                       else if decide (c = "+"%char) then (false, rest) else (false, text)
    | EmptyString => (false, "")
    end in
  match digits with
  | String c _ =>
      if isdigit c then
        let v := leading_digits digits 0 in
        Some (if ULONG_MAX <? v then ULONG_MAX else if negative : bool then u32 (- v) else v)
      else None
  | EmptyString => None
  end.

(** [n] is the length [GetEnvironmentVariableA] returns. *)
Definition env_chunks `{WinSystem} (name : string) (def lo hi : Z) : Z :=
  match environment_variable name with
  | None => def
  | Some buf =>
      let n := Z.of_nat (String.length buf) in
      if (0 <? n) && (n <? 16) then
        match strtoul buf with
        | Some v => if (lo <=? v) && (v <=? hi) then v else def
        | None => def
        end
      else def
  end.

(** The values the constants get when the process starts. *)
Record Tuning := mk_tuning { kAudioPrimeChunks : nat; kAudioFreshQueueChunks : nat }.
Definition tuning_from_environment `{WinSystem} : Tuning :=
  mk_tuning (Z.to_nat (env_chunks "VDS_AUDIO_PRIME_CHUNKS" 6 1 64))
    (Z.to_nat (env_chunks "VDS_AUDIO_QUEUE_CHUNKS" 12 2 128)).
Definition kMaxPendingAudioChunks (t : Tuning) : nat := Nat.max (kAudioFreshQueueChunks t * 2) 24.
Definition kAudioLowWatermarkChunks : nat := 0.
Definition kAudioHighWatermarkChunks (t : Tuning) : nat := Nat.max (kAudioFreshQueueChunks t - 2) 1.

Definition VDS_AUDIO_SAMPLE_RATE : Z := 48000.
Definition kWindowsPcmWindowFrames : nat := kPcmWindowFrames.
Definition kWindowsHapticsSampleMin : Z := -128.
Definition kWindowsHapticsSampleMax : Z := 127.
Definition kAudioOutputBaseInterval : Z :=
  microseconds (Z.quot (Z.of_nat kWindowsPcmWindowFrames * 1000000 + Z.quot VDS_AUDIO_SAMPLE_RATE 2)
                  VDS_AUDIO_SAMPLE_RATE).
Definition kAudioJitterBufferMaxDelay : Z := milliseconds 120.
Definition kAudioUnderflowKeepaliveDelay : Z := milliseconds 25.
Definition kAudioLowWatermarkPaceDelay : Z := microseconds 0.
Definition kAudioHighWatermarkCatchupDelay : Z := microseconds 0.
Definition kAudioFlushIdleSleep : Z := milliseconds 2.
Definition kAudioFlushMinimumSleep : Z := microseconds 100.
Definition kAudioSendGapWarn : Z := milliseconds 15.
Definition kAudioSummaryInterval : Z := milliseconds 1000.
Definition kTestCommandReportId : Z := 0x80.
Definition kTestCommandResultReportId : Z := 0x81.
Definition kTestCommandCompleteStatus : Z := 0x02.
Definition kTestCommandAudioDevice : Z := 0x06.
Definition kTestCommandWaveoutPrepare : Z := 0x04.
Definition kTestCommandWaveoutControl : Z := 0x02.
Definition kTestCommandSpeakerParam : Z := 0x08.
Definition kUsbInputMuteButtonOffset : nat := 10.
Definition kUsbInputHeadsetOffset : nat := 54.
Definition kUsbInputHeadphonesPluggedMask : Z := 0x01.
Definition kUsbInputMicPluggedMask : Z := 0x02.
Definition kUsbInputMuteButtonMask : Z := 0x04.
Definition kSpeakerWaveoutPeriodFrames : Z := Z.quot VDS_AUDIO_SAMPLE_RATE 1000.
Definition VDS_USB_INPUT_REPORT_SIZE : nat := 64.
Definition VDS_USB_INTERFACE_AUDIO_OUT : Z := 1.
Definition VDS_USB_INTERFACE_AUDIO_IN : Z := 2.

(** ** What a worker publishes for the user interface *)

Record WorkerStatus := mk_status {
  battery_percent : Z;
  charge_status : Z;
  headphone_jack : bool;
  mic_detected : bool;
  ws_mic_muted : bool;
  mic_active : bool;
  speaker_active : bool;
  polling_hz : Z;
  has_input : bool;
  color_code : Z;
  is_edge : bool;
  mic_mute_request : Z;
  rate_window_count : Z;
  rate_window_start : Z
}.
Definition initial_status : WorkerStatus :=
  mk_status (-1) (-1) false false false false false 0 false (-1) false (-1) 0 0.

(** Assignments to one member. *)
Definition put_battery_percent (v : Z) (w : WorkerStatus) : WorkerStatus :=
  mk_status v (charge_status w) (headphone_jack w) (mic_detected w) (ws_mic_muted w) (mic_active
    w) (speaker_active w) (polling_hz w) (has_input w) (color_code w) (is_edge w)
    (mic_mute_request w) (rate_window_count w) (rate_window_start w).
Definition put_charge_status (v : Z) (w : WorkerStatus) : WorkerStatus :=
  mk_status (battery_percent w) v (headphone_jack w) (mic_detected w) (ws_mic_muted w) (mic_active
    w) (speaker_active w) (polling_hz w) (has_input w) (color_code w) (is_edge w)
    (mic_mute_request w) (rate_window_count w) (rate_window_start w).
Definition put_headphone_jack (v : bool) (w : WorkerStatus) : WorkerStatus :=
  mk_status (battery_percent w) (charge_status w) v (mic_detected w) (ws_mic_muted w) (mic_active
    w) (speaker_active w) (polling_hz w) (has_input w) (color_code w) (is_edge w)
    (mic_mute_request w) (rate_window_count w) (rate_window_start w).
Definition put_mic_detected (v : bool) (w : WorkerStatus) : WorkerStatus :=
  mk_status (battery_percent w) (charge_status w) (headphone_jack w) v (ws_mic_muted w)
    (mic_active w) (speaker_active w) (polling_hz w) (has_input w) (color_code w) (is_edge w)
    (mic_mute_request w) (rate_window_count w) (rate_window_start w).
Definition put_ws_mic_muted (v : bool) (w : WorkerStatus) : WorkerStatus :=
  mk_status (battery_percent w) (charge_status w) (headphone_jack w) (mic_detected w) v
    (mic_active w) (speaker_active w) (polling_hz w) (has_input w) (color_code w) (is_edge w)
    (mic_mute_request w) (rate_window_count w) (rate_window_start w).
Definition put_mic_active (v : bool) (w : WorkerStatus) : WorkerStatus :=
  mk_status (battery_percent w) (charge_status w) (headphone_jack w) (mic_detected w)
    (ws_mic_muted w) v (speaker_active w) (polling_hz w) (has_input w) (color_code w) (is_edge w)
    (mic_mute_request w) (rate_window_count w) (rate_window_start w).
Definition put_speaker_active (v : bool) (w : WorkerStatus) : WorkerStatus :=
  mk_status (battery_percent w) (charge_status w) (headphone_jack w) (mic_detected w)
    (ws_mic_muted w) (mic_active w) v (polling_hz w) (has_input w) (color_code w) (is_edge w)
    (mic_mute_request w) (rate_window_count w) (rate_window_start w).
Definition put_polling_hz (v : Z) (w : WorkerStatus) : WorkerStatus :=
  mk_status (battery_percent w) (charge_status w) (headphone_jack w) (mic_detected w)
    (ws_mic_muted w) (mic_active w) (speaker_active w) v (has_input w) (color_code w) (is_edge w)
    (mic_mute_request w) (rate_window_count w) (rate_window_start w).
Definition put_has_input (v : bool) (w : WorkerStatus) : WorkerStatus :=
  mk_status (battery_percent w) (charge_status w) (headphone_jack w) (mic_detected w)
    (ws_mic_muted w) (mic_active w) (speaker_active w) (polling_hz w) v (color_code w) (is_edge w)
    (mic_mute_request w) (rate_window_count w) (rate_window_start w).
Definition put_color_code (v : Z) (w : WorkerStatus) : WorkerStatus :=
  mk_status (battery_percent w) (charge_status w) (headphone_jack w) (mic_detected w)
    (ws_mic_muted w) (mic_active w) (speaker_active w) (polling_hz w) (has_input w) v (is_edge w)
    (mic_mute_request w) (rate_window_count w) (rate_window_start w).
Definition put_is_edge (v : bool) (w : WorkerStatus) : WorkerStatus :=
  mk_status (battery_percent w) (charge_status w) (headphone_jack w) (mic_detected w)
    (ws_mic_muted w) (mic_active w) (speaker_active w) (polling_hz w) (has_input w) (color_code w)
    v (mic_mute_request w) (rate_window_count w) (rate_window_start w).
Definition put_mic_mute_request (v : Z) (w : WorkerStatus) : WorkerStatus :=
  mk_status (battery_percent w) (charge_status w) (headphone_jack w) (mic_detected w)
    (ws_mic_muted w) (mic_active w) (speaker_active w) (polling_hz w) (has_input w) (color_code w)
    (is_edge w) v (rate_window_count w) (rate_window_start w).
Definition put_rate_window_count (v : Z) (w : WorkerStatus) : WorkerStatus :=
  mk_status (battery_percent w) (charge_status w) (headphone_jack w) (mic_detected w)
    (ws_mic_muted w) (mic_active w) (speaker_active w) (polling_hz w) (has_input w) (color_code w)
    (is_edge w) (mic_mute_request w) v (rate_window_start w).
Definition put_rate_window_start (v : Z) (w : WorkerStatus) : WorkerStatus :=
  mk_status (battery_percent w) (charge_status w) (headphone_jack w) (mic_detected w)
    (ws_mic_muted w) (mic_active w) (speaker_active w) (polling_hz w) (has_input w) (color_code w)
    (is_edge w) (mic_mute_request w) (rate_window_count w) v.

(** ** The bridge *)

(** The members that are times or durations (zero when unset), numbers, and truth values;
    the statistics among them are only logged. *)
Inductive clock :=
  | next_haptics_send_time | last_audio_send_time | last_audio_usb_frame_time
  | audio_jitter_buffer_start | audio_queue_empty_since | audio_queue_drained_time
  | audio_last_flush_time | audio_last_summary_time
  | audio_usb_max_gap | audio_send_max_gap | audio_underflow_max_gap | audio_flush_max_gap.
Inductive counter :=
  | usb_input_forward_count | usb_input_change_log_count | mic_input_forward_count
  | mic_input_decode_fail_count | audio_usb_frame_count | audio_queued_count | audio_sent_count
  | audio_concealed_count | audio_keepalive_sent_count | audio_dropped_count
  | audio_stale_dropped_count | audio_blocked_count | audio_keepalive_blocked_count
  | audio_usb_gap_warn_count | audio_send_gap_warn_count | audio_underflow_count
  | audio_underflow_refill_count | audio_flush_gap_warn_count | audio_low_watermark_pace_count
  | audio_last_summary_usb_frame_count | audio_last_summary_sent_count
  | audio_last_summary_concealed_count | audio_last_summary_keepalive_sent_count
  | audio_last_summary_dropped_count | audio_last_summary_blocked_count
  | audio_last_summary_underflow_count | audio_last_summary_usb_gap_warn_count
  | audio_last_summary_send_gap_warn_count | audio_last_summary_flush_gap_warn_count
  | audio_last_summary_low_watermark_pace_count.
Inductive flag :=
  | have_last_sent_state | have_last_logged_input_report | have_last_audio_send_time
  | audio_jitter_buffering | audio_haptics_nonzero_seen | audio_haptics_sent_seen
  | audio_out_stream_active | audio_in_stream_active | mic_muted | mute_button_down
  | audio_pcm_stream_active | audio_stream_had_pcm | headset_plugged | headset_mic_plugged
  | speaker_waveout_selected | speaker_waveout_active | audio_queue_empty_reported
  | audio_underflow_reported.
Scheme Boolean Equality for clock.
Scheme Boolean Equality for counter.
Scheme Boolean Equality for flag.

(** What the transport makes of an interrupt packet; only [try_write_interrupt_packet] has
    the answer [Busy]. *)
Inductive bt_answer := Accepted | Busy | Failed (what : string).

Record World := mk_world {
  device : HandleIo;
  bt_answers : list bt_answer;    (* what the transport makes of each interrupt packet *)
  bt_sent : list (list Z);    (* the interrupt packets it took, oldest first *)
  feature_answers : list (result (option (list Z)));    (* what each feature report that is read gives *)
  feature_gets : list Z;    (* the feature reports that were read *)
  set_answers : list (option string);    (* why a feature report is not written *)
  feature_sets : list (list Z);    (* the feature reports that were written *)
  time : Z;    (* of the steady clock, in nanoseconds *)
  ticks : list N    (* how far each reading of the clock moves it *)
}.
Definition put_device (v : HandleIo) (w : World) : World :=
  mk_world v (bt_answers w) (bt_sent w) (feature_answers w) (feature_gets w) (set_answers w)
    (feature_sets w) (time w) (ticks w).
Definition put_bt_answers (v : list bt_answer) (w : World) : World :=
  mk_world (device w) v (bt_sent w) (feature_answers w) (feature_gets w) (set_answers w)
    (feature_sets w) (time w) (ticks w).
Definition put_bt_sent (v : list (list Z)) (w : World) : World :=
  mk_world (device w) (bt_answers w) v (feature_answers w) (feature_gets w) (set_answers w)
    (feature_sets w) (time w) (ticks w).
Definition put_feature_answers (v : list (result (option (list Z)))) (w : World) : World :=
  mk_world (device w) (bt_answers w) (bt_sent w) v (feature_gets w) (set_answers w) (feature_sets
    w) (time w) (ticks w).
Definition put_feature_gets (v : list Z) (w : World) : World :=
  mk_world (device w) (bt_answers w) (bt_sent w) (feature_answers w) v (set_answers w)
    (feature_sets w) (time w) (ticks w).
Definition put_set_answers (v : list (option string)) (w : World) : World :=
  mk_world (device w) (bt_answers w) (bt_sent w) (feature_answers w) (feature_gets w) v
    (feature_sets w) (time w) (ticks w).
Definition put_feature_sets (v : list (list Z)) (w : World) : World :=
  mk_world (device w) (bt_answers w) (bt_sent w) (feature_answers w) (feature_gets w) (set_answers
    w) v (time w) (ticks w).
Definition put_time (v : Z) (w : World) : World :=
  mk_world (device w) (bt_answers w) (bt_sent w) (feature_answers w) (feature_gets w) (set_answers
    w) (feature_sets w) v (ticks w).
Definition put_ticks (v : list N) (w : World) : World :=
  mk_world (device w) (bt_answers w) (bt_sent w) (feature_answers w) (feature_gets w) (set_answers
    w) (feature_sets w) (time w) v.

Section State.
Context {Encoder Dec : Type}.

(** [silent_audio_chunk] is never used.  [feature_cache] holds what [feature_cached] marks. *)
Record BridgeState := mk_state {
  worker_status : option WorkerStatus;
  output_state : DsOutputState;
  extractor : PcmAudioExtractor Encoder;
  waveout_extractor : PcmAudioExtractor Encoder;
  mic_decoder : Dec;
  haptics_builder : HapticsPacketBuilder;
  pending_audio_chunks : list AudioChunk;
  last_audio_chunk : option AudioChunk;
  feature_cache : list (option (list Z));
  last_sent_state : list Z;
  last_logged_input_report : list Z;
  speaker_waveout_phase : Z;
  times : clock -> Z;
  counts : counter -> Z;
  flags : flag -> bool
}.
Definition put_worker_status (v : option WorkerStatus) (s : BridgeState) : BridgeState :=
  mk_state v (output_state s) (extractor s) (waveout_extractor s) (mic_decoder s) (haptics_builder
    s) (pending_audio_chunks s) (last_audio_chunk s) (feature_cache s) (last_sent_state s)
    (last_logged_input_report s) (speaker_waveout_phase s) (times s) (counts s) (flags s).
Definition put_output_state (v : DsOutputState) (s : BridgeState) : BridgeState :=
  mk_state (worker_status s) v (extractor s) (waveout_extractor s) (mic_decoder s)
    (haptics_builder s) (pending_audio_chunks s) (last_audio_chunk s) (feature_cache s)
    (last_sent_state s) (last_logged_input_report s) (speaker_waveout_phase s) (times s) (counts
    s) (flags s).
Definition put_extractor (v : PcmAudioExtractor Encoder) (s : BridgeState) : BridgeState :=
  mk_state (worker_status s) (output_state s) v (waveout_extractor s) (mic_decoder s)
    (haptics_builder s) (pending_audio_chunks s) (last_audio_chunk s) (feature_cache s)
    (last_sent_state s) (last_logged_input_report s) (speaker_waveout_phase s) (times s) (counts
    s) (flags s).
Definition put_waveout_extractor (v : PcmAudioExtractor Encoder) (s : BridgeState) : BridgeState :=
  mk_state (worker_status s) (output_state s) (extractor s) v (mic_decoder s) (haptics_builder s)
    (pending_audio_chunks s) (last_audio_chunk s) (feature_cache s) (last_sent_state s)
    (last_logged_input_report s) (speaker_waveout_phase s) (times s) (counts s) (flags s).
Definition put_mic_decoder (v : Dec) (s : BridgeState) : BridgeState :=
  mk_state (worker_status s) (output_state s) (extractor s) (waveout_extractor s) v
    (haptics_builder s) (pending_audio_chunks s) (last_audio_chunk s) (feature_cache s)
    (last_sent_state s) (last_logged_input_report s) (speaker_waveout_phase s) (times s) (counts
    s) (flags s).
Definition put_haptics_builder (v : HapticsPacketBuilder) (s : BridgeState) : BridgeState :=
  mk_state (worker_status s) (output_state s) (extractor s) (waveout_extractor s) (mic_decoder s)
    v (pending_audio_chunks s) (last_audio_chunk s) (feature_cache s) (last_sent_state s)
    (last_logged_input_report s) (speaker_waveout_phase s) (times s) (counts s) (flags s).
Definition put_pending_audio_chunks (v : list AudioChunk) (s : BridgeState) : BridgeState :=
  mk_state (worker_status s) (output_state s) (extractor s) (waveout_extractor s) (mic_decoder s)
    (haptics_builder s) v (last_audio_chunk s) (feature_cache s) (last_sent_state s)
    (last_logged_input_report s) (speaker_waveout_phase s) (times s) (counts s) (flags s).
Definition put_last_audio_chunk (v : option AudioChunk) (s : BridgeState) : BridgeState :=
  mk_state (worker_status s) (output_state s) (extractor s) (waveout_extractor s) (mic_decoder s)
    (haptics_builder s) (pending_audio_chunks s) v (feature_cache s) (last_sent_state s)
    (last_logged_input_report s) (speaker_waveout_phase s) (times s) (counts s) (flags s).
Definition put_feature_cache (v : list (option (list Z))) (s : BridgeState) : BridgeState :=
  mk_state (worker_status s) (output_state s) (extractor s) (waveout_extractor s) (mic_decoder s)
    (haptics_builder s) (pending_audio_chunks s) (last_audio_chunk s) v (last_sent_state s)
    (last_logged_input_report s) (speaker_waveout_phase s) (times s) (counts s) (flags s).
Definition put_last_sent_state (v : list Z) (s : BridgeState) : BridgeState :=
  mk_state (worker_status s) (output_state s) (extractor s) (waveout_extractor s) (mic_decoder s)
    (haptics_builder s) (pending_audio_chunks s) (last_audio_chunk s) (feature_cache s) v
    (last_logged_input_report s) (speaker_waveout_phase s) (times s) (counts s) (flags s).
Definition put_last_logged_input_report (v : list Z) (s : BridgeState) : BridgeState :=
  mk_state (worker_status s) (output_state s) (extractor s) (waveout_extractor s) (mic_decoder s)
    (haptics_builder s) (pending_audio_chunks s) (last_audio_chunk s) (feature_cache s)
    (last_sent_state s) v (speaker_waveout_phase s) (times s) (counts s) (flags s).
Definition put_speaker_waveout_phase (v : Z) (s : BridgeState) : BridgeState :=
  mk_state (worker_status s) (output_state s) (extractor s) (waveout_extractor s) (mic_decoder s)
    (haptics_builder s) (pending_audio_chunks s) (last_audio_chunk s) (feature_cache s)
    (last_sent_state s) (last_logged_input_report s) v (times s) (counts s) (flags s).
Definition put_times (v : clock -> Z) (s : BridgeState) : BridgeState :=
  mk_state (worker_status s) (output_state s) (extractor s) (waveout_extractor s) (mic_decoder s)
    (haptics_builder s) (pending_audio_chunks s) (last_audio_chunk s) (feature_cache s)
    (last_sent_state s) (last_logged_input_report s) (speaker_waveout_phase s) v (counts s) (flags
    s).
Definition put_counts (v : counter -> Z) (s : BridgeState) : BridgeState :=
  mk_state (worker_status s) (output_state s) (extractor s) (waveout_extractor s) (mic_decoder s)
    (haptics_builder s) (pending_audio_chunks s) (last_audio_chunk s) (feature_cache s)
    (last_sent_state s) (last_logged_input_report s) (speaker_waveout_phase s) (times s) v (flags
    s).
Definition put_flags (v : flag -> bool) (s : BridgeState) : BridgeState :=
  mk_state (worker_status s) (output_state s) (extractor s) (waveout_extractor s) (mic_decoder s)
    (haptics_builder s) (pending_audio_chunks s) (last_audio_chunk s) (feature_cache s)
    (last_sent_state s) (last_logged_input_report s) (speaker_waveout_phase s) (times s) (counts
    s) v.

Definition set_time (c : clock) (v : Z) (s : BridgeState) : BridgeState :=
  put_times (fun c' => if clock_beq c' c then v else times s c') s.
Definition set_count (c : counter) (v : Z) (s : BridgeState) : BridgeState :=
  put_counts (fun c' => if counter_beq c' c then v else counts s c') s.
Definition set_flag (f : flag) (v : bool) (s : BridgeState) : BridgeState :=
  put_flags (fun f' => if flag_beq f' f then v else flags s f') s.
(** A 64-bit counter goes up. *)
Definition bump (c : counter) (s : BridgeState) : BridgeState := set_count c (u64 (counts s c + 1)) s.
(** Assignments of one value to several members. *)
Definition clear_times (cs : list clock) (s : BridgeState) : BridgeState := foldr (fun c => set_time c 0) s cs.
Definition clear_counts (cs : list counter) (s : BridgeState) : BridgeState :=
  foldr (fun c => set_count c 0) s cs.
Definition clear_flags (fs : list flag) (s : BridgeState) : BridgeState :=
  foldr (fun f => set_flag f false) s fs.
End State.
Arguments BridgeState : clear implicits.

(** ** The transport and the clock *)

Definition take_bt_answer : prog World bt_answer := fun w =>
  match bt_answers w with
  | [] => (w, Ok Accepted)
  | a :: rest => (put_bt_answers rest w, Ok a)
  end.
Definition write_interrupt_packet (packet : list Z) : prog World unit :=
  a ← take_bt_answer;
  match a with
  | Failed what => throw what
  | Accepted | Busy => modify (fun w => put_bt_sent (bt_sent w ++ [packet]) w)
  end.
Definition try_write_interrupt_packet (packet : list Z) : prog World bool :=
  a ← take_bt_answer;
  match a with
  | Failed what => throw what
  | Busy => mret false
  | Accepted => _ ← modify (fun w => put_bt_sent (bt_sent w ++ [packet]) w); mret true
  end.
Definition read_feature_report (report_id : Z) : prog World (option (list Z)) := fun w =>
  let w' := put_feature_gets (feature_gets w ++ [report_id]) w in
  match feature_answers w with
  | [] => (w', Ok None)
  | a :: rest => (put_feature_answers rest w', a)
  end.
Definition write_feature_report (report : list Z) : prog World unit := fun w =>
  match set_answers w with
  | Some what :: rest => (put_set_answers rest w, Throw what)
  | answers => (put_feature_sets (feature_sets w ++ [report]) (put_set_answers (tail answers) w), Ok tt)
  end.
Definition clock_now : prog World Z := fun w =>
  let now := time w + Z.of_N (default 0%N (head (ticks w))) in
  (put_ticks (tail (ticks w)) (put_time now w), Ok now).
