(* ===== verification/WinBridge.v ===== *)
(** The frames a worker of the Windows daemon translates (src/src/platform/win32/vdsd.cc):
    what comes from the virtual port, and what comes from the controller.

    [state.mutex], [bluetooth_mutex] and [virtual_write_mutex] each protect what runs while
    they are held, so a handler is a [thread] whose steps are the critical sections; an
    assignment to an atomic variable is a step of its own. *)
From stdpp Require Import base list strings numbers.
From Stdlib Require Import Ascii ZArith Lia.
From S2P Require Import Prelude Text Words BtPacket OutputState Audio Threads WinIo WinState.

Local Open Scope Z_scope.

(** ** Status for the user interface *)

(** [n / d] rounded to 53 bits (half to even), as a mantissa and an exponent of two; both
    positive. *)
Definition divide_f64 (n d : Z) : Z * Z :=
  let e := Z.log2 n - Z.log2 d - 53 in
  let scaled (e : Z) := if e <? 0 then (n * 2 ^ (- e), d) else (n, d * 2 ^ e) in
  let e := if 2 ^ 53 <=? (scaled e).1 / (scaled e).2 then e + 1 else e in
  let '(n', d') := scaled e in
  let q := n' / d' in
  let r := 2 * (n' mod d') in
  ((if (d' <? r) || ((r =? d') && Z.odd q) then q + 1 else q), e).

(** [x / y] and [x + 0.5] of doubles. *)
Definition f64_div (x y : Z * Z) : Z * Z :=
  if x.1 =? 0 then (0, 0) else let '(q, e) := divide_f64 x.1 y.1 in (q, e + x.2 - y.2).
Definition f64_add_half (x : Z * Z) : Z * Z :=
  let e := Z.min x.2 (-1) in
  let m := x.1 * 2 ^ (x.2 - e) + 2 ^ (-1 - e) in
  let '(q, e') := divide_f64 m 1 in (q, e' + e).
Definition f64_trunc (x : Z * Z) : Z := if x.2 <? 0 then x.1 / 2 ^ (- x.2) else x.1 * 2 ^ x.2.

(** [static_cast<int>(count / secs + 0.5)], [secs] being [elapsed] nanoseconds. *)
Definition polling_rate (count elapsed : Z) : Z :=
  f64_trunc (f64_add_half (f64_div (divide_f64 count 1) (f64_div (divide_f64 elapsed 1) (1000000000, 0)))).

Definition input_percent (status0 : Z) : Z :=
  let level := Z.land status0 0x0f in
  let charge := Z.shiftr (Z.land status0 0xf0) 4 in
  let percent := level * 10 in
  let percent := if charge =? 2 then 100 else percent in
  if 100 <? percent then 100 else percent.

(** The measurement of the input rate, over windows of a second. *)
Definition measure_rate (now : Z) (w : WorkerStatus) : WorkerStatus :=
  let w := if rate_window_start w =? 0 then put_rate_window_count 0 (put_rate_window_start now w) else w in
  let w := put_rate_window_count (u64 (rate_window_count w + 1)) w in
  let elapsed := now - rate_window_start w in
  if milliseconds 1000 <=? elapsed then
    put_rate_window_count 0 (put_rate_window_start now
      (put_polling_hz (polling_rate (rate_window_count w) elapsed) w))
  else w.

(** The peaks of the channels of a PCM frame. *)
Definition pcm_sample (payload : list Z) (offset : nat) : Z :=
  s16 (Z.lor (byte_at payload offset) (u16 (Z.shiftl (byte_at payload (offset + 1)) 8))).
Definition pcm_channel_peak (payload : list Z) (channel : nat) : Z :=
  foldl (fun peak frame => Z.max peak (Z.abs (pcm_sample payload (frame * kPcmFrameSize + channel * kPcmSampleSize))))
    0 (seq 0 (length payload / kPcmFrameSize)).
Definition pcm_channel_peaks (payload : list Z) : list Z := pcm_channel_peak payload <$> seq 0 kPcmChannels.

Definition input_controls_changed (left right : list Z) : bool :=
  existsb (fun index => negb (byte_at left index =? byte_at right index)) (seq 1 10).

Section Bridge.
Context {Encoder Dec : Type} `{Codecs Encoder Dec} `{WinSystem}.
Context (tuning : Tuning).

Abbreviation bridge_state := (BridgeState Encoder Dec).
(** The bridge and the world. *)
Abbreviation state := (bridge_state * World)%type.
Abbreviation bridge := (thread state).

Definition update (f : bridge_state -> bridge_state) : prog state unit := modify (fun s => (f s.1, s.2)).
Definition the_state : prog state bridge_state := fun s => (s, Ok s.1).
Definition io {A} (m : prog World A) : prog state A := fun s =>
  let '(w, r) := m s.2 in ((s.1, w), r).
Definition on_device {A} (m : prog HandleIo A) : prog World A := fun w =>
  let '(h, r) := m (device w) in (put_device h w, r).
Definition on_bridge {A} (f : bridge_state -> bridge_state * A) : prog state A := fun s =>
  let '(b, a) := f s.1 in ((b, s.2), Ok a).
Definition on_output {A} (m : prog DsOutputState A) : prog state A := fun s =>
  let '(o, r) := m (output_state s.1) in ((put_output_state o s.1, s.2), r).
Definition on_builder {A} (m : prog HapticsPacketBuilder A) : prog state A := fun s =>
  let '(b, r) := m (haptics_builder s.1) in ((put_haptics_builder b s.1, s.2), r).
Definition on_extractor {A} (m : prog (PcmAudioExtractor Encoder) A) : prog state A := fun s =>
  let '(x, r) := m (extractor s.1) in ((put_extractor x s.1, s.2), r).
Definition on_waveout_extractor {A} (m : prog (PcmAudioExtractor Encoder) A) : prog state A := fun s =>
  let '(x, r) := m (waveout_extractor s.1) in ((put_waveout_extractor x s.1, s.2), r).
Definition on_decoder {A} (m : prog Dec A) : prog state A := fun s =>
  let '(d, r) := m (mic_decoder s.1) in ((put_mic_decoder d s.1, s.2), r).

(** A store to an atomic member of the status, when there is one. *)
Definition store (f : WorkerStatus -> WorkerStatus) (s : bridge_state) : bridge_state :=
  put_worker_status (f <$> worker_status s) s.
Definition store_step (f : WorkerStatus -> WorkerStatus) : bridge unit := locked (update (store f)).

Definition publish_input_status (report : list Z) : bridge unit :=
  let status0 := byte_at report (1 + 52) in
  let status1 := byte_at report (1 + 53) in
  _ ← store_step (put_battery_percent (input_percent status0));
  _ ← store_step (put_charge_status (Z.shiftr (Z.land status0 0xf0) 4));
  _ ← store_step (put_headphone_jack (negb (Z.land status1 0x01 =? 0)));
  _ ← store_step (put_mic_detected (negb (Z.land status1 0x02 =? 0)));
  _ ← store_step (put_has_input true);
  locked (s ← the_state;
          match worker_status s with
          | Some _ => now ← io clock_now; update (store (measure_rate now))
          | None => mret tt
          end).

(** ** Feature reports *)

Definition is_cacheable_feature (report_id : Z) : bool := report_id <? 0x80.

Definition cache_feature_report (report : list Z) : bridge unit :=
  match report with
  | [] => mret tt
  | report_id :: _ =>
      if negb (is_cacheable_feature report_id) then mret tt
      else locked (update (fun s =>
             put_feature_cache (<[Z.to_nat report_id := Some report]> (feature_cache s)) s))
  end.

Definition cached (report_id : Z) (s : bridge_state) : option (list Z) :=
  mjoin (feature_cache s !! Z.to_nat report_id).
Definition cached_feature_report (report_id : Z) : bridge (option (list Z)) :=
  if negb (is_cacheable_feature report_id) then mret None
  else locked (s ← the_state; mret (cached report_id s)).

(** ** Reports to the controller *)

Definition try_send_bt_output_report (report : list Z) (label : string) : bridge bool :=
  locked (try_catch
    (let packet := hidp_output_packet report in
     if decide (label = "audio") then io (try_write_interrupt_packet packet)
     else _ ← io (write_interrupt_packet packet); mret true)
    (fun _ => mret false)).

Definition build_bt_state_if_changed : prog state (option (list Z)) :=
  s ← the_state;
  let current := state_ (output_state s) in
  if flags s have_last_sent_state && bool_decide (last_sent_state s = current) then mret None
  else
    report ← on_output build_bt_state_report;
    _ ← update (fun s => set_flag have_last_sent_state true (put_last_sent_state current s));
    mret (Some report).

Definition send_bt_state_if_changed : bridge unit :=
  report ← locked build_bt_state_if_changed;
  match report with
  | Some report => _ ← try_send_bt_output_report report "state"; mret tt
  | None => mret tt
  end.

(** [output_state.set_audio_out_stream_active(active, headset_plugged)] *)
Definition route_audio (active : bool) (s : bridge_state) : bridge_state :=
  put_output_state (set_audio_out_stream_active active (flags s headset_plugged) (output_state s)) s.
Definition plug_headset_mic (s : bridge_state) : bridge_state :=
  put_output_state (set_headset_mic_plugged (flags s headset_mic_plugged) (output_state s)) s.

(** ** Frames of the virtual port *)

Definition write_virtual (frame_type : Z) (payload : list Z) : bridge unit :=
  locked (io (on_device (write_handle_frame false frame_type payload "virtual"))).

(** What a new stream starts with: no times and no packets; the summary counts from
    [base]. *)
Definition restart_stream (base : counter -> Z) (s : bridge_state) : bridge_state :=
  let s := clear_times [audio_jitter_buffer_start; audio_queue_empty_since; audio_queue_drained_time;
             last_audio_usb_frame_time; audio_last_flush_time; audio_last_summary_time;
             audio_usb_max_gap; audio_send_max_gap; audio_underflow_max_gap; audio_flush_max_gap] s in
  let s := set_flag have_last_audio_send_time false s in
  let s := put_last_audio_chunk None s in
  let s := clear_counts [audio_usb_gap_warn_count; audio_send_gap_warn_count; audio_flush_gap_warn_count;
             audio_low_watermark_pace_count] s in
  let s := set_count audio_last_summary_usb_frame_count (base audio_usb_frame_count) s in
  let s := set_count audio_last_summary_sent_count (base audio_sent_count) s in
  let s := set_count audio_last_summary_concealed_count (base audio_concealed_count) s in
  let s := set_count audio_last_summary_keepalive_sent_count (base audio_keepalive_sent_count) s in
  let s := set_count audio_last_summary_dropped_count (base audio_dropped_count) s in
  let s := set_count audio_last_summary_blocked_count (base audio_blocked_count) s in
  let s := set_count audio_last_summary_underflow_count (base audio_underflow_count) s in
  let s := clear_counts [audio_last_summary_usb_gap_warn_count; audio_last_summary_send_gap_warn_count;
             audio_last_summary_flush_gap_warn_count; audio_last_summary_low_watermark_pace_count] s in
  let s := clear_flags [audio_haptics_sent_seen; audio_underflow_reported] s in
  set_time next_haptics_send_time 0 (put_pending_audio_chunks [] s).
Definition from_zero : counter -> Z := fun _ => 0.

Definition open_audio_out (altsetting : Z) : prog state unit :=
  let active := negb (altsetting =? 0) in
  _ ← update (fun s =>
    let s := if active then set_flag speaker_waveout_active false s else s in
    let s := route_audio (active || flags s speaker_waveout_active) s in
    let s := set_flag audio_out_stream_active active s in
    let s := clear_flags [audio_pcm_stream_active; audio_stream_had_pcm] s in
    let s := set_flag audio_jitter_buffering active s in
    set_flag audio_queue_empty_reported false (restart_stream from_zero s));
  if active then x ← lift fresh_extractor; update (put_extractor x)
  else update (clear_times [audio_queue_empty_since; audio_queue_drained_time]).

(** The microphone report, then its state. *)
Definition open_audio_in (active : bool) : prog state (list Z) :=
  _ ← update (set_flag audio_in_stream_active active);
  d ← lift create_decoder;
  _ ← update (put_mic_decoder d);
  _ ← update plug_headset_mic;
  on_output (build_bt_mic_report active).

Definition handle_interface_frame (payload : list Z) : bridge unit :=
  if negb (length payload =? 4)%nat then mret tt
  else
    let altsetting := byte_at payload 1 in
    let interface_type := byte_at payload 2 in
    if interface_type =? VDS_USB_INTERFACE_AUDIO_OUT then
      _ ← locked (open_audio_out altsetting);
      send_bt_state_if_changed
    else if interface_type =? VDS_USB_INTERFACE_AUDIO_IN then
      let active := negb (altsetting =? 0) in
      report ← locked (open_audio_in active);
      state_report ← locked (s ← the_state;
                             on_output (build_bt_mic_state_report active (flags s mic_muted)));
      _ ← try_send_bt_output_report state_report "mic state";
      _ ← try_send_bt_output_report report "mic"; mret tt
    else mret tt.

Definition handle_hid_out_frame (payload : list Z) : bridge unit :=
  applied ← locked (
    applied ← on_output (apply_usb_output_report payload);
    _ ← update (fun s => if applied && (flags s audio_out_stream_active || flags s speaker_waveout_active)
                         then route_audio true s else s);
    mret applied);
  if applied : bool then send_bt_state_if_changed else mret tt.

(** Outside of the cache, the controller is asked; what goes wrong then is logged. *)
Definition handle_feature_get_frame (payload : list Z) : bridge unit :=
  match payload with
  | [] => mret tt
  | report_id :: _ =>
      cached ← cached_feature_report report_id;
      match cached with
      | Some report => write_virtual VDS_FRAME_USB_FEATURE_REPLY report
      | None =>
          guarded
            (report ← locked (io (read_feature_report report_id));
             match report with
             | Some report =>
                 _ ← cache_feature_report report;
                 write_virtual VDS_FRAME_USB_FEATURE_REPLY report
             | None => mret tt
             end)
            (fun _ => mret tt)
      end
  end.

(** A test command of the WebHID tools: the device, the action and the data. *)
Definition test_command (payload : list Z) : option (Z * Z * list Z) :=
  if (3 <=? length payload)%nat && (byte_at payload 0 =? kTestCommandReportId) then
    let command_offset := if (1 <? length payload)%nat && (byte_at payload 1 =? kTestCommandReportId)
                          then 2%nat else 1%nat in
    if (command_offset + 1 <? length payload)%nat
    then Some (byte_at payload command_offset, byte_at payload (command_offset + 1),
               drop (command_offset + 2) payload)
    else None
  else None.
Definition test_result (device action : Z) : list Z :=
  [kTestCommandResultReportId; device; action; kTestCommandCompleteStatus]
  ++ replicate (VDS_USB_INPUT_REPORT_SIZE - 4) 0.

Definition control_waveout (enable : bool) : prog state unit :=
  s ← the_state;
  let speaker_waveout := enable && flags s speaker_waveout_selected in
  _ ← update (fun s => put_speaker_waveout_phase 0 (set_flag speaker_waveout_active speaker_waveout s));
  x ← lift fresh_extractor;
  _ ← update (put_waveout_extractor x);
  update (fun s =>
    let s := route_audio speaker_waveout s in
    let s := set_flag audio_out_stream_active speaker_waveout s in
    let s := set_flag audio_pcm_stream_active speaker_waveout s in
    let s := set_flag audio_jitter_buffering speaker_waveout s in
    let s := clear_times [audio_queue_empty_since; audio_queue_drained_time] s in
    let s := put_last_audio_chunk None (set_flag have_last_audio_send_time false s) in
    if speaker_waveout then s else put_pending_audio_chunks [] s).

Definition handle_test_command (device action : Z) (data : list Z) : bridge unit :=
  _ ← cache_feature_report (test_result device action);
  update_bt_state ← locked (
    if (device =? kTestCommandAudioDevice) && (action =? kTestCommandWaveoutPrepare) then
      _ ← update (set_flag speaker_waveout_selected
             ((2 <? length data)%nat && (byte_at data 2 =? kTestCommandSpeakerParam)));
      mret false
    else if (device =? kTestCommandAudioDevice) && (action =? kTestCommandWaveoutControl)
            && (0 <? length data)%nat
    then _ ← control_waveout (negb (byte_at data 0 =? 0)); mret true
    else mret false);
  if update_bt_state : bool then send_bt_state_if_changed else mret tt.

Definition handle_feature_set_frame (payload : list Z) : bridge unit :=
  if (length payload =? 0)%nat || (byte_at payload 0 =? 0) then mret tt
  else
    match test_command payload with
    | Some (device, action, data) => handle_test_command device action data
    | None => guarded (locked (io (write_feature_report payload))) (fun _ => mret tt)
    end.

(** *** Audio *)

(** [pop_front] when the queue is full, and the chunk at the back. *)
Definition queue_chunk (chunk : AudioChunk) (s : bridge_state) : bridge_state :=
  let s := if (kMaxPendingAudioChunks tuning <=? length (pending_audio_chunks s))%nat
           then bump audio_dropped_count (put_pending_audio_chunks (tail (pending_audio_chunks s)) s)
           else s in
  let s := put_pending_audio_chunks (pending_audio_chunks s ++ [chunk]) s in
  let s := clear_times [audio_queue_empty_since; audio_queue_drained_time]
             (set_flag audio_queue_empty_reported false s) in
  bump audio_queued_count s.

(** What is counted for each frame of the host. *)
Definition note_usb_frame (audio_start : Z) (haptics_nonzero got_chunks : bool) (s : bridge_state) :
    bridge_state :=
  let s := bump audio_usb_frame_count s in
  let s := if times s last_audio_usb_frame_time =? 0 then s
           else
             let frame_gap := audio_start - times s last_audio_usb_frame_time in
             let s := set_time audio_usb_max_gap (Z.max (times s audio_usb_max_gap) frame_gap) s in
             if kAudioSendGapWarn <=? frame_gap then bump audio_usb_gap_warn_count s else s in
  let s := set_time last_audio_usb_frame_time audio_start s in
  let s := set_flag audio_haptics_nonzero_seen (flags s audio_haptics_nonzero_seen || haptics_nonzero) s in
  if got_chunks && flags s audio_underflow_reported then
    let s := bump audio_underflow_refill_count s in
    let s := if times s audio_queue_empty_since =? 0 then s
             else set_time audio_underflow_max_gap
                    (Z.max (times s audio_underflow_max_gap)
                       (audio_start - times s audio_queue_empty_since)) s in
    set_flag audio_underflow_reported false s
  else s.

(** Whether the stream was activated by the frame. *)
Definition push_audio (payload : list Z) (audio_start : Z) : prog state bool :=
  let peaks := pcm_channel_peaks payload in
  s ← the_state;
  let reset_audio_route := negb (flags s audio_out_stream_active) || flags s speaker_waveout_active in
  _ ← (if reset_audio_route then
         _ ← update (fun s =>
           let s := route_audio true (set_flag speaker_waveout_active false s) in
           let s := set_flag audio_out_stream_active true s in
           let s := clear_flags [audio_pcm_stream_active; audio_stream_had_pcm] s in
           restart_stream from_zero (set_flag audio_jitter_buffering true s));
         x ← lift fresh_extractor; update (put_extractor x)
       else mret tt);
  chunks ← on_extractor (push_usb_audio opus_encode opus_strerror payload);
  let got_chunks := negb (length chunks =? 0)%nat in
  _ ← update (fun s =>
    let s := if got_chunks && negb (flags s audio_pcm_stream_active) then
               let s := set_flag audio_pcm_stream_active true (set_flag audio_stream_had_pcm true s) in
               restart_stream (counts s) (set_flag audio_jitter_buffering true s)
             else s in
    let s := if got_chunks then set_flag audio_stream_had_pcm true s else s in
    let haptics_nonzero := negb (byte_at peaks 2 =? 0) || negb (byte_at peaks 3 =? 0) in
    foldl (fun s chunk => queue_chunk chunk s) (note_usb_frame audio_start haptics_nonzero got_chunks s) chunks);
  mret reset_audio_route.

Definition handle_audio_out_frame (payload : list Z) : bridge unit :=
  audio_start ← locked (io clock_now);
  audio_route_activated ← locked (push_audio payload audio_start);
  if audio_route_activated : bool then send_bt_state_if_changed else mret tt.

Definition handle_virtual_frame (frame : vds_frame_header * list Z) : bridge unit :=
  let '(header, payload) := frame in
  if type header =? VDS_FRAME_USB_INTERFACE then handle_interface_frame payload
  else if type header =? VDS_FRAME_USB_HID_OUT then handle_hid_out_frame payload
  else if type header =? VDS_FRAME_USB_FEATURE_GET then handle_feature_get_frame payload
  else if type header =? VDS_FRAME_USB_FEATURE_SET then handle_feature_set_frame payload
  else if type header =? VDS_FRAME_USB_AUDIO_OUT then handle_audio_out_frame payload
  else mret tt.

(** ** Frames of the controller *)

(** The left channel gets the samples of the right one. *)
Fixpoint copy_right_channel (pcm : list Z) : list Z :=
  match pcm with
  | _ :: _ :: r0 :: r1 :: rest => r0 :: r1 :: r0 :: r1 :: copy_right_channel rest
  | _ => pcm
  end.

(** The PCM of a packet, or nothing when it is not decoded. *)
Definition decode_mic_packet (packet : list Z) : prog state (option (list Z)) :=
  match bt_mic_opus_payload packet with
  | Some opus_payload =>
      try_catch (pcm ← on_decoder (decode opus_decode opus_strerror opus_payload); mret (Some pcm))
        (fun _ => _ ← update (bump mic_input_decode_fail_count); mret None)
  | None => _ ← update (bump mic_input_decode_fail_count); mret None
  end.

Definition handle_mic_packet (packet : list Z) : bridge unit :=
  pcm ← locked (decode_mic_packet packet);
  match pcm with
  | None => mret tt
  | Some pcm =>
      _ ← write_virtual VDS_FRAME_USB_AUDIO_IN (copy_right_channel pcm);
      locked (update (bump mic_input_forward_count))
  end.

Definition flag_at (report : list Z) (offset : nat) (mask : Z) : bool :=
  negb (Z.land (byte_at report offset) mask =? 0).

(** [worker_status->mic_mute_request.exchange(-1)] *)
Definition take_mute_request (s : bridge_state) : bridge_state * option bool :=
  match worker_status s with
  | None => (s, None)
  | Some w =>
      (put_worker_status (Some (put_mic_mute_request (-1) w)) s,
       if mic_mute_request w =? 0 then Some false
       else if mic_mute_request w =? 1 then Some true else None)
  end.

(** What an input report makes of the plugs and the mute button: whether the headset
    changed, whether its microphone did, whether muting did. *)
Definition apply_headset (report : list Z) (s : bridge_state) : bridge_state * bool :=
  let headset := flag_at report kUsbInputHeadsetOffset kUsbInputHeadphonesPluggedMask in
  if Bool.eqb headset (flags s headset_plugged) then (s, false)
  else
    let s := set_flag headset_plugged headset s in
    (if flags s audio_out_stream_active || flags s speaker_waveout_active then route_audio true s else s, true).
Definition apply_headset_mic (report : list Z) (s : bridge_state) : bridge_state * bool :=
  let headset_mic := flag_at report kUsbInputHeadsetOffset kUsbInputMicPluggedMask in
  if Bool.eqb headset_mic (flags s headset_mic_plugged) then (s, false)
  else (plug_headset_mic (set_flag headset_mic_plugged headset_mic s), true).
Definition apply_mute (report : list Z) (s : bridge_state) : bridge_state * bool :=
  let down := flag_at report kUsbInputMuteButtonOffset kUsbInputMuteButtonMask in
  let pressed := down && negb (flags s mute_button_down) in
  let s := if pressed then set_flag mic_muted (negb (flags s mic_muted)) s else s in
  let '(s, request) := take_mute_request s in
  let '(s, changed) :=
    match request with
    | Some want => if Bool.eqb (flags s mic_muted) want then (s, pressed) else (set_flag mic_muted want s, true)
    | None => (s, pressed)
    end in
  (set_flag mute_button_down down s, changed).

(** What is to be sent for an input report. *)
Record InputActions := mk_actions {
  act_headset_changed : bool;
  act_mic_state : option (list Z);
  act_mic_close : option (list Z);
  act_mic_open : option (list Z);
  act_input_changed : bool
}.

Definition apply_input_report (report : list Z) : prog state InputActions :=
  _ ← update (bump usb_input_forward_count);
  s ← the_state;
  let input_changed := negb (flags s have_last_logged_input_report)
                       || input_controls_changed (last_logged_input_report s) report in
  headset_changed ← on_bridge (apply_headset report);
  headset_mic_changed ← on_bridge (apply_headset_mic report);
  mic_mute_changed ← on_bridge (apply_mute report);
  _ ← update (fun s => store (fun w => put_speaker_active (flags s audio_out_stream_active)
                                 (put_mic_active (flags s audio_in_stream_active)
                                    (put_ws_mic_muted (flags s mic_muted) w))) s);
  s ← the_state;
  let reopen := headset_mic_changed && flags s audio_in_stream_active in
  mic_state ← (if mic_mute_changed || reopen then
                 r ← on_output (build_bt_mic_state_report (flags s audio_in_stream_active) (flags s mic_muted));
                 mret (Some r)
               else mret None);
  mic_close ← (if reopen then r ← on_output (build_bt_mic_report false); mret (Some r) else mret None);
  mic_open ← (if reopen then r ← on_output (build_bt_mic_report true); mret (Some r) else mret None);
  mret (mk_actions headset_changed mic_state mic_close mic_open input_changed).

Definition send_when (report : option (list Z)) (label : string) : bridge unit :=
  match report with
  | Some report => _ ← try_send_bt_output_report report label; mret tt
  | None => mret tt
  end.

Definition handle_input_report (report : list Z) : bridge unit :=
  _ ← write_virtual VDS_FRAME_USB_HID_IN report;
  _ ← publish_input_status report;
  actions ← locked (apply_input_report report);
  _ ← send_when (act_mic_close actions) "mic";
  _ ← send_when (act_mic_state actions) "mic state";
  _ ← send_when (act_mic_open actions) "mic";
  _ ← (if act_headset_changed actions then send_bt_state_if_changed else mret tt);
  if act_input_changed actions then
    locked (update (fun s => bump usb_input_change_log_count
                               (set_flag have_last_logged_input_report true
                                  (put_last_logged_input_report report s))))
  else mret tt.

Definition handle_bluetooth_frame (frame : vds_frame_header * list Z) : bridge unit :=
  let '(header, payload) := frame in
  if type header =? VDS_FRAME_BT_INTERRUPT_PACKET then
    if decide (bt_input_payload_type payload = Audio) then handle_mic_packet payload
    else match bt_input_to_usb_input payload with
         | Some report => handle_input_report report
         | None => mret tt
         end
  else if type header =? VDS_FRAME_BT_CONTROL_PACKET then
    match bt_feature_to_usb_feature_reply payload with
    | Some report => write_virtual VDS_FRAME_USB_FEATURE_REPLY report
    | None => mret tt
    end
  else mret tt.

(** ** The start of a session *)

Definition send_initial_bluetooth_reports : bridge unit :=
  report ← locked (on_output build_bt_init_report);
  _ ← try_send_bt_output_report report "init";
  locked (
    _ ← update (set_flag audio_in_stream_active false);
    d ← lift create_decoder;
    _ ← update (put_mic_decoder d);
    _ ← update plug_headset_mic;
    update (fun s => set_flag have_last_sent_state true (put_last_sent_state (state_ (output_state s)) s))).

Definition make_silent_audio_chunk : result AudioChunk :=
  x ← fresh_extractor;
  match (push_usb_audio opus_encode opus_strerror
           (replicate (kWindowsPcmWindowFrames * kPcmFrameSize) 0) x).2 with
  | Ok [chunk] => Ok (mk_chunk (haptics chunk) (speaker chunk) false false)
  | Ok _ => Throw "failed to build silent audio keepalive chunk"
  | Throw e => Throw e
  end.

(** [BridgeState state;] with its [worker_status] set. *)
Definition new_bridge_state (status : option WorkerStatus) : result bridge_state :=
  x ← fresh_extractor; y ← fresh_extractor; d ← create_decoder;
  _ ← make_silent_audio_chunk;
  Ok (mk_state status initial_output_state x y d (mk_builder 0 0) [] None (replicate 256 None)
        (replicate kDsStateSize 0) (replicate VDS_USB_INPUT_REPORT_SIZE 0) 0 (fun _ => 0) (fun _ => 0)
        (fun f => match f with audio_jitter_buffering | speaker_waveout_selected => true | _ => false end)).
End Bridge.
