(* ===== verification/WinAudio.v ===== *)
(** The audio thread of a worker of the Windows daemon (src/src/platform/win32/vdsd.cc):
    chunks are sent to the controller at their pace, gaps are concealed, and a stream that
    has drained is closed.  Also the test tone, the summary, and the loops of the three
    threads. *)
From stdpp Require Import base list strings numbers.
From Stdlib Require Import Ascii ZArith Lia.
From S2P Require Import Prelude Text Words BtPacket OutputState Audio Threads WinIo WinState WinBridge.

Local Open Scope Z_scope.

(** The interval until the next packet, and whether the queue is at its low or its high
    mark. *)
Definition audio_output_interval_for_pending (tuning : Tuning) (pending_chunks : nat) : Z * bool * bool :=
  if (pending_chunks <=? kAudioLowWatermarkChunks)%nat
  then (kAudioOutputBaseInterval + kAudioLowWatermarkPaceDelay, true, false)
  else if (kAudioHighWatermarkChunks tuning <=? pending_chunks)%nat
  then (kAudioOutputBaseInterval - kAudioHighWatermarkCatchupDelay, false, true)
  else (kAudioOutputBaseInterval, false, false).

(** [max(minimum, min(idle, remaining))] *)
Definition bounded_sleep (remaining : Z) : Z :=
  Z.max kAudioFlushMinimumSleep (Z.min kAudioFlushIdleSleep remaining).

(** What the first critical section decides: to sleep; to close the stream, with a report
    for the controller; or to send a packet that was due at [scheduled]: [chunk] is
    [sent_audio_chunk] when there is one, [concealment] is [sending_concealment].
    [sending_keepalive] is never set, so its branches are left out. *)
Inductive flush_decision :=
  | Wait (sleep : Z)
  | Deactivated (stream_stop_report : option (list Z))
  | Send (packet : list Z) (chunk : option AudioChunk) (concealment : bool) (scheduled send_time : Z).

Section Audio.
Context {Encoder Dec : Type} `{Codecs Encoder Dec} `{WinSystem}.
Context (tuning : Tuning).

Abbreviation bridge_state := (BridgeState Encoder Dec).
Abbreviation state := (bridge_state * World)%type.
Abbreviation bridge := (thread state).

(** ** The test tone *)

(** The frames of the tone, the phase after each. *)
Fixpoint waveout_pcm (frames : nat) (phase : Z) : list Z * Z :=
  match frames with
  | O => ([], phase)
  | S n =>
      let value := u16 (waveout_sample phase) in
      let sample := [u8 (Z.land value 0xff); u8 (Z.land (Z.shiftr value 8) 0xff)] in
      let '(rest, phase') := waveout_pcm n ((phase + 1) mod kSpeakerWaveoutPeriodFrames) in
      (sample ++ sample ++ [0; 0; 0; 0] ++ rest, phase')
  end.

Fixpoint append_while_room (chunks : list AudioChunk) (s : bridge_state) : bridge_state :=
  match chunks with
  | [] => s
  | chunk :: rest =>
      if (kMaxPendingAudioChunks tuning <=? length (pending_audio_chunks s))%nat then s
      else append_while_room rest (put_pending_audio_chunks (pending_audio_chunks s ++ [chunk]) s)
  end.

Definition enqueue_speaker_waveout_chunk : prog state unit :=
  s ← the_state;
  if negb (flags s speaker_waveout_active) || negb (length (pending_audio_chunks s) =? 0)%nat then mret tt
  else
    let '(pcm, phase) := waveout_pcm kWindowsPcmWindowFrames (speaker_waveout_phase s) in
    _ ← update (put_speaker_waveout_phase phase);
    chunks ← on_waveout_extractor (push_usb_audio opus_encode opus_strerror pcm);
    update (append_while_room chunks).

(** ** One round *)

Definition due (s : bridge_state) (now : Z) : Z :=
  if times s next_haptics_send_time =? 0 then now else times s next_haptics_send_time.
Definition too_early (s : bridge_state) (now : Z) : bool :=
  negb (times s next_haptics_send_time =? 0) && (now <? times s next_haptics_send_time).

(** The last chunk without its haptics. *)
Definition concealment_chunk (chunk : AudioChunk) : AudioChunk :=
  mk_chunk (replicate (length (haptics chunk)) 0) (speaker chunk) (has_signal chunk) false.

Definition build_audio_packet (haptics speaker : list Z) : prog state (list Z) :=
  s ← the_state;
  on_builder (build_packet haptics speaker (state_ (output_state s)) true (flags s headset_plugged)).

(** The stream has had no packets for long enough. *)
Definition close_stream : prog state flush_decision :=
  _ ← update (fun s =>
    let s := if negb (flags s audio_underflow_reported) && negb (counts s audio_sent_count =? 0) then
               let s := set_flag audio_underflow_reported true (bump audio_underflow_count s) in
               set_time audio_queue_drained_time (times s audio_queue_empty_since)
                 (set_flag audio_queue_empty_reported true s)
             else s in
    set_flag audio_pcm_stream_active false s);
  s ← the_state;
  if flags s speaker_waveout_active then
    (* no packet was built: it is all zeros, and is sent *)
    _ ← update (set_time next_haptics_send_time 0);
    mret (Send (replicate kBtHapticsReportSize 0) None false 0 0)
  else
    _ ← update (fun s =>
      let s := route_audio false s in
      let s := clear_flags [audio_out_stream_active; audio_jitter_buffering] s in
      put_last_audio_chunk None
        (clear_times [audio_queue_empty_since; audio_queue_drained_time; next_haptics_send_time] s));
    report ← build_bt_state_if_changed;
    _ ← update (set_time next_haptics_send_time 0);
    mret (Deactivated report).

(** The queue is empty. *)
Definition flush_empty (now : Z) : prog state flush_decision :=
  s ← the_state;
  if negb (flags s audio_out_stream_active) || negb (flags s audio_pcm_stream_active)
  then mret (Wait kAudioFlushIdleSleep)
  else
    _ ← update (fun s =>
      let s := set_time audio_jitter_buffer_start 0 (set_flag audio_jitter_buffering false s) in
      if times s audio_queue_empty_since =? 0 then set_time audio_queue_empty_since now s else s);
    s ← the_state;
    let empty_duration := now - times s audio_queue_empty_since in
    if too_early s now then mret (Wait (bounded_sleep (times s next_haptics_send_time - now)))
    else
      match last_audio_chunk s with
      | Some last =>
          if empty_duration <? kAudioUnderflowKeepaliveDelay then
            let chunk := concealment_chunk last in
            packet ← build_audio_packet (haptics chunk) (speaker chunk);
            mret (Send packet None true (due s now) now)
          else close_stream
      | None =>
          if empty_duration <? kAudioUnderflowKeepaliveDelay
          then mret (Wait (bounded_sleep (kAudioUnderflowKeepaliveDelay - empty_duration)))
          else close_stream
      end.

(** [while (size() > kAudioFreshQueueChunks)] *)
Definition drop_stale (s : bridge_state) : bridge_state :=
  let n := (length (pending_audio_chunks s) - kAudioFreshQueueChunks tuning)%nat in
  let k := Z.of_nat n in
  let s := put_pending_audio_chunks (drop n (pending_audio_chunks s)) s in
  let s := set_count audio_dropped_count (u64 (counts s audio_dropped_count + k)) s in
  set_count audio_stale_dropped_count (u64 (counts s audio_stale_dropped_count + k)) s.

(** A stream that starts waits for its cushion of packets, but not too long. *)
Definition jitter_wait (now : Z) : prog state bool :=
  s ← the_state;
  if negb (flags s audio_jitter_buffering) then mret false
  else
    _ ← update (fun s => if times s audio_jitter_buffer_start =? 0
                         then set_time audio_jitter_buffer_start now s else s);
    s ← the_state;
    let buffer_age := now - times s audio_jitter_buffer_start in
    if (length (pending_audio_chunks s) <? kAudioPrimeChunks tuning)%nat
       && (buffer_age <? kAudioJitterBufferMaxDelay)
    then mret true
    else
      _ ← update (fun s => set_time next_haptics_send_time now (set_flag audio_jitter_buffering false s));
      mret false.

Definition limit_haptics (sample : Z) : Z :=
  s8 (clamp sample kWindowsHapticsSampleMin kWindowsHapticsSampleMax).

Definition flush_queue (now : Z) : prog state flush_decision :=
  waits ← jitter_wait now;
  if waits : bool then mret (Wait (milliseconds 1))
  else
    s ← the_state;
    if too_early s now then mret (Wait (bounded_sleep (times s next_haptics_send_time - now)))
    else
      _ ← update drop_stale;
      s ← the_state;
      match pending_audio_chunks s with
      | [] => mret (Wait 0)
      | chunk :: _ =>
          packet ← build_audio_packet (limit_haptics <$> haptics chunk) (speaker chunk);
          mret (Send packet (Some chunk) false (due s now) now)
      end.

Definition decide_flush : prog state flush_decision :=
  now ← io clock_now;
  s ← the_state;
  if (length (pending_audio_chunks s) =? 0)%nat then flush_empty now else flush_queue now.

Definition pop_sent (concealment : bool) (s : bridge_state) : bridge_state :=
  if concealment then s else put_pending_audio_chunks (tail (pending_audio_chunks s)) s.

(** The time of the next packet: the schedule goes on, or starts again when it is late. *)
Definition schedule_next (scheduled send_time interval : Z) (s : bridge_state) : bridge_state :=
  let next := scheduled + interval in
  set_time next_haptics_send_time (if next <=? send_time then send_time + interval else next) s.

(** The packet was not sent. *)
Definition note_blocked (concealment : bool) (scheduled send_time : Z) (s : bridge_state) : bridge_state :=
  let s := bump audio_blocked_count (pop_sent concealment s) in
  let s := if concealment then s else bump audio_dropped_count s in
  let '(interval, low, _) := audio_output_interval_for_pending tuning (length (pending_audio_chunks s)) in
  let s := if low : bool then bump audio_low_watermark_pace_count s else s in
  schedule_next scheduled send_time interval s.

(** The packet was sent. *)
Definition note_sent (chunk : option AudioChunk) (concealment : bool) (scheduled send_time : Z)
    (s : bridge_state) : bridge_state :=
  let s := pop_sent concealment s in
  let pending_after_pop := length (pending_audio_chunks s) in
  let s := if (pending_after_pop =? 0)%nat then set_time audio_jitter_buffer_start 0 s else s in
  let s := set_flag have_last_sent_state true (put_last_sent_state (state_ (output_state s)) s) in
  let s := if concealment then bump audio_concealed_count s
           else
             let s := bump audio_sent_count s in
             match chunk with
             | Some c =>
                 let s := put_last_audio_chunk (Some c) s in
                 if has_haptics_signal c then set_flag audio_haptics_sent_seen true s else s
             | None => s
             end in
  let s := if flags s have_last_audio_send_time then
             let send_gap := send_time - times s last_audio_send_time in
             let s := set_time audio_send_max_gap (Z.max (times s audio_send_max_gap) send_gap) s in
             if kAudioSendGapWarn <=? send_gap then bump audio_send_gap_warn_count s else s
           else s in
  let s := set_flag have_last_audio_send_time true (set_time last_audio_send_time send_time s) in
  let '(interval, s) :=
    if concealment then (kAudioOutputBaseInterval, s)
    else
      let '(interval, low, _) := audio_output_interval_for_pending tuning pending_after_pop in
      (interval, if low : bool then bump audio_low_watermark_pace_count s else s) in
  schedule_next scheduled send_time interval s.

(** How long to sleep after the round. *)
Definition flush_pending_audio_chunk : bridge Z :=
  decision ← locked decide_flush;
  match decision with
  | Wait sleep => mret sleep
  | Deactivated report => _ ← send_when report "state"; mret kAudioFlushIdleSleep
  | Send packet chunk concealment scheduled send_time =>
      sent ← try_send_bt_output_report packet "audio";
      _ ← locked (update (if sent : bool then note_sent chunk concealment scheduled send_time
                          else note_blocked concealment scheduled send_time));
      mret 0
  end.

(** ** The summary *)

(** The counters of the summary and what they were at the last one. *)
Definition summary_counters : list (counter * counter) :=
  [(audio_usb_frame_count, audio_last_summary_usb_frame_count);
   (audio_sent_count, audio_last_summary_sent_count);
   (audio_concealed_count, audio_last_summary_concealed_count);
   (audio_keepalive_sent_count, audio_last_summary_keepalive_sent_count);
   (audio_dropped_count, audio_last_summary_dropped_count);
   (audio_blocked_count, audio_last_summary_blocked_count);
   (audio_underflow_count, audio_last_summary_underflow_count);
   (audio_usb_gap_warn_count, audio_last_summary_usb_gap_warn_count);
   (audio_send_gap_warn_count, audio_last_summary_send_gap_warn_count);
   (audio_flush_gap_warn_count, audio_last_summary_flush_gap_warn_count);
   (audio_low_watermark_pace_count, audio_last_summary_low_watermark_pace_count)].
Definition summary_delta (s : bridge_state) (c : counter * counter) : Z := u64 (counts s c.1 - counts s c.2).
(** The counters whose change makes the summary a warning. *)
Definition summary_warns (s : bridge_state) : bool :=
  existsb (fun c => negb (summary_delta s c =? 0))
    [(audio_dropped_count, audio_last_summary_dropped_count);
     (audio_blocked_count, audio_last_summary_blocked_count);
     (audio_underflow_count, audio_last_summary_underflow_count);
     (audio_usb_gap_warn_count, audio_last_summary_usb_gap_warn_count);
     (audio_send_gap_warn_count, audio_last_summary_send_gap_warn_count);
     (audio_flush_gap_warn_count, audio_last_summary_flush_gap_warn_count)].

(** The deltas and whether they are a warning, when a summary is logged. *)
Definition maybe_log_audio_summary : prog state (option (list Z * bool)) :=
  s ← the_state;
  if negb (flags s audio_out_stream_active || flags s audio_pcm_stream_active
           || negb (length (pending_audio_chunks s) =? 0)%nat) then mret None
  else
    now ← io clock_now;
    if negb (times s audio_last_summary_time =? 0)
       && (now - times s audio_last_summary_time <? kAudioSummaryInterval) then mret None
    else
      let deltas := summary_delta s <$> summary_counters in
      _ ← update (fun s => set_time audio_last_summary_time now
                             (foldr (fun c => set_count c.2 (counts s c.1)) s summary_counters));
      mret (Some (deltas, summary_warns s)).

(** ** The loops of the threads *)

Definition note_flush (now : Z) (s : bridge_state) : bridge_state :=
  let s := if times s audio_last_flush_time =? 0 then s
           else
             let flush_gap := now - times s audio_last_flush_time in
             let s := set_time audio_flush_max_gap (Z.max (times s audio_flush_max_gap) flush_gap) s in
             if kAudioSendGapWarn <=? flush_gap then bump audio_flush_gap_warn_count s else s in
  set_time audio_last_flush_time now s.

(** A round of [audio_flush_loop] up to its sleep. *)
Definition audio_flush_round : bridge Z :=
  _ ← locked (now ← io clock_now; update (note_flush now));
  _ ← locked enqueue_speaker_waveout_chunk;
  sleep_duration ← flush_pending_audio_chunk;
  _ ← locked maybe_log_audio_summary;
  mret sleep_duration.

(** A round of [virtual_to_bluetooth_loop], and one of [bluetooth_to_virtual_loop] for what
    the transport has read. *)
Definition virtual_to_bluetooth_round : bridge unit :=
  frame ← locked (io (on_device (read_handle_frame false "virtual")));
  handle_virtual_frame tuning frame.
Definition bluetooth_to_virtual_round (read_frame : result (vds_frame_header * list Z)) : bridge unit :=
  frame ← Done read_frame;
  handle_bluetooth_frame frame.
End Audio.
