(* ===== verification/WinInv.v ===== *)
(** The invariant of a worker of the Windows daemon: that every critical section of
    WinBridge.v and WinAudio.v keeps it, whatever the other threads do in between.

    The audio thread relies on more than the invariant when it empties the queue: while the
    test tone plays, an empty queue has just been emptied ([tone_ok]).  It makes that true
    itself when it queues the tone, and the other threads keep it. *)
From stdpp Require Import base list strings numbers.
From Stdlib Require Import Ascii ZArith Lia.
From S2P Require Import Prelude Text Words Checksum BtPacket OutputState OutputInv OutputReports Audio.
From S2P Require Import AudioFacts Threads WinIo WinState WinBridge WinAudio.

Local Open Scope Z_scope.

(** ** The invariant *)

Definition tuning_ok (t : Tuning) : Prop :=
  (1 <= kAudioPrimeChunks t <= 64)%nat /\ (2 <= kAudioFreshQueueChunks t <= 128)%nat.

(** A report for the controller: its sizes, and a checksum over the HIDP header and all
    but its last four bytes. *)
Definition report_ok (report : list Z) : Prop :=
  exists id body, report = checksummed 0xa2 (id :: body) /\ bytes_ok (id :: body) /\
    (id, length report) ∈ [(0x31, kBtStateReportSize); (0x32, kBtInitReportSize); (0x36, kBtHapticsReportSize)].
Definition packet_ok (packet : list Z) : Prop :=
  exists report, packet = hidp_output_packet report /\ report_ok report.

Definition status_ok (w : WorkerStatus) : Prop :=
  -1 <= battery_percent w <= 100 /\ -1 <= mic_mute_request w <= 1.

Definition feature_answer_ok (a : result (option (list Z))) : Prop :=
  match a with Ok (Some report) => bytes_ok report | _ => True end.
Record world_ok (w : World) : Prop := {
  ok_sent : Forall packet_ok (bt_sent w);
  ok_incoming : bytes_ok (incoming (device w));
  ok_features : Forall feature_answer_ok (feature_answers w)
}.

(** What is cached under a number is a report of that number, below the command channel. *)
Definition cache_ok (cache : list (option (list Z))) : Prop :=
  length cache = 256%nat /\
  forall id report, cache !! id = Some (Some report) ->
    (id < 128)%nat /\ head report = Some (Z.of_nat id) /\ bytes_ok report.

Section Inv.
Context {Encoder Dec : Type} `{Codecs Encoder Dec} `{WinSystem}.
Context (tuning : Tuning).
Context (Htuning : tuning_ok tuning) (Hopus : opus_encode_ok opus_encode).
Context (encoder_created : is_ok (create_encoder (Codecs := _)) = true).

Abbreviation bridge_state := (BridgeState Encoder Dec).
Abbreviation state := (bridge_state * World)%type.
Abbreviation bridge := (thread state).

Record bridge_ok (s : bridge_state) : Prop := {
  ok_output : out_ok (output_state s);
  ok_builder : builder_ok (haptics_builder s);
  ok_queue : (length (pending_audio_chunks s) <= kMaxPendingAudioChunks tuning)%nat;
  ok_chunks : Forall chunk_ok (pending_audio_chunks s);
  ok_last : forall c, last_audio_chunk s = Some c -> chunk_ok c;
  ok_tone : window_extractor_ok (waveout_extractor s);
  ok_phase : 0 <= speaker_waveout_phase s < kSpeakerWaveoutPeriodFrames;
  ok_cache : cache_ok (feature_cache s);
  ok_status : forall w, worker_status s = Some w -> status_ok w
}.

Definition tone_ok (s : bridge_state) : Prop :=
  flags s speaker_waveout_active = true -> pending_audio_chunks s = [] -> times s audio_queue_empty_since = 0.

Definition inv (tone : bool) (s : state) : Prop :=
  bridge_ok s.1 /\ world_ok s.2 /\ (tone = true -> tone_ok s.1).
Abbreviation safe m := (forall tone, preserves (keeps (inv tone)) m).
Abbreviation sgives Q m := (forall tone, gives (inv tone) Q m).

Lemma inv_base tone s : inv tone s -> inv false s.
Proof. intros (? & ? & _). by split_and!. Qed.

Create HintDb threads.

(** ** Computations *)

Lemma win_update_safe (f : bridge_state -> bridge_state) :
  (forall s, bridge_ok s -> bridge_ok (f s)) -> (forall s, tone_ok s -> tone_ok (f s)) -> safe (update f).
Proof. intros Hf Ht tone [s w] (Hs & Hw & Htone). split_and!; [by apply Hf|done|]. intros E. by apply Ht, Htone. Qed.
Lemma the_state_safe : safe the_state.
Proof. intros tone s Hs. exact Hs. Qed.
Lemma the_state_gives : sgives bridge_ok the_state.
Proof. intros tone s Hs. split; [exact Hs|]. intros a [= <-]. apply Hs. Qed.
Lemma lift_safe {A} (r : result A) : safe (lift r).
Proof. intros tone s Hs. exact Hs. Qed.
Lemma win_io_gives {A} (Q : A -> Prop) (m : prog World A) : gives world_ok Q m -> sgives Q (io m).
Proof.
  intros Hm tone [s w] (Hs & Hw & Ht). unfold io. destruct (Hm w Hw) as [Hi Hq]. cbn [fst snd] in *.
  destruct (m w) as [w1 r]. done.
Qed.
Lemma win_io_safe {A} (m : prog World A) : preserves (keeps world_ok) m -> safe (io m).
Proof. intros Hm tone s Hs. apply (win_io_gives (fun _ => True)); [by apply preserves_gives|done]. Qed.

Lemma clock_now_safe : preserves (keeps world_ok) clock_now.
Proof. intros w []. by constructor. Qed.

(** The other members are not touched. *)
Ltac other_member := let s := fresh in intros s [] ; by constructor.
(** A list of bytes, element by element. *)
Ltac all_bytes :=
  repeat first
    [ progress auto with words
    | apply bytes_ok_take; assumption
    | apply bytes_ok_u8
    | apply Forall_replicate; done
    | apply Forall_nil; done
    | apply Forall_app_2
    | apply Forall_cons_2; [first [done|solve [auto with words]|by case_match|unfold is_u8; lia]|] ].

Lemma on_extractor_gives {A} (Q : A -> Prop) (m : prog (PcmAudioExtractor Encoder) A) :
  (forall x a, (m x).2 = Ok a -> Q a) -> sgives Q (on_extractor m).
Proof.
  intros Hm tone [s w] (Hs & Hw & Ht). unfold on_extractor. cbn [fst snd]. specialize (Hm (extractor s)).
  destruct (m (extractor s)) as [x r]. cbn [fst snd] in *. split; [|done]. destruct Hs. by split_and!.
Qed.
Lemma win_on_decoder_safe {A} (m : prog Dec A) : safe (on_decoder m).
Proof.
  intros tone [s w] (Hs & Hw & Ht). unfold on_decoder. cbn [fst snd].
  destruct (m (mic_decoder s)) as [x r]. destruct Hs. by split_and!.
Qed.
Lemma on_output_gives {A} (Q : A -> Prop) (m : prog DsOutputState A) :
  (forall o, out_ok o -> out_ok (m o).1 /\ forall a, (m o).2 = Ok a -> Q a) -> sgives Q (on_output m).
Proof.
  intros Hm tone [s w] (Hs & Hw & Ht). unfold on_output. cbn [fst snd].
  destruct (Hm (output_state s) (ok_output s Hs)) as [Ho Hq].
  destruct (m (output_state s)) as [o r]. cbn [fst snd] in *. split; [|done]. destruct Hs. by split_and!.
Qed.

Lemma report_fits id body n :
  (id, n) ∈ [(0x31, kBtStateReportSize); (0x32, kBtInitReportSize); (0x36, kBtHapticsReportSize)] ->
  bytes_ok (id :: body) -> S (length body + 4) = n -> report_ok (checksummed 0xa2 (id :: body)).
Proof.
  intros Hin Hb <-. exists id, body. split_and!; [done..|]. rewrite checksummed_length. cbn [length].
  by replace (S (length body + 4)) with (S (S (S (S (S (length body)))))) in Hin by lia.
Qed.

Lemma state_report_gives : sgives report_ok (on_output build_bt_state_report).
Proof.
  apply on_output_gives. intros o Ho. split; [apply (output_step_ok o); [done|apply step_state]|].
  rewrite state_report_spec by done. intros a [= <-]. pose proof (state_bytes_ok o Ho) as Hb.
  destruct (ok_sequences o Ho) as [Hq _]. unfold state_report_body. cbn [app].
  apply (report_fits _ _ kBtStateReportSize); [repeat first [apply list_elem_of_here|apply list_elem_of_further]| |].
  - all_bytes.
  - cbn [length]. rewrite length_app, length_take, length_replicate, (ok_length o Ho). done.
Qed.
Lemma mic_report_gives a : sgives report_ok (on_output (build_bt_mic_report a)).
Proof.
  apply on_output_gives. intros o Ho. split; [apply (output_step_ok o); [done|apply step_mic]|].
  rewrite mic_report_spec by done. intros r [= <-].
  destruct (ok_sequences o Ho) as [_ Hq]. unfold mic_report_body. cbn [app].
  apply (report_fits _ _ kBtInitReportSize); [repeat first [apply list_elem_of_here|apply list_elem_of_further]| |].
  - all_bytes.
  - reflexivity.
Qed.
Lemma mic_state_report_gives a m : sgives report_ok (on_output (build_bt_mic_state_report a m)).
Proof.
  apply on_output_gives. intros o Ho. split; [apply (output_step_ok o); [done|apply step_mic_state]|].
  rewrite mic_state_report_spec by done. intros r [= <-].
  destruct (ok_sequences o Ho) as [Hq _]. destruct (ok_members o Ho) as (_ & _ & Hmv & Ha2 & _).
  unfold mic_state_part. cbn [app].
  apply (report_fits _ _ kBtStateReportSize); [repeat first [apply list_elem_of_here|apply list_elem_of_further]| |].
  - all_bytes.
  - reflexivity.
Qed.
Lemma init_report_gives : sgives report_ok (on_output build_bt_init_report).
Proof.
  apply on_output_gives. intros o Ho. split; [apply (output_step_ok o); [done|apply step_init]|].
  rewrite init_report_spec by done. intros r [= <-]. pose proof (state_bytes_ok o Ho) as Hb. cbn [app].
  apply (report_fits _ _ kBtInitReportSize); [repeat first [apply list_elem_of_here|apply list_elem_of_further]| |].
  - all_bytes.
  - cbn [length]. rewrite length_app, (ok_length o Ho). reflexivity.
Qed.
Lemma win_usb_report_safe payload : bytes_ok payload -> safe (on_output (apply_usb_output_report payload)).
Proof.
  intros Hp tone s Hs. apply (on_output_gives (fun _ => True)); [|done]. intros o Ho.
  split; [|done]. apply (output_step_ok o); [done|by apply step_usb_report].
Qed.

Lemma audio_packet_gives h sp :
  length h = kHapticsSampleSize -> length sp = kSpeakerOpusSize -> bytes_ok sp ->
  sgives report_ok (build_audio_packet h sp).
Proof.
  intros Hh Hl Hb tone [s w] (Hs & Hw & Ht). unfold build_audio_packet, mbind, prog_bind, the_state, on_builder.
  cbn [fst snd]. pose proof (ok_output s Hs) as Ho. pose proof (state_bytes_ok _ Ho) as Hsb.
  pose proof (ok_builder s Hs) as Hbd.
  rewrite build_packet_spec by (try done; apply (ok_length _ Ho)). cbn [fst snd]. split.
  - split_and!; [|done|done]. destruct Hs. constructor; try done. split; cbn; apply Z.mod_pos_bound; lia.
  - intros a [= <-]. unfold haptics_body. cbn [app]. destruct Hbd as [Hq Hn].
    apply (report_fits _ _ kBtHapticsReportSize); [repeat first [apply list_elem_of_here|apply list_elem_of_further]| |].
    + all_bytes.
    + repeat (cbn [length]; rewrite ?length_app, ?length_fmap). rewrite Hh, Hl, (ok_length _ Ho).
      reflexivity.
Qed.

(** ** Assignments *)

Lemma set_flag_ok f v s : bridge_ok s -> bridge_ok (set_flag f v s).
Proof. by intros []. Qed.
Lemma set_time_ok c v s : bridge_ok s -> bridge_ok (set_time c v s).
Proof. by intros []. Qed.
Lemma set_count_ok c v s : bridge_ok s -> bridge_ok (set_count c v s).
Proof. by intros []. Qed.
Lemma win_bump_ok c s : bridge_ok s -> bridge_ok (bump c s).
Proof. by intros []. Qed.
Lemma clear_times_ok cs s : bridge_ok s -> bridge_ok (clear_times cs s).
Proof. intros Hs. induction cs; [done|]. by apply set_time_ok. Qed.
Lemma clear_counts_ok cs s : bridge_ok s -> bridge_ok (clear_counts cs s).
Proof. intros Hs. induction cs; [done|]. by apply set_count_ok. Qed.
Lemma clear_flags_ok fs s : bridge_ok s -> bridge_ok (clear_flags fs s).
Proof. intros Hs. induction fs; [done|]. by apply set_flag_ok. Qed.
Lemma win_route_ok a s : bridge_ok s -> bridge_ok (route_audio a s).
Proof. intros []. constructor; try done. by apply stream_ok. Qed.
Lemma plug_ok s : bridge_ok s -> bridge_ok (plug_headset_mic s).
Proof. intros []. constructor; try done. by apply headset_ok. Qed.
Lemma win_no_chunks_ok s : bridge_ok s -> bridge_ok (put_pending_audio_chunks [] s).
Proof. intros []. constructor; try done; cbn; first [lia|by apply Forall_nil]. Qed.
Lemma no_last_ok s : bridge_ok s -> bridge_ok (put_last_audio_chunk None s).
Proof. by intros []. Qed.
Lemma extractor_ok x s : bridge_ok s -> bridge_ok (put_extractor x s).
Proof. by intros []. Qed.
Lemma decoder_ok d s : bridge_ok s -> bridge_ok (put_mic_decoder d s).
Proof. by intros []. Qed.
Lemma win_phase_zero_ok s : bridge_ok s -> bridge_ok (put_speaker_waveout_phase 0 s).
Proof. by intros []. Qed.
Lemma last_sent_ok st s : bridge_ok s -> bridge_ok (put_last_sent_state st s).
Proof. by intros []. Qed.
Lemma last_logged_ok r s : bridge_ok s -> bridge_ok (put_last_logged_input_report r s).
Proof. by intros []. Qed.
Create HintDb bridge.
Hint Resolve set_flag_ok set_time_ok set_count_ok win_bump_ok clear_times_ok clear_counts_ok clear_flags_ok
  win_route_ok plug_ok win_no_chunks_ok no_last_ok extractor_ok decoder_ok win_phase_zero_ok last_sent_ok
  last_logged_ok : bridge.

Lemma restart_ok base s : bridge_ok s -> bridge_ok (restart_stream base s).
Proof. intros Hs. unfold restart_stream. auto 30 with bridge. Qed.
Lemma store_ok f s : (forall w, status_ok w -> status_ok (f w)) -> bridge_ok s -> bridge_ok (store f s).
Proof.
  intros Hf []. constructor; try done. cbn. intros w. destruct (worker_status s); [|done].
  intros [= <-]. auto.
Qed.
Lemma cache_one_ok id rest s :
  is_cacheable_feature id = true -> bytes_ok (id :: rest) -> bridge_ok s ->
  bridge_ok (put_feature_cache (<[Z.to_nat id := Some (id :: rest)]> (feature_cache s)) s).
Proof.
  intros Hid Hb Hs. apply Z.ltb_lt in Hid. pose proof (Forall_inv Hb) as Hu.
  destruct Hs as [? ? ? ? ? ? ? [Hl Hc] ?]. constructor; try done. split; cbn; [by rewrite length_insert|].
  intros i r Hi. apply list_lookup_insert_Some in Hi as [(<- & [= <-] & _)|(_ & Hi)]; [|by eapply Hc].
  unfold is_u8 in Hu. split_and!; [lia| |done]. cbn. f_equal. lia.
Qed.
Hint Resolve restart_ok store_ok : bridge.

(** ** Sections and threads *)

(** The flags and times the audio thread relies on are untouched, or the queue has just been
    emptied. *)
Ltac tone := first [by intros|by intros ? _ _ _].

Hint Extern 2 (preserves _ (update _)) => apply win_update_safe; [solve [auto 30 with bridge]|solve [tone]] : preserves.
Hint Resolve the_state_safe lift_safe win_on_decoder_safe : preserves.

Lemma gives_keeps {A} (Q : A -> Prop) (m : prog state A) : sgives Q m -> safe m.
Proof. intros Hm tone s Hs. by apply Hm. Qed.

Abbreviation ok := (all_gives inv).
Lemma locked_ok {A} (m : prog state A) : safe m -> ok (locked m).
Proof. apply all_gives_locked. Qed.

Lemma update_ok (f : bridge_state -> bridge_state) :
  (forall s, bridge_ok s -> bridge_ok (f s)) -> (forall s, tone_ok s -> tone_ok (f s)) -> ok (locked (update f)).
Proof. intros Hf Ht. by apply locked_ok, win_update_safe. Qed.

Lemma store_step_ok f : (forall w, status_ok w -> status_ok (f w)) -> ok (store_step f).
Proof. intros Hf. apply update_ok; [auto with bridge|]. by intros s. Qed.

Lemma take_answer_keeps : preserves (keeps world_ok) take_bt_answer.
Proof. intros w []. unfold take_bt_answer. destruct (bt_answers w); by constructor. Qed.
Lemma sent_keeps packet :
  packet_ok packet -> preserves (keeps world_ok) (modify (fun w => put_bt_sent (bt_sent w ++ [packet]) w)).
Proof. intros Hp w []. constructor; try done. cbn. apply Forall_app_2; [done|]. by apply Forall_singleton. Qed.

Lemma win_try_send_ok report label : report_ok report -> ok (try_send_bt_output_report report label).
Proof.
  intros Hr. assert (packet_ok (hidp_output_packet report)) as Hp by by exists report.
  apply locked_ok. intros tone. apply preserves_catch; [typeclasses eauto| |intros; solve_preserves].
  assert (preserves (keeps world_ok) (write_interrupt_packet (hidp_output_packet report))) as H1.
  { unfold write_interrupt_packet. apply preserves_bind; [typeclasses eauto|apply take_answer_keeps|].
    intros []; try solve [solve_preserves]; by apply sent_keeps. }
  assert (preserves (keeps world_ok) (try_write_interrupt_packet (hidp_output_packet report))) as H2.
  { unfold try_write_interrupt_packet. apply preserves_bind; [typeclasses eauto|apply take_answer_keeps|].
    intros []; try solve [solve_preserves]. apply preserves_bind; [typeclasses eauto|by apply sent_keeps|].
    intros; solve_preserves. }
  cbv zeta. case_decide; [by apply win_io_safe|].
  apply preserves_bind; [typeclasses eauto|by apply win_io_safe|intros; solve_preserves].
Qed.
Lemma send_when_ok report label : (forall r, report = Some r -> report_ok r) -> ok (send_when report label).
Proof.
  intros Hr. destruct report as [r|]; [|apply all_gives_ret]. apply all_gives_bind; [by apply win_try_send_ok, Hr|].
  intros; apply all_gives_ret.
Qed.

Definition some_report_ok (r : option (list Z)) : Prop := forall report, r = Some report -> report_ok report.

Lemma build_state_gives : sgives some_report_ok build_bt_state_if_changed.
Proof.
  intros tone. unfold build_bt_state_if_changed. eapply gives_bind; [apply the_state_gives|]. intros s _.
  cbv zeta. case_match; [intros s' Hs'; split; [done|by intros a [= <-]]|].
  eapply gives_bind; [apply state_report_gives|]. intros r Hr.
  eapply gives_bind; [apply preserves_gives; apply win_update_safe; [auto with bridge|by intros]|].
  intros _ _ s' Hs'. split; [done|]. by intros a [= <-] r' [= <-].
Qed.
Lemma send_state_ok : ok send_bt_state_if_changed.
Proof.
  unfold send_bt_state_if_changed. eapply all_gives_locked_bind; [apply build_state_gives|].
  intros [r|] Hr; [|apply all_gives_ret]. apply all_gives_bind; [by apply win_try_send_ok, Hr|].
  intros; apply all_gives_ret.
Qed.

Lemma write_virtual_ok t payload : ok (write_virtual t payload).
Proof.
  apply locked_ok, win_io_safe. intros w [Hs Hi Hf]. unfold on_device, write_handle_frame, mbind, prog_bind, lift.
  destruct (frame_bytes t payload) as [bytes|e]; [|done]. unfold write_handle_exact.
  pose proof (write_exact_spec false (S (length bytes)) bytes "virtual" (device w)) as Hw.
  destruct (write_exact_loop _ _ _ _ _) as [h r]. destruct (Hw h r eq_refl) as [Hh _].
  constructor; cbn; [done|by rewrite Hh|done].
Qed.

Lemma cache_report_ok report : bytes_ok report -> ok (cache_feature_report report).
Proof.
  intros Hb. destruct report as [|id rest]; cbn [cache_feature_report]; [apply all_gives_ret|].
  destruct (is_cacheable_feature id) eqn:Hc; cbn [negb]; [|apply all_gives_ret].
  apply update_ok; [intros s Hs; by apply cache_one_ok|]. by intros s.
Qed.
Lemma cached_report_ok id : ok (cached_feature_report id).
Proof.
  unfold cached_feature_report. case_match; [apply all_gives_ret|]. apply locked_ok. intros tone. solve_preserves.
Qed.
Hint Resolve send_state_ok write_virtual_ok cached_report_ok all_gives_ret : threads.

(** ** Frames of the virtual port *)

Lemma fresh_ok : exists x, fresh_extractor = Ok x /\ window_extractor_ok x.
Proof.
  unfold fresh_extractor. destruct create_encoder as [e|]; [|discriminate]. cbn.
  eexists. split; [reflexivity|]. split_and!; cbn; [done| |done]. unfold kPcmWindowFrames. lia.
Qed.

Lemma tone_restart base s : tone_ok (restart_stream base s).
Proof. by intros _ _. Qed.

Lemma open_audio_out_safe a : safe (open_audio_out a).
Proof.
  intros tone. unfold open_audio_out. cbv zeta. apply preserves_bind; [typeclasses eauto| |].
  - apply win_update_safe; [|by intros s _ _ _]. intros s Hs. case_match; auto 30 with bridge.
  - intros _. case_match; solve_preserves.
Qed.

Lemma open_audio_in_gives a : sgives report_ok (open_audio_in a).
Proof.
  intros tone. unfold open_audio_in.
  do 4 (eapply gives_bind; [apply preserves_gives; solve_preserves|intros; cbv beta]).
  apply mic_report_gives.
Qed.

Lemma interface_ok payload : ok (handle_interface_frame payload).
Proof.
  unfold handle_interface_frame. cbv zeta. repeat case_match; try apply all_gives_ret.
  - apply all_gives_bind; [apply locked_ok, open_audio_out_safe|intros; apply send_state_ok].
  - eapply all_gives_locked_bind; [apply open_audio_in_gives|]. intros r Hr.
    eapply all_gives_locked_bind.
    { intros tone. eapply gives_bind; [apply the_state_gives|]. intros s _. apply mic_state_report_gives. }
    intros r' Hr'. apply all_gives_bind; [by apply win_try_send_ok|]. intros _.
    apply all_gives_bind; [by apply win_try_send_ok|]. intros; apply all_gives_ret.
Qed.

Lemma hid_out_ok payload : bytes_ok payload -> ok (handle_hid_out_frame payload).
Proof.
  intros Hp. unfold handle_hid_out_frame. apply all_gives_bind.
  - apply locked_ok. intros tone. apply preserves_bind; [typeclasses eauto|by apply win_usb_report_safe|].
    intros a. apply preserves_bind; [typeclasses eauto| |intros; solve_preserves].
    apply win_update_safe; intros s Hs; case_match; auto with bridge.
  - intros [|]; auto with threads.
Qed.

Lemma read_feature_gives id :
  gives world_ok (fun r => forall report, r = Some report -> bytes_ok report) (read_feature_report id).
Proof.
  intros w [Hs Hi Hf]. unfold read_feature_report. destruct (feature_answers w) as [|a rest] eqn:E.
  - split; [constructor; try done; cbn; by rewrite E|]. by intros a [= <-].
  - apply Forall_cons_1 in Hf as [Ha Hr]. split; [by constructor|]. cbn. intros r Hr0 report ->. subst a. exact Ha.
Qed.

Lemma win_feature_get_ok payload : ok (handle_feature_get_frame payload).
Proof.
  destruct payload as [|id rest]; [apply all_gives_ret|]. apply all_gives_bind; [auto with threads|].
  intros [cached|]; [auto with threads|]. apply all_gives_guarded; [|intros; apply all_gives_ret].
  eapply all_gives_locked_bind; [apply win_io_gives, read_feature_gives|].
  intros [report|] Hr; [|apply all_gives_ret]. apply all_gives_bind; [by apply cache_report_ok, Hr|].
  intros; auto with threads.
Qed.

Lemma control_waveout_safe enable : safe (control_waveout enable).
Proof.
  destruct fresh_ok as (x & Hx & Hok). intros tone [s w] (Hs & Hw & Ht).
  unfold control_waveout, mbind, prog_bind, the_state, update, modify, lift. cbn [fst snd]. rewrite Hx.
  cbn [fst snd]. unfold inv. cbn [fst snd]. split_and!; [|done|].
  - assert (bridge_ok (put_waveout_extractor x (put_speaker_waveout_phase 0
      (set_flag speaker_waveout_active (enable && flags s speaker_waveout_selected) s)))) as Hs1.
    { destruct Hs. by constructor. }
    case_match; auto 20 with bridge.
  - intros _. case_match; by intros _ _.
Qed.

Lemma test_command_ok device action data :
  is_u8 device -> is_u8 action -> ok (handle_test_command device action data).
Proof.
  intros Hd Ha. unfold handle_test_command. apply all_gives_bind.
  { apply cache_report_ok. unfold test_result. apply Forall_app_2; [all_bytes|by apply Forall_replicate]. }
  intros _. apply all_gives_bind.
  - apply locked_ok. intros tone. repeat case_match; try solve [solve_preserves].
    apply preserves_bind; [typeclasses eauto|apply control_waveout_safe|intros; solve_preserves].
  - intros [|]; auto with threads.
Qed.

Lemma write_feature_keeps report : preserves (keeps world_ok) (write_feature_report report).
Proof. intros w []. unfold write_feature_report. destruct (set_answers w) as [|[e|] rest]; by constructor. Qed.

Lemma win_feature_set_ok payload : bytes_ok payload -> ok (handle_feature_set_frame payload).
Proof.
  intros Hp. unfold handle_feature_set_frame. case_match; [apply all_gives_ret|].
  destruct (test_command payload) as [[[device action] data]|] eqn:Ht.
  - unfold test_command in Ht. repeat case_match; try discriminate; injection Ht as <- <- <-;
      apply test_command_ok; apply byte_at_ok; done.
  - apply all_gives_guarded; [|intros; apply all_gives_ret]. apply locked_ok, win_io_safe, write_feature_keeps.
Qed.

(** *** Audio *)

Lemma win_queue_chunk_ok c s : (0 < kMaxPendingAudioChunks tuning)%nat -> chunk_ok c -> bridge_ok s -> bridge_ok (queue_chunk tuning c s).
Proof.
  intros Hmax Hc []. unfold queue_chunk. case_match eqn:Hfull; constructor; try done; cbn.
  all: try apply Nat.leb_le in Hfull; try apply Nat.leb_gt in Hfull.
  - rewrite length_app. destruct (pending_audio_chunks s); cbn in *; lia.
  - apply Forall_app_2; [by apply Forall_tail|by apply Forall_singleton].
  - rewrite length_app. cbn. lia.
  - apply Forall_app_2; [done|by apply Forall_singleton].
Qed.
Lemma queue_chunks_ok cs s :
  Forall chunk_ok cs -> bridge_ok s -> bridge_ok (foldl (fun s c => queue_chunk tuning c s) s cs).
Proof.
  intros Hcs. revert s. induction Hcs as [|c cs Hc _ IH]; intros s Hs; [done|]. cbn. apply IH.
  apply win_queue_chunk_ok; [|done..]. unfold kMaxPendingAudioChunks. lia.
Qed.
Lemma queue_chunks_tone cs s : tone_ok s -> tone_ok (foldl (fun s c => queue_chunk tuning c s) s cs).
Proof.
  revert s. induction cs as [|c cs IH]; intros s Hs; [done|]. cbn. apply IH. by intros _ _.
Qed.
Lemma note_frame_ok start nonzero got s : bridge_ok s -> bridge_ok (note_usb_frame start nonzero got s).
Proof. intros Hs. unfold note_usb_frame. repeat case_match; auto 20 with bridge. Qed.
Lemma note_frame_tone start nonzero got s : tone_ok s -> tone_ok (note_usb_frame start nonzero got s).
Proof. intros Hs. unfold note_usb_frame. by repeat case_match. Qed.

Lemma push_audio_safe payload start : safe (push_audio tuning payload start).
Proof.
  intros tone. unfold push_audio. cbv zeta. apply preserves_bind; [typeclasses eauto|solve_preserves|].
  intros s0. apply preserves_bind; [typeclasses eauto|case_match; solve_preserves|]. intros _.
  apply (gives_keeps (fun _ => True)). clear tone. intros tone. eapply gives_bind.
  { apply (on_extractor_gives (Forall chunk_ok)). intros x a. by apply push_usb_audio_chunks. }
  intros cs Hcs. apply preserves_gives. apply preserves_bind; [typeclasses eauto| |intros; solve_preserves].
  apply win_update_safe; intros s Hs.
  - apply queue_chunks_ok; [done|]. apply note_frame_ok. repeat case_match; auto 20 with bridge.
  - apply queue_chunks_tone, note_frame_tone. by repeat case_match.
Qed.
Lemma audio_out_ok payload : ok (handle_audio_out_frame tuning payload).
Proof.
  unfold handle_audio_out_frame. apply all_gives_bind; [apply locked_ok, win_io_safe, clock_now_safe|]. intros start.
  apply all_gives_bind; [apply locked_ok, push_audio_safe|]. intros [|]; auto with threads.
Qed.

(** A frame read from the virtual port. *)
Definition frame_ok (frame : vds_frame_header * list Z) : Prop := bytes_ok frame.2.

Lemma virtual_frame_ok frame : frame_ok frame -> ok (handle_virtual_frame tuning frame).
Proof.
  destruct frame as [header payload]. unfold frame_ok, handle_virtual_frame. cbn [snd]. intros Hp.
  repeat case_match; [apply interface_ok|by apply hid_out_ok|apply win_feature_get_ok|by apply win_feature_set_ok
                     |apply audio_out_ok|apply all_gives_ret].
Qed.

(** ** Frames of the controller *)

Lemma decode_mic_safe packet : safe (decode_mic_packet packet).
Proof.
  intros tone. unfold decode_mic_packet. case_match; [|solve_preserves].
  apply preserves_catch; [typeclasses eauto|solve_preserves|intros; solve_preserves].
Qed.
Lemma mic_packet_ok packet : ok (handle_mic_packet packet).
Proof.
  unfold handle_mic_packet. apply all_gives_bind; [apply locked_ok, decode_mic_safe|].
  intros [pcm|]; [|apply all_gives_ret]. apply all_gives_bind; [apply write_virtual_ok|].
  intros _. apply update_ok; [auto with bridge|by intros].
Qed.

Lemma input_percent_range status0 : 0 <= status0 -> 0 <= input_percent status0 <= 100.
Proof.
  intros Hs. unfold input_percent. cbv zeta. assert (0 <= Z.land status0 0x0f) by (apply Z.land_nonneg; lia).
  repeat case_match; lia.
Qed.
Lemma measure_status now w : status_ok w -> status_ok (measure_rate now w).
Proof. intros []. unfold measure_rate. by repeat case_match. Qed.

Lemma publish_ok report : bytes_ok report -> ok (publish_input_status report).
Proof.
  intros Hb. unfold publish_input_status. cbv zeta.
  pose proof (byte_at_ok report 53 Hb) as Hu. unfold is_u8 in Hu.
  repeat (apply all_gives_bind; [apply store_step_ok|intros _]); try by intros w [].
  - intros w []. split; [|done]. cbn. pose proof (input_percent_range (byte_at report 53)). lia.
  - apply locked_ok. intros tone. apply preserves_bind; [typeclasses eauto|solve_preserves|]. intros s.
    case_match; [|solve_preserves]. apply preserves_bind; [typeclasses eauto|apply win_io_safe, clock_now_safe|].
    intros now. apply win_update_safe; [|by intros]. intros s1 Hs1. apply store_ok; [|done]. apply measure_status.
Qed.

Lemma on_bridge_safe {A} (f : bridge_state -> bridge_state * A) :
  (forall s, bridge_ok s -> bridge_ok (f s).1) -> (forall s, tone_ok s -> tone_ok (f s).1) -> safe (on_bridge f).
Proof.
  intros Hf Ht tone [s w] (Hs & Hw & Htone). unfold on_bridge. cbn [fst snd]. specialize (Hf s Hs). specialize (Ht s).
  destruct (f s) as [s1 a]. cbn [fst snd] in *. split_and!; [done..|]. intros E. by apply Ht, Htone.
Qed.
Lemma take_request_ok s : bridge_ok s -> bridge_ok (take_mute_request s).1.
Proof.
  intros Hs. unfold take_mute_request. case_match eqn:Hw; [|done]. destruct Hs. constructor; try done. cbn.
  intros w' [= <-]. specialize (ok_status0 _ Hw). destruct ok_status0. split; cbn; [done|lia].
Qed.
Lemma apply_mute_ok report s : bridge_ok s -> bridge_ok (apply_mute report s).1.
Proof.
  intros Hs. unfold apply_mute. cbv zeta. set (pressed := _ && _). set (s1 := if pressed then _ else _).
  assert (bridge_ok s1) as Hs1 by (subst s1; case_match; auto with bridge).
  pose proof (take_request_ok s1 Hs1) as Hs2. destruct (take_mute_request s1) as [s2 request].
  repeat case_match; simplify_eq; cbn in *; auto with bridge.
Qed.
Lemma apply_mute_tone report s : tone_ok s -> tone_ok (apply_mute report s).1.
Proof.
  intros Hs. unfold apply_mute, take_mute_request. cbv zeta. repeat case_match; by simplify_eq.
Qed.

Definition actions_ok (a : InputActions) : Prop :=
  some_report_ok (act_mic_state a) /\ some_report_ok (act_mic_close a) /\ some_report_ok (act_mic_open a).

Lemma when_gives (c : bool) (m : prog state (list Z)) :
  sgives report_ok m -> sgives some_report_ok (if c then r ← m; mret (Some r) else mret None).
Proof.
  intros Hm tone. destruct c; [|intros s Hs; split; [done|by intros a [= <-]]].
  eapply gives_bind; [apply Hm|]. intros r Hr s Hs. split; [done|]. by intros a [= <-] r' [= <-].
Qed.

Lemma apply_input_gives report : sgives actions_ok (apply_input_report report).
Proof.
  intros tone. unfold apply_input_report.
  eapply gives_bind; [apply preserves_gives; solve_preserves|intros _ _].
  eapply gives_bind; [apply preserves_gives; solve_preserves|intros s0 _]. cbv zeta.
  eapply gives_bind; [apply preserves_gives, on_bridge_safe; intros s Hs; unfold apply_headset; cbv zeta;
                      repeat case_match; cbn; auto with bridge; by intros|intros h _].
  eapply gives_bind; [apply preserves_gives, on_bridge_safe; intros s Hs; unfold apply_headset_mic; cbv zeta;
                      repeat case_match; cbn; auto with bridge; by intros|intros hm _].
  eapply gives_bind; [apply preserves_gives, on_bridge_safe; [apply apply_mute_ok|apply apply_mute_tone]|intros mm _].
  eapply gives_bind.
  { apply preserves_gives, win_update_safe; [|by intros]. intros s Hs. apply store_ok; [|done]. by intros w []. }
  intros _ _. eapply gives_bind; [apply preserves_gives; solve_preserves|intros s1 _].
  eapply gives_bind; [apply when_gives, mic_state_report_gives|intros r1 H1].
  eapply gives_bind; [apply when_gives, mic_report_gives|intros r2 H2].
  eapply gives_bind; [apply when_gives, mic_report_gives|intros r3 H3].
  intros s Hs. split; [done|]. by intros a [= <-].
Qed.

Lemma input_report_ok report : bytes_ok report -> ok (handle_input_report report).
Proof.
  intros Hb. unfold handle_input_report. apply all_gives_bind; [apply write_virtual_ok|intros _].
  apply all_gives_bind; [by apply publish_ok|intros _].
  eapply all_gives_locked_bind; [apply apply_input_gives|]. intros a (H1 & H2 & H3).
  repeat (apply all_gives_bind; [by apply send_when_ok|intros _]).
  apply all_gives_bind; [case_match; auto with threads|intros _].
  case_match; [|apply all_gives_ret]. apply update_ok; [auto with bridge|by intros].
Qed.

Lemma bluetooth_frame_ok frame : frame_ok frame -> ok (handle_bluetooth_frame frame).
Proof.
  destruct frame as [header payload]. unfold frame_ok, handle_bluetooth_frame. cbn [snd]. intros Hp.
  case_match; [|repeat case_match; auto with threads]. case_decide; [apply mic_packet_ok|].
  destruct (bt_input_to_usb_input payload) as [report|] eqn:Hr; [|apply all_gives_ret]. apply input_report_ok.
  apply usb_input_spec in Hr as (_ & _ & ->). apply Forall_cons_2; [done|].
  by apply bytes_ok_take, Forall_drop.
Qed.
End Inv.
