(* ===== verification/WinRounds.v ===== *)
(** The three threads of a worker of the Windows daemon, and the user interface: in every
    interleaving of their critical sections the invariant of WinInv.v holds, and what the
    controller is sent are well-formed packets. *)
From stdpp Require Import base list strings numbers.
From Stdlib Require Import Ascii ZArith Lia.
From S2P Require Import Prelude Text Words Checksum BtPacket OutputState OutputInv OutputReports Audio.
From S2P Require Import AudioFacts Threads WinIo WinState WinBridge WinAudio WinInv.

Local Open Scope Z_scope.

Section Rounds.
Context {Encoder Dec : Type} `{Codecs Encoder Dec} `{WinSystem}.
Context (tuning : Tuning).
Context (Htuning : tuning_ok tuning) (Hopus : opus_encode_ok opus_encode).
Context (encoder_created : is_ok (create_encoder (Codecs := _)) = true).

Abbreviation bridge_state := (BridgeState Encoder Dec).
Abbreviation state := (bridge_state * World)%type.
Abbreviation bridge := (thread state).
Abbreviation inv := (inv (Encoder := Encoder) (Dec := Dec) tuning).
Abbreviation bridge_ok := (bridge_ok (Encoder := Encoder) (Dec := Dec) tuning).

(** ** The audio thread *)

Lemma waveout_pcm_spec n phase :
  0 <= phase < kSpeakerWaveoutPeriodFrames ->
  length (waveout_pcm n phase).1 = (n * kPcmFrameSize)%nat /\
  0 <= (waveout_pcm n phase).2 < kSpeakerWaveoutPeriodFrames.
Proof.
  revert phase. induction n as [|n IH]; intros phase Hp; [done|]. cbn [waveout_pcm].
  destruct (IH ((phase + 1) mod kSpeakerWaveoutPeriodFrames)) as [Hl Hr]; [apply Z.mod_pos_bound; done|].
  destruct (waveout_pcm n _) as [rest phase']. cbn [fst snd] in *. split; [|done].
  rewrite !length_app, Hl. cbn. unfold kPcmFrameSize. lia.
Qed.

Lemma append_room_ok cs (s : bridge_state) :
  Forall chunk_ok cs -> bridge_ok s -> bridge_ok (append_while_room tuning cs s).
Proof.
  intros Hcs. revert s. induction Hcs as [|c cs Hc _ IH]; intros s Hs; [done|]. cbn [append_while_room].
  case_match eqn:Hroom; [done|]. apply Nat.leb_gt in Hroom. apply IH. destruct Hs. constructor; try done; cbn.
  - rewrite length_app. cbn. lia.
  - apply Forall_app_2; [done|by apply Forall_singleton].
Qed.
Lemma append_room_queue cs (s : bridge_state) :
  cs <> [] -> pending_audio_chunks s = [] -> pending_audio_chunks (append_while_room tuning cs s) <> [].
Proof.
  intros Hcs Hs. destruct cs as [|c cs]; [done|]. cbn [append_while_room]. rewrite Hs. cbn.
  assert (forall cs (s : bridge_state), pending_audio_chunks s <> [] -> pending_audio_chunks (append_while_room tuning cs s) <> []) as Hk.
  { clear. intros cs. induction cs as [|c cs IH]; intros s Hs; [done|]. cbn [append_while_room].
    case_match; [done|]. apply IH. cbn. by destruct (pending_audio_chunks s). }
  case_match eqn:Hmax; [unfold kMaxPendingAudioChunks in Hmax; apply Nat.leb_le in Hmax; lia|]. by apply Hk.
Qed.

(** The tone is queued, so that while it plays the queue is not empty. *)
Lemma enqueue_tone s :
  inv false s ->
  inv (is_ok (enqueue_speaker_waveout_chunk tuning s).2) (enqueue_speaker_waveout_chunk tuning s).1.
Proof.
  destruct s as [s w]. intros (Hs & Hw & _). cbn [fst snd] in *.
  unfold enqueue_speaker_waveout_chunk, mbind, prog_bind, the_state. cbn [fst snd].
  destruct (flags s speaker_waveout_active) eqn:Ha; cbn [negb orb].
  2:{ split_and!; [done..|]. intros _ E. cbn in *. congruence. }
  destruct (pending_audio_chunks s) as [|c q] eqn:Hq; cbn [length Nat.eqb negb].
  2:{ split_and!; [done..|]. intros _ _ E. cbn in *. congruence. }
  pose proof (waveout_pcm_spec kWindowsPcmWindowFrames _ (ok_phase _ _ Hs)) as [Hl Hp].
  destruct (waveout_pcm _ _) as [pcm phase]. cbn [fst snd] in *. unfold update, modify, on_waveout_extractor. cbn [fst snd].
  pose proof (push_usb_audio_chunks opus_encode opus_strerror Hopus pcm (waveout_extractor s)) as Hc.
  pose proof (push_window opus_encode opus_strerror Hopus pcm (waveout_extractor s) (ok_tone _ _ Hs) Hl) as Hx.
  change (waveout_extractor (put_speaker_waveout_phase phase s)) with (waveout_extractor s).
  destruct (push_usb_audio _ _ pcm _) as [x r]. destruct Hx as [Hx Hne]. cbn [fst snd] in *.
  set (s1 := put_waveout_extractor x _). assert (bridge_ok s1) as Hs1 by (destruct Hs; by constructor).
  destruct r as [cs|e]; cbn [fst snd]; [|by split_and!].
  split_and!; cbn [fst snd]; [by apply append_room_ok, Hs1; apply Hc|done|].
  intros _ _ E. exfalso. revert E. apply append_room_queue; [congruence|done].
Qed.

(** *** The decision *)

Definition decision_ok (d : flush_decision) : Prop :=
  match d with
  | Wait sleep => 0 < sleep
  | Deactivated report => some_report_ok report
  | Send packet chunk _ _ _ => report_ok packet /\ forall c, chunk = Some c -> chunk_ok c
  end.
Abbreviation decides m := (gives (inv false) decision_ok m).

Create HintDb rounds.
Hint Resolve set_flag_ok set_time_ok set_count_ok win_bump_ok clear_times_ok clear_counts_ok clear_flags_ok
  win_route_ok win_no_chunks_ok no_last_ok last_sent_ok : rounds.

Lemma win_update_keeps (f : bridge_state -> bridge_state) :
  (forall s, bridge_ok s -> bridge_ok (f s)) -> preserves (keeps (inv false)) (update f).
Proof. intros Hf [s w] (Hs & Hw & _). by split_and!; [apply Hf| |]. Qed.
Lemma update_then {B} (f : bridge_state -> bridge_state) (m : prog state B) (Q : B -> Prop) :
  (forall s, bridge_ok s -> bridge_ok (f s)) -> gives (inv false) Q m ->
  gives (inv false) Q (_ ← update f; m).
Proof. intros Hf Hm. eapply gives_bind; [by apply preserves_gives, win_update_keeps|]. done. Qed.
Lemma state_then {B} (k : bridge_state -> prog state B) (Q : B -> Prop) :
  (forall s, bridge_ok s -> gives (inv false) Q (k s)) -> gives (inv false) Q (s ← the_state; k s).
Proof. intros Hk. eapply gives_bind; [apply the_state_gives|]. done. Qed.
Lemma ret_gives {A} (Q : A -> Prop) (a : A) : Q a -> gives (inv false) Q (mret a).
Proof. intros Ha s Hs. split; [done|]. by intros a' [= <-]. Qed.

(** What an assignment and a look at the state come to. *)
Lemma bind_update {B} f (k : unit -> prog state B) s w : (update f ≫= k) (s, w) = k tt (f s, w).
Proof. done. Qed.
Lemma bind_bridge {A B} (f : bridge_state -> bridge_state * A) (k : A -> prog state B) s w :
  (on_bridge f ≫= k) (s, w) = k (f s).2 ((f s).1, w).
Proof. unfold mbind, prog_bind, on_bridge. cbn [fst snd]. by destruct (f s). Qed.
Lemma bind_ok {A B} (m : prog state A) (k : A -> prog state B) s s1 a :
  m s = (s1, Ok a) -> (m ≫= k) s = k a s1.
Proof. unfold mbind, prog_bind. by intros ->. Qed.
Lemma bind_state {B} (k : bridge_state -> prog state B) s w : (the_state ≫= k) (s, w) = k s (s, w).
Proof. done. Qed.

Lemma close_stream_decides s :
  inv false s -> flags s.1 speaker_waveout_active = false ->
  inv false (close_stream s).1 /\ forall d, (close_stream s).2 = Ok d -> decision_ok d.
Proof.
  destruct s as [s w]. cbn [fst]. intros Hs Hq. unfold close_stream.
  match goal with |- context [(update ?f1 ≫= fun _ => the_state ≫= fun _ => if _ then _ else update ?g1 ≫= _)] =>
    set (f := f1); set (g := g1) end.
  assert (inv false (f s, w)) as Hs1.
  { destruct Hs as (Hs & Hw & _). split_and!; [|done..]. subst f. cbn [fst] in *. case_match; auto 20 with rounds. }
  assert (flags (f s) speaker_waveout_active = false) as Hq1 by (subst f; cbv beta zeta; by case_match).
  assert (forall s, bridge_ok s -> bridge_ok (g s)) as Hg by (intros; subst g; cbv beta; auto 20 with rounds).
  clearbody f g. rewrite bind_update, bind_state, Hq1.
  assert (decides (_ ← update g; report ← build_bt_state_if_changed;
                   _ ← update (set_time next_haptics_send_time 0); mret (Deactivated report))) as Hrest.
  { apply update_then; [done|]. eapply gives_bind; [apply build_state_gives|]. intros r Hr.
    apply update_then; [auto with rounds|]. by apply ret_gives. }
  apply (Hrest (f s, w) Hs1).
Qed.

Lemma concealment_ok c : chunk_ok c -> chunk_ok (concealment_chunk c).
Proof. intros (Hh & ? & ?). split_and!; try done. cbn. by rewrite length_replicate. Qed.

Lemma conceal_decides now last scheduled : chunk_ok last ->
  decides (packet ← build_audio_packet (haptics (concealment_chunk last)) (speaker (concealment_chunk last));
           mret (Send packet None true scheduled now)).
Proof.
  intros (Hh & Hsp & Hb)%concealment_ok. eapply gives_bind; [by apply audio_packet_gives|]. intros p Hp.
  by apply ret_gives.
Qed.

Lemma bounded_positive r : 0 < bounded_sleep r.
Proof. unfold bounded_sleep, kAudioFlushMinimumSleep, microseconds. lia. Qed.

(** While the tone plays the queue has just been emptied: the stream is not closed, and no
    packet is sent that was not built. *)
Lemma flush_empty_decides now s :
  inv true s -> pending_audio_chunks s.1 = [] ->
  inv false (flush_empty now s).1 /\ forall d, (flush_empty now s).2 = Ok d -> decision_ok d.
Proof.
  destruct s as [s w]. cbn [fst]. intros Hinv Hq. pose proof (inv_base _ _ _ Hinv) as Hs. destruct Hinv as (_ & _ & Ht).
  specialize (Ht eq_refl). unfold tone_ok in Ht. cbn [fst] in Ht. unfold flush_empty.
  match goal with |- context [update ?f1] => set (f := f1) end.
  assert (inv false (f s, w)) as Hs1.
  { destruct Hs as (Hs & Hw & _). split_and!; [|done..]. subst f. cbn [fst] in *. case_match; auto 20 with rounds. }
  assert (flags (f s) speaker_waveout_active = true -> times (f s) audio_queue_empty_since = now) as Htone.
  { subst f. cbv beta zeta. cbn. case_match eqn:E; cbn; [done|]. intros Ha. apply Z.eqb_neq in E. by rewrite Ht in E. }
  clearbody f. rewrite bind_state. case_match; [by split; [|intros d [= <-]]|].
  rewrite bind_update, bind_state. cbv zeta.
  case_match; [split; [done|intros d [= <-]; apply bounded_positive]|].
  assert (forall d, (now - times (f s) audio_queue_empty_since <? kAudioUnderflowKeepaliveDelay) = d -> d = false ->
          flags (f s) speaker_waveout_active = false) as Hc.
  { intros d Hd ->. apply not_true_iff_false. intros Ha. rewrite (Htone Ha), Z.sub_diag in Hd. discriminate. }
  destruct (last_audio_chunk (f s)) as [last|] eqn:Hlast; case_match eqn:Hd.
  - pose proof (ok_last _ _ (proj1 Hs1) _ Hlast) as Hl. apply (conceal_decides now last _ Hl (f s, w) Hs1).
  - apply close_stream_decides; [done|by eapply Hc].
  - split; [done|intros d [= <-]; apply bounded_positive].
  - apply close_stream_decides; [done|by eapply Hc].
Qed.

Lemma win_drop_stale_ok s : bridge_ok s -> bridge_ok (drop_stale tuning s).
Proof.
  intros []. unfold drop_stale. constructor; try done; cbn; [rewrite length_drop; lia|by apply Forall_drop].
Qed.
Lemma limit_length h : length (limit_haptics <$> h) = length h.
Proof. apply length_fmap. Qed.

Lemma jitter_wait_spec now s w :
  bridge_ok s ->
  exists s1 waits, jitter_wait tuning now (s, w) = ((s1, w), Ok waits) /\ bridge_ok s1 /\
                   pending_audio_chunks s1 = pending_audio_chunks s.
Proof.
  intros Hs. unfold jitter_wait. rewrite bind_state. case_match; [by exists s, false|].
  rewrite bind_update, bind_state. cbv zeta. set (s1 := if times s _ =? 0 then _ else _).
  assert (bridge_ok s1 /\ pending_audio_chunks s1 = pending_audio_chunks s) as [Hs1 Hp].
  { subst s1. case_match; split; auto with rounds. }
  clearbody s1. case_match; [by exists s1, true|]. rewrite bind_update.
  eexists _, false. split; [reflexivity|]. split; [auto with rounds|done].
Qed.

(** A queue that is not empty has a chunk to be sent after the stale ones are dropped. *)
Lemma flush_queue_decides now s :
  inv false s -> pending_audio_chunks s.1 <> [] ->
  inv false (flush_queue tuning now s).1 /\ forall d, (flush_queue tuning now s).2 = Ok d -> decision_ok d.
Proof.
  destruct s as [s w]. intros (Hs & Hw & _) Hq. cbn [fst snd] in *. unfold flush_queue.
  destruct (jitter_wait_spec now s w Hs) as (s1 & waits & Hj & Hs1 & Hp). rewrite (bind_ok _ _ _ _ _ Hj).
  rewrite <- Hp in Hq. clear Hs Hj Hp.
  assert (forall d, 0 < d -> inv false ((s1, w) : state) /\ forall a, Ok (Wait d) = Ok a -> decision_ok a) as Hwait.
  { intros d Hd. split; [by split_and!|]. by intros a [= <-]. }
  destruct waits; [by apply Hwait|]. rewrite bind_state. case_match; [by apply Hwait, bounded_positive|].
  rewrite bind_update, bind_state. pose proof (win_drop_stale_ok _ Hs1) as Hs2. pose proof (ok_chunks _ _ Hs2) as Hc.
  destruct (pending_audio_chunks (drop_stale tuning s1)) as [|c q] eqn:E.
  - exfalso. apply (f_equal length) in E. cbn in E. rewrite length_drop in E.
    destruct Htuning as [_ [Hfresh _]]. destruct (pending_audio_chunks s1); cbn in *; [done|lia].
  - apply Forall_cons_1 in Hc as [Hc _]. destruct Hc as (Hh & Hl & Hb).
    assert (decides (packet ← build_audio_packet (limit_haptics <$> haptics c) (speaker c);
                     mret (Send packet (Some c) false (due (drop_stale tuning s1) now) now))) as Hsend.
    { eapply gives_bind; [apply audio_packet_gives; [by rewrite limit_length|done..]|]. intros p Hp.
      apply ret_gives. split; [done|]. by intros c' [= <-]. }
    apply Hsend. by split_and!.
Qed.

Lemma clock_then {B} (k : Z -> prog state B) (Q : state -> result B -> Prop) tone :
  (forall now s, inv tone s -> Q (k now s).1 (k now s).2) ->
  forall s, inv tone s -> Q ((now ← io clock_now; k now) s).1 ((now ← io clock_now; k now) s).2.
Proof.
  intros Hk s Hs. pose proof (win_io_safe tuning _ clock_now_safe tone s Hs) as Hs1.
  unfold mbind, prog_bind. destruct s as [s w]. cbn in *. by apply Hk.
Qed.

Lemma decide_flush_decides s :
  inv true s ->
  inv false (decide_flush tuning s).1 /\ forall d, (decide_flush tuning s).2 = Ok d -> decision_ok d.
Proof.
  intros Hs. unfold decide_flush.
  apply (clock_then _ (fun s1 r => inv false s1 /\ forall d, r = Ok d -> decision_ok d) true); [|done].
  clear s Hs. intros now [s w] Hs. rewrite bind_state. case_match eqn:Hq.
  - apply flush_empty_decides; [done|]. by apply Nat.eqb_eq, length_zero_iff_nil in Hq.
  - apply flush_queue_decides; [by eapply inv_base|]. apply Nat.eqb_neq in Hq. cbn. by destruct (pending_audio_chunks s).
Qed.

Lemma win_pop_ok c s : bridge_ok s -> bridge_ok (pop_sent c s).
Proof.
  intros Hs. unfold pop_sent. case_match; [done|]. destruct Hs. constructor; try done; cbn.
  - destruct (pending_audio_chunks s); cbn in *; lia.
  - by apply Forall_tail.
Qed.
Lemma schedule_ok a b i s : bridge_ok s -> bridge_ok (schedule_next a b i s).
Proof. intros Hs. unfold schedule_next. auto with rounds. Qed.
Lemma put_last_ok c s : chunk_ok c -> bridge_ok s -> bridge_ok (put_last_audio_chunk (Some c) s).
Proof. intros Hc []. constructor; try done. cbn. by intros c' [= <-]. Qed.
Hint Resolve win_pop_ok schedule_ok put_last_ok : rounds.

Lemma note_blocked_ok c a b s : bridge_ok s -> bridge_ok (note_blocked tuning c a b s).
Proof. intros Hs. unfold note_blocked. repeat case_match; auto 20 with rounds. Qed.
Lemma note_sent_ok chunk c a b s :
  (forall x, chunk = Some x -> chunk_ok x) -> bridge_ok s -> bridge_ok (note_sent tuning chunk c a b s).
Proof.
  intros Hc Hs. unfold note_sent. cbv zeta.
  set (s1 := if (_ =? 0)%nat then _ else _). assert (bridge_ok s1) as Hs1.
  { subst s1. case_match; auto with rounds. }
  clearbody s1. destruct c; [repeat case_match; simplify_eq; auto 20 with rounds|].
  destruct chunk as [x|]; [specialize (Hc x eq_refl)|]; repeat case_match; simplify_eq; auto 20 with rounds.
Qed.

Lemma flush_proves : proves inv true (flush_pending_audio_chunk tuning).
Proof.
  unfold flush_pending_audio_chunk.
  apply (proves_locked_bind inv true (fun _ => false) decision_ok); [apply decide_flush_decides|].
  intros [sleep|report|packet chunk c a b] Hd; [constructor| |].
  - apply all_gives_proves. apply all_gives_bind; [by apply send_when_ok|]. intros; apply all_gives_ret.
  - destruct Hd as [Hp Hc]. eapply (proves_bind inv false false); [by apply win_try_send_ok| |done]. intros sent.
    apply (proves_locked_bind inv false (fun _ => false) (fun _ => True)); [|constructor].
    apply preserves_gives, win_update_keeps. intros s Hs. destruct sent; [by apply note_sent_ok|by apply note_blocked_ok].
Qed.

Lemma summary_safe tone : preserves (keeps (inv tone)) maybe_log_audio_summary.
Proof.
  unfold maybe_log_audio_summary. apply preserves_bind; [typeclasses eauto|apply the_state_safe|]. intros s.
  case_match; [by intros s0|]. apply preserves_bind; [typeclasses eauto|apply win_io_safe, clock_now_safe|].
  intros now. case_match; [by intros s0|]. cbv zeta. apply preserves_bind; [typeclasses eauto| |by intros ? s0].
  apply win_update_safe; [|by intros]. intros s1 Hs1. unfold summary_counters. cbn [foldr]. auto 30 with rounds.
Qed.
Lemma note_flush_safe tone now : preserves (keeps (inv tone)) (update (note_flush now)).
Proof.
  apply win_update_safe; intros s Hs; unfold note_flush; repeat case_match; auto 20 with rounds.
Qed.

Lemma audio_round_proves : proves inv false (_ ← audio_flush_round tuning; mret tt).
Proof.
  unfold audio_flush_round. apply proves_then; [|intros; apply all_gives_ret].
  eapply proves_bind; [apply all_gives_locked; intros tone|intros _|reflexivity].
  { apply preserves_bind; [typeclasses eauto|apply win_io_safe, clock_now_safe|intros; apply note_flush_safe]. }
  apply (proves_locked_bind inv false is_ok (fun _ => True)); [intros s Hs; split; [by apply enqueue_tone|done]|].
  intros a _. apply proves_then; [apply flush_proves|]. intros sleep.
  apply all_gives_bind; [apply all_gives_locked, summary_safe|intros; apply all_gives_ret].
Qed.

(** ** The other threads *)

Lemma read_frame_gives tone : gives (inv tone) frame_ok (io (on_device (read_handle_frame false "virtual"))).
Proof.
  apply win_io_gives. intros w Hw. unfold on_device, read_handle_frame, mbind, prog_bind, read_handle_exact.
  destruct (read_exact_loop false _ _ _ (device w)) as [h r] eqn:E.
  pose proof (read_exact_kept _ _ _ _ _ _ _ E) as (k & Hk).
  assert (bytes_ok (incoming h)) as Hh by (rewrite Hk; apply Forall_drop, Hw).
  assert (forall h, bytes_ok (incoming h) -> world_ok (put_device h w)) as Hput by (intros; destruct Hw; by constructor).
  destruct r as [bytes|e]; cbn [fst snd]; [|split; [by apply Hput|done]].
  set (header := decode_header bytes). destruct (Z.of_nat VDS_FRAME_MAX_PAYLOAD <? header_length header).
  { split; [by apply Hput|done]. }
  destruct (header_length header =? 0).
  { split; [by apply Hput|]. intros a [= <-]. by apply Forall_nil. }
  destruct (read_exact_loop false _ _ _ h) as [h2 r2] eqn:E2.
  pose proof (read_exact_kept _ _ _ _ _ _ _ E2) as (k2 & Hk2).
  assert (bytes_ok (incoming h2)) as Hh2 by (rewrite Hk2; by apply Forall_drop).
  destruct r2 as [payload|e]; (split; [by apply Hput|]); [|done]. intros a [= <-]. unfold frame_ok. cbn [snd].
  apply read_exact_spec in E2 as (_ & Hi & _). rewrite Hi in Hh. by apply Forall_app in Hh as [Hp _].
Qed.
Lemma virtual_round_ok : all_gives inv (virtual_to_bluetooth_round tuning).
Proof.
  unfold virtual_to_bluetooth_round. eapply all_gives_locked_bind; [intros tone; apply read_frame_gives|].
  intros frame. by apply virtual_frame_ok.
Qed.

(** ** The worker *)

(** What the threads of a worker do, and the user interface. *)
Inductive worker_work : nat -> bridge unit -> Prop :=
  | audio_work : worker_work 0 (_ ← audio_flush_round tuning; mret tt)
  | virtual_work : worker_work 1 (virtual_to_bluetooth_round tuning)
  | bluetooth_work frame :
      (forall f, frame = Ok f -> frame_ok f) -> worker_work 2 (bluetooth_to_virtual_round frame)
  | mute_work (want : bool) : worker_work 3 (store_step (put_mic_mute_request (if want then 1 else 0))).

Lemma worker_work_ok i t : worker_work (S i) t -> all_gives inv t.
Proof.
  inversion 1; subst.
  - apply virtual_round_ok.
  - destruct frame as [frame|e]; [|constructor]. apply bluetooth_frame_ok; auto.
  - apply store_step_ok. intros w []. split; [done|]. cbn. case_match; lia.
Qed.

(** Between rounds. *)
Definition worker_start (s : state) : pool := (s, replicate 4 (Done (Ok tt))).

Lemma worker_reaches s p :
  inv false s -> pool_reaches worker_work (worker_start s) p -> inv false p.1.
Proof.
  intros Hs Hp. destruct (pool_staged worker_work inv false) with (p := worker_start s) (p' := p)
    as (tone & t & ts & _ & Hi & _); try done.
  - intros x s' Hx. by eapply inv_base.
  - intros t Ht. inversion Ht; subst. apply audio_round_proves.
  - apply worker_work_ok.
  - exists false, (Done (Ok tt)), (replicate 3 (Done (Ok tt))). split_and!; [done..|constructor|].
    repeat apply Forall_cons_2; try constructor.
  - by eapply inv_base.
Qed.

(** ** The start *)

Lemma win_empty_cache_ok : cache_ok (replicate 256 None).
Proof. split; [apply length_replicate|]. intros id report Hid. by apply lookup_replicate in Hid as [? _]. Qed.
Lemma new_state_ok status s :
  new_bridge_state status = Ok s -> (forall w, status = Some w -> status_ok w) -> bridge_ok s.
Proof.
  unfold new_bridge_state. destruct fresh_ok as (x & -> & Hx); [done|]. cbn.
  destruct create_decoder as [d|]; [|discriminate]. destruct make_silent_audio_chunk; [|discriminate].
  intros [= <-] Hst. constructor; try done; try apply initial_ok; try apply win_empty_cache_ok; cbn; try lia; by apply Forall_nil.
Qed.
Lemma initial_reports_ok : all_gives inv send_initial_bluetooth_reports.
Proof.
  unfold send_initial_bluetooth_reports. eapply all_gives_locked_bind; [apply init_report_gives|]. intros r Hr.
  apply all_gives_bind; [by apply win_try_send_ok|]. intros _. apply all_gives_locked. intros tone.
  apply preserves_bind; [typeclasses eauto|apply win_update_safe; [auto with rounds|by intros]|intros _].
  apply preserves_bind; [typeclasses eauto|apply lift_safe|intros d].
  apply preserves_bind; [typeclasses eauto|apply win_update_safe; [apply decoder_ok|by intros]|intros _].
  apply preserves_bind; [typeclasses eauto|apply win_update_safe; [apply plug_ok|by intros]|intros _].
  apply win_update_safe; [auto with rounds|by intros].
Qed.
End Rounds.
