(* ===== verification/WinProps.v ===== *)
(** The properties of the Windows worker: frames over a handle, and the bridge between the
    virtual port and the controller. *)
From stdpp Require Import base list strings numbers relations.
From Stdlib Require Import Ascii ZArith Lia.
From S2P Require Import Prelude Text Words Checksum BtPacket OutputState OutputInv OutputReports Audio.
From S2P Require Import AudioFacts Threads WinIo WinState WinBridge WinAudio WinInv WinRounds.

Local Open Scope Z_scope.

(** ** Frames over a handle *)

Section Frames.
Context `{WinSystem}.

Lemma write_all stop bytes label h :
  Forall (moves stop label "write") (operations h) ->
  exists left, write_handle_exact stop bytes label h = (mk_handle left (incoming h) (outgoing h ++ bytes), Ok tt).
Proof.
  intros Hm. destruct (write_exact_moves stop (S (length bytes)) bytes label h Hm) as (h' & [] & Hw & _); [lia|].
  unfold write_handle_exact. rewrite Hw. destruct (write_exact_spec _ _ _ _ _ _ _ Hw) as (Hi & k & Ho & Hk).
  specialize (Hk eq_refl). rewrite take_ge in Ho by done. destruct h' as [left i o]. cbn in *. subst i o. by exists left.
Qed.
Lemma read_all stop n bytes label h rest :
  Forall (moves stop label "read") (operations h) -> length bytes = n -> incoming h = bytes ++ rest ->
  exists left, Forall (moves stop label "read") left /\
    read_handle_exact stop n label h = (mk_handle left rest (outgoing h), Ok bytes).
Proof.
  intros Hm Hl Hi. destruct (read_exact_moves stop (S n) n label h Hm) as (h' & got & Hr & Hm'); [lia| |].
  { rewrite Hi, length_app. lia. }
  unfold read_handle_exact. rewrite Hr. destruct (read_exact_spec _ _ _ _ _ _ _ Hr) as (Hg & Hi' & Ho).
  rewrite Hi in Hi'. apply app_inj_1 in Hi' as [-> Hrest]; [|congruence]. destruct h' as [left i o]. cbn in *. subst.
  by exists left.
Qed.

(** Frames over a handle of Windows: however the system splits the operations on it, as
    long as each moves a byte, a frame of at most 4096 bytes is written in full, and a reader
    whose next bytes it is reads its type and payload back, leaving what follows; a longer
    payload is refused before anything is written. *)
Theorem handle_frame_roundtrip stop t payload label reader_label (writes reads : list overlapped) sent rest incoming0 outgoing0 :
  is_u16 t -> Forall (moves stop label "write") writes -> Forall (moves stop reader_label "read") reads ->
  if (length payload <=? VDS_FRAME_MAX_PAYLOAD)%nat then
    exists frame left1 left2,
      write_handle_frame stop t payload label (mk_handle writes incoming0 sent)
        = (mk_handle left1 incoming0 (sent ++ frame), Ok tt) /\
      read_handle_frame stop reader_label (mk_handle reads (frame ++ rest) outgoing0)
        = (mk_handle left2 rest outgoing0, Ok (mk_header t 0 (Z.of_nat (length payload)) 0, payload))
  else
    write_handle_frame stop t payload label (mk_handle writes incoming0 sent)
      = (mk_handle writes incoming0 sent, Throw "frame payload exceeds VDS_FRAME_MAX_PAYLOAD").
Proof.
  intros Ht Hwrites Hreads. unfold write_handle_frame, frame_bytes, lift.
  destruct (Nat.leb_spec (length payload) VDS_FRAME_MAX_PAYLOAD) as [Hl|Hl].
  2:{ by rewrite (proj2 (Nat.ltb_lt _ _)) by done. }
  rewrite (proj2 (Nat.ltb_ge _ _)) by done. rewrite u16_id by done.
  unfold VDS_FRAME_MAX_PAYLOAD in Hl. rewrite u32_id by (unfold is_u32; lia).
  set (h := mk_header _ _ _ _). assert (decode_header (encode_header h) = h) as Hd.
  { rewrite <- (app_nil_r (encode_header h)). apply header_roundtrip; subst h; simpl; unfold is_u16, is_u32 in *; lia. }
  pose proof (encode_header_length h) as He. exists (encode_header h ++ payload).
  destruct (write_all stop (encode_header h ++ payload) label (mk_handle writes incoming0 sent) Hwrites) as [l1 Hw].
  destruct (read_all stop frame_header_size (encode_header h) reader_label
              (mk_handle reads ((encode_header h ++ payload) ++ rest) outgoing0) (payload ++ rest) Hreads He) as (l2 & Hm & Hr).
  { symmetry. apply app_assoc. }
  cbn [outgoing] in Hr. exists l1. destruct (decide (payload = [])) as [->|Hne].
  - exists l2. split; [exact Hw|]. unfold read_handle_frame, mbind, prog_bind. rewrite Hr, Hd. done.
  - destruct (read_all stop (length payload) payload reader_label (mk_handle l2 (payload ++ rest) outgoing0) rest Hm eq_refl eq_refl)
      as (l3 & _ & Hr3).
    exists l3. split; [exact Hw|]. unfold read_handle_frame, mbind, prog_bind. rewrite Hr, Hd. subst h.
    cbn [header_length]. rewrite (proj2 (Z.ltb_ge _ _)) by (unfold VDS_FRAME_MAX_PAYLOAD; lia).
    destruct (Z.eqb_spec (Z.of_nat (length payload)) 0) as [E|_]; [destruct payload; [done|cbn in E; lia]|].
    by rewrite Nat2Z.id, Hr3.
Qed.
End Frames.

Section Env.
Context `{WinSystem}.

Lemma env_chunks_range name def lo hi : lo <= def <= hi -> lo <= env_chunks name def lo hi <= hi.
Proof.
  intros Hd. unfold env_chunks. repeat case_match; try done. lia.
Qed.
Lemma environment_tuning_ok : tuning_ok tuning_from_environment.
Proof.
  pose proof (env_chunks_range "VDS_AUDIO_PRIME_CHUNKS" 6 1 64). 
  pose proof (env_chunks_range "VDS_AUDIO_QUEUE_CHUNKS" 12 2 128). unfold tuning_ok. cbn. lia.
Qed.
End Env.

Section Worker.
Context {Encoder Dec : Type} `{Codecs Encoder Dec} `{WinSystem}.

(** C10. A worker is started and its three threads run in any interleaving of their critical
    sections, while the user interface may ask for muting and frames of the controller and of
    the host arrive in any number.  Then every packet for the controller is a HIDP packet
    around a report of one of the three sizes with a correct checksum - the packet that is
    never built, of a stream closed while the test tone plays, is never sent - and the state
    is well-formed: output state, queue bounds, chunk sizes, cache and status. *)
Theorem worker_keeps_invariant status (s0 s1 : BridgeState Encoder Dec) w0 w1 r p :
  opus_encode_ok opus_encode -> is_ok (create_encoder (Codecs := _)) = true ->
  new_bridge_state status = Ok s0 -> (forall w, status = Some w -> status_ok w) ->
  bt_sent w0 = [] -> bytes_ok (incoming (device w0)) -> Forall feature_answer_ok (feature_answers w0) ->
  run send_initial_bluetooth_reports (s0, w0) = ((s1, w1), r) ->
  pool_reaches (worker_work tuning_from_environment) (worker_start (s1, w1)) p ->
  Forall packet_ok (bt_sent p.1.2) /\ bridge_ok tuning_from_environment p.1.1.
Proof.
  intros Hopus Henc Hnew Hst Hsent Hin Hf Hrun Hp. pose proof environment_tuning_ok as Ht.
  assert (inv tuning_from_environment false (s0, w0)) as Hs0.
  { split_and!; [by apply (new_state_ok _ Henc status)| |done]. constructor; cbn [snd]; [rewrite Hsent; by apply Forall_nil|done..]. }
  pose proof (run_keeps (inv tuning_from_environment) _ false (initial_reports_ok _) (s0, w0) Hs0) as Hs1.
  rewrite Hrun in Hs1. cbn [fst] in Hs1.
  destruct (worker_reaches _ Ht Hopus Henc _ _ Hs1 Hp) as (Hb & Hw & _). by split; [apply Hw|].
Qed.

(** ** Reports of the state *)

Lemma send_refused report label (s : BridgeState Encoder Dec) w e rest :
  label <> "audio" -> bt_answers w = Failed e :: rest ->
  run (try_send_bt_output_report report label) (s, w) = ((s, put_bt_answers rest w), Ok false).
Proof.
  intros Hl Hw. unfold try_send_bt_output_report. rewrite run_locked. unfold try_catch. rewrite decide_False by done.
  unfold mbind, prog_bind, io, write_interrupt_packet, mbind, prog_bind, take_bt_answer. cbn [fst snd]. by rewrite Hw.
Qed.

(** A report of the controller's state that the transport refuses is lost: nothing is
    sent, the state counts as sent all the same, and sending it again does nothing, whatever
    the transport would answer then. *)
Theorem refused_state_not_retried (s : BridgeState Encoder Dec) w e rest :
  out_ok (output_state s) -> bt_answers w = Failed e :: rest ->
  (flags s have_last_sent_state = true -> last_sent_state s <> state_ (output_state s)) ->
  exists s1, run send_bt_state_if_changed (s, w) = ((s1, put_bt_answers rest w), Ok tt) /\
    state_ (output_state s1) = state_ (output_state s) /\
    forall w2, run send_bt_state_if_changed (s1, w2) = ((s1, w2), Ok tt).
Proof.
  intros Ho Hw Hlast. unfold send_bt_state_if_changed.
  assert (exists report s1, build_bt_state_if_changed (s, w) = ((s1, w), Ok (Some report)) /\
            state_ (output_state s1) = state_ (output_state s) /\ flags s1 have_last_sent_state = true /\
            last_sent_state s1 = state_ (output_state s1)) as (report & s1 & Hb & Hst & Hf & Hl).
  { unfold build_bt_state_if_changed, mbind, prog_bind, the_state, on_output, update, modify. cbn [fst snd].
    destruct (_ && _) eqn:E.
    - apply andb_true_iff in E as [E1 E2%bool_decide_eq_true]. by destruct (Hlast E1).
    - rewrite state_report_spec by done. cbn [fst snd]. do 2 eexists. by split_and!. }
  exists s1. split_and!; [|done|].
  - rewrite (run_locked_then _ _ _ _ _ Hb). by rewrite (run_then _ _ _ _ _ (send_refused report "state" s1 w e rest ltac:(done) Hw)).
  - intros w2. rewrite (run_locked_then _ _ _ (s1, w2) None); [done|].
    unfold build_bt_state_if_changed, mbind, prog_bind, the_state. cbn [fst snd].
    by rewrite Hf, Hl, bool_decide_eq_true_2 by done.
Qed.

(** ** Feature reports *)

Definition reply_frame (report : list Z) : list Z :=
  match frame_bytes VDS_FRAME_USB_FEATURE_REPLY report with Ok bytes => bytes | Throw _ => [] end.

Lemma write_virtual_complete (s : BridgeState Encoder Dec) w report :
  (length report <= 4096)%nat -> operations (device w) = [] ->
  exists left, run (write_virtual VDS_FRAME_USB_FEATURE_REPLY report) (s, w)
    = ((s, put_device (mk_handle left (incoming (device w)) (outgoing (device w) ++ reply_frame report)) w), Ok tt).
Proof.
  intros Hl Hops. unfold write_virtual. rewrite run_locked. unfold io, on_device, write_handle_frame, reply_frame.
  unfold frame_bytes. rewrite (proj2 (Nat.ltb_ge _ _)) by done. set (bytes := _ ++ report).
  destruct (write_all false bytes "virtual" (device w)) as [left Hw]; [by rewrite Hops|].
  exists left. unfold mbind, prog_bind, lift. cbn [fst snd]. by rewrite Hw.
Qed.

Lemma uncached_report id (s : BridgeState Encoder Dec) w :
  (id < 128 -> cached id s = None) -> run (cached_feature_report id) (s, w) = ((s, w), Ok None).
Proof.
  intros Hmiss. unfold cached_feature_report, is_cacheable_feature. destruct (Z.ltb_spec id 128); [|done]. cbn [negb].
  rewrite run_locked. unfold mbind, prog_bind, the_state. cbn [fst snd]. by rewrite Hmiss.
Qed.

(** A feature report below 0x80 is fetched from the controller once: the host gets the
    controller's answer, and the same answer afterwards without the controller being asked.
    Reports from 0x80 on, of the command channel, are asked for each time and not kept. *)
Theorem static_reports_cached (s : BridgeState Encoder Dec) w id body more :
  length (feature_cache s) = 256%nat -> 0 <= id < 256 -> (length body < 4096)%nat ->
  feature_answers w = Ok (Some (id :: body)) :: more -> operations (device w) = [] ->
  (id < 128 -> cached id s = None) ->
  exists s1 w1, run (handle_feature_get_frame [id]) (s, w) = ((s1, w1), Ok tt) /\
    feature_gets w1 = feature_gets w ++ [id] /\
    outgoing (device w1) = outgoing (device w) ++ reply_frame (id :: body) /\
    if id <? 128 then
      forall w2, operations (device w2) = [] ->
      exists w3, run (handle_feature_get_frame [id]) (s1, w2) = ((s1, w3), Ok tt) /\
        feature_gets w3 = feature_gets w2 /\ outgoing (device w3) = outgoing (device w2) ++ reply_frame (id :: body)
    else s1 = s.
Proof.
  intros Hlen Hid Hb Ha Hops Hmiss. unfold handle_feature_get_frame.
  rewrite (run_then _ _ _ (s, w) None) by (apply uncached_report; intros; apply Hmiss; lia).
  set (w1 := put_feature_answers more (put_feature_gets (feature_gets w ++ [id]) w)).
  set (s1 := if id <? 128 then put_feature_cache (<[Z.to_nat id := Some (id :: body)]> (feature_cache s)) s else s).
  destruct (write_virtual_complete s1 w1 (id :: body)) as [left Hw]; [cbn; lia|done|].
  exists s1. eexists. split_and!.
  - apply run_guarded. rewrite (run_locked_then _ _ _ (s, w1) (Some (id :: body))).
    2:{ unfold io, read_feature_report. cbn [fst snd]. by rewrite Ha. }
    cbn beta iota. rewrite (run_then _ _ _ (s1, w1) tt); [exact Hw|]. cbn [cache_feature_report].
    unfold is_cacheable_feature. subst s1. destruct (id <? 128); cbn [negb]; [by rewrite run_locked|done].
  - done.
  - done.
  - clearbody w1. assert ((id <? 128) = true -> cached id s1 = Some (id :: body)) as Hkept.
    { intros Hlt. subst s1. rewrite Hlt. unfold cached. cbn [feature_cache put_feature_cache].
      by rewrite list_lookup_insert_eq by lia. }
    destruct (id <? 128) eqn:Hlt; [|done]. clearbody s1. intros w2 Hops2.
    destruct (write_virtual_complete s1 w2 (id :: body)) as [left2 Hw2]; [cbn; lia|done|].
    eexists. split.
    { rewrite (run_then _ _ _ (s1, w2) (Some (id :: body))); [exact Hw2|]. unfold cached_feature_report, is_cacheable_feature.
      rewrite Hlt. cbn [negb]. rewrite run_locked. unfold mbind, prog_bind, the_state. cbn [fst snd].
      by rewrite Hkept. }
    done.
Qed.

(** The feature reports that were read and written, and those that are kept. *)
Definition features_are (x : list Z * list (list Z) * list (option (list Z))) (s : BridgeState Encoder Dec * World) : Prop :=
  feature_gets s.2 = x.1.1 /\ feature_sets s.2 = x.1.2 /\ feature_cache s.1 = x.2.

Lemma update_features (f : BridgeState Encoder Dec -> BridgeState Encoder Dec) x :
  (forall s, feature_cache (f s) = feature_cache s) -> preserves (keeps (features_are x)) (update f).
Proof. intros Hf [s w] (? & ? & Hc). split_and!; [done..|]. cbn. by rewrite Hf. Qed.
Lemma world_features {A} (m : prog World A) x :
  (forall w, feature_gets (m w).1 = feature_gets w /\ feature_sets (m w).1 = feature_sets w) ->
  preserves (keeps (features_are x)) (io m).
Proof.
  intros Hm [s w] (? & ? & ?). destruct (Hm w) as [Hg Hsets]. unfold io. cbn [fst snd].
  destruct (m w) as [w1 r]. cbn [fst snd] in *. split_and!; cbn [fst snd] in *; congruence.
Qed.
Lemma output_features {A} (m : prog DsOutputState A) x : preserves (keeps (features_are x)) (on_output m).
Proof. intros [s w] ?. unfold on_output. cbn [fst snd]. by destruct (m (output_state s)). Qed.

Lemma try_send_features report label : all_gives features_are (try_send_bt_output_report report label).
Proof.
  apply all_gives_locked. intros x. apply preserves_catch; [typeclasses eauto| |by intros e s].
  cbv zeta. case_decide.
  - apply world_features. intros w. unfold try_write_interrupt_packet, mbind, prog_bind, take_bt_answer.
    by destruct (bt_answers w) as [|[]].
  - apply preserves_bind; [typeclasses eauto| |by intros ? s]. apply world_features. intros w.
    unfold write_interrupt_packet, mbind, prog_bind, take_bt_answer. by destruct (bt_answers w) as [|[]].
Qed.
Lemma send_state_features : all_gives features_are send_bt_state_if_changed.
Proof.
  unfold send_bt_state_if_changed. apply all_gives_bind.
  - apply all_gives_locked. intros x. unfold build_bt_state_if_changed.
    apply preserves_bind; [typeclasses eauto|by intros s|]. intros s. cbv zeta. case_match; [by intros ?|].
    apply preserves_bind; [typeclasses eauto|apply output_features|]. intros r.
    apply preserves_bind; [typeclasses eauto|by apply update_features|by intros ? s'].
  - intros [r|]; [|apply all_gives_ret]. apply all_gives_bind; [apply try_send_features|intros; apply all_gives_ret].
Qed.
Lemma test_command_features device action data : all_gives features_are (handle_test_command device action data).
Proof.
  unfold handle_test_command. apply all_gives_bind; [apply all_gives_ret|]. intros _. apply all_gives_bind.
  - apply all_gives_locked. intros x. case_match.
    { apply preserves_bind; [typeclasses eauto|by apply update_features|by intros ? s]. }
    case_match; [|by intros s]. apply preserves_bind; [typeclasses eauto| |by intros ? s]. unfold control_waveout.
    apply preserves_bind; [typeclasses eauto|by intros s|]. intros s. cbv zeta.
    apply preserves_bind; [typeclasses eauto|by apply update_features|]. intros _.
    apply preserves_bind; [typeclasses eauto|by intros s'|]. intros e.
    apply preserves_bind; [typeclasses eauto|by apply update_features|]. intros _.
    apply update_features. intros s'. by case_match.
  - intros [|]; [apply send_state_features|apply all_gives_ret].
Qed.

(** The feature reports that were read. *)
Definition gets_are (x : list Z) (s : BridgeState Encoder Dec * World) : Prop := feature_gets s.2 = x.

Lemma reply_gets report :
  all_gives gets_are (_ ← cache_feature_report report; write_virtual VDS_FRAME_USB_FEATURE_REPLY report).
Proof.
  apply all_gives_bind; [|intros _].
  - destruct report; cbn [cache_feature_report]; [apply all_gives_ret|].
    case_match; [apply all_gives_ret|]. apply all_gives_locked. intros x [s w] Hs. exact Hs.
  - apply all_gives_locked. intros x [s w] Hs. unfold io, on_device. cbn [fst snd].
    by destruct (write_handle_frame _ _ _ _ (device w)).
Qed.

Lemma uncached_asks id (s : BridgeState Encoder Dec) w :
  (id < 128 -> cached id s = None) ->
  feature_gets (run (handle_feature_get_frame [id]) (s, w)).1.2 = feature_gets w ++ [id].
Proof.
  intros Hmiss. unfold handle_feature_get_frame. rewrite (run_then _ _ _ (s, w) None) by (by apply uncached_report).
  set (k := fun report : option (list Z) => _).
  assert (forall r, all_gives gets_are (k r)) as Hk by (intros [r|]; [apply reply_gets|apply all_gives_ret]).
  clearbody k. set (w1 := put_feature_gets (feature_gets w ++ [id]) w).
  assert (forall (t : thread (BridgeState Encoder Dec * World) unit) s w2, all_gives gets_are t -> feature_gets w2 = feature_gets w1 ->
          feature_gets (run t (s, w2)).1.2 = feature_gets w1) as Hrun.
  { intros t s' w' Ht Hg. by apply (run_keeps gets_are t (feature_gets w1) Ht). }
  cbn. unfold io, read_feature_report. cbn [fst snd].
  destruct (feature_answers w) as [|[r|e] rest]; cbn [fst snd thread_bind]; apply Hrun; try done.
  - apply all_gives_guarded; [apply Hk|intros; apply all_gives_ret].
  - apply all_gives_guarded; [apply Hk|intros; apply all_gives_ret].
  - apply all_gives_ret.
Qed.

(** A test command of the WebHID tools is answered by a result that no host ever gets:
    the command is not forwarded to the controller, its result is not kept, and reading the
    result (report 0x81) asks the controller for the result of a command it has not seen. *)
Theorem test_result_lost (s : BridgeState Encoder Dec) w payload command :
  test_command payload = Some command ->
  exists s1 w1 r, run (handle_feature_set_frame payload) (s, w) = ((s1, w1), r) /\
    feature_sets w1 = feature_sets w /\ feature_cache s1 = feature_cache s /\
    feature_gets (run (handle_feature_get_frame [kTestCommandResultReportId]) (s1, w1)).1.2
      = feature_gets w ++ [kTestCommandResultReportId].
Proof.
  intros Hc. unfold handle_feature_set_frame.
  assert ((length payload =? 0)%nat || (byte_at payload 0 =? 0) = false) as ->.
  { unfold test_command in Hc. case_match eqn:E; [|discriminate].
    apply andb_true_iff in E as [E1%Nat.leb_le ->%Z.eqb_eq]. apply orb_false_iff. split; [|done]. apply Nat.eqb_neq. lia. }
  rewrite Hc. destruct command as [[device action] data].
  pose proof (run_keeps features_are _ (feature_gets w, feature_sets w, feature_cache s)
                (test_command_features device action data) (s, w)) as (Hg & Hs & Hf); [by split_and!|].
  destruct (run _ (s, w)) as [[s1 w1] r]. cbn [fst snd] in *. exists s1, w1, r. split_and!; [done..|].
  rewrite uncached_asks by done. by rewrite Hg.
Qed.

(** ** Muting from the user interface *)

Definition pressed (report : list Z) (s : BridgeState Encoder Dec) : bool :=
  flag_at report kUsbInputMuteButtonOffset kUsbInputMuteButtonMask && negb (flags s mute_button_down).
Definition muting (request : Z) (toggled : bool) : bool :=
  if request =? 0 then false else if request =? 1 then true else toggled.

Lemma apply_mute_spec report (s : BridgeState Encoder Dec) ws :
  worker_status s = Some ws ->
  let muted := muting (mic_mute_request ws) (xorb (flags s mic_muted) (pressed report s)) in
  let s1 := (apply_mute report s).1 in
  flags s1 mic_muted = muted /\ worker_status s1 = Some (put_mic_mute_request (-1) ws) /\
  flags s1 audio_in_stream_active = flags s audio_in_stream_active /\
  (muted <> flags s mic_muted -> (apply_mute report s).2 = true).
Proof.
  intros Hs. unfold apply_mute, take_mute_request, muting. fold (pressed report s). cbv zeta.
  destruct (pressed report s); cbn [worker_status set_flag put_flags flags]; rewrite Hs;
    destruct (mic_mute_request ws =? 0), (mic_mute_request ws =? 1), (flags s mic_muted) eqn:Hm;
    cbn -[flag_at]; rewrite ?Hm; cbn -[flag_at]; rewrite ?Hm; by split_and!.
Qed.

(** What muting depends on. *)
Definition same_mic (s s1 : BridgeState Encoder Dec) : Prop :=
  worker_status s1 = worker_status s /\ flags s1 mic_muted = flags s mic_muted /\
  flags s1 mute_button_down = flags s mute_button_down /\
  flags s1 audio_in_stream_active = flags s audio_in_stream_active.

Lemma headset_step tuning report (s : BridgeState Encoder Dec) :
  bridge_ok tuning s -> bridge_ok tuning (apply_headset report s).1 /\ same_mic s (apply_headset report s).1.
Proof.
  intros Hs. unfold apply_headset. cbv zeta. case_match; [done|]. cbn [fst].
  case_match; (split; [|done]); repeat first [apply win_route_ok|apply set_flag_ok]; done.
Qed.
Lemma headset_mic_step tuning report (s : BridgeState Encoder Dec) :
  bridge_ok tuning s -> bridge_ok tuning (apply_headset_mic report s).1 /\ same_mic s (apply_headset_mic report s).1.
Proof.
  intros Hs. unfold apply_headset_mic. cbv zeta. case_match; [done|]. cbn [fst]. split; [|done].
  by apply plug_ok, set_flag_ok.
Qed.
Lemma mic_state_built tuning active muted (s : BridgeState Encoder Dec) w :
  bridge_ok tuning s ->
  exists o r, on_output (build_bt_mic_state_report active muted) (s, w) = ((put_output_state o s, w), Ok r) /\
    (build_bt_mic_state_report active muted (output_state s)).2 = Ok r /\ bridge_ok tuning (put_output_state o s).
Proof.
  intros Hs. unfold on_output. cbn [fst snd]. pose proof (ok_output _ _ Hs) as Ho.
  pose proof (output_step_ok _ _ Ho (step_mic_state _ active muted)) as Ho1.
  rewrite mic_state_report_spec in * by done. cbn [fst snd] in *. do 2 eexists. split_and!; [done..|].
  by destruct Hs; constructor.
Qed.
Lemma mic_built tuning active (s : BridgeState Encoder Dec) w :
  bridge_ok tuning s ->
  exists o r, on_output (build_bt_mic_report active) (s, w) = ((put_output_state o s, w), Ok r) /\
    bridge_ok tuning (put_output_state o s).
Proof.
  intros Hs. unfold on_output. cbn [fst snd]. pose proof (ok_output _ _ Hs) as Ho.
  pose proof (output_step_ok _ _ Ho (step_mic _ active)) as Ho1.
  rewrite mic_report_spec in * by done. cbn [fst snd] in *. do 2 eexists. split_and!; [done..|].
  by destruct Hs; constructor.
Qed.

Lemma when_built tuning (c : bool) (m : prog (BridgeState Encoder Dec * World) (list Z)) (Q : list Z -> Prop) s w :
  bridge_ok tuning s ->
  (exists o r, m (s, w) = ((put_output_state o s, w), Ok r) /\ Q r /\ bridge_ok tuning (put_output_state o s)) ->
  exists s1 x, (if c then r ← m; mret (Some r) else mret None) (s, w) = ((s1, w), Ok x) /\ bridge_ok tuning s1 /\
    worker_status s1 = worker_status s /\ flags s1 = flags s /\ (c = true -> exists r, x = Some r /\ Q r).
Proof.
  intros Hs (o & r & Hm & HQ & Ho). destruct c.
  - exists (put_output_state o s), (Some r). split_and!; [by rewrite (bind_ok _ _ _ _ _ Hm)|done..|]. by exists r.
  - by exists s, None.
Qed.

(** A request of the user interface to mute or unmute is carried out by the next input
    report and cleared, so that it is carried out once: the microphone is muted as asked
    whatever the mute button does, or as the button leaves it when nothing is asked; the user
    interface is shown that, and when muting changes the controller is sent its new state. *)
Theorem mute_request_taken tuning report (s : BridgeState Encoder Dec) w ws :
  bridge_ok tuning s -> worker_status s = Some ws ->
  let muted := muting (mic_mute_request ws) (xorb (flags s mic_muted) (pressed report s)) in
  exists s1 a, apply_input_report report (s, w) = ((s1, w), Ok a) /\
    flags s1 mic_muted = muted /\
    (exists ws1, worker_status s1 = Some ws1 /\ mic_mute_request ws1 = -1 /\ ws_mic_muted ws1 = muted) /\
    (muted <> flags s mic_muted ->
     exists o r, out_ok o /\ act_mic_state a = Some r /\
       (build_bt_mic_state_report (flags s audio_in_stream_active) muted o).2 = Ok r).
Proof.
  intros Hs Hw muted. unfold apply_input_report. rewrite bind_update, bind_state. cbv zeta.
  set (s0 := bump _ s). assert (bridge_ok tuning s0) as Hs0 by (by destruct Hs; constructor).
  assert (worker_status s0 = Some ws) as Hw0 by done. assert (flags s0 = flags s) as Hf0 by done. clearbody s0.
  rewrite bind_bridge. destruct (headset_step tuning report s0 Hs0) as (Hs1 & Hw1 & Hm1 & Hd1 & Ha1).
  destruct (apply_headset report s0) as [s1 headset_changed]. cbn [fst snd] in *.
  rewrite bind_bridge. destruct (headset_mic_step tuning report s1 Hs1) as (Hs2 & Hw2 & Hm2 & Hd2 & Ha2).
  destruct (apply_headset_mic report s1) as [s2 mic_changed]. cbn [fst snd] in *.
  rewrite bind_bridge. pose proof (apply_mute_ok tuning report s2 Hs2) as Hs3.
  destruct (apply_mute_spec report s2 ws) as (Hm3 & Hw3 & Ha3 & Hc3); [congruence|].
  destruct (apply_mute report s2) as [s3 changed]. cbn [fst snd] in *.
  assert (muting (mic_mute_request ws) (xorb (flags s2 mic_muted) (pressed report s2)) = muted) as Hmuted.
  { subst muted. unfold pressed. by rewrite Hm2, Hm1, Hf0, Hd2, Hd1, Hf0. }
  rewrite Hmuted in *. rewrite bind_update, bind_state.
  set (s4 := store _ s3). assert (bridge_ok tuning s4) as Hs4.
  { apply store_ok; [|done]. by intros w0 []. }
  assert (exists ws1, worker_status s4 = Some ws1 /\ mic_mute_request ws1 = -1 /\ ws_mic_muted ws1 = muted) as Hw4.
  { subst s4. cbn. rewrite Hw3. eexists. split_and!; [reflexivity|done|done]. }
  assert (flags s4 = flags s3) as Hf4 by done. clearbody s4. rewrite Hf4.
  assert (flags s3 audio_in_stream_active = flags s audio_in_stream_active) as Ha4 by congruence. rewrite Ha4, Hm3.
  set (reopen := mic_changed && _). clearbody reopen.
  destruct (when_built tuning (changed || reopen) (on_output (build_bt_mic_state_report (flags s audio_in_stream_active) muted))
    (fun r => (build_bt_mic_state_report (flags s audio_in_stream_active) muted (output_state s4)).2 = Ok r) s4 w Hs4)
    as (s5 & mic_state & E5 & Hs5 & Hw5 & Hf5 & Hc5).
  { by apply mic_state_built. }
  rewrite (bind_ok _ _ _ _ _ E5).
  destruct (when_built tuning reopen (on_output (build_bt_mic_report false)) (fun _ => True) s5 w Hs5)
    as (s6 & mic_close & E6 & Hs6 & Hw6 & Hf6 & _).
  { destruct (mic_built tuning false s5 w Hs5) as (o & r & ? & ?). by exists o, r. }
  rewrite (bind_ok _ _ _ _ _ E6).
  destruct (when_built tuning reopen (on_output (build_bt_mic_report true)) (fun _ => True) s6 w Hs6)
    as (s7 & mic_open & E7 & Hs7 & Hw7 & Hf7 & _).
  { destruct (mic_built tuning true s6 w Hs6) as (o & r & ? & ?). by exists o, r. }
  rewrite (bind_ok _ _ _ _ _ E7). do 2 eexists. split_and!; [reflexivity|congruence|by rewrite Hw7, Hw6, Hw5|].
  intros Hne. destruct Hc5 as (r & -> & Hr).
  { rewrite Hc3; [done|]. by rewrite Hm2, Hm1, Hf0. }
  exists (output_state s4), r. split_and!; [apply Hs4|done..].
Qed.

(** ** The pace of the audio *)

Lemma interval_base tuning n : (audio_output_interval_for_pending tuning n).1.1 = kAudioOutputBaseInterval.
Proof. unfold audio_output_interval_for_pending. by repeat case_match. Qed.

Lemma next_scheduled tuning (sent : bool) chunk concealment scheduled send_time (s : BridgeState Encoder Dec) :
  times (if sent then note_sent tuning chunk concealment scheduled send_time s
         else note_blocked tuning concealment scheduled send_time s) next_haptics_send_time
  = (if scheduled + kAudioOutputBaseInterval <=? send_time then send_time + kAudioOutputBaseInterval
     else scheduled + kAudioOutputBaseInterval).
Proof.
  assert (exists s1, (if sent then note_sent tuning chunk concealment scheduled send_time s
         else note_blocked tuning concealment scheduled send_time s)
         = schedule_next scheduled send_time kAudioOutputBaseInterval s1) as [s1 ->]; [|done].
  destruct sent; [unfold note_sent; cbv zeta; destruct concealment; [by eexists|]|unfold note_blocked; cbv zeta];
    match goal with |- context [audio_output_interval_for_pending tuning ?n] =>
      pose proof (interval_base tuning n); destruct (audio_output_interval_for_pending tuning n) as [[i l] h] end;
    cbn [fst] in *; subst i; by eexists.
Qed.

(** What is known of a packet that is sent at [now]. *)
Definition timely (s : BridgeState Encoder Dec) (now : Z) (d : flush_decision) : Prop :=
  match d with
  | Send _ _ _ scheduled send_time =>
      send_time = now /\ scheduled <= now /\
      (flags s audio_jitter_buffering = false ->
       times s next_haptics_send_time <= now \/ times s next_haptics_send_time = 0) /\
      (flags s audio_jitter_buffering = false -> times s next_haptics_send_time <> 0 ->
       scheduled = times s next_haptics_send_time)
  | _ => True
  end.

Lemma due_timely (s : BridgeState Encoder Dec) now packet chunk concealment :
  too_early s now = false -> timely s now (Send packet chunk concealment (due s now) now).
Proof.
  unfold too_early, due. intros He. cbn.
  destruct (Z.eqb_spec (times s next_haptics_send_time) 0); cbn in He; [rewrite e; split_and!; lia|].
  apply Z.ltb_ge in He. split_and!; intros; lia.
Qed.

Lemma build_audio_packet_keeps h sp (s s1 : BridgeState Encoder Dec) w w1 r :
  build_audio_packet h sp (s, w) = ((s1, w1), r) -> w1 = w.
Proof.
  unfold build_audio_packet. rewrite bind_state. unfold on_builder. cbn [fst snd].
  destruct (build_packet _ _ _ _ _ _). by intros [= _ <- _].
Qed.

(** A packet is sent at the time that was read, not before it is due. *)
Lemma flush_timely tuning now (s s1 : BridgeState Encoder Dec) w w1 d :
  tone_ok s ->
  (if (length (pending_audio_chunks s) =? 0)%nat then flush_empty now else flush_queue tuning now) (s, w)
    = ((s1, w1), Ok d) -> timely s now d.
Proof.
  intros Htone. destruct (length (pending_audio_chunks s) =? 0)%nat eqn:Hq.
  - apply Nat.eqb_eq, length_zero_iff_nil in Hq. unfold flush_empty. rewrite bind_state.
    case_match; [by intros [= _ _ <-]|]. rewrite bind_update, bind_state. set (s2 := if times _ _ =? 0 then _ else _).
    assert (times s2 next_haptics_send_time = times s next_haptics_send_time) as Hn by (subst s2; by case_match).
    assert (flags s2 speaker_waveout_active = true -> times s2 audio_queue_empty_since = now) as Hw2.
    { subst s2. case_match eqn:E; [done|]. cbn. intros Ha. apply Z.eqb_neq in E. cbn in E. by rewrite (Htone Ha Hq) in E. }
    clearbody s2. cbv zeta. case_match eqn:He; [by intros [= _ _ <-]|].
    assert (forall s3 w3 d, close_stream (s2, w) = ((s3, w3), Ok d) ->
            (now - times s2 audio_queue_empty_since <? kAudioUnderflowKeepaliveDelay) = false -> timely s now d) as Hclose.
    { intros s3 w3 d3 Hc Hd. assert (flags s2 speaker_waveout_active = false) as Hw3.
      { apply not_true_iff_false. intros Ha. rewrite (Hw2 Ha), Z.sub_diag in Hd. discriminate. }
      revert Hc. unfold close_stream. rewrite bind_update, bind_state.
      match goal with |- context [flags ?x speaker_waveout_active] =>
        assert (flags x speaker_waveout_active = false) as -> by (by case_match) end.
      rewrite bind_update. intros (? & r & Hr & Hrest)%prog_bind_ok.
      apply prog_bind_ok in Hrest as (? & ? & ? & [= _ <-]). done. }
    destruct (last_audio_chunk s2) as [last|]; case_match eqn:Hd.
    + intros (? & packet & ? & [= _ <-])%prog_bind_ok. unfold due. rewrite Hn. apply due_timely.
      unfold too_early in *. by rewrite Hn in He.
    + intros Hc. by eapply Hclose.
    + by intros [= _ _ <-].
    + intros Hc. by eapply Hclose.
  - unfold flush_queue. intros ([s2 w2] & waits & Hj & Hrest)%prog_bind_ok. destruct waits; [by injection Hrest as _ _ <-|].
    rewrite bind_state in Hrest. case_match eqn:He; [by injection Hrest as _ _ <-|].
    rewrite bind_update, bind_state in Hrest.
    destruct (pending_audio_chunks (drop_stale tuning s2)); [by injection Hrest as _ _ <-|].
    apply prog_bind_ok in Hrest as (? & packet & ? & [= _ <-]).
    change (due (drop_stale tuning s2) now) with (due s2 now).
    pose proof (due_timely s2 now packet (Some a) false He) as (Ht & Hle & Hrest).
    revert Hj. unfold jitter_wait. rewrite bind_state. case_match eqn:Hf; cbn [negb].
    + intros [= <- <-]. apply negb_true_iff in Hf. by apply due_timely.
    + intros _. apply negb_false_iff in Hf. split_and!; [done..| |]; intros Hf2; congruence.
Qed.

(** The pace of the audio: a packet is sent at the time the clock shows, never before
    the time set for it; whether or not the transport takes it, the next one is set for at
    most one interval (10667 microseconds) later, and at least one interval after the time
    that was set for this one, so that lateness is caught up but never more than the schedule
    allows. *)
Theorem audio_packets_paced tuning (s s1 s2 : BridgeState Encoder Dec) w w1 packet chunk concealment scheduled
    send_time sent :
  tone_ok s -> decide_flush tuning (s, w) = ((s1, w1), Ok (Send packet chunk concealment scheduled send_time)) ->
  let s3 := if sent : bool then note_sent tuning chunk concealment scheduled send_time s2
            else note_blocked tuning concealment scheduled send_time s2 in
  let set_for := times s next_haptics_send_time in
  let next := times s3 next_haptics_send_time in
  send_time = time w + Z.of_N (default 0%N (head (ticks w))) /\
  send_time < next <= send_time + 10667000 /\
  (flags s audio_jitter_buffering = false -> set_for <> 0 -> set_for <= send_time /\ set_for + 10667000 <= next).
Proof.
  intros Htone Hd. cbv zeta. rewrite next_scheduled. change kAudioOutputBaseInterval with 10667000.
  unfold decide_flush in Hd. apply prog_bind_ok in Hd as ([s4 w4] & now & Hclock & Hd).
  unfold io, clock_now in Hclock. cbn [fst snd] in Hclock. injection Hclock as <- <- <-.
  rewrite bind_state in Hd.
  apply (flush_timely tuning _ s s1 _ w1 _ Htone) in Hd as (-> & Hle & H1 & H2).
  split; [done|]. destruct (Z.leb_spec (scheduled + 10667000) (time w + Z.of_N (default 0%N (head (ticks w))))); (split; [lia|]);
    intros Hf Hn; specialize (H1 Hf); specialize (H2 Hf Hn); lia.
Qed.

Lemma send_accepted report label (s : BridgeState Encoder Dec) w :
  label <> "audio" -> bt_answers w = [] ->
  run (try_send_bt_output_report report label) (s, w)
    = ((s, put_bt_sent (bt_sent w ++ [hidp_output_packet report]) w), Ok true).
Proof.
  intros Hl Hw. unfold try_send_bt_output_report. rewrite run_locked. unfold try_catch. rewrite decide_False by done.
  unfold mbind, prog_bind, io, write_interrupt_packet, mbind, prog_bind, take_bt_answer. cbn [fst snd]. by rewrite Hw.
Qed.

Lemma build_state_spec (s : BridgeState Encoder Dec) w :
  out_ok (output_state s) ->
  build_bt_state_if_changed (s, w) =
    (if flags s have_last_sent_state && bool_decide (last_sent_state s = state_ (output_state s)) then ((s, w), Ok None)
     else ((set_flag have_last_sent_state true (put_last_sent_state (state_ (output_state s))
              (put_output_state (set_report_sequence ((report_sequence_ (output_state s) + 1) mod 16) (output_state s)) s)), w),
           Ok (Some (checksummed 0xa2 (state_report_body (output_state s)))))).
Proof.
  intros Ho. unfold build_bt_state_if_changed. rewrite bind_state. cbv zeta. case_match; [done|].
  unfold mbind, prog_bind, on_output. cbn [fst snd]. by rewrite state_report_spec.
Qed.

Definition routed_back (s : BridgeState Encoder Dec) : DsOutputState :=
  set_audio_out_stream_active false (flags s headset_plugged) (output_state s).
Definition closed_report (s : BridgeState Encoder Dec) : option (list Z) :=
  if flags s have_last_sent_state && bool_decide (last_sent_state s = state_ (routed_back s)) then None
  else Some (checksummed 0xa2 (state_report_body (routed_back s))).
Definition is_closed (s s1 : BridgeState Encoder Dec) : Prop :=
  flags s1 audio_out_stream_active = false /\ flags s1 audio_pcm_stream_active = false /\
  last_audio_chunk s1 = None /\ state_ (output_state s1) = state_ (routed_back s) /\
  last_sent_state s1 = state_ (routed_back s).

Lemma closing_report (s : BridgeState Encoder Dec) w :
  out_ok (output_state s) ->
  exists s1, (report ← build_bt_state_if_changed; _ ← update (set_time next_haptics_send_time 0);
              mret (Deactivated report)) (s, w)
    = ((s1, w), Ok (Deactivated (
        if flags s have_last_sent_state && bool_decide (last_sent_state s = state_ (output_state s)) then None
        else Some (checksummed 0xa2 (state_report_body (output_state s)))))) /\
    flags s1 audio_out_stream_active = flags s audio_out_stream_active /\
    flags s1 audio_pcm_stream_active = flags s audio_pcm_stream_active /\
    last_audio_chunk s1 = last_audio_chunk s /\ state_ (output_state s1) = state_ (output_state s) /\
    last_sent_state s1 = state_ (output_state s).
Proof.
  intros Ho. pose proof (build_state_spec s w Ho) as Hb.
  destruct (_ && _) eqn:E; rewrite (bind_ok _ _ _ _ _ Hb), bind_update; (eexists; split; [reflexivity|]);
    split_and!; try reflexivity.
  by apply andb_true_iff in E as [_ E%bool_decide_eq_true].
Qed.

Lemma close_stream_spec (s : BridgeState Encoder Dec) w :
  out_ok (output_state s) -> flags s speaker_waveout_active = false ->
  exists s1, close_stream (s, w) = ((s1, w), Ok (Deactivated (closed_report s))) /\ is_closed s s1.
Proof.
  intros Ho Ht. unfold close_stream. rewrite bind_update, bind_state. set (s1 := set_flag _ _ _).
  assert (flags s1 speaker_waveout_active = false /\ output_state s1 = output_state s /\
          flags s1 headset_plugged = flags s headset_plugged /\ last_sent_state s1 = last_sent_state s /\
          flags s1 have_last_sent_state = flags s have_last_sent_state /\ flags s1 audio_pcm_stream_active = false)
    as (-> & E1 & E2 & E3 & E4 & E5) by (subst s1; by case_match).
  clearbody s1. rewrite bind_update. cbv zeta.
  match goal with |- context [(build_bt_state_if_changed ≫= _) (?x, w)] => set (s2 := x) end.
  assert (output_state s2 = routed_back s) as F1.
  { unfold routed_back. by rewrite <- E1, <- E2. }
  destruct (closing_report s2 w) as (s3 & -> & G1 & G2 & G3 & G4 & G5).
  { rewrite F1. by apply stream_ok. }
  exists s3. rewrite F1 in G4, G5. rewrite F1. split.
  - unfold closed_report. rewrite <- E3, <- E4. reflexivity.
  - split_and!; [exact G1|by rewrite G2|exact G3|done|done].
Qed.

Lemma note_sent_open tuning chunk concealment scheduled now (s : BridgeState Encoder Dec) :
  flags (note_sent tuning chunk concealment scheduled now s) audio_out_stream_active = flags s audio_out_stream_active /\
  flags (note_sent tuning chunk concealment scheduled now s) audio_pcm_stream_active = flags s audio_pcm_stream_active.
Proof.
  unfold note_sent, schedule_next, pop_sent. cbv zeta. destruct concealment, chunk; repeat (case_match; simplify_eq); done.
Qed.

(** A concealment packet leaves the stream open. *)
Lemma conceal_keeps_stream tuning last scheduled now (s s2 : BridgeState Encoder Dec) w w2 :
  decide_flush tuning (s, w)
    = (packet ← build_audio_packet (haptics (concealment_chunk last)) (speaker (concealment_chunk last));
       mret (Send packet None true scheduled now)) (s2, w2) ->
  bridge_ok tuning s2 -> chunk_ok last -> bt_answers w2 = [] ->
  flags s2 audio_out_stream_active = true -> flags s2 audio_pcm_stream_active = true ->
  exists s1 w1 sleep, run (flush_pending_audio_chunk tuning) (s, w) = ((s1, w1), Ok sleep) /\
    flags s1 audio_out_stream_active = true /\ flags s1 audio_pcm_stream_active = true.
Proof.
  intros Hd Hs (Hh & Hsp & Hspb)%concealment_ok Hbt Hout Hpcm.
  assert (exists b packet, build_audio_packet (haptics (concealment_chunk last)) (speaker (concealment_chunk last)) (s2, w2)
            = ((put_haptics_builder b s2, w2), Ok packet)) as (b & packet & Hb).
  { unfold build_audio_packet. rewrite bind_state. unfold on_builder. cbn [fst snd]. pose proof (ok_output _ _ Hs) as Ho.
    rewrite (build_packet_spec _ _ _ _ _ _ (ok_builder _ _ Hs) Hh Hsp (ok_length _ Ho) Hspb (state_bytes_ok _ Ho)).
    by do 2 eexists. }
  rewrite (bind_ok _ _ _ _ _ Hb) in Hd. unfold flush_pending_audio_chunk. rewrite (run_locked_then _ _ _ _ _ Hd).
  rewrite (run_then _ _ _ (put_haptics_builder b s2, put_bt_sent (bt_sent w2 ++ [hidp_output_packet packet]) w2) true).
  - do 3 eexists. split; [reflexivity|]. cbn [fst snd]. destruct (note_sent_open tuning None true scheduled now (put_haptics_builder b s2)) as [-> ->].
    by split.
  - unfold try_send_bt_output_report. rewrite run_locked. unfold try_catch. rewrite decide_True by done.
    unfold io, try_write_interrupt_packet, mbind, prog_bind, take_bt_answer. cbn [fst snd]. by rewrite Hbt.
Qed.

(** A stream of the host that has been without sound for 25 milliseconds is closed: its
    flags and its last packet are cleared, the controller's audio is routed back, and the
    controller is told by one state report, unless it has that state already.  Until then
    nothing of this happens. *)
Theorem drained_stream_closed tuning (s : BridgeState Encoder Dec) w :
  let now := time w + Z.of_N (default 0%N (head (ticks w))) in
  let since := times s audio_queue_empty_since in
  bridge_ok tuning s -> bt_answers w = [] -> pending_audio_chunks s = [] ->
  flags s audio_out_stream_active = true -> flags s audio_pcm_stream_active = true ->
  flags s speaker_waveout_active = false -> since <> 0 -> times s next_haptics_send_time <= now ->
  exists s1 w1 sleep, run (flush_pending_audio_chunk tuning) (s, w) = ((s1, w1), Ok sleep) /\
    if 25000000 <=? now - since then
      sleep = 2000000 /\ is_closed s s1 /\
      bt_sent w1 = bt_sent w ++ match closed_report s with Some report => [hidp_output_packet report] | None => [] end
    else flags s1 audio_out_stream_active = true /\ flags s1 audio_pcm_stream_active = true.
Proof.
  intros now since Hok Hbt Hq Hout Hpcm Htone Hsince Hnext. pose proof (ok_output _ _ Hok) as Ho.
  set (w0 := put_ticks (tail (ticks w)) (put_time now w)).
  assert (decide_flush tuning (s, w) = flush_empty now (s, w0)) as Hd.
  { unfold decide_flush. rewrite (bind_ok _ _ _ (s, w0) now) by done. by rewrite bind_state, Hq. }
  unfold flush_empty in Hd. rewrite bind_state, Hout, Hpcm in Hd. cbn [negb orb] in Hd. rewrite bind_update, bind_state in Hd.
  set (s2 := if times _ _ =? 0 then _ else _) in Hd. cbv zeta in Hd.
  assert (s2 = set_time audio_jitter_buffer_start 0 (set_flag audio_jitter_buffering false s)) as Hs2.
  { subst s2. by rewrite (proj2 (Z.eqb_neq _ _)) by exact Hsince. }
  assert (too_early s2 now = false) as He.
  { unfold too_early. rewrite Hs2. cbn. apply andb_false_iff. right. apply Z.ltb_ge. done. }
  rewrite He in Hd. assert (times s2 audio_queue_empty_since = since) as Et by (by rewrite Hs2). rewrite Et in Hd.
  assert (closed_report s2 = closed_report s /\ routed_back s2 = routed_back s) as [Hc Hr] by (by rewrite Hs2).
  change kAudioUnderflowKeepaliveDelay with 25000000 in Hd. unfold flush_pending_audio_chunk.
  destruct (Z.leb_spec 25000000 (now - since)) as [Hl|Hl].
  - assert (close_stream (s2, w0) = decide_flush tuning (s, w)) as Hcl.
    { rewrite Hd, (proj2 (Z.ltb_ge _ _)) by done. by case_match. }
    destruct (close_stream_spec s2 w0) as (s1 & Hs1 & Hk); [by rewrite Hs2|by rewrite Hs2|].
    rewrite Hcl in Hs1. rewrite (run_locked_then _ _ _ _ _ Hs1), Hc.
    unfold is_closed in *. rewrite Hr in Hk. destruct (closed_report s) as [report|]; cbn [send_when].
    + do 3 eexists. split.
      { rewrite (run_then _ _ _ (s1, put_bt_sent (bt_sent w0 ++ [hidp_output_packet report]) w0) tt); [reflexivity|].
        by rewrite (run_then _ _ _ _ _ (send_accepted report "state" s1 w0 ltac:(done) Hbt)). }
      split_and!; [done|apply Hk..|done].
    + do 3 eexists. split; [reflexivity|]. split_and!; [done|apply Hk..|by rewrite app_nil_r].
  - assert ((now - since <? 25000000) = true) as Hlt by (by apply Z.ltb_lt). rewrite Hlt in Hd.
    destruct (last_audio_chunk s2) as [last|] eqn:Hlast.
    2:{ rewrite (run_locked_then _ _ _ _ _ Hd). do 3 eexists. split; [reflexivity|]. by rewrite Hs2. }
    assert (bridge_ok tuning s2) as Hok2 by (rewrite Hs2; by apply set_time_ok, set_flag_ok).
    eapply conceal_keeps_stream; [exact Hd|exact Hok2|by apply (ok_last _ _ Hok2)|exact Hbt|by rewrite Hs2..].
Qed.
End Worker.

(** ** The properties at a concrete worker *)

#[local] Instance demo_codecs : Codecs Z Z := {|
  opus_encode e pcm := (e + 1, (200, replicate 200 0));
  opus_decode d payload := (d + 1, (2, [100; -3]));
  opus_strerror _ := "error";
  create_encoder := Ok 0;
  create_decoder := Ok 0;
  waveout_sample phase := phase
|}.
#[local] Instance demo_system : WinSystem := {| format_message _ := None; environment_variable _ := None |}.

Definition demo_world : World := mk_world (mk_handle [] [] []) [] [] [] [] [] [] 5000000000 [1000%N].
Definition demo_extractor : PcmAudioExtractor Z :=
  mk_extractor 0 (replicate kPcmFrameSize 0) (replicate (kPcmWindowFrames * kSpeakerChannels) 0)
    (replicate (kPcmWindowFrames * kSpeakerChannels) 0) kPcmWindowFrames 0 0 false false.
Definition demo_bridge : BridgeState Z Z :=
  mk_state (Some initial_status) initial_output_state demo_extractor demo_extractor 0 (mk_builder 0 0) [] None
    (replicate 256 None) (replicate kDsStateSize 0) (replicate VDS_USB_INPUT_REPORT_SIZE 0) 0
    (fun _ => 0) (fun _ => 0)
    (fun f => match f with audio_jitter_buffering | speaker_waveout_selected => true | _ => false end).

Lemma demo_silent : is_ok (make_silent_audio_chunk (Encoder := Z) (Dec := Z)) = true.
Proof. vm_cast_no_check (eq_refl true). Qed.
Lemma demo_new_ok : new_bridge_state (Some initial_status) = Ok demo_bridge.
Proof.
  pose proof demo_silent as Hs. unfold new_bridge_state. destruct make_silent_audio_chunk as [c|e]; [|discriminate].
  reflexivity.
Qed.
Lemma demo_codec_ok : opus_encode_ok (opus_encode (Codecs := demo_codecs)).
Proof. intros e pcm. split_and!; [done|by apply Forall_replicate|done]. Qed.
Lemma demo_bridge_ok : bridge_ok tuning_from_environment demo_bridge.
Proof. apply (new_state_ok (H := demo_codecs) _ eq_refl (Some initial_status)); [apply demo_new_ok|]. by intros w [= <-]. Qed.

Lemma worker_keeps_invariant_witness :
  let s1 := run send_initial_bluetooth_reports (demo_bridge, demo_world) in
  Forall packet_ok (bt_sent s1.1.2) /\ bridge_ok tuning_from_environment s1.1.1.
Proof.
  destruct (run send_initial_bluetooth_reports (demo_bridge, demo_world)) as [[s1 w1] r] eqn:E.
  apply (worker_keeps_invariant (Some initial_status) demo_bridge s1 demo_world w1 r (worker_start (s1, w1)));
    [apply demo_codec_ok|done|apply demo_new_ok|by intros w [= <-]|done|by apply Forall_nil|by apply Forall_nil|exact E|].
  apply rtc_refl.
Defined.

(** A write and a read that are cut in two. *)
Definition in_two (n : nat) : list overlapped := [completes n; completes 100].
Lemma handle_frame_roundtrip_witness :
  exists frame left1 left2,
    write_handle_frame false 3 [7; 8] "virtual" (mk_handle (in_two 5) [] [])
      = (mk_handle left1 [] ([] ++ frame), Ok tt) /\
    read_handle_frame false "virtual" (mk_handle (in_two 1) (frame ++ [9]) [])
      = (mk_handle left2 [9] [], Ok (mk_header 3 0 2 0, [7; 8])).
Proof.
  apply (handle_frame_roundtrip false 3 [7; 8] "virtual" "virtual" (in_two 5) (in_two 1) [] [9] [] []); [done|..].
  - repeat constructor; by eexists.
  - repeat constructor; by eexists.
Defined.

Definition refusing_world : World := put_bt_answers [Failed "transport closed"] demo_world.
Lemma refused_state_not_retried_witness :
  exists s1, run send_bt_state_if_changed (demo_bridge, refusing_world) = ((s1, demo_world), Ok tt) /\
    state_ (output_state s1) = state_ initial_output_state /\
    forall w2, run send_bt_state_if_changed (s1, w2) = ((s1, w2), Ok tt).
Proof.
  apply (refused_state_not_retried demo_bridge refusing_world "transport closed" []); [apply initial_ok|done|discriminate].
Defined.

Definition answering_world : World := put_feature_answers [Ok (Some [0x20; 1; 2])] demo_world.
Lemma static_reports_cached_witness :
  exists s1 w1, run (handle_feature_get_frame [0x20]) (demo_bridge, answering_world) = ((s1, w1), Ok tt) /\
    feature_gets w1 = [0x20] /\ outgoing (device w1) = reply_frame [0x20; 1; 2] /\
    forall w2, operations (device w2) = [] ->
    exists w3, run (handle_feature_get_frame [0x20]) (s1, w2) = ((s1, w3), Ok tt) /\
      feature_gets w3 = feature_gets w2 /\ outgoing (device w3) = outgoing (device w2) ++ reply_frame [0x20; 1; 2].
Proof.
  apply (static_reports_cached demo_bridge answering_world 0x20 [1; 2] []); try done; cbn; lia.
Defined.

Lemma test_result_lost_witness :
  exists s1 w1 r, run (handle_feature_set_frame [0x80; 0x06; 0x04; 0; 0; 8]) (demo_bridge, demo_world) = ((s1, w1), r) /\
    feature_sets w1 = [] /\ feature_cache s1 = replicate 256 None /\
    feature_gets (run (handle_feature_get_frame [kTestCommandResultReportId]) (s1, w1)).1.2 = [0x81].
Proof.
  apply (test_result_lost demo_bridge demo_world [0x80; 0x06; 0x04; 0; 0; 8] (6, 4, [0; 0; 8])). reflexivity.
Defined.

(** The user interface has asked for muting. *)
Definition asking_status : WorkerStatus := put_mic_mute_request 1 initial_status.
Definition asking_bridge : BridgeState Z Z := put_worker_status (Some asking_status) demo_bridge.
Lemma asking_bridge_ok : bridge_ok tuning_from_environment asking_bridge.
Proof.
  destruct demo_bridge_ok. constructor; try done. intros w [= <-]. split; cbn; lia.
Qed.
Lemma mute_request_taken_witness :
  exists s1 a, apply_input_report (replicate 64 0) (asking_bridge, demo_world) = ((s1, demo_world), Ok a) /\
    flags s1 mic_muted = true /\
    (exists ws1, worker_status s1 = Some ws1 /\ mic_mute_request ws1 = -1 /\ ws_mic_muted ws1 = true) /\
    (true <> false -> exists o r, out_ok o /\ act_mic_state a = Some r /\
       (build_bt_mic_state_report false true o).2 = Ok r).
Proof.
  apply (mute_request_taken tuning_from_environment (replicate 64 0) asking_bridge demo_world asking_status);
    [apply asking_bridge_ok|done].
Defined.

(** A stream with a chunk that is due. *)
Definition demo_chunk : AudioChunk := mk_chunk (replicate 64 1) (replicate 200 0) true true.
Definition playing_bridge : BridgeState Z Z :=
  set_time next_haptics_send_time 5000000000 (set_flag audio_jitter_buffering false
    (set_flag audio_pcm_stream_active true (set_flag audio_out_stream_active true
       (put_pending_audio_chunks [demo_chunk] demo_bridge)))).
Definition is_send (r : result flush_decision) : bool := match r with Ok (Send _ _ _ _ _) => true | _ => false end.
Lemma playing_sends : is_send (decide_flush tuning_from_environment (playing_bridge, demo_world)).2 = true.
Proof. vm_cast_no_check (eq_refl true). Qed.

Lemma audio_packets_paced_witness :
  match decide_flush tuning_from_environment (playing_bridge, demo_world) with
  | ((s1, w1), Ok (Send packet chunk concealment scheduled send_time)) =>
      let next := times (note_sent tuning_from_environment chunk concealment scheduled send_time s1) next_haptics_send_time in
      send_time = 5000001000 /\ send_time < next <= send_time + 10667000 /\
      (false = false -> 5000000000 <> 0 -> 5000000000 <= send_time /\ 5000000000 + 10667000 <= next)
  | _ => False
  end.
Proof.
  pose proof playing_sends as Hs.
  destruct (decide_flush tuning_from_environment (playing_bridge, demo_world)) as [[s1 w1] [[| |packet chunk c sch t]|e]] eqn:E;
    try discriminate.
  apply (audio_packets_paced tuning_from_environment playing_bridge s1 s1 demo_world w1 packet chunk c sch t true);
    [by intros _|exact E].
Defined.

(** A stream whose last packet was sent 30 milliseconds ago. *)
Definition drained_bridge : BridgeState Z Z :=
  set_time audio_queue_empty_since 4970000000 (put_pending_audio_chunks [] playing_bridge).
Lemma drained_bridge_ok : bridge_ok tuning_from_environment drained_bridge.
Proof. destruct demo_bridge_ok. by constructor. Qed.
Lemma drained_stream_closed_witness :
  exists s1 w1 sleep, run (flush_pending_audio_chunk tuning_from_environment) (drained_bridge, demo_world) = ((s1, w1), Ok sleep) /\
    sleep = 2000000 /\ is_closed drained_bridge s1 /\
    bt_sent w1 = [] ++ match closed_report drained_bridge with Some report => [hidp_output_packet report] | None => [] end.
Proof.
  apply (drained_stream_closed tuning_from_environment drained_bridge demo_world);
    [apply drained_bridge_ok|done..|cbn; lia].
Defined.
