(* ===== verification/WinDevices.v ===== *)
(** The controllers and the ports a Windows machine has: what
    src/src/platform/win32/vds_bt.cc makes of the HID devices and of the filter driver, and
    the look-ups of src/src/platform/win32/vdsd.cc; the driver versions of
    src/src/platform/win32/vds_win32.cc.

    What the system answers to a call is given by lists, one per kind of call; the texts it
    keeps in UTF-16 are given in UTF-8.  The line that is logged for a HID device without an
    address is not modelled.  At the end, what the plain discovery finds. *)
From stdpp Require Import base list strings numbers.
From Stdlib Require Import Ascii ZArith Lia.
From S2P Require Import Prelude Text Words Common Config ConfigFacts Supervisor Profile WinIo.

Local Open Scope Z_scope.

(** ** What the system answers *)

Inductive answer (A : Type) := Gives (a : A) | Fails (error : Z).
Arguments Gives {A} a.
Arguments Fails {A} error.

(** The structures drivers fill in, with the number of bytes they return. *)
Record DriverInfo := mk_driver_info { di_version : Z; di_size : Z; driver_version : string }.
Record PortInfo := mk_port_info { pi_version : Z; pi_size : Z; pi_flags : Z }.
Record FilterDevice := mk_filter_device { fd_profile : Z; fd_address : string; fd_flags : Z }.
Record FilterDeviceList := mk_filter_list {
  fl_version : Z;
  fl_size : Z;
  fl_count : Z;
  fl_generation : Z;
  fl_devices : list FilterDevice
}.

(** An interface of a device set: the size of its path, the path, and the instance ids of the
    device and of the devices above it, each of which may be refused. *)
Record HidInterface := mk_interface {
  required : Z;
  device_path : option string;
  instance_ids : list (option string)
}.
(** An open HID interface: vendor and product, whether its data can be parsed, and its usage
    page and usage. *)
Record HidProbe := mk_probe {
  hid_attributes : answer (Z * Z);
  hid_preparsed : bool;
  hid_caps : option (Z * Z)
}.

Record Devices := mk_devices {
  control_opens : list (option Z);    (* opening the control device of the filter: why not *)
  driver_infos : list (answer (Z * DriverInfo));
  filter_lists : list (answer (Z * FilterDeviceList));
  bluetooth_infos : list (option (string * bool));    (* [BluetoothGetDeviceInfo]: name, connected *)
  device_sets : list (answer (list HidInterface * Z));    (* the HID interfaces, the error behind the last *)
  probes : list (answer HidProbe);    (* opening a HID interface *)
  registries : list (answer (list (answer string)));    (* the names of the keys of the device class *)
  port_opens : list (option Z);    (* opening a virtual port: why not *)
  port_infos : list (answer (Z * PortInfo))
}.
Definition put_control_opens (v : list (option Z)) (s : Devices) : Devices :=
  mk_devices v (driver_infos s) (filter_lists s) (bluetooth_infos s) (device_sets s) (probes s)
    (registries s) (port_opens s) (port_infos s).
Definition put_driver_infos (v : list (answer (Z * DriverInfo))) (s : Devices) : Devices :=
  mk_devices (control_opens s) v (filter_lists s) (bluetooth_infos s) (device_sets s) (probes s)
    (registries s) (port_opens s) (port_infos s).
Definition put_filter_lists (v : list (answer (Z * FilterDeviceList))) (s : Devices) : Devices :=
  mk_devices (control_opens s) (driver_infos s) v (bluetooth_infos s) (device_sets s) (probes s)
    (registries s) (port_opens s) (port_infos s).
Definition put_bluetooth_infos (v : list (option (string * bool))) (s : Devices) : Devices :=
  mk_devices (control_opens s) (driver_infos s) (filter_lists s) v (device_sets s) (probes s)
    (registries s) (port_opens s) (port_infos s).
Definition put_device_sets (v : list (answer (list HidInterface * Z))) (s : Devices) : Devices :=
  mk_devices (control_opens s) (driver_infos s) (filter_lists s) (bluetooth_infos s) v (probes
    s) (registries s) (port_opens s) (port_infos s).
Definition put_probes (v : list (answer HidProbe)) (s : Devices) : Devices :=
  mk_devices (control_opens s) (driver_infos s) (filter_lists s) (bluetooth_infos s)
    (device_sets s) v (registries s) (port_opens s) (port_infos s).
Definition put_registries (v : list (answer (list (answer string)))) (s : Devices) : Devices :=
  mk_devices (control_opens s) (driver_infos s) (filter_lists s) (bluetooth_infos s)
    (device_sets s) (probes s) v (port_opens s) (port_infos s).
Definition put_port_opens (v : list (option Z)) (s : Devices) : Devices :=
  mk_devices (control_opens s) (driver_infos s) (filter_lists s) (bluetooth_infos s)
    (device_sets s) (probes s) (registries s) v (port_infos s).
Definition put_port_infos (v : list (answer (Z * PortInfo))) (s : Devices) : Devices :=
  mk_devices (control_opens s) (driver_infos s) (filter_lists s) (bluetooth_infos s)
    (device_sets s) (probes s) (registries s) (port_opens s) v.

(** The next answer; the system goes on with [last] when the list is over. *)
Definition ask {S A} (get : S -> list A) (put : list A -> S -> S) (last : A) : prog S A :=
  fun s => (put (tail (get s)) s, Ok (default last (head (get s)))).

Definition ERROR_FILE_NOT_FOUND : Z := 2.
Definition ERROR_PATH_NOT_FOUND : Z := 3.
Definition ERROR_NO_MORE_ITEMS : Z := 259.
Definition not_there {A} : answer A := Fails ERROR_FILE_NOT_FOUND.

(** ** Texts and addresses *)

Fixpoint str_filter (P : ascii -> bool) (text : string) : string :=
  match text with
  | EmptyString => ""
  | String c rest => if P c then String c (str_filter P rest) else str_filter P rest
  end.

Definition lowercase_ascii (text : string) : string := str_map tolower text.
Definition compact_bluetooth_address (a : string) : string := str_map tolower (str_filter isxdigit a).
Definition is_compact_bluetooth_address (a : string) : bool :=
  (String.length a =? 12)%nat && str_forall isxdigit a.

Fixpoint colon_pairs (compact : string) : string :=
  match compact with
  | String a (String b EmptyString) => compact
  | String a (String b rest) => String a (String b (String ":" (colon_pairs rest)))
  | _ => compact
  end.
Definition colon_bluetooth_address (compact : string) : string :=
  if is_compact_bluetooth_address compact then colon_pairs compact else compact.

Fixpoint colon_shape (a : string) (index : nat) : bool :=
  match a with
  | EmptyString => true
  | String c rest =>
      (if is_separator_index index then bool_decide (c = ":"%char) else isxdigit c)
      && colon_shape rest (S index)
  end.
Definition is_colon_bluetooth_address (a : string) : bool :=
  (String.length a =? 17)%nat && colon_shape a 0.
Definition is_bluetooth_address (a : string) : bool :=
  is_compact_bluetooth_address a || is_colon_bluetooth_address a.

(** A value of twelve hexadecimal digits; the model has no use for the number itself. *)
Fixpoint hex_pairs (compact : string) (value : Z) : option Z :=
  match compact with
  | String a (String b rest) =>
      match hex_nibble a, hex_nibble b with
      | Some high, Some low =>
          hex_pairs rest (Z.lor (u64 (Z.shiftl value 8)) (Z.lor (Z.shiftl high 4) low))
      | _, _ => None
      end
  | _ => Some value
  end.
Definition bluetooth_address_to_u64 (a : string) : option Z :=
  let compact := compact_bluetooth_address a in
  if negb (String.length compact =? 12)%nat then None else hex_pairs compact 0.

Definition default_bluetooth_device_name (p : Z) : string :=
  if p =? VDS_PROFILE_DSE then "DualSense Edge Wireless Controller" else "DualSense Wireless Controller".

Definition device_path_from_device_class_key_name (key_name : string) : option string :=
  match strip_prefix "##?#" key_name with Some rest => Some ("\\?\" +:+ rest) | None => None end.

(** What is behind the last occurrence of [marker]. *)
Fixpoint after_last (marker text : string) : option string :=
  match text with
  | EmptyString => strip_prefix marker ""
  | String c rest =>
      match after_last marker rest with Some r => Some r | None => strip_prefix marker text end
  end.
(** And the first. *)
Fixpoint after_first (marker text : string) : option string :=
  match strip_prefix marker text with
  | Some r => Some r
  | None => match text with EmptyString => None | String _ rest => after_first marker rest end
  end.

(** [text.substr(0, 12)], when it is an address. *)
Definition address_at (text : string) : option string :=
  if (String.length text <? 12)%nat then None
  else let candidate := String.substring 0 12 text in
       if is_compact_bluetooth_address candidate then Some candidate else None.

Definition extract_bluetooth_address_from_hid_path (path : string) : option string :=
  rest ← after_last "&0&" (lowercase_ascii path); address_at rest.

(** The occurrences of a marker, one after the other. *)
Fixpoint address_behind (fuel : nat) (marker text : string) : option string :=
  match fuel with
  | O => None
  | S more =>
      match after_first marker text with
      | None => None
      | Some rest =>
          match address_at rest with Some a => Some a | None => address_behind more marker rest end
      end
  end.
Definition first_some {A B} (f : A -> option B) (l : list A) : option B :=
  foldr (fun x r => match f x with Some b => Some b | None => r end) None l.
Definition markers : list string := ["&c&"; "&0&"; "dev_"].
Definition address_of_instance (id : option string) : option string :=
  id ← id;
  let id_lower := lowercase_ascii id in
  first_some (fun marker => address_behind (S (String.length id_lower)) marker id_lower) markers.
(** [CM_Get_Parent] is asked at most six times. *)
Definition extract_bluetooth_address_from_devinst (ids : list (option string)) : option string :=
  first_some address_of_instance (take 6 ids).

Fixpoint until_nul (text : string) : string :=
  match text with
  | String c rest => if decide (c = "000"%char) then "" else String c (until_nul rest)
  | EmptyString => ""
  end.
Definition address_from_filter_info (info : FilterDevice) : string := until_nul (fd_address info).

(** ** Discovery *)

Definition kVdsFilterControlPath : string := "\\.\vds_filter".
Definition kBtHidServiceUuid : string := "00001124-0000-1000-8000-00805f9b34fb".
Definition VDS_FILTER_MAX_DEVICES : Z := 8.
Definition VDS_FILTER_DEVICE_LIST_VERSION : Z := 1.
Definition filter_device_list_size : Z := 16 + VDS_FILTER_MAX_DEVICES * 24.
Definition VDS_FILTER_DEVICE_REPORT_TARGET : Z := Z.shiftl 1 1.
Definition VDS_FILTER_DEVICE_ACCESS_RESTRICTED : Z := Z.shiftl 1 2.
Definition VDS_DRIVER_INFO_VERSION : Z := 1.
Definition VDS_DRIVER_VERSION_MAX : nat := 64.
Definition driver_info_size : Z := 8 + 64.

Record HidBluetoothDevice := mk_hid_device {
  path : string;
  hd_address : string;
  name : string;
  hd_profile : Z;
  profile_valid : bool;
  filter_backed : bool;
  bluetooth_connected : bool;
  report_target : bool;
  access_restricted : bool
}.
Record HidBluetoothDeviceSnapshot := mk_snapshot {
  generation : Z;
  devices : list HidBluetoothDevice
}.

Section Discovery.
Context `{WinSystem}.

Definition open_filter_control_handle : prog Devices bool :=
  error ← ask control_opens put_control_opens (Some ERROR_FILE_NOT_FOUND);
  match error with
  | None => mret true
  | Some e =>
      if (e =? ERROR_FILE_NOT_FOUND) || (e =? ERROR_PATH_NOT_FOUND) then mret false
      else throw ("failed to open " +:+ kVdsFilterControlPath +:+ ": " +:+ win32_error_message e)
  end.
Definition filter_provider_available : prog Devices bool := open_filter_control_handle.

Definition query_vds_driver_version : prog Devices string :=
  reply ← ask driver_infos put_driver_infos not_there;
  match reply with
  | Fails e => throw ("driver version query failed: " +:+ win32_error_message e)
  | Gives (bytes_returned, info) =>
      if negb (bytes_returned =? driver_info_size) || negb (di_version info =? VDS_DRIVER_INFO_VERSION)
         || negb (di_size info =? driver_info_size)
         || bool_decide (String.get 0 (driver_version info) = Some "000"%char)
         || negb (bool_decide (String.get (VDS_DRIVER_VERSION_MAX - 1) (driver_version info) = Some "000"%char))
      then throw "invalid driver version reply"
      else mret (until_nul (driver_version info))
  end.
Definition filter_driver_version : prog Devices string :=
  handle ← open_filter_control_handle;
  if handle : bool then query_vds_driver_version else throw "vds_filter control device is unavailable".

(** The name of a device, and whether it is connected. *)
Definition query_bluetooth_device_info (a : string) : prog Devices (option (string * bool)) :=
  match bluetooth_address_to_u64 a with
  | None => mret None
  | Some _ => ask bluetooth_infos put_bluetooth_infos None
  end.

(** The device of an address: the name Windows knows, or a default one. *)
Definition named_device (a : string) (p : Z) (filter : bool) (target restricted : bool) :
    prog Devices HidBluetoothDevice :=
  info ← query_bluetooth_device_info a;
  let name := from_option fst "" info in
  mret (mk_hid_device a a (if decide (name = "") then default_bluetooth_device_name p else name)
          p true filter (from_option snd false info) target restricted).

Definition filter_device (info : FilterDevice) : prog Devices HidBluetoothDevice :=
  named_device (address_from_filter_info info) (fd_profile info) true
    (negb (Z.land (fd_flags info) VDS_FILTER_DEVICE_REPORT_TARGET =? 0))
    (negb (Z.land (fd_flags info) VDS_FILTER_DEVICE_ACCESS_RESTRICTED =? 0)).

(** A [for] loop that collects what its rounds give. *)
Fixpoint collect {S A B} (f : A -> prog S (option B)) (l : list A) : prog S (list B) :=
  match l with
  | [] => mret []
  | x :: rest => r ← f x; bs ← collect f rest; mret (match r with Some b => b :: bs | None => bs end)
  end.

Definition list_filter_bluetooth_device_snapshot : prog Devices HidBluetoothDeviceSnapshot :=
  handle ← open_filter_control_handle;
  if negb handle then mret (mk_snapshot 0 [])
  else
    reply ← ask filter_lists put_filter_lists not_there;
    match reply with
    | Fails e => throw ("failed to query " +:+ kVdsFilterControlPath +:+ ": " +:+ win32_error_message e)
    | Gives (bytes_returned, l) =>
        if negb (bytes_returned =? filter_device_list_size)
           || negb (fl_version l =? VDS_FILTER_DEVICE_LIST_VERSION)
           || negb (fl_size l =? filter_device_list_size)
        then throw "invalid vds_filter device list reply"
        else
          let count := Z.min (fl_count l) VDS_FILTER_MAX_DEVICES in
          ds ← collect (fun info => d ← filter_device info; mret (Some d))
                 (take (Z.to_nat count) (fl_devices l));
          mret (mk_snapshot (fl_generation l) ds)
    end.
Definition list_filter_bluetooth_devices : prog Devices (list HidBluetoothDevice) :=
  snapshot ← list_filter_bluetooth_device_snapshot; mret (devices snapshot).

Definition find_filter_bluetooth_device (a : string) : prog Devices (option HidBluetoothDevice) :=
  if negb (is_bluetooth_address a) then mret None
  else
    let address_filter := compact_bluetooth_address a in
    ds ← list_filter_bluetooth_devices;
    mret (snd <$> list_find (fun d =>
            filter_backed d && report_target d && access_restricted d
            && bool_decide (compact_bluetooth_address (hd_address d) = address_filter) = true) ds).

(** *** Plain HID *)

Definition hid_device_path_matches (p address_filter : string) (require_bluetooth_path_metadata : bool) :
    prog Devices (option string) :=
  let lower_path := lowercase_ascii p in
  if require_bluetooth_path_metadata && negb (contains kBtHidServiceUuid lower_path) then mret None
  else
    probe ← ask probes put_probes not_there;
    match probe with
    | Fails _ => mret None
    | Gives probe =>
        match hid_attributes probe with
        | Fails _ => mret None
        | Gives (vendor, product) =>
            if negb (vendor =? VDS_SONY_VENDOR_ID)
               || negb (product =? VDS_DS5_PRODUCT_ID) && negb (product =? VDS_DSE_PRODUCT_ID)
            then mret None
            else if negb (hid_preparsed probe) then mret None
            else if negb (bool_decide (hid_caps probe = Some (0x01, 0x05))) then mret None
            else if require_bluetooth_path_metadata && negb (bool_decide (address_filter = ""))
                    && negb (contains address_filter lower_path) then mret None
            else mret (Some p)
        end
    end.

(** The interfaces whose path can be had, then the error that ends them. *)
Definition hid_interfaces : prog Devices (list HidInterface * Z) :=
  set ← ask device_sets put_device_sets not_there;
  match set with
  | Fails e => throw ("SetupDiGetClassDevs(HID) failed: " +:+ win32_error_message e)
  | Gives set => mret set
  end.
Definition end_of_interfaces (error : Z) : result unit :=
  if error =? ERROR_NO_MORE_ITEMS then Ok tt
  else Throw ("SetupDiEnumDeviceInterfaces(HID) failed: " +:+ win32_error_message error).

Definition detail_path (i : HidInterface) : option string :=
  if required i =? 0 then None else device_path i.

Definition find_hid_bluetooth_device_path (a : string) : prog Devices string :=
  let address_filter := compact_bluetooth_address a in
  found ← (if decide (address_filter = "") then mret None
           else hid_device_path_matches ("\\.\vds_filter_" +:+ address_filter) "" false);
  match found with
  | Some p => mret p
  | None =>
      set ← hid_interfaces;
      matches ← collect (fun i => match detail_path i with
                                  | None => mret None
                                  | Some p => hid_device_path_matches p "" true
                                  end) set.1;
      _ ← lift (end_of_interfaces set.2);
      match matches with
      | [] => throw ("no DualSense HID interface found for address=" +:+ a)
      | [p] => mret p
      | _ => throw ("multiple DualSense HID interfaces found and no address-specific "
                    +:+ "vds_filter path was usable")
      end
  end.

(** One interface of the plain discovery. *)
Definition hid_device (i : HidInterface) : prog Devices (option HidBluetoothDevice) :=
  match detail_path i with
  | None => mret None
  | Some p =>
      matched ← hid_device_path_matches p "" true;
      match matched with
      | None => mret None
      | Some _ =>
          probe ← ask probes put_probes not_there;
          match probe with
          | Fails _ => mret None
          | Gives probe =>
              match hid_attributes probe with
              | Fails _ => mret None
              | Gives (_, product) =>
                  let found := match extract_bluetooth_address_from_hid_path p with
                               | Some a => Some a
                               | None => extract_bluetooth_address_from_devinst (instance_ids i)
                               end in
                  match found with
                  | None => mret None
                  | Some a =>
                      let a := colon_bluetooth_address a in
                      let p := if product =? VDS_DSE_PRODUCT_ID then VDS_PROFILE_DSE else VDS_PROFILE_DS5 in
                      d ← named_device a p false true false;
                      mret (Some d)
                  end
              end
          end
      end
  end.
Definition list_hid_bluetooth_devices : prog Devices (list HidBluetoothDevice) :=
  set ← hid_interfaces;
  ds ← collect hid_device set.1;
  _ ← lift (end_of_interfaces set.2);
  mret ds.

(** *** Diagnostics of a look-up *)

Definition describe_direct_hid_path : prog Devices string :=
  probe ← ask probes put_probes not_there;
  mret (match probe with
        | Fails e => "open=" +:+ win32_error_message e
        | Gives probe =>
            match hid_attributes probe with
            | Fails e => "attrs=" +:+ win32_error_message e
            | Gives (vendor, product) => "attrs vid=" +:+ hex_u16 vendor +:+ " pid=" +:+ hex_u16 product
            end
        end).

Definition is_candidate_key (lower : string) : bool :=
  contains kBtHidServiceUuid lower && contains "0002054c" lower
  && (contains "0df2" lower || contains "0ce6" lower).

(** The loop over the keys; four candidates are described. *)
Fixpoint describe_keys (keys : list (answer string)) (address_filter : string) (candidates reported : Z)
    (text : string) : prog Devices (string * Z) :=
  match keys with
  | [] => mret (text, candidates)
  | Fails _ :: rest => describe_keys rest address_filter candidates reported text
  | Gives key_name :: rest =>
      let lower := lowercase_ascii key_name in
      if negb (is_candidate_key lower) then describe_keys rest address_filter candidates reported text
      else if 4 <=? reported then describe_keys rest address_filter (candidates + 1) reported text
      else
        let text := text +:+ " registry_candidate=" +:+ lower in
        let text := text +:+ (if negb (bool_decide (address_filter = ""))
                                 && negb (contains address_filter lower)
                              then " address=no" else " address=yes") in
        text ← (match device_path_from_device_class_key_name key_name with
                | None => mret text
                | Some _ => d ← describe_direct_hid_path; mret (text +:+ " " +:+ d)
                end);
        describe_keys rest address_filter (candidates + 1) (reported + 1) text
  end.
Definition append_registry_lookup_diagnostics (text address_filter : string) : prog Devices string :=
  keys ← ask registries put_registries not_there;
  match keys with
  | Fails e => mret (text +:+ " registry=open " +:+ win32_error_message e)
  | Gives keys =>
      r ← describe_keys keys address_filter 0 0 text;
      mret (r.1 +:+ " registry_candidate_count=" +:+ to_string r.2)
  end.

Definition yes_no (b : bool) : string := if b then "yes" else "no".
Definition describe_device (d : HidBluetoothDevice) : string :=
  " filter_device=" +:+ hd_address d +:+ " path=" +:+ path d
  +:+ " connected=" +:+ yes_no (bluetooth_connected d)
  +:+ " report_target=" +:+ yes_no (report_target d)
  +:+ " access_restricted=" +:+ yes_no (access_restricted d)
  +:+ " profile=" +:+ (if profile_valid d then usb_profile_name (hd_profile d) else "unknown")
  +:+ (if filter_backed d then " backend=hidclass" else " backend=hid").
Definition describe_bluetooth_lookup (a : string) : prog Devices string :=
  let valid_address := is_bluetooth_address a in
  let address_filter := if valid_address then compact_bluetooth_address a else "" in
  let text := "lookup address=" +:+ a
              +:+ (if valid_address then " address_type=valid" else " address_type=invalid") in
  text ← try_catch
    (ds ← list_filter_bluetooth_devices;
     mret (text +:+ " filter_count=" +:+ to_string (Z.of_nat (length ds))
           +:+ foldr (fun d more => describe_device d +:+ more) "" ds))
    (fun e => mret (text +:+ " filter_error=" +:+ e));
  append_registry_lookup_diagnostics text address_filter.

(** *** The devices of the daemon *)

(** [list_filter_bluetooth_devices()] when the filter is there, plain HID otherwise. *)
Definition discovered_devices : prog Devices (list HidBluetoothDevice) :=
  available ← filter_provider_available;
  if available : bool then list_filter_bluetooth_devices else list_hid_bluetooth_devices.

(** Why the device with the address is not used. *)
Definition failure_of (a : string) (d : HidBluetoothDevice) : string :=
  if negb (bluetooth_connected d) then "Windows Bluetooth reports address=" +:+ a +:+ " connected=no"
  else if report_target d && negb (access_restricted d) then
    "vds_filter sees Bluetooth HID report target for address=" +:+ a
    +:+ " but physical HID access is not restricted"
  else "vds_filter sees Bluetooth service for address=" +:+ a +:+ " but no HID report target is present".

(** The first device with the address decides. *)
Fixpoint device_with_address (a : string) (ds : list HidBluetoothDevice) :
    result (option HidBluetoothDevice) :=
  match ds with
  | [] => Ok None
  | d :: rest =>
      normalized ← normalize_bluetooth_address (hd_address d);
      if decide (normalized = a) then Ok (Some d) else device_with_address a rest
  end.
Definition usable (d : HidBluetoothDevice) : bool :=
  filter_backed d && report_target d && access_restricted d || negb (filter_backed d) && report_target d.

(** The device, or the reason. *)
Definition find_connected_bluetooth_device (a : string) (ds : list HidBluetoothDevice) :
    prog Devices (HidBluetoothDevice + string) :=
  found ← lift (device_with_address a ds);
  match found with
  | Some d => mret (if usable d then inl d else inr (failure_of a d))
  | None =>
      d ← describe_bluetooth_lookup a;
      mret (inr ("vds_filter did not report a connected Bluetooth HID device for address="
                 +:+ a +:+ "; " +:+ d))
  end.
(** The overload that lists the devices itself. *)
Definition look_up_bluetooth_device (a : string) : prog Devices (HidBluetoothDevice + string) :=
  try_catch (ds ← discovered_devices; find_connected_bluetooth_device a ds)
    (fun e => mret (inr ("Bluetooth device lookup failed: " +:+ e))).

Fixpoint controller_targets (ds : list HidBluetoothDevice) : result (list ControllerTarget) :=
  match ds with
  | [] => Ok []
  | d :: rest =>
      if negb (profile_valid d) || bool_decide (hd_address d = "") then controller_targets rest
      else
        a ← normalize_bluetooth_address (hd_address d);
        targets ← controller_targets rest;
        Ok (mk_target a (name d) (if hd_profile d =? VDS_PROFILE_DSE then Dse else Ds5)
              (bluetooth_connected d) :: targets)
  end.
Definition list_windows_controller_targets : prog Devices (list ControllerTarget) :=
  ds ← discovered_devices; lift (controller_targets ds).

(** The path and the label of the transport that is made for an address. *)
Definition make_filter_bluetooth_transport (a : string) : prog Devices (string * string) :=
  device ← find_filter_bluetooth_device a;
  match device with
  | Some d => p ← find_hid_bluetooth_device_path (hd_address d); mret (p, hd_address d)
  | None =>
      try_catch (p ← find_hid_bluetooth_device_path a; mret (p, a))
        (fun e => throw ("no matching Windows Bluetooth transport (filter unavailable, "
                         +:+ "plain-HID fallback also failed: " +:+ e +:+ ")"))
  end.

Definition resolve_virtual_port_profile (config : ControllerConfig) : prog Devices Z :=
  if decide (profile config <> Unspecified) then lift (usb_profile_from_controller_profile (profile config))
  else
    found ← look_up_bluetooth_device (address config);
    match found with
    | inr reason => throw ("failed to detect Bluetooth controller profile: "
                           +:+ (if decide (reason = "") then "no matching filter device" else reason))
    | inl d =>
        if negb (profile_valid d)
        then throw ("failed to detect Bluetooth controller profile: "
                    +:+ "Bluetooth transport did not report DS5/DSE profile")
        else mret (hd_profile d)
    end.

(** ** Virtual ports *)

Definition VDS_PORT_INFO_VERSION : Z := 2.
Definition port_info_size : Z := 28.
Definition VDS_PORT_INFO_ENABLED : Z := Z.shiftl 1 0.
Definition VDS_PORT_INFO_BOUND : Z := Z.shiftl 1 3.

Definition usbip_transport_enabled : bool :=
  negb (bool_decide (environment_variable "VDS_TRANSPORT" = Some "legacy_dev_only")).

Definition query_virtual_port_info (port : Z) : prog Devices (option PortInfo) :=
  _ ← lift (port_path_for_index Windows port);
  error ← ask port_opens put_port_opens (Some ERROR_FILE_NOT_FOUND);
  match error with
  | Some _ => mret None
  | None =>
      reply ← ask port_infos put_port_infos not_there;
      mret (match reply with
            | Fails _ => None
            | Gives (bytes_returned, info) =>
                if negb (bytes_returned =? port_info_size) || negb (pi_version info =? VDS_PORT_INFO_VERSION)
                   || negb (pi_size info =? port_info_size)
                then None else Some info
            end)
  end.

Definition query_virtual_port_driver_version (port : Z) : prog Devices string :=
  p ← lift (port_path_for_index Windows port);
  error ← ask port_opens put_port_opens (Some ERROR_FILE_NOT_FOUND);
  match error with
  | Some e => throw ("failed to open " +:+ p +:+ ": " +:+ win32_error_message e)
  | None => query_vds_driver_version
  end.

Definition virtual_port_is_enabled (port : Z) : prog Devices bool :=
  if usbip_transport_enabled then mret (port <? kMaxPortCount)
  else
    info ← query_virtual_port_info port;
    mret (match info with
          | None => false
          | Some info => negb (Z.land (pi_flags info) VDS_PORT_INFO_ENABLED =? 0)
          end).

Definition virtual_port_is_available (port : Z) : prog Devices bool :=
  if usbip_transport_enabled then mret (port <? kMaxPortCount)
  else
    info ← query_virtual_port_info port;
    mret (match info with
          | None => false
          | Some info => negb (Z.land (pi_flags info) VDS_PORT_INFO_ENABLED =? 0)
                         && (Z.land (pi_flags info) VDS_PORT_INFO_BOUND =? 0)
          end).

(** The ports from 0 to [kMaxPortCount]. *)
Definition all_ports : list Z := Z.of_nat <$> seq 0 (Z.to_nat kMaxPortCount).
Definition ports_that (P : Z -> prog Devices bool) : prog Devices (list Z) :=
  collect (fun port => b ← P port; mret (if b : bool then Some port else None)) all_ports.
Definition enabled_virtual_ports : prog Devices (list Z) := ports_that virtual_port_is_enabled.
Definition available_virtual_ports : prog Devices (list Z) := ports_that virtual_port_is_available.
Definition virtual_port_provider_available : prog Devices bool :=
  ports ← enabled_virtual_ports; mret (negb (bool_decide (ports = []))).
End Discovery.


(** ** The text of an address *)

Definition is_lower (c : ascii) : bool := bool_decide (tolower c = c).

Lemma substring_forall P n m text :
  str_forall P text = true -> str_forall P (String.substring n m text) = true.
Proof.
  revert n m. induction text as [|c text IH]; intros [|n] [|m]; cbn; try done.
  - intros [-> H]%andb_true_iff. by apply IH.
  - intros [_ H]%andb_true_iff. by apply IH.
  - intros [_ H]%andb_true_iff. by apply IH.
Qed.
Lemma lowercase_lower text : str_forall is_lower (lowercase_ascii text) = true.
Proof.
  unfold lowercase_ascii, is_lower. induction text as [|c text IH]; [done|]. cbn. rewrite IH, andb_true_r.
  by rewrite tolower_idem, bool_decide_eq_true_2.
Qed.
Lemma suffix_forall P p text r : str_forall P text = true -> strip_prefix p text = Some r -> str_forall P r = true.
Proof. intros Ht ->%strip_prefix_Some. rewrite str_forall_app in Ht. by apply andb_true_iff in Ht as [_ ?]. Qed.
Lemma after_last_forall P m text r : str_forall P text = true -> after_last m text = Some r -> str_forall P r = true.
Proof.
  induction text as [|c text IH]; cbn [after_last]; [apply suffix_forall|]. intros Ht. pose proof Ht as Ht'.
  cbn in Ht'. apply andb_true_iff in Ht' as [_ H']. destruct (after_last m text); [|by apply suffix_forall].
  intros [= <-]. by apply IH.
Qed.
Lemma after_first_forall P m text r : str_forall P text = true -> after_first m text = Some r -> str_forall P r = true.
Proof.
  induction text as [|c text IH]; intros Ht; pose proof (suffix_forall P m _ r Ht) as Hs; cbn [after_first].
  - destruct (strip_prefix m ""); [exact Hs|done].
  - destruct (strip_prefix m (String c text)); [exact Hs|]. cbn in Ht. apply andb_true_iff in Ht as [_ ?]. by apply IH.
Qed.

(** The compact form of an address of the database. *)
Definition compact_ok (a : string) : Prop := is_compact_bluetooth_address a = true /\ str_forall is_lower a = true.

Lemma address_at_ok text a : str_forall is_lower text = true -> address_at text = Some a -> compact_ok a.
Proof.
  unfold address_at. intros Ht. destruct (_ <? _)%nat; [done|]. destruct (is_compact_bluetooth_address _) eqn:E; [|done].
  intros [= <-]. split; [done|]. by apply substring_forall.
Qed.
Lemma address_behind_ok fuel m text a :
  str_forall is_lower text = true -> address_behind fuel m text = Some a -> compact_ok a.
Proof.
  revert text. induction fuel as [|fuel IH]; intros text Ht; cbn; [done|].
  destruct (after_first m text) as [rest|] eqn:E; [|done]. pose proof (after_first_forall _ _ _ _ Ht E) as Hr.
  destruct (address_at rest) as [b|] eqn:Eb; [|by apply IH]. intros [= <-]. by eapply address_at_ok.
Qed.
Lemma first_some_Some {A B} (f : A -> option B) l b : first_some f l = Some b -> exists x, x ∈ l /\ f x = Some b.
Proof.
  induction l as [|x l IH]; [done|]. cbn. destruct (f x) as [b'|] eqn:E.
  - intros [= <-]. exists x. split; [apply list_elem_of_here|done].
  - intros (y & Hy & Hf)%IH. exists y. split; [by apply list_elem_of_further|done].
Qed.

Lemma hid_path_address_ok p a : extract_bluetooth_address_from_hid_path p = Some a -> compact_ok a.
Proof.
  unfold extract_bluetooth_address_from_hid_path. destruct (after_last _ _) as [rest|] eqn:E; [|done]. cbn.
  apply address_at_ok. by eapply after_last_forall, E; apply lowercase_lower.
Qed.
Lemma devinst_address_ok ids a : extract_bluetooth_address_from_devinst ids = Some a -> compact_ok a.
Proof.
  intros (id & _ & Hf)%first_some_Some. unfold address_of_instance in Hf. destruct id as [id|]; [|done]. unfold mbind, option_bind in Hf. cbv zeta in Hf.
  apply (first_some_Some _ markers) in Hf as (m & _ & Hf). eapply address_behind_ok; [|exact Hf]. apply lowercase_lower.
Qed.

(** With its colons it is the address the database keeps. *)
Lemma colon_canonical a : compact_ok a -> canonical (colon_bluetooth_address a).
Proof.
  intros [Hc Hl]. unfold colon_bluetooth_address. rewrite Hc. unfold is_compact_bluetooth_address in Hc.
  apply andb_true_iff in Hc as [Hn%Nat.eqb_eq Hx].
  do 12 (destruct a as [|? a]; [done|]). destruct a as [|? a]; [clear Hn|done]. cbn in Hl, Hx. unfold is_lower in Hl.
  repeat match goal with
  | H : _ && _ = true |- _ => apply andb_true_iff in H as [? ?]
  | H : bool_decide _ = true |- _ => apply bool_decide_eq_true in H
  end.
  unfold canonical. rewrite normalize_spec.
  match goal with |- context [colon_pairs ?x] => let y := eval cbn in (colon_pairs x) in change (colon_pairs x) with y end.
  match goal with |- context [valid_address ?x] => assert (valid_address x = true) as -> end.
  - unfold valid_address. cbn. repeat match goal with H : isxdigit _ = true |- _ => rewrite H; clear H end. done.
  - cbn. repeat match goal with H : tolower _ = _ |- _ => rewrite H; clear H end. done.
Qed.

(** ** The devices *)

Section Discovery.
Context `{WinSystem}.

Lemma named_device_spec a p b t r s : exists s' d,
  named_device a p b t r s = (s', Ok d) /\ hd_address d = a /\ filter_backed d = b /\ report_target d = t.
Proof.
  unfold named_device, query_bluetooth_device_info. destruct (bluetooth_address_to_u64 a); by eexists _, _.
Qed.

(** What the plain discovery says of a device. *)
Definition plain_ok (d : HidBluetoothDevice) : Prop :=
  canonical (hd_address d) /\ filter_backed d = false /\ report_target d = true.

Lemma hid_device_ok i s s' d : hid_device i s = (s', Ok (Some d)) -> plain_ok d.
Proof.
  unfold hid_device. destruct (detail_path i) as [p|]; [|done]. intros (s1 & m & _ & Hr)%prog_bind_ok.
  destruct m; [|done]. apply prog_bind_ok in Hr as (s2 & probe & _ & Hr). destruct probe as [probe|]; [|done].
  destruct (hid_attributes probe) as [[v q]|]; [|done].
  destruct (match extract_bluetooth_address_from_hid_path p with Some a => Some a | None => _ end) as [a|] eqn:E; [|done].
  assert (compact_ok a) as Ha.
  { destruct (extract_bluetooth_address_from_hid_path p) as [b|] eqn:Eb; [injection E as <-; by eapply hid_path_address_ok|].
    by eapply devinst_address_ok. }
  apply prog_bind_ok in Hr as (s3 & d' & Hn & Hr). injection Hr as <- <-.
  destruct (named_device_spec (colon_bluetooth_address a)
    (if q =? VDS_DSE_PRODUCT_ID then VDS_PROFILE_DSE else VDS_PROFILE_DS5) false true false s2) as (s4 & d4 & E4 & A1 & A2 & A3).
  rewrite E4 in Hn. injection Hn as <- <-. split; [rewrite A1; by apply colon_canonical|done].
Qed.

Lemma collect_forall {S A B} (P : B -> Prop) (f : A -> prog S (option B)) l s s' bs :
  (forall x s s' b, f x s = (s', Ok (Some b)) -> P b) -> collect f l s = (s', Ok bs) -> Forall P bs.
Proof.
  intros Hf. revert s s' bs. induction l as [|x l IH]; intros s s' bs; cbn; [by intros [= _ <-]|].
  intros (s1 & r & Hr & Hc)%prog_bind_ok. apply prog_bind_ok in Hc as (s2 & cs & Hc & Hb). injection Hb as _ <-.
  apply IH in Hc. destruct r; [|done]. constructor; [by eapply Hf|done].
Qed.

Lemma list_hid_ok s s' ds : list_hid_bluetooth_devices s = (s', Ok ds) -> Forall plain_ok ds.
Proof.
  unfold list_hid_bluetooth_devices. intros (s1 & set & _ & Hr)%prog_bind_ok. apply prog_bind_ok in Hr as (s2 & ds' & Hc & Hr).
  apply prog_bind_ok in Hr as (s3 & [] & _ & Hr). injection Hr as _ <-. by eapply collect_forall in Hc; [exact Hc|apply hid_device_ok].
Qed.

(** *** Looking one up *)

Lemma describe_keys_returns keys filter n m text s : exists s' r, describe_keys keys filter n m text s = (s', Ok r).
Proof.
  revert n m text s. induction keys as [|[key|e] keys IH]; intros n m text s; cbn [describe_keys]; [by eexists _, _| |apply IH].
  destruct (negb _); [apply IH|]. destruct (4 <=? m); [apply IH|].
  unfold mbind at 1, prog_bind at 1. destruct (device_path_from_device_class_key_name key); apply IH.
Qed.
Lemma describe_lookup_returns a s : exists s' text, describe_bluetooth_lookup a s = (s', Ok text).
Proof.
  unfold describe_bluetooth_lookup. unfold mbind at 1, prog_bind at 1.
  assert (forall (m : prog Devices string) h s, (forall e, exists t, h e = mret t) -> exists s' t, try_catch m h s = (s', Ok t)) as Hc.
  { intros m h s0 Hh. unfold try_catch. destruct (m s0) as [s1 [t|e]]; [by eexists _, _|]. destruct (Hh e) as [t ->]. by eexists _, _. }
  match goal with |- context [try_catch ?m ?h s] => destruct (Hc m h s ltac:(by eexists)) as (s1 & t & ->) end.
  unfold append_registry_lookup_diagnostics, ask, mbind, prog_bind, mret, prog_ret.
  destruct (default not_there (head (registries s1))) as [keys|e]; [|by eexists _, _].
  match goal with |- context [describe_keys ?k ?f ?n ?m ?t ?s] => destruct (describe_keys_returns k f n m t s) as (s2 & r & ->) end.
  by eexists _, _.
Qed.

Lemma device_with_address_spec a ds :
  Forall plain_ok ds ->
  match device_with_address a ds with
  | Ok (Some d) => d ∈ ds /\ hd_address d = a
  | Ok None => a ∉ hd_address <$> ds
  | Throw _ => False
  end.
Proof.
  intros Hd. induction Hd as [|d ds [Hc _] Hd IH]; cbn [device_with_address]; [by intros ?%elem_of_nil|].
  unfold canonical in Hc. rewrite Hc. cbn. case_decide as E; [by split; [apply list_elem_of_here|]|].
  destruct (device_with_address a ds) as [[d'|]|]; [destruct IH; by split; [apply list_elem_of_further|]| |done].
  rewrite not_elem_of_cons. split; [congruence|done].
Qed.

(**  Every device the plain discovery lists has its address in the form the database keeps it
    in; so the look-up of an address among them never throws, gives the device with that address
    when there is one, and a reason exactly when there is none. *)
Theorem plain_discovery_lookup (s s' : Devices) (ds : list HidBluetoothDevice) :
  list_hid_bluetooth_devices s = (s', Ok ds) ->
  Forall (fun d => canonical (hd_address d) /\ usable d = true) ds /\
  forall (a : string) (s1 : Devices),
    match (find_connected_bluetooth_device a ds s1).2 with
    | Ok (inl d) => d ∈ ds /\ hd_address d = a
    | Ok (inr _) => a ∉ hd_address <$> ds
    | Throw _ => False
    end.
Proof.
  intros Hd%list_hid_ok. split.
  { revert Hd. apply Forall_impl. intros d (Hc & Hb & Ht). split; [done|]. unfold usable. by rewrite Hb, Ht. }
  intros a s1. pose proof (device_with_address_spec a ds Hd) as Hs. unfold find_connected_bluetooth_device, lift, mbind, prog_bind.
  destruct (device_with_address a ds) as [[d|]|]; [| |done].
  - destruct Hs as [Hin Ha]. rewrite Forall_forall in Hd. pose proof Hin as Hin'%list_elem_of_In. destruct (Hd d Hin') as (_ & Hb & Ht).
    unfold usable. by rewrite Hb, Ht.
  - by destruct (describe_lookup_returns a s1) as (s2 & t & ->).
Qed.
End Discovery.

(** ** Witness *)

Definition two_pads : Devices :=
  let hid := "\\?\hid#{00001124-0000-1000-8000-00805F9B34FB}_vid&0002054c_pid&0ce6#7&1" in
  mk_devices [] [] [] [Some ("Pad", true); None]
    [Gives ([mk_interface 100 (Some (hid +:+ "&0&AABBCCDDEE0F#x")) [];
             mk_interface 0 None [];
             mk_interface 100 (Some hid) [Some "HID\x"; Some "BTHENUM\DEV_0011223344FF&0&c"]], 259)]
    (replicate 4 (Gives (mk_probe (Gives (0x054c, 0x0ce6)) true (Some (1, 5))))) [] [] [].

Lemma plain_discovery_lookup_witness :
  let H := {| format_message _ := None; environment_variable _ := None |} in
  exists s' ds, list_hid_bluetooth_devices two_pads = (s', Ok ds) /\
    hd_address <$> ds = ["aa:bb:cc:dd:ee:0f"; "00:11:22:33:44:ff"] /\
    Forall (fun d => canonical (hd_address d) /\ usable d = true) ds.
Proof.
  intros H. assert (exists s' ds, list_hid_bluetooth_devices two_pads = (s', Ok ds) /\
    hd_address <$> ds = ["aa:bb:cc:dd:ee:0f"; "00:11:22:33:44:ff"]) as (s' & ds & Hl & Ha).
  { eexists _, _. split; vm_compute; reflexivity. }
  exists s', ds. split; [exact Hl|]. split; [exact Ha|]. exact (proj1 (plain_discovery_lookup two_pads s' ds Hl)).
Defined.
