(* ===== verification/WinTransport.v ===== *)
(** The Windows Bluetooth transport, class [HidBluetoothTransport]
    (src/src/platform/win32/vds_bt.cc): the lengths of reports, feature reports, reading
    input reports with reconnects, and the queue of output reports.

    What the HID driver answers is given by lists in the state or by arguments, arbitrary
    in every theorem.  The thread that empties the queue is in WinWriter.v. *)
From stdpp Require Import base list strings numbers gmap.
From Stdlib Require Import Ascii ZArith Lia.
From S2P Require Import Prelude Text Words Checksum BtPacket WinIo WinDevices.

Local Open Scope Z_scope.

Definition kMaxPendingHidOutputWrites : nat := 64.
Definition kMaxQueuedHidAudioOutputWrites : nat := 4.
Definition kHidInputReadStallTimeoutMs : Z := 2000.
Definition kMaxReconnectAttempts : nat := 5.
Definition kReconnectBackoffMs : Z := 150.

Definition make_bluetooth_frame (frame_type : Z) (payload : list Z) (sequence : Z) : vds_frame_header * list Z :=
  (mk_header frame_type 0 (u32 (Z.of_nat (length payload))) sequence, payload).

(** ** The lengths of reports *)

(** [HIDP_VALUE_CAPS] and [HIDP_BUTTON_CAPS], as far as they are read. *)
Record ValueCaps := mk_value_caps { vc_ReportID : Z; BitSize : Z; ReportCount : Z }.
Record ButtonCaps := mk_button_caps { bc_ReportID : Z; IsRange : bool; UsageMin : Z; UsageMax : Z }.

(** [HIDP_CAPS], with what [HidP_GetValueCaps] and [HidP_GetButtonCaps] give ([None] when
    they fail). *)
Record HidCaps := mk_hid_caps {
  InputReportByteLength : Z;
  OutputReportByteLength : Z;
  FeatureReportByteLength : Z;
  NumberFeatureValueCaps : nat;
  NumberFeatureButtonCaps : nat;
  value_caps : option (list ValueCaps);
  button_caps : option (list ButtonCaps)
}.

(** The lengths the transport keeps. *)
Record Lengths := mk_lengths {
  input_report_length_ : Z;
  output_report_length_ : Z;
  feature_report_length_ : Z;
  feature_report_lengths_ : gmap Z Z
}.

(** [report_bits[id] += bits] *)
Definition add_bits (report_bits : gmap Z Z) (id bits : Z) : gmap Z Z :=
  <[u8 id := u64 (default 0 (report_bits !! u8 id) + bits)]> report_bits.

Definition button_count (b : ButtonCaps) : Z :=
  if IsRange b then u64 (UsageMax b - UsageMin b + 1) else 1.

Definition report_bits (caps : HidCaps) : gmap Z Z :=
  let bits :=
    match value_caps caps with
    | Some vc => foldl (fun m v => add_bits m (vc_ReportID v) (BitSize v * ReportCount v)) ∅
                   (take (NumberFeatureValueCaps caps) vc)
    | None => ∅
    end in
  match button_caps caps with
  | Some bc => foldl (fun m b => add_bits m (bc_ReportID b) (button_count b)) bits
                 (take (NumberFeatureButtonCaps caps) bc)
  | None => bits
  end.

Definition bytes_of_bits (bits : Z) : Z := u16 (1 + u64 (bits + 7) / 8).

Section Transport.
Context `{WinSystem}.

(** [load_caps]; the arguments are the answers of [HidD_GetPreparsedData] and
    [HidP_GetCaps]. *)
Definition load_caps (path : string) (preparsed_error : option Z) (caps : option HidCaps) : result Lengths :=
  match preparsed_error with
  | Some e => Throw ("HidD_GetPreparsedData failed for " +:+ path +:+ ": " +:+ win32_error_message e)
  | None =>
      match caps with
      | None => Throw ("HidP_GetCaps failed for " +:+ path)
      | Some caps =>
          let lengths := mk_lengths (InputReportByteLength caps) (OutputReportByteLength caps)
                           (FeatureReportByteLength caps) (bytes_of_bits <$> report_bits caps) in
          if (input_report_length_ lengths =? 0) || (output_report_length_ lengths =? 0)
             || (feature_report_length_ lengths =? 0)
          then Throw ("HID device has incomplete report caps: " +:+ path)
          else Ok lengths
      end
  end.

(** The constructor: three handles, the second and the third like the first; two events; the
    lengths.  Then the writer starts, as [initial_sys] of WinWriter.v. *)
Definition open_handle (path : string) (error : option Z) : result unit :=
  match error with
  | Some e => Throw ("failed to open HID device " +:+ path +:+ ": " +:+ win32_error_message e)
  | None => Ok tt
  end.
Definition HidBluetoothTransport (path : string) (input_error output_error feature_error event_error : option Z)
    (preparsed_error : option Z) (caps : option HidCaps) : result Lengths :=
  _ ← open_handle path input_error;
  _ ← open_handle path output_error;
  _ ← open_handle path feature_error;
  match event_error with
  | Some e => Throw ("failed to create HID transport events: " +:+ win32_error_message e)
  | None => load_caps path preparsed_error caps
  end.

Definition feature_length_for (lengths : Lengths) (report_id : Z) : Z :=
  match feature_report_lengths_ lengths !! report_id with
  | Some n => if 0 <? n then n else feature_report_length_ lengths
  | None => feature_report_length_ lengths
  end.

Context (lengths : Lengths).

(** A buffer of [size] bytes that begins with [report]. *)
Definition padded (size : Z) (report : list Z) : list Z :=
  report ++ replicate (Z.to_nat size - length report) 0.

(** ** Feature reports *)

(** [HidD_GetFeature] overwrites the first bytes of the buffer, or fails. *)
Definition get_feature_report (reply : answer (list Z)) (report_id : Z) : result (list Z) :=
  let buffer := padded (feature_report_length_ lengths) [report_id] in
  match reply with
  | Gives bytes => Ok (take (length buffer) bytes ++ drop (length bytes) buffer)
  | Fails e => Throw ("HidD_GetFeature report=" +:+ to_string report_id +:+ " failed: "
                      +:+ win32_error_message e)
  end.

(** The state of [HidD_SetFeature]: its next answers, and the buffers it was given. *)
Record FeatureIo := mk_feature_io { set_errors : list (option Z); features_set : list (list Z) }.

Definition hid_set_feature (buffer : list Z) : prog FeatureIo (option Z) := fun s =>
  (mk_feature_io (tail (set_errors s)) (features_set s ++ [buffer]), Ok (default None (head (set_errors s)))).

Definition set_feature_report (report : list Z) : prog FeatureIo unit :=
  match report with
  | [] => throw "empty HID feature report"
  | report_id :: _ =>
      let report_len := feature_length_for lengths report_id in
      if report_len <? Z.of_nat (length report)
      then throw ("HID feature report too large: " +:+ to_string (Z.of_nat (length report)) +:+ " > "
                  +:+ to_string report_len)
      else
        buffer ← lift (fill_feature_report_checksum (padded report_len report));
        failed ← hid_set_feature buffer;
        match failed with
        | Some e => throw ("HidD_SetFeature report=" +:+ to_string (byte_at buffer 0) +:+ " failed: "
                           +:+ win32_error_message e)
        | None => mret tt
        end
  end.

(** ** Reading *)

(** One wake of [read_input_frame_once]: the read is done, the queue's event is set, the
    stop event is set, nothing for two seconds, or the wait fails. *)
Inductive read_wake :=
  | ReadDone (completion : answer (list Z))
  | QueueEvent
  | StopEvent
  | TimedOut
  | WaitBroken (error : Z).

(** What happens to one read: making the event, starting, and the wakes; with no further
    wake the wait times out. *)
Record hid_read := mk_hid_read {
  read_event_error : option Z;
  read_start_error : option Z;
  read_wakes : list read_wake
}.

Record Reader := mk_reader {
  path_ : string;
  match_label_ : string;
  queued_frames_ : list (vds_frame_header * list Z);
  queue_event_ : bool;
  sequence_ : Z;
  devices : Devices;
  hid_opens : list (option Z);
  reads : list hid_read;
  reads_started : nat;
  reopened : nat;
  slept : Z
}.

(** [path_ = new_path; handle_ = new_handle], which is counted. *)
Definition put_path (v : string) (s : Reader) : Reader :=
  mk_reader v (match_label_ s) (queued_frames_ s) (queue_event_ s) (sequence_ s) (devices s) (hid_opens s)
    (reads s) (reads_started s) (S (reopened s)) (slept s).
Definition put_queue (v : list (vds_frame_header * list Z)) (event : bool) (s : Reader) : Reader :=
  mk_reader (path_ s) (match_label_ s) v event (sequence_ s) (devices s) (hid_opens s)
    (reads s) (reads_started s) (reopened s) (slept s).
Definition put_sequence (v : Z) (s : Reader) : Reader :=
  mk_reader (path_ s) (match_label_ s) (queued_frames_ s) (queue_event_ s) v (devices s) (hid_opens s)
    (reads s) (reads_started s) (reopened s) (slept s).
Definition put_opens (v : list (option Z)) (s : Reader) : Reader :=
  mk_reader (path_ s) (match_label_ s) (queued_frames_ s) (queue_event_ s) (sequence_ s) (devices s) v
    (reads s) (reads_started s) (reopened s) (slept s).
Definition put_devices (v : Devices) (s : Reader) : Reader :=
  mk_reader (path_ s) (match_label_ s) (queued_frames_ s) (queue_event_ s) (sequence_ s) v (hid_opens s)
    (reads s) (reads_started s) (reopened s) (slept s).
Definition start_read (s : Reader) : Reader :=
  mk_reader (path_ s) (match_label_ s) (queued_frames_ s) (queue_event_ s) (sequence_ s) (devices s)
    (hid_opens s) (tail (reads s)) (S (reads_started s)) (reopened s) (slept s).
Definition Sleep (ms : Z) (s : Reader) : Reader :=
  mk_reader (path_ s) (match_label_ s) (queued_frames_ s) (queue_event_ s) (sequence_ s) (devices s)
    (hid_opens s) (reads s) (reads_started s) (reopened s) (slept s + ms).

(** The daemon's look at the machine's devices, from within the reader. *)
Definition on_devices {A} (m : prog Devices A) : prog Reader A := fun s =>
  let dr := m (devices s) in (put_devices dr.1 s, dr.2).

Definition open_hid_device (path : string) : prog Reader unit :=
  error ← ask hid_opens put_opens None;
  lift (open_handle path error).

Definition pop_queued_frame : prog Reader (option (vds_frame_header * list Z)) := fun s =>
  match queued_frames_ s with
  | [] => (put_queue [] false s, Ok None)
  | frame :: rest => (put_queue rest (if (length rest =? 0)%nat then false else queue_event_ s) s, Ok (Some frame))
  end.

Definition reopen_input_handle : prog Reader bool :=
  try_catch
    (s ← get_state;
     new_path ← on_devices (find_hid_bluetooth_device_path (match_label_ s));
     _ ← open_hid_device new_path;
     _ ← modify (put_path new_path);
     mret true)
    (fun _ => mret false).

(** The loop of [read_input_frame_once] over the wakes. *)
Fixpoint read_loop (wakes : list read_wake) : prog Reader (vds_frame_header * list Z) :=
  match wakes with
  | ReadDone (Fails e) :: _ => throw ("HID read completion failed: " +:+ win32_error_message e)
  | ReadDone (Gives bytes) :: _ =>
      s ← get_state;
      let report := take (Z.to_nat (input_report_length_ lengths)) bytes in
      if (length report =? 0)%nat then throw "HID read returned zero bytes"
      else
        let sequence := u64 (sequence_ s + 1) in
        _ ← modify (put_sequence sequence);
        mret (make_bluetooth_frame VDS_FRAME_BT_INTERRUPT_PACKET (kBtHidpInputPrefix :: report) sequence)
  | QueueEvent :: rest =>
      frame ← pop_queued_frame;
      match frame with
      | Some frame => mret frame
      | None => read_loop rest
      end
  | StopEvent :: _ => throw "HID read stopped"
  | TimedOut :: _ | [] =>
      throw ("HID read timed out after " +:+ to_string kHidInputReadStallTimeoutMs +:+ "ms")
  | WaitBroken e :: _ => throw ("HID read wait failed: " +:+ win32_error_message e)
  end.

Definition read_input_frame_once : prog Reader (vds_frame_header * list Z) :=
  s ← get_state;
  let r := default (mk_hid_read None None []) (head (reads s)) in
  _ ← modify start_read;
  match read_event_error r with
  | Some e => throw ("failed to create HID read event: " +:+ win32_error_message e)
  | None =>
      match read_start_error r with
      | Some e => if e =? ERROR_IO_PENDING then read_loop (read_wakes r)
                  else throw ("HID read failed: " +:+ win32_error_message e)
      | None => read_loop (read_wakes r)
      end
  end.

(** [for (int attempt = 0;; ++attempt)]: [attempts] further reconnects are allowed. *)
Fixpoint read_attempts (attempts : nat) : prog Reader (vds_frame_header * list Z) :=
  try_catch read_input_frame_once
    (fun error =>
       match attempts with
       | O => throw error
       | S attempts =>
           ok ← reopen_input_handle;
           if (ok : bool)
           then _ ← modify (Sleep kReconnectBackoffMs); read_attempts attempts
           else throw error
       end).
Definition read_input_frame : prog Reader (vds_frame_header * list Z) := read_attempts kMaxReconnectAttempts.

Definition read_frame : prog Reader (vds_frame_header * list Z) :=
  frame ← pop_queued_frame;
  match frame with
  | Some frame => mret frame
  | None => read_input_frame
  end.

(** ** The queue of output reports *)

Record Output := mk_output {
  output_queue_ : list (list Z);
  output_error_ : string;
  output_queued_count_ : Z;
  output_completed_count_ : Z;
  output_rejected_count_ : Z;
  output_audio_coalesced_count_ : Z;
  output_queued_since_diagnostic_ : Z;
  output_completed_since_diagnostic_ : Z;
  output_rejected_since_diagnostic_ : Z;
  output_audio_coalesced_since_diagnostic_ : Z;
  output_stop_requested_ : bool;
  output_write_active_ : bool;
  output_diagnostic_pending_ : bool
}.
Definition initial_output : Output := mk_output [] "" 0 0 0 0 0 0 0 0 false false false.

Definition put_output_queue (v : list (list Z)) (o : Output) : Output :=
  mk_output v (output_error_ o) (output_queued_count_ o) (output_completed_count_ o)
    (output_rejected_count_ o) (output_audio_coalesced_count_ o) (output_queued_since_diagnostic_ o)
    (output_completed_since_diagnostic_ o) (output_rejected_since_diagnostic_ o)
    (output_audio_coalesced_since_diagnostic_ o) (output_stop_requested_ o) (output_write_active_ o)
    (output_diagnostic_pending_ o).
Definition put_output_error (v : string) (o : Output) : Output :=
  mk_output (output_queue_ o) v (output_queued_count_ o) (output_completed_count_ o)
    (output_rejected_count_ o) (output_audio_coalesced_count_ o) (output_queued_since_diagnostic_ o)
    (output_completed_since_diagnostic_ o) (output_rejected_since_diagnostic_ o)
    (output_audio_coalesced_since_diagnostic_ o) (output_stop_requested_ o) (output_write_active_ o)
    (output_diagnostic_pending_ o).
Definition put_write_active (v : bool) (o : Output) : Output :=
  mk_output (output_queue_ o) (output_error_ o) (output_queued_count_ o) (output_completed_count_ o)
    (output_rejected_count_ o) (output_audio_coalesced_count_ o) (output_queued_since_diagnostic_ o)
    (output_completed_since_diagnostic_ o) (output_rejected_since_diagnostic_ o)
    (output_audio_coalesced_since_diagnostic_ o) (output_stop_requested_ o) v
    (output_diagnostic_pending_ o).
Definition put_stop_requested (o : Output) : Output :=
  mk_output (output_queue_ o) (output_error_ o) (output_queued_count_ o) (output_completed_count_ o)
    (output_rejected_count_ o) (output_audio_coalesced_count_ o) (output_queued_since_diagnostic_ o)
    (output_completed_since_diagnostic_ o) (output_rejected_since_diagnostic_ o)
    (output_audio_coalesced_since_diagnostic_ o) true (output_write_active_ o)
    (output_diagnostic_pending_ o).
Definition set_diagnostic_pending (o : Output) : Output :=
  mk_output (output_queue_ o) (output_error_ o) (output_queued_count_ o) (output_completed_count_ o)
    (output_rejected_count_ o) (output_audio_coalesced_count_ o) (output_queued_since_diagnostic_ o)
    (output_completed_since_diagnostic_ o) (output_rejected_since_diagnostic_ o)
    (output_audio_coalesced_since_diagnostic_ o) (output_stop_requested_ o) (output_write_active_ o) true.
Definition count_queued (o : Output) : Output :=
  mk_output (output_queue_ o) (output_error_ o) (u64 (output_queued_count_ o + 1)) (output_completed_count_ o)
    (output_rejected_count_ o) (output_audio_coalesced_count_ o) (u64 (output_queued_since_diagnostic_ o + 1))
    (output_completed_since_diagnostic_ o) (output_rejected_since_diagnostic_ o)
    (output_audio_coalesced_since_diagnostic_ o) (output_stop_requested_ o) (output_write_active_ o) true.
Definition count_completed (o : Output) : Output :=
  mk_output (output_queue_ o) (output_error_ o) (output_queued_count_ o) (u64 (output_completed_count_ o + 1))
    (output_rejected_count_ o) (output_audio_coalesced_count_ o) (output_queued_since_diagnostic_ o)
    (u64 (output_completed_since_diagnostic_ o + 1)) (output_rejected_since_diagnostic_ o)
    (output_audio_coalesced_since_diagnostic_ o) (output_stop_requested_ o) (output_write_active_ o) true.
Definition count_rejected (o : Output) : Output :=
  mk_output (output_queue_ o) (output_error_ o) (output_queued_count_ o) (output_completed_count_ o)
    (u64 (output_rejected_count_ o + 1)) (output_audio_coalesced_count_ o) (output_queued_since_diagnostic_ o)
    (output_completed_since_diagnostic_ o) (u64 (output_rejected_since_diagnostic_ o + 1))
    (output_audio_coalesced_since_diagnostic_ o) (output_stop_requested_ o) (output_write_active_ o) true.
Definition count_coalesced (o : Output) : Output :=
  mk_output (output_queue_ o) (output_error_ o) (output_queued_count_ o) (output_completed_count_ o)
    (output_rejected_count_ o) (u64 (output_audio_coalesced_count_ o + 1)) (output_queued_since_diagnostic_ o)
    (output_completed_since_diagnostic_ o) (output_rejected_since_diagnostic_ o)
    (u64 (output_audio_coalesced_since_diagnostic_ o + 1)) (output_stop_requested_ o) (output_write_active_ o)
    true.

Definition make_output_write (report : list Z) : result (list Z) :=
  if output_report_length_ lengths <? Z.of_nat (length report)
  then Throw ("HID output report too large: " +:+ to_string (Z.of_nat (length report)) +:+ " > "
              +:+ to_string (output_report_length_ lengths))
  else Ok (padded (output_report_length_ lengths) report).

(** [is_queued_audio], and [is_audio_report] of the new write. *)
Definition is_audio (write : list Z) : bool :=
  match write with
  | report_id :: _ => report_id =? VDS_BT_HAPTICS_REPORT_ID
  | [] => false
  end.

(** [output_queue_.erase(std::find_if(..., is_queued_audio))] *)
Fixpoint erase_audio (queue : list (list Z)) : option (list (list Z)) :=
  match queue with
  | [] => None
  | write :: rest => if is_audio write then Some rest else (write ::.) <$> erase_audio rest
  end.

Definition coalesce_oldest_audio : prog Output bool := fun o =>
  match erase_audio (output_queue_ o) with
  | None => (o, Ok false)
  | Some rest => (count_coalesced (put_output_queue rest o), Ok true)
  end.

(** [while (queued_audio >= kMaxQueuedHidAudioOutputWrites)] *)
Fixpoint coalesce_while (queued_audio : nat) : prog Output unit :=
  match queued_audio with
  | O => mret tt
  | S n =>
      if (kMaxQueuedHidAudioOutputWrites <=? S n)%nat
      then ok ← coalesce_oldest_audio; if (ok : bool) then coalesce_while n else mret tt
      else mret tt
  end.

Definition queued_audio (queue : list (list Z)) : nat := length (filter (fun w => is_audio w = true) queue).

Definition queue_full (o : Output) : bool := (kMaxPendingHidOutputWrites <=? length (output_queue_ o))%nat.
Definition reject : prog Output bool := _ ← modify count_rejected; mret false.

(** What [enqueue_output_report] does between taking [output_mutex_] and giving it back. *)
Definition enqueue (write : list Z) : prog Output bool :=
  o ← get_state;
  if decide (output_error_ o = "") then
    _ ← (if is_audio write then coalesce_while (queued_audio (output_queue_ o)) else mret tt);
    o ← get_state;
    refused ← (if queue_full o
               then if is_audio write then ok ← coalesce_oldest_audio; mret (negb ok) else mret true
               else mret false);
    if (refused : bool) then reject
    else
      o ← get_state;
      if queue_full o then reject
      else
        _ ← modify (fun o => count_queued (put_output_queue (output_queue_ o ++ [write]) o));
        mret true
  else throw (output_error_ o).

(** [try_write_interrupt_packet] up to taking the lock. *)
Definition checked_packet (packet : list Z) : result (list Z) :=
  match packet with
  | prefix :: report => if prefix =? kBtHidpOutputPrefix then make_output_write report
                        else Throw "unsupported HIDP interrupt packet"
  | [] => Throw "unsupported HIDP interrupt packet"
  end.

(** The predicates the condition variable is waited on with. *)
Definition output_idle (o : Output) : bool :=
  output_stop_requested_ o || negb (bool_decide (output_error_ o = ""))
  || ((length (output_queue_ o) =? 0)%nat && negb (output_write_active_ o)).
Definition writer_wakes (o : Output) : bool :=
  output_stop_requested_ o || negb (length (output_queue_ o) =? 0)%nat.

Definition has_diagnostics (o : Output) : bool :=
  negb ((output_queued_since_diagnostic_ o =? 0) && (output_completed_since_diagnostic_ o =? 0)
        && (output_rejected_since_diagnostic_ o =? 0)
        && (output_audio_coalesced_since_diagnostic_ o =? 0)
        && bool_decide (output_error_ o = "")).

Definition clear_diagnostics (o : Output) : Output :=
  mk_output (output_queue_ o) (output_error_ o) (output_queued_count_ o) (output_completed_count_ o)
    (output_rejected_count_ o) (output_audio_coalesced_count_ o) 0 0 0 0
    (output_stop_requested_ o) (output_write_active_ o) false.

Definition take_output_diagnostics (force : bool) : prog Output (option string) :=
  o ← get_state;
  if negb force && negb (output_diagnostic_pending_ o) then mret None
  else if negb (has_diagnostics o) then mret None
  else
    let message :=
      "hid output writer queued=" +:+ to_string (output_queued_count_ o)
      +:+ " completed=" +:+ to_string (output_completed_count_ o)
      +:+ " rejected=" +:+ to_string (output_rejected_count_ o)
      +:+ " audio_coalesced=" +:+ to_string (output_audio_coalesced_count_ o)
      +:+ " queued_delta=" +:+ to_string (output_queued_since_diagnostic_ o)
      +:+ " completed_delta=" +:+ to_string (output_completed_since_diagnostic_ o)
      +:+ " rejected_delta=" +:+ to_string (output_rejected_since_diagnostic_ o)
      +:+ " audio_coalesced_delta=" +:+ to_string (output_audio_coalesced_since_diagnostic_ o)
      +:+ " pending=" +:+ to_string (Z.of_nat (length (output_queue_ o)))
      +:+ (if decide (output_error_ o = "") then "" else " error=" +:+ output_error_ o) in
    _ ← modify clear_diagnostics;
    mret (Some message).

Definition description (s : Reader) : string := "hid:" +:+ match_label_ s +:+ " " +:+ path_ s.
End Transport.

(** ** Facts: reading *)

(** What a read ends with when no frame is queued: the report, or what is thrown. *)
Section Outcome.
Context `{WinSystem} (lengths : Lengths).

Fixpoint wakes_outcome (wakes : list read_wake) : result (list Z) :=
  match wakes with
  | ReadDone (Fails e) :: _ => Throw ("HID read completion failed: " +:+ win32_error_message e)
  | ReadDone (Gives bytes) :: _ =>
      let report := take (Z.to_nat (input_report_length_ lengths)) bytes in
      if (length report =? 0)%nat then Throw "HID read returned zero bytes" else Ok report
  | QueueEvent :: rest => wakes_outcome rest
  | StopEvent :: _ => Throw "HID read stopped"
  | TimedOut :: _ | [] => Throw "HID read timed out after 2000ms"
  | WaitBroken e :: _ => Throw ("HID read wait failed: " +:+ win32_error_message e)
  end.

Definition read_outcome (r : hid_read) : result (list Z) :=
  match read_event_error r with
  | Some e => Throw ("failed to create HID read event: " +:+ win32_error_message e)
  | None =>
      match read_start_error r with
      | Some e => if e =? ERROR_IO_PENDING then wakes_outcome (read_wakes r)
                  else Throw ("HID read failed: " +:+ win32_error_message e)
      | None => wakes_outcome (read_wakes r)
      end
  end.

Lemma outcome_length r report :
  read_outcome r = Ok report -> (0 < length report <= Z.to_nat (input_report_length_ lengths))%nat.
Proof.
  assert (forall wakes, wakes_outcome wakes = Ok report ->
            (0 < length report <= Z.to_nat (input_report_length_ lengths))%nat) as Hw.
  { induction wakes as [|[[bytes|e]| | | |e] wakes IH]; cbn [wakes_outcome]; try done.
    destruct (Nat.eqb_spec (length (take (Z.to_nat (input_report_length_ lengths)) bytes)) 0); [done|].
    intros [= <-]. rewrite length_take in *. lia. }
  unfold read_outcome. repeat case_match; try done; apply Hw.
Qed.

(** The [i]th read from here. *)
Definition nth_read (i : nat) (s : Reader) : hid_read := default (mk_hid_read None None []) (reads s !! i).

Definition input_frame (report : list Z) (sequence : Z) : vds_frame_header * list Z :=
  make_bluetooth_frame VDS_FRAME_BT_INTERRUPT_PACKET (kBtHidpInputPrefix :: report) sequence.

(** What a read does besides consuming its answer: it counts the frames it delivers. *)
Definition read_end (s : Reader) (o : result (list Z)) (s' : Reader) (r : result (vds_frame_header * list Z)) : Prop :=
  match o with
  | Ok report => r = Ok (input_frame report (u64 (sequence_ s + 1))) /\ sequence_ s' = u64 (sequence_ s + 1)
  | Throw e => r = Throw e /\ sequence_ s' = sequence_ s
  end.

Lemma read_loop_spec wakes s s' r :
  queued_frames_ s = [] -> read_loop lengths wakes s = (s', r) ->
  read_end s (wakes_outcome wakes) s' r /\ queued_frames_ s' = [] /\ path_ s' = path_ s /\ reads s' = reads s
  /\ reads_started s' = reads_started s /\ reopened s' = reopened s /\ slept s' = slept s.
Proof.
  revert s. induction wakes as [|[[bytes|e]| | | |e] wakes IH]; intros s Hq;
    cbn [read_loop wakes_outcome]; try (by intros [= <- <-]).
  - unfold mbind, prog_bind, get_state. case_match; [by intros [= <- <-]|]. by intros [= <- <-].
  - unfold mbind, prog_bind, pop_queued_frame. rewrite Hq. intros E. by apply (IH (put_queue [] false s)) in E.
Qed.

Lemma nth_read_0 s : nth_read 0 s = default (mk_hid_read None None []) (head (reads s)).
Proof. unfold nth_read. by destruct (reads s). Qed.

Lemma read_once_spec s s' r :
  queued_frames_ s = [] -> read_input_frame_once lengths s = (s', r) ->
  read_end s (read_outcome (nth_read 0 s)) s' r /\ queued_frames_ s' = [] /\ path_ s' = path_ s
  /\ reads s' = tail (reads s) /\ reads_started s' = S (reads_started s) /\ reopened s' = reopened s
  /\ slept s' = slept s.
Proof.
  intros Hq. rewrite nth_read_0. unfold read_input_frame_once, read_outcome. unfold mbind, prog_bind, get_state, modify.
  set (x := default _ _). pose proof (fun w => read_loop_spec w (start_read s) s' r Hq) as Hl.
  repeat case_match; try (by intros [= <- <-]); intros E; by apply Hl.
Qed.

Lemma open_hid_spec p s s' r :
  open_hid_device p s = (s', r) -> s' = put_opens (tail (hid_opens s)) s.
Proof. unfold open_hid_device, ask, lift, mbind, prog_bind. by intros [= <- _]. Qed.

Lemma reopen_spec s s' r :
  reopen_input_handle s = (s', r) ->
  exists b, r = Ok b /\ queued_frames_ s' = queued_frames_ s /\ reads s' = reads s
  /\ reads_started s' = reads_started s /\ slept s' = slept s /\ sequence_ s' = sequence_ s
  /\ reopened s' = (if (b : bool) then S (reopened s) else reopened s) /\ (b = false -> path_ s' = path_ s).
Proof.
  unfold reopen_input_handle, try_catch. unfold mbind, prog_bind, get_state, on_devices, modify.
  destruct (find_hid_bluetooth_device_path _ _) as [d [p|e]]; cbn [fst snd].
  - destruct (open_hid_device p _) as [s2 [[]|e]] eqn:E; apply open_hid_spec in E; subst s2;
      intros [= <- <-]; by eexists.
  - intros [= <- <-]. by eexists.
Qed.

Lemma attempts_spec attempts s s' r :
  queued_frames_ s = [] -> read_attempts lengths attempts s = (s', r) ->
  exists n, (n <= attempts)%nat
  /\ reopened s' = (reopened s + n)%nat /\ reads_started s' = S (reads_started s + n)
  /\ slept s' = slept s + kReconnectBackoffMs * Z.of_nat n /\ queued_frames_ s' = []
  /\ (forall i, (i < n)%nat -> exists e, read_outcome (nth_read i s) = Throw e)
  /\ read_end s (read_outcome (nth_read n s)) s' r
  /\ (is_ok r = false -> n = attempts \/ exists s1, reopen_input_handle s1 = (s', Ok false))
  /\ (n = 0%nat -> path_ s' = path_ s).
Proof.
  revert s. induction attempts as [|a IH]; intros s Hq; cbn [read_attempts]; unfold try_catch;
    destruct (read_input_frame_once lengths s) as [s1 r1] eqn:E1;
    destruct (read_once_spec _ _ _ Hq E1) as (He & Hq1 & Hp & Hr & Hs & Ho & Hsl).
  - intros E. assert (s1 = s' /\ r1 = r) as [-> ->] by (destruct r1; by injection E as <- <-).
    exists 0%nat. rewrite Ho, Hs, Hsl. split_and!; try done; try lia; by left.
  - destruct r1 as [f|e].
    + intros [= <- <-]. exists 0%nat. rewrite Ho, Hs, Hsl. split_and!; try done; lia.
    + unfold mbind, prog_bind. destruct (reopen_input_handle s1) as [s2 r2] eqn:E2.
      pose proof E2 as (b & -> & Hq2 & Hr2 & Hs2 & Hsl2 & Hn2 & Ho2 & Hp2)%reopen_spec. cbn [modify].
      assert (exists e', read_outcome (nth_read 0 s) = Throw e' /\ e' = e /\ sequence_ s1 = sequence_ s) as (? & Hf & -> & Hn).
      { destruct (read_outcome _) as [x|e']; [by destruct He|]. destruct He as [[= ->] ?]. by eexists. }
      destruct b; cbn beta iota.
      * intros E. apply (IH (Sleep kReconnectBackoffMs s2)) in E; [|by rewrite <- Hq1, <- Hq2].
        destruct E as (n & Hle & A & B & C & D & F & G & K & _). exists (S n).
        assert (forall i, nth_read i (Sleep kReconnectBackoffMs s2) = nth_read (S i) s) as Hnth.
        { intros i. unfold nth_read. cbn. rewrite Hr2, Hr. by destruct (reads s). }
        rewrite Hnth in G. cbn [Sleep reopened reads_started slept sequence_] in A, B, C, G.
        split_and!; try (lia || done).
        -- intros [|i] Hi; [by eexists|]. rewrite <- Hnth. apply F. lia.
        -- unfold read_end in *. cbn [Sleep sequence_] in G. by rewrite Hn2, Hn in G.
        -- intros Hk. destruct (K Hk) as [->|?]; [by left|by right].
      * intros [= <- <-]. exists 0%nat. split_and!; try (lia || done).
        -- by rewrite Hq2.
        -- unfold read_end. rewrite Hf. split; [done|congruence].
        -- right. by eexists.
        -- intros _. rewrite Hp2, Hp; done.
Qed.
End Outcome.

(** ** Facts: feature reports *)

Lemma padded_length size report :
  Z.of_nat (length report) <= size -> length (padded size report) = Z.to_nat size.
Proof. intros Hl. unfold padded. rewrite length_app, length_replicate. lia. Qed.
Lemma padded_ok size report : bytes_ok report -> bytes_ok (padded size report).
Proof. intros Hr. apply Forall_app. split; [done|]. by apply Forall_replicate. Qed.

(** ** Facts: the queue *)

Lemma audio_cons w queue : queued_audio (w :: queue) = ((if is_audio w then 1 else 0) + queued_audio queue)%nat.
Proof.
  unfold queued_audio. rewrite filter_cons. destruct (is_audio w) eqn:E; case_decide; (done || congruence).
Qed.
Lemma audio_app q1 q2 : queued_audio (q1 ++ q2) = (queued_audio q1 + queued_audio q2)%nat.
Proof. unfold queued_audio. by rewrite filter_app, length_app. Qed.
Lemma audio_le queue : (queued_audio queue <= length queue)%nat.
Proof. apply length_filter. Qed.

(** The oldest audio report goes; the others keep their order. *)
Lemma erase_audio_Some queue rest :
  erase_audio queue = Some rest ->
  exists before w behind, queue = before ++ w :: behind /\ rest = before ++ behind /\ is_audio w = true
  /\ queued_audio before = 0%nat.
Proof.
  revert rest. induction queue as [|w queue IH]; intros rest; [done|]. cbn. destruct (is_audio w) eqn:E.
  - intros [= <-]. by exists [], w, queue.
  - intros (r & Hr & ->)%fmap_Some_1. apply IH in Hr as (b & x & a & -> & -> & Hx & Hb).
    exists (w :: b), x, a. split_and!; try done. by rewrite audio_cons, E, Hb.
Qed.
Lemma erase_audio_None queue : erase_audio queue = None <-> queued_audio queue = 0%nat.
Proof.
  induction queue as [|w queue IH]; [done|]. rewrite audio_cons. cbn. destruct (is_audio w); [done|].
  rewrite fmap_None. apply IH.
Qed.
Lemma erase_audio_counts queue rest :
  erase_audio queue = Some rest ->
  length queue = S (length rest) /\ queued_audio queue = S (queued_audio rest).
Proof.
  intros (b & w & a & -> & -> & Hw & _)%erase_audio_Some. rewrite !length_app, !audio_app, audio_cons, Hw.
  cbn. lia.
Qed.

(** What holds of the queue. *)
Definition queue_ok (length_ : nat) (queue : list (list Z)) : Prop :=
  (length queue <= kMaxPendingHidOutputWrites)%nat /\ (queued_audio queue <= kMaxQueuedHidAudioOutputWrites)%nat
  /\ Forall (fun w => length w = length_) queue.

(** [enqueue] in closed form: one audio report at most gives its place. *)
Definition drops (queue : list (list Z)) (write : list Z) : bool :=
  is_audio write && ((kMaxQueuedHidAudioOutputWrites <=? queued_audio queue)%nat
                     || (kMaxPendingHidOutputWrites <=? length queue)%nat).
Definition enqueue_closed (write : list Z) : prog Output bool := fun o =>
  let queue := output_queue_ o in
  if decide (output_error_ o = "") then
    if drops queue write then
      match erase_audio queue with
      | Some rest => (count_queued (put_output_queue (rest ++ [write]) (count_coalesced o)), Ok true)
      | None => (count_rejected o, Ok false)
      end
    else if (kMaxPendingHidOutputWrites <=? length queue)%nat then (count_rejected o, Ok false)
    else (count_queued (put_output_queue (queue ++ [write]) o), Ok true)
  else (o, Throw (output_error_ o)).

Lemma coalesce_while_spec n o :
  (n <= kMaxQueuedHidAudioOutputWrites)%nat ->
  coalesce_while n o =
  if (kMaxQueuedHidAudioOutputWrites <=? n)%nat
  then match erase_audio (output_queue_ o) with
       | Some rest => (count_coalesced (put_output_queue rest o), Ok tt)
       | None => (o, Ok tt)
       end
  else (o, Ok tt).
Proof.
  unfold kMaxQueuedHidAudioOutputWrites. intros Hn. destruct n as [|n]; [done|]. cbn [coalesce_while].
  unfold kMaxQueuedHidAudioOutputWrites. destruct (Nat.leb_spec 4 (S n)); [|done].
  unfold mbind, prog_bind, coalesce_oldest_audio. destruct (erase_audio _); [|done].
  assert (n = 3%nat) as -> by lia. done.
Qed.

Lemma enqueue_spec l write o : queue_ok l (output_queue_ o) -> enqueue write o = enqueue_closed write o.
Proof.
  intros (H1 & H2 & _). unfold enqueue, enqueue_closed, drops, queue_full, reject. cbv zeta.
  unfold mbind, prog_bind, get_state. destruct (decide (output_error_ o = "")); [|done].
  destruct (is_audio write) eqn:Ha; cbn [andb orb].
  - rewrite coalesce_while_spec by done. unfold coalesce_oldest_audio.
    destruct (erase_audio (output_queue_ o)) as [rest|] eqn:E.
    + pose proof E as [Hl _]%erase_audio_counts.
      assert ((kMaxPendingHidOutputWrites <=? length rest)%nat = false) as Hf by (apply Nat.leb_gt; lia).
      destruct (_ <=? queued_audio _)%nat; [by do 3 (cbn -[Nat.leb kMaxPendingHidOutputWrites]; rewrite ?Hf)|].
      destruct (kMaxPendingHidOutputWrites <=? length (output_queue_ o))%nat eqn:F;
        by do 3 (cbn -[Nat.leb kMaxPendingHidOutputWrites]; rewrite ?E, ?Hf, ?F).
    + pose proof E as E'%erase_audio_None. rewrite E'. change (kMaxQueuedHidAudioOutputWrites <=? 0)%nat with false. cbn [orb].
      destruct (kMaxPendingHidOutputWrites <=? length (output_queue_ o))%nat eqn:F;
        by do 3 (cbn -[Nat.leb kMaxPendingHidOutputWrites]; rewrite ?E, ?F).
  - destruct (kMaxPendingHidOutputWrites <=? length (output_queue_ o))%nat eqn:F;
      by do 3 (cbn -[Nat.leb kMaxPendingHidOutputWrites]; rewrite ?F).
Qed.

Lemma enqueue_keeps l write o o' r :
  queue_ok l (output_queue_ o) -> length write = l -> enqueue write o = (o', r) ->
  queue_ok l (output_queue_ o').
Proof.
  intros Hq Hw. rewrite (enqueue_spec l) by done. unfold enqueue_closed. destruct Hq as (H1 & H2 & H3). cbv zeta.
  destruct (decide _); [|by intros [= <- _]]. destruct (drops _ _) eqn:D.
  - destruct (erase_audio _) as [rest|] eqn:E; [|by intros [= <- _]]. intros [= <- _]. cbn.
    pose proof E as [Hl Ha]%erase_audio_counts. split_and!.
    + rewrite length_app. cbn. lia.
    + rewrite audio_app, audio_cons. cbn. destruct (is_audio write); lia.
    + apply erase_audio_Some in E as (b & x & a & Hq & -> & _). rewrite Hq in H3.
      apply Forall_app in H3 as [? [_ ?]%Forall_cons]. apply Forall_app. split; [by apply Forall_app|].
      by apply Forall_singleton.
  - destruct (Nat.leb_spec kMaxPendingHidOutputWrites (length (output_queue_ o))); intros [= <- _]; [done|]. cbn.
    unfold drops in D. split_and!.
    + rewrite length_app. cbn. lia.
    + rewrite audio_app, audio_cons. cbn. destruct (is_audio write); cbn [andb] in D; [|lia].
      apply orb_false_iff in D as [D%Nat.leb_gt _]. lia.
    + apply Forall_app. split; [done|]. by apply Forall_singleton.
Qed.

Lemma enqueue_frame l write o o' r :
  queue_ok l (output_queue_ o) -> enqueue write o = (o', r) ->
  output_error_ o' = output_error_ o /\ output_stop_requested_ o' = output_stop_requested_ o
  /\ output_write_active_ o' = output_write_active_ o
  /\ (r = Ok true \/ output_queue_ o' = output_queue_ o)
  /\ (r = Ok true -> exists rest, output_queue_ o' = rest ++ [write]).
Proof.
  intros Hq. rewrite (enqueue_spec l) by done. unfold enqueue_closed. cbv zeta.
  repeat case_match; intros [= <- <-]; split_and!; try done; try (by right); try (by left); intros _; by eexists.
Qed.

(** ** The properties *)

Section Props.
Context `{WinSystem} (lengths : Lengths).

(**  Reading an input report survives failed reads as long as the device can be opened
    again, five times at most, with a pause of 150 ms each: the first read that succeeds
    gives the frame, numbered one after the frame before it, and every failed read changes
    no number; the exception of the last read comes through only after the fifth reconnect
    or as soon as one reconnect fails.  Without a failed read the path stays. *)
Theorem read_reconnects s s' r :
  queued_frames_ s = [] -> read_frame lengths s = (s', r) ->
  exists n, (n <= 5)%nat
  /\ reopened s' = (reopened s + n)%nat /\ reads_started s' = S (reads_started s + n)
  /\ slept s' = slept s + 150 * Z.of_nat n /\ queued_frames_ s' = []
  /\ (forall i, (i < n)%nat -> exists e, read_outcome lengths (nth_read i s) = Throw e)
  /\ match read_outcome lengths (nth_read n s) with
     | Ok report => r = Ok (input_frame report (u64 (sequence_ s + 1))) /\ sequence_ s' = u64 (sequence_ s + 1)
                    /\ (0 < length report <= Z.to_nat (input_report_length_ lengths))%nat
     | Throw e => r = Throw e /\ sequence_ s' = sequence_ s
                  /\ (n = 5%nat \/ exists s1, reopen_input_handle s1 = (s', Ok false))
     end
  /\ (n = 0%nat -> path_ s' = path_ s).
Proof.
  intros Hq. unfold read_frame, pop_queued_frame. unfold mbind, prog_bind. rewrite Hq. intros E.
  apply attempts_spec in E as (n & H1 & H2 & H3 & H4 & H5 & H6 & H7 & H8 & H9); [|done].
  exists n. split_and!; try done. unfold read_end in H7. change (nth_read n (put_queue [] false s)) with (nth_read n s) in H7.
  destruct (read_outcome lengths (nth_read n s)) as [report|e] eqn:Ho; destruct H7 as [-> Hs].
  - split_and!; [done..| |]; apply outcome_length in Ho; lia.
  - split_and!; [done..|]. by apply H8.
Qed.

(**  A feature report is handed to the device in a buffer of exactly the length the
    device declares for that report, padded with zeros and with the checksum of its bytes in
    the last four; a report that is empty, too long or too short for a checksum is refused
    before anything is sent; and it is reported as sent exactly if the device took it. *)
Theorem feature_report_exact id report s s' r :
  bytes_ok (id :: report) -> set_feature_report lengths (id :: report) s = (s', r) ->
  let len := feature_length_for lengths id in
  let buffer := checksummed 0x53 (take (Z.to_nat len - 4) (padded len (id :: report))) in
  if (len <? Z.of_nat (length (id :: report))) || (len <? 4)
  then s' = s /\ exists e, r = Throw e
  else features_set s' = features_set s ++ [buffer] /\ length buffer = Z.to_nat len
       /\ packet_crc_ok (0x53 :: buffer)
       /\ (r = Ok tt <-> default None (head (set_errors s)) = None).
Proof.
  intros Hok E. cbv zeta. unfold set_feature_report in E. set (len := feature_length_for lengths id) in *.
  destruct (Z.ltb_spec len (Z.of_nat (length (id :: report)))) as [Hl|Hl]; cbn [orb]; [injection E as <- <-; by eauto|].
  unfold mbind, prog_bind, lift in E. rewrite fill_feature_spec in E by (by apply padded_ok).
  rewrite padded_length in E by done.
  destruct (Z.ltb_spec len 4) as [H4|H4].
  { rewrite (proj2 (Nat.ltb_lt _ _)) in E by lia. injection E as <- <-. by eauto. }
  rewrite (proj2 (Nat.ltb_ge _ _)) in E by lia. unfold hid_set_feature in E.
  assert (length (checksummed 0x53 (take (Z.to_nat len - 4) (padded len (id :: report)))) = Z.to_nat len) as Hlen.
  { rewrite checksummed_length, length_take, padded_length by done. lia. }
  destruct (default None (head (set_errors s))) eqn:Hd; injection E as <- <-;
    (split_and!; [done|done|apply checksummed_packet|done]).
Qed.
End Props.

(**  What becomes of a report that is offered to the queue: it is refused only if 64
    reports wait and it is not audio or no audio report waits; it is accepted at the end of
    the queue, and only the oldest audio report can give its place, to audio, when four
    wait or the queue is full; and once a write has failed, the error is thrown and
    nothing changes. *)
Theorem report_refused_only_when_full l write o o' r :
  queue_ok l (output_queue_ o) -> enqueue write o = (o', r) ->
  let queue := output_queue_ o in
  match r with
  | Throw e => e = output_error_ o /\ e <> "" /\ o' = o
  | Ok false => length queue = 64%nat /\ output_queue_ o' = queue /\ (is_audio write = true -> queued_audio queue = 0%nat)
  | Ok true =>
      exists rest, output_queue_ o' = rest ++ [write]
      /\ (rest = queue
          \/ is_audio write = true /\ (queued_audio queue = 4%nat \/ length queue = 64%nat)
             /\ exists before w behind, queue = before ++ w :: behind /\ rest = before ++ behind
                /\ is_audio w = true /\ queued_audio before = 0%nat)
  end.
Proof.
  intros Hq. rewrite (enqueue_spec l) by done. destruct Hq as (H1 & H2 & _). unfold enqueue_closed. cbv zeta.
  unfold kMaxPendingHidOutputWrites, kMaxQueuedHidAudioOutputWrites in *.
  destruct (decide (output_error_ o = "")) as [He|He]; [|by intros [= <- <-]]. unfold drops.
  unfold kMaxPendingHidOutputWrites, kMaxQueuedHidAudioOutputWrites.
  destruct (Nat.leb_spec 64 (length (output_queue_ o))), (Nat.leb_spec 4 (queued_audio (output_queue_ o))), (is_audio write) eqn:Ha;
    cbn [andb orb]; try destruct (erase_audio (output_queue_ o)) as [rest|] eqn:E; intros [= <- <-];
    try (apply erase_audio_None in E; split_and!; try done; lia);
    try (split_and!; try done; lia);
    try (exists (output_queue_ o); split; [done|by left]);
    (exists rest; split; [done|right]; split_and!; [done|lia|by apply erase_audio_Some]).
Qed.

(** ** Examples *)

#[local] Instance no_texts : WinSystem := {| format_message _ := None; environment_variable _ := None |}.
Definition three_bytes : Lengths := mk_lengths 3 2 8 {[ 0x80 := 6 ]}.

(** A controller that drops out once and is found again under the path of its filter. *)
Definition drops_once : Reader :=
  mk_reader "\\?\hid#old" "aa:bb:cc:dd:ee:ff" [] true 41
    (mk_devices [] [] [] [] [] [Gives (mk_probe (Gives (0x054c, 0x0ce6)) true (Some (1, 5)))] [] [] []) []
    [mk_hid_read None (Some ERROR_IO_PENDING) [QueueEvent; TimedOut];
     mk_hid_read None (Some ERROR_IO_PENDING) [ReadDone (Gives [1; 2; 3; 4])]] 0 0 0.

Lemma read_reconnects_witness :
  exists s', read_frame three_bytes drops_once = (s', Ok (input_frame [1; 2; 3] 42))
  /\ path_ s' = "\\.\vds_filter_aabbccddeeff" /\ reopened s' = 1%nat /\ slept s' = 150 /\ queued_frames_ s' = [].
Proof.
  destruct (read_frame three_bytes drops_once) as [s' r] eqn:E.
  destruct (read_reconnects three_bytes drops_once s' r eq_refl E) as (n & _ & _ & _ & _ & Hq & _).
  exists s'. vm_compute in E. injection E as <- <-. repeat split; vm_compute; reflexivity.
Defined.

Lemma feature_report_exact_witness :
  let s := mk_feature_io [] [] in
  let r := set_feature_report three_bytes [0x80; 7] s in
  features_set r.1 = [checksummed 0x53 [0x80; 7]] /\ r.2 = Ok tt.
Proof.
  intros s r. subst r. destruct (set_feature_report three_bytes [0x80; 7] s) as [s' x] eqn:E.
  assert (bytes_ok [0x80; 7]) as Hok by (repeat constructor; done).
  destruct (feature_report_exact three_bytes 0x80 [7] s s' x Hok E) as (Hf & _ & _ & Hr).
  cbn [fst snd]. split; [rewrite Hf; reflexivity|]. apply Hr. reflexivity.
Defined.

Lemma report_refused_only_when_full_witness :
  let o := put_output_queue ([0x36; 1] :: replicate 63 [0x31; 0]) initial_output in
  queue_ok 2 (output_queue_ o) /\ (enqueue [0x31; 9] o).2 = Ok false /\ length (output_queue_ o) = 64%nat.
Proof.
  intros o. assert (queue_ok 2 (output_queue_ o)) as Hq.
  { split_and!; [by apply Nat.leb_le; vm_compute..|]. subst o. cbn [put_output_queue output_queue_].
    constructor; [done|]. by apply Forall_replicate. }
  split; [exact Hq|].
  assert (enqueue [0x31; 9] o = (count_rejected o, Ok false)) as E by (vm_compute; reflexivity).
  split; [by rewrite E|]. exact (proj1 (report_refused_only_when_full 2 [0x31; 9] o (count_rejected o) (Ok false) Hq E)).
Defined.
