(* ===== verification/WinWriter.v ===== *)
(** The thread that writes the output reports of the Windows Bluetooth transport, with the
    threads that queue reports and those that stop it (class [HidBluetoothTransport] in
    src/src/platform/win32/vds_bt.cc).

    [exec] makes one move of one thread: what a thread does while it holds [output_mutex_]
    is one move, as are an operation on the handle and a notification.  A thread that waits
    for [output_cv_] is in a stage of its own, so that notifications reach those who wait,
    [notify_one] one of them, whichever the system chooses, and a wake without notification is a move too. *)
From stdpp Require Import base list strings numbers gmap relations.
From Stdlib Require Import Ascii ZArith Lia.
From S2P Require Import Prelude Text Words Checksum BtPacket WinIo WinDevices WinTransport.

Local Open Scope Z_scope.

(** What happens to one [overlapped_io]: making the event, starting, the wait for the event
    or the stop event, the result, and the bytes that are moved although it fails. *)
Record hid_io := mk_hid_io {
  io_event_error : option Z;
  io_start_error : option Z;
  io_wait : wait_result;
  io_result : overlapped_result;
  io_moved_anyway : nat
}.

(** [output_writer_loop]: before looking at the queue, waiting, writing [buffer] from
    [offset] on, having failed, done, before [notify_all], over. *)
Inductive writer_stage :=
  | WLook
  | WBlocked
  | WWriting (buffer : list Z) (offset : nat)
  | WFailed (error : string) (buffer : list Z)
  | WWritten
  | WNotify
  | WExit.

(** [try_write_interrupt_packet] and, if [blocking], [write_interrupt_packet]: after
    queueing a report, in [wait_for_output_idle] before looking, waiting. *)
Inductive client_stage :=
  | CIdle
  | CNotify (blocking : bool)
  | CLook
  | CBlocked.

(** The report a client queued last, and how its last call ended. *)
Record Client := mk_client { stage : client_stage; report : list Z; ended : option (result bool) }.

(** [cancel], up to where it calls it, and [stop_output_writer]. *)
Inductive stop_stage := SCancel | SFlag | SEvent | SNotify | SJoin | SDone.

(** [accepted], [sent] and [outgoing_] record what was queued, the reports that are
    written, and the bytes the handle was given. *)
Record Sys := mk_sys {
  out : Output;
  stop_event_ : bool;
  writer : writer_stage;
  clients : list Client;
  stoppers : list stop_stage;
  accepted : list (list Z);
  sent : list (list Z);
  outgoing_ : list Z
}.

Definition initial_sys (callers : nat) : Sys :=
  mk_sys initial_output false WLook (replicate callers (mk_client CIdle [] None)) [] [] [] [].

Definition put_out (v : Output) (s : Sys) : Sys :=
  mk_sys v (stop_event_ s) (writer s) (clients s) (stoppers s) (accepted s) (sent s) (outgoing_ s).
Definition set_stop_event (s : Sys) : Sys :=
  mk_sys (out s) true (writer s) (clients s) (stoppers s) (accepted s) (sent s) (outgoing_ s).
Definition put_writer (v : writer_stage) (s : Sys) : Sys :=
  mk_sys (out s) (stop_event_ s) v (clients s) (stoppers s) (accepted s) (sent s) (outgoing_ s).
Definition put_client (i : nat) (v : Client) (s : Sys) : Sys :=
  mk_sys (out s) (stop_event_ s) (writer s) (<[i := v]> (clients s)) (stoppers s) (accepted s) (sent s)
    (outgoing_ s).
Definition put_clients (v : list Client) (s : Sys) : Sys :=
  mk_sys (out s) (stop_event_ s) (writer s) v (stoppers s) (accepted s) (sent s) (outgoing_ s).
Definition put_stoppers (v : list stop_stage) (s : Sys) : Sys :=
  mk_sys (out s) (stop_event_ s) (writer s) (clients s) v (accepted s) (sent s) (outgoing_ s).
Definition accept (write : list Z) (s : Sys) : Sys :=
  mk_sys (out s) (stop_event_ s) (writer s) (clients s) (stoppers s) (accepted s ++ [write]) (sent s)
    (outgoing_ s).
Definition hand_over (bytes : list Z) (s : Sys) : Sys :=
  mk_sys (out s) (stop_event_ s) (writer s) (clients s) (stoppers s) (accepted s) (sent s)
    (outgoing_ s ++ bytes).
Definition report_sent (buffer : list Z) (s : Sys) : Sys :=
  mk_sys (out s) (stop_event_ s) (writer s) (clients s) (stoppers s) (accepted s) (sent s ++ [buffer])
    (outgoing_ s).

(** ** The condition variable *)

Inductive waiter := TheWriter | TheClient (i : nat).

Definition wake (w : waiter) (s : Sys) : option Sys :=
  match w with
  | TheWriter => match writer s with WBlocked => Some (put_writer WLook s) | _ => None end
  | TheClient i =>
      match clients s !! i with
      | Some (mk_client CBlocked r e) => Some (put_client i (mk_client CLook r e) s)
      | _ => None
      end
  end.

Definition client_blocked (c : Client) : bool := match stage c with CBlocked => true | _ => false end.
Definition someone_waits (s : Sys) : bool :=
  match writer s with WBlocked => true | _ => existsb client_blocked (clients s) end.

Definition notify_one (chosen : option waiter) (s : Sys) : option Sys :=
  match chosen with
  | Some w => wake w s
  | None => if someone_waits s then None else Some s
  end.

Definition awake (c : Client) : Client :=
  match stage c with CBlocked => mk_client CLook (report c) (ended c) | _ => c end.
Definition notify_all (s : Sys) : Sys :=
  put_clients (awake <$> clients s) (match writer s with WBlocked => put_writer WLook s | _ => s end).

Section Moves.
Context `{WinSystem} (lengths : Lengths).

Definition write_label : string := "HID output write".

Definition hid_overlapped_io (o : hid_io) (label : string) : result nat :=
  match io_event_error o with
  | Some e => Throw (label +:+ " event failed: " +:+ win32_error_message e)
  | None =>
      match (match io_start_error o with
             | Some e => if e =? ERROR_IO_PENDING then None else Some e
             | None => None
             end) with
      | Some e => Throw (label +:+ " failed: " +:+ win32_error_message e)
      | None =>
          match io_wait o with
          | WaitStopEvent => Throw (label +:+ " stopped")
          | WaitFailed e => Throw (label +:+ " wait failed: " +:+ win32_error_message e)
          | WaitCompleted =>
              match io_result o with
              | Transferred n => Ok n
              | Error e => Throw (label +:+ " completion failed: " +:+ win32_error_message e)
              end
          end
      end
  end.

(** The stop event is reported only if it is set. *)
Definition possible (o : hid_io) (s : Sys) : bool :=
  match io_wait o with WaitStopEvent => stop_event_ s | _ => true end.

(** One round of the loop that writes a report: an operation moves at most what is left. *)
Definition write_round (o : hid_io) (buffer : list Z) (offset : nat) (s : Sys) : Sys :=
  let rest := drop offset buffer in
  match hid_overlapped_io o write_label with
  | Throw e => put_writer (WFailed e buffer) (hand_over (take (io_moved_anyway o) rest) s)
  | Ok n =>
      let written := Nat.min n (length rest) in
      if (written =? 0)%nat then put_writer (WFailed "HID output write returned zero bytes" buffer) s
      else
        let s := hand_over (take written rest) s in
        if (offset + written <? length buffer)%nat then put_writer (WWriting buffer (offset + written)) s
        else put_writer WWritten (report_sent buffer s)
  end.

Definition exec_writer (o : hid_io) (s : Sys) : option Sys :=
  match writer s with
  | WLook =>
      if writer_wakes (out s) then
        if output_stop_requested_ (out s) then Some (put_writer WExit s)
        else
          match output_queue_ (out s) with
          | write :: rest =>
              Some (put_writer (WWriting write 0) (put_out (put_write_active true (put_output_queue rest (out s))) s))
          | [] => None
          end
      else Some (put_writer WBlocked s)
  | WBlocked => None
  | WWriting buffer offset => if possible o s then Some (write_round o buffer offset s) else None
  | WFailed error _ =>
      Some (put_writer WExit (notify_all
              (put_out (set_diagnostic_pending (put_write_active false (put_output_error error (out s)))) s)))
  | WWritten => Some (put_writer WNotify (put_out (count_completed (put_write_active false (out s))) s))
  | WNotify => Some (put_writer WLook (notify_all s))
  | WExit => None
  end.

(** A client calls: up to the end of the critical section of [enqueue_output_report]. *)
Definition exec_call (i : nat) (packet : list Z) (blocking : bool) (s : Sys) : option Sys :=
  match clients s !! i with
  | Some (mk_client CIdle r _) =>
      match checked_packet lengths packet with
      | Throw e => Some (put_client i (mk_client CIdle r (Some (Throw e))) s)
      | Ok write =>
          match enqueue write (out s) with
          | (o, Throw e) => Some (put_client i (mk_client CIdle r (Some (Throw e))) (put_out o s))
          | (o, Ok false) =>
              let answer := if blocking then Throw "HID output queue full" else Ok false in
              Some (put_client i (mk_client CIdle r (Some answer)) (put_out o s))
          | (o, Ok true) => Some (put_client i (mk_client (CNotify blocking) write None) (accept write (put_out o s)))
          end
      end
  | _ => None
  end.

Definition exec_client (i : nat) (chosen : option waiter) (s : Sys) : option Sys :=
  match clients s !! i with
  | Some (mk_client (CNotify blocking) r _) =>
      put_client i (if blocking then mk_client CLook r None else mk_client CIdle r (Some (Ok true)))
        <$> notify_one chosen s
  | Some (mk_client CLook r e) =>
      if output_idle (out s) then
        let answer := if decide (output_error_ (out s) = "") then Ok true else Throw (output_error_ (out s)) in
        Some (put_client i (mk_client CIdle r (Some answer)) s)
      else Some (put_client i (mk_client CBlocked r e) s)
  | _ => None
  end.

Definition exec_stopper (i : nat) (s : Sys) : option Sys :=
  match stoppers s !! i with
  | Some SCancel => Some (put_stoppers (<[i := SFlag]> (stoppers s)) (set_stop_event s))
  | Some SFlag =>
      if output_stop_requested_ (out s) then Some (put_stoppers (<[i := SDone]> (stoppers s)) s)
      else Some (put_stoppers (<[i := SEvent]> (stoppers s))
                   (put_out (put_output_queue [] (put_stop_requested (out s))) s))
  | Some SEvent => Some (put_stoppers (<[i := SNotify]> (stoppers s)) (set_stop_event s))
  | Some SNotify => Some (put_stoppers (<[i := SJoin]> (stoppers s)) (notify_all s))
  | Some SJoin => match writer s with WExit => Some (put_stoppers (<[i := SDone]> (stoppers s)) s) | _ => None end
  | _ => None
  end.

Inductive move :=
  | MWriter (o : hid_io)
  | MCall (i : nat) (packet : list Z) (blocking : bool)
  | MClient (i : nat) (chosen : option waiter)
  | MStop (cancel : bool)
  | MStopper (i : nat)
  | MDiagnostics (force : bool)
  | MWake (w : waiter).

Definition exec (m : move) (s : Sys) : option Sys :=
  match m with
  | MWriter o => exec_writer o s
  | MCall i packet blocking => exec_call i packet blocking s
  | MClient i chosen => exec_client i chosen s
  | MStop cancel => Some (put_stoppers (stoppers s ++ [if cancel then SCancel else SFlag]) s)
  | MStopper i => exec_stopper i s
  | MDiagnostics force => Some (put_out (take_output_diagnostics force (out s)).1 s)
  | MWake w => wake w s
  end.

Fixpoint exec_all (ms : list move) (s : Sys) : option Sys :=
  match ms with
  | [] => Some s
  | m :: ms => s ← exec m s; exec_all ms s
  end.

(** Any interleaving of [callers] threads that write, threads that stop, and the writer. *)
Definition reachable (callers : nat) (s : Sys) : Prop := exists ms, exec_all ms (initial_sys callers) = Some s.

(** ** The invariant *)

Definition L : nat := Z.to_nat (output_report_length_ lengths).

(** The report that is neither queued nor written: it is being written, or that failed. *)
Definition in_flight (w : writer_stage) : list (list Z) :=
  match w with WWriting buffer _ | WFailed _ buffer => [buffer] | _ => [] end.
Definition active (w : writer_stage) : bool :=
  match w with WWriting _ _ | WFailed _ _ | WWritten => true | _ => false end.
Definition uncounted (w : writer_stage) : Z := match w with WWritten => 1 | _ => 0 end.
Definition stage_ok (w : writer_stage) : Prop :=
  match w with
  | WWriting buffer offset => length buffer = L /\ (offset < L)%nat
  | WFailed error buffer => length buffer = L /\ error <> ""
  | _ => True
  end.

(** [thin given kept]: [kept] is [given] without some of its audio reports. *)
Inductive thin : list (list Z) -> list (list Z) -> Prop :=
  | thin_nil : thin [] []
  | thin_keep w given kept : thin given kept -> thin (w :: given) (w :: kept)
  | thin_drop w given kept : is_audio w = true -> thin given kept -> thin (w :: given) kept.

(** The reports being written and written, out of the first reports accepted; as long as
    nothing stops or fails, the queue holds the others, the newest among them. *)
Definition order_ok (s : Sys) : Prop :=
  exists before behind, accepted s = before ++ behind /\ thin before (sent s ++ in_flight (writer s))
  /\ (output_stop_requested_ (out s) = false -> output_error_ (out s) = "" ->
      thin behind (output_queue_ (out s))
      /\ last (accepted s) = last (sent s ++ in_flight (writer s) ++ output_queue_ (out s))).

(** What the handle was given: the reports written, and a part of one more. *)
Definition bytes_ok_ (s : Sys) : Prop :=
  match writer s with
  | WWriting buffer offset => outgoing_ s = concat (sent s) ++ take offset buffer
  | WFailed _ _ | WExit => exists part, outgoing_ s = concat (sent s) ++ part /\ (length part <= L)%nat
  | _ => outgoing_ s = concat (sent s)
  end.

(** Every report queued is completed, being written, queued, coalesced, or was lost to an
    error; the counters count modulo [2 ^ 64]. *)
Definition counters_ok (s : Sys) : Prop :=
  output_completed_count_ (out s) = u64 (Z.of_nat (length (sent s)) - uncounted (writer s))
  /\ output_queued_count_ (out s) = u64 (Z.of_nat (length (accepted s)))
  /\ (output_stop_requested_ (out s) = false ->
      output_queued_count_ (out s) =
      u64 (output_completed_count_ (out s) + output_audio_coalesced_count_ (out s)
           + Z.of_nat (length (output_queue_ (out s))) + (if active (writer s) then 1 else 0)
           + (if decide (output_error_ (out s) = "") then 0 else 1))).

Record inv (s : Sys) : Prop := {
  inv_queue : queue_ok L (output_queue_ (out s));
  inv_stage : stage_ok (writer s);
  inv_error : output_error_ (out s) <> "" -> writer s = WExit;
  inv_exit : writer s = WExit -> output_error_ (out s) <> "" \/ output_stop_requested_ (out s) = true;
  inv_active : output_write_active_ (out s) = active (writer s);
  inv_order : order_ok s;
  inv_bytes : bytes_ok_ s;
  inv_counters : counters_ok s
}.

(** ** Facts: words and thinned lists *)

Lemma u64_add_l a b : u64 (u64 a + b) = u64 (a + b).
Proof. unfold u64. apply Z.add_mod_idemp_l. lia. Qed.
Lemma u64_of_add a b c d : a = u64 b -> u64 (b + c) = d -> u64 (a + c) = d.
Proof. intros -> <-. apply u64_add_l. Qed.
Lemma u64_shift x a b : u64 a = u64 b -> u64 (x + a) = u64 (x + b).
Proof. unfold u64. intros E. rewrite <- (Z.add_mod_idemp_r x a), E, Z.add_mod_idemp_r by lia. done. Qed.
Lemma u64_plus_one a b c : a = u64 b -> c = b + 1 -> u64 (a + 1) = u64 c.
Proof. intros -> ->. apply u64_add_l. Qed.

Lemma thin_app a1 a2 k1 k2 : thin a1 k1 -> thin a2 k2 -> thin (a1 ++ a2) (k1 ++ k2).
Proof. intros H1 H2. induction H1; cbn; [done|by constructor..]. Qed.
Lemma thin_refl a : thin a a.
Proof. induction a; by constructor. Qed.
Lemma thin_split a k1 k2 : thin a (k1 ++ k2) -> exists a1 a2, a = a1 ++ a2 /\ thin a1 k1 /\ thin a2 k2.
Proof.
  remember (k1 ++ k2) as k eqn:E. intros Ht. revert k1 k2 E. induction Ht as [|w a k Ht IH|w a k Hw Ht IH]; intros k1 k2 E.
  - symmetry in E. apply app_eq_nil in E as [-> ->]. exists [], []. split_and!; constructor.
  - destruct k1 as [|x k1]; cbn in E.
    + destruct (IH [] k) as (a1 & a2 & -> & H1 & H2); [done|]. exists [], (w :: a1 ++ a2).
      split_and!; [done|constructor|]. rewrite <- E. by constructor.
    + injection E as <- E. destruct (IH _ _ E) as (a1 & a2 & -> & H1 & H2). exists (w :: a1), a2.
      split_and!; [done|by constructor|done].
  - destruct (IH _ _ E) as (a1 & a2 & -> & H1 & H2). exists (w :: a1), a2. split_and!; [done|by constructor|done].
Qed.
Lemma thin_erase a queue rest : thin a queue -> erase_audio queue = Some rest -> thin a rest.
Proof.
  intros Ht (b & w & c & -> & -> & Hw & _)%erase_audio_Some.
  apply thin_split in Ht as (a1 & a2 & -> & H1 & H2). apply thin_app; [done|].
  remember (w :: c) as k eqn:E. induction H2 as [|x a k H2 IH|x a k Hx H2 IH]; [done| |by constructor; auto].
  injection E as -> ->. by constructor.
Qed.
Lemma thin_sublist a k : thin a k -> k `sublist_of` a.
Proof. induction 1; by constructor. Qed.
Lemma thin_others a k :
  thin a k -> filter (fun w => is_audio w = false) k = filter (fun w => is_audio w = false) a.
Proof.
  induction 1 as [|w a k Ht IH|w a k Hw Ht IH]; [done| |]; rewrite !filter_cons; [by case_decide; rewrite IH|].
  by rewrite decide_False by congruence.
Qed.

(** ** The invariant is kept *)

Context (HL : (0 < L)%nat).

(** Waiting or about to look is the same for the invariant. *)
Definition looks (w : writer_stage) : writer_stage := match w with WBlocked => WLook | _ => w end.

(** Changes of who waits, of callers and of stoppers. *)
Definition same_core (s s' : Sys) : Prop :=
  out s' = out s /\ looks (writer s') = looks (writer s) /\ accepted s' = accepted s /\ sent s' = sent s
  /\ outgoing_ s' = outgoing_ s.

Lemma stage_looks w : stage_ok (looks w) <-> stage_ok w.
Proof. by destruct w. Qed.
Lemma in_flight_looks w : in_flight (looks w) = in_flight w.
Proof. by destruct w. Qed.
Lemma active_looks w : active (looks w) = active w.
Proof. by destruct w. Qed.
Lemma uncounted_looks w : uncounted (looks w) = uncounted w.
Proof. by destruct w. Qed.
Lemma bytes_looks s s' : same_core s s' -> bytes_ok_ s -> bytes_ok_ s'.
Proof.
  unfold bytes_ok_. intros (_ & Hw & _ & -> & ->). by destruct (writer s), (writer s'); try discriminate; try injection Hw as -> ->.
Qed.

Lemma inv_same s s' : same_core s s' -> inv s -> inv s'.
Proof.
  intros Hc [H1 H2 He Hx H3 H4 H5 H6]. pose proof (bytes_looks _ _ Hc H5) as H5'. destruct Hc as (Ho & Hw & Ha & Hs & Hg).
  unfold order_ok, counters_ok in *. split; unfold order_ok, counters_ok; try done.
  - by rewrite Ho.
  - by rewrite <- stage_looks, Hw, stage_looks.
  - rewrite Ho. intros E%He. rewrite E in Hw. by destruct (writer s').
  - rewrite Ho. intros E. rewrite E in Hw. apply Hx. by destruct (writer s).
  - by rewrite Ho, <- active_looks, Hw, active_looks.
  - by rewrite Ho, Ha, Hs, <- in_flight_looks, Hw, in_flight_looks.
  - by rewrite Ho, Ha, Hs, <- uncounted_looks, <- active_looks, Hw, uncounted_looks, active_looks.
Qed.

Lemma same_refl s : same_core s s.
Proof. done. Qed.
Lemma same_trans s1 s2 s3 : same_core s1 s2 -> same_core s2 s3 -> same_core s1 s3.
Proof. intros (?&?&?&?&?) (?&?&?&?&?). split_and!; congruence. Qed.
Lemma same_clients v s : same_core s (put_clients v s).
Proof. done. Qed.
Lemma same_client i c s : same_core s (put_client i c s).
Proof. done. Qed.
Lemma same_stoppers v s : same_core s (put_stoppers v s).
Proof. done. Qed.
Lemma same_stop_event s : same_core s (set_stop_event s).
Proof. done. Qed.
Lemma same_notify_all s : same_core s (notify_all s).
Proof. unfold notify_all. by destruct (writer s) eqn:E; unfold same_core; cbn; rewrite ?E. Qed.
Lemma same_wake w s s' : wake w s = Some s' -> same_core s s'.
Proof.
  unfold wake. destruct w as [|i].
  - destruct (writer s) eqn:E; try done. intros [= <-]. unfold same_core. cbn. by rewrite E.
  - by repeat case_match; intros [= <-].
Qed.
Lemma same_notify_one c s s' : notify_one c s = Some s' -> same_core s s'.
Proof. unfold notify_one. destruct c; [apply same_wake|]. case_match; by intros [= <-]. Qed.

Lemma io_error o e : hid_overlapped_io o write_label = Throw e -> e <> "".
Proof. unfold hid_overlapped_io. intros E ->. by repeat case_match. Qed.

(** The next report is taken. *)
Lemma keeps_pop s w rest :
  inv s -> writer s = WLook -> output_queue_ (out s) = w :: rest -> output_stop_requested_ (out s) = false ->
  inv (put_writer (WWriting w 0) (put_out (put_write_active true (put_output_queue rest (out s))) s)).
Proof.
  intros [(H1 & H2 & H3) H4 He Hx H5 (before & behind & Ha & Hb & Hc) H7 (C1 & C2 & C3)] Hw Hq Hs.
  assert (output_error_ (out s) = "") as He'.
  { destruct (decide (output_error_ (out s) = "")) as [?|E]; [done|]. apply He in E. congruence. }
  unfold bytes_ok_ in H7. unfold order_ok, counters_ok in *. rewrite Hw in *. rewrite Hq in *. cbn in H1, H5, Hb, C1, C3.
  rewrite audio_cons in H2. apply Forall_cons in H3 as [H3 H3']. rewrite app_nil_r in Hb. destruct (Hc Hs He') as [Ht Hl].
  apply (thin_split _ [w]) in Ht as (a1 & a2 & -> & T1 & T2).
  split; try done.
  - change (queue_ok L rest). split_and!; (done || lia).
  - unfold order_ok. cbn. exists (before ++ a1), a2. split_and!; [by rewrite Ha, app_assoc|by apply thin_app|].
    intros _ _. split; [done|]. by rewrite Hl.
  - unfold bytes_ok_. cbn. by rewrite app_nil_r.
  - unfold counters_ok. cbn. split_and!; [done..|]. intros _. rewrite (C3 Hs). cbn. f_equal. lia.
Qed.

(** A round of writing. *)
Lemma keeps_write o buffer offset s :
  inv s -> writer s = WWriting buffer offset -> inv (write_round o buffer offset s).
Proof.
  intros [H1 H4 He Hx H5 H6 H7 H8] Hw. unfold bytes_ok_ in H7. unfold order_ok, counters_ok in *. rewrite Hw in *.
  destruct H4 as [Hl Ho]. cbn in H5, H6, H8.
  assert (length (drop offset buffer) = (L - offset)%nat) as Hd by (rewrite length_drop; lia).
  assert (forall n, outgoing_ s ++ take n (drop offset buffer) = concat (sent s) ++ take (offset + n) buffer) as Hg.
  { intros n. rewrite H7, <- app_assoc. f_equal. by rewrite take_take_drop. }
  unfold write_round. destruct (hid_overlapped_io o write_label) as [n|e] eqn:E.
  - destruct (Nat.eqb_spec (Nat.min n (length (drop offset buffer))) 0) as [Hz|Hz].
    + split; unfold order_ok, bytes_ok_, counters_ok; cbn; try (done || by intros X%He).
      exists (take offset buffer). split; [done|]. rewrite length_take. lia.
    + destruct (Nat.ltb_spec (offset + Nat.min n (length (drop offset buffer))) (length buffer)).
      * split; unfold order_ok, bytes_ok_, counters_ok; cbn; try (done || by intros X%He). split; [done|lia].
      * split; unfold order_ok, bytes_ok_, counters_ok; cbn; try (done || by intros X%He).
        -- by rewrite app_nil_r, <- app_assoc.
        -- rewrite Hg, concat_app. cbn. rewrite app_nil_r. f_equal. apply take_ge. lia.
        -- destruct H8 as (C1 & C2 & C3). split_and!; [|done..]. rewrite C1, length_app. cbn. f_equal. lia.
  - split; unfold order_ok, bytes_ok_, counters_ok; cbn; try (done || by intros X%He).
    + split; [done|by eapply io_error].
    + exists (take (offset + io_moved_anyway o) buffer). rewrite <- Hg. split; [done|]. rewrite length_take. lia.
Qed.

(** The writer ends after an error, or goes on after a report. *)
Lemma keeps_failed s error buffer :
  inv s -> writer s = WFailed error buffer ->
  inv (put_writer WExit
         (put_out (set_diagnostic_pending (put_write_active false (put_output_error error (out s)))) s)).
Proof.
  intros [H1 H4 He Hx H5 (b & e & Ha & Hb & Hc) H7 (C1 & C2 & C3)] Hw.
  unfold bytes_ok_ in H7. rewrite Hw in *. destruct H4 as [_ Hne]. cbn in H5, Hb, C1, C3.
  assert (output_error_ (out s) = "") as He'.
  { destruct (decide (output_error_ (out s) = "")) as [?|E]; [done|]. by apply He in E. }
  split; unfold order_ok, bytes_ok_, counters_ok; cbn; try done; [by left| |].
  - apply thin_split in Hb as (a1 & a2 & -> & T1 & _). exists a1, (a2 ++ e). rewrite app_nil_r.
    split_and!; [by rewrite Ha, app_assoc|done..].
  - split_and!; [done..|]. intros Hs. rewrite (C3 Hs), decide_True, decide_False by done. f_equal. lia.
Qed.

Lemma keeps_written s :
  inv s -> writer s = WWritten -> inv (put_writer WNotify (put_out (count_completed (put_write_active false (out s))) s)).
Proof.
  intros [H1 H4 He Hx H5 (b & e & Ha & Hb & Hc) H7 (C1 & C2 & C3)] Hw.
  unfold bytes_ok_ in H7. rewrite Hw in *. cbn in H5, Hb, C1, C3.
  split; unfold order_ok, bytes_ok_, counters_ok; cbn; try (done || by intros X%He).
  - by exists b, e.
  - rewrite C1. split_and!; [|done|].
    + rewrite u64_add_l. f_equal. lia.
    + intros Hs. rewrite (C3 Hs), <- C1. symmetry. rewrite <- !Z.add_assoc, u64_add_l. f_equal. lia.
Qed.

Lemma keeps_next s : inv s -> writer s = WNotify -> inv (put_writer WLook s).
Proof.
  intros [H1 H4 He Hx H5 (b & e & Ha & Hb & Hc) H7 (C1 & C2 & C3)] Hw.
  unfold bytes_ok_ in H7. rewrite Hw in *.
  split; unfold order_ok, bytes_ok_, counters_ok; cbn; try (done || by intros X%He). by exists b, e.
Qed.

Lemma keeps_leave s : inv s -> writer s = WLook -> output_stop_requested_ (out s) = true -> inv (put_writer WExit s).
Proof.
  intros [H1 H4 He Hx H5 (b & e & Ha & Hb & Hc) H7 (C1 & C2 & C3)] Hw Hs.
  unfold bytes_ok_ in H7. rewrite Hw in *.
  split; unfold order_ok, bytes_ok_, counters_ok; cbn; try done; [by right|by exists b, e|].
  exists []. rewrite app_nil_r. split; [done|cbn; lia].
Qed.

(** The stop empties the queue. *)
Lemma keeps_stop s : inv s -> inv (put_out (put_output_queue [] (put_stop_requested (out s))) s).
Proof.
  intros [H1 H4 He Hx H5 (b & e & Ha & Hb & Hc) H7 (C1 & C2 & C3)].
  split; unfold order_ok, counters_ok; cbn; try done.
  - unfold queue_ok, kMaxPendingHidOutputWrites, kMaxQueuedHidAudioOutputWrites. cbn. split_and!; [lia..|done].
  - by right.
  - by exists b, e.
Qed.

Lemma keeps_diagnostics force s : inv s -> inv (put_out (take_output_diagnostics force (out s)).1 s).
Proof.
  intros [H1 H4 He Hx H5 H6 H7 H8]. unfold take_output_diagnostics, mbind, prog_bind, get_state, modify, mret, prog_ret.
  by repeat case_match.
Qed.

Lemma checked_length packet write : checked_packet lengths packet = Ok write -> length write = L.
Proof.
  unfold checked_packet, make_output_write. destruct packet as [|p r]; [done|]. case_match; [|done].
  destruct (Z.ltb_spec (output_report_length_ lengths) (Z.of_nat (length r))); [done|]. intros [= <-].
  by apply padded_length.
Qed.

(** The state after a report is accepted behind [rest]. *)
Lemma keeps_accept s write rest extra :
  inv s -> output_error_ (out s) = "" ->
  output_error_ extra = output_error_ (out s) -> output_stop_requested_ extra = output_stop_requested_ (out s) ->
  output_write_active_ extra = output_write_active_ (out s) ->
  output_queued_count_ extra = output_queued_count_ (out s) ->
  output_completed_count_ extra = output_completed_count_ (out s) ->
  (forall a, thin a (output_queue_ (out s)) -> thin a rest) ->
  u64 (output_audio_coalesced_count_ extra + Z.of_nat (length rest)) =
  u64 (output_audio_coalesced_count_ (out s) + Z.of_nat (length (output_queue_ (out s)))) ->
  queue_ok L (rest ++ [write]) ->
  inv (accept write (put_out (count_queued (put_output_queue (rest ++ [write]) extra)) s)).
Proof.
  intros [H1 H4 He Hx H5 (b & e & Ha & Hb & Hc) H7 (C1 & C2 & C3)] He' E1 E2 E3 E4 E5 Ht Hn Hok.
  split; unfold order_ok, bytes_ok_, counters_ok; cbn; try (done || congruence).
  - rewrite E1, E2. done.
  - exists b, (e ++ [write]). split_and!; [by rewrite Ha, app_assoc|done|]. rewrite E1, E2. intros Hs _.
    destruct (Hc Hs He') as [T _]. split; [apply thin_app; [by apply Ht|apply thin_refl]|].
    by rewrite !app_assoc, !last_snoc.
  - rewrite E1, E2, E4, E5. split_and!; [done| |].
    + rewrite C2, u64_add_l, length_app. cbn. f_equal. lia.
    + intros Hs. rewrite (C3 Hs), u64_add_l, length_app. cbn. set (A := if active _ then 1 else 0). set (B := if decide _ then 0 else 1).
      apply (u64_shift (output_completed_count_ (out s) + A + B + 1)) in Hn.
      etrans; [|etrans; [symmetry; exact Hn|]]; f_equal; lia.
Qed.

(** Queueing: the report is accepted, perhaps in the place of an older audio report. *)
Lemma keeps_enqueue write o r s :
  inv s -> length write = L -> enqueue write (out s) = (o, r) ->
  inv (match r with Ok true => accept write (put_out o s) | _ => put_out o s end).
Proof.
  intros Hi Hl Hen. pose proof (inv_queue _ Hi) as H1. pose proof (enqueue_keeps _ _ _ _ _ H1 Hl Hen) as Hq.
  assert (inv (put_out (count_rejected (out s)) s)) as Hr by (by destruct Hi; split).
  rewrite (enqueue_spec L) in Hen by done. unfold enqueue_closed in Hen. cbv zeta in Hen.
  destruct (decide (output_error_ (out s) = "")) as [He'|]; [|injection Hen as <- <-; by destruct Hi; split].
  destruct (drops _ _).
  - destruct (erase_audio _) as [rest|] eqn:E; injection Hen as <- <-; [|done].
    pose proof E as [Hlen _]%erase_audio_counts.
    apply (keeps_accept s write rest (count_coalesced (out s))); try done; cbn.
    + intros a Ht. by eapply thin_erase.
    + rewrite u64_add_l. f_equal. lia.
  - destruct (_ <=? _)%nat; injection Hen as <- <-; [done|]. by apply (keeps_accept s write (output_queue_ (out s)) (out s)).
Qed.

(** Every move keeps the invariant. *)
Lemma keeps_writer o s s' : inv s -> exec_writer o s = Some s' -> inv s'.
Proof.
  intros Hi. unfold exec_writer. destruct (writer s) eqn:Hw; try done.
  - destruct (writer_wakes (out s)) eqn:Hk.
    + destruct (output_stop_requested_ (out s)) eqn:Hs; [intros [= <-]; by apply keeps_leave|].
      destruct (output_queue_ (out s)) eqn:Hq; [done|]. intros [= <-]. by apply keeps_pop.
    + intros [= <-]. apply (inv_same s); [|done]. unfold same_core. cbn. by rewrite Hw.
  - case_match; [|done]. intros [= <-]. by apply keeps_write.
  - intros [= <-]. eapply inv_same; [|by apply (keeps_failed s error buffer)].
    unfold same_core, notify_all. cbn. by rewrite Hw.
  - intros [= <-]. by apply keeps_written.
  - intros [= <-]. eapply inv_same; [|by apply keeps_next]. unfold same_core, notify_all. cbn. by rewrite Hw.
Qed.

Lemma keeps_call i packet blocking s s' : inv s -> exec_call i packet blocking s = Some s' -> inv s'.
Proof.
  intros Hi. unfold exec_call. destruct (clients s !! i) as [[[] ? ?]|]; try done.
  destruct (checked_packet lengths packet) as [write|] eqn:Hc;
    [|intros [= <-]; by apply (inv_same s)].
  destruct (enqueue write (out s)) as [o r] eqn:He.
  pose proof (keeps_enqueue _ _ _ _ Hi (checked_length _ _ Hc) He) as Hk.
  destruct r as [[]|]; intros [= <-]; by apply (inv_same _ _ (same_client _ _ _)).
Qed.

Lemma same_exec_client i c s s' : exec_client i c s = Some s' -> same_core s s'.
Proof.
  unfold exec_client. destruct (clients s !! i) as [[[| | |] ? ?]|]; try done.
  - intros (s1 & H1 & ->)%fmap_Some_1. by apply same_notify_one in H1.
  - case_match; by intros [= <-].
Qed.

Lemma keeps_stopper i s s' : inv s -> exec_stopper i s = Some s' -> inv s'.
Proof.
  intros Hi. unfold exec_stopper. destruct (stoppers s !! i) as [[]|]; try done.
  - intros [= <-]. by apply (inv_same s).
  - case_match; intros [= <-]; [by apply (inv_same s)|]. eapply inv_same; [|by apply keeps_stop]. done.
  - intros [= <-]. by apply (inv_same s).
  - intros [= <-]. apply (inv_same s); [|done]. apply same_notify_all.
  - case_match; try done. intros [= <-]. by apply (inv_same s).
Qed.

Lemma keeps_exec m s s' : inv s -> exec m s = Some s' -> inv s'.
Proof.
  intros Hi. destruct m; cbn [exec].
  - by apply keeps_writer.
  - by apply keeps_call.
  - intros Hc%same_exec_client. by eapply inv_same.
  - intros [= <-]. by apply (inv_same s).
  - by apply keeps_stopper.
  - intros [= <-]. by apply keeps_diagnostics.
  - intros Hc%same_wake. by eapply inv_same.
Qed.

Lemma initial_inv callers : inv (initial_sys callers).
Proof.
  split; try done.
  - unfold queue_ok, kMaxPendingHidOutputWrites, kMaxQueuedHidAudioOutputWrites. cbn. split_and!; [lia..|done].
  - exists [], []. split_and!; try constructor; constructor.
Qed.

Lemma exec_all_inv ms s s' : inv s -> exec_all ms s = Some s' -> inv s'.
Proof.
  revert s. induction ms as [|m ms IH]; intros s Hi; cbn; [by intros [= <-]|].
  intros (s1 & H1 & H2)%bind_Some. eapply IH; [|done]. by eapply keeps_exec.
Qed.
Lemma reachable_inv callers s : reachable callers s -> inv s.
Proof. intros [ms Hm]. eapply exec_all_inv; [|done]. apply initial_inv. Qed.
End Moves.

(** ** Who waits, and who will wake them *)

Section Waiting.
Context `{WinSystem} (lengths : Lengths).
Abbreviation exec := (exec lengths).
Abbreviation exec_all := (exec_all lengths).

Definition stopping (t : stop_stage) : bool := match t with SEvent | SNotify => true | _ => false end.
(** A stop was asked for, and its notification is still to come. *)
Definition stop_pending (s : Sys) : bool := output_stop_requested_ (out s) && existsb stopping (stoppers s).

(** Why a client may wait: the notification it waits for is still to come. *)
Record may_wait (s : Sys) : Prop := {
  may_error : output_error_ (out s) = "";
  may_stop : output_stop_requested_ (out s) = true -> stop_pending s = true;
  may_busy : output_queue_ (out s) <> [] \/ output_write_active_ (out s) = true \/ writer s = WNotify \/ stop_pending s = true
}.

Record waits_ok (s : Sys) : Prop := {
  waits_writer : writer s = WBlocked -> output_stop_requested_ (out s) = true -> stop_pending s = true;
  waits_clients : existsb client_blocked (clients s) = true -> may_wait s;
  waits_stop : forall i t, stoppers s !! i = Some t -> stopping t = true \/ t = SJoin ->
    output_stop_requested_ (out s) = true
}.

Lemma existsb_insert {A} (P : A -> bool) (l : list A) i x :
  existsb P (<[i := x]> l) = true -> P x = true \/ existsb P l = true.
Proof.
  revert i. induction l as [|y l IH]; intros [|i]; cbn; try done; [destruct (P x), (P y); auto|].
  destruct (P y); cbn; [by right|]. apply IH.
Qed.
Lemma existsb_update {A} (P : A -> bool) (l : list A) i x y :
  l !! i = Some y -> P x = true \/ P y = false -> existsb P l = true -> existsb P (<[i := x]> l) = true.
Proof.
  revert i. induction l as [|z l IH]; intros [|i] Hi Hp; cbn in *; try done.
  - injection Hi as ->. destruct (P x), (P y); cbn; try done; by destruct Hp.
  - destruct (P z); cbn; [done|]. by apply IH.
Qed.
Lemma awake_none l : existsb client_blocked (awake <$> l) = false.
Proof. induction l as [|[[] r e] l IH]; done. Qed.
Lemma notify_all_none s : existsb client_blocked (clients (notify_all s)) = false.
Proof. unfold notify_all. cbn. apply awake_none. Qed.
Lemma notify_all_writer s : writer (notify_all s) = looks (writer s).
Proof. unfold notify_all. by destruct (writer s) eqn:E; cbn. Qed.
Lemma notify_all_frame s :
  out (notify_all s) = out s /\ stoppers (notify_all s) = stoppers s.
Proof. unfold notify_all. by destruct (writer s). Qed.

(** A client that is not the one to wait does not change who waits. *)
Lemma waits_client s i c :
  waits_ok s -> (client_blocked c = true -> may_wait s) -> waits_ok (put_client i c s).
Proof.
  intros [H1 H2 H4] Hc. split; try done.
  intros Hb. assert (may_wait s) as [] by (by apply existsb_insert in Hb as [Hx|Hx]; [apply Hc|apply H2]). by split.
Qed.

Lemma waits_wake w s s' : waits_ok s -> wake w s = Some s' -> waits_ok s'.
Proof.
  intros Hi. unfold wake. destruct w as [|i].
  - destruct (writer s) eqn:Hw; try done. intros [= <-]. destruct Hi as [H1 H2 H4]. split; try done.
    cbn. intros [E1 E2 E3]%H2. split; [done..|]. rewrite Hw in E3. destruct E3 as [?|[?|[?|?]]]; auto.
  - destruct (clients s !! i) as [[[] r e]|]; try done. intros [= <-]. by apply waits_client.
Qed.
Lemma waits_notify_one c s s' : waits_ok s -> notify_one c s = Some s' -> waits_ok s'.
Proof. unfold notify_one. destruct c; [apply waits_wake|]. intros Hi. case_match; by intros [= <-]. Qed.

Lemma waits_exec_client i c s s' : waits_ok s -> exec_client i c s = Some s' -> waits_ok s'.
Proof.
  intros Hi. unfold exec_client. destruct (clients s !! i) as [[[|b| |] r e]|]; try done.
  - intros (s1 & H1 & ->)%fmap_Some_1. apply waits_client; [by eapply waits_notify_one|]. by destruct b.
  - destruct (output_idle (out s)) eqn:Hd; intros [= <-]; apply waits_client; try done. intros _.
    unfold output_idle in Hd. apply orb_false_iff in Hd as [[Hs He]%orb_false_iff Hq].
    apply negb_false_iff, bool_decide_eq_true in He. split; [done|congruence|].
    apply andb_false_iff in Hq as [Hq|Hq]; [left; by intros Hn; rewrite Hn in Hq|].
    right; left. by apply negb_false_iff.
Qed.

Lemma waits_call i packet blocking s s' :
  inv lengths s -> waits_ok s -> exec_call lengths i packet blocking s = Some s' -> waits_ok s'.
Proof.
  intros Hv Hi. unfold exec_call. destruct (clients s !! i) as [[[] r e]|]; try done.
  destruct (checked_packet lengths packet) as [write|] eqn:Hc; [|intros [= <-]; by apply waits_client].
  destruct (enqueue write (out s)) as [o x] eqn:He.
  destruct (enqueue_frame _ _ _ _ _ (inv_queue _ _ Hv) He) as (E1 & E2 & E3 & E4 & E5).
  assert (waits_ok (put_out o s)) as Ho.
  { destruct Hi as [H1 H2 H4]. split; unfold stop_pending in *; cbn; rewrite ?E1, ?E2, ?E3; try done.
    intros [F1 F2 F3]%H2. split; unfold stop_pending in *; cbn; rewrite ?E1, ?E2, ?E3; try done.
    destruct E4 as [-> | ->]; [|done]. left. destruct (E5 eq_refl) as [rest ->]. by destruct rest. }
  assert (waits_ok (accept write (put_out o s))) as Ha.
  { destruct Ho as [G1 G2 G4]. split; try done. intros [F1 F2 F3]%G2. by split. }
  destruct x as [[]|]; intros [= <-]; by apply waits_client.
Qed.

Lemma waits_writer_move o s s' : inv lengths s -> waits_ok s -> exec_writer o s = Some s' -> waits_ok s'.
Proof.
  intros Hv [H1 H2 H4]. unfold exec_writer. destruct (writer s) eqn:Hw; try done.
  - destruct (writer_wakes (out s)) eqn:Hk; unfold writer_wakes in Hk.
    + destruct (output_stop_requested_ (out s)) eqn:Hs.
      * intros [= <-]. split; try done; cbn. intros [F1 F2 F3]%H2. split; [done..|]. rewrite Hw in F3.
        destruct F3 as [?|[?|[?|?]]]; auto.
      * destruct (output_queue_ (out s)) as [|w rest]; [done|]. intros [= <-].
        split; cbn; try done; [|by rewrite Hs]. intros [F1 F2 F3]%H2. split; [done..|]. right. by left.
    + apply orb_false_iff in Hk as [Hs _]. intros [= <-]. split; cbn; try done; [congruence|].
      intros [F1 F2 F3]%H2. split; [done..|]. rewrite Hw in F3. destruct F3 as [?|[?|[?|?]]]; auto.
  - case_match; [|done]. intros [= <-]. pose proof (inv_active _ _ Hv) as Ha. rewrite Hw in Ha.
    unfold write_round. repeat case_match; split; cbn; try done;
      intros [F1 F2 F3]%H2; (split; [done..|]); right; by left.
  - intros [= <-]. set (s1 := put_out _ s). destruct (notify_all_frame s1) as [Eo Es].
    split; cbn -[notify_all]; rewrite ?notify_all_none, ?Eo, ?Es; done.
  - intros [= <-]. split; cbn; try done. intros [F1 F2 F3]%H2. split; [done..|]. auto.
  - intros [= <-]. destruct (notify_all_frame s) as [Eo Es].
    split; cbn -[notify_all]; rewrite ?notify_all_none, ?Eo, ?Es; done.
Qed.

(** A stopper that is not about to notify goes on. *)
Lemma waits_stopper i s s' : waits_ok s -> exec_stopper i s = Some s' -> waits_ok s'.
Proof.
  intros Hi. pose proof Hi as [H1 H2 H4]. unfold exec_stopper. destruct (stoppers s !! i) as [t|] eqn:Ht; [|done].
  assert (forall t' s1, stopping t = false \/ stopping t' = true ->
    (stopping t' = true \/ t' = SJoin -> output_stop_requested_ (out s) = true) ->
    out s1 = out s -> writer s1 = writer s -> clients s1 = clients s ->
    waits_ok (put_stoppers (<[i := t']> (stoppers s)) s1)) as Hput.
  { intros t' s1 Hp Ht' Eo Ew Ec.
    assert (stop_pending s = true -> stop_pending (put_stoppers (<[i := t']> (stoppers s)) s1) = true) as Hpend.
    { unfold stop_pending. cbn. rewrite Eo. intros [-> Hx]%andb_true_iff. eapply existsb_update; [done| |done].
      destruct Hp; auto. }
    split; cbn; rewrite ?Eo, ?Ew, ?Ec; try done.
    - intros Hb Hs. apply Hpend. by apply H1.
    - intros [F1 F2 F3]%H2. split; cbn; rewrite ?Eo, ?Ew; auto. destruct F3 as [?|[?|[?|?]]]; auto.
    - intros j u. destruct (decide (i = j)) as [<-|Hn].
      + rewrite list_lookup_insert_eq by (by eapply lookup_lt_Some). intros [= <-]. exact Ht'.
      + rewrite list_lookup_insert_ne by done. apply H4. }
  destruct t; try done.
  - intros [= <-]. apply Hput; try done; [by left|by intros []].
  - destruct (output_stop_requested_ (out s)) eqn:Hs; intros [= <-]; [apply Hput; try done; by left|].
    assert (existsb stopping (<[i := SEvent]> (stoppers s)) = true) as Hp.
    { apply existsb_exists. exists SEvent. split; [|done]. apply list_elem_of_In, list_elem_of_lookup. exists i.
      apply list_lookup_insert_eq. by eapply lookup_lt_Some. }
    split; unfold stop_pending; cbn; rewrite ?Hp; try done. intros [F1 _ _]%H2.
    split; unfold stop_pending; cbn; rewrite ?Hp; auto.
  - intros [= <-]. apply Hput; try done; [by right|]. intros _. eapply H4; [done|by left].
  - intros [= <-]. destruct (notify_all_frame s) as [Eo Es].
    split; cbn -[notify_all]; rewrite ?notify_all_none, ?notify_all_writer, ?Eo; try done.
    + by destruct (writer s).
    + intros j u Hj Hu. eapply (H4 i SNotify); [done|by left].
  - destruct (writer s) eqn:Hw; try done. intros [= <-]. apply Hput; try done; [by left|by intros []].
Qed.

Lemma waits_exec m s s' : inv lengths s -> waits_ok s -> exec m s = Some s' -> waits_ok s'.
Proof.
  intros Hv Hi. destruct m; cbn [WinWriter.exec].
  - by apply waits_writer_move.
  - by apply waits_call.
  - by apply waits_exec_client.
  - intros [= <-]. destruct Hi as [H1 H2 H4].
    assert (stop_pending s = true -> forall t, stop_pending (put_stoppers (stoppers s ++ [t]) s) = true) as Hpend.
    { unfold stop_pending. cbn. intros [-> Hx]%andb_true_iff t. by rewrite existsb_app, Hx. }
    split; cbn; try done.
    + intros Hb Hs. by apply Hpend, H1.
    + intros [F1 F2 F3]%H2. split; cbn; auto. destruct F3 as [?|[?|[?|?]]]; auto.
    + intros i t Hl Ht. apply lookup_app_Some in Hl as [Hl|[_ Hl]]; [by eapply H4|].
      apply list_lookup_singleton_Some in Hl as [_ <-]. by destruct cancel, Ht.
  - by apply waits_stopper.
  - intros [= <-]. destruct Hi as [H1 H2 H4]. unfold take_output_diagnostics, mbind, prog_bind, get_state, modify, mret, prog_ret.
    repeat case_match; split; cbn; try done; intros [F1 F2 F3]%H2; by split.
  - by apply waits_wake.
Qed.

(** ** One writing thread at a time

    The daemon holds [bluetooth_mutex] while it writes (src/src/platform/win32/vdsd.cc). *)
Definition idle (c : Client) : bool := match stage c with CIdle => true | _ => false end.
Definition permitted (m : move) (s : Sys) : bool :=
  match m with MCall _ _ _ => forallb idle (clients s) | _ => true end.
Fixpoint exec_exclusive (ms : list move) (s : Sys) : option Sys :=
  match ms with
  | [] => Some s
  | m :: ms => if permitted m s then s ← exec m s; exec_exclusive ms s else None
  end.
Definition reachable_exclusive (callers : nat) (s : Sys) : Prop :=
  exists ms, exec_exclusive ms (initial_sys callers) = Some s.

Record exclusive_ok (s : Sys) : Prop := {
  exclusive_one : forall i j c d, clients s !! i = Some c -> clients s !! j = Some d ->
    idle c = false -> idle d = false -> i = j;
  exclusive_wakes : writer s = WBlocked -> output_queue_ (out s) <> [] ->
    exists i b r e, clients s !! i = Some (mk_client (CNotify b) r e);
  exclusive_newest : forall i c, clients s !! i = Some c -> idle c = false -> last (accepted s) = Some (report c)
}.

Lemma exec_exclusive_all ms s s' : exec_exclusive ms s = Some s' -> exec_all ms s = Some s'.
Proof.
  revert s. induction ms as [|m ms IH]; intros s; cbn; [done|]. case_match; [|done].
  intros (s1 & H1 & H2)%bind_Some. rewrite H1. by apply IH.
Qed.

(** The caller in a call moves on. *)
Lemma exclusive_client s i c c' :
  exclusive_ok s -> clients s !! i = Some c -> idle c = false -> report c' = report c ->
  ((forall b, stage c <> CNotify b) \/ writer s <> WBlocked) ->
  exclusive_ok (put_client i c' s).
Proof.
  intros [H1 H2 H3] Hc Hi Hr Hs. pose proof (lookup_lt_Some _ _ _ Hc) as Hl.
  assert (forall j d, <[i := c']> (clients s) !! j = Some d -> idle d = false -> j = i /\ d = c') as Hone.
  { intros j d. destruct (decide (i = j)) as [<-|Hn].
    - rewrite list_lookup_insert_eq by done. by intros [= <-].
    - rewrite list_lookup_insert_ne by done. intros Hd Hid. by destruct (Hn (H1 _ _ _ _ Hc Hd Hi Hid)). }
  split; cbn.
  - intros j k d e Hd He Hid Hie. destruct (Hone _ _ Hd Hid) as [-> _], (Hone _ _ He Hie) as [-> _]. done.
  - intros Hw Hq. destruct Hs as [Hs|Hs]; [|done]. destruct (H2 Hw Hq) as (j & b & r & e & Hj).
    destruct (H1 _ _ _ _ Hc Hj Hi eq_refl). rewrite Hc in Hj. injection Hj as ->. by destruct (Hs b).
  - intros j d Hd Hid. destruct (Hone _ _ Hd Hid) as [-> ->]. rewrite Hr. by eapply H3.
Qed.

(** Waking someone, and the notification of one thread. *)
Lemma exclusive_frame s s' :
  exclusive_ok s -> clients s' = clients s -> accepted s' = accepted s ->
  (writer s' = WBlocked -> output_queue_ (out s') <> [] -> writer s = WBlocked /\ output_queue_ (out s) <> []) ->
  exclusive_ok s'.
Proof.
  intros [H1 H2 H3] Hc Ha Hw. split; rewrite ?Hc, ?Ha; try done. intros Hb Hq. destruct (Hw Hb Hq) as [? ?].
  by apply H2.
Qed.

Lemma exclusive_wake w s s' : exclusive_ok s -> wake w s = Some s' -> exclusive_ok s'.
Proof.
  intros Hi. unfold wake. destruct w as [|i].
  - destruct (writer s) eqn:Hw; try done. intros [= <-]. by apply (exclusive_frame s).
  - destruct (clients s !! i) as [[[] r e]|] eqn:Hc; try done. intros [= <-].
    apply (exclusive_client _ _ (mk_client CBlocked r e)); try done. by left.
Qed.

Lemma exclusive_all s : exclusive_ok s -> exclusive_ok (put_clients (awake <$> clients s) s).
Proof.
  intros [H1 H2 H3].
  assert (forall i c, (awake <$> clients s) !! i = Some c ->
            exists d, clients s !! i = Some d /\ idle d = idle c /\ report d = report c) as Ha.
  { intros i c. rewrite list_lookup_fmap. intros (d & Hd & ->)%fmap_Some_1. exists d. split; [done|].
    by destruct d as [[] ? ?]. }
  split; cbn.
  - intros i j c d Hc Hd Hic Hid. apply Ha in Hc as (c' & Hc & Ec & _), Hd as (d' & Hd & Ed & _).
    eapply H1; try done; congruence.
  - intros Hw Hq. destruct (H2 Hw Hq) as (i & b & r & e & Hi). exists i, b, r, e.
    by rewrite list_lookup_fmap, Hi.
  - intros i c Hc Hic. apply Ha in Hc as (c' & Hc & Ec & <-). eapply H3; [done|congruence].
Qed.
Lemma exclusive_notify_all s : exclusive_ok s -> exclusive_ok (notify_all s).
Proof.
  intros Hi%exclusive_all. unfold notify_all. destruct (writer s) eqn:Hw; try done.
  by apply (exclusive_frame _ (put_clients (awake <$> clients s) (put_writer WLook s))) in Hi.
Qed.

Lemma exclusive_exec_client i ch s s' : exclusive_ok s -> exec_client i ch s = Some s' -> exclusive_ok s'.
Proof.
  intros Hi. unfold exec_client. destruct (clients s !! i) as [[[|b| |] r e]|] eqn:Hc; try done.
  - intros (s1 & H1 & ->)%fmap_Some_1.
    assert (exclusive_ok s1 /\ clients s1 !! i = Some (mk_client (CNotify b) r e) /\ writer s1 <> WBlocked) as (Hi1 & Hc1 & Hw).
    { unfold notify_one in H1. destruct ch as [[|j]|].
      - split; [by eapply exclusive_wake|]. cbn in H1. destruct (writer s); try done. by injection H1 as <-.
      - cbn in H1. destruct (clients s !! j) as [[[] r' e']|] eqn:Hj; try done.
        pose proof (exclusive_one _ Hi _ _ _ _ Hc Hj eq_refl eq_refl) as ->. congruence.
      - destruct (someone_waits s) eqn:Hw; [done|]. injection H1 as <-. split_and!; [done..|].
        intros E. unfold someone_waits in Hw. by rewrite E in Hw. }
    apply (exclusive_client _ _ _ _ Hi1 Hc1); [done|by destruct b|by right].
  - case_match; intros [= <-]; (eapply exclusive_client; [done|done|done|done|by left]).
Qed.

Lemma exclusive_call i packet blocking s s' :
  inv lengths s -> exclusive_ok s -> forallb idle (clients s) = true ->
  exec_call lengths i packet blocking s = Some s' -> exclusive_ok s'.
Proof.
  intros Hv [H1 H2 H3] Hidle. unfold exec_call. destruct (clients s !! i) as [[[] r e]|] eqn:Hc; try done.
  pose proof (lookup_lt_Some _ _ _ Hc) as Hl.
  assert (forall j d, clients s !! j = Some d -> idle d = true) as Hall.
  { intros j d Hd. rewrite forallb_forall in Hidle. apply Hidle. by eapply list_elem_of_In, list_elem_of_lookup_2. }
  assert (forall j d c', <[i := c']> (clients s) !! j = Some d -> idle d = false -> j = i /\ d = c') as Hone.
  { intros j d c'. destruct (decide (i = j)) as [<-|Hn].
    - rewrite list_lookup_insert_eq by done. by intros [= <-].
    - rewrite list_lookup_insert_ne by done. intros Hd Hid. rewrite (Hall _ _ Hd) in Hid. done. }
  assert (forall o c', idle c' = true -> output_queue_ o = output_queue_ (out s) ->
            exclusive_ok (put_client i c' (put_out o s))) as Hstay.
  { intros o c' Hc' Hq. split; cbn.
    - intros j k c d Hj Hk Hic Hid. destruct (Hone _ _ _ Hj Hic) as [_ ->]. congruence.
    - rewrite Hq. intros Hw Hne. destruct (H2 Hw Hne) as (j & b & r' & e' & Hj). by apply Hall in Hj.
    - intros j d Hj Hid. destruct (Hone _ _ _ Hj Hid) as [_ ->]. congruence. }
  destruct (checked_packet lengths packet) as [write|]; [|intros [= <-]; by apply (Hstay (out s))].
  destruct (enqueue write (out s)) as [o x] eqn:He.
  destruct (enqueue_frame _ _ _ _ _ (inv_queue _ _ Hv) He) as (_ & _ & _ & E4 & E5).
  destruct x as [[]|]; intros [= <-]; try (apply Hstay; [done|by destruct E4]).
  split; cbn.
  - intros j k c d Hj Hk Hic Hid. destruct (Hone _ _ _ Hj Hic) as [-> _], (Hone _ _ _ Hk Hid) as [-> _]. done.
  - intros _ _. exists i, blocking, write, None. by apply list_lookup_insert_eq.
  - intros j d Hj Hid. destruct (Hone _ _ _ Hj Hid) as [_ ->]. by rewrite last_snoc.
Qed.

Lemma exclusive_writer o s s' : exclusive_ok s -> exec_writer o s = Some s' -> exclusive_ok s'.
Proof.
  intros Hi. unfold exec_writer. destruct (writer s) eqn:Hw; try done.
  - destruct (writer_wakes (out s)) eqn:Hk.
    + repeat case_match; intros [= <-]; by apply (exclusive_frame s).
    + intros [= <-]. apply (exclusive_frame s); try done. intros _ Hq. cbn in Hq. unfold writer_wakes in Hk.
      by destruct (output_queue_ (out s)), (output_stop_requested_ (out s)).
  - case_match; [|done]. intros [= <-]. unfold write_round. repeat case_match; by apply (exclusive_frame s).
  - intros [= <-]. set (s1 := put_out _ s). assert (exclusive_ok s1) as H1%exclusive_notify_all.
    { by apply (exclusive_frame s). }
    by eapply exclusive_frame.
  - intros [= <-]. by apply (exclusive_frame s).
  - intros [= <-]. apply exclusive_notify_all in Hi. by eapply exclusive_frame.
Qed.

Lemma exclusive_exec m s s' :
  inv lengths s -> exclusive_ok s -> permitted m s = true -> exec m s = Some s' -> exclusive_ok s'.
Proof.
  intros Hv Hi Hp. destruct m; cbn [WinWriter.exec].
  - by apply exclusive_writer.
  - by apply exclusive_call.
  - by apply exclusive_exec_client.
  - intros [= <-]. by apply (exclusive_frame s).
  - unfold exec_stopper. destruct (stoppers s !! i) as [[]|]; try done.
    + intros [= <-]. by apply (exclusive_frame s).
    + case_match; intros [= <-]; by apply (exclusive_frame s).
    + intros [= <-]. by apply (exclusive_frame s).
    + intros [= <-]. apply exclusive_notify_all in Hi. by eapply exclusive_frame.
    + case_match; try done. intros [= <-]. by apply (exclusive_frame s).
  - intros [= <-]. apply (exclusive_frame s); try done. cbn.
    unfold take_output_diagnostics, mbind, prog_bind, get_state, modify, mret, prog_ret. by repeat case_match.
  - by apply exclusive_wake.
Qed.
End Waiting.

(** ** Rest *)

Section Rest.
Context `{WinSystem} (lengths : Lengths).
Abbreviation exec := (exec lengths).

(** No thread of the transport can go on by itself: only a new call or stop, or a wake
    without notification. *)
Definition own (m : move) : bool :=
  match m with MWriter _ | MClient _ _ | MStopper _ => true | _ => false end.
Definition at_rest (s : Sys) : Prop := forall m s', own m = true -> exec m s = Some s' -> False.

(** An operation that completes with [n] bytes. *)
Definition io_completes (n : nat) : hid_io := mk_hid_io None None WaitCompleted (Transferred n) 0.

Lemma writer_goes_on s : writer s = WBlocked \/ writer s = WExit \/ exists s', exec_writer (io_completes 0) s = Some s'.
Proof.
  unfold exec_writer. destruct (writer s); auto; right; right; try by eexists.
  destruct (writer_wakes (out s)) eqn:Hk; [|by eexists]. unfold writer_wakes in Hk.
  destruct (output_stop_requested_ (out s)); [by eexists|]. destruct (output_queue_ (out s)); [done|by eexists].
Qed.

Lemma someone_wakes s : someone_waits s = true -> exists w s', wake w s = Some s'.
Proof.
  unfold someone_waits. destruct (writer s) eqn:Hw;
    try (intros ([st r e] & Hin & Hb)%existsb_exists; apply list_elem_of_In, list_elem_of_lookup in Hin as [i Hi];
         exists (TheClient i); cbn; rewrite Hi; destruct st; try done; by eexists).
  intros _. exists TheWriter. cbn. rewrite Hw. by eexists.
Qed.

Lemma client_goes_on s i c :
  clients s !! i = Some c ->
  idle c = true \/ client_blocked c = true \/ exists ch s', exec_client i ch s = Some s'.
Proof.
  intros Hc. destruct c as [[|b| |] r e]; [by left| | |by right; left]; right; right; unfold exec_client; rewrite Hc.
  - destruct (someone_waits s) eqn:Hw.
    + apply someone_wakes in Hw as (w & s' & Hs). exists (Some w). cbn. rewrite Hs. by eexists.
    + exists None. cbn. rewrite Hw. by eexists.
  - exists None. case_match; by eexists.
Qed.

Lemma stopper_goes_on s i t :
  stoppers s !! i = Some t -> t = SDone \/ (t = SJoin /\ writer s <> WExit) \/ exists s', exec_stopper i s = Some s'.
Proof.
  intros Ht. unfold exec_stopper. rewrite Ht. destruct t; auto; try (right; right; by eexists).
  - right; right. case_match; by eexists.
  - right. destruct (writer s); auto; right; by eexists.
Qed.

Lemma rest_writer s : at_rest s -> writer s = WBlocked \/ writer s = WExit.
Proof. intros Hr. destruct (writer_goes_on s) as [?|[?|[s' Hs]]]; auto. destruct (Hr (MWriter (io_completes 0)) s'); done. Qed.
Lemma rest_client s i c : at_rest s -> clients s !! i = Some c -> idle c = true \/ client_blocked c = true.
Proof. intros Hr Hc. destruct (client_goes_on _ _ _ Hc) as [?|[?|(ch & s' & Hs)]]; auto. destruct (Hr (MClient i ch) s'); done. Qed.
Lemma rest_stopper s i t : at_rest s -> stoppers s !! i = Some t -> t = SDone \/ (t = SJoin /\ writer s <> WExit).
Proof. intros Hr Ht. destruct (stopper_goes_on _ _ _ Ht) as [?|[?|(s' & Hs)]]; auto. destruct (Hr (MStopper i) s'); done. Qed.

Lemma rest_pending s : at_rest s -> stop_pending s = false.
Proof.
  intros Hr. unfold stop_pending. apply andb_false_iff. right. apply not_true_iff_false. intros (t & Hin & Ht)%existsb_exists.
  apply list_elem_of_In, list_elem_of_lookup in Hin as [i Hi]. by destruct (rest_stopper _ _ _ Hr Hi) as [->|[-> _]].
Qed.

(** A transport that was stopped and rests has ended its writer, and every stop returned. *)
Lemma rest_stopped s : waits_ok s -> at_rest s -> output_stop_requested_ (out s) = true ->
  writer s = WExit /\ Forall (fun t => t = SDone) (stoppers s).
Proof.
  intros [H1 H2 H4] Hr Hs.
  assert (writer s = WExit) as Hw.
  { destruct (rest_writer _ Hr) as [Hw|Hw]; [|done]. specialize (H1 Hw Hs). by rewrite rest_pending in H1. }
  split; [done|]. apply Forall_lookup. intros i t Ht. by destruct (rest_stopper _ _ _ Hr Ht) as [?|[_ ?]].
Qed.

(** Without a stop, no one stopped in the middle. *)
Lemma rest_stoppers s : waits_ok s -> at_rest s -> Forall (fun t => t = SDone) (stoppers s).
Proof.
  intros Hv Hr. destruct (output_stop_requested_ (out s)) eqn:Hs; [by apply rest_stopped|].
  apply Forall_lookup. intros i t Ht. destruct (rest_stopper _ _ _ Hr Ht) as [?|[-> _]]; [done|].
  rewrite (waits_stop _ Hv _ _ Ht) in Hs by (by right). done.
Qed.

Lemma rest_clients s :
  inv lengths s -> waits_ok s -> exclusive_ok s -> at_rest s -> Forall (fun c => idle c = true) (clients s).
Proof.
  intros Hi Hv He Hr. apply Forall_lookup. intros i c Hc. destruct (rest_client _ _ _ Hr Hc) as [?|Hb]; [done|].
  assert (may_wait s) as [F1 F2 F3].
  { apply (waits_clients _ Hv), existsb_exists. exists c. split; [|done]. by eapply list_elem_of_In, list_elem_of_lookup_2. }
  rewrite rest_pending in * by done. destruct (rest_writer _ Hr) as [Hw|Hw].
  - destruct F3 as [Hq|[Ha|[Hn|?]]]; [|by rewrite (inv_active _ _ Hi), Hw in Ha|congruence|done].
    destruct (exclusive_wakes _ He Hw Hq) as (j & b & r & e & Hj). by destruct (rest_client _ _ _ Hr Hj).
  - destruct (inv_exit _ _ Hi Hw) as [?|Hs]; [done|]. by specialize (F2 Hs).
Qed.

Lemma rest_queue s :
  inv lengths s -> exclusive_ok s -> at_rest s ->
  output_stop_requested_ (out s) = false -> output_error_ (out s) = "" -> output_queue_ (out s) = [].
Proof.
  intros Hi He Hr Hs Herr. destruct (decide (output_queue_ (out s) = [])) as [?|Hq]; [done|].
  destruct (rest_writer _ Hr) as [Hw|Hw].
  - destruct (exclusive_wakes _ He Hw Hq) as (j & b & r & e & Hj). by destruct (rest_client _ _ _ Hr Hj).
  - destruct (inv_exit _ _ Hi Hw); congruence.
Qed.
End Rest.

(** ** Everything reachable *)

Section Reachable.
Context `{WinSystem} (lengths : Lengths) (HL : (0 < L lengths)%nat).

Lemma initial_waits callers : waits_ok (initial_sys callers).
Proof. split; try done. cbn. intros Hb. exfalso. by induction callers. Qed.
Lemma initial_exclusive callers : exclusive_ok (initial_sys callers).
Proof.
  assert (forall i c, clients (initial_sys callers) !! i = Some c -> idle c = true) as Hi.
  { cbn. by intros i c [-> _]%lookup_replicate. }
  split; [|done|]; [intros i j c d Hc _ Hic|intros i c Hc Hic]; rewrite (Hi _ _ Hc) in Hic; done.
Qed.

Lemma all_ok ms s s' :
  inv lengths s -> waits_ok s -> exec_all lengths ms s = Some s' -> inv lengths s' /\ waits_ok s'.
Proof.
  revert s. induction ms as [|m ms IH]; intros s Hi Hw; cbn; [by intros [= <-]|].
  intros (s1 & H1 & H2)%bind_Some. eapply IH; [| |done]; [by eapply keeps_exec|by eapply waits_exec].
Qed.
Lemma reachable_ok callers s : reachable lengths callers s -> inv lengths s /\ waits_ok s.
Proof. intros [ms Hm]. eapply all_ok; [| |done]; [by apply initial_inv|apply initial_waits]. Qed.

Lemma exclusive_all_ok ms s s' :
  inv lengths s -> waits_ok s -> exclusive_ok s -> exec_exclusive lengths ms s = Some s' ->
  inv lengths s' /\ waits_ok s' /\ exclusive_ok s'.
Proof.
  revert s. induction ms as [|m ms IH]; intros s Hi Hw He; cbn; [by intros [= <-]|]. case_match; [|done].
  intros (s1 & H1 & H2)%bind_Some.
  eapply IH; [| | |done]; [by eapply keeps_exec|by eapply waits_exec|by eapply exclusive_exec].
Qed.
Lemma reachable_exclusive_ok callers s :
  reachable_exclusive lengths callers s -> inv lengths s /\ waits_ok s /\ exclusive_ok s.
Proof.
  intros [ms Hm]. eapply exclusive_all_ok; [| | |done]; [by apply initial_inv|apply initial_waits|apply initial_exclusive].
Qed.

(** How many moves the writer of a stopped transport still makes. *)
Definition moves_left (w : writer_stage) : nat :=
  match w with
  | WLook | WBlocked => 1
  | WWriting buffer offset => L lengths - offset + 3
  | WFailed _ _ => 1
  | WWritten => 3
  | WNotify => 2
  | WExit => 0
  end.
Definition is_writer_move (m : move) : bool := match m with MWriter _ => true | _ => false end.

Lemma looks_left w : moves_left (looks w) = moves_left w.
Proof. by destruct w. Qed.

Lemma writer_left o s s' :
  inv lengths s -> exec_writer o s = Some s' -> output_stop_requested_ (out s) = true ->
  output_stop_requested_ (out s') = true /\ (S (moves_left (writer s')) <= moves_left (writer s))%nat.
Proof.
  intros Hi. pose proof (inv_stage _ _ Hi) as Hst. unfold exec_writer. destruct (writer s) eqn:Hw; try done.
  - unfold writer_wakes. intros Hx Hs. rewrite Hs in Hx. injection Hx as <-. done.
  - case_match; [|done]. intros [= <-] Hs. destruct Hst as [Hl Ho]. unfold write_round.
    destruct (hid_overlapped_io _ _) as [n|e]; [|split; [done|]; cbn -[L]; lia].
    destruct (Nat.eqb_spec (Nat.min n (length (drop offset buffer))) 0) as [Hz|Hz]; [split; [done|]; cbn -[L]; lia|].
    destruct (Nat.ltb_spec (offset + Nat.min n (length (drop offset buffer))) (length buffer));
      (split; [done|]); cbn -[L]; lia.
  - intros [= <-] Hs. set (s1 := put_out _ s). cbn -[notify_all]. by destruct (notify_all_frame s1) as [-> _].
  - by intros [= <-] Hs.
  - intros [= <-] Hs. cbn -[notify_all]. by destruct (notify_all_frame s) as [-> _].
Qed.

Lemma stays_stopped m s s' :
  inv lengths s -> exec lengths m s = Some s' -> output_stop_requested_ (out s) = true ->
  output_stop_requested_ (out s') = true /\
  (if is_writer_move m then S (moves_left (writer s')) <= moves_left (writer s)
   else moves_left (writer s') = moves_left (writer s))%nat.
Proof.
  intros Hi. assert (forall s', same_core s s' -> output_stop_requested_ (out s) = true ->
    output_stop_requested_ (out s') = true /\ moves_left (writer s') = moves_left (writer s)) as Hsame.
  { intros s1 (-> & Hw & _). by rewrite <- looks_left, Hw, looks_left. }
  destruct m; cbn [exec is_writer_move].
  - by apply writer_left.
  - unfold exec_call. destruct (clients s !! i) as [[[] ? ?]|]; try done.
    destruct (checked_packet lengths packet) as [write|]; [|by intros [= <-]].
    destruct (enqueue write (out s)) as [o x] eqn:He.
    destruct (enqueue_frame _ _ _ _ _ (inv_queue _ _ Hi) He) as (_ & Hs & _).
    destruct x as [[]|]; intros [= <-]; cbn; by rewrite Hs.
  - intros Hc%same_exec_client. by apply Hsame.
  - by intros [= <-].
  - unfold exec_stopper. destruct (stoppers s !! i) as [[]|]; try done.
    + by intros [= <-].
    + by case_match; intros [= <-].
    + by intros [= <-].
    + intros [= <-]. apply Hsame, same_notify_all.
    + destruct (writer s) eqn:Hw; try done. intros [= <-]. cbn. by rewrite Hw.
  - intros [= <-]. cbn.
    unfold take_output_diagnostics, mbind, prog_bind, get_state, modify, mret, prog_ret. by repeat case_match.
  - intros Hc%same_wake. by apply Hsame.
Qed.

Definition writer_moves (ms : list move) : nat := length (filter (fun m => is_writer_move m = true) ms).

Lemma stopped_moves ms s s' :
  inv lengths s -> exec_all lengths ms s = Some s' -> output_stop_requested_ (out s) = true ->
  (writer_moves ms + moves_left (writer s') <= moves_left (writer s))%nat /\ output_stop_requested_ (out s') = true.
Proof.
  revert s. induction ms as [|m ms IH]; intros s Hi; cbn [exec_all]; [intros [= <-]; split; [cbn; lia|done]|].
  intros (s1 & H1 & H2)%bind_Some Hs. destruct (stays_stopped _ _ _ Hi H1 Hs) as [Hs1 Hm].
  destruct (IH s1 (keeps_exec _ HL _ _ _ Hi H1) H2 Hs1) as [Hle Hs']. split; [|done].
  unfold writer_moves in *. rewrite filter_cons. destruct (is_writer_move m); case_decide; try done; cbn [length]; lia.
Qed.

Lemma moves_left_bound s : inv lengths s -> (moves_left (writer s) <= L lengths + 3)%nat.
Proof. intros Hi. pose proof (inv_stage _ _ Hi) as Hs. destruct (writer s); cbn in *; lia. Qed.
End Reachable.

(** ** The properties *)

Definition others (reports : list (list Z)) : list (list Z) := filter (fun w => is_audio w = false) reports.

Section Props.
Context `{WinSystem} (lengths : Lengths).

(**  Whatever threads queue reports, stop the transport or ask for its diagnostics, and
    however they interleave with the writer: at most 64 reports wait, at most four of
    them audio, each of exactly the length the device declares; the handle was given the
    reports that are written, in order, and at most a part of one more; and the counters
    of the diagnostics account for every report that was queued, modulo [2 ^ 64]. *)
Theorem hid_output_invariant callers s :
  0 < output_report_length_ lengths -> reachable lengths callers s ->
  (length (output_queue_ (out s)) <= 64)%nat /\ (queued_audio (output_queue_ (out s)) <= 4)%nat
  /\ Forall (fun w => length w = L lengths) (output_queue_ (out s))
  /\ output_write_active_ (out s) = active (writer s) /\ bytes_ok_ lengths s /\ counters_ok s.
Proof.
  intros HL Hr. assert (0 < L lengths)%nat as HL' by (unfold L; lia).
  destruct (reachable_ok _ HL' _ _ Hr) as [[(H1 & H2 & H3) _ _ _ H5 _ H7 H8] _]. by split_and!.
Qed.

(** C26.  The reports that are written are some of those that were accepted, in the order in
    which they were accepted, and what is missing between them is audio.  Until an error or
    a stop every other report is written, being written or queued, and the newest report is
    never the one to be dropped. *)
Theorem hid_output_in_order callers s :
  0 < output_report_length_ lengths -> reachable lengths callers s ->
  sent s `sublist_of` accepted s
  /\ others (sent s) `prefix_of` others (accepted s)
  /\ (output_stop_requested_ (out s) = false -> output_error_ (out s) = "" ->
      let kept := sent s ++ in_flight (writer s) ++ output_queue_ (out s) in
      kept `sublist_of` accepted s /\ others kept = others (accepted s) /\ last kept = last (accepted s)).
Proof.
  intros HL Hr. assert (0 < L lengths)%nat as HL' by (unfold L; lia).
  destruct (reachable_ok _ HL' _ _ Hr) as [[_ _ _ _ _ (b & e & Ha & Hb & Hc) _ _] _]. rewrite Ha. split_and!.
  - apply thin_split in Hb as (b1 & b2 & -> & T1 & _). rewrite <- app_assoc.
    apply sublist_inserts_r. by apply thin_sublist.
  - apply thin_split in Hb as (b1 & b2 & -> & T1 & _). unfold others. rewrite !filter_app, (thin_others _ _ T1), <- app_assoc.
    by eexists.
  - intros Hs He. destruct (Hc Hs He) as [Ht Hl]. cbv zeta.
    assert (thin (b ++ e) (sent s ++ in_flight (writer s) ++ output_queue_ (out s))) as T.
    { rewrite app_assoc. by apply thin_app. }
    split_and!; [by apply thin_sublist|by apply thin_others|]. by rewrite <- Ha.
Qed.

(** C27.  When one thread writes at a time, as [bluetooth_mutex] makes the daemon's threads
    do, no notification is lost: when no thread of the transport can go on, no caller waits
    and every stop has returned; and unless the transport was stopped or failed, the queue
    is empty and all reports but dropped audio are written, the newest among them. *)
Theorem accepted_reports_are_written callers s :
  0 < output_report_length_ lengths -> reachable_exclusive lengths callers s -> at_rest lengths s ->
  Forall (fun c => stage c = CIdle) (clients s) /\ Forall (fun t => t = SDone) (stoppers s)
  /\ (output_stop_requested_ (out s) = false -> output_error_ (out s) = "" ->
      output_queue_ (out s) = [] /\ sent s `sublist_of` accepted s
      /\ others (sent s) = others (accepted s) /\ last (sent s) = last (accepted s)).
Proof.
  intros HL Hr Hrest. assert (0 < L lengths)%nat as HL' by (unfold L; lia).
  destruct (reachable_exclusive_ok _ HL' _ _ Hr) as (Hi & Hw & He). split_and!.
  - eapply Forall_impl; [by eapply rest_clients|]. intros c. unfold idle. by destruct (stage c).
  - by eapply rest_stoppers.
  - intros Hs Herr. assert (output_queue_ (out s) = []) as Hq by (by eapply rest_queue).
    destruct (inv_order _ _ Hi) as (b & e & Ha & Hb & Hc). destruct (Hc Hs Herr) as [Ht Hl]. rewrite Hq in *.
    assert (in_flight (writer s) = []) as Hf by (by destruct (rest_writer _ _ Hrest) as [-> | ->]).
    rewrite Hf, !app_nil_r in *. assert (thin (b ++ e) (sent s)) as T.
    { rewrite <- (app_nil_r (sent s)). by apply thin_app. }
    rewrite Ha in *. split_and!; [done|by apply thin_sublist|by apply thin_others|done].
Qed.

(**  When one thread writes at a time, [write_interrupt_packet] returns without an
    exception only after its report is written in full, or because the transport is being
    stopped. *)
Theorem written_when_it_returns callers s i c chosen s' :
  0 < output_report_length_ lengths -> reachable_exclusive lengths callers s ->
  clients s !! i = Some c -> stage c = CLook -> exec_client i chosen s = Some s' ->
  clients s' !! i = Some (mk_client CIdle (report c) (Some (Ok true))) ->
  last (sent s) = Some (report c) \/ output_stop_requested_ (out s) = true.
Proof.
  intros HL Hr Hc Hst Hx Hd. assert (0 < L lengths)%nat as HL' by (unfold L; lia).
  destruct (reachable_exclusive_ok _ HL' _ _ Hr) as (Hi & Hw & He).
  destruct c as [st r e]. cbn in Hst, Hd |- *. subst st. unfold exec_client in Hx. rewrite Hc in Hx.
  pose proof (lookup_lt_Some _ _ _ Hc) as Hl.
  destruct (output_idle (out s)) eqn:Hid; injection Hx as <-; cbn in Hd; rewrite list_lookup_insert_eq in Hd by done; [|done].
  injection Hd as Hd. destruct (decide (output_error_ (out s) = "")) as [Herr|]; [|done].
  destruct (output_stop_requested_ (out s)) eqn:Hs; [by right|left].
  unfold output_idle in Hid. rewrite Hs, Herr in Hid. cbn in Hid. apply andb_true_iff in Hid as [Hq Ha].
  apply Nat.eqb_eq, length_zero_iff_nil in Hq. apply negb_true_iff in Ha. rewrite (inv_active _ _ Hi) in Ha.
  destruct (inv_order _ _ Hi) as (b & e' & _ & _ & Hn). destruct (Hn Hs Herr) as [_ Hlast].
  rewrite (exclusive_newest _ He _ _ Hc eq_refl), Hq in Hlast. cbn in Hlast.
  assert (in_flight (writer s) = []) as Hf by (by destruct (writer s)). by rewrite Hf, !app_nil_r in Hlast.
Qed.

(** C28.  A stop ends the writer: from when it is requested the writer makes at most as many
    moves as a report has bytes and three more, whatever the other threads do, and when
    nothing can go on the writer is over and every call that stops has returned. *)
Theorem stopped_writer_ends callers s ms s' :
  0 < output_report_length_ lengths -> reachable lengths callers s -> output_stop_requested_ (out s) = true ->
  exec_all lengths ms s = Some s' ->
  (writer_moves ms <= L lengths + 3)%nat
  /\ (at_rest lengths s' -> writer s' = WExit /\ Forall (fun t => t = SDone) (stoppers s')).
Proof.
  intros HL Hr Hs Hx. assert (0 < L lengths)%nat as HL' by (unfold L; lia).
  destruct (reachable_ok _ HL' _ _ Hr) as [Hi Hw]. destruct (all_ok _ HL' _ _ _ Hi Hw Hx) as [Hi' Hw'].
  destruct (stopped_moves _ HL' _ _ _ Hi Hx Hs) as [Hm Hs']. pose proof (moves_left_bound _ HL' _ Hi). split; [lia|].
  intros Hrest. by apply (rest_stopped lengths).
Qed.
End Props.

(** ** Examples *)

(** A machine without texts for its errors, and a device with output reports of two bytes. *)
Definition plain_system : WinSystem := {| format_message := fun _ => None; environment_variable := fun _ => None |}.
#[local] Existing Instance plain_system.
Definition small : Lengths := mk_lengths 3 2 3 ∅.
Definition run_all (callers : nat) (ms : list move) : Sys := default (initial_sys 0) (exec_all small ms (initial_sys callers)).

(** One report is queued, written and waited for. *)
Definition one_report : list move :=
  [MCall 0 [0xa2; 1; 7] true; MClient 0 None; MWriter (io_completes 2); MClient 0 None;
   MWriter (io_completes 1); MWriter (io_completes 1); MWriter (io_completes 2)].
Definition one_report_waited : list move := one_report ++ [MWriter (io_completes 2)].
Definition one_report_returned : list move := one_report_waited ++ [MClient 0 None; MWriter (io_completes 2)].

Example one_report_sent :
  let s := run_all 1 one_report_returned in
  sent s = [[1; 7]] /\ outgoing_ s = [1; 7] /\ writer s = WBlocked
  /\ clients s = [mk_client CIdle [1; 7] (Some (Ok true))].
Proof. by vm_compute. Qed.

Lemma reached ms callers :
  exec_all small ms (initial_sys callers) = Some (run_all callers ms) -> reachable small callers (run_all callers ms).
Proof. intros Hs. by exists ms. Qed.
Lemma reached_exclusive ms callers :
  exec_exclusive small ms (initial_sys callers) = Some (run_all callers ms) ->
  reachable_exclusive small callers (run_all callers ms).
Proof. intros Hs. by exists ms. Qed.

(** Five audio reports: the first gives its place, a state report between them does not. *)
Definition burst : list move :=
  flat_map (fun n => [MCall 0 [0xa2; 0x36; n] false; MClient 0 None]) [1; 2; 3]
  ++ [MCall 0 [0xa2; 0x31; 9] false; MClient 0 None]
  ++ flat_map (fun n => [MCall 0 [0xa2; 0x36; n] false; MClient 0 None]) [4; 5].
Lemma hid_output_invariant_witness :
  reachable small 1 (run_all 1 burst)
  /\ (length (output_queue_ (out (run_all 1 burst))) <= 64)%nat
  /\ output_queue_ (out (run_all 1 burst)) = [[0x36; 2]; [0x36; 3]; [0x31; 9]; [0x36; 4]; [0x36; 5]].
Proof.
  assert (reachable small 1 (run_all 1 burst)) as Hr.
  { apply reached. by vm_compute. }
  split; [exact Hr|]. split; [|by vm_compute].
  exact (proj1 (hid_output_invariant small 1 (run_all 1 burst) eq_refl Hr)).
Defined.

Lemma hid_output_in_order_witness :
  sent (run_all 1 one_report_returned) `sublist_of` accepted (run_all 1 one_report_returned).
Proof.
  assert (reachable small 1 (run_all 1 one_report_returned)) as Hr.
  { apply reached. by vm_compute. }
  exact (proj1 (hid_output_in_order small 1 (run_all 1 one_report_returned) eq_refl Hr)).
Defined.

Lemma accepted_reports_are_written_witness :
  at_rest small (run_all 1 one_report_returned)
  /\ output_queue_ (out (run_all 1 one_report_returned)) = []
  /\ last (sent (run_all 1 one_report_returned)) = Some [1; 7].
Proof.
  assert (reachable_exclusive small 1 (run_all 1 one_report_returned)) as Hr.
  { apply reached_exclusive. by vm_compute. }
  assert (at_rest small (run_all 1 one_report_returned)) as Hrest.
  { intros m s' Ho.
    assert (writer (run_all 1 one_report_returned) = WBlocked) as Hw by (by vm_compute).
    assert (clients (run_all 1 one_report_returned) = [mk_client CIdle [1; 7] (Some (Ok true))]) as Hc by (by vm_compute).
    assert (stoppers (run_all 1 one_report_returned) = []) as Ht by (by vm_compute).
    destruct m; try discriminate Ho; cbn [exec].
    - unfold exec_writer. by rewrite Hw.
    - unfold exec_client. rewrite Hc. by destruct i as [|[|i]].
    - unfold exec_stopper. by rewrite Ht. }
  destruct (accepted_reports_are_written small 1 (run_all 1 one_report_returned) eq_refl Hr Hrest) as (_ & _ & H3).
  assert (output_stop_requested_ (out (run_all 1 one_report_returned)) = false) as Hs by (by vm_compute).
  assert (output_error_ (out (run_all 1 one_report_returned)) = "") as He by (by vm_compute).
  destruct (H3 Hs He) as (Hq & _ & _ & Hl). split; [exact Hrest|]. split; [exact Hq|]. rewrite Hl. by vm_compute.
Defined.

Lemma written_when_it_returns_witness :
  last (sent (run_all 1 one_report_waited)) = Some [1; 7]
  \/ output_stop_requested_ (out (run_all 1 one_report_waited)) = true.
Proof.
  assert (reachable_exclusive small 1 (run_all 1 one_report_waited)) as Hr.
  { apply reached_exclusive. by vm_compute. }
  refine (written_when_it_returns small 1 (run_all 1 one_report_waited) 0 (mk_client CLook [1; 7] None) None
            (put_client 0 (mk_client CIdle [1; 7] (Some (Ok true))) (run_all 1 one_report_waited)) eq_refl Hr _ eq_refl _ _);
    by vm_compute.
Defined.

(** A stop while a report is being written: the writer finishes it and ends. *)
Definition stopped_at : list move :=
  [MCall 0 [0xa2; 1; 7] true; MClient 0 None; MWriter (io_completes 2); MStop true; MStopper 0; MStopper 0].
Definition stopped_end : list move :=
  [MWriter (io_completes 2); MWriter (io_completes 2); MStopper 0; MWriter (io_completes 2); MStopper 0;
   MWriter (io_completes 2); MStopper 0].
Lemma stopped_writer_ends_witness :
  (writer_moves stopped_end <= L small + 3)%nat
  /\ writer (run_all 1 (stopped_at ++ stopped_end)) = WExit
  /\ stoppers (run_all 1 (stopped_at ++ stopped_end)) = [SDone].
Proof.
  assert (reachable small 1 (run_all 1 stopped_at)) as Hr.
  { apply reached. by vm_compute. }
  split; [|by vm_compute].
  assert (output_stop_requested_ (out (run_all 1 stopped_at)) = true) as Hs by (by vm_compute).
  assert (exec_all small stopped_end (run_all 1 stopped_at) = Some (run_all 1 (stopped_at ++ stopped_end))) as Hx.
  { by vm_compute. }
  exact (proj1 (stopped_writer_ends small 1 (run_all 1 stopped_at) stopped_end
                  (run_all 1 (stopped_at ++ stopped_end)) eq_refl Hr Hs Hx)).
Defined.

(** Two threads that write at once: the second one's notification wakes the first, which
    waits for the queue to be empty, and not the writer.  The report of the second waits
    although nothing is written and the writer is not stopped. *)
Definition two_callers : list move :=
  [MWriter (io_completes 2); MCall 0 [0xa2; 1; 7] true; MClient 0 (Some TheWriter); MWriter (io_completes 2);
   MClient 0 None; MWriter (io_completes 2); MWriter (io_completes 2); MWriter (io_completes 2);
   MWriter (io_completes 2); MCall 1 [0xa2; 1; 8] true; MClient 0 None; MClient 1 (Some (TheClient 0));
   MClient 0 None; MClient 1 None].
Theorem two_callers_can_be_forgotten :
  let s := run_all 2 two_callers in
  reachable small 2 s /\ at_rest small s /\ output_queue_ (out s) = [[1; 8]] /\ sent s = [[1; 7]]
  /\ writer s = WBlocked /\ output_stop_requested_ (out s) = false /\ output_error_ (out s) = "".
Proof.
  set (s := run_all 2 two_callers). cbv zeta.
  assert (writer s = WBlocked) as Hw by (by vm_compute).
  assert (clients s = [mk_client CBlocked [1; 7] None; mk_client CBlocked [1; 8] None]) as Hc by (by vm_compute).
  assert (stoppers s = []) as Ht by (by vm_compute).
  split; [|split; [|split_and!; by vm_compute]].
  - apply reached. by vm_compute.
  - intros m s' Ho. destruct m; try discriminate Ho; cbn [exec].
    + unfold exec_writer. by rewrite Hw.
    + unfold exec_client. rewrite Hc. by destruct i as [|[|i]].
    + unfold exec_stopper. by rewrite Ht.
Qed.
