(* ===== verification/WinSupervisor.v ===== *)
(** The supervisor of the Windows daemon (src/src/platform/win32/vdsd.cc): its state, what the
    threads beside it do, and the commands it answers.

    The worker threads, the thread of the control pipe and the handler of the service run beside
    the supervisor.  What they do up to a point is a list of happenings; each reading of
    something they share takes the next one, so every interleaving is a list of lists.  The
    rounds of a worker are in WinRounds.v; here a session is known by how it ends. *)
From stdpp Require Import base list strings numbers.
From Stdlib Require Import Ascii ZArith Lia.
From S2P Require Import Prelude Text Words Common Jsonl Log Store Config Control Supervisor MicBuffer.
From S2P Require Import WinIo WinState WinDevices.

Local Open Scope Z_scope.

(** ** Workers *)

(** Where the thread of a worker is: in [run_bridge_session], before [done = true], before
    [SetEvent], behind it. *)
Inductive stage := InSession | SessionOver | MarkedDone | Finished.

(** [worker_id] tells the objects apart; [w_config] is what the thread captured. *)
Record BridgeWorker := mk_worker {
  worker_id : nat;
  w_address : string;
  device_address : string;
  port : Z;
  w_profile : ControllerProfile;
  w_config : ControllerConfig;
  w_last_error : string;
  w_done_event : bool;
  w_stop_requested : bool;
  w_done : bool;
  w_status : WorkerStatus;
  w_stage : stage
}.
Definition put_run (error : string) (event done : bool) (at_ : stage) (w : BridgeWorker) : BridgeWorker :=
  mk_worker (worker_id w) (w_address w) (device_address w) (port w) (w_profile w) (w_config w) error
    event (w_stop_requested w) done (w_status w) at_.
Definition put_stop (v : bool) (w : BridgeWorker) : BridgeWorker :=
  mk_worker (worker_id w) (w_address w) (device_address w) (port w) (w_profile w) (w_config w)
    (w_last_error w) (w_done_event w) v (w_done w) (w_status w) (w_stage w).
Definition put_status (v : WorkerStatus) (w : BridgeWorker) : BridgeWorker :=
  mk_worker (worker_id w) (w_address w) (device_address w) (port w) (w_profile w) (w_config w)
    (w_last_error w) (w_done_event w) (w_stop_requested w) (w_done w) v (w_stage w).

(** The worker that is launched on a port. *)
Definition new_worker (id : nat) (a : string) (p : ControllerProfile) (launch : VdsdWorkerLaunchDecision) :
    BridgeWorker :=
  mk_worker id a (d_device_address launch) (d_port launch) p (d_config launch) "" false false false
    initial_status InSession.

(** What [run_bridge_session] is run for, or why it is not run. *)
Definition session_result (config : ControllerConfig) (session : result unit) : result unit :=
  match ports config with
  | [port] => _ ← port_path_for_index Windows port; session
  | _ => Throw "bridge worker requires one reserved port"
  end.

(** [run_configured_bridge_worker] when the session is over: the error it leaves, and the line
    it logs. *)
Definition session_error (stopping : bool) (w : BridgeWorker) (session : result unit) :
    option (string * (LogLevel * string)) :=
  if stopping || w_stop_requested w then None
  else Some
    match session_result (w_config w) session with
    | Ok _ =>
        ("bridge session ended",
         (Warn, "Windows bridge worker ended address=" +:+ address (w_config w) +:+ ": bridge session ended"))
    | Throw e =>
        (e, (Log.Error, "Windows bridge worker failed address=" +:+ address (w_config w) +:+ ": " +:+ e))
    end.

(** ** State *)

(** The wait for the filter driver to report a change of its devices. *)
Record ChangeWait := mk_change {
  cw_handle : bool;
  pending : bool;
  cw_completed : option (option Z)    (* the pending call is over: its error, if any *)
}.

(** The control pipe: the commands that wait, by number, and what was replied. *)
Record ControlPipe := mk_pipe {
  requests : list (nat * string);
  replied : list (nat * string);
  command_event : bool;
  next_request : nat;
  pipe_stopped : bool
}.

(** What the system answers to the supervisor's own calls: the error of each that fails. *)
Record Calls := mk_calls {
  event_errors : list (option Z);
  thread_errors : list (option string);
  timer_errors : list (option Z);
  wait_errors : list (option Z);
  change_errors : list (option Z);    (* [VDS_FILTER_IOCTL_WAIT_DEVICE_CHANGE] *)
  cancel_errors : list (option Z);
  cancelled_errors : list (option Z)
}.

Definition put_event_errors (v : list (option Z)) (c : Calls) : Calls :=
  mk_calls v (thread_errors c) (timer_errors c) (wait_errors c) (change_errors c) (cancel_errors
    c) (cancelled_errors c).
Definition put_thread_errors (v : list (option string)) (c : Calls) : Calls :=
  mk_calls (event_errors c) v (timer_errors c) (wait_errors c) (change_errors c) (cancel_errors
    c) (cancelled_errors c).
Definition put_timer_errors (v : list (option Z)) (c : Calls) : Calls :=
  mk_calls (event_errors c) (thread_errors c) v (wait_errors c) (change_errors c) (cancel_errors
    c) (cancelled_errors c).
Definition put_wait_errors (v : list (option Z)) (c : Calls) : Calls :=
  mk_calls (event_errors c) (thread_errors c) (timer_errors c) v (change_errors c)
    (cancel_errors c) (cancelled_errors c).
Definition put_change_errors (v : list (option Z)) (c : Calls) : Calls :=
  mk_calls (event_errors c) (thread_errors c) (timer_errors c) (wait_errors c) v (cancel_errors
    c) (cancelled_errors c).
Definition put_cancel_errors (v : list (option Z)) (c : Calls) : Calls :=
  mk_calls (event_errors c) (thread_errors c) (timer_errors c) (wait_errors c) (change_errors c)
    v (cancelled_errors c).
Definition put_cancelled_errors (v : list (option Z)) (c : Calls) : Calls :=
  mk_calls (event_errors c) (thread_errors c) (timer_errors c) (wait_errors c) (change_errors c)
    (cancel_errors c) v.

Inductive sup_flag :=
  | scan_requested | provider_retry_required | config_load_logged | filter_provider_warned
  | filter_driver_version_logged | virtual_port_provider_warned | virtual_port_driver_version_logged.
Scheme Boolean Equality for sup_flag.

(** What the other threads, the drivers and the user do: time passes; a worker changes its
    status; its session ends; its thread goes on behind it; a client sends a command; the
    pending call of the filter driver ends; the process is told to stop. *)
Inductive happening :=
  | Elapse (d : N)
  | Publish (id : nat) (f : WorkerStatus -> WorkerStatus)
  | SessionEnds (id : nat) (session : result unit)
  | ThreadGoesOn (id : nat)
  | Command (text : string)
  | DeviceChange (error : option Z)
  | StopSignal.

(** The C library's [atof], as a [float]. *)
Class FloatText := { atof : string -> f32 }.

(** What a client is told when the daemon stops. *)
Definition daemon_stopping : string :=
  braces [jsonl_bool_field "OK" false; jsonl_string_field "error" "daemon stopping"].

Section Supervisor.
Context {W : Type}.

Record Supervisor := mk_supervisor {
  world : W * Devices;
  vars : Vars;
  workers : list BridgeWorker;
  launched : nat;    (* the number of workers made so far *)
  worker_failure_backoffs : list VdsdWorkerFailureBackoff;
  discovery_warned_states : list string;
  no_port_warned_addresses : list string;
  port_binding_warned_states : list string;
  filter_generation : Z;
  flag_of : sup_flag -> bool;
  change_wait : ChangeWait;
  retry_timer : option Z;    (* when it is due, in nanoseconds *)
  pipe : ControlPipe;
  mic_gain : f32;
  g_stop_requested : bool;
  g_stop_event : bool;
  steady_now : Z;
  happenings : list (list happening);
  calls : Calls
}.
Definition put_world (v : W * Devices) (s : Supervisor) : Supervisor :=
  mk_supervisor v (vars s) (workers s) (launched s) (worker_failure_backoffs s)
    (discovery_warned_states s) (no_port_warned_addresses s) (port_binding_warned_states s)
    (filter_generation s) (flag_of s) (change_wait s) (retry_timer s) (pipe s) (mic_gain s)
    (g_stop_requested s) (g_stop_event s) (steady_now s) (happenings s) (calls s).
Definition put_vars (v : Vars) (s : Supervisor) : Supervisor :=
  mk_supervisor (world s) v (workers s) (launched s) (worker_failure_backoffs s)
    (discovery_warned_states s) (no_port_warned_addresses s) (port_binding_warned_states s)
    (filter_generation s) (flag_of s) (change_wait s) (retry_timer s) (pipe s) (mic_gain s)
    (g_stop_requested s) (g_stop_event s) (steady_now s) (happenings s) (calls s).
Definition put_workers (v : list BridgeWorker) (s : Supervisor) : Supervisor :=
  mk_supervisor (world s) (vars s) v (launched s) (worker_failure_backoffs s)
    (discovery_warned_states s) (no_port_warned_addresses s) (port_binding_warned_states s)
    (filter_generation s) (flag_of s) (change_wait s) (retry_timer s) (pipe s) (mic_gain s)
    (g_stop_requested s) (g_stop_event s) (steady_now s) (happenings s) (calls s).
Definition put_launched (v : nat) (s : Supervisor) : Supervisor :=
  mk_supervisor (world s) (vars s) (workers s) v (worker_failure_backoffs s)
    (discovery_warned_states s) (no_port_warned_addresses s) (port_binding_warned_states s)
    (filter_generation s) (flag_of s) (change_wait s) (retry_timer s) (pipe s) (mic_gain s)
    (g_stop_requested s) (g_stop_event s) (steady_now s) (happenings s) (calls s).
Definition put_worker_failure_backoffs (v : list VdsdWorkerFailureBackoff) (s : Supervisor) : Supervisor :=
  mk_supervisor (world s) (vars s) (workers s) (launched s) v (discovery_warned_states s)
    (no_port_warned_addresses s) (port_binding_warned_states s) (filter_generation s) (flag_of
    s) (change_wait s) (retry_timer s) (pipe s) (mic_gain s) (g_stop_requested s) (g_stop_event
    s) (steady_now s) (happenings s) (calls s).
Definition put_discovery_warned_states (v : list string) (s : Supervisor) : Supervisor :=
  mk_supervisor (world s) (vars s) (workers s) (launched s) (worker_failure_backoffs s) v
    (no_port_warned_addresses s) (port_binding_warned_states s) (filter_generation s) (flag_of
    s) (change_wait s) (retry_timer s) (pipe s) (mic_gain s) (g_stop_requested s) (g_stop_event
    s) (steady_now s) (happenings s) (calls s).
Definition put_no_port_warned_addresses (v : list string) (s : Supervisor) : Supervisor :=
  mk_supervisor (world s) (vars s) (workers s) (launched s) (worker_failure_backoffs s)
    (discovery_warned_states s) v (port_binding_warned_states s) (filter_generation s) (flag_of
    s) (change_wait s) (retry_timer s) (pipe s) (mic_gain s) (g_stop_requested s) (g_stop_event
    s) (steady_now s) (happenings s) (calls s).
Definition put_port_binding_warned_states (v : list string) (s : Supervisor) : Supervisor :=
  mk_supervisor (world s) (vars s) (workers s) (launched s) (worker_failure_backoffs s)
    (discovery_warned_states s) (no_port_warned_addresses s) v (filter_generation s) (flag_of s)
    (change_wait s) (retry_timer s) (pipe s) (mic_gain s) (g_stop_requested s) (g_stop_event s)
    (steady_now s) (happenings s) (calls s).
Definition put_filter_generation (v : Z) (s : Supervisor) : Supervisor :=
  mk_supervisor (world s) (vars s) (workers s) (launched s) (worker_failure_backoffs s)
    (discovery_warned_states s) (no_port_warned_addresses s) (port_binding_warned_states s) v
    (flag_of s) (change_wait s) (retry_timer s) (pipe s) (mic_gain s) (g_stop_requested s)
    (g_stop_event s) (steady_now s) (happenings s) (calls s).
Definition put_flag_of (v : sup_flag -> bool) (s : Supervisor) : Supervisor :=
  mk_supervisor (world s) (vars s) (workers s) (launched s) (worker_failure_backoffs s)
    (discovery_warned_states s) (no_port_warned_addresses s) (port_binding_warned_states s)
    (filter_generation s) v (change_wait s) (retry_timer s) (pipe s) (mic_gain s)
    (g_stop_requested s) (g_stop_event s) (steady_now s) (happenings s) (calls s).
Definition put_change_wait (v : ChangeWait) (s : Supervisor) : Supervisor :=
  mk_supervisor (world s) (vars s) (workers s) (launched s) (worker_failure_backoffs s)
    (discovery_warned_states s) (no_port_warned_addresses s) (port_binding_warned_states s)
    (filter_generation s) (flag_of s) v (retry_timer s) (pipe s) (mic_gain s) (g_stop_requested
    s) (g_stop_event s) (steady_now s) (happenings s) (calls s).
Definition put_retry_timer (v : option Z) (s : Supervisor) : Supervisor :=
  mk_supervisor (world s) (vars s) (workers s) (launched s) (worker_failure_backoffs s)
    (discovery_warned_states s) (no_port_warned_addresses s) (port_binding_warned_states s)
    (filter_generation s) (flag_of s) (change_wait s) v (pipe s) (mic_gain s) (g_stop_requested
    s) (g_stop_event s) (steady_now s) (happenings s) (calls s).
Definition put_pipe (v : ControlPipe) (s : Supervisor) : Supervisor :=
  mk_supervisor (world s) (vars s) (workers s) (launched s) (worker_failure_backoffs s)
    (discovery_warned_states s) (no_port_warned_addresses s) (port_binding_warned_states s)
    (filter_generation s) (flag_of s) (change_wait s) (retry_timer s) v (mic_gain s)
    (g_stop_requested s) (g_stop_event s) (steady_now s) (happenings s) (calls s).
Definition put_mic_gain (v : f32) (s : Supervisor) : Supervisor :=
  mk_supervisor (world s) (vars s) (workers s) (launched s) (worker_failure_backoffs s)
    (discovery_warned_states s) (no_port_warned_addresses s) (port_binding_warned_states s)
    (filter_generation s) (flag_of s) (change_wait s) (retry_timer s) (pipe s) v
    (g_stop_requested s) (g_stop_event s) (steady_now s) (happenings s) (calls s).
Definition put_g_stop_requested (v : bool) (s : Supervisor) : Supervisor :=
  mk_supervisor (world s) (vars s) (workers s) (launched s) (worker_failure_backoffs s)
    (discovery_warned_states s) (no_port_warned_addresses s) (port_binding_warned_states s)
    (filter_generation s) (flag_of s) (change_wait s) (retry_timer s) (pipe s) (mic_gain s) v
    (g_stop_event s) (steady_now s) (happenings s) (calls s).
Definition put_g_stop_event (v : bool) (s : Supervisor) : Supervisor :=
  mk_supervisor (world s) (vars s) (workers s) (launched s) (worker_failure_backoffs s)
    (discovery_warned_states s) (no_port_warned_addresses s) (port_binding_warned_states s)
    (filter_generation s) (flag_of s) (change_wait s) (retry_timer s) (pipe s) (mic_gain s)
    (g_stop_requested s) v (steady_now s) (happenings s) (calls s).
Definition put_steady_now (v : Z) (s : Supervisor) : Supervisor :=
  mk_supervisor (world s) (vars s) (workers s) (launched s) (worker_failure_backoffs s)
    (discovery_warned_states s) (no_port_warned_addresses s) (port_binding_warned_states s)
    (filter_generation s) (flag_of s) (change_wait s) (retry_timer s) (pipe s) (mic_gain s)
    (g_stop_requested s) (g_stop_event s) v (happenings s) (calls s).
Definition put_happenings (v : list (list happening)) (s : Supervisor) : Supervisor :=
  mk_supervisor (world s) (vars s) (workers s) (launched s) (worker_failure_backoffs s)
    (discovery_warned_states s) (no_port_warned_addresses s) (port_binding_warned_states s)
    (filter_generation s) (flag_of s) (change_wait s) (retry_timer s) (pipe s) (mic_gain s)
    (g_stop_requested s) (g_stop_event s) (steady_now s) v (calls s).
Definition put_calls (v : Calls) (s : Supervisor) : Supervisor :=
  mk_supervisor (world s) (vars s) (workers s) (launched s) (worker_failure_backoffs s)
    (discovery_warned_states s) (no_port_warned_addresses s) (port_binding_warned_states s)
    (filter_generation s) (flag_of s) (change_wait s) (retry_timer s) (pipe s) (mic_gain s)
    (g_stop_requested s) (g_stop_event s) (steady_now s) (happenings s) v.

(** ** What the other threads do *)

Definition update_worker (id : nat) (f : BridgeWorker -> BridgeWorker) (s : Supervisor) : Supervisor :=
  put_workers ((fun w => if decide (worker_id w = id) then f w else w) <$> workers s) s.
Definition worker_of (id : nat) (s : Supervisor) : option BridgeWorker :=
  find_first (fun w => bool_decide (worker_id w = id)) (workers s).

Definition add_log (line : LogLevel * string) (s : Supervisor) : Supervisor :=
  put_vars (mk_vars (trace_flags (vars s)) (reload_requested (vars s)) (log_ (vars s) ++ [line])) s.

(** [queue_command]. *)
Definition queue_command (text : string) (p : ControlPipe) : ControlPipe :=
  if pipe_stopped p then
    mk_pipe (requests p) (replied p ++ [(next_request p, daemon_stopping)]) (command_event p)
      (S (next_request p)) true
  else mk_pipe (requests p ++ [(next_request p, text)]) (replied p) true (S (next_request p)) false.

(** The thread of a worker when its session ends, and behind it: [done = true], [SetEvent]. *)
Definition end_session (stopping : bool) (session : result unit) (w : BridgeWorker) : BridgeWorker :=
  match w_stage w with
  | InSession =>
      put_run (match session_error stopping w session with Some (e, _) => e | None => w_last_error w end)
        (w_done_event w) (w_done w) SessionOver w
  | _ => w
  end.
Definition session_line (stopping : bool) (session : result unit) (w : BridgeWorker) :
    option (LogLevel * string) :=
  match w_stage w with InSession => snd <$> session_error stopping w session | _ => None end.
Definition thread_goes_on (w : BridgeWorker) : BridgeWorker :=
  match w_stage w with
  | SessionOver => put_run (w_last_error w) (w_done_event w) true MarkedDone w
  | MarkedDone => put_run (w_last_error w) true (w_done w) Finished w
  | _ => w
  end.

Definition happen (h : happening) (s : Supervisor) : Supervisor :=
  match h with
  | Elapse d => put_steady_now (steady_now s + Z.of_N d) s
  | Publish id f => update_worker id (fun w => put_status (f (w_status w)) w) s
  | SessionEnds id session =>
      let line := w ← worker_of id s; session_line (g_stop_requested s) session w in
      update_worker id (end_session (g_stop_requested s) session)
        (match line with Some l => add_log l s | None => s end)
  | ThreadGoesOn id => update_worker id thread_goes_on s
  | Command text => put_pipe (queue_command text (pipe s)) s
  | DeviceChange error =>
      let c := change_wait s in
      if pending c && negb (bool_decide (is_Some (cw_completed c)))
      then put_change_wait (mk_change (cw_handle c) true (Some error)) s else s
  | StopSignal => put_g_stop_event true (put_g_stop_requested true s)
  end.

(** What happens up to the next reading of something shared. *)
Definition observe : prog Supervisor unit := fun s =>
  match happenings s with
  | [] => (s, Ok tt)
  | hs :: rest => (foldl (fun s h => happen h s) (put_happenings rest s) hs, Ok tt)
  end.

(** [Clock::now()] *)
Definition clock_now : prog Supervisor Z := _ ← observe; s ← get_state; mret (steady_now s).
Definition load_stop : prog Supervisor bool := _ ← observe; s ← get_state; mret (g_stop_requested s).
(** A member of a worker. *)
Definition load {A} (f : BridgeWorker -> A) (w : BridgeWorker) : prog Supervisor A :=
  _ ← observe; s ← get_state; mret (f (default w (worker_of (worker_id w) s))).

(** ** The supervisor's own state *)

Definition flag (f : sup_flag) : prog Supervisor bool := s ← get_state; mret (flag_of s f).
Definition set_flag (f : sup_flag) (b : bool) : prog Supervisor unit :=
  modify (fun s => put_flag_of (fun g => if sup_flag_beq g f then b else flag_of s g) s).
Definition log (level : LogLevel) (message : string) : prog Supervisor unit := modify (add_log (level, message)).
Definition set_reload_requested (b : bool) : prog Supervisor unit :=
  modify (fun s => put_vars (mk_vars (trace_flags (vars s)) b (log_ (vars s))) s).

(** Code that has the files, the devices, and the variables of the control handlers. *)
Definition on_control {A} (m : prog ((W * Devices) * Vars) A) : prog Supervisor A := fun s =>
  let '((w, v), r) := m (world s, vars s) in (put_vars v (put_world w s), r).
Definition on_devices {A} (m : prog Devices A) : prog Supervisor A := fun s =>
  let '(d, r) := m (world s).2 in (put_world ((world s).1, d) s, r).
Definition on_change {A} (m : ChangeWait -> ChangeWait * A) : prog Supervisor A := fun s =>
  let '(c, a) := m (change_wait s) in (put_change_wait c s, Ok a).
(** Whether one of the supervisor's own calls fails; they succeed when the list is over. *)
Definition call {A} (get : Calls -> list (option A)) (put : list (option A) -> Calls -> Calls) :
    prog Supervisor (option A) := fun s =>
  let '(c, r) := ask get put None (calls s) in (put_calls c s, r).

(** A member that another member gives back together with a value. *)
Definition warn_state (get : Supervisor -> list string) (put : list string -> Supervisor -> Supervisor)
    (key state : string) : prog Supervisor bool := fun s =>
  let '(ws, report) := remember_vdsd_warning_state (get s) key state in (put ws s, Ok report).

(** ** Control commands *)

Section Commands.
Context `{FileStore W} `{WinSystem} `{FloatText}.

Definition int_to_string (n : Z) : string := if n <? 0 then "-" +:+ to_string (- n) else to_string n.

(** [static_cast<int>(gain + 0.5f)] *)
Definition f32_plus_half (x : f32) : f32 :=
  let e := Z.min (expo x) (-1) in
  round_f32 (mk_f32 (mant x * 2 ^ (expo x - e) + 2 ^ (- 1 - e)) e).

(** [std::to_string] of a [float] that is not negative: six decimals. *)
Fixpoint pad_zeros (width : nat) (text : string) : string :=
  match width with
  | O => text
  | S more => if (String.length text <=? more)%nat then String "0" (pad_zeros more text) else text
  end.
Definition f32_to_string (x : f32) : string :=
  let q := if 0 <=? expo x then mant x * 2 ^ expo x * 10 ^ 6
           else round_half_even (mant x * 10 ^ 6) (- expo x) in
  to_string (q / 10 ^ 6) +:+ "." +:+ pad_zeros 6 (to_string (q mod 10 ^ 6)).

(** The colour code: two characters. *)
Definition kColors : list (string * string) :=
  [("00", "White"); ("01", "Midnight Black"); ("02", "Cosmic Red"); ("03", "Nova Pink");
   ("04", "Galactic Purple"); ("05", "Starlight Blue"); ("06", "Grey Camouflage");
   ("07", "Volcanic Red"); ("08", "Sterling Silver"); ("09", "Cobalt Blue"); ("10", "Chroma Teal");
   ("11", "Chroma Indigo"); ("12", "Chroma Pearl"); ("30", "30th Anniversary");
   ("Z1", "God of War Ragnarok"); ("Z2", "Spider-Man 2"); ("Z3", "Astro Bot"); ("Z4", "Fortnite");
   ("Z6", "The Last of Us"); ("Z7", "Ghost of Yotei")].
Definition dualsense_color_name (cc : Z) : string :=
  if cc <? 0 then "unknown"
  else
    let code := until_nul (String (chr (Z.land (Z.shiftr cc 8) 0xff)) (String (chr (Z.land cc 0xff)) "")) in
    match find_first (fun color => bool_decide (color.1 = code)) kColors with
    | Some color => color.2
    | None => "unknown"
    end.

(** [done] is read first; [stop_requested] is the supervisor's own. *)
Definition worker_is_connected (w : BridgeWorker) : prog Supervisor bool :=
  done ← load w_done w;
  if done : bool then mret false else stop ← load w_stop_requested w; mret (negb stop).

(** One line of [build_status_json]. *)
Definition status_line (w : BridgeWorker) : prog Supervisor string :=
  let status {A} (f : WorkerStatus -> A) := load (fun w => f (w_status w)) w in
  is_connected ← worker_is_connected w;
  battery ← status battery_percent;
  charge ← status charge_status;
  jack ← status headphone_jack;
  detected ← status mic_detected;
  muted ← status ws_mic_muted;
  active ← status mic_active;
  speaker ← status speaker_active;
  hz ← status polling_hz;
  color ← status color_code;
  edge ← status is_edge;
  s ← get_state;
  input ← status has_input;
  error ← load w_last_error w;
  let number key n := quote +:+ key +:+ quote +:+ ":" +:+ n in
  mret (braces
    [jsonl_string_field "address" (w_address w);
     jsonl_bool_field "connected" is_connected;
     number "port" (to_string (port w));
     number "battery" (int_to_string battery);
     number "charge_status" (int_to_string charge);
     jsonl_bool_field "headphone_jack" jack;
     jsonl_bool_field "mic_detected" detected;
     jsonl_bool_field "mic_muted" muted;
     jsonl_bool_field "mic_active" active;
     jsonl_bool_field "speaker_active" speaker;
     number "polling_hz" (int_to_string hz);
     jsonl_string_field "color" (dualsense_color_name color);
     jsonl_string_field "model" (if edge : bool then "dualsense_edge" else "dualsense");
     number "mic_gain" (int_to_string (f32_trunc (f32_plus_half (mic_gain s))));
     jsonl_bool_field "has_input" input;
     jsonl_string_field "last_error" error]).

Definition build_status_json : prog Supervisor string :=
  s ← get_state;
  lines ← mapM status_line (workers s);
  let out := concat_lines lines in
  mret (if decide (out = "") then braces [jsonl_bool_field "connected" false] else out).

(** [worker->status.mic_mute_request.store(want)] for the workers that are connected. *)
Fixpoint request_mute (want : Z) (ws : list BridgeWorker) : prog Supervisor unit :=
  match ws with
  | [] => mret tt
  | w :: rest =>
      is_connected ← worker_is_connected w;
      _ ← (if is_connected : bool
           then modify (update_worker (worker_id w)
                  (fun w => put_status (put_mic_mute_request want (w_status w)) w))
           else mret tt);
      request_mute want rest
  end.

(** The [set] command. *)
Definition ok_param (param value : string) : string :=
  braces [jsonl_bool_field "OK" true; jsonl_string_field "param" param;
          quote +:+ "value" +:+ quote +:+ ":" +:+ value].
Definition handle_set (param value : string) : prog Supervisor string :=
  if decide (param = "mic-gain") then
    _ ← modify (fun s => put_mic_gain (set_mic_capture_gain (atof value)) s);
    s ← get_state;
    mret (ok_param "mic-gain" (f32_to_string (mic_gain s)))
  else if decide (param = "mic-mute") then
    let want := if decide (value = "1" \/ value = "true" \/ value = "on") then 1 else 0 in
    s ← get_state;
    _ ← request_mute want (workers s);
    mret (ok_param "mic-mute" (to_string want))
  else mret (braces [jsonl_bool_field "OK" false; jsonl_string_field "error" "unknown param"]).

(** The commands that are answered before the shared handler; [None] for the others. *)
Definition handle_own_command (command : string) : prog Supervisor (option string) :=
  fields ← lift (parse_jsonl_object command "control");
  cmd ← lift (require_jsonl_string fields "command" "control");
  if decide (cmd = "status") then reply ← build_status_json; mret (Some reply)
  else if decide (cmd = "set") then
    param ← lift (require_jsonl_string fields "param" "control set");
    value ← lift (require_jsonl_string fields "value" "control set");
    reply ← handle_set param value;
    mret (Some reply)
  else mret None.

Definition controller_status (w : BridgeWorker) : prog Supervisor VdsdControlControllerStatus :=
  is_connected ← worker_is_connected w;
  again ← worker_is_connected w;
  p ← (if again : bool then lift (port_path_for_index Windows (port w)) else mret "");
  mret (mk_controller_status (w_address w) is_connected p).
Definition port_candidate (p : Z) : prog Supervisor VdsdControlPortCandidate :=
  t ← lift (port_path_for_index Windows p); mret (mk_candidate p t).
Definition port_binding (w : BridgeWorker) : prog Supervisor (option VdsdControlPortBinding) :=
  is_connected ← worker_is_connected w;
  mret (if is_connected : bool then Some (mk_binding (port w) (w_address w) (device_address w)) else None).

Definition list_targets : prog ((W * Devices) * Vars) (list ControllerTarget) := fun s =>
  let '((w, d), v) := s in
  let '(d', r) := list_windows_controller_targets d in (((w, d'), v), r).

Definition handle_supervisor_control_command (db_path command : string) : prog Supervisor string :=
  own ← try_catch (handle_own_command command) (fun _ => mret None);
  match own with
  | Some reply => mret reply
  | None =>
      s ← get_state;
      controller_statuses ← mapM controller_status (workers s);
      port_candidates ← mapM port_candidate all_ports;
      port_bindings ← collect port_binding (workers s);
      let port_statuses := build_vdsd_control_port_statuses port_candidates port_bindings in
      on_control (handle_vdsd_control_command Windows command db_path controller_statuses port_statuses
                    list_targets)
  end.

(** *** The queue of commands *)

Definition answer_request (id : nat) (reply : string) : prog Supervisor unit :=
  modify (fun s =>
    let p := pipe s in
    put_pipe (mk_pipe (requests p) (replied p ++ [(id, reply)]) (command_event p) (next_request p)
                (pipe_stopped p)) s).

(** [requests_] under its mutex: the first request, or the event is reset. *)
Definition take_request : prog Supervisor (option (nat * string)) :=
  _ ← observe;
  s ← get_state;
  let p := pipe s in
  match requests p with
  | [] => _ ← modify (put_pipe (mk_pipe [] (replied p) false (next_request p) (pipe_stopped p))); mret None
  | r :: rest =>
      _ ← modify (put_pipe (mk_pipe rest (replied p) (command_event p) (next_request p) (pipe_stopped p)));
      mret (Some r)
  end.

Definition empty_command_reply : string :=
  braces [jsonl_bool_field "OK" false; jsonl_string_field "error" "empty command"].

(** The rounds of [service_ready]; it returns whether the queue was found empty. *)
Fixpoint service_loop (fuel : nat) (db_path : string) : prog Supervisor bool :=
  match fuel with
  | O => mret false
  | S more =>
      request ← take_request;
      match request with
      | None => mret true
      | Some (id, command) =>
          reply ← (if decide (command = "") then mret empty_command_reply
                   else handle_supervisor_control_command db_path (trim_command command));
          _ ← answer_request id reply;
          service_loop more db_path
      end
  end.
(** Every round takes a request that waits, or that still comes. *)
Definition service_ready (db_path : string) : prog Supervisor bool :=
  s ← get_state;
  service_loop (S (length (requests (pipe s)) + length (concat (happenings s)))) db_path.
End Commands.
End Supervisor.
