(* ===== verification/WinLoop.v ===== *)
(** The loop of the supervisor of the Windows daemon ([run_bridge_supervisor] of
    src/src/platform/win32/vdsd.cc): reaping workers, scanning for controllers, waiting, and
    what is made of what the wait returns. *)
From stdpp Require Import base list strings numbers.
From Stdlib Require Import Ascii ZArith Lia.
From S2P Require Import Prelude Text Words Common Log Store Config Control Supervisor MicBuffer.
From S2P Require Import WinIo WinState WinDevices WinSupervisor.

Local Open Scope Z_scope.

Definition kBridgeOpenRetryDelay : Z := milliseconds 1000.
Definition kBridgeWorkerFailureRetryDelay : Z := milliseconds 1000.
Definition kVirtualPortProviderUnavailableReason : string := "virtual port provider unavailable".
Definition kWindowsVirtualPortProviderUnavailable : string :=
  "vds_usb driver is not loaded or no \\.\vds# ports are available".
Definition kWindowsFilterProviderUnavailable : string :=
  "vds_filter driver is not loaded or \\.\vds_filter is unavailable".
Definition ERROR_NOT_FOUND : Z := 1168.
Definition ERROR_INVALID_PARAMETER : Z := 87.
Definition MAXIMUM_WAIT_OBJECTS : nat := 64.

(** The ports and the device addresses that workers have. *)
Abbreviation reserved := (list Z * list string)%type.

Section Loop.
Context {W : Type} `{FileStore W} `{WinSystem} `{FloatText}.
Abbreviation Sup := (Supervisor (W := W)).

(** ** The wait for a change of the filter's devices (vds_bt.cc) *)

(** [arm]; [true] when the devices have changed already. *)
Definition arm : prog Sup bool :=
  s ← get_state;
  if pending (change_wait s) then mret false
  else
    opened ← (if cw_handle (change_wait s) then mret true else on_devices open_filter_control_handle);
    if negb opened then mret false
    else
      _ ← on_change (fun c => (mk_change true false None, tt));
      error ← call change_errors put_change_errors;
      match error with
      | None => mret true
      | Some e =>
          if negb (e =? ERROR_IO_PENDING)
          then throw ("failed to wait for vds_filter device change: " +:+ win32_error_message e)
          else _ ← on_change (fun c => (mk_change true true None, tt)); mret false
      end.

Definition complete : prog Sup bool :=
  s ← get_state;
  let c := change_wait s in
  if negb (pending c) then mret false
  else
    _ ← on_change (fun c => (mk_change (cw_handle c) false (cw_completed c), tt));
    match default (Some ERROR_IO_INCOMPLETE) (cw_completed c) with
    | None => mret true
    | Some e =>
        if e =? ERROR_OPERATION_ABORTED then mret false
        else throw ("failed to complete vds_filter device wait: " +:+ win32_error_message e)
    end.

(** A handle that cannot be cancelled is closed. *)
Definition cancel : prog Sup unit :=
  s ← get_state;
  if negb (pending (change_wait s)) then mret tt
  else
    let ends (handle : bool) : prog Sup unit := on_change (fun c => (mk_change handle false (cw_completed c), tt)) in
    error ← call cancel_errors put_cancel_errors;
    if match error with Some e => negb (e =? ERROR_NOT_FOUND) | None => false end then ends false
    else
      error ← call cancelled_errors put_cancelled_errors;
      if match error with Some e => negb (e =? ERROR_OPERATION_ABORTED) | None => false end
      then ends false else ends true.

(** ** Reaping *)

(** The workers that are done are joined and erased; [true] if there was one. *)
Fixpoint reap (ws : list BridgeWorker) (worker_removed : bool) : prog Sup bool :=
  match ws with
  | [] => mret worker_removed
  | w :: rest =>
      done ← load w_done w;
      if done : bool then
        error ← load w_last_error w;
        _ ← (if decide (error = "") then mret tt
             else now ← clock_now;
                  modify (fun s => put_worker_failure_backoffs
                    (record_vdsd_worker_failure (worker_failure_backoffs s) (w_address w)
                       (now + kBridgeWorkerFailureRetryDelay)) s));
        _ ← modify (fun s => put_workers
              (erase_if (fun v => bool_decide (worker_id v = worker_id w)) (workers s)) s);
        reap rest true
      else reap rest worker_removed
  end.

(** [std::any_of(worker_failure_backoffs...)]: the clock is read for each. *)
Fixpoint any_expired (bs : list VdsdWorkerFailureBackoff) : prog Sup bool :=
  match bs with
  | [] => mret false
  | b :: rest => now ← clock_now; if retry_after b <=? now then mret true else any_expired rest
  end.

(** ** A scan *)

Definition load_database (db_path : string) : prog Sup ConfigDb :=
  db ← on_control (load_config_db db_path);
  logged ← flag config_load_logged;
  s ← get_state;
  _ ← (if negb logged || reload_requested (vars s) then
         _ ← log Info ("loaded controller config count=" +:+ to_string (Z.of_nat (length (controllers db))));
         set_flag config_load_logged true
       else mret tt);
  mret db.

(** The version of a driver is logged when it is first seen. *)
Definition log_version (query : prog Devices string) (driver where_ failed : string) : prog Sup unit :=
  try_catch (v ← on_devices query; log Info (driver +:+ v +:+ where_)) (fun e => log Warn (failed +:+ e)).

Definition check_ports : prog Sup (list Z) :=
  enabled_ports ← on_devices enabled_virtual_ports;
  match enabled_ports with
  | [] =>
      _ ← set_flag provider_retry_required true;
      _ ← set_flag virtual_port_driver_version_logged false;
      warned ← flag virtual_port_provider_warned;
      _ ← (if warned : bool then mret tt
           else _ ← log Log.Error (kVirtualPortProviderUnavailableReason +:+ " detail="
                                   +:+ kWindowsVirtualPortProviderUnavailable);
                set_flag virtual_port_provider_warned true);
      mret []
  | first :: _ =>
      warned ← flag virtual_port_provider_warned;
      _ ← (if warned : bool then
             _ ← log Info "virtual port provider recovered"; set_flag virtual_port_provider_warned false
           else mret tt);
      logged ← flag virtual_port_driver_version_logged;
      _ ← (if logged : bool then mret tt
           else
             p ← lift (port_path_for_index Windows first);
             _ ← log_version (query_virtual_port_driver_version first)
                   "driver connected name=vds_usb version=" (" path=" +:+ p)
                   ("driver version unavailable name=vds_usb path=" +:+ p +:+ " detail=");
             set_flag virtual_port_driver_version_logged true);
      mret enabled_ports
  end.

Definition check_filter : prog Sup bool :=
  available ← on_devices filter_provider_available;
  _ ← (if negb available then
         _ ← set_flag provider_retry_required true;
         _ ← set_flag filter_driver_version_logged false;
         warned ← flag filter_provider_warned;
         if warned : bool then mret tt
         else
           _ ← log Warn ("vds_filter driver not loaded, using plain-HID discovery fallback "
                         +:+ "(expected/optional) detail=" +:+ kWindowsFilterProviderUnavailable);
           set_flag filter_provider_warned true
       else
         warned ← flag filter_provider_warned;
         _ ← (if warned : bool then
                _ ← log Info "filter provider recovered"; set_flag filter_provider_warned false
              else mret tt);
         logged ← flag filter_driver_version_logged;
         if logged : bool then mret tt
         else
           _ ← log_version filter_driver_version "driver connected name=vds_filter version="
                 " path=\\.\vds_filter"
                 "driver version unavailable name=vds_filter path=\\.\vds_filter detail=";
           set_flag filter_driver_version_logged true);
  mret available.

Definition take_snapshot (filter_provider_is_available : bool) : prog Sup (list HidBluetoothDevice) :=
  if filter_provider_is_available then
    snapshot ← on_devices list_filter_bluetooth_device_snapshot;
    _ ← modify (put_filter_generation (generation snapshot));
    _ ← (if generation snapshot =? 0 then set_flag provider_retry_required true else mret tt);
    mret (devices snapshot)
  else
    try_catch (on_devices list_hid_bluetooth_devices)
      (fun e => _ ← log Warn ("plain-HID discovery failed detail=" +:+ e); mret []).

(** A worker that no longer matches the database is told to stop. *)
Definition retire (db : ConfigDb) (w : BridgeWorker) : prog Sup unit :=
  enabled ← on_devices (virtual_port_is_enabled (port w));
  stale ← lift (vdsd_worker_config_is_stale db (w_address w) (w_profile w) (port w) enabled);
  if stale : bool then
    stopping ← load w_stop_requested w;
    _ ← modify (update_worker (worker_id w) (put_stop true));
    if stopping : bool then mret tt
    else log Info ("Windows bridge worker retiring address=" +:+ w_address w +:+ " port=" +:+ to_string (port w))
  else mret tt.
Fixpoint retire_all (db : ConfigDb) (ws : list BridgeWorker) : prog Sup unit :=
  match ws with [] => mret tt | w :: rest => _ ← retire db w; retire_all db rest end.

(** *** One record of the database *)

(** [consume_vdsd_worker_retry(worker_failure_backoffs, address, Clock::now())] *)
Definition consume_retry (a : string) : prog Sup bool :=
  now ← clock_now;
  s ← get_state;
  let '(bs, r) := consume_vdsd_worker_retry (worker_failure_backoffs s) a now in
  _ ← modify (put_worker_failure_backoffs bs);
  mret r.

Definition binding_unavailable (a reason : string) : prog Sup unit :=
  report ← warn_state port_binding_warned_states put_port_binding_warned_states a reason;
  if report : bool
  then log Warn ("controller binding unavailable address=" +:+ a +:+ " reason=" +:+ reason) else mret tt.

Definition rejected (a reason : string) : prog Sup unit :=
  log Warn ("rejected filter device address=" +:+ a +:+ " reason=" +:+ reason).

(** Making the worker and starting its thread. *)
Definition start_worker (config : ControllerConfig) (launch : VdsdWorkerLaunchDecision) : prog Sup unit :=
  error ← call event_errors put_event_errors;
  match error with
  | Some e => throw ("failed to create worker event: " +:+ win32_error_message e)
  | None =>
      error ← call thread_errors put_thread_errors;
      match error with
      | Some e => throw e
      | None =>
          _ ← log Info ("Windows bridge worker launched address=" +:+ address config +:+ " port="
                        +:+ to_string (d_port launch) +:+ " device_address=" +:+ d_device_address launch);
          modify (fun s => put_launched (S (launched s))
            (put_workers (workers s ++ [new_worker (launched s) (address config) (profile config) launch]) s))
      end
  end.

(** What is made of the decision. *)
Definition follow_decision (config : ControllerConfig) (launch : VdsdWorkerLaunchDecision) (r : reserved) :
    prog Sup reserved :=
  let a := address config in
  match d_status launch with
  | VirtualPortProviderUnavailable =>
      report ← warn_state port_binding_warned_states put_port_binding_warned_states a
                 kVirtualPortProviderUnavailableReason;
      _ ← (if report : bool then rejected a kVirtualPortProviderUnavailableReason else mret tt);
      mret r
  | DeviceAddressReserved => mret r
  | NoAvailablePort =>
      s ← get_state;
      let '(ws, report) := remember_vdsd_warning (no_port_warned_addresses s) a in
      _ ← modify (put_no_port_warned_addresses ws);
      _ ← (if report : bool then rejected a "no available virtual port" else mret tt);
      mret r
  | Ready =>
      _ ← modify (fun s => put_no_port_warned_addresses (forget_vdsd_warning (no_port_warned_addresses s) a) s);
      _ ← start_worker config launch;
      mret (r.1 ++ [d_port launch], r.2 ++ [d_device_address launch])
  end.

(** A record that has an enabled port: is its controller there, and on which port is it put? *)
Definition connect_controller (ds : list HidBluetoothDevice) (available : bool) (config : ControllerConfig)
    (r : reserved) : prog Sup reserved :=
  let a := address config in
  found ← on_devices (find_connected_bluetooth_device a ds);
  match found with
  | inr discovery_error =>
      report ← warn_state discovery_warned_states put_discovery_warned_states a discovery_error;
      _ ← (if report : bool
           then log Warn ("controller filter unavailable address=" +:+ a +:+ " reason=" +:+ discovery_error)
           else mret tt);
      mret r
  | inl _ =>
      _ ← modify (fun s => put_discovery_warned_states (forget_vdsd_warning_state (discovery_warned_states s) a) s);
      ports ← on_devices available_virtual_ports;
      follow_decision config
        (select_vdsd_worker_launch_decision config ports r.1 a available r.2) r
  end.

Definition has_worker (a : string) (ws : list BridgeWorker) : bool :=
  existsb (fun w => bool_decide (w_address w = a)) ws.

Definition consider (enabled_ports : list Z) (ds : list HidBluetoothDevice) (config : ControllerConfig)
    (r : reserved) : prog Sup reserved :=
  let a := address config in
  let available := negb (bool_decide (enabled_ports = [])) in
  retry ← consume_retry a;
  if negb retry then mret r
  else
    s ← get_state;
    if has_worker a (workers s) then mret r
    else if negb available then
      _ ← binding_unavailable a kVirtualPortProviderUnavailableReason; mret r
    else if negb (controller_config_has_candidate_port config enabled_ports) then
      _ ← binding_unavailable a ("no allowed virtual port enabled ports=[" +:+ format_ports (ports config) +:+ "]");
      mret r
    else
      _ ← modify (fun s => put_port_binding_warned_states (forget_vdsd_warning_state (port_binding_warned_states s) a) s);
      connect_controller ds available config r.

Fixpoint consider_all (enabled_ports : list Z) (ds : list HidBluetoothDevice) (configs : list ControllerConfig)
    (r : reserved) : prog Sup unit :=
  match configs with
  | [] => mret tt
  | config :: rest => r ← consider enabled_ports ds config r; consider_all enabled_ports ds rest r
  end.

(** What is in the [try] block. *)
Definition scan (db_path : string) : prog Sup unit :=
  db ← load_database db_path;
  enabled_ports ← check_ports;
  available ← check_filter;
  ds ← take_snapshot available;
  s ← get_state;
  _ ← retire_all db (workers s);
  s ← get_state;
  consider_all enabled_ports ds (controllers db) (port <$> workers s, device_address <$> workers s).

Definition run_scan (db_path : string) : prog Sup unit :=
  _ ← cancel;
  _ ← set_flag scan_requested false;
  _ ← set_flag provider_retry_required false;
  try_catch (scan db_path)
    (fun e =>
       _ ← log Log.Error ("Windows bridge supervisor scan failed: " +:+ e);
       _ ← set_flag scan_requested true;
       set_flag provider_retry_required true).

(** ** Waiting *)

Inductive WaitTarget := WaitStop | WaitControl | WaitFilterChange | WaitRetry | WaitWorkerDone (id : nat).

(** A timer counts in units of 100 ns. *)
Definition arm_retry_timer (duration : Z) : prog Sup unit :=
  let ticks := Z.max 1 (Z.quot duration 100) in
  error ← call timer_errors put_timer_errors;
  match error with
  | Some e => throw ("failed to arm supervisor retry timer: " +:+ win32_error_message e)
  | None => now ← clock_now; modify (put_retry_timer (Some (now + ticks * 100)))
  end.

(** [std::min_element] of the times at which workers may be started again. *)
Definition next_retry (bs : list VdsdWorkerFailureBackoff) : option Z :=
  foldr (fun b r => Some (match r with Some t => Z.min (retry_after b) t | None => retry_after b end)) None bs.

(** Whether the supervisor may wait; it goes on at once otherwise. *)
Definition arm_change_wait : prog Sup bool :=
  retry ← flag provider_retry_required;
  s ← get_state;
  if negb retry && negb (filter_generation s =? 0) then
    let go_on provider : prog Sup bool :=
      _ ← set_flag scan_requested true;
      _ ← (if provider : bool then set_flag provider_retry_required true else mret tt);
      mret false in
    try_catch
      (if pending (change_wait s) then mret true
       else
         changed ← arm;
         if changed : bool then go_on false
         else s ← get_state; if pending (change_wait s) then mret true else go_on true)
      (fun e => _ ← log Warn ("filter device-change wait failed: " +:+ e); go_on true)
  else _ ← cancel; mret true.

(** [g_stop_event] is made by [run_windows_daemon]; every worker has its event. *)
Definition wait_targets (retry_timer_armed : bool) (s : Sup) : list WaitTarget :=
  [WaitStop; WaitControl]
  ++ (if pending (change_wait s) then [WaitFilterChange] else [])
  ++ (if retry_timer_armed then [WaitRetry] else [])
  ++ ((fun w => WaitWorkerDone (worker_id w)) <$> workers s).

Definition signalled (s : Sup) (t : WaitTarget) : bool :=
  match t with
  | WaitStop => g_stop_event s
  | WaitControl => command_event (pipe s)
  | WaitFilterChange => bool_decide (is_Some (cw_completed (change_wait s)))
  | WaitRetry => match retry_timer s with Some due => due <=? steady_now s | None => false end
  | WaitWorkerDone id => match worker_of id s with Some w => w_done_event w | None => false end
  end.

(** The first target that is signalled, now or after what happens next; [None]: the supervisor
    waits for what does not happen any more. *)
Fixpoint wait_loop (fuel : nat) (targets : list WaitTarget) : prog Sup (option WaitTarget) :=
  s ← get_state;
  match find_first (signalled s) targets with
  | Some t => mret (Some t)
  | None =>
      match fuel with
      | O => mret None
      | S more => _ ← observe; wait_loop more targets
      end
  end.
Definition WaitForMultipleObjects (targets : list WaitTarget) : prog Sup (option WaitTarget) :=
  error ← call wait_errors put_wait_errors;
  let error := if (MAXIMUM_WAIT_OBJECTS <? length targets)%nat then Some ERROR_INVALID_PARAMETER else error in
  match error with
  | Some e => throw ("Windows bridge supervisor wait failed: " +:+ win32_error_message e)
  | None => s ← get_state; wait_loop (length (happenings s)) targets
  end.

Definition dispatch (db_path : string) (t : WaitTarget) : prog Sup unit :=
  match t with
  | WaitStop => modify (put_g_stop_requested true)
  | WaitControl =>
      _ ← service_ready db_path;
      s ← get_state;
      if reload_requested (vars s) then set_flag scan_requested true else mret tt
  | WaitFilterChange =>
      try_catch (changed ← complete; if changed : bool then set_flag scan_requested true else mret tt)
        (fun e =>
           _ ← log Warn ("filter device-change wait failed: " +:+ e);
           _ ← set_flag scan_requested true;
           set_flag provider_retry_required true)
  | WaitRetry => _ ← modify (put_retry_timer None); set_flag scan_requested true
  | WaitWorkerDone _ => set_flag scan_requested true
  end.

(** ** The loop *)

(** How a round ends: it goes on with the next, or waits for ever. *)
Inductive turn := NextTurn | WaitsForever.

Definition wait_turn (db_path : string) (retry_after : option Z) (now : Z) : prog Sup turn :=
  armed ← (match retry_after with
           | Some t => _ ← arm_retry_timer (t - now); mret true
           | None => _ ← modify (put_retry_timer None); mret false
           end);
  ready ← arm_change_wait;
  if negb ready then mret NextTurn
  else
    s ← get_state;
    target ← WaitForMultipleObjects (wait_targets armed s);
    match target with
    | None => mret WaitsForever
    | Some t => _ ← dispatch db_path t; mret NextTurn
    end.

(** A scan if one is due. *)
Definition scan_if_due (db_path : string) (worker_removed : bool) : prog Sup unit :=
  s ← get_state;
  _ ← (if worker_removed || reload_requested (vars s) then set_flag scan_requested true else mret tt);
  s ← get_state;
  expired ← any_expired (worker_failure_backoffs s);
  _ ← (if expired : bool then set_flag scan_requested true else mret tt);
  due ← flag scan_requested;
  _ ← (if due : bool then run_scan db_path else mret tt);
  set_reload_requested false.

(** What to wait for; with a worker to be started at once there is no wait. *)
Definition plan_wait (db_path : string) : prog Sup turn :=
  now ← clock_now;
  provider ← flag provider_retry_required;
  s ← get_state;
  let retry_after := if provider : bool then Some (now + kBridgeOpenRetryDelay) else None in
  match next_retry (worker_failure_backoffs s) with
  | None => wait_turn db_path retry_after now
  | Some t =>
      if t <=? now then _ ← set_flag scan_requested true; mret NextTurn
      else wait_turn db_path (Some (match retry_after with Some r => Z.min r t | None => t end)) now
  end.

Definition supervisor_turn (db_path : string) : prog Sup turn :=
  s ← get_state;
  worker_removed ← reap (workers s) false;
  _ ← scan_if_due db_path worker_removed;
  plan_wait db_path.

(** How the loop ends, if it does within [fuel] rounds. *)
Inductive loop_end := Stopped | Waiting | Running.

Fixpoint supervisor_loop (fuel : nat) (db_path : string) : prog Sup loop_end :=
  match fuel with
  | O => mret Running
  | S more =>
      stop ← load_stop;
      if stop : bool then mret Stopped
      else
        t ← supervisor_turn db_path;
        match t with
        | WaitsForever => mret Waiting
        | NextTurn => supervisor_loop more db_path
        end
  end.

(** The locals of [run_bridge_supervisor], with the control pipe just made. *)
Definition new_supervisor (w : W * Devices) (gain : f32) (now : Z) (hs : list (list happening)) (cs : Calls) : Sup :=
  mk_supervisor w (mk_vars 0 false []) [] 0 [] [] [] [] 0
    (fun f => match f with scan_requested => true | _ => false end) (mk_change false false None) None
    (mk_pipe [] [] false 0 false) gain false false now hs cs.

(** [ControlPipeServer::stop] *)
Definition stop_pipe (p : ControlPipe) : ControlPipe :=
  if pipe_stopped p then p
  else mk_pipe [] (replied p ++ ((fun r => (r.1, daemon_stopping)) <$> requests p)) false (next_request p) true.

(** How the process goes on: the supervisor returns; it throws; it is ended by
    [std::terminate], when a thread that was not joined is destroyed; or it goes on. *)
Inductive process := Returned | Threw (what : string) | Terminates (what : string) | GoesOn (l : loop_end).

Definition run_bridge_supervisor (fuel : nat) (db_path pipe_name : string) (s : Sup) : Sup * process :=
  let s := add_log (Info, "Windows bridge supervisor started pipe=" +:+ pipe_name) s in
  let leave s := put_pipe (stop_pipe (pipe s)) s in
  match supervisor_loop fuel db_path s with
  | (s, Ok Stopped) => (leave (add_log (Info, "Windows bridge supervisor stopped") (put_workers [] s)), Returned)
  | (s, Ok l) => (s, GoesOn l)
  | (s, Throw e) => (leave s, if decide (workers s = []) then Threw e else Terminates e)
  end.
End Loop.
