(* ===== verification/WinService.v ===== *)
(** The Windows daemon around its supervisor (src/src/platform/win32/vdsd.cc): its options,
    the service and its states, [main]; the thread of the control pipe; and what a session
    does before its threads run - the USB/IP client, HidHide, the color of the controller.

    What the system answers, and what comes while something runs, is given by arguments and
    by lists in the states, arbitrary in every theorem.  Lines of the log are left out. *)
From S2P Require Import WinLoop.
From stdpp Require Import base strings numbers gmap list.
From Stdlib Require Import Ascii ZArith Lia.
From S2P Require Import Prelude Text Words Jsonl Config Supervisor WinIo WinDevices.

Local Open Scope Z_scope.

(** ** Options *)

Definition kDefaultControlPipe : string := "\\.\pipe\vdsd".

Record Options := mk_daemon_options { pipe : string; options_db_path : string; options_log_path : string }.

(** The loop of [parse_platform_args] from [argv[index]] on: [None] when the usage was asked
    for and the process ends. *)
Fixpoint parse_args_loop (fuel : nat) (argv : list string) (index : nat) (options : string)
    (common : VdsdCommonOptions) : result (option Options) :=
  match fuel with
  | O => Throw "<fuel>"
  | S f =>
      if (length argv <=? index)%nat
      then Ok (Some (mk_daemon_options options (db_path common) (log_path common)))
      else
        parsed ← parse_vdsd_common_option argv index common;
        match parsed with
        | Some (common, index) =>
            if help_requested common then Ok None else parse_args_loop f argv (index + 1) options common
        | None =>
            let arg := nth index argv "" in
            if decide (arg = "--pipe") then
              if (length argv <=? index + 1)%nat then Throw (arg +:+ " requires a value")
              else parse_args_loop f argv (index + 2) (nth (index + 1) argv "") common
            else Throw ("unknown option: " +:+ arg)
        end
  end.
Definition parse_platform_args (argv : list string) : result (option Options) :=
  parse_args_loop (S (length argv)) argv 1 kDefaultControlPipe (default_vdsd_common_options Windows).

(** ** The service *)

Definition SERVICE_WIN32_OWN_PROCESS : Z := 0x10.
Definition SERVICE_STOPPED : Z := 1.
Definition SERVICE_START_PENDING : Z := 2.
Definition SERVICE_STOP_PENDING : Z := 3.
Definition SERVICE_RUNNING : Z := 4.
Definition SERVICE_ACCEPT_STOP : Z := 1.
Definition SERVICE_ACCEPT_SHUTDOWN : Z := 4.
Definition SERVICE_CONTROL_STOP : Z := 1.
Definition SERVICE_CONTROL_INTERROGATE : Z := 4.
Definition SERVICE_CONTROL_SHUTDOWN : Z := 5.
Definition ERROR_SUCCESS : Z := 0.
Definition ERROR_CALL_NOT_IMPLEMENTED : Z := 120.
Definition ERROR_FAILED_SERVICE_CONTROLLER_CONNECT : Z := 1063.
Definition ERROR_SERVICE_SPECIFIC_ERROR : Z := 1066.
Definition CTRL_C_EVENT : Z := 0.
Definition CTRL_BREAK_EVENT : Z := 1.
Definition CTRL_CLOSE_EVENT : Z := 2.
Definition CTRL_SHUTDOWN_EVENT : Z := 6.

(** [SERVICE_STATUS] *)
Record ServiceStatus := mk_service_status {
  dwServiceType : Z;
  dwCurrentState : Z;
  dwControlsAccepted : Z;
  dwWin32ExitCode : Z;
  dwServiceSpecificExitCode : Z;
  dwCheckPoint : Z;
  dwWaitHint : Z
}.

(** The globals of the process; events are numbered as they are made.  [reported] is what
    [SetServiceStatus] was told, [signalled] the events that were set, [closed] those whose
    handle is closed. *)
Record Process := mk_process {
  g_stop_requested : bool;
  g_stop_event : option nat;
  g_service_status_handle : bool;
  g_service_status : ServiceStatus;
  g_service_exit_code : Z;
  console_handler_set : bool;
  events_made : nat;
  closed : list nat;
  signalled : list nat;
  reported : list ServiceStatus;
  cerr : list string
}.
Definition new_process : Process :=
  mk_process false None false (mk_service_status 0 0 0 0 0 0 0) 0 false 0 [] [] [] [].

Definition put_stop_requested (v : bool) (p : Process) : Process :=
  mk_process v (g_stop_event p) (g_service_status_handle p) (g_service_status p) (g_service_exit_code p)
    (console_handler_set p) (events_made p) (closed p) (signalled p) (reported p) (cerr p).
Definition put_stop_event (v : option nat) (p : Process) : Process :=
  mk_process (g_stop_requested p) v (g_service_status_handle p) (g_service_status p) (g_service_exit_code p)
    (console_handler_set p) (events_made p) (closed p) (signalled p) (reported p) (cerr p).
Definition put_status (v : ServiceStatus) (p : Process) : Process :=
  mk_process (g_stop_requested p) (g_stop_event p) (g_service_status_handle p) v (g_service_exit_code p)
    (console_handler_set p) (events_made p) (closed p) (signalled p) (reported p) (cerr p).
Definition put_status_handle (v : bool) (p : Process) : Process :=
  mk_process (g_stop_requested p) (g_stop_event p) v (g_service_status p) (g_service_exit_code p)
    (console_handler_set p) (events_made p) (closed p) (signalled p) (reported p) (cerr p).
Definition put_exit_code (v : Z) (p : Process) : Process :=
  mk_process (g_stop_requested p) (g_stop_event p) (g_service_status_handle p) (g_service_status p) v
    (console_handler_set p) (events_made p) (closed p) (signalled p) (reported p) (cerr p).
Definition set_console_handler (p : Process) : Process :=
  mk_process (g_stop_requested p) (g_stop_event p) (g_service_status_handle p) (g_service_status p)
    (g_service_exit_code p) true (events_made p) (closed p) (signalled p) (reported p) (cerr p).
Definition make_event (p : Process) : Process * nat :=
  (mk_process (g_stop_requested p) (g_stop_event p) (g_service_status_handle p) (g_service_status p)
     (g_service_exit_code p) (console_handler_set p) (S (events_made p)) (closed p) (signalled p) (reported p) (cerr p),
   events_made p).
Definition close_event (e : nat) (p : Process) : Process :=
  mk_process (g_stop_requested p) (g_stop_event p) (g_service_status_handle p) (g_service_status p)
    (g_service_exit_code p) (console_handler_set p) (events_made p) (closed p ++ [e]) (signalled p) (reported p) (cerr p).
Definition signal_event (e : nat) (p : Process) : Process :=
  mk_process (g_stop_requested p) (g_stop_event p) (g_service_status_handle p) (g_service_status p)
    (g_service_exit_code p) (console_handler_set p) (events_made p) (closed p) (signalled p ++ [e]) (reported p) (cerr p).
Definition SetServiceStatus (p : Process) : Process :=
  mk_process (g_stop_requested p) (g_stop_event p) (g_service_status_handle p) (g_service_status p)
    (g_service_exit_code p) (console_handler_set p) (events_made p) (closed p) (signalled p)
    (reported p ++ [g_service_status p]) (cerr p).
Definition print_error (text : string) (p : Process) : Process :=
  mk_process (g_stop_requested p) (g_stop_event p) (g_service_status_handle p) (g_service_status p)
    (g_service_exit_code p) (console_handler_set p) (events_made p) (closed p) (signalled p) (reported p)
    (cerr p ++ ["error: " +:+ text]).

(** What [console_handler] and [service_control_handler] do for a request to stop. *)
Definition request_stop (p : Process) : Process :=
  let p := put_stop_requested true p in
  match g_stop_event p with Some e => signal_event e p | None => p end.

Definition console_handler (type : Z) (p : Process) : Process * bool :=
  if (type =? CTRL_C_EVENT) || (type =? CTRL_BREAK_EVENT) || (type =? CTRL_CLOSE_EVENT)
     || (type =? CTRL_SHUTDOWN_EVENT)
  then (request_stop p, true) else (p, false).

Definition update_service_status (state win32_exit_code wait_hint : Z) (p : Process) : Process :=
  if g_service_status_handle p then
    SetServiceStatus
      (put_status
         (mk_service_status SERVICE_WIN32_OWN_PROCESS state
            (if state =? SERVICE_RUNNING then Z.lor SERVICE_ACCEPT_STOP SERVICE_ACCEPT_SHUTDOWN else 0)
            win32_exit_code
            (if win32_exit_code =? ERROR_SERVICE_SPECIFIC_ERROR then g_service_exit_code p else 0)
            (if (state =? SERVICE_START_PENDING) || (state =? SERVICE_STOP_PENDING) then 1 else 0)
            wait_hint) p)
  else p.

Definition service_control_handler (control : Z) (p : Process) : Process * Z :=
  if (control =? SERVICE_CONTROL_STOP) || (control =? SERVICE_CONTROL_SHUTDOWN)
  then (update_service_status SERVICE_STOP_PENDING ERROR_SUCCESS 5000 (request_stop p), ERROR_SUCCESS)
  else if control =? SERVICE_CONTROL_INTERROGATE then (SetServiceStatus p, ERROR_SUCCESS)
  else (p, ERROR_CALL_NOT_IMPLEMENTED).

(** What [run_windows_daemon] meets: an error of the event, an exception of the logger, the
    devices of the machine, the controls that come while the supervisor runs, and how it ends. *)
Record DaemonRun := mk_daemon_run {
  stop_event_error : option Z;
  logger_error : option string;
  machine : Devices;
  controls : list Z;
  supervisor : result unit
}.
(** A control reaches the handler that is set: the service's, or the console's. *)
Definition deliver (service_mode : bool) (p : Process) (control : Z) : Process :=
  if service_mode then (service_control_handler control p).1 else (console_handler control p).1.

Section Daemon.
Context `{WinSystem}.

(** The body of [run_windows_daemon] from the logger on, with the stop event [e]. *)
Definition daemon_body (service_mode : bool) (run : DaemonRun) : prog Process unit :=
  _ ← (match logger_error run with Some e => throw e | None => mret tt end);
  available ← lift (virtual_port_provider_available (machine run)).2;
  _ ← (if (available : bool) then mret tt else throw kWindowsVirtualPortProviderUnavailable);
  _ ← modify (fun p => if service_mode then update_service_status SERVICE_RUNNING ERROR_SUCCESS 0 p else p);
  _ ← modify (fun p => foldl (deliver service_mode) p (controls run));
  _ ← lift (supervisor run);
  modify (put_stop_event None).

(** [run_windows_daemon]: its value, or [None] when the process ends after printing the usage. *)
Definition run_windows_daemon (argv : list string) (service_mode : bool) (run : DaemonRun) (p : Process) :
    Process * option Z :=
  let p := put_stop_requested false p in
  match parse_platform_args argv with
  | Throw e => (print_error e p, Some 1)
  | Ok None => (p, None)
  | Ok (Some _) =>
      match stop_event_error run with
      | Some e => (print_error ("failed to create stop event: " +:+ win32_error_message e) p, Some 1)
      | None =>
          let '(p, event) := make_event p in
          let p := put_stop_event (Some event) p in
          let p := if service_mode then p else set_console_handler p in
          match daemon_body service_mode run p with
          | (p, Ok tt) => (close_event event p, Some 0)
          | (p, Throw e) => (print_error e (close_event event p), Some 1)
          end
      end
  end.

(** [service_main]; [None] when the process ends in it. *)
Definition service_main (register_error : option Z) (argv : list string) (run : DaemonRun) (p : Process) :
    Process * option unit :=
  match register_error with
  | Some e => (put_exit_code e (put_status_handle false p), Some tt)
  | None =>
      let p := update_service_status SERVICE_START_PENDING ERROR_SUCCESS 5000 (put_status_handle true p) in
      match run_windows_daemon argv true run p with
      | (p, None) => (p, None)
      | (p, Some code) =>
          let p := put_exit_code (u32 code) p in
          (update_service_status SERVICE_STOPPED
             (if g_service_exit_code p =? 0 then ERROR_SUCCESS else ERROR_SERVICE_SPECIFIC_ERROR) 0 p, Some tt)
      end
  end.

(** What [StartServiceCtrlDispatcherA] does: the service runs, with its own arguments, or an
    error. *)
Inductive dispatcher := Dispatched (register_error : option Z) (argv : list string) | NotDispatched (error : Z).

(** [main] with [dispatch_service_if_needed]: the exit code of the process. *)
Definition main (d : dispatcher) (argv : list string) (run : DaemonRun) (p : Process) : Process * Z :=
  match d with
  | Dispatched register_error service_argv =>
      match service_main register_error service_argv run p with
      | (p, Some tt) => (p, s32 (g_service_exit_code p))
      | (p, None) => (p, 0)
      end
  | NotDispatched error =>
      if error =? ERROR_FAILED_SERVICE_CONTROLLER_CONNECT then
        match run_windows_daemon argv false run p with
        | (p, Some code) => (p, code)
        | (p, None) => (p, 0)
        end
      else (print_error ("failed to connect service dispatcher: " +:+ win32_error_message error) p, 1)
  end.
End Daemon.

(** ** Facts *)

Lemma parse_args_total fuel argv index pipe common :
  (0 < fuel)%nat -> (length argv < fuel + index)%nat -> parse_args_loop fuel argv index pipe common <> Throw "<fuel>".
Proof.
  revert index pipe common. induction fuel as [|f IH]; intros index pipe common H0 Hf; [lia|]. cbn [parse_args_loop].
  destruct (Nat.leb_spec (length argv) index); [done|]. unfold mbind, result_bind.
  destruct (parse_vdsd_common_option argv index common) as [[[c i]|]|e] eqn:E.
  - assert (index <= i)%nat.
    { unfold parse_vdsd_common_option in E. repeat case_match; try done; injection E as _ <-; lia. }
    destruct (help_requested c); [done|]. apply IH; lia.
  - destruct (decide _) as [Ha|]; [|done]. destruct (Nat.leb_spec (length argv) (index + 1)); [by rewrite Ha|].
    apply IH; lia.
  - unfold parse_vdsd_common_option in E. repeat case_match; try done; injection E as <-; discriminate.
Qed.
Lemma parse_platform_args_total argv : parse_platform_args argv <> Throw "<fuel>".
Proof. apply parse_args_total; lia. Qed.

(** The order of the states of a service. *)
Definition rank (s : ServiceStatus) : nat :=
  if dwCurrentState s =? SERVICE_START_PENDING then 0
  else if dwCurrentState s =? SERVICE_RUNNING then 1
  else if dwCurrentState s =? SERVICE_STOP_PENDING then 2 else 3.
(** Each status is no earlier than the one before it, and no later than [last]. *)
Fixpoint between (first last_ : nat) (l : list ServiceStatus) : Prop :=
  match l with
  | [] => True
  | s :: l => (first <= rank s <= last_)%nat /\ between (rank s) last_ l
  end.
(** What a status promises: a checkpoint while it is pending, controls only while it runs. *)
Definition status_ok (s : ServiceStatus) : Prop :=
  dwServiceType s = SERVICE_WIN32_OWN_PROCESS
  /\ (dwControlsAccepted s <> 0 <-> dwCurrentState s = SERVICE_RUNNING)
  /\ (dwCheckPoint s = 1 <-> dwCurrentState s = SERVICE_START_PENDING \/ dwCurrentState s = SERVICE_STOP_PENDING).

Lemma between_snoc a b l x :
  between a b l -> (a <= rank x <= b)%nat -> (forall s, last l = Some s -> (rank s <= rank x)%nat) -> between a b (l ++ [x]).
Proof.
  revert a. induction l as [|y l IH]; intros a Hl Hx Hs; [done|]. destruct Hl as [Hy Hl]. split; [done|].
  apply IH; [done| |].
  - destruct l as [|z l]; [specialize (Hs y eq_refl); lia|]. destruct Hl as [Hz Hl].
    assert (exists s, last (y :: z :: l) = Some s /\ (rank z <= rank s)%nat) as (s & E & Hle).
    { clear -Hl. cbn [last]. revert z Hl. induction l as [|w l IH]; intros z Hl; [by exists z|].
      destruct Hl as [Hw Hl]. destruct (IH w Hl) as (s & E & ?). exists s. split; [exact E|lia]. }
    specialize (Hs s E). lia.
  - intros s E. apply Hs. destruct l; [done|exact E].
Qed.

(** A service that runs or is being stopped, with what it reported so far. *)
Record service_ok (p : Process) : Prop := {
  service_handle : g_service_status_handle p = true;
  service_current : status_ok (g_service_status p);
  service_rank : (1 <= rank (g_service_status p) <= 2)%nat;
  service_chain : between 0 2 (reported p);
  service_last : forall s, last (reported p) = Some s -> (rank s <= rank (g_service_status p))%nat;
  service_reported : Forall status_ok (reported p)
}.

Lemma report_again p : service_ok p -> service_ok (SetServiceStatus p).
Proof.
  intros [H1 H2 H3 H4 H5 H6]. split; cbn; try done.
  - apply between_snoc; [done|lia|done].
  - intros s. rewrite last_snoc. by intros [= <-].
  - apply Forall_app. split; [done|by constructor].
Qed.
Lemma status_of state code hint spec :
  status_ok (mk_service_status SERVICE_WIN32_OWN_PROCESS state
    (if state =? SERVICE_RUNNING then Z.lor SERVICE_ACCEPT_STOP SERVICE_ACCEPT_SHUTDOWN else 0) code spec
    (if (state =? SERVICE_START_PENDING) || (state =? SERVICE_STOP_PENDING) then 1 else 0) hint).
Proof.
  split_and!; cbn; [done| |].
  - destruct (Z.eqb_spec state SERVICE_RUNNING); done.
  - destruct (Z.eqb_spec state SERVICE_START_PENDING), (Z.eqb_spec state SERVICE_STOP_PENDING); cbn;
      split; try done; try (intros _; by auto); by intros [?|?].
Qed.

Lemma stop_fields p :
  g_service_status_handle (request_stop p) = g_service_status_handle p
  /\ g_service_status (request_stop p) = g_service_status p /\ reported (request_stop p) = reported p
  /\ g_service_exit_code (request_stop p) = g_service_exit_code p /\ g_stop_event (request_stop p) = g_stop_event p.
Proof. unfold request_stop. cbn. destruct (g_stop_event p) eqn:E; split_and!; (done || exact E). Qed.

Lemma deliver_ok p control : service_ok p -> service_ok (deliver true p control).
Proof.
  intros Hp. unfold deliver, service_control_handler. case_match.
  - cbn [fst]. destruct Hp as [H1 H2 H3 H4 H5 H6]. destruct (stop_fields p) as (E1 & E2 & E3 & _ & _).
    unfold update_service_status. rewrite E1, H1.
    apply report_again. split; cbn [put_status g_service_status_handle g_service_status reported]; try done.
    + by rewrite E1.
    + apply (status_of SERVICE_STOP_PENDING).
    + cbn. lia.
    + by rewrite E3.
    + rewrite E3. intros s Hs. specialize (H5 s Hs). cbn. lia.
    + by rewrite E3.
  - case_match; [|done]. by apply report_again.
Qed.
Lemma deliver_all_ok cs p : service_ok p -> service_ok (foldl (deliver true) p cs).
Proof. revert p. induction cs as [|c cs IH]; intros p Hp; [done|]. by apply IH, deliver_ok. Qed.

Lemma between_weaken a b c l : (b <= c)%nat -> between a b l -> between a c l.
Proof.
  intros Hbc. revert a. induction l as [|s l IH]; intros a; [done|]. intros [? ?]. split; [lia|by apply IH].
Qed.

Lemma deliver_keeps service_mode p control :
  g_stop_event (deliver service_mode p control) = g_stop_event p
  /\ (exists more, reported (deliver service_mode p control) = reported p ++ more)
  /\ (g_stop_requested p = true -> g_stop_requested (deliver service_mode p control) = true).
Proof.
  unfold deliver, service_control_handler, console_handler, update_service_status, request_stop.
  repeat case_match; cbn; split_and!; try done; try (by eexists); exists []; by rewrite app_nil_r.
Qed.
Lemma deliver_all_keeps service_mode cs p :
  g_stop_event (foldl (deliver service_mode) p cs) = g_stop_event p
  /\ (exists more, reported (foldl (deliver service_mode) p cs) = reported p ++ more)
  /\ (g_stop_requested p = true -> g_stop_requested (foldl (deliver service_mode) p cs) = true).
Proof.
  revert p. induction cs as [|c cs IH]; intros p; [split_and!; try done; exists []; by rewrite app_nil_r|].
  cbn [foldl]. destruct (IH (deliver service_mode p c)) as (-> & (m & ->) & Hs).
  destruct (deliver_keeps service_mode p c) as (-> & (m' & ->) & Hs'). split_and!; [done| |by auto].
  exists (m' ++ m). by rewrite app_assoc.
Qed.

(** The controls that stop a service. *)
Definition stops (control : Z) : bool := (control =? SERVICE_CONTROL_STOP) || (control =? SERVICE_CONTROL_SHUTDOWN).
Lemma deliver_stop p cs :
  existsb stops cs = true -> g_stop_requested (foldl (deliver true) p cs) = true.
Proof.
  revert p. induction cs as [|c cs IH]; intros p; [done|]. cbn [existsb foldl]. destruct (stops c) eqn:E; [|apply IH].
  intros _. apply deliver_all_keeps. unfold deliver, service_control_handler. unfold stops in E. rewrite E. cbn [fst].
  unfold update_service_status, request_stop. repeat case_match; done.
Qed.

Section DaemonFacts.
Context `{WinSystem}.

(** What the daemon has reported behind [start] when its body ends. *)
Lemma body_spec run p p' r start :
  daemon_body true run p = (p', r) ->
  g_service_status_handle p = true -> reported p = [start] -> rank start = 0%nat -> status_ok start ->
  g_service_status_handle p' = true /\ between 0 2 (reported p') /\ Forall status_ok (reported p')
  /\ (exists more, reported p' = start :: more)
  /\ (r = Ok tt -> existsb stops (controls run) = true -> g_stop_requested p' = true).
Proof.
  intros E Hh Hrep Hrk Hok.
  assert (g_service_status_handle p = true /\ between 0 2 (reported p) /\ Forall status_ok (reported p)
          /\ (exists more, reported p = start :: more)) as Hp.
  { rewrite Hrep. split_and!; [done| |by constructor|by eexists]. cbn. by rewrite Hrk; split; [lia|]. }
  unfold daemon_body in E. unfold mbind, prog_bind, lift, modify in E.
  destruct (logger_error run); [injection E as <- <-; by destruct Hp as (? & ? & ? & ?)|]. cbn [mret prog_ret] in E.
  destruct (virtual_port_provider_available (machine run)) as [d [[]|e]]; cbn [snd mret prog_ret throw] in E;
    [|injection E as <- <-; by destruct Hp as (? & ? & ? & ?)..].
  set (p1 := update_service_status SERVICE_RUNNING ERROR_SUCCESS 0 p) in E.
  assert (service_ok p1) as H1.
  { subst p1. unfold update_service_status. rewrite Hh. apply report_again.
    split; cbn [put_status g_service_status_handle g_service_status reported]; try done.
    - apply (status_of SERVICE_RUNNING).
    - cbn. lia.
    - rewrite Hrep. cbn. by rewrite Hrk; split; [lia|].
    - rewrite Hrep. intros s [= <-]. rewrite Hrk. lia.
    - rewrite Hrep. by constructor. }
  assert (exists more, reported p1 = start :: more) as (m1 & Hm1).
  { subst p1. unfold update_service_status. rewrite Hh. cbn. rewrite Hrep. by eexists. }
  destruct (deliver_all_ok (controls run) p1 H1) as [F1 F2 F3 F4 F5 F6].
  destruct (deliver_all_keeps true (controls run) p1) as (G1 & (m & G2) & G3). rewrite Hm1 in G2.
  destruct (supervisor run) as [[]|e]; injection E as <- <-; cbn [put_stop_event g_service_status_handle reported g_stop_requested];
    (split_and!; [done..|by eexists|]); [intros _; apply deliver_stop|done].
Qed.
End DaemonFacts.

Section ServiceProps.
Context `{WinSystem}.

(**  A service that starts reports its states in their order - starting, running, being
    stopped, stopped - whatever controls reach it and however its supervisor ends: it
    starts with the first, ends with the last, accepts controls only while it runs, and
    promises progress only while it starts or is being stopped.  Its exit code is 0 and
    without an error, or 1 and the service's own error; and it returns 0 after a request to
    stop only with the stop flag of its workers set. *)
Theorem service_lifecycle argv run p p' :
  reported p = [] -> service_main None argv run p = (p', Some tt) ->
  exists start middle stop,
    reported p' = start :: middle ++ [stop]
    /\ dwCurrentState start = SERVICE_START_PENDING /\ dwCurrentState stop = SERVICE_STOPPED
    /\ between 0 3 (reported p') /\ Forall (fun s => (rank s <= 2)%nat) middle
    /\ Forall status_ok (reported p')
    /\ (g_service_exit_code p' = 0 /\ dwWin32ExitCode stop = ERROR_SUCCESS
        /\ (existsb stops (controls run) = true -> g_stop_requested p' = true)
        \/ g_service_exit_code p' = 1 /\ dwWin32ExitCode stop = ERROR_SERVICE_SPECIFIC_ERROR
           /\ dwServiceSpecificExitCode stop = 1).
Proof.
  intros Hrep. unfold service_main. set (p0 := update_service_status _ _ _ _).
  destruct (run_windows_daemon argv true run p0) as [p1 [code|]] eqn:E; [|done].
  assert (g_service_status_handle p0 = true /\ exists start, reported p0 = [start] /\ rank start = 0%nat
          /\ dwCurrentState start = SERVICE_START_PENDING /\ status_ok start) as (Hh & start & Hst & Hrk & Hcur & Hok).
  { subst p0. unfold update_service_status. cbn. rewrite Hrep. split; [done|]. eexists. split_and!; [done..|].
    apply (status_of SERVICE_START_PENDING). }
  clearbody p0.
  assert (g_service_status_handle p1 = true /\ between 0 2 (reported p1) /\ Forall status_ok (reported p1)
    /\ (exists more, reported p1 = start :: more)
    /\ ((code = 0 /\ (existsb stops (controls run) = true -> g_stop_requested p1 = true)) \/ code = 1))
    as (H1 & H2 & H3 & (more & H4) & H5).
  { assert (between 0 2 [start]) as Hb by (cbn; rewrite Hrk; split; [lia|done]).
    assert (Forall status_ok [start]) as Hf by (by constructor).
    unfold run_windows_daemon in E. destruct (parse_platform_args argv) as [[o|]|e]; [|done|].
    - destruct (stop_event_error run).
      + injection E as <- <-. cbn. rewrite Hst. split_and!; [done..|by eexists|by right].
      + cbn [make_event] in E. set (p2 := put_stop_event _ _) in E.
        destruct (daemon_body true run p2) as [p3 r] eqn:Eb.
        assert (g_service_status_handle p2 = true) as Hh2 by exact Hh.
        assert (reported p2 = [start]) as Hst2 by exact Hst.
        destruct (body_spec run p2 p3 r start Eb Hh2 Hst2 Hrk Hok) as (B1 & B2 & B3 & B4 & B5).
        destruct r as [[]|e]; injection E as <- <-; cbn; split_and!; try done; [left; split; [done|by apply B5]|by right].
    - injection E as <- <-. cbn. rewrite Hst. split_and!; [done..|by eexists|by right]. }
  unfold update_service_status. cbn [put_exit_code g_service_status_handle]. rewrite H1. intros [= <-].
  set (stop := mk_service_status _ _ _ _ _ _ _). cbn [SetServiceStatus put_status put_exit_code reported g_service_status g_stop_requested g_service_exit_code].
  exists start, more, stop. rewrite H4 in *. cbn [app].
  assert (rank stop = 3%nat) as Hr by done.
  split_and!; try done.
  - apply (between_snoc 0 3 (start :: more)); [by apply (between_weaken 0 2); [lia|]|rewrite Hr; lia|].
    intros s Hs. rewrite Hr. unfold rank. repeat case_match; lia.
  - destruct H2 as [_ H2]. clear -H2. revert H2. generalize (rank start). induction more as [|s more IH]; intros n; [done|].
    intros [? ?]. constructor; [lia|by eapply IH].
  - apply Forall_app with (l1 := start :: more). split; [done|]. constructor; [|done].
    apply (status_of SERVICE_STOPPED).
  - subst stop. cbn. destruct H5 as [[-> Hs]| ->]; [left|right]; by split_and!.
Qed.
End ServiceProps.

Lemma service_lifecycle_witness :
  let H := {| format_message _ := None; environment_variable _ := None |} in
  let run := mk_daemon_run None None (mk_devices [] [] [] [] [] [] [] [] [])
               [SERVICE_CONTROL_INTERROGATE; SERVICE_CONTROL_STOP] (Ok tt) in
  exists p', service_main None ["vdsd"; "--log"; "x"] run new_process = (p', Some tt)
  /\ dwCurrentState <$> reported p' = [SERVICE_START_PENDING; SERVICE_RUNNING; SERVICE_RUNNING; SERVICE_STOP_PENDING; SERVICE_STOPPED]
  /\ between 0 3 (reported p').
Proof.
  intros H run. destruct (service_main None ["vdsd"; "--log"; "x"] run new_process) as [p' o] eqn:E.
  assert (o = Some tt /\ dwCurrentState <$> reported p' =
    [SERVICE_START_PENDING; SERVICE_RUNNING; SERVICE_RUNNING; SERVICE_STOP_PENDING; SERVICE_STOPPED]) as [-> Hs].
  { vm_compute in E. injection E as <- <-. split; vm_compute; reflexivity. }
  exists p'. destruct (service_lifecycle _ run new_process p' eq_refl E) as (start & middle & stop & _ & _ & _ & Hb & _).
  split; [reflexivity|]. split; [exact Hs|exact Hb].
Defined.

(** An exception behind the stop event leaves the handlers with a closed event. *)
Lemma closed_stop_event :
  let H := {| format_message _ := None; environment_variable _ := None |} in
  let run := mk_daemon_run None (Some "log") (mk_devices [] [] [] [] [] [] [] [] []) [] (Ok tt) in
  let p := (run_windows_daemon ["vdsd"] false run new_process).1 in
  g_stop_event p = Some 0%nat /\ closed p = [0%nat] /\ console_handler_set p = true
  /\ signalled (console_handler CTRL_C_EVENT p).1 = [0%nat].
Proof. by vm_compute. Qed.

(** ** The thread of the control pipe *)

Definition ERROR_PIPE_CONNECTED : Z := 535.
Definition kCommandBuffer : nat := 512.

(** [wait_for_pipe_io]: the operation completes, the stop event is set, or the wait fails. *)
Inductive pipe_wait := PipeCompleted (result : overlapped_result) | PipeStopSet | PipeWaitFailed.
Definition wait_for_pipe_io (w : pipe_wait) : option nat :=
  match w with
  | PipeCompleted (Transferred n) => Some n
  | PipeCompleted (Error _) | PipeStopSet | PipeWaitFailed => None
  end.

(** An overlapped operation of the pipe: whether its event is made, what it gives at once or
    the error it starts with, and the wait. *)
Record pipe_io := mk_pipe_io { pipe_event_made : bool; pipe_started : answer nat; pipe_waited : pipe_wait }.

(** What [connect_client], [read_command] and [write_reply] have in common; [connected] is
    the error that is no error. *)
Definition pipe_operation (connected : option Z) (o : pipe_io) : option nat :=
  if pipe_event_made o then
    match pipe_started o with
    | Gives n => Some n
    | Fails e =>
        if bool_decide (connected = Some e) then Some 0%nat
        else if e =? ERROR_IO_PENDING then wait_for_pipe_io (pipe_waited o) else None
    end
  else None.
Definition connect_client (o : pipe_io) : bool :=
  match pipe_operation (Some ERROR_PIPE_CONNECTED) o with Some _ => true | None => false end.
(** [message] is what the client sent; a read gives at most 511 bytes of it. *)
Definition read_command (message : string) (o : pipe_io) : option string :=
  match pipe_operation None o with
  | Some got =>
      let got := Nat.min got (Nat.min (kCommandBuffer - 1) (String.length message)) in
      if (got =? 0)%nat then None else Some (String.substring 0 got message)
  | None => None
  end.
Definition write_reply (o : pipe_io) : bool :=
  match pipe_operation None o with Some _ => true | None => false end.

(** One round of [thread_main]: whether a stop is seen before it, whether the pipe is made,
    the client that connects, and whether a stop is seen then; what the client sends, and what
    [queue_command] answers it. *)
Record pipe_round := mk_pipe_round {
  stop_before : bool;
  pipe_made : bool;
  connecting : pipe_io;
  stop_then : bool;
  client_message : string;
  reading : pipe_io;
  queue_reply : string -> string;
  writing : pipe_io
}.

(** [handle_client]: the command that was queued, and the reply if it was written. *)
Definition handle_client (r : pipe_round) : option (string * option string) :=
  match read_command (client_message r) (reading r) with
  | None => None
  | Some command =>
      let reply := queue_reply r command in
      Some (command, if write_reply (writing r) then Some reply else None)
  end.

(** [thread_main]: the exchanges with its clients; it is done when a stop is seen, and waits
    for a client behind its last round. *)
Fixpoint thread_main (rounds : list pipe_round) : list (string * option string) :=
  match rounds with
  | [] => []
  | r :: rest =>
      if stop_before r then []
      else if negb (pipe_made r) then thread_main rest
      else if negb (connect_client (connecting r)) || stop_then r then thread_main rest
      else
        match handle_client r with
        | Some exchange => exchange :: thread_main rest
        | None => thread_main rest
        end
  end.

Lemma substring_length n text : (n <= String.length text)%nat -> String.length (String.substring 0 n text) = n.
Proof.
  revert n. induction text as [|c text IH]; intros [|n]; cbn; try lia. intros Hn. f_equal. apply IH. lia.
Qed.

(** Every command that is queued is the beginning of the message of one client, between 1 and
    511 characters, and that client gets the answer to it, or none. *)
Lemma commands_of_clients rounds command reply :
  (command, reply) ∈ thread_main rounds ->
  exists r, r ∈ rounds /\ (1 <= String.length command <= 511)%nat
  /\ (exists n, command = String.substring 0 n (client_message r)) /\ (reply = None \/ reply = Some (queue_reply r command)).
Proof.
  induction rounds as [|r rest IH]; cbn [thread_main]; [by intros ?%elem_of_nil|].
  assert ((command, reply) ∈ thread_main rest -> exists r', r' ∈ r :: rest /\ (1 <= String.length command <= 511)%nat
    /\ (exists n, command = String.substring 0 n (client_message r')) /\ (reply = None \/ reply = Some (queue_reply r' command))) as Hrest.
  { intros (r' & Hr & ?)%IH. exists r'. split; [by apply list_elem_of_further|done]. }
  case_match; [by intros ?%elem_of_nil|]. case_match; [done|]. case_match; [done|].
  destruct (handle_client r) as [[c x]|] eqn:Hh; [|done]. intros [[= -> ->]|?]%elem_of_cons; [|by apply Hrest].
  exists r. split; [apply list_elem_of_here|]. unfold handle_client, read_command in Hh.
  destruct (pipe_operation None (reading r)) as [got|]; [|done].
  set (n := Nat.min got _) in Hh.
  assert (n <= 511 /\ n <= String.length (client_message r))%nat as [Hn Hl] by (subst n; unfold kCommandBuffer; lia).
  clearbody n. destruct (Nat.eqb_spec n 0); [done|].
  injection Hh as <- <-. split; [|split; [by eexists|case_match; auto]]. rewrite substring_length; lia.
Qed.

(** ** Before the threads of a session run *)

(** [open_device] and [open_device_for_control]: the error of [CreateFileA], if any. *)
Definition open_device `{WinSystem} (path : string) (error : option Z) : result unit :=
  match error with
  | Some e => Throw ("failed to open " +:+ path +:+ ": " +:+ win32_error_message e)
  | None => Ok tt
  end.

(** [VirtualPortBindingGuard]: what it asks of the driver of a port, with the answers to each. *)
Inductive port_request := BindPort (profile : Z) | UnbindPort.
Record PortDriver := mk_port_driver { open_error : option Z; bind_errors : list (option Z); port_requests : list port_request }.
Definition ask_port (r : port_request) : prog PortDriver (option Z) := fun d =>
  (mk_port_driver (open_error d) (tail (bind_errors d)) (port_requests d ++ [r]), Ok (default None (head (bind_errors d)))).
Definition bind_port `{WinSystem} (path : string) (profile : Z) : prog PortDriver unit :=
  d ← get_state;
  _ ← lift (open_device path (open_error d));
  failed ← ask_port (BindPort profile);
  match failed with
  | Some e => throw ("failed to bind " +:+ path +:+ ": " +:+ win32_error_message e)
  | None => mret tt
  end.
(** The destructor; a failure is only logged. *)
Definition unbind_port : prog PortDriver unit := _ ← ask_port UnbindPort; mret tt.
(** A port that is bound for as long as [body] runs, which may throw. *)
Definition with_port_bound `{WinSystem} {A} (path : string) (profile : Z) (body : prog PortDriver A) : prog PortDriver A :=
  _ ← bind_port path profile;
  (fun d => let '(d, r) := body d in ((unbind_port d).1, r)) : prog PortDriver A.

(** A port that was bound is unbound, whatever happens in between, and no other is. *)
Lemma port_bound_and_unbound `{WinSystem} {A} path profile (body : prog PortDriver A) d d' r :
  (forall d, port_requests (body d).1 = port_requests d) ->
  with_port_bound path profile body d = (d', r) ->
  port_requests d' = port_requests d
  \/ port_requests d' = port_requests d ++ [BindPort profile] /\ (exists e, r = Throw e)
  \/ port_requests d' = port_requests d ++ [BindPort profile; UnbindPort].
Proof.
  intros Hb. unfold with_port_bound, bind_port, open_device, unbind_port, ask_port, lift, get_state, mbind, prog_bind, mret, prog_ret, throw.
  destruct (open_error d); [intros [= <- <-]; by left|]. cbn [open_error bind_errors port_requests].
  destruct (default None (head (bind_errors d))); [intros [= <- <-]; right; left; by eauto|].
  specialize (Hb (mk_port_driver None (tail (bind_errors d)) (port_requests d ++ [BindPort profile]))).
  destruct (body _) as [d1 x] eqn:E. cbn [fst port_requests] in Hb |- *. intros [= <- <-]. right; right. cbn. by rewrite Hb, <- app_assoc.
Qed.

Definition MAX_PATH : nat := 260.
Definition kDefaultPort : Z := 3240.
Definition kAttachTimeout : Z := 8000.
Definition kPollInterval : Z := 100.
Definition kHidHideSetupTimeoutMs : Z := 15000.

(** [dir.substr(0, dir.find_last_of('\\'))] *)
Fixpoint before_last (c : ascii) (text : string) : option string :=
  match text with
  | EmptyString => None
  | String d rest =>
      match before_last c rest with
      | Some head => Some (String d head)
      | None => if decide (d = c) then Some "" else None
      end
  end.

(** The world these functions act on: the clock in milliseconds, what each operation takes
    besides its own time, whether the USB/IP client is attached, each time that is asked, the
    outcomes of [CreateProcessA] (an error, or how the process is waited for), whether
    HidHide was set up before, and the command lines that were launched. *)
Record Startup := mk_startup {
  now : Z;
  delays : list nat;
  usb_attached_answers : list bool;
  create_errors : list (option Z);
  hidhide_once_flag : bool;
  waited_for : Z;
  launched : list string
}.
Definition put_clock (v : Z) (d : list nat) (s : Startup) : Startup :=
  mk_startup v d (usb_attached_answers s) (create_errors s) (hidhide_once_flag s) (waited_for s) (launched s).
Definition put_answers (v : list bool) (s : Startup) : Startup :=
  mk_startup (now s) (delays s) v (create_errors s) (hidhide_once_flag s) (waited_for s) (launched s).
Definition put_created (v : list (option Z)) (l : list string) (s : Startup) : Startup :=
  mk_startup (now s) (delays s) (usb_attached_answers s) v (hidhide_once_flag s) (waited_for s) l.
Definition set_once_flag (s : Startup) : Startup :=
  mk_startup (now s) (delays s) (usb_attached_answers s) (create_errors s) true (waited_for s) (launched s).
Definition wait_up_to (ms : Z) (s : Startup) : Startup :=
  mk_startup (now s) (delays s) (usb_attached_answers s) (create_errors s) (hidhide_once_flag s) (waited_for s + ms)
    (launched s).

(** An operation that takes [ms] and a delay. *)
Definition pass (ms : Z) : prog Startup unit :=
  modify (fun s => put_clock (now s + ms + Z.of_nat (default 0%nat (head (delays s)))) (tail (delays s)) s).
Definition clock_now : prog Startup Z := s ← get_state; _ ← pass 0; mret (now s).
Definition usb_attached : prog Startup bool :=
  s ← get_state;
  _ ← modify (put_answers (tail (usb_attached_answers s)));
  _ ← pass 0;
  mret (default false (head (usb_attached_answers s))).
Definition create_process (command_line : string) : prog Startup bool :=
  s ← get_state;
  match default None (head (create_errors s)) with
  | Some _ => _ ← modify (fun s => put_created (tail (create_errors s)) (launched s) s); mret false
  | None => _ ← modify (fun s => put_created (tail (create_errors s)) (launched s ++ [command_line]) s); mret true
  end.

Section Startup.
Context `{WinSystem} (getenv : string -> option string).

Definition resolve_usbip_exe_path : string :=
  match getenv "VDS_USBIP_EXE" with
  | Some override_path => override_path
  | None =>
      (match environment_variable "ProgramFiles" with
       | Some v => if (0 <? String.length v)%nat && (String.length v <? MAX_PATH)%nat then v else "C:\Program Files"
       | None => "C:\Program Files"
       end) +:+ "\USBip\usbip.exe"
  end.

(** [module] is what [GetModuleFileNameA] gives. *)
Definition resolve_hidhide_setup_script_path (module : option string) : string :=
  match getenv "VDS_HIDHIDE_SETUP_PS1" with
  | Some override_path => override_path
  | None =>
      match module with
      | None => ""
      | Some path =>
          if (String.length path =? 0)%nat || (MAX_PATH <=? String.length path)%nat then ""
          else match before_last "\"%char path with
               | Some dir => dir +:+ "\hidhide_setup.ps1"
               | None => ""
               end
      end
  end.

(** How the setup of HidHide went. *)
Inductive HidHideOutcome := ScriptNotFound | SetupNotLaunched | SetupCompleted | SetupTimedOut | SetupFailed.
(** How the wait for its process ends: [WAIT_OBJECT_0] with the exit code (none when it cannot
    be had), [WAIT_TIMEOUT], or an error. *)
Inductive setup_wait := SetupExits (exit_code : option Z) | SetupWaitTimeout | SetupWaitFailed.

(** [ensure_hidhide_configured]: the outcome of the one call that does anything. *)
Definition ensure_hidhide_configured (module : option string) (attributes_valid : bool) (wait : setup_wait) :
    prog Startup (option HidHideOutcome) :=
  s ← get_state;
  if hidhide_once_flag s then mret None
  else
    let script_path := resolve_hidhide_setup_script_path module in
    outcome ← (if bool_decide (script_path = "") || negb attributes_valid then mret ScriptNotFound
               else
                 created ← create_process ("powershell.exe -ExecutionPolicy Bypass -File " +:+ quote +:+ script_path +:+ quote);
                 if (created : bool) then
                   _ ← modify (wait_up_to kHidHideSetupTimeoutMs);
                   mret (match wait with
                         | SetupExits (Some 0) => SetupCompleted
                         | SetupWaitTimeout => SetupTimedOut
                         | _ => SetupFailed
                         end)
                 else mret SetupNotLaunched);
    _ ← modify set_once_flag;
    mret (Some outcome).

Definition attach_command (usbip_exe_path busid : string) : string :=
  quote +:+ usbip_exe_path +:+ quote +:+ " attach -r 127.0.0.1 -b " +:+ busid.
Definition launch_usbip_client_attach (usbip_exe_path busid : string) : prog Startup bool :=
  create_process (attach_command usbip_exe_path busid).

Inductive AttachOutcome := AlreadyAttached | PortNotReachable | LaunchFailed | AttachedAfter (elapsed_ms : Z) | AttachTimedOut.

(** [while (clock::now() - attach_started_at < kAttachTimeout)] *)
Fixpoint attach_loop (fuel : nat) (started : Z) : prog Startup AttachOutcome :=
  match fuel with
  | O => throw "<fuel>"
  | S f =>
      t ← clock_now;
      if t - started <? kAttachTimeout then
        attached ← usb_attached;
        if (attached : bool) then t ← clock_now; mret (AttachedAfter (t - started))
        else _ ← pass kPollInterval; attach_loop f started
      else mret AttachTimedOut
  end.

(** Each round but the last sleeps an eightieth of the time there is. *)
Definition ensure_usbip_client_attached (tcp_port : Z) (busid : string) : prog Startup AttachOutcome :=
  attached ← usb_attached;
  if (attached : bool) then mret AlreadyAttached
  else if negb (tcp_port =? kDefaultPort) then mret PortNotReachable
  else
    started ← clock_now;
    ok ← launch_usbip_client_attach resolve_usbip_exe_path busid;
    if (ok : bool) then attach_loop 81 started else mret LaunchFailed.
End Startup.

(** ** The color of the controller *)

(** The feature reports of the controller: what becomes of the one that is written, the
    answers to the next reads, and what was written and slept. *)
Record ColorIo := mk_color_io {
  write_result : result unit;
  feature_reads : list (result (option (list Z)));
  written : list (list Z);
  polls : nat;
  color_slept : Z
}.
Definition kCmdReport : Z := 0x80.
Definition kRespReport : Z := 0x81.
Definition kDeviceSystem : Z := 1.
Definition kActionReadSerial : Z := 19.

Definition write_command (s : ColorIo) : ColorIo :=
  mk_color_io (write_result s) (feature_reads s) (written s ++ [[kCmdReport; kDeviceSystem; kActionReadSerial]])
    (polls s) (color_slept s).
Definition poll (s : ColorIo) : ColorIo :=
  mk_color_io (write_result s) (tail (feature_reads s)) (written s) (S (polls s)) (color_slept s + 8).

(** A reply to the command: the code of the color, or that there is none; [None] when it is
    something else. *)
Definition color_reply (r : list Z) : option Z :=
  if (length r <? 10)%nat then None
  else if (byte_at r 0 =? kRespReport) && (byte_at r 1 =? kDeviceSystem) && (byte_at r 2 =? kActionReadSerial) then
    let c0 := byte_at r 8 in let c1 := byte_at r 9 in
    Some (if negb (c0 =? 0) && negb (c1 =? 0) then Z.lor (Z.shiftl c0 8) c1 else -1)
  else None.

(** [for (int attempt = 0; attempt < 12; ++attempt)] *)
Fixpoint color_attempts (attempts : nat) : prog ColorIo Z :=
  match attempts with
  | O => mret (-1)
  | S n =>
      s ← get_state;
      _ ← modify poll;
      match default (Throw "") (head (feature_reads s)) with
      | Ok (Some r) => match color_reply r with Some code => mret code | None => color_attempts n end
      | Ok None | Throw _ => color_attempts n
      end
  end.
Definition read_controller_color : prog ColorIo Z :=
  s ← get_state;
  _ ← modify write_command;
  match write_result s with
  | Throw _ => mret (-1)
  | Ok _ => color_attempts 12
  end.

(** ** Facts *)

Definition after (ms : Z) (s : Startup) : Startup :=
  put_clock (now s + ms + Z.of_nat (default 0%nat (head (delays s)))) (tail (delays s)) s.
Lemma after_later ms s : now s + ms <= now (after ms s).
Proof. cbn. lia. Qed.
Lemma after_exact ms s : delays s = [] -> now (after ms s) = now s + ms /\ delays (after ms s) = [].
Proof. intros Hd. cbn. rewrite Hd. cbn. split; [lia|done]. Qed.

(** A round of the wait: the clock is read, the client asked, and the clock read again or a
    sleep taken. *)
Definition asked (s : Startup) : Startup := after 0 (put_answers (tail (usb_attached_answers s)) (after 0 s)).
Lemma attach_round f started s :
  attach_loop (S f) started s =
  if now s - started <? kAttachTimeout then
    if default false (head (usb_attached_answers s))
    then (after 0 (asked s), Ok (AttachedAfter (now (asked s) - started)))
    else attach_loop f started (after kPollInterval (asked s))
  else (after 0 s, Ok AttachTimedOut).
Proof.
  cbn [attach_loop]. unfold clock_now, usb_attached, pass, mbind, prog_bind, get_state, modify, mret, prog_ret.
  destruct (now s - started <? kAttachTimeout); [|done].
  change (usb_attached_answers (put_clock _ _ s)) with (usb_attached_answers s).
  by destruct (default false (head (usb_attached_answers s))).
Qed.

Lemma attach_loop_spec fuel started s s' r :
  attach_loop fuel started s = (s', r) ->
  (0 < fuel)%nat -> kAttachTimeout - (now s - started) <= kPollInterval * (Z.of_nat fuel - 1) ->
  launched s' = launched s
  /\ ((r = Ok AttachTimedOut /\ kAttachTimeout <= now s' - started)
      \/ exists ms n, r = Ok (AttachedAfter ms) /\ now s - started <= ms <= now s' - started
         /\ usb_attached_answers s !! n = Some true)
  /\ (delays s = [] -> now s - started < kAttachTimeout + kPollInterval -> now s' - started < kAttachTimeout + kPollInterval).
Proof.
  revert s. induction fuel as [|f IH]; intros s E H0 Hf; [lia|]. rewrite attach_round in E.
  assert (now s <= now (asked s)) as Hm.
  { pose proof (after_later 0 s). pose proof (after_later 0 (put_answers (tail (usb_attached_answers s)) (after 0 s))) as Hx.
    unfold asked. cbn [put_answers now] in Hx. lia. }
  assert (delays s = [] -> now (asked s) = now s /\ delays (asked s) = []) as Hd.
  { intros Hd. destruct (after_exact 0 s Hd) as [A1 A2].
    destruct (after_exact 0 (put_answers (tail (usb_attached_answers s)) (after 0 s)) A2) as [B1 B2].
    unfold asked. rewrite B1. cbn [put_answers now]. split; [lia|exact B2]. }
  assert (usb_attached_answers (asked s) = tail (usb_attached_answers s)) as Hq by done.
  pose proof (after_later kPollInterval (asked s)) as Hp. pose proof (after_later 0 (asked s)) as H00.
  destruct (Z.ltb_spec (now s - started) kAttachTimeout) as [Hlt|Hge].
  - destruct (default false (head (usb_attached_answers s))) eqn:Ha.
    + injection E as <- <-. split_and!; [done| |].
      * right. exists (now (asked s) - started), 0%nat. split_and!; [done|lia|lia|].
        destruct (usb_attached_answers s); [done|]. by cbn in Ha |- *; rewrite Ha.
      * intros Hdn Hb. destruct (Hd Hdn) as [D1 D2]. destruct (after_exact 0 _ D2) as [D3 _]. rewrite D3, D1. lia.
    + destruct f as [|f]; [unfold kPollInterval in Hf; lia|].
      apply IH in E as (E1 & E2 & E3); [|lia|unfold kPollInterval in *; lia]. split_and!; [done| |].
      * destruct E2 as [?|(ms & n & ? & ? & Hn)]; [by left|]. right. exists ms, (S n).
        unfold kPollInterval in *. split_and!; [done|lia|lia|].
        change (usb_attached_answers (after 100 (asked s))) with (tail (usb_attached_answers s)) in Hn.
        by destruct (usb_attached_answers s).
      * intros Hdn Hb. destruct (Hd Hdn) as [D1 D2]. destruct (after_exact kPollInterval _ D2) as [D3 D4].
        apply E3; [exact D4|]. rewrite D3, D1. lia.
  - injection E as <- <-. pose proof (after_later 0 s). split_and!; [done| |].
    + left. split; [done|]. lia.
    + intros Hdn Hb. destruct (after_exact 0 _ Hdn) as [D3 _]. rewrite D3. lia.
Qed.

Section StartupProps.
Context `{WinSystem} (getenv : string -> option string).

(** The state after the client was asked first, and when the wait begins. *)
Definition first_asked (s : Startup) : Startup := after 0 (put_answers (tail (usb_attached_answers s)) s).
Definition attaching (command : string) (s : Startup) : Startup :=
  put_created (tail (create_errors s)) (launched s ++ [command]) s.
Lemma ensure_closed tcp_port busid s :
  ensure_usbip_client_attached getenv tcp_port busid s =
  let s1 := first_asked s in
  if default false (head (usb_attached_answers s)) then (s1, Ok AlreadyAttached)
  else if negb (tcp_port =? kDefaultPort) then (s1, Ok PortNotReachable)
  else
    let s2 := after 0 s1 in
    match default None (head (create_errors s2)) with
    | Some _ => (put_created (tail (create_errors s2)) (launched s2) s2, Ok LaunchFailed)
    | None => attach_loop 81 (now s1) (attaching (attach_command (resolve_usbip_exe_path getenv) busid) s2)
    end.
Proof.
  unfold ensure_usbip_client_attached, clock_now, usb_attached, launch_usbip_client_attach, create_process, pass.
  unfold mbind, prog_bind, get_state, modify, mret, prog_ret. cbv zeta.
  destruct (default false (head (usb_attached_answers s))); [done|]. destruct (negb _); [done|].
  change (create_errors (after 0 (first_asked s))) with (create_errors s).
  cbn [put_clock put_answers create_errors]. by destruct (default None (head (create_errors s))).
Qed.

(**  Attaching the USB/IP client ends: within the rounds there are, after eight seconds at
    the latest plus what the operations themselves take, so before 8.1 seconds when they
    take none.  A process is launched only for the default port, and only once, when the
    client is not attached yet; it reports the client as attached only if the client said
    so after the launch, and as late only after eight seconds. *)
Theorem attach_wait_ends tcp_port busid s s' r :
  ensure_usbip_client_attached getenv tcp_port busid s = (s', r) ->
  exists outcome, r = Ok outcome
  /\ (outcome = AlreadyAttached <-> head (usb_attached_answers s) = Some true)
  /\ (launched s' = launched s
      /\ (outcome = AlreadyAttached \/ (outcome = PortNotReachable /\ tcp_port <> kDefaultPort) \/ outcome = LaunchFailed)
      \/ tcp_port = kDefaultPort
         /\ launched s' = launched s ++ [attach_command (resolve_usbip_exe_path getenv) busid]
         /\ ((outcome = AttachTimedOut /\ 8000 <= now s' - now s)
             \/ exists ms n, outcome = AttachedAfter ms /\ 0 <= ms <= now s' - now s
                /\ usb_attached_answers s !! S n = Some true))
  /\ (delays s = [] -> now s' - now s < 8100).
Proof.
  rewrite ensure_closed. cbv zeta. intros E.
  assert (now s <= now (first_asked s)) as N1 by (cbn; lia).
  assert (delays s = [] -> now (first_asked s) = now s /\ delays (first_asked s) = []) as D1.
  { intros Hd. cbn. rewrite Hd. cbn. split; [lia|done]. }
  destruct (default false (head (usb_attached_answers s))) eqn:Ha.
  { injection E as <- <-. exists AlreadyAttached. split_and!; [done| |by left; auto|intros Hd; destruct (D1 Hd); lia].
    split; [|done]. intros _. destruct (usb_attached_answers s); cbn in Ha |- *; [done|by rewrite Ha]. }
  assert (head (usb_attached_answers s) <> Some true) as Hna by (intros Hx; by rewrite Hx in Ha).
  destruct (Z.eqb_spec tcp_port kDefaultPort) as [Hp|Hp]; cbn [negb] in E.
  2: { injection E as <- <-. exists PortNotReachable. split_and!; [done|done|by left; auto|intros Hd; destruct (D1 Hd); lia]. }
  assert (now (first_asked s) <= now (after 0 (first_asked s))) as N2 by (cbn; lia).
  assert (delays s = [] -> now (after 0 (first_asked s)) = now s /\ delays (after 0 (first_asked s)) = []) as D2.
  { intros Hd. destruct (D1 Hd) as [A1 A2]. destruct (after_exact 0 _ A2) as [B1 B2]. split; [lia|done]. }
  destruct (default None (head (create_errors (after 0 (first_asked s))))) as [e|].
  { injection E as <- <-. exists LaunchFailed. split_and!; [done|done|left; split; [done|auto]|].
    intros Hd. destruct (D2 Hd). cbn [put_created now]. lia. }
  apply attach_loop_spec in E as (E1 & E2 & E3); [|lia|cbn [attaching put_created now]; unfold kAttachTimeout, kPollInterval; lia].
  cbn [attaching put_created now delays launched usb_attached_answers] in E1, E2, E3.
  assert (delays s = [] -> now s' - now s < 8100) as Hb.
  { intros Hd. destruct (D2 Hd) as [D3 D4]. destruct (D1 Hd) as [D5 _]. unfold kAttachTimeout, kPollInterval in E3.
    specialize (E3 D4). lia. }
  destruct E2 as [[-> Ht]|(ms & n & -> & Hms & Hn)]; (eexists; split_and!; [done|done|right; split; [done|split; [exact E1|]]|exact Hb]).
  - left. split; [done|]. unfold kAttachTimeout in Ht. lia.
  - right. exists ms, n. split_and!; [done|lia|lia|].
    change (usb_attached_answers (after 0 (first_asked s))) with (tail (usb_attached_answers s)) in Hn.
    by destruct (usb_attached_answers s).
Qed.

End StartupProps.

Lemma color_reply_range report code :
  bytes_ok report -> color_reply report = Some code -> code = -1 \/ 257 <= code < 65536.
Proof.
  intros Hr. unfold color_reply. destruct (_ <? _)%nat; [done|]. case_match; [|done].
  assert (is_u8 (byte_at report 8) /\ is_u8 (byte_at report 9)) as [H8 H9] by (split; by apply byte_at_ok).
  destruct (Z.eqb_spec (byte_at report 8) 0), (Z.eqb_spec (byte_at report 9) 0); cbn; intros [= <-]; try by left.
  right. rewrite Z.lor_comm, lor_bytes by (done || apply H8). unfold is_u8 in *. lia.
Qed.

Definition is_reply (a : result (option (list Z))) (code : Z) : Prop :=
  exists report, a = Ok (Some report) /\ color_reply report = Some code.

Lemma color_attempts_spec attempts s s' r :
  color_attempts attempts s = (s', r) ->
  exists code n, r = Ok code /\ (n <= attempts)%nat
  /\ polls s' = (polls s + n)%nat /\ color_slept s' = color_slept s + 8 * Z.of_nat n /\ written s' = written s
  /\ ((code = -1 /\ n = attempts /\ forall i a c, (i < n)%nat -> feature_reads s !! i = Some a -> ~ is_reply a c)
      \/ exists i a, n = S i /\ feature_reads s !! i = Some a /\ is_reply a code
         /\ forall j b c, (j < i)%nat -> feature_reads s !! j = Some b -> ~ is_reply b c).
Proof.
  revert s. induction attempts as [|k IH]; intros s; cbn [color_attempts].
  { intros [= <- <-]. exists (-1), 0%nat. split_and!; [done|lia|lia|lia|done|left; split_and!; [done|done|lia]]. }
  unfold mbind, prog_bind, get_state, modify. cbv beta iota.
  assert (forall a, default (Throw "") (head (feature_reads s)) = a -> (forall c, ~ is_reply a c) ->
    color_attempts k (poll s) = (s', r) ->
    exists code n, r = Ok code /\ (n <= S k)%nat
    /\ polls s' = (polls s + n)%nat /\ color_slept s' = color_slept s + 8 * Z.of_nat n /\ written s' = written s
    /\ ((code = -1 /\ n = S k /\ forall i a c, (i < n)%nat -> feature_reads s !! i = Some a -> ~ is_reply a c)
        \/ exists i a, n = S i /\ feature_reads s !! i = Some a /\ is_reply a code
           /\ forall j b c, (j < i)%nat -> feature_reads s !! j = Some b -> ~ is_reply b c)) as Hnext.
  { intros a Ha Hno E. apply IH in E as (code & n & -> & Hn & Hp & Hs & Hw & Hr). exists code, (S n).
    assert (forall j b c, feature_reads s !! j = Some b -> is_reply b c -> exists j', j = S j' /\ feature_reads (poll s) !! j' = Some b) as Hj.
    { intros [|j] b c Hb Hr'.
      - destruct (feature_reads s); [done|]. cbn in Ha, Hb. injection Hb as ->. rewrite Ha in Hr'. by destruct (Hno c).
      - exists j. split; [done|]. cbn. by destruct (feature_reads s). }
    cbn [poll polls color_slept written] in Hp, Hs, Hw. split_and!; [done|lia|lia|lia|done|].
    destruct Hr as [(-> & -> & Hall)|(i & b & -> & Hb & Hr & Hall)]; [left|right].
    - split_and!; [done|done|]. intros i b c Hi Hb Hr'. destruct (Hj _ _ _ Hb Hr') as (j & -> & Hb').
      by apply (Hall j b c); [lia|..].
    - exists (S i), b. split_and!; [done|cbn in Hb; by destruct (feature_reads s)|done|].
      intros j c x Hlt Hc Hr'. destruct (Hj _ _ _ Hc Hr') as (j' & -> & Hc'). by apply (Hall j' c x); [lia|..]. }
  destruct (default (Throw "") (head (feature_reads s))) as [[report|]|e] eqn:Ha.
  - destruct (color_reply report) as [code|] eqn:Hc.
    + intros [= <- <-]. exists code, 1%nat. cbn [poll polls color_slept written]. split_and!; [done|lia|lia|lia|done|right].
      exists 0%nat, (Ok (Some report)). split_and!; [done| |by exists report|lia].
      destruct (feature_reads s); [done|]. cbn in Ha |- *. by rewrite Ha.
    + apply (Hnext _ eq_refl). intros c (x & [= <-] & Hx). congruence.
  - apply (Hnext _ eq_refl). by intros c (x & ? & _).
  - apply (Hnext _ eq_refl). by intros c (x & ? & _).
Qed.

(**  The color of the controller is asked for once, waited for at most twelve times, eight
    milliseconds each, and is what the first reply to the command among these answers says:
    two characters that are not zero, or -1, as it is when nothing answers. *)
Theorem controller_color_bounded s s' r :
  Forall (fun a => match a with Ok (Some report) => bytes_ok report | _ => True end) (feature_reads s) ->
  read_controller_color s = (s', r) ->
  exists code n, r = Ok code /\ (n <= 12)%nat /\ (code = -1 \/ 257 <= code < 65536)
  /\ polls s' = (polls s + n)%nat /\ color_slept s' = color_slept s + 8 * Z.of_nat n
  /\ written s' = written s ++ [[kCmdReport; kDeviceSystem; kActionReadSerial]]
  /\ (is_ok (write_result s) = false /\ code = -1 /\ n = 0%nat
      \/ is_ok (write_result s) = true /\
         (code = -1 /\ n = 12%nat /\ (forall i a c, (i < n)%nat -> feature_reads s !! i = Some a -> ~ is_reply a c)
          \/ exists i a, n = S i /\ feature_reads s !! i = Some a /\ is_reply a code
             /\ forall j b c, (j < i)%nat -> feature_reads s !! j = Some b -> ~ is_reply b c)).
Proof.
  intros Hok. unfold read_controller_color. unfold mbind, prog_bind, get_state, modify. cbv beta iota.
  destruct (write_result s) as [u|e].
  - intros (code & n & -> & Hn & Hp & Hs & Hw & Hr)%color_attempts_spec. exists code, n.
    split_and!; [done|done| |done|done|done|by right].
    destruct Hr as [(-> & _)|(i & a & _ & Ha & (report & -> & Hc) & _)]; [by left|].
    apply (color_reply_range report); [|done]. by apply (Forall_lookup_1 _ _ _ _ Hok Ha).
  - intros [= <- <-]. exists (-1), 0%nat. cbn. split_and!; try done; try lia; auto.
Qed.

(** ** Examples *)

Lemma attach_wait_ends_witness :
  let H := {| format_message _ := None; environment_variable _ := None |} in
  let s := mk_startup 0 [] [false; false; true] [] false 0 [] in
  exists s', ensure_usbip_client_attached (fun _ => None) 3240 "1-1" s = (s', Ok (AttachedAfter 100))
  /\ launched s' = [quote +:+ "C:\Program Files\USBip\usbip.exe" +:+ quote +:+ " attach -r 127.0.0.1 -b 1-1"]
  /\ now s' - now s < 8100.
Proof.
  intros H s. destruct (ensure_usbip_client_attached (fun _ => None) 3240 "1-1" s) as [s' r] eqn:E.
  destruct (attach_wait_ends (fun _ => None) 3240 "1-1" s s' r E) as (o & _ & _ & _ & Hb).
  exists s'. specialize (Hb eq_refl). split; [|split; [|exact Hb]]; vm_compute in E; injection E as <- <-; reflexivity.
Defined.

Lemma controller_color_bounded_witness :
  let reply := [0x81; 1; 19; 2; 0; 0; 0; 0; 0x30; 0x35] in
  let s := mk_color_io (Ok tt) [Throw "busy"; Ok (Some [0x81; 0]); Ok (Some reply)] [] 0 0 in
  exists s', read_controller_color s = (s', Ok 0x3035) /\ polls s' = 3%nat /\ color_slept s' = 24.
Proof.
  intros reply s. destruct (read_controller_color s) as [s' r] eqn:E.
  assert (Forall (fun a => match a with Ok (Some report) => bytes_ok report | _ => True end) (feature_reads s)) as Hok.
  { repeat constructor; done. }
  destruct (controller_color_bounded s s' r Hok E) as (code & n & Hr & _).
  exists s'. vm_compute in E. injection E as <- Er. rewrite Hr in Er. split; [by rewrite Hr; vm_compute in Er |- *; congruence|].
  split; reflexivity.
Defined.
