(* ===== verification/WinSession.v ===== *)
(** A session of the Windows daemon: its start, the stop monitor, the three threads that move
    frames, and its end ([run_bridge_session], [request_bridge_restart] and the loops of the
    threads in src/src/platform/win32/vdsd.cc).

    [exec] makes one move of one thread.  A round of a loop is a number of operations, each of
    which may wait: for the virtual device, for the transport or for time.  Operations of the
    transport end by themselves - reads time out (WinTransport.v), reports are written or a
    cancelled writer ends (WinWriter.v) -, as sleeps do; one on the virtual device ends with
    data, with the global stop event, or when it is cancelled while it is under way.  What the
    rounds do is in WinBridge.v and WinAudio.v, what precedes the threads in WinService.v. *)
From stdpp Require Import base strings numbers gmap list.
From Stdlib Require Import Ascii ZArith Lia.
From S2P Require Import Prelude.

Inductive wait_on := OnDevice | OnTransport | OnTime.
#[export] Instance wait_on_eq_dec : EqDecision wait_on.
Proof. solve_decision. Defined.

(** [request_bridge_restart]: the exchange, [CancelIoEx] of the virtual device, [cancel] of the
    transport. *)
Inductive request := Exchange | CancelDevice | CancelTransport.
#[export] Instance request_eq_dec : EqDecision request.
Proof. solve_decision. Defined.

(** A thread of the session: not started, at the condition of its loop, in a round that makes
    [n] more operations at most, waiting in one, behind an exception, requesting a restart,
    over. *)
Inductive thread_stage :=
  | TNone
  | TLoop
  | TRound (n : nat)
  | TWait (on : wait_on) (n : nat)
  | TFailed
  | TRequest (r : request)
  | TOver.
#[export] Instance thread_stage_eq_dec : EqDecision thread_stage.
Proof. solve_decision. Defined.

(** The stop monitor: not started, in its loop, behind it, requesting, over. *)
Inductive monitor_stage := MNone | MLoop | MBehind | MRequest (r : request) | MOver.

(** [run_bridge_session]: the profile, the transport, the port, the client and HidHide, the
    handle of the virtual device, the monitor, the first reports, the check behind them, the
    color, the threads (the next to start), the joins (the next to wait for), the end. *)
Inductive main_stage :=
  | SProfile
  | STransport
  | SPort
  | SAttach
  | SOpen
  | SMonitor
  | SStartup
  | SCheck
  | SColor
  | SThreads (k : nat)
  | SJoin (k : nat)
  | SStopMonitor (r : result unit)
  | SJoinMonitor (r : result unit)
  | SOver (r : result unit).

(** What a session holds and gives back when it ends. *)
Inductive resource := RTransport | RPort.

(** [stop_flag] is [*session_stop_requested], if there is one; [cancels] counts the calls of
    [cancel]. *)
Record Session := mk_session {
  main : main_stage;
  monitor : monitor_stage;
  threads : list thread_stage;
  g_stop_requested : bool;
  stop_flag : option bool;
  bridge_restart_requested : bool;
  cancels : nat;
  held : list resource
}.

Definition put_main (v : main_stage) (s : Session) : Session :=
  mk_session v (monitor s) (threads s) (g_stop_requested s) (stop_flag s) (bridge_restart_requested s) (cancels s) (held s).
Definition put_monitor (v : monitor_stage) (s : Session) : Session :=
  mk_session (main s) v (threads s) (g_stop_requested s) (stop_flag s) (bridge_restart_requested s) (cancels s) (held s).
Definition put_threads (v : list thread_stage) (s : Session) : Session :=
  mk_session (main s) (monitor s) v (g_stop_requested s) (stop_flag s) (bridge_restart_requested s) (cancels s) (held s).
Definition put_thread (i : nat) (v : thread_stage) (s : Session) : Session := put_threads (<[i := v]> (threads s)) s.
Definition set_g_stop (s : Session) : Session :=
  mk_session (main s) (monitor s) (threads s) true (stop_flag s) (bridge_restart_requested s) (cancels s) (held s).
Definition set_stop_flag (s : Session) : Session :=
  mk_session (main s) (monitor s) (threads s) (g_stop_requested s) (Some true) (bridge_restart_requested s) (cancels s) (held s).
Definition set_restart (s : Session) : Session :=
  mk_session (main s) (monitor s) (threads s) (g_stop_requested s) (stop_flag s) true (cancels s) (held s).
Definition count_cancel (s : Session) : Session :=
  mk_session (main s) (monitor s) (threads s) (g_stop_requested s) (stop_flag s) (bridge_restart_requested s)
    (S (cancels s)) (held s).
Definition hold (v : list resource) (s : Session) : Session :=
  mk_session (main s) (monitor s) (threads s) (g_stop_requested s) (stop_flag s) (bridge_restart_requested s) (cancels s) v.

Definition initial_session (flag : option bool) (g_stop : bool) : Session :=
  mk_session SProfile MNone [TNone; TNone; TNone] g_stop flag false 0 [].

(** [CancelIoEx(virtual_device, nullptr)]: what is under way on the device is aborted. *)
Definition abort_device (t : thread_stage) : thread_stage :=
  match t with TWait OnDevice _ => TFailed | _ => t end.

(** The next step of [request_bridge_restart], and where it is then. *)
Definition request_bridge_restart (r : request) (s : Session) : Session * option request :=
  match r with
  | Exchange => if bridge_restart_requested s then (s, None) else (set_restart s, Some CancelDevice)
  | CancelDevice => (put_threads (abort_device <$> threads s) s, Some CancelTransport)
  | CancelTransport => (count_cancel s, None)
  end.

Definition loop_ends (s : Session) : bool := g_stop_requested s || bridge_restart_requested s.

(** What a thread meets in its round: an operation, the end of the round, an exception. *)
Inductive choice := Operation (on : wait_on) | RoundEnds | Throws | StartsRound (n : nat).

Definition exec_thread (i : nat) (c : choice) (s : Session) : option Session :=
  match threads s !! i with
  | Some TLoop =>
      if loop_ends s then Some (put_thread i TOver s)
      else match c with StartsRound n => Some (put_thread i (TRound n) s) | _ => None end
  | Some (TRound n) =>
      match c, n with
      | RoundEnds, _ => Some (put_thread i TLoop s)
      | Throws, _ => Some (put_thread i TFailed s)
      | Operation on, S n => Some (put_thread i (TWait on n) s)
      | _, _ => None
      end
  | Some (TWait OnDevice _) => if g_stop_requested s then Some (put_thread i TFailed s) else None
  | Some (TWait _ n) => Some (put_thread i (match c with Throws => TFailed | _ => TRound n end) s)
  | Some TFailed => Some (put_thread i (if g_stop_requested s then TOver else TRequest Exchange) s)
  | Some (TRequest r) =>
      let '(s, next) := request_bridge_restart r s in
      Some (put_thread i (match next with Some r => TRequest r | None => TOver end) s)
  | _ => None
  end.

Definition stop_requested (s : Session) : bool := match stop_flag s with Some b => b | None => false end.

Definition exec_monitor (s : Session) : option Session :=
  match monitor s with
  | MLoop => Some (if loop_ends s || stop_requested s then put_monitor MBehind s else s)
  | MBehind => Some (put_monitor (if stop_requested s then MRequest Exchange else MOver) s)
  | MRequest r =>
      let '(s, next) := request_bridge_restart r s in
      Some (put_monitor (match next with Some r => MRequest r | None => MOver end) s)
  | _ => None
  end.

(** The end of a session, which gives back what it holds. *)
Definition end_session (r : result unit) (s : Session) : Session := put_main (SOver r) (hold [] s).

(** A step that may throw, before there is a monitor. *)
Definition step_or_end (o : result unit) (next : main_stage) (s : Session) : Session :=
  match o with Ok _ => put_main next s | Throw e => end_session (Throw e) s end.

Definition exec_main (o : result unit) (s : Session) : option Session :=
  match main s with
  | SProfile => Some (step_or_end o STransport s)
  | STransport => Some (step_or_end o SPort (match o with Ok _ => hold [RTransport] s | Throw _ => s end))
  | SPort => Some (step_or_end o SAttach (match o with Ok _ => hold (held s ++ [RPort]) s | Throw _ => s end))
  | SAttach => Some (put_main SOpen s)
  | SOpen => Some (step_or_end o SMonitor s)
  | SMonitor => Some (put_main SStartup (match stop_flag s with Some _ => put_monitor MLoop s | None => s end))
  | SStartup => Some (put_main (match o with Ok _ => SCheck | Throw e => SStopMonitor (Throw e) end) s)
  | SCheck =>
      Some (put_main (if bridge_restart_requested s
                      then SStopMonitor (Throw "Bluetooth transport disconnected during startup") else SColor) s)
  | SColor => Some (put_main (SThreads 0) s)
  | SThreads k =>
      Some (if (k <? 3)%nat then put_main (SThreads (S k)) (put_thread k TLoop s) else put_main (SJoin 0) s)
  | SJoin k =>
      if (k <? 3)%nat then
        match threads s !! k with Some TOver => Some (put_main (SJoin (S k)) s) | _ => None end
      else Some (put_main (SStopMonitor (Ok tt)) s)
  | SStopMonitor r => Some (put_main (SJoinMonitor r) (set_restart s))
  | SJoinMonitor r =>
      match monitor s with MNone | MOver => Some (end_session r s) | _ => None end
  | SOver _ => None
  end.

Inductive move :=
  | Main (o : result unit)
  | Monitor
  | Thread (i : nat) (c : choice)
  | DeviceData (i : nat)
  | GlobalStop
  | SessionStop.

Definition exec (m : move) (s : Session) : option Session :=
  match m with
  | Main o => exec_main o s
  | Monitor => exec_monitor s
  | Thread i c => exec_thread i c s
  | DeviceData i => match threads s !! i with Some (TWait OnDevice n) => Some (put_thread i (TRound n) s) | _ => None end
  | GlobalStop => Some (set_g_stop s)
  | SessionStop => match stop_flag s with Some _ => Some (set_stop_flag s) | None => None end
  end.

Fixpoint exec_all (ms : list move) (s : Session) : option Session :=
  match ms with
  | [] => Some s
  | m :: ms => s ← exec m s; exec_all ms s
  end.

(** Every interleaving of a session that starts with [flag], with the daemon stopping or not. *)
Definition reachable (flag : option bool) (s : Session) : Prop :=
  exists g ms, exec_all ms (initial_session flag g) = Some s.

(** ** What always holds *)

(** Whether thread [k] may have been started, and whether it was waited for. *)
Definition thread_ok (m : main_stage) (k : nat) (t : thread_stage) : Prop :=
  match m with
  | SThreads n => if (k <? n)%nat then t <> TNone else t = TNone
  | SJoin n => if (k <? n)%nat then t = TOver else t <> TNone
  | SStopMonitor r | SJoinMonitor r | SOver r => match r with Ok _ => t = TOver | Throw _ => t = TNone end
  | _ => t = TNone
  end.
Definition monitor_ok (m : main_stage) (flag : option bool) (t : monitor_stage) : Prop :=
  match m with
  | SProfile | STransport | SPort | SAttach | SOpen | SMonitor => t = MNone
  | SOver _ => t = MNone \/ t = MOver
  | _ => match flag with Some _ => t <> MNone | None => t = MNone end
  end.

(** Someone has exchanged the flag and will cancel the transport. *)
Definition cancelling_t (t : thread_stage) : bool :=
  match t with TRequest CancelDevice | TRequest CancelTransport => true | _ => false end.
Definition cancelling_m (t : monitor_stage) : bool :=
  match t with MRequest CancelDevice | MRequest CancelTransport => true | _ => false end.
Definition cancellers (s : Session) : nat :=
  (length (filter (fun t => cancelling_t t = true) (threads s)) + (if cancelling_m (monitor s) then 1 else 0))%nat.

Record session_ok (s : Session) : Prop := {
  ok_three : length (threads s) = 3%nat;
  ok_threads : forall k t, threads s !! k = Some t -> thread_ok (main s) k t;
  ok_monitor : monitor_ok (main s) (stop_flag s) (monitor s);
  ok_cancels : (cancels s + cancellers s <= (if bridge_restart_requested s then 1 else 0))%nat;
  ok_held : forall r, main s = SOver r -> held s = [];
  ok_restart : forall r, main s = SJoinMonitor r -> bridge_restart_requested s = true
}.

Definition going (t : thread_stage) : Prop := t <> TNone /\ t <> TOver.
Lemma going_ok m k t u : thread_ok m k t -> going t -> u <> TNone -> thread_ok m k u.
Proof. unfold going. intros Hm [H1 H2] Hu. destruct m; cbn in *; repeat case_match; try done. Qed.

Lemma count_insert (l : list thread_stage) i t u :
  l !! i = Some t ->
  (length (filter (fun t => cancelling_t t = true) (<[i := u]> l)) + (if cancelling_t t then 1 else 0)
   = length (filter (fun t => cancelling_t t = true) l) + (if cancelling_t u then 1 else 0))%nat.
Proof.
  revert i. induction l as [|x l IH]; intros [|i]; cbn [lookup list_lookup]; try done.
  - intros [= ->]. cbn [insert list_insert]. rewrite !filter_cons.
    destruct (cancelling_t t), (cancelling_t u); repeat case_decide; cbn [length]; try done; lia.
  - intros Hi. change (<[S i:=u]> (x :: l)) with (x :: <[i:=u]> l). rewrite !filter_cons. specialize (IH _ Hi). case_decide; cbn [length]; lia.
Qed.
Lemma count_abort (l : list thread_stage) :
  filter (fun t => cancelling_t t = true) (abort_device <$> l) = filter (fun t => cancelling_t t = true) l.
Proof.
  induction l as [|t l IH]; [done|]. rewrite fmap_cons, !filter_cons, IH. by destruct t as [| |n|[] n| |[]|].
Qed.
Lemma abort_going m k t : thread_ok m k t -> thread_ok m k (abort_device t).
Proof. intros Ht. destruct t as [| |n|[] n| |[]|]; try done. by eapply going_ok. Qed.

(** A thread moves on, perhaps through a step of [request_bridge_restart]. *)
Lemma ok_thread s i t u :
  session_ok s -> threads s !! i = Some t -> going t -> u <> TNone -> cancelling_t t = false -> cancelling_t u = false ->
  session_ok (put_thread i u s).
Proof.
  intros [H1 H2 H3 H4 H5 H6] Ht Hg Hu Hc Hd. split; cbn; try done.
  - by rewrite length_insert.
  - intros k x Hx. destruct (decide (i = k)) as [<-|Hn].
    + rewrite list_lookup_insert_eq in Hx by (by eapply lookup_lt_Some). injection Hx as <-. by eapply going_ok; [apply H2| |].
    + rewrite list_lookup_insert_ne in Hx by done. by apply H2.
  - unfold cancellers in *. cbn. pose proof (count_insert _ _ _ u Ht) as Hk. rewrite Hc, Hd in Hk. lia.
Qed.

(** The request of a caller: what it changes, whoever the caller is. *)
Lemma request_spec r s s' next :
  request_bridge_restart r s = (s', next) ->
  main s' = main s /\ monitor s' = monitor s /\ stop_flag s' = stop_flag s /\ held s' = held s
  /\ g_stop_requested s' = g_stop_requested s
  /\ (bridge_restart_requested s = true -> bridge_restart_requested s' = true)
  /\ (threads s' = threads s \/ threads s' = abort_device <$> threads s)
  /\ match r with
     | Exchange => cancels s' = cancels s
         /\ (if bridge_restart_requested s then next = None /\ s' = s
             else next = Some CancelDevice /\ bridge_restart_requested s' = true)
     | CancelDevice => cancels s' = cancels s /\ next = Some CancelTransport /\ bridge_restart_requested s' = bridge_restart_requested s
     | CancelTransport => cancels s' = S (cancels s) /\ next = None /\ bridge_restart_requested s' = bridge_restart_requested s
     end.
Proof.
  destruct r; cbn; [destruct (bridge_restart_requested s) eqn:E|..]; intros [= <- <-]; cbn; split_and!; try done; auto; by rewrite E.
Qed.

Lemma threads_ok_request s s' r next :
  request_bridge_restart r s = (s', next) -> session_ok s ->
  length (threads s') = 3%nat /\ (forall k t, threads s' !! k = Some t -> thread_ok (main s') k t)
  /\ length (filter (fun t => cancelling_t t = true) (threads s')) = length (filter (fun t => cancelling_t t = true) (threads s)).
Proof.
  intros E [H1 H2 _ _ _ _]. apply request_spec in E as (Em & _ & _ & _ & _ & _ & [Et|Et] & _); rewrite Em, Et; [done|].
  split_and!; [by rewrite length_fmap| |by rewrite count_abort].
  intros k t. rewrite list_lookup_fmap. intros (x & Hx & ->)%fmap_Some_1. by apply abort_going, H2.
Qed.

Lemma ok_thread_request s i r s1 next :
  session_ok s -> threads s !! i = Some (TRequest r) -> request_bridge_restart r s = (s1, next) ->
  session_ok (put_thread i (match next with Some r => TRequest r | None => TOver end) s1).
Proof.
  intros Hs Ht E. pose proof (threads_ok_request _ _ _ _ E Hs) as (T1 & T2 & T3).
  pose proof (request_spec _ _ _ _ E) as (Em & En & Ef & Eh & Eg & Er & Et & Hr). destruct Hs as [H1 H2 H3 H4 H5 H6].
  set (u := match next with Some r => TRequest r | None => TOver end).
  assert (u <> TNone) as Hu by (subst u; by destruct next).
  assert (threads s1 !! i = Some (TRequest r)) as Ht1.
  { destruct Et as [->| ->]; [done|]. by rewrite list_lookup_fmap, Ht. }
  split; cbn; rewrite ?Em, ?En, ?Ef, ?Eh; try done.
  - by rewrite length_insert.
  - intros k x Hx. destruct (decide (i = k)) as [<-|Hn].
    + rewrite list_lookup_insert_eq in Hx by (by eapply lookup_lt_Some). injection Hx as <-.
      eapply going_ok; [rewrite <- Em; by apply T2|done|done].
    + rewrite list_lookup_insert_ne in Hx by done. rewrite <- Em. by apply T2.
  - unfold cancellers in *. cbn. rewrite ?En. pose proof (count_insert _ _ _ u Ht1) as Hk. rewrite T3 in Hk.
    destruct r; cbn in Hk.
    + destruct Hr as [-> Hr]. destruct (bridge_restart_requested s) eqn:Eb.
      * destruct Hr as [-> ->]. rewrite Eb. subst u. cbn in Hk. lia.
      * destruct Hr as [-> ->]. subst u. cbn in Hk. lia.
    + destruct Hr as (-> & -> & ->). subst u. cbn in Hk. lia.
    + destruct Hr as (-> & -> & ->). subst u. cbn in Hk. lia.
  - intros q Hq. apply Er. by eapply H6.
Qed.

Lemma ok_exec_thread i c s s' : session_ok s -> exec_thread i c s = Some s' -> session_ok s'.
Proof.
  intros Hs. unfold exec_thread. destruct (threads s !! i) as [t|] eqn:Ht; [|done].
  assert (forall u, going t -> u <> TNone -> cancelling_t t = false -> cancelling_t u = false ->
            Some (put_thread i u s) = Some s' -> session_ok s') as Hgo.
  { intros u Hg Hu Hc Hd [= <-]. by eapply ok_thread. }
  destruct t as [| |n|on n| |r|]; try done.
  - destruct (loop_ends s); [by apply Hgo|]. destruct c; try done. by apply Hgo.
  - destruct c, n; try done; by apply Hgo.
  - destruct on; [destruct (g_stop_requested s); [by apply Hgo|done]|destruct c; by apply Hgo..].
  - destruct (g_stop_requested s); by apply Hgo.
  - destruct (request_bridge_restart r s) as [s1 next] eqn:E. intros [= <-]. by eapply ok_thread_request.
Qed.

Lemma monitor_goes m f t u : monitor_ok m f t -> t <> MNone -> t <> MOver -> u <> MNone -> monitor_ok m f u.
Proof. destruct m; cbn; intros H1 H2 H3 H4; try done; try (destruct f; done); by destruct H1. Qed.

Lemma ok_exec_monitor s s' : session_ok s -> exec_monitor s = Some s' -> session_ok s'.
Proof.
  intros Hs. unfold exec_monitor. destruct (monitor s) eqn:Hm; try done.
  - intros [= <-]. case_match; [|done]. destruct Hs as [H1 H2 H3 H4 H5 H6]. rewrite Hm in *.
    split; cbn; try done; [by eapply monitor_goes|]. unfold cancellers in *. cbn. by rewrite Hm in H4.
  - intros [= <-]. destruct Hs as [H1 H2 H3 H4 H5 H6]. rewrite Hm in *.
    split; cbn; try done; [by eapply monitor_goes; [| | |destruct (stop_requested s)]|].
    unfold cancellers in *. cbn. rewrite Hm in H4. by destruct (stop_requested s).
  - destruct (request_bridge_restart r s) as [s1 next] eqn:E. intros [= <-].
    pose proof (threads_ok_request _ _ _ _ E Hs) as (T1 & T2 & T3).
    pose proof (request_spec _ _ _ _ E) as (Em & En & Ef & Eh & Eg & Er & _ & Hr). destruct Hs as [H1 H2 H3 H4 H5 H6].
    split; cbn; rewrite ?Em, ?Ef, ?Eh; try done.
    + intros k t Hk. rewrite <- Em. by apply T2.
    + rewrite Hm in H3. eapply monitor_goes; [exact H3|done|done|by destruct next].
    + unfold cancellers in *. cbn. rewrite Hm in H4. cbn in H4. rewrite T3. destruct r.
      * destruct Hr as [-> Hr]. destruct (bridge_restart_requested s) eqn:Eb; destruct Hr as [-> Hb].
        -- subst s1. rewrite Eb. cbn in *. lia.
        -- rewrite Hb. cbn in *. lia.
      * destruct Hr as (-> & -> & ->). cbn in *. lia.
      * destruct Hr as (-> & -> & ->). cbn in *. lia.
    + intros q Hq. apply Er. by eapply H6.
Qed.

(** The main thread goes on, and the other threads and the monitor with it as they were. *)
Lemma ok_main s m :
  session_ok s -> (forall k t, thread_ok (main s) k t -> (k < 3)%nat -> threads s !! k = Some t -> thread_ok m k t) ->
  monitor_ok m (stop_flag s) (monitor s) ->
  (forall r, m = SOver r -> held s = []) -> (forall r, m = SJoinMonitor r -> bridge_restart_requested s = true) ->
  session_ok (put_main m s).
Proof.
  intros [H1 H2 H3 H4 H5 H6] Ht Hm Hh Hr. split; cbn; try done. intros k t Hk. apply Ht; [by apply H2| |done].
  rewrite <- H1. by eapply lookup_lt_Some.
Qed.
Lemma ok_hold s v : session_ok s -> (forall r, main s <> SOver r) -> session_ok (hold v s).
Proof. intros [H1 H2 H3 H4 H5 H6] Hn. split; cbn; try done. intros r Hr. by destruct (Hn r). Qed.

Lemma ok_exec_main o s s' : session_ok s -> exec_main o s = Some s' -> session_ok s'.
Proof.
  intros Hs. pose proof Hs as [H1 H2 H3 H4 H5 H6]. unfold exec_main. destruct (main s) as [| | | | | | | | |k|k|r|r|r] eqn:Hm; try done.
  all: try (intros [= <-]).
  - unfold step_or_end, end_session. destruct o; (apply ok_main; [|rewrite ?Hm; try done; naive_solver..]); [done|].
    apply ok_hold; [done|by rewrite Hm].
  - unfold step_or_end, end_session. destruct o; (apply ok_main; [|cbn; rewrite ?Hm; try done; naive_solver..]);
      (apply ok_hold; [done|by rewrite Hm]).
  - unfold step_or_end, end_session. destruct o; (apply ok_main; [|cbn; rewrite ?Hm; try done; naive_solver..]);
      (apply ok_hold; [done|by rewrite Hm]).
  - apply ok_main; [done|by rewrite Hm|done..].
  - unfold step_or_end, end_session. destruct o; (apply ok_main; [|rewrite ?Hm; try done; naive_solver..]); [done|].
    apply ok_hold; [done|by rewrite Hm].
  - destruct (stop_flag s) eqn:Hf.
    + split; cbn; try done; [by rewrite Hf|]. unfold cancellers in *. cbn in *. rewrite H3 in H4. done.
    + apply ok_main; [done|by rewrite Hm| |done..]. cbn. by rewrite Hf.
  - destruct o; (apply ok_main; [done|by rewrite Hm| |done..]); done.
  - case_match; (apply ok_main; [done|by rewrite Hm| |done..]); done.
  - apply ok_main; [done|by rewrite Hm|done..].
  - destruct (Nat.ltb_spec k 3) as [Hk|Hk].
    + assert (threads s !! k = Some TNone) as Hn.
      { destruct (lookup_lt_is_Some_2 (threads s) k) as [t Ht]; [lia|]. specialize (H2 k t Ht). unfold thread_ok in H2.
        destruct (Nat.ltb_spec k k); [lia|]. by rewrite Ht, H2. }
      split; cbn; try done.
      * by rewrite length_insert.
      * intros j t Hj. destruct (decide (k = j)) as [<-|Hne].
        -- rewrite list_lookup_insert_eq in Hj by lia. injection Hj as <-. by destruct (Nat.leb_spec k k); [|lia].
        -- rewrite list_lookup_insert_ne in Hj by done. specialize (H2 j t Hj). unfold thread_ok in H2.
           destruct (Nat.ltb_spec j k), (Nat.leb_spec j k); try done; lia.
      * unfold cancellers in *. cbn. pose proof (count_insert _ _ _ TLoop Hn). cbn in *. lia.
    + apply ok_main; [done| |done..]. rewrite Hm. unfold thread_ok. intros j t Ht Hj _.
      destruct (Nat.ltb_spec j k); [exact Ht|lia].
  - destruct (Nat.ltb_spec k 3) as [Hk|Hk].
    + destruct (threads s !! k) as [[]|] eqn:Ht; try done. intros [= <-]. apply ok_main; [done| |done..].
      rewrite Hm. unfold thread_ok. intros j t Hj _ Hl.
      destruct (Nat.ltb_spec j k), (Nat.ltb_spec j (S k)); try done; try lia.
      assert (j = k) as -> by lia. congruence.
    + intros [= <-]. apply ok_main; [done| |done..]. rewrite Hm. unfold thread_ok. intros j t Ht Hj _.
      destruct (Nat.ltb_spec j k); [exact Ht|lia].
  - split; cbn; try done. unfold cancellers in *. cbn. destruct (bridge_restart_requested s); lia.
  - destruct (monitor s) eqn:Hn; try done; intros [= <-]; unfold end_session;
      (apply ok_main; [apply ok_hold; [done|by rewrite Hm]|cbn; by rewrite Hm| |done..]); cbn; rewrite Hn; auto.
Qed.

Lemma ok_exec m s s' : session_ok s -> exec m s = Some s' -> session_ok s'.
Proof.
  intros Hs. destruct m; cbn [exec].
  - by apply ok_exec_main.
  - by apply ok_exec_monitor.
  - by apply ok_exec_thread.
  - destruct (threads s !! i) as [[| |n|[] n| | |]|] eqn:Ht; try done. intros [= <-]. by eapply ok_thread.
  - intros [= <-]. destruct Hs as [H1 H2 H3 H4 H5 H6]. by split.
  - destruct (stop_flag s) eqn:Hf; [|done]. intros [= <-]. destruct Hs as [H1 H2 H3 H4 H5 H6].
    split; cbn; try done. rewrite Hf in H3. by destruct (main s).
Qed.
Lemma ok_exec_all ms s s' : session_ok s -> exec_all ms s = Some s' -> session_ok s'.
Proof.
  revert s. induction ms as [|m ms IH]; intros s Hs; cbn; [by intros [= <-]|].
  intros (s1 & H1 & H2)%bind_Some. eapply IH; [|done]. by eapply ok_exec.
Qed.
Lemma initial_session_ok flag g : session_ok (initial_session flag g).
Proof. split; cbn; try done. intros [|[|[|k]]] t; cbn; by intros [= <-]. Qed.
Lemma session_reachable_ok flag s : reachable flag s -> session_ok s.
Proof. intros (g & ms & Hm). eapply ok_exec_all; [|done]. apply initial_session_ok. Qed.

(** ** The end *)

Definition own (m : move) : bool := match m with Main _ | Monitor | Thread _ _ => true | _ => false end.
Definition own_moves (ms : list move) : nat := length (filter (fun m => own m = true) ms).
(** No thread of the session can go on by itself. *)
Definition at_rest (s : Session) : Prop := forall m s', own m = true -> exec m s = Some s' -> False.

(** The moves that are left once the loops end. *)
Definition request_left (r : request) : nat := match r with Exchange => 4 | CancelDevice => 3 | CancelTransport => 2 end.
Definition thread_left (t : thread_stage) : nat :=
  match t with
  | TNone => 3
  | TLoop => 1
  | TRound n => 6 + 2 * n
  | TWait _ n => 7 + 2 * n
  | TFailed => 5
  | TRequest r => request_left r
  | TOver => 0
  end.
Definition monitor_left (m : monitor_stage) : nat :=
  match m with MNone => 7 | MLoop => 6 | MBehind => 5 | MRequest r => request_left r | MOver => 0 end.
Definition main_left (m : main_stage) : nat :=
  match m with
  | SProfile => 19
  | STransport => 18
  | SPort => 17
  | SAttach => 16
  | SOpen => 15
  | SMonitor => 14
  | SStartup => 13
  | SCheck => 12
  | SColor => 11
  | SThreads k => 7 + (3 - k)
  | SJoin k => 3 + (3 - k)
  | SStopMonitor _ => 2
  | SJoinMonitor _ => 1
  | SOver _ => 0
  end.
Definition threads_left (l : list thread_stage) : nat := foldr (fun t n => thread_left t + n) 0 l.
Definition left_ (s : Session) : nat := main_left (main s) + monitor_left (monitor s) + threads_left (threads s).

Lemma left_insert l i t u :
  l !! i = Some t -> threads_left (<[i := u]> l) + thread_left t = threads_left l + thread_left u.
Proof.
  revert i. induction l as [|x l IH]; intros [|i]; [done|done| |].
  - intros [= ->]. cbn [insert list_insert threads_left foldr]. fold (threads_left l). lia.
  - intros Hi. change (<[S i:=u]> (x :: l)) with (x :: <[i:=u]> l). specialize (IH i Hi).
    change (threads_left (x :: <[i:=u]> l)) with (thread_left x + threads_left (<[i:=u]> l)).
    change (threads_left (x :: l)) with (thread_left x + threads_left l). lia.
Qed.
Lemma left_abort l : threads_left (abort_device <$> l) <= threads_left l.
Proof.
  induction l as [|t l IH]; [done|].
  change (threads_left (abort_device <$> t :: l)) with (thread_left (abort_device t) + threads_left (abort_device <$> l)).
  change (threads_left (t :: l)) with (thread_left t + threads_left l).
  destruct t as [| |n|[] n| |[]|]; cbn [abort_device thread_left]; lia.
Qed.

(** A step of a request leaves less to do for its caller, and no more for the others. *)
Lemma left_request r s s' next :
  request_bridge_restart r s = (s', next) ->
  main s' = main s /\ monitor s' = monitor s /\ threads_left (threads s') <= threads_left (threads s)
  /\ (loop_ends s = true -> loop_ends s' = true)
  /\ match next with Some q => request_left q < request_left r | None => True end
  /\ forall i q, threads s !! i = Some (TRequest q) -> threads s' !! i = Some (TRequest q).
Proof.
  intros E. pose proof E as (Em & En & _ & _ & Eg & Er & Et & Hr)%request_spec. split_and!; try done.
  - destruct Et as [->| ->]; [done|apply left_abort].
  - unfold loop_ends. rewrite Eg. destruct (g_stop_requested s); [done|]. exact Er.
  - destruct r; [destruct (bridge_restart_requested s)|..]; destruct Hr as (_ & -> & _); cbn; (done || lia).
  - intros i q Hq. destruct Et as [->| ->]; [done|]. by rewrite list_lookup_fmap, Hq.
Qed.

Lemma left_thread i c s s' :
  loop_ends s = true -> exec_thread i c s = Some s' -> loop_ends s' = true /\ S (left_ s') <= left_ s.
Proof.
  intros He. unfold exec_thread. destruct (threads s !! i) as [t|] eqn:Ht; [|done].
  assert (forall u, thread_left u < thread_left t -> Some (put_thread i u s) = Some s' ->
            loop_ends s' = true /\ S (left_ s') <= left_ s) as Hgo.
  { intros u Hu [= <-]. split; [exact He|]. pose proof (left_insert _ _ _ u Ht).
    unfold left_. cbn [put_thread put_threads main monitor threads]. lia. }
  destruct t as [| |n|on n| |r|]; try done.
  - rewrite He. apply Hgo. cbn. lia.
  - destruct c, n; try done; apply Hgo; cbn; lia.
  - destruct on; [destruct (g_stop_requested s); [|done]|destruct c..]; apply Hgo; cbn; lia.
  - destruct (g_stop_requested s); apply Hgo; cbn; lia.
  - destruct (request_bridge_restart r s) as [s1 next] eqn:E. intros [= <-].
    apply left_request in E as (Em & En & Et & Hl & Hn & Hi). split; [by apply Hl|].
    pose proof (left_insert _ _ _ (match next with Some r => TRequest r | None => TOver end) (Hi _ _ Ht)) as Hx.
    unfold left_. cbn [put_thread put_threads main monitor threads]. rewrite Em, En.
    destruct next; cbn [thread_left] in Hx; [lia|]. destruct r; cbn [thread_left request_left] in Hx; lia.
Qed.

Lemma left_monitor s s' :
  loop_ends s = true -> exec_monitor s = Some s' -> loop_ends s' = true /\ S (left_ s') <= left_ s.
Proof.
  intros He. unfold exec_monitor, left_. destruct (monitor s) eqn:Hm; try done.
  - rewrite He. intros [= <-]. split; [exact He|]. cbn [orb put_monitor main monitor threads monitor_left]. lia.
  - intros [= <-]. split; [exact He|]. destruct (stop_requested s); cbn [put_monitor main monitor threads monitor_left request_left]; lia.
  - destruct (request_bridge_restart r s) as [s1 next] eqn:E. intros [= <-].
    apply left_request in E as (Em & En & Et & Hl & Hn & Hi). split; [by apply Hl|].
    cbn [put_monitor main monitor threads]. rewrite Em. destruct next; cbn [monitor_left]; [lia|]. destruct r; cbn [monitor_left request_left]; lia.
Qed.

Lemma left_main o s s' :
  session_ok s -> loop_ends s = true -> exec_main o s = Some s' -> loop_ends s' = true /\ S (left_ s') <= left_ s.
Proof.
  intros Hs He. unfold exec_main, left_. destruct (main s) as [| | | | | | | | |k|k|r|r|r] eqn:Hm; try done.
  all: try (unfold step_or_end, end_session; destruct o; intros [= <-]; (split; [exact He|cbn [put_main put_monitor set_restart hold main monitor threads main_left monitor_left]; lia])).
  - pose proof (ok_monitor _ Hs) as Hn. rewrite Hm in Hn. cbn in Hn.
    destruct (stop_flag s); intros [= <-]; (split; [exact He|]); cbn [put_main put_monitor main monitor threads main_left]; rewrite ?Hn; cbn [put_main put_monitor set_restart hold main monitor threads main_left monitor_left]; lia.
  - case_match; intros [= <-]; (split; [exact He|cbn [put_main put_monitor set_restart hold main monitor threads main_left monitor_left]; lia]).
  - destruct (Nat.ltb_spec k 3) as [Hk|Hk]; intros [= <-]; (split; [exact He|]).
    + destruct (lookup_lt_is_Some_2 (threads s) k) as [t Ht]; [rewrite (ok_three _ Hs); lia|].
      pose proof (ok_threads _ Hs k t Ht) as Hn. rewrite Hm in Hn. unfold thread_ok in Hn.
      destruct (Nat.ltb_spec k k); [lia|]. subst t. pose proof (left_insert _ _ _ TLoop Ht) as Hx.
      cbn [put_main put_thread put_threads main monitor threads main_left thread_left] in *. lia.
    + cbn [put_main main monitor threads main_left]. lia.
  - destruct (Nat.ltb_spec k 3) as [Hk|Hk].
    + destruct (threads s !! k) as [[]|]; try done. intros [= <-]. split; [exact He|].
      cbn [put_main main monitor threads main_left]. lia.
    + intros [= <-]. split; [exact He|]. cbn [put_main main monitor threads main_left]. lia.
  - intros [= <-]. split; [unfold loop_ends; cbn; by rewrite orb_true_r|]. cbn [put_main set_restart main monitor threads main_left]. lia.
  - destruct (monitor s) eqn:Hn; try done; intros [= <-]; unfold end_session; (split; [exact He|cbn [put_main put_monitor set_restart hold main monitor threads main_left monitor_left]; rewrite ?Hn; cbn [monitor_left]; lia]).
Qed.

Lemma left_exec m s s' :
  session_ok s -> loop_ends s = true -> exec m s = Some s' ->
  loop_ends s' = true /\ (if own m then S (left_ s') <= left_ s else left_ s' <= left_ s).
Proof.
  intros Hs He. destruct m; cbn [exec own].
  - by apply left_main.
  - by apply left_monitor.
  - by apply left_thread.
  - destruct (threads s !! i) as [[| |n|[] n| | |]|] eqn:Ht; try done. intros [= <-]. split; [exact He|].
    pose proof (left_insert _ _ _ (TRound n) Ht) as Hx. unfold left_. cbn [put_thread put_threads main monitor threads thread_left] in *. lia.
  - intros [= <-]. done.
  - destruct (stop_flag s); [|done]. by intros [= <-].
Qed.
Lemma left_exec_all ms s s' :
  session_ok s -> loop_ends s = true -> exec_all ms s = Some s' -> loop_ends s' = true /\ own_moves ms + left_ s' <= left_ s.
Proof.
  revert s. induction ms as [|m ms IH]; intros s Hs He; cbn [exec_all]; [intros [= <-]; split; [done|cbn; lia]|].
  intros (s1 & H1 & H2)%bind_Some. destruct (left_exec _ _ _ Hs He H1) as [He1 Hl].
  destruct (IH s1 (ok_exec _ _ _ Hs H1) He1 H2) as [He' Hle]. split; [done|].
  unfold own_moves in *. rewrite filter_cons. destruct (own m); case_decide; try congruence; cbn [length]; lia.
Qed.

(** Where a session can rest. *)
Lemma rest_thread s i t :
  at_rest s -> loop_ends s = true -> threads s !! i = Some t -> t <> TNone -> t <> TOver ->
  g_stop_requested s = false /\ exists n, t = TWait OnDevice n.
Proof.
  intros Hr He Ht H1 H2.
  assert (forall c s', exec_thread i c s = Some s' -> False) as Hno.
  { intros c s' E. by apply (Hr (Thread i c) s'). }
  unfold exec_thread in Hno. rewrite Ht in Hno.
  destruct t as [| |n|[] n| |r|]; try done.
  - rewrite He in Hno. by destruct (Hno RoundEnds _ eq_refl).
  - by destruct (Hno RoundEnds _ eq_refl).
  - destruct (g_stop_requested s); [by destruct (Hno RoundEnds _ eq_refl)|]. split; [done|by exists n].
  - by destruct (Hno RoundEnds _ eq_refl).
  - by destruct (Hno RoundEnds _ eq_refl).
  - by destruct (Hno RoundEnds _ eq_refl).
  - destruct (request_bridge_restart r s). by destruct (Hno RoundEnds _ eq_refl).
Qed.

Lemma rest_main s :
  session_ok s -> at_rest s -> loop_ends s = true ->
  (exists r, main s = SOver r)
  \/ g_stop_requested s = false /\ exists i n, threads s !! i = Some (TWait OnDevice n).
Proof.
  intros Hs Hr He. assert (forall o s', exec_main o s = Some s' -> False) as Hno.
  { intros o s' E. by apply (Hr (Main o) s'). }
  assert (forall s', exec_monitor s = Some s' -> False) as Hmon.
  { intros s' E. by apply (Hr Monitor s'). }
  pose proof (ok_monitor _ Hs) as Hm. unfold exec_main in Hno.
  destruct (main s) as [| | | | | | | | |k|k|r|r|r] eqn:E; try (by destruct (Hno (Ok tt) _ eq_refl)).
  - destruct (Nat.ltb_spec k 3) as [Hk|Hk]; [|by destruct (Hno (Ok tt) _ eq_refl)].
    destruct (lookup_lt_is_Some_2 (threads s) k) as [t Ht]; [rewrite (ok_three _ Hs); lia|].
    pose proof (ok_threads _ Hs k t Ht) as Hn. rewrite E in Hn. unfold thread_ok in Hn.
    destruct (Nat.ltb_spec k k); [lia|]. right. rewrite Ht in Hno.
    destruct (decide (t = TOver)) as [->|Hto]; [by destruct (Hno (Ok tt) _ eq_refl)|].
    destruct (rest_thread _ _ _ Hr He Ht Hn Hto) as [Hg [n ->]]. split; [done|]. by exists k, n.
  - destruct (monitor s) eqn:Em; try (by destruct (Hno (Ok tt) _ eq_refl)); unfold exec_monitor in Hmon; rewrite Em in Hmon.
    + rewrite He in Hmon. by destruct (Hmon _ eq_refl).
    + by destruct (Hmon _ eq_refl).
    + destruct (request_bridge_restart r0 s). by destruct (Hmon _ eq_refl).
  - left. by exists r.
Qed.

(** ** The properties *)

(** C29.  Nothing of a session outlives it: when [run_bridge_session] returns or throws, each of
    its three threads was never started or has been waited for, and so has the stop
    monitor; the transport and the port are given back; and however many threads ask for a
    restart, the transport is cancelled once at most.  A session without an exception has
    run all three threads. *)
Theorem session_leaves_nothing flag s r :
  reachable flag s -> main s = SOver r ->
  Forall (fun t => t = TNone \/ t = TOver) (threads s) /\ (monitor s = MNone \/ monitor s = MOver)
  /\ held s = [] /\ (cancels s <= 1)%nat /\ at_rest s
  /\ (r = Ok tt -> threads s = [TOver; TOver; TOver]).
Proof.
  intros Hr Hm. pose proof (session_reachable_ok _ _ Hr) as [H1 H2 H3 H4 H5 H6]. rewrite Hm in H2, H3. cbn in H2, H3.
  assert (forall i t, threads s !! i = Some t -> t = TNone \/ t = TOver) as Ht.
  { intros i t Hi. specialize (H2 i t Hi). destruct r; auto. }
  split_and!; try done.
  - apply Forall_lookup. exact Ht.
  - by eapply H5.
  - destruct (bridge_restart_requested s); lia.
  - intros m s' Ho E. destruct m; try done; cbn [exec] in E.
    + unfold exec_main in E. by rewrite Hm in E.
    + unfold exec_monitor in E. by destruct H3 as [Hn|Hn]; rewrite Hn in E.
    + unfold exec_thread in E. destruct (threads s !! i) as [t|] eqn:Hi; [|done].
      by destruct (Ht _ _ Hi) as [-> | ->].
  - intros ->. destruct (threads s) as [|a [|b [|c [|]]]]; try done.
    by rewrite (H2 0%nat a eq_refl), (H2 1%nat b eq_refl), (H2 2%nat c eq_refl).
Qed.

(** C30.  Once the daemon stops or a restart is asked for, a session comes to its end: its
    threads make no more than [left_ s] further moves, whatever they meet and however they
    interleave, and when none can go on, the session is over - or else one thread is in an
    operation on the virtual device, without data, and the daemon itself is not stopping. *)
Theorem stopped_session_ends flag s ms s' :
  reachable flag s -> loop_ends s = true -> exec_all ms s = Some s' ->
  (own_moves ms <= left_ s)%nat
  /\ (at_rest s' ->
      (exists r, main s' = SOver r)
      \/ g_stop_requested s' = false /\ exists i n, threads s' !! i = Some (TWait OnDevice n)).
Proof.
  intros Hr He Hx. pose proof (session_reachable_ok _ _ Hr) as Hs. destruct (left_exec_all _ _ _ Hs He Hx) as [He' Hl].
  split; [lia|]. intros Hrest. apply rest_main; [by eapply ok_exec_all|done..].
Qed.

(** A session whose threads are started, with the first in a round. *)
Definition to_threads : list move :=
  replicate 7 (Main (Ok tt)) ++ [Main (Ok tt); Main (Ok tt)] ++ replicate 4 (Main (Ok tt)) ++ [Thread 0 (StartsRound 1)].
(** The stop flag is set; the monitor sees it and cancels what is under way on the device; the
    first thread, which looked at the flag before, then starts its read. *)
Definition missed_cancel : list move :=
  to_threads ++ [SessionStop; Monitor; Monitor; Monitor; Monitor; Monitor; Thread 0 (Operation OnDevice);
                 Thread 1 RoundEnds; Thread 2 RoundEnds].
Definition run_session (ms : list move) : Session :=
  default (initial_session None false) (exec_all ms (initial_session (Some false) false)).
Lemma session_reached ms :
  exec_all ms (initial_session (Some false) false) = Some (run_session ms) -> reachable (Some false) (run_session ms).
Proof. intros Hm. by exists false, ms. Qed.

(**  A stop of a session can miss its reading thread: [CancelIoEx] ends only what is under
    way, so a thread that has looked at the flag and not yet started its read waits for the
    next frame of the virtual device, and with it the end of the session, although the stop
    was asked for, seen, and the transport is cancelled. *)
Theorem cancel_can_miss_the_read :
  let s := run_session missed_cancel in
  reachable (Some false) s /\ stop_requested s = true /\ bridge_restart_requested s = true /\ cancels s = 1%nat
  /\ monitor s = MOver /\ threads s = [TWait OnDevice 0; TOver; TOver] /\ main s = SJoin 0 /\ at_rest s.
Proof.
  set (s := run_session missed_cancel). cbv zeta.
  assert (threads s = [TWait OnDevice 0; TOver; TOver]) as Ht by (by vm_compute).
  assert (main s = SJoin 0) as Hm by (by vm_compute). assert (monitor s = MOver) as Hn by (by vm_compute).
  assert (g_stop_requested s = false) as Hg by (by vm_compute).
  split; [apply session_reached; by vm_compute|]. do 3 (split; [by vm_compute|]). do 3 (split; [done|]).
  clearbody s. intros m s' Ho E. destruct m; try done; cbn [exec] in E.
  - unfold exec_main in E. by rewrite Hm, Ht in E.
  - unfold exec_monitor in E. by rewrite Hn in E.
  - unfold exec_thread in E. rewrite Ht, Hg in E. by destruct i as [|[|[|i]]].
Qed.

(** A session that is stopped while its reader waits. *)
Definition stopped_reading : list move :=
  to_threads ++ [Thread 0 (Operation OnDevice); SessionStop; Monitor; Monitor; Monitor].
Definition to_the_end : list move :=
  [Monitor; Thread 0 RoundEnds; Monitor; Thread 0 RoundEnds; Thread 1 RoundEnds; Thread 2 RoundEnds]
  ++ replicate 6 (Main (Ok tt)).

Lemma stopped_session_ends_witness :
  let s := run_session stopped_reading in
  let s' := run_session (stopped_reading ++ to_the_end) in
  loop_ends s = true /\ exec_all to_the_end s = Some s' /\ (own_moves to_the_end <= left_ s)%nat /\ main s' = SOver (Ok tt).
Proof.
  intros s s'.
  assert (reachable (Some false) s) as Hr.
  { apply session_reached. by vm_compute. }
  assert (loop_ends s = true) as He by (by vm_compute).
  assert (exec_all to_the_end s = Some s') as Hx by (by vm_compute).
  split; [exact He|]. split; [exact Hx|].
  split; [exact (proj1 (stopped_session_ends (Some false) s to_the_end s' Hr He Hx))|by vm_compute].
Defined.

Lemma session_leaves_nothing_witness :
  let s := run_session (stopped_reading ++ to_the_end) in
  main s = SOver (Ok tt) /\ threads s = [TOver; TOver; TOver] /\ held s = [] /\ cancels s = 1%nat.
Proof.
  intros s. assert (reachable (Some false) s) as Hr.
  { apply session_reached. by vm_compute. }
  assert (main s = SOver (Ok tt)) as Hm by (by vm_compute).
  destruct (session_leaves_nothing (Some false) s (Ok tt) Hr Hm) as (_ & _ & Hh & _ & _ & Ht).
  split; [exact Hm|]. split; [exact (Ht eq_refl)|]. split; [exact Hh|]. by vm_compute.
Defined.
