(* ===== verification/WinSupInv.v ===== *)
(** The invariant of the supervisor of the Windows daemon, and that every step of its loop keeps
    it, whatever the threads beside it do. *)
From stdpp Require Import base list strings numbers.
From Stdlib Require Import Ascii ZArith Lia.
From S2P Require Import Prelude Text Words Common Log Store Config ConfigFacts ConfigFile Control Supervisor MicBuffer.
From S2P Require Import WinIo WinState WinDevices WinSupervisor WinLoop Threads.

Local Open Scope Z_scope.

Section Loops.
Context {S A B : Type} (R : S -> S -> Prop) `{!PreOrder R}.

Lemma preserves_mapM (f : A -> prog S B) l : (forall a, preserves R (f a)) -> preserves R (mapM f l).
Proof. intros Hf. induction l; cbn; solve_preserves. Qed.
Lemma preserves_collect (f : A -> prog S (option B)) l :
  (forall a, preserves R (f a)) -> preserves R (collect f l).
Proof. intros Hf. induction l; cbn; solve_preserves. Qed.
Lemma preserves_lift (r : result A) : preserves R (lift r).
Proof. intros s. apply PreOrder_Reflexive. Qed.
End Loops.

Section Inv.
Context {W : Type}.
Abbreviation Sup := (Supervisor (W := W)).
Implicit Types s : Sup.

(** ** What the threads beside the supervisor can do *)

(** What a worker keeps from its launch on, but for the supervisor's own wish that it stop. *)
Definition identity_of (w : BridgeWorker) :=
  (worker_id w, w_address w, device_address w, port w, w_profile w, w_config w, w_stop_requested w).

Record progress (w w' : BridgeWorker) : Prop := {
  progress_identity : identity_of w' = identity_of w;
  progress_done : w_done w = true -> w_done w' = true;
  progress_over : w_stage w <> InSession -> w_stage w' <> InSession /\ w_last_error w' = w_last_error w
}.
#[export] Instance progress_preorder : PreOrder progress.
Proof.
  split; [by intros w; split|]. intros w1 w2 w3 [A1 A2 A3] [B1 B2 B3]. split; [congruence|auto|].
  intros Hw. destruct (A3 Hw) as [H1 H2]. destruct (B3 H1) as [H3 H4]. split; congruence.
Qed.

Record beside (s s' : Sup) : Prop := {
  beside_workers : Forall2 progress (workers s) (workers s');
  beside_world : world s' = world s;
  beside_vars : trace_flags (vars s') = trace_flags (vars s) /\ reload_requested (vars s') = reload_requested (vars s);
  beside_launched : launched s' = launched s;
  beside_backoffs : worker_failure_backoffs s' = worker_failure_backoffs s;
  beside_warned : discovery_warned_states s' = discovery_warned_states s
    /\ no_port_warned_addresses s' = no_port_warned_addresses s
    /\ port_binding_warned_states s' = port_binding_warned_states s;
  beside_generation : filter_generation s' = filter_generation s;
  beside_flags : flag_of s' = flag_of s;
  beside_timer : retry_timer s' = retry_timer s;
  beside_gain : mic_gain s' = mic_gain s;
  beside_calls : calls s' = calls s;
  beside_pipe : pipe_stopped (pipe s') = pipe_stopped (pipe s)
    /\ (pipe_stopped (pipe s) = false -> replied (pipe s') = replied (pipe s));
  beside_time : steady_now s <= steady_now s';
  beside_stop : g_stop_requested s = true -> g_stop_requested s' = true
}.
#[export] Instance beside_preorder : PreOrder beside.
Proof.
  split.
  - by intros s.
  - intros s1 s2 s3 [] []. split; try congruence; try (etrans; eassumption); try tauto.
    all: destruct_and?; split_and?; try congruence. intros Hp.
    match goal with
    | H : _ -> replied (pipe s2) = _, H' : _ -> replied (pipe s3) = _, E : pipe_stopped (pipe s2) = _ |- _ =>
        rewrite H' by congruence; auto
    end.
Qed.

Lemma update_progress id f ws :
  (forall w, progress w (f w)) ->
  Forall2 progress ws ((fun w => if decide (worker_id w = id) then f w else w) <$> ws).
Proof.
  intros Hf. induction ws as [|w ws IH]; [constructor|]. rewrite fmap_cons. constructor; [|exact IH].
  case_decide; [apply Hf|reflexivity].
Qed.

Lemma put_workers_beside ws s : Forall2 progress (workers s) ws -> beside s (put_workers ws s).
Proof. intros Hw. by split. Qed.

Lemma add_log_beside l s : beside s (add_log l s).
Proof. by split. Qed.

Lemma end_session_progress stopping session w : progress w (end_session stopping session w).
Proof. unfold end_session. destruct (w_stage w) eqn:E; split; try done; rewrite ?E; done. Qed.

Lemma thread_goes_on_progress w : progress w (thread_goes_on w).
Proof. unfold thread_goes_on. destruct (w_stage w) eqn:E; split; try done; rewrite ?E; done. Qed.

Lemma happen_beside h s : beside s (happen h s).
Proof.
  destruct h as [d|id f|id session|id|text|error|]; cbn [happen].
  - split; try done. cbn. lia.
  - apply put_workers_beside, update_progress. by intros w; split.
  - match goal with |- beside s (update_worker _ _ ?s1) => transitivity s1 end.
    + destruct (worker_of id s ≫= _); [apply add_log_beside|reflexivity].
    + apply put_workers_beside, update_progress. apply end_session_progress.
  - apply put_workers_beside, update_progress, thread_goes_on_progress.
  - unfold queue_command. destruct (pipe_stopped (pipe s)) eqn:E; split; try done; cbn; rewrite E; done.
  - destruct (_ && _); [|reflexivity]. by split.
  - by split.
Qed.

Lemma happen_all_beside hs s : beside s (foldl (fun s h => happen h s) s hs).
Proof.
  revert s. induction hs as [|h hs IH]; intros s; [reflexivity|]. cbn [foldl].
  etrans; [apply (happen_beside h)|apply IH].
Qed.

Lemma observe_beside : preserves beside (observe (W := W)).
Proof.
  intros s. unfold observe. destruct (happenings s) as [|hs rest]; [reflexivity|]. cbn [fst].
  etrans; [|apply happen_all_beside]. by split.
Qed.

(** ** What the supervisor changes outside its workers, backoffs and commands *)

Record frame (s s' : Sup) : Prop := {
  frame_workers : workers s' = workers s;
  frame_launched : launched s' = launched s;
  frame_backoffs : worker_failure_backoffs s' = worker_failure_backoffs s;
  frame_pipe : pipe s' = pipe s;
  frame_time : steady_now s' = steady_now s;
  frame_stop : g_stop_requested s' = g_stop_requested s
}.
#[export] Instance frame_preorder : PreOrder frame.
Proof. split; [by intros s|]. intros s1 s2 s3 [] []. split; congruence. Qed.

Lemma frame_modify f : (forall s, frame s (f s)) -> preserves frame (modify f).
Proof. apply preserves_modify. Qed.
Lemma log_frame level message : preserves frame (log level message).
Proof. by apply frame_modify. Qed.
Lemma set_flag_frame f b : preserves frame (set_flag f b).
Proof. by apply frame_modify. Qed.
Lemma set_reload_frame b : preserves frame (set_reload_requested b).
Proof. by apply frame_modify. Qed.
Lemma flag_frame f : preserves frame (flag f).
Proof. by intros s. Qed.
Lemma on_control_frame {A} (m : prog ((W * Devices) * Vars) A) : preserves frame (on_control m).
Proof. intros s. unfold on_control. by destruct (m _) as [[w v] r]. Qed.
Lemma on_devices_frame {A} (m : prog Devices A) : preserves frame (on_devices m).
Proof. intros s. unfold on_devices. by destruct (m _) as [d r]. Qed.
Lemma on_change_frame {A} (m : ChangeWait -> ChangeWait * A) : preserves frame (on_change m).
Proof. intros s. unfold on_change. by destruct (m _) as [c a]. Qed.
Lemma lift_frame {A} (r : result A) : preserves frame (lift (S := Sup) r).
Proof. by intros s. Qed.
Lemma call_frame {A} (get : Calls -> list (option A)) put : preserves frame (call get put).
Proof. intros s. by unfold call. Qed.

(** ** Predicates that only speak of what the frame keeps, and that other threads keep *)

Record steady (I : Sup -> Prop) : Prop := {
  steady_frame : forall s s', frame s s' -> I s -> I s';
  steady_happen : forall h s, I s -> I (happen h s)
}.

Section Steady.
Context (I : Sup -> Prop) (HI : steady I).

Lemma frame_keeps {A} (m : prog Sup A) : preserves frame m -> preserves (keeps I) m.
Proof. intros Hm s. unfold keeps. apply (steady_frame I HI), Hm. Qed.

Lemma observe_keeps : preserves (keeps I) (observe (W := W)).
Proof.
  intros s Hs. unfold observe. destruct (happenings s) as [|hs rest]; [done|]. cbn [fst].
  assert (I (put_happenings rest s)) as Hr by (apply (steady_frame I HI s); [by split|done]).
  revert Hr. generalize (put_happenings rest s). clear s Hs.
  induction hs as [|h hs IH]; intros s Hs; [done|]. cbn [foldl]. apply IH. by apply (steady_happen I HI).
Qed.

Lemma clock_keeps : preserves (keeps I) (clock_now (W := W)).
Proof. unfold clock_now. pose proof observe_keeps. solve_preserves. Qed.
Lemma load_stop_keeps : preserves (keeps I) (load_stop (W := W)).
Proof. unfold load_stop. pose proof observe_keeps. solve_preserves. Qed.
Lemma win_load_keeps {A} (f : BridgeWorker -> A) w : preserves (keeps I) (load (W := W) f w).
Proof. unfold load. pose proof observe_keeps. solve_preserves. Qed.
End Steady.
End Inv.

#[export] Hint Resolve log_frame set_flag_frame set_reload_frame flag_frame on_control_frame on_devices_frame
  on_change_frame lift_frame call_frame : preserves.

(** ** The turns of the loop *)

Section Turns.
Context {W : Type} `{FileStore W} `{WinSystem} `{FloatText}.
Abbreviation Sup := (Supervisor (W := W)).
Implicit Types s : Sup.

Lemma arm_frame : preserves frame (arm (W := W)).
Proof. unfold arm. solve_preserves. Qed.
Lemma complete_frame : preserves frame (complete (W := W)).
Proof. unfold complete. solve_preserves. Qed.
Lemma cancel_frame : preserves frame (cancel (W := W)).
Proof. unfold cancel. solve_preserves. Qed.
Lemma warn_frame (get : Sup -> list string) put key state :
  (forall v s, frame s (put v s)) -> preserves frame (warn_state get put key state).
Proof. intros Hp s. unfold warn_state. destruct (remember_vdsd_warning_state _ _ _) as [ws r]. apply Hp. Qed.
Lemma discovery_warn_frame key state :
  preserves frame (warn_state (W := W) discovery_warned_states put_discovery_warned_states key state).
Proof. by apply warn_frame. Qed.
Lemma binding_warn_frame key state :
  preserves frame (warn_state (W := W) port_binding_warned_states put_port_binding_warned_states key state).
Proof. by apply warn_frame. Qed.
#[local] Hint Resolve arm_frame complete_frame cancel_frame discovery_warn_frame binding_warn_frame : preserves.

Lemma load_database_frame db_path : preserves frame (load_database (W := W) db_path).
Proof. unfold load_database. solve_preserves. Qed.
Lemma log_version_frame query driver where_ failed : preserves frame (log_version (W := W) query driver where_ failed).
Proof. unfold log_version. solve_preserves. Qed.

#[local] Hint Resolve log_version_frame : preserves.
Lemma check_ports_frame : preserves frame (check_ports (W := W)).
Proof. unfold check_ports. solve_preserves. Qed.
Lemma check_filter_frame : preserves frame (check_filter (W := W)).
Proof. unfold check_filter. solve_preserves. Qed.
Lemma take_snapshot_frame b : preserves frame (take_snapshot (W := W) b).
Proof. unfold take_snapshot. solve_preserves. by apply frame_modify. Qed.
Lemma binding_unavailable_frame a reason : preserves frame (binding_unavailable (W := W) a reason).
Proof. unfold binding_unavailable. solve_preserves. Qed.
Lemma rejected_frame a reason : preserves frame (rejected (W := W) a reason).
Proof. unfold rejected. solve_preserves. Qed.

Context (I : Sup -> Prop) (HI : steady I).

Lemma keeps_get {A} (f : Sup -> prog Sup A) :
  (forall s, I s -> I (f s s).1) -> preserves (keeps I) (get_state ≫= f).
Proof. intros Hf s Hs. by apply Hf. Qed.

Lemma keeps_bind_at {A B} (m : prog Sup A) (k : A -> prog Sup B) s :
  I (m s).1 -> (forall a, preserves (keeps I) (k a)) -> I ((m ≫= k) s).1.
Proof.
  intros Hm Hk. unfold mbind, prog_bind. destruct (m s) as [s1 [a|e]]; cbn [fst] in *; [by apply Hk|done].
Qed.

Lemma arm_timer_keeps d : preserves (keeps I) (arm_retry_timer (W := W) d).
Proof.
  unfold arm_retry_timer. pose proof (clock_keeps I HI) as Hc.
  pose proof (frame_keeps I HI _ (call_frame (W := W) timer_errors put_timer_errors)) as Ht.
  apply preserves_bind; [apply _|exact Ht|]. intros [e|]; [apply preserves_throw, _|].
  apply preserves_bind; [apply _|exact Hc|]. intros now. apply (frame_keeps I HI). by apply frame_modify.
Qed.

Lemma arm_change_wait_keeps : preserves (keeps I) (arm_change_wait (W := W)).
Proof. apply (frame_keeps I HI). unfold arm_change_wait. solve_preserves. Qed.

Lemma wait_keeps targets : preserves (keeps I) (WaitForMultipleObjects (W := W) targets).
Proof.
  unfold WaitForMultipleObjects. apply preserves_bind; [apply _|apply (frame_keeps I HI), call_frame|].
  intros error. destruct (if _ : bool then _ else _); [apply preserves_throw, _|]. apply preserves_bind; [apply _|apply preserves_get, _|].
  intros s. generalize (length (happenings s)). clear error s. pose proof (observe_keeps I HI).
  intros fuel. induction fuel; cbn; solve_preserves.
Qed.

Lemma any_expired_keeps bs : preserves (keeps I) (any_expired (W := W) bs).
Proof. pose proof (clock_keeps I HI). induction bs; cbn; solve_preserves. Qed.

Lemma retire_all_keeps db ws :
  (forall id s, I s -> I (update_worker id (put_stop true) s)) -> preserves (keeps I) (retire_all (W := W) db ws).
Proof.
  intros Hstop. induction ws as [|w ws IH]; cbn; [apply preserves_ret, _|].
  apply preserves_bind; [apply _| |by intros []].
  unfold retire. pose proof (win_load_keeps I HI w_stop_requested w) as Hl.
  pose proof (frame_keeps I HI _ (log_frame (W := W) Info ("Windows bridge worker retiring address=" +:+ w_address w
    +:+ " port=" +:+ to_string (port w)))) as Hg.
  apply preserves_bind; [apply _|apply (frame_keeps I HI), on_devices_frame|]. intros enabled.
  apply preserves_bind; [apply _|by intros s|]. intros [|]; [|apply preserves_ret, _].
  apply preserves_bind; [apply _|exact Hl|]. intros stopping.
  apply preserves_bind; [apply _| |intros; destruct stopping; [apply preserves_ret, _|exact Hg]].
  apply preserves_modify. intros s Hs. by apply Hstop.
Qed.

(** The steps that need an argument of their own. *)
Record turn_safe (db_path : string) : Prop := {
  safe_stop : forall id s, I s -> I (update_worker id (put_stop true) s);
  safe_reap : forall s, I s -> I (reap (workers s) false s).1;
  safe_consider : forall enabled ds configs s, I s ->
    Forall config_ok configs ->
    I (consider_all enabled ds configs (port <$> workers s, device_address <$> workers s) s).1;
  safe_service : preserves (keeps I) (service_ready db_path);
  safe_told : forall s, I s -> I (put_g_stop_requested true s)
}.
Context (db_path : string) (HT : turn_safe db_path).

(** The database a scan works on is one the parser made. *)
Lemma load_parses s s' db :
  load_database db_path s = (s', Ok db) -> db_ok db.
Proof.
  unfold load_database. intros (s1 & db' & Hl & Hr)%prog_bind_ok.
  assert (db' = db) as ->.
  { apply prog_bind_ok in Hr as (s2 & logged & _ & Hr). apply prog_bind_ok in Hr as (s3 & s4 & _ & Hr).
    apply prog_bind_ok in Hr as (s5 & [] & _ & Hr). by injection Hr as _ ->. }
  unfold on_control in Hl. destruct (load_config_db db_path _) as [[w v] r] eqn:El. injection Hl as _ ->.
  unfold load_config_db in El. apply prog_bind_ok in El as (w1 & [] & _ & El).
  apply prog_bind_ok in El as (w2 & [] & _ & El). unfold release_after in El.
  match type of El with (let '(_, _) := ?x in _) = _ => destruct x as [w3 r] eqn:Eb end.
  assert (r = Ok db) as -> by congruence.
  apply prog_bind_ok in Eb as (w4 & text & _ & Ep). unfold lift in Ep.
  assert (parse_config_db text = Ok db) as Ht by congruence. by apply parse_db_ok in Ht.
Qed.

Lemma scan_keeps : preserves (keeps I) (scan db_path).
Proof.
  unfold scan. apply (preserves_bind_gives I db_ok).
  { intros s Hs. split.
    - by apply (frame_keeps I HI _ (load_database_frame db_path)).
    - intros db E. apply (load_parses s (load_database db_path s).1). by rewrite <- E, <- surjective_pairing. }
  intros db Hdb. apply preserves_bind; [apply _|apply (frame_keeps I HI), check_ports_frame|]. intros enabled.
  apply preserves_bind; [apply _|apply (frame_keeps I HI), check_filter_frame|]. intros available.
  apply preserves_bind; [apply _|apply (frame_keeps I HI), take_snapshot_frame|]. intros ds.
  apply preserves_bind; [apply _|apply preserves_get, _|]. intros s0.
  apply preserves_bind; [apply _|apply retire_all_keeps, (safe_stop db_path HT)|]. intros [].
  apply keeps_get. intros s Hs. apply (safe_consider db_path HT); [done|apply Hdb].
Qed.

Lemma run_scan_keeps : preserves (keeps I) (run_scan db_path).
Proof.
  unfold run_scan. apply preserves_bind; [apply _|apply (frame_keeps I HI), cancel_frame|]. intros _.
  apply preserves_bind; [apply _|apply (frame_keeps I HI), set_flag_frame|]. intros _.
  apply preserves_bind; [apply _|apply (frame_keeps I HI), set_flag_frame|]. intros _.
  apply preserves_catch; [apply _|apply scan_keeps|]. intros e. apply (frame_keeps I HI). solve_preserves.
Qed.

Lemma scan_if_due_keeps removed : preserves (keeps I) (scan_if_due db_path removed).
Proof.
  unfold scan_if_due. pose proof (fun f b => frame_keeps I HI _ (set_flag_frame (W := W) f b)).
  pose proof run_scan_keeps. pose proof any_expired_keeps.
  pose proof (frame_keeps I HI _ (flag_frame (W := W) scan_requested)).
  pose proof (frame_keeps I HI _ (set_reload_frame (W := W) false)). solve_preserves.
Qed.

Lemma dispatch_keeps t : preserves (keeps I) (dispatch db_path t).
Proof.
  pose proof (fun f b => frame_keeps I HI _ (set_flag_frame (W := W) f b)) as Hf.
  pose proof (safe_service db_path HT). destruct t; cbn [dispatch].
  - apply preserves_modify. intros s Hs. by apply (safe_told db_path HT).
  - solve_preserves.
  - apply (frame_keeps I HI). pose proof complete_frame. solve_preserves.
  - apply preserves_bind; [apply _| |done]. apply (frame_keeps I HI). by apply frame_modify.
  - apply Hf.
Qed.

Lemma wait_turn_keeps retry now : preserves (keeps I) (wait_turn db_path retry now).
Proof.
  unfold wait_turn. pose proof (fun d => arm_timer_keeps d). pose proof arm_change_wait_keeps.
  pose proof (fun ts => wait_keeps ts). pose proof (fun t => dispatch_keeps t).
  assert (preserves (keeps I) (modify (put_retry_timer None) : prog Sup unit)).
  { apply (frame_keeps I HI). by apply frame_modify. }
  solve_preserves.
Qed.

Lemma plan_wait_keeps : preserves (keeps I) (plan_wait db_path).
Proof.
  unfold plan_wait. pose proof (clock_keeps I HI).
  pose proof (fun f b => frame_keeps I HI _ (set_flag_frame (W := W) f b)).
  pose proof (frame_keeps I HI _ (flag_frame (W := W) provider_retry_required)).
  pose proof (fun r n => wait_turn_keeps r n). solve_preserves.
Qed.

Lemma supervisor_turn_keeps : preserves (keeps I) (supervisor_turn db_path).
Proof.
  unfold supervisor_turn. apply keeps_get. intros s Hs. apply keeps_bind_at; [by apply (safe_reap db_path HT)|].
  intros removed. apply preserves_bind; [apply _|apply scan_if_due_keeps|]. intros []. apply plan_wait_keeps.
Qed.

Lemma supervisor_loop_keeps fuel : preserves (keeps I) (supervisor_loop fuel db_path).
Proof.
  pose proof supervisor_turn_keeps. pose proof (load_stop_keeps I HI). induction fuel; cbn; solve_preserves.
Qed.
End Turns.

#[export] Hint Resolve arm_frame complete_frame cancel_frame discovery_warn_frame binding_warn_frame
  log_version_frame binding_unavailable_frame rejected_frame : preserves.
