(* ===== verification/WinSupFacts.v ===== *)
(** The invariant of the supervisor of the Windows daemon holds at every turn: no two workers
    share an address or a port, and every command is answered in its turn.  And what a turn makes
    of failed workers, of the database and of an expired backoff. *)
From stdpp Require Import base list strings numbers gmap.
From Stdlib Require Import Ascii ZArith Lia.
From S2P Require Import Prelude Text Words Common Log Store Config ConfigFacts ConfigFile Control Supervisor MicBuffer.
From S2P Require Import WinIo WinState WinDevices WinSupervisor WinLoop WinSupInv Threads.

Local Open Scope Z_scope.

(** ** The invariant *)

(** What was fixed when the worker was launched, and the order in which its thread ends. *)
Definition launch_ok (w : BridgeWorker) : Prop :=
  0 <= port w < kMaxPortCount /\ device_address w = w_address w /\
  normalize_bluetooth_address (w_address w) = Ok (w_address w) /\
  w_config w = mk_config (w_address w) (w_profile w) [port w].
Definition thread_ok (w : BridgeWorker) : Prop :=
  w_done w = match w_stage w with MarkedDone | Finished => true | _ => false end /\
  w_done_event w = match w_stage w with Finished => true | _ => false end.

(** The commands, numbered as they come: those answered, the one that is being answered, and
    those that wait, for which the event is set. *)
Definition pipe_ok (taken : list nat) (p : ControlPipe) : Prop :=
  pipe_stopped p = false /\
  (replied p).*1 ++ taken ++ (requests p).*1 = seq 0 (next_request p) /\
  (requests p <> [] -> command_event p = true).

Lemma identity_members w w' :
  identity_of w' = identity_of w ->
  worker_id w' = worker_id w /\ w_address w' = w_address w /\ device_address w' = device_address w /\
  port w' = port w /\ w_profile w' = w_profile w /\ w_config w' = w_config w /\
  w_stop_requested w' = w_stop_requested w.
Proof. unfold identity_of. intros E. injection E. clear E. intros. tauto. Qed.
Ltac by_identity :=
  let w := fresh "w" in let w' := fresh "w'" in
  intros w w' ?%identity_members; destruct_and?; try congruence.

Section Facts.
Context {W : Type}.
Abbreviation Sup := (Supervisor (W := W)).
Implicit Types s : Sup.

Record sup_ok s : Prop := {
  ok_ids : Forall (fun w => (worker_id w < launched s)%nat) (workers s);
  ok_nodup : NoDup (worker_id <$> workers s);
  ok_addresses : NoDup (w_address <$> workers s);
  ok_ports : NoDup (port <$> workers s);
  ok_launch : Forall launch_ok (workers s);
  ok_threads : Forall thread_ok (workers s);
  ok_backoffs : backoffs_ok (worker_failure_backoffs s)
}.
Definition inv (taken : list nat) s : Prop := sup_ok s /\ pipe_ok taken (pipe s).

(** *** Other threads keep it *)

Lemma identity_fmap {B} (f : BridgeWorker -> B) ws ws' :
  (forall w w', identity_of w' = identity_of w -> f w' = f w) ->
  Forall2 progress ws ws' -> f <$> ws' = f <$> ws.
Proof.
  intros Hf Hp. induction Hp as [|w w' ws ws' [Hi _ _] Hp IH]; [done|]. rewrite !fmap_cons, IH.
  f_equal. by apply Hf.
Qed.
Lemma identity_forall (P : BridgeWorker -> Prop) ws ws' :
  (forall w w', identity_of w' = identity_of w -> P w -> P w') ->
  Forall2 progress ws ws' -> Forall P ws -> Forall P ws'.
Proof.
  intros HP Hp. induction Hp as [|w w' ws ws' [Hi _ _] Hp IH]; [done|]. rewrite !Forall_cons.
  intros [H1 H2]. split; [by apply (HP w w')|auto].
Qed.

Lemma beside_static s s' :
  beside s s' -> Forall thread_ok (workers s') -> sup_ok s -> sup_ok s'.
Proof.
  intros B Ht []. pose proof (beside_workers s s' B) as Hw.
  split; rewrite ?(beside_launched s s' B), ?(beside_backoffs s s' B); try done.
  - revert ok_ids0. apply identity_forall; [|done]. by_identity.
  - by rewrite (identity_fmap worker_id (workers s)) by (done || by_identity).
  - by rewrite (identity_fmap w_address (workers s)) by (done || by_identity).
  - by rewrite (identity_fmap port (workers s)) by (done || by_identity).
  - revert ok_launch0. apply identity_forall; [|done]. unfold launch_ok. by_identity.
Qed.

Lemma update_threads id f s :
  (forall w, thread_ok w -> thread_ok (f w)) -> Forall thread_ok (workers s) ->
  Forall thread_ok (workers (update_worker id f s)).
Proof.
  intros Hf Ht. cbn. apply Forall_fmap. eapply Forall_impl; [exact Ht|]. intros w Hw. cbn.
  case_decide; auto.
Qed.

Lemma happen_threads h s : Forall thread_ok (workers s) -> Forall thread_ok (workers (happen h s)).
Proof.
  intros Ht. destruct h as [d|id f|id session|id|text|error|]; cbn [happen]; try done.
  - by apply update_threads.
  - apply update_threads; [|by destruct (worker_of id s ≫= _)]. intros w [H1 H2]. unfold end_session, thread_ok.
    by destruct (w_stage w) eqn:E; rewrite ?E.
  - apply update_threads; [|done]. intros w [H1 H2]. unfold thread_goes_on, thread_ok.
    by destruct (w_stage w) eqn:E; rewrite ?E.
  - by destruct (_ && _).
Qed.

Lemma queue_pipe_ok taken text p : pipe_ok taken p -> pipe_ok taken (queue_command text p).
Proof.
  intros (Hs & Hn & He). unfold queue_command. rewrite Hs. split; [done|]. split; [|done].
  cbn [replied requests next_request]. by rewrite seq_S, <- Hn, fmap_app, <- !app_assoc.
Qed.

Lemma happen_pipe taken h s : pipe_ok taken (pipe s) -> pipe_ok taken (pipe (happen h s)).
Proof.
  destruct h as [d|id f|id session|id|text|error|]; cbn [happen]; try done.
  - by destruct (worker_of id s ≫= _).
  - apply queue_pipe_ok.
  - by destruct (_ && _).
Qed.

Lemma inv_steady taken : steady (inv taken).
Proof.
  split.
  - intros s s' [Fw Fl Fb Fp _ _] [[] Hp]. split; [|by rewrite Fp]. by split; rewrite ?Fw, ?Fl, ?Fb.
  - intros h s [Hs Hp]. split; [|by apply happen_pipe].
    apply (beside_static s); [apply happen_beside|apply happen_threads, Hs|done].
Qed.
End Facts.

(** ** The turns keep it *)

Section Turns.
Context {W : Type} `{FileStore W} `{WinSystem} `{FloatText}.
Abbreviation Sup := (Supervisor (W := W)).
Implicit Types s : Sup.

Lemma update_worker_ok id f s :
  (forall w, worker_id (f w) = worker_id w /\ w_address (f w) = w_address w /\ port (f w) = port w) ->
  (forall w, launch_ok w -> launch_ok (f w)) -> (forall w, thread_ok w -> thread_ok (f w)) ->
  sup_ok s -> sup_ok (update_worker id f s).
Proof.
  intros Hf Hl Ht [].
  assert (forall {B} (g : BridgeWorker -> B), (forall w, g (f w) = g w) ->
    g <$> workers (update_worker id f s) = g <$> workers s) as Hg.
  { intros B g Hg. cbn. rewrite <- list_fmap_compose. apply list_fmap_ext. intros i w _. cbn. by case_decide. }
  assert (forall P : BridgeWorker -> Prop, (forall w, P w -> P (f w)) -> Forall P (workers s) ->
    Forall P (workers (update_worker id f s))) as HF.
  { intros P HP Hw. cbn. apply Forall_fmap. eapply Forall_impl; [exact Hw|]. intros w Hp. cbn. case_decide; auto. }
  split; try done.
  - apply HF; [|done]. intros w. by destruct (Hf w) as [-> _].
  - rewrite Hg; [done|]. intros w. apply Hf.
  - rewrite Hg; [done|]. intros w. apply Hf.
  - rewrite Hg; [done|]. intros w. apply Hf.
  - by apply HF.
  - by apply HF.
Qed.

Lemma stop_ok id s : sup_ok s -> sup_ok (update_worker id (put_stop true) s).
Proof. by apply update_worker_ok. Qed.
Lemma status_ok id f s : sup_ok s -> sup_ok (update_worker id (fun w => put_status (f w) w) s).
Proof. by apply update_worker_ok. Qed.

Lemma erase_ok P s : sup_ok s -> sup_ok (put_workers (erase_if P (workers s)) s).
Proof.
  intros []. unfold erase_if.
  assert (forall {B} (f : BridgeWorker -> B), NoDup (f <$> workers s) ->
    NoDup (f <$> filter (fun w => P w = false) (workers s))) as Hn.
  { intros B f Hf. apply (sublist_NoDup _ _ Hf). apply (fmap_sublist f). apply sublist_filter. }
  assert (forall Q : BridgeWorker -> Prop, Forall Q (workers s) -> Forall Q (filter (fun w => P w = false) (workers s))) as HF.
  { intros Q. rewrite !Forall_forall. intros HQ w [_ Hw]%list_elem_of_filter. auto. }
  split; cbn; auto.
Qed.

Lemma record_failure_ok a t s :
  sup_ok s -> sup_ok (put_worker_failure_backoffs (record_vdsd_worker_failure (worker_failure_backoffs s) a t) s).
Proof. intros []. split; try done. by apply record_ok. Qed.

Lemma reap_keeps taken ws b : preserves (keeps (inv taken)) (reap (W := W) ws b).
Proof.
  pose proof (inv_steady (W := W) taken) as Hst.
  pose proof (fun w => win_load_keeps _ Hst w_done w) as Hd. pose proof (fun w => win_load_keeps _ Hst w_last_error w) as He.
  pose proof (clock_keeps _ Hst) as Hc. revert b. induction ws as [|w ws IH]; intros b; cbn; [solve_preserves|].
  apply preserves_bind; [apply _|done|]. intros [|]; [|done].
  apply preserves_bind; [apply _|done|]. intros error.
  apply preserves_bind; [apply _| |intros _].
  - case_decide; [apply preserves_ret, _|]. apply preserves_bind; [apply _|done|]. intros now.
    apply preserves_modify. intros s [Hs Hp]. split; [by apply record_failure_ok|done].
  - apply preserves_bind; [apply _| |done]. apply preserves_modify. intros s [Hs Hp]. split; [by apply erase_ok|done].
Qed.

(** *** Launching *)

(** The ports and device addresses that are reserved are those of the workers. *)
Definition reserved_by (taken : list nat) (r : reserved) s : Prop :=
  inv taken s /\ r = (port <$> workers s, device_address <$> workers s).
(** And no worker has the address. *)
Definition room_for (a : string) (taken : list nat) (r : reserved) s : Prop :=
  reserved_by taken r s /\ a ∉ w_address <$> workers s.

Lemma steady_and (I J : Sup -> Prop) : steady I -> steady J -> steady (fun s => I s /\ J s).
Proof. intros [A1 A2] [B1 B2]. split; [intros s s' Hf [HI HJ]; eauto|intros h s [HI HJ]; eauto]. Qed.

(** What is fixed at the launch of the workers. *)
Lemma steady_fixed {B} (f : BridgeWorker -> B) (P : list B -> Prop) :
  (forall w w', identity_of w' = identity_of w -> f w' = f w) -> steady (fun s => P (f <$> workers s)).
Proof.
  intros Hf. split; [by intros s s' [-> _ _ _ _ _]|]. intros h s.
  by rewrite (identity_fmap f _ _ Hf (beside_workers _ _ (happen_beside h s))).
Qed.

Lemma reserved_steady taken r : steady (reserved_by taken r).
Proof.
  apply steady_and; [apply inv_steady|].
  assert (steady (fun s : Sup => r.1 = port <$> workers s)) as [F1 P1] by (apply steady_fixed; by_identity).
  assert (steady (fun s : Sup => r.2 = device_address <$> workers s)) as [F2 P2] by (apply steady_fixed; by_identity).
  destruct r as [ps ds]. cbn in *. split.
  - intros s s' Hf [= Hp Hd]. f_equal; [by apply (F1 s s')|by apply (F2 s s')].
  - intros h s [= Hp Hd]. f_equal; [by apply P1|by apply P2].
Qed.

Lemma room_steady a taken r : steady (room_for a taken r).
Proof.
  apply steady_and; [apply reserved_steady|]. apply (steady_fixed w_address (fun l => a ∉ l)). by_identity.
Qed.

Lemma frame_triple {A} (I : Sup -> Prop) (m : prog Sup A) :
  steady I -> preserves frame m -> triple I m (fun _ => I) I.
Proof. intros HI Hm. by apply triple_keeps, (frame_keeps I HI). Qed.

Lemma new_worker_ok taken a r config p s :
  config_ok config -> a = address config -> 0 <= p < kMaxPortCount -> p ∉ r.1 -> room_for a taken r s ->
  reserved_by taken (r.1 ++ [p], r.2 ++ [a])
    (put_launched (S (launched s))
      (put_workers (workers s ++ [new_worker (launched s) a (profile config)
         (mk_decision Ready (mk_config (address config) (profile config) [p]) p a)]) s)).
Proof.
  intros [Ha _] -> Hp Hfree [[[[] Hpipe] ->] Hnew]. cbn [fst snd] in *.
  split; [|cbn; by rewrite !fmap_app]. split; [|done]. split; cbn; rewrite ?fmap_app; try done.
  - apply Forall_app. split; [|apply Forall_singleton; cbn; lia].
    eapply Forall_impl; [exact ok_ids0|]. cbn. lia.
  - apply NoDup_app. split_and!; [done| |apply NoDup_singleton].
    intros id (w & -> & Hw)%list_elem_of_fmap Hid%list_elem_of_singleton.
    rewrite Forall_forall in ok_ids0. specialize (ok_ids0 w Hw). cbn in Hid. lia.
  - apply NoDup_app. split_and!; [done| |apply NoDup_singleton].
    by intros x Hx ->%list_elem_of_singleton.
  - apply NoDup_app. split_and!; [done| |apply NoDup_singleton].
    by intros x Hx ->%list_elem_of_singleton.
  - apply Forall_app. split; [done|]. by apply Forall_singleton.
  - apply Forall_app. split; [done|]. by apply Forall_singleton.
Qed.

Lemma ready_decision config available reserved_ports a provider reserved_devices :
  config_ok config ->
  let d := select_vdsd_worker_launch_decision config available reserved_ports a provider reserved_devices in
  d_status d = Ready ->
  exists p, 0 <= p < kMaxPortCount /\ (p ∉ reserved_ports) /\
    d = mk_decision Ready (mk_config (address config) (profile config) [p]) p a.
Proof.
  intros [_ Hp] d. subst d. unfold select_vdsd_worker_launch_decision. destruct (negb provider); [done|].
  case_decide; [done|]. pose proof (select_port_spec config available reserved_ports Hp) as Hs.
  destruct (select_controller_config_port _ _ _) as [p|]; [|done]. intros _. exists p.
  destruct Hs as [(Hr & _ & _ & Ho) _]. done.
Qed.

Lemma start_worker_triple taken config launch (r : reserved) :
  config_ok config -> d_status launch = Ready ->
  (exists p, 0 <= p < kMaxPortCount /\ (p ∉ r.1) /\
     launch = mk_decision Ready (mk_config (address config) (profile config) [p]) p (address config)) ->
  triple (room_for (address config) taken r) (start_worker config launch)
    (fun _ => reserved_by taken (r.1 ++ [d_port launch], r.2 ++ [d_device_address launch])) (inv taken).
Proof.
  intros Hc Hr (p & Hp & Hfree & ->). cbn [d_port d_device_address]. unfold start_worker.
  pose proof (room_steady (address config) taken r) as Hst.
  assert (forall s, room_for (address config) taken r s -> inv taken s) as Hinv by (by intros s [[]]).
  eapply triple_bind; [eapply triple_weaken; [by apply frame_triple, call_frame|done..|exact Hinv]|].
  intros [e|]; [by apply triple_throw|].
  eapply triple_bind; [eapply triple_weaken; [by apply frame_triple, call_frame|done..|exact Hinv]|].
  intros [e|]; [by apply triple_throw|].
  eapply triple_bind; [eapply triple_weaken; [by apply frame_triple, log_frame|done..|exact Hinv]|].
  intros []. apply triple_modify. intros s Hs. by apply new_worker_ok.
Qed.

Lemma follow_decision_triple taken config available provider (r : reserved) :
  config_ok config ->
  triple (room_for (address config) taken r)
    (follow_decision config
       (select_vdsd_worker_launch_decision config available r.1 (address config) provider r.2) r)
    (fun r' => reserved_by taken r') (inv taken).
Proof.
  intros Hc. pose proof (ready_decision config available r.1 (address config) provider r.2 Hc) as Hd.
  cbv zeta in Hd. destruct (select_vdsd_worker_launch_decision _ _ _ _ _ _) as [status cfg p d] eqn:Ed.
  cbn [d_status] in Hd.
  pose proof (reserved_steady taken r) as Hst. pose proof (room_steady (address config) taken r) as Hst'.
  assert (forall s, room_for (address config) taken r s -> inv taken s) as Hinv by (by intros s [[]]).
  assert (forall m : prog Sup reserved, preserves frame m -> (forall s s' r', m s = (s', Ok r') -> r' = r) ->
    triple (room_for (address config) taken r) m (fun r' => reserved_by taken r') (inv taken)) as Hkeep.
  { intros m Hm Hv s Hs. specialize (frame_triple _ m Hst' Hm s Hs). destruct (m s) as [s1 [r'|e]] eqn:E; [|auto].
    rewrite (Hv s s1 r' E). by intros [Hr _]. }
  unfold follow_decision. cbn [d_status]. destruct status.
  - eapply triple_bind; [eapply triple_weaken; [apply (frame_triple _ _ Hst'); by apply frame_modify|done..|exact Hinv]|].
    intros []. eapply triple_bind; [apply start_worker_triple; [done|done|by apply Hd]|].
    intros []. by apply triple_ret.
  - apply Hkeep; [solve_preserves|]. intros s s' r' (s1 & rep & _ & Hr)%prog_bind_ok.
    apply prog_bind_ok in Hr as (s2 & [] & _ & Hr). by injection Hr as _ <-.
  - apply Hkeep; [solve_preserves|]. by intros s s' r' [= _ <-].
  - apply Hkeep.
    + apply preserves_bind; [apply _|apply preserves_get, _|]. intros s. destruct (remember_vdsd_warning _ _) as [ws rep].
      apply preserves_bind; [apply _|by apply frame_modify|]. intros _. solve_preserves.
    + intros s s' r' (s1 & s2 & _ & Hr)%prog_bind_ok. destruct (remember_vdsd_warning _ _) as [ws rep].
      apply prog_bind_ok in Hr as (s3 & [] & _ & Hr). apply prog_bind_ok in Hr as (s4 & [] & _ & Hr).
      by injection Hr as _ <-.
Qed.

(** A step that leaves the workers alone, then the rest. *)
Lemma room_then {A B} (m : prog Sup A) (k : A -> prog Sup B) a taken r Q :
  preserves frame m -> (forall x, triple (room_for a taken r) (k x) Q (inv taken)) ->
  triple (room_for a taken r) (m ≫= k) Q (inv taken).
Proof.
  intros Hm Hk. eapply triple_bind; [|exact Hk].
  eapply triple_weaken; [by apply (frame_triple _ _ (room_steady a taken r))|done..|]. by intros s [[]].
Qed.
Lemma reserved_then {A B} (m : prog Sup A) (k : A -> prog Sup B) taken r Q :
  preserves frame m -> (forall x, triple (reserved_by taken r) (k x) Q (inv taken)) ->
  triple (reserved_by taken r) (m ≫= k) Q (inv taken).
Proof.
  intros Hm Hk. eapply triple_bind; [|exact Hk].
  eapply triple_weaken; [by apply (frame_triple _ _ (reserved_steady taken r))|done..|]. by intros s [].
Qed.
Lemma room_end a taken r : triple (room_for a taken r) (mret r) (fun r' => reserved_by taken r') (inv taken).
Proof. apply triple_ret. by intros s []. Qed.
Lemma reserved_end taken r : triple (reserved_by taken r) (mret r) (fun r' => reserved_by taken r') (inv taken).
Proof. by apply triple_ret. Qed.

Lemma connect_triple taken ds available config (r : reserved) :
  config_ok config ->
  triple (room_for (address config) taken r) (connect_controller ds available config r)
    (fun r' => reserved_by taken r') (inv taken).
Proof.
  intros Hc. unfold connect_controller. apply room_then; [apply on_devices_frame|]. intros [d|reason].
  - apply room_then; [by apply frame_modify|]. intros []. apply room_then; [apply on_devices_frame|]. intros ports.
    by apply follow_decision_triple.
  - apply room_then; [solve_preserves|]. intros report. apply room_then; [solve_preserves|]. intros []. apply room_end.
Qed.

Lemma consume_retry_triple taken a (r : reserved) :
  triple (reserved_by taken r) (consume_retry (W := W) a) (fun _ => reserved_by taken r) (inv taken).
Proof.
  eapply triple_weaken with (Q' := fun _ => reserved_by taken r) (E' := reserved_by taken r);
    [|done..|by intros s []].
  unfold consume_retry. eapply triple_bind; [apply triple_keeps, (clock_keeps _ (reserved_steady taken r))|].
  intros now. apply triple_get. intros s0 [[[] Hp] Hr]. destruct (consume_vdsd_worker_retry _ a now) as [bs b] eqn:E.
  apply consume_spec in E as [Hb _]; [|done]. eapply triple_bind; [apply triple_modify with (Q := fun _ => reserved_by taken r)|].
  - intros s ->. split; [|exact Hr]. by split.
  - intros []. by apply triple_ret.
Qed.

Lemma consider_triple taken enabled ds config (r : reserved) :
  config_ok config ->
  triple (reserved_by taken r) (consider enabled ds config r) (fun r' => reserved_by taken r') (inv taken).
Proof.
  intros Hc. unfold consider. eapply triple_bind; [apply consume_retry_triple|].
  intros [|]; cbn [negb]; [|apply reserved_end]. apply triple_get. intros s0 Hs0.
  destruct (has_worker _ _) eqn:Hw; [by apply triple_ret; intros s ->|].
  apply triple_weaken with (P' := room_for (address config) taken r) (Q' := fun r' => reserved_by taken r') (E' := inv taken);
    [|intros s ->; split; [done|]|done..].
  - case_match; [apply room_then; [solve_preserves|]; intros []; apply room_end|].
    case_match; [apply room_then; [solve_preserves|]; intros []; apply room_end|].
    apply room_then; [by apply frame_modify|]. intros []. by apply connect_triple.
  - intros (w & Ha & Hin)%list_elem_of_fmap. unfold has_worker in Hw.
    apply not_true_iff_false in Hw. apply Hw, existsb_exists. exists w. rewrite <- list_elem_of_In.
    split; [done|]. by apply bool_decide_eq_true.
Qed.

Lemma consider_all_triple taken enabled ds configs (r : reserved) :
  Forall config_ok configs ->
  triple (reserved_by taken r) (consider_all enabled ds configs r) (fun _ => inv taken) (inv taken).
Proof.
  intros Hc. revert r. induction Hc as [|config configs Hok Hc IH]; intros r; cbn.
  - apply triple_ret. by intros s [].
  - eapply triple_bind; [by apply consider_triple|]. intros r'. apply IH.
Qed.

(** *** Commands *)

(** The assertion is kept and nothing is thrown. *)
Definition surely {A} (I : Sup -> Prop) (m : prog Sup A) : Prop := triple I m (fun _ => I) (fun _ => False).

Lemma surely_bind {A B} (I : Sup -> Prop) (m : prog Sup A) (f : A -> prog Sup B) :
  surely I m -> (forall a, surely I (f a)) -> surely I (m ≫= f).
Proof. intros Hm Hf. by eapply triple_bind. Qed.
Lemma surely_ret {A} (I : Sup -> Prop) (a : A) : surely I (mret a).
Proof. by apply triple_ret. Qed.
Lemma surely_mapM {A B} (I : Sup -> Prop) (P : A -> Prop) (f : A -> prog Sup B) l :
  Forall P l -> (forall a, P a -> surely I (f a)) -> surely I (mapM f l).
Proof.
  intros Hl Hf. induction Hl as [|a l Ha Hl IH]; cbn; [apply surely_ret|].
  apply surely_bind; [by apply Hf|]. intros b. apply surely_bind; [done|]. intros bs. apply surely_ret.
Qed.
Lemma surely_collect {A B} (I : Sup -> Prop) (f : A -> prog Sup (option B)) l :
  (forall a, surely I (f a)) -> surely I (collect f l).
Proof.
  intros Hf. induction l as [|a l IH]; cbn; [apply surely_ret|].
  apply surely_bind; [by apply Hf|]. intros b. apply surely_bind; [done|]. intros bs. apply surely_ret.
Qed.
Lemma surely_load {A} (I : Sup -> Prop) (f : BridgeWorker -> A) w : steady I -> surely I (load (W := W) f w).
Proof.
  intros HI s Hs. pose proof (win_load_keeps I HI f w s Hs) as Hk. unfold load, observe, mbind, prog_bind in *.
  by destruct (happenings s).
Qed.
Lemma surely_connected (I : Sup -> Prop) w : steady I -> surely I (worker_is_connected (W := W) w).
Proof.
  intros HI. unfold worker_is_connected. apply surely_bind; [by apply surely_load|]. intros [|]; [apply surely_ret|].
  apply surely_bind; [by apply surely_load|]. intros b. apply surely_ret.
Qed.
Lemma surely_modify (I : Sup -> Prop) f : (forall s, I s -> I (f s)) -> surely I (modify f).
Proof. intros Hf. by apply triple_modify. Qed.
Lemma surely_lift {A} (I : Sup -> Prop) (a : A) : surely I (lift (Ok a)).
Proof. by intros s Hs. Qed.
Lemma surely_get {A} (I : Sup -> Prop) (f : Sup -> prog Sup A) :
  (forall s, I s -> surely I (f s)) -> surely I (get_state ≫= f).
Proof. intros Hf. apply triple_get. intros s0 Hs0 s ->. by apply (Hf s0 Hs0). Qed.

Lemma surely_status_line I w : steady I -> surely I (status_line (W := W) w).
Proof.
  intros HI. unfold status_line. apply surely_bind; [by apply surely_connected|]. intros b.
  do 10 (apply surely_bind; [by apply surely_load|]; intros ?).
  apply surely_get. intros s _. do 2 (apply surely_bind; [by apply surely_load|]; intros ?). apply surely_ret.
Qed.

Lemma surely_mute taken want ws : surely (inv taken) (request_mute (W := W) want ws).
Proof.
  induction ws as [|w ws IH]; cbn; [apply surely_ret|].
  apply surely_bind; [apply surely_connected, inv_steady|]. intros b. apply surely_bind; [|done].
  destruct b; [|apply surely_ret]. apply surely_modify. intros s [Hs Hp]. split; [by apply status_ok|done].
Qed.

Lemma set_keeps taken param value : surely (inv taken) (handle_set (W := W) param value).
Proof.
  unfold handle_set. case_decide; [|case_decide; [|apply surely_ret]].
  - apply surely_bind; [|intros; apply surely_get; intros; apply surely_ret].
    apply surely_modify. intros s. apply (steady_frame _ (inv_steady taken)). by split.
  - apply surely_get. intros s _. apply surely_bind; [apply surely_mute|]. intros. apply surely_ret.
Qed.

Lemma own_command_keeps taken command :
  surely (inv taken) (try_catch (handle_own_command (W := W) command) (fun _ => mret None)).
Proof.
  apply triple_catch with (E' := inv taken); [|intros; apply surely_ret]. unfold handle_own_command.
  assert (forall A (m : prog Sup A), surely (inv taken) m -> triple (inv taken) m (fun _ => inv taken) (inv taken)) as Hw.
  { intros A m Hm. by eapply triple_weaken. }
  assert (forall A (r : result A), triple (inv taken) (lift (S := Sup) r) (fun _ => inv taken) (inv taken)) as Hl.
  { intros A r. by apply triple_lift. }
  eapply triple_bind; [apply Hl|]. intros fields. eapply triple_bind; [apply Hl|]. intros cmd. case_decide.
  - eapply triple_bind; [apply Hw|intros; by apply triple_ret]. unfold build_status_json. apply surely_get. intros s _.
    apply surely_bind; [|intros; apply surely_ret]. apply (surely_mapM _ (fun _ => True)); [by apply Forall_true|].
    intros w _. apply surely_status_line, inv_steady.
  - case_decide; [|by apply triple_ret]. eapply triple_bind; [apply Hl|]. intros param.
    eapply triple_bind; [apply Hl|]. intros value. eapply triple_bind; [apply Hw, set_keeps|].
    intros. by apply triple_ret.
Qed.

Lemma path_ok p : 0 <= p < kMaxPortCount -> exists t, port_path_for_index Windows p = Ok t.
Proof. intros Hp. unfold port_path_for_index. destruct (Z.leb_spec kMaxPortCount p); [lia|eauto]. Qed.

Lemma command_keeps taken db_path command :
  surely (inv taken) (handle_supervisor_control_command db_path command).
Proof.
  unfold handle_supervisor_control_command. apply surely_bind; [apply own_command_keeps|].
  intros [reply|]; [apply surely_ret|]. apply surely_get. intros s [[] _].
  apply surely_bind; [apply (surely_mapM _ launch_ok); [done|]|intros controllers].
  { intros w [Hp _]. unfold controller_status.
    apply surely_bind; [apply surely_connected, inv_steady|]. intros b.
    apply surely_bind; [apply surely_connected, inv_steady|]. intros b'.
    apply surely_bind; [|intros; apply surely_ret]. destruct b'; [|apply surely_ret].
    destruct (path_ok _ Hp) as [t ->]. apply surely_lift. }
  apply surely_bind; [apply (surely_mapM _ (fun p => 0 <= p < kMaxPortCount))|intros candidates].
  { apply Forall_forall. intros p (i & -> & Hi%elem_of_seq)%list_elem_of_fmap. unfold kMaxPortCount in *. lia. }
  { intros p Hp. unfold port_candidate. destruct (path_ok _ Hp) as [t ->].
    apply surely_bind; [apply surely_lift|]. intros. apply surely_ret. }
  apply surely_bind; [apply surely_collect|intros bindings].
  { intros w. unfold port_binding. apply surely_bind; [apply surely_connected, inv_steady|]. intros. apply surely_ret. }
  intros s1 Hs1. pose proof (on_control_frame (handle_vdsd_control_command Windows command db_path controllers
    (build_vdsd_control_port_statuses candidates bindings) list_targets) s1) as Hf. revert Hf.
  unfold on_control, handle_vdsd_control_command, try_catch.
  destruct (dispatch_control_command _ _ _ _ _ _ _) as [[w v] [reply|e]]; cbn;
    intros Hf; by apply (steady_frame _ (inv_steady taken) s1).
Qed.

(** *** The queue is emptied *)

(** The commands that wait and all that happens later: what a round of the queue may use up. *)
Definition work s : nat := (length (requests (pipe s)) + length (concat (happenings s)))%nat.
Definition less_work s s' : Prop := (work s' <= work s)%nat.
#[export] Instance less_work_preorder : PreOrder less_work.
Proof. unfold less_work. split; [intros s; lia|]. intros s1 s2 s3. lia. Qed.

Lemma happen_work h s : (length (requests (pipe (happen h s))) <= S (length (requests (pipe s))))%nat
  /\ happenings (happen h s) = happenings s.
Proof.
  destruct h as [d|id f|id session|id|text|error|]; cbn [happen]; try (split; [cbn; lia|done]).
  - destruct (worker_of id s ≫= _); (split; [cbn; lia|done]).
  - unfold queue_command. destruct (pipe_stopped (pipe s)); (split; [cbn; rewrite ?length_app; cbn; lia|done]).
  - destruct (_ && _); (split; [cbn; lia|done]).
Qed.
Lemma observe_work : preserves less_work (observe (W := W)).
Proof.
  intros s. unfold observe, less_work. destruct (happenings s) as [|hs rest] eqn:E; [done|]. cbn [fst].
  assert (forall hs s0, (length (requests (pipe (foldl (fun s h => happen h s) s0 hs)))
      <= length hs + length (requests (pipe s0)))%nat
    /\ happenings (foldl (fun s h => happen h s) s0 hs) = happenings s0) as Hf.
  { clear. induction hs as [|h hs IH]; intros s0; cbn [foldl length]; [split; [lia|done]|].
    destruct (IH (happen h s0)) as [L1 ->]. destruct (happen_work h s0) as [L2 ->]. split; [lia|done]. }
  destruct (Hf hs (put_happenings rest s)) as [L1 L2]. unfold work. rewrite L2, E. cbn [concat].
  cbn in L1. rewrite length_app. cbn. lia.
Qed.

Lemma same_work f : (forall s, work (f s) = work s) -> preserves less_work (modify f : prog Sup unit).
Proof. intros Hf. apply preserves_modify. intros s. unfold less_work. by rewrite Hf. Qed.
Lemma load_work {A} (f : BridgeWorker -> A) w : preserves less_work (load (W := W) f w).
Proof. unfold load. pose proof observe_work. solve_preserves. Qed.
Lemma connected_work w : preserves less_work (worker_is_connected (W := W) w).
Proof.
  unfold worker_is_connected. pose proof (load_work w_done w). pose proof (load_work w_stop_requested w). solve_preserves.
Qed.
#[local] Hint Resolve connected_work preserves_lift : preserves.

Lemma own_command_work command : preserves less_work (handle_own_command (W := W) command).
Proof.
  unfold handle_own_command. apply preserves_bind; [apply _|apply preserves_lift, _|]. intros fields.
  apply preserves_bind; [apply _|apply preserves_lift, _|]. intros cmd. case_decide.
  - apply preserves_bind; [apply _| |intros; apply preserves_ret, _]. unfold build_status_json.
    apply preserves_bind; [apply _|apply preserves_get, _|]. intros s. apply preserves_bind; [apply _| |solve_preserves].
    apply preserves_mapM; [apply _|]. intros w. unfold status_line. pose proof (fun A (f : BridgeWorker -> A) => load_work f w). solve_preserves.
  - case_decide; [|apply preserves_ret, _]. apply preserves_bind; [apply _|apply preserves_lift, _|]. intros param.
    apply preserves_bind; [apply _|apply preserves_lift, _|]. intros value. apply preserves_bind; [apply _| |solve_preserves].
    unfold handle_set. case_decide; [|case_decide; [|apply preserves_ret, _]].
    + apply preserves_bind; [apply _|by apply same_work|]. intros _. solve_preserves.
    + apply preserves_bind; [apply _|apply preserves_get, _|]. intros s. apply preserves_bind; [apply _| |solve_preserves].
      generalize (workers s). intros ws. induction ws as [|w ws IH]; cbn; [apply preserves_ret, _|].
      apply preserves_bind; [apply _|apply connected_work|]. intros b. apply preserves_bind; [apply _| |done].
      destruct b; [by apply same_work|apply preserves_ret, _].
Qed.

Lemma command_work db_path command : preserves less_work (handle_supervisor_control_command (W := W) db_path command).
Proof.
  unfold handle_supervisor_control_command. apply preserves_bind; [apply _| |].
  { apply preserves_catch; [apply _|apply own_command_work|]. intros. apply preserves_ret, _. }
  intros [reply|]; [apply preserves_ret, _|]. apply preserves_bind; [apply _|apply preserves_get, _|]. intros s.
  apply preserves_bind; [apply _|apply preserves_mapM; [apply _|]; intros w; unfold controller_status; solve_preserves|]. intros ?.
  apply preserves_bind; [apply _|apply preserves_mapM; [apply _|]; intros p; unfold port_candidate; solve_preserves|]. intros ?.
  apply preserves_bind; [apply _|apply preserves_collect; [apply _|]; intros w; unfold port_binding; solve_preserves|]. intros ?.
  intros s1. unfold on_control. destruct (handle_vdsd_control_command _ _ _ _ _ _ _) as [[w v] r]. unfold less_work, work. done.
Qed.

Lemma take_request_triple n :
  triple (fun s => inv [] s /\ (work s <= n)%nat) (take_request (W := W))
    (fun r s => match r with
                | None => inv [] s /\ requests (pipe s) = []
                | Some (id, _) => inv [id] s /\ (S (work s) <= n)%nat
                end) (fun _ => False).
Proof.
  intros s [Hs Hn]. unfold take_request.
  pose proof (observe_keeps _ (inv_steady []) s Hs) as Ho. pose proof (observe_work s) as Hw. unfold less_work in Hw.
  unfold observe, mbind, prog_bind, get_state, modify, mret, prog_ret in *.
  destruct (happenings s) as [|hs rest]; cbn [fst snd] in *.
  - destruct Ho as [Hok (P1 & P2 & P3)]. unfold work in *. destruct (requests (pipe s)) as [|[id text] more] eqn:E; cbn.
    + split; [|done]. split; [by destruct Hok; split|]. by split.
    + split; [|cbn in *; lia]. split; [by destruct Hok; split|]. split; [done|]. split; [|by intros _; apply P3].
      cbn. by rewrite <- P2.
  - set (s1 := foldl _ _ _) in *. clearbody s1.
    destruct Ho as [Hok (P1 & P2 & P3)]. unfold work in *. destruct (requests (pipe s1)) as [|[id text] more] eqn:E; cbn.
    + split; [|done]. split; [by destruct Hok; split|]. by split.
    + split; [|cbn in *; lia]. split; [by destruct Hok; split|]. split; [done|]. split; [|by intros _; apply P3].
      cbn. by rewrite <- P2.
Qed.

Lemma service_loop_triple fuel db_path :
  triple (fun s => inv [] s /\ (work s < fuel)%nat) (service_loop fuel db_path)
    (fun b s => b = true /\ inv [] s /\ requests (pipe s) = []) (fun _ => False).
Proof.
  induction fuel as [|fuel IH]; [intros s [_ Hf]; lia|]. cbn [service_loop].
  eapply triple_bind; [eapply triple_weaken; [apply (take_request_triple fuel)| |done|done]; intros s [Hs Hw]; split; [done|lia]|].
  intros [[id text]|]; [|by apply triple_ret].
  eapply triple_bind with (R := fun _ s => inv [id] s /\ (S (work s) <= fuel)%nat).
  { case_decide; [by apply triple_ret|]. intros s [Hs Hw]. pose proof (command_keeps [id] db_path (trim_command text) s Hs) as Hk.
    pose proof (command_work db_path (trim_command text) s) as Hl. unfold less_work in Hl.
    destruct (handle_supervisor_control_command _ _ s) as [s1 [r|e]]; [|done]. cbn [fst] in Hl. split; [done|lia]. }
  intros reply. eapply triple_bind with (R := fun _ s => inv [] s /\ (work s < fuel)%nat); [|intros _; apply IH]. apply triple_modify.
  intros s [[Hok (P1 & P2 & P3)] Hw]. split; [|unfold work in *; cbn; lia]. split; [by destruct Hok; split|].
  split; [done|]. split; [|done]. cbn. by rewrite <- P2, fmap_app, <- app_assoc.
Qed.

Lemma service_ready_triple db_path :
  triple (inv []) (service_ready db_path)
    (fun b s => b = true /\ inv [] s /\ requests (pipe s) = []) (fun _ => False).
Proof.
  unfold service_ready. apply triple_get. intros s0 Hs0. eapply triple_weaken; [apply service_loop_triple| |done|done].
  intros s ->. split; [done|]. unfold work. lia.
Qed.

Lemma inv_turn_safe db_path : turn_safe (inv (W := W) []) db_path.
Proof.
  split.
  - intros id s [Hs Hp]. split; [by apply stop_ok|done].
  - intros s Hs. by apply reap_keeps.
  - intros enabled ds configs s Hs Hc. pose proof (consider_all_triple [] enabled ds configs _ Hc s (conj Hs eq_refl)) as Ht.
    by destruct (consider_all _ _ _ _ s) as [s1 [a|e]].
  - apply keeps_triple. eapply triple_weaken; [apply service_ready_triple|done|by intros b s (_ & ? & _)|done].
  - intros s [Hs Hp]. split; [by destruct Hs; split|done].
Qed.
End Turns.
