(* ===== verification/WinSupRetry.v ===== *)
(** Failed workers: what the supervisor of the Windows daemon does about them, and when their
    controllers are tried again. *)
From stdpp Require Import base list strings numbers gmap.
From Stdlib Require Import Ascii ZArith Lia.
From S2P Require Import Prelude Text Words Common Log Store Config ConfigFacts ConfigFile Control Supervisor MicBuffer.
From S2P Require Import WinIo WinState WinDevices WinSupervisor WinLoop WinSupInv WinSupFacts Threads.

Local Open Scope Z_scope.

Section Retry.
Context {W : Type} `{FileStore W} `{WinSystem} `{FloatText}.
Abbreviation Sup := (Supervisor (W := W)).
Implicit Types s : Sup.

(** ** An address that waits *)

(** No worker has the address, and one may be started at [t]. *)
Definition held (a : string) (t : Z) s : Prop :=
  (a ∉ w_address <$> workers s) /\ backoff_map (worker_failure_backoffs s) !! a = Some t.
(** Or [t] has passed. *)
Definition held_until (a : string) (t : Z) s : Prop := t <= steady_now s \/ held a t s.

Lemma passed_steady t : steady (fun s : Sup => t <= steady_now s).
Proof.
  split; [intros s s' [_ _ _ _ Ht _]; lia|]. intros h s. pose proof (beside_time _ _ (happen_beside h s)). lia.
Qed.

Lemma held_steady a t : steady (held a t).
Proof.
  apply steady_and; [apply (steady_fixed w_address (fun l => a ∉ l)); by_identity|].
  split; [by intros s s' [_ _ -> _ _ _]|]. intros h s. by rewrite (beside_backoffs _ _ (happen_beside h s)).
Qed.

Lemma steady_or (I J : Sup -> Prop) : steady I -> steady J -> steady (fun s => I s \/ J s).
Proof. intros [A1 A2] [B1 B2]. split; [intros s s' Hf [HI|HJ]; eauto|intros h s [HI|HJ]; eauto]. Qed.

Lemma held_until_steady a t : steady (held_until a t).
Proof. apply steady_or; [apply passed_steady|apply held_steady]. Qed.

(** ** Reaping *)

Lemma erased P s w : w ∈ erase_if P (workers s) -> w ∈ workers s.
Proof. intros Hw. by apply list_elem_of_filter in Hw as [_ Hw]. Qed.

(** A reading, then the rest. *)
Lemma keeps_load {A B} (I : Sup -> Prop) (f : BridgeWorker -> A) w (k : A -> prog Sup B) :
  steady I -> (forall a, preserves (keeps I) (k a)) -> preserves (keeps I) (load f w ≫= k).
Proof. intros HI Hk. apply preserves_bind; [apply _|by apply win_load_keeps|done]. Qed.

(** Reaping keeps what recording a failure of its workers and erasing workers keep. *)
Lemma reap_keeps_if (I : Sup -> Prop) ws b :
  steady I ->
  (forall w t s, w ∈ ws -> I s ->
     I (put_worker_failure_backoffs (record_vdsd_worker_failure (worker_failure_backoffs s) (w_address w) t) s)) ->
  (forall P s, I s -> I (put_workers (erase_if P (workers s)) s)) ->
  preserves (keeps I) (reap (W := W) ws b).
Proof.
  intros HI Hr He. revert b. induction ws as [|w ws IH]; intros b; cbn; [apply preserves_ret, _|].
  assert (forall b, preserves (keeps I) (reap (W := W) ws b)) as IH'.
  { apply IH. intros v t s Hv. apply Hr. by apply list_elem_of_further. }
  apply keeps_load; [done|]. intros [|]; [|apply IH']. apply keeps_load; [done|]. intros error.
  apply preserves_bind; [apply _| |intros _; apply preserves_bind; [apply _| |intros _; apply IH']].
  - case_decide; [apply preserves_ret, _|]. apply preserves_bind; [apply _|by apply clock_keeps|]. intros now.
    apply preserves_modify. intros s Hs. apply Hr; [apply list_elem_of_here|done].
  - apply preserves_modify. intros s Hs. by apply He.
Qed.

Lemma reap_held a t ws b :
  a ∉ w_address <$> ws -> preserves (keeps (held a t)) (reap (W := W) ws b).
Proof.
  intros Ha. apply reap_keeps_if; [apply held_steady| |].
  - intros w t' s Hw [P1 P2]. split; [done|].
    change (backoff_map (record_vdsd_worker_failure (worker_failure_backoffs s) (w_address w) t') !! a = Some t).
    rewrite record_map, lookup_insert_ne; [done|].
    intros <-. apply Ha. by apply list_elem_of_fmap_2.
  - intros P s [P1 P2]. split; [|done]. cbn. intros (w & -> & Hw)%list_elem_of_fmap. apply P1.
    apply list_elem_of_fmap_2. by eapply erased.
Qed.

Lemma reap_passed t ws b : preserves (keeps (fun s => t <= steady_now s)) (reap (W := W) ws b).
Proof. apply reap_keeps_if; [apply passed_steady|done|done]. Qed.

Lemma reap_held_until a t s : held_until a t s -> held_until a t (reap (workers s) false s).1.
Proof.
  intros [Hp|Hh]; [left; by apply reap_passed|right]. apply reap_held; [apply Hh|done].
Qed.

(** ** Considering records *)

Lemma consume_held a t taken c :
  triple (fun s => inv taken s /\ held_until a t s) (consume_retry (W := W) c)
    (fun r s => held_until a t s /\ (c = a -> r = true -> t <= steady_now s)) (held_until a t).
Proof.
  unfold consume_retry.
  apply triple_bind with (R := fun now s => (inv taken s /\ held_until a t s) /\ now = steady_now s).
  { intros s Hs. pose proof (clock_keeps _ (steady_and _ _ (inv_steady taken) (held_until_steady a t)) s Hs) as Hk.
    unfold clock_now, observe, mbind, prog_bind in *. by destruct (happenings s). }
  intros now. apply triple_get. intros s0 [[[[] _] Hh] ->].
  destruct (consume_vdsd_worker_retry _ c (steady_now s0)) as [bs r] eqn:E.
  apply consume_spec in E as (_ & _ & Hc); [|done].
  eapply triple_bind with (R := fun _ s => held_until a t s /\ (c = a -> r = true -> t <= steady_now s)).
  2: { intros []. by apply triple_ret. }
  apply triple_modify. intros s ->. destruct Hh as [Hp|[Ha Hb]]; [split; [by left|done]|].
  destruct (decide (c = a)) as [->|Hne].
  - rewrite Hb in Hc. destruct (Z.ltb_spec (steady_now s0) t); destruct Hc as [-> Hm].
    + split; [right; split; [done|by subst bs]|done].
    + split; [by left|]. by cbn.
  - split; [|done]. right. split; [done|]. change (backoff_map bs !! a = Some t). destruct (backoff_map (worker_failure_backoffs s0) !! c) as [t'|].
    + destruct (steady_now s0 <? t'); destruct Hc as [_ Hm]; [by subst bs|]. by rewrite Hm, lookup_delete_ne.
    + destruct Hc as [_ ->]. done.
Qed.

(** Launching a worker of another address. *)
Lemma start_held a t config launch :
  address config <> a -> preserves (keeps (held_until a t)) (start_worker (W := W) config launch).
Proof.
  intros Hne. pose proof (held_until_steady a t) as Hst. unfold start_worker.
  apply preserves_bind; [apply _|apply (frame_keeps _ Hst), call_frame|]. intros [e|]; [apply preserves_throw, _|].
  apply preserves_bind; [apply _|apply (frame_keeps _ Hst), call_frame|]. intros [e|]; [apply preserves_throw, _|].
  apply preserves_bind; [apply _|apply (frame_keeps _ Hst), log_frame|]. intros _.
  apply preserves_modify. intros s [Hp|[Ha Hb]]; [by left|right]. split; [|done]. cbn.
  rewrite fmap_app. intros [Hin|Hin]%elem_of_app; [done|]. apply list_elem_of_singleton in Hin. done.
Qed.

Lemma start_passed t config launch : preserves (keeps (fun s => t <= steady_now s)) (start_worker (W := W) config launch).
Proof.
  pose proof (passed_steady t) as Hst. unfold start_worker.
  apply preserves_bind; [apply _|apply (frame_keeps _ Hst), call_frame|]. intros [e|]; [apply preserves_throw, _|].
  apply preserves_bind; [apply _|apply (frame_keeps _ Hst), call_frame|]. intros [e|]; [apply preserves_throw, _|].
  apply preserves_bind; [apply _|apply (frame_keeps _ Hst), log_frame|]. intros _. apply preserves_modify. intros s Hs. exact Hs.
Qed.

(** What follows the retry of a record keeps what the launch of its worker keeps. *)
Definition place enabled_ports ds config (r : reserved) : prog Sup reserved :=
  let a := address config in
  let available := negb (bool_decide (enabled_ports = [])) in
  s ← get_state;
  if has_worker a (workers s) then mret r
  else if negb available then _ ← binding_unavailable a kVirtualPortProviderUnavailableReason; mret r
  else if negb (controller_config_has_candidate_port config enabled_ports) then
    _ ← binding_unavailable a ("no allowed virtual port enabled ports=[" +:+ format_ports (ports config) +:+ "]");
    mret r
  else
    _ ← modify (fun s => put_port_binding_warned_states (forget_vdsd_warning_state (port_binding_warned_states s) a) s);
    connect_controller ds available config r.
Lemma consider_place enabled_ports ds config (r : reserved) :
  consider enabled_ports ds config r =
  (retry ← consume_retry (W := W) (address config);
   if negb retry then mret r else place enabled_ports ds config r).
Proof. done. Qed.

(** The decisions a worker is launched on. *)
Definition is_launch (config : ControllerConfig) (launch : VdsdWorkerLaunchDecision) : Prop :=
  d_status launch = Ready /\ exists available provider (r : reserved),
    launch = select_vdsd_worker_launch_decision config available r.1 (address config) provider r.2.

Lemma place_keeps (I : Sup -> Prop) enabled_ports ds config (r : reserved) :
  steady I -> (forall launch, is_launch config launch -> preserves (keeps I) (start_worker config launch)) ->
  preserves (keeps I) (place enabled_ports ds config r).
Proof.
  intros HI Hs. pose proof (fun A (m : prog Sup A) => frame_keeps I HI m) as Hf. unfold place.
  apply preserves_bind; [apply _|apply preserves_get, _|]. intros s. case_match; [apply preserves_ret, _|].
  case_match; [apply Hf; solve_preserves|]. case_match; [apply Hf; solve_preserves|].
  apply preserves_bind; [apply _|by apply Hf, frame_modify|]. intros _. unfold connect_controller.
  apply preserves_bind; [apply _|apply Hf, on_devices_frame|]. intros [d|reason]; [|apply Hf; solve_preserves].
  apply preserves_bind; [apply _|by apply Hf, frame_modify|]. intros _.
  apply preserves_bind; [apply _|apply Hf, on_devices_frame|]. intros ports. unfold follow_decision. case_match eqn:Ed.
  - apply preserves_bind; [apply _|by apply Hf, frame_modify|]. intros _.
    apply preserves_bind; [apply _|apply Hs; split; [done|by eexists _, _, _]|]. intros _. apply preserves_ret, _.
  - apply Hf; solve_preserves.
  - apply preserves_ret, _.
  - apply Hf. apply preserves_bind; [apply _|apply preserves_get, _|]. intros s1.
    destruct (remember_vdsd_warning _ _) as [ws rep]. apply preserves_bind; [apply _|by apply frame_modify|].
    intros _. solve_preserves.
Qed.

Lemma consider_held a t taken enabled_ports ds config (r : reserved) :
  triple (fun s => inv taken s /\ held_until a t s) (consider enabled_ports ds config r)
    (fun _ => held_until a t) (held_until a t).
Proof.
  rewrite consider_place. eapply triple_bind; [apply consume_held|]. intros retry.
  destruct retry; cbn [negb]; [|apply triple_ret; by intros s []].
  destruct (decide (address config = a)) as [Ha|Ha].
  - apply triple_weaken with (P' := fun s => t <= steady_now s) (Q' := fun _ s => t <= steady_now s)
      (E' := fun s => t <= steady_now s); [|intros s [_ Hs]; by apply Hs|by left|by left].
    apply triple_keeps, place_keeps; [apply passed_steady|]. intros launch _. apply start_passed.
  - apply triple_weaken with (P' := held_until a t) (Q' := fun _ => held_until a t) (E' := held_until a t);
      [|by intros s []|done..].
    apply triple_keeps, place_keeps; [apply held_until_steady|]. intros launch _. by apply start_held.
Qed.

Lemma consider_all_held a t taken enabled_ports ds configs (r : reserved) :
  Forall config_ok configs ->
  triple (fun s => reserved_by taken r s /\ held_until a t s) (consider_all enabled_ports ds configs r)
    (fun _ => held_until a t) (held_until a t).
Proof.
  intros Hc. revert r. induction Hc as [|config configs Hok Hc IH]; intros r; cbn.
  - apply triple_ret. by intros s [].
  - eapply triple_bind with (R := fun r' s => reserved_by taken r' s /\ held_until a t s); [|intros r'; apply IH].
    eapply triple_weaken with (P' := fun s => reserved_by taken r s /\ held_until a t s);
      [apply (triple_and _ _ (fun r' => reserved_by taken r') (fun _ => held_until a t) (inv taken) (held_until a t))
      |done|done|by intros s []].
    + eapply triple_weaken; [apply (consider_triple taken enabled_ports ds config r Hok)| |done|done]. by intros s [].
    + eapply triple_weaken; [apply (consider_held a t taken enabled_ports ds config r)| |done|done].
      intros s [[Hi _] Hs]. exact (conj Hi Hs).
Qed.

(** ** The turns *)

Definition inv_held (a : string) (t : Z) s : Prop := inv [] s /\ held_until a t s.

Lemma inv_held_steady a t : steady (inv_held a t).
Proof. apply steady_and; [apply inv_steady|apply held_until_steady]. Qed.

(** Commands keep what changing the status of a worker and the queue keeps. *)
Section Service.
Context (I : Sup -> Prop) (HI : steady I) (db_path : string).
Context (Hstatus : forall id f s, I s -> I (update_worker id (fun w => put_status (f w) w) s)).
Context (Hpipe : forall p s, I s -> I (put_pipe p s)).

Lemma connected_keeps w : preserves (keeps I) (worker_is_connected (W := W) w).
Proof.
  unfold worker_is_connected. pose proof (win_load_keeps I HI w_done w). pose proof (win_load_keeps I HI w_stop_requested w).
  solve_preserves.
Qed.
#[local] Hint Resolve connected_keeps preserves_lift : preserves.

Lemma own_command_keeps_any command : preserves (keeps I) (handle_own_command (W := W) command).
Proof.
  unfold handle_own_command. apply preserves_bind; [apply _|apply preserves_lift, _|]. intros fields.
  apply preserves_bind; [apply _|apply preserves_lift, _|]. intros cmd. case_decide.
  - apply preserves_bind; [apply _| |intros; apply preserves_ret, _]. unfold build_status_json.
    apply preserves_bind; [apply _|apply preserves_get, _|]. intros s. apply preserves_bind; [apply _| |solve_preserves].
    apply preserves_mapM; [apply _|]. intros w. unfold status_line.
    pose proof (fun A (f : BridgeWorker -> A) => win_load_keeps I HI f w). solve_preserves.
  - case_decide; [|apply preserves_ret, _]. apply preserves_bind; [apply _|apply preserves_lift, _|]. intros param.
    apply preserves_bind; [apply _|apply preserves_lift, _|]. intros value.
    apply preserves_bind; [apply _| |solve_preserves]. unfold handle_set.
    case_decide; [|case_decide; [|apply preserves_ret, _]].
    + apply preserves_bind; [apply _|by apply (frame_keeps I HI), frame_modify|]. intros _. solve_preserves.
    + apply preserves_bind; [apply _|apply preserves_get, _|]. intros s. apply preserves_bind; [apply _| |solve_preserves].
      generalize (workers s). intros ws. induction ws as [|w ws IH]; cbn; [apply preserves_ret, _|].
      apply preserves_bind; [apply _|apply connected_keeps|]. intros b. apply preserves_bind; [apply _| |done].
      destruct b; [|apply preserves_ret, _]. apply preserves_modify. intros s1 Hs1. by apply Hstatus.
Qed.

Lemma command_keeps_any command : preserves (keeps I) (handle_supervisor_control_command (W := W) db_path command).
Proof.
  unfold handle_supervisor_control_command. apply preserves_bind; [apply _| |].
  { apply preserves_catch; [apply _|apply own_command_keeps_any|]. intros. apply preserves_ret, _. }
  intros [reply|]; [apply preserves_ret, _|]. apply preserves_bind; [apply _|apply preserves_get, _|]. intros s.
  apply preserves_bind; [apply _|apply preserves_mapM; [apply _|]; intros w; unfold controller_status; solve_preserves|]. intros ?.
  apply preserves_bind; [apply _|apply preserves_mapM; [apply _|]; intros p; unfold port_candidate; solve_preserves|]. intros ?.
  apply preserves_bind; [apply _|apply preserves_collect; [apply _|]; intros w; unfold port_binding; solve_preserves|]. intros ?.
  apply (frame_keeps I HI), on_control_frame.
Qed.

Lemma service_keeps : preserves (keeps I) (service_ready (W := W) db_path).
Proof.
  unfold service_ready. apply preserves_bind; [apply _|apply preserves_get, _|]. intros s.
  generalize (S (length (requests (pipe s)) + length (concat (happenings s)))). clear s. intros fuel.
  induction fuel as [|fuel IH]; cbn [service_loop]; [apply preserves_ret, _|].
  apply preserves_bind; [apply _| |intros [[id text]|]; [|apply preserves_ret, _]].
  - unfold take_request. apply preserves_bind; [apply _|by apply observe_keeps|]. intros _.
    apply preserves_bind; [apply _|apply preserves_get, _|]. intros s. case_match;
      (apply preserves_bind; [apply _| |intros _; apply preserves_ret, _]); apply preserves_modify; intros s1 Hs1; by apply Hpipe.
  - apply preserves_bind; [apply _| |].
    + case_decide; [apply preserves_ret, _|]. apply command_keeps_any.
    + intros reply. apply preserves_bind; [apply _| |by intros _]. apply preserves_modify. intros s Hs. by apply Hpipe.
Qed.
End Service.

Lemma held_until_status a t id f s :
  held_until a t s -> held_until a t (update_worker id (fun w => put_status (f w) w) s).
Proof.
  intros [Hp|[P1 P2]]; [by left|right]. split; [|done]. cbn. rewrite <- list_fmap_compose.
  replace ((w_address ∘ _) <$> workers s) with (w_address <$> workers s); [done|].
  apply list_fmap_ext. intros i w _. cbn. by case_decide.
Qed.

Lemma held_turn_safe a t db_path : turn_safe (inv_held a t) db_path.
Proof.
  destruct (inv_turn_safe (W := W) db_path) as [S1 S2 S3 S4 S5]. split.
  - intros id s [Hs Hh]. split; [by apply S1|]. destruct Hh as [Hp|[P1 P2]]; [by left|right]. split; [|done].
    cbn. rewrite <- list_fmap_compose. replace ((w_address ∘ _) <$> workers s) with (w_address <$> workers s); [done|].
    apply list_fmap_ext. intros i w _. cbn. by case_decide.
  - intros s [Hs Hh]. split; [by apply S2|by apply reap_held_until].
  - intros enabled ds configs s [Hs Hh] Hc. split; [by apply S3|].
    pose proof (consider_all_held a t [] enabled ds configs _ Hc s (conj (conj Hs eq_refl) Hh)) as Ht.
    by destruct (consider_all _ _ _ _ s) as [s1 [x|e]].
  - intros s [Hs Hh]. split; [by apply S4|]. revert s Hh Hs. intros s Hh _.
    by apply (service_keeps _ (held_until_steady a t) db_path (held_until_status a t)).
  - intros s [Hs Hh]. split; [by apply S5|done].
Qed.

(** ** A failed worker *)

(** The worker with the number has failed: it is done and left an error. *)
Definition has_failed (id : nat) (a : string) (w : BridgeWorker) : Prop :=
  worker_id w = id /\ w_address w = a /\ w_done w = true /\ w_stage w <> InSession /\ w_last_error w <> "".
Definition failed_at (t0 : Z) (id : nat) (a : string) s : Prop :=
  inv [] s /\ t0 <= steady_now s /\ exists w, w ∈ workers s /\ has_failed id a w.

Lemma progress_elem (P : BridgeWorker -> Prop) ws ws' w :
  Forall2 progress ws ws' -> (forall w', progress w w' -> P w') -> w ∈ ws -> exists w', w' ∈ ws' /\ P w'.
Proof.
  intros Hf HP [i Hi]%list_elem_of_lookup. destruct (Forall2_lookup_l _ _ _ _ _ Hf Hi) as (w' & Hi' & Hp).
  exists w'. split; [by apply list_elem_of_lookup_2 in Hi'|auto].
Qed.

Lemma failed_steady t0 id a : steady (failed_at t0 id a).
Proof.
  apply steady_and; [apply inv_steady|]. apply steady_and; [apply passed_steady|]. split.
  - by intros s s' [-> _ _ _ _ _].
  - intros h s (w & Hw & P1 & P2 & P3 & P4 & P5).
    destruct (progress_elem (has_failed id a) _ _ w (beside_workers _ _ (happen_beside h s))) as (w' & Hw' & Hf); [|done|by exists w'].
    intros w' [Hi Hd Ho]. destruct (identity_members _ _ Hi) as (E1 & E2 & _). destruct (Ho P4) as [P4' P5'].
    split_and!; [congruence|congruence|by apply Hd|done|congruence].
Qed.

Lemma worker_of_unique s w : NoDup (worker_id <$> workers s) -> w ∈ workers s -> worker_of (worker_id w) s = Some w.
Proof.
  unfold worker_of, find_first. generalize (workers s). intros ws. induction ws as [|v ws IH]; [by intros _ ?%elem_of_nil|].
  rewrite fmap_cons. intros [Hn Hnd]%NoDup_cons [->|Hin]%elem_of_cons; cbn.
  - rewrite decide_True; [done|]. by rewrite bool_decide_eq_true_2.
  - rewrite decide_False.
    + specialize (IH Hnd Hin). destruct (list_find _ ws) as [[i x]|]; [done|discriminate].
    + rewrite bool_decide_eq_true. intros He. apply Hn. rewrite He. by apply list_elem_of_fmap_2.
Qed.

(** What is read of it. *)
Lemma load_failed {A} (f : BridgeWorker -> A) w t0 a :
  triple (failed_at t0 (worker_id w) a) (load (W := W) f w)
    (fun x s => failed_at t0 (worker_id w) a s /\ exists v, has_failed (worker_id w) a v /\ x = f v) (fun _ => False).
Proof.
  intros s Hs. pose proof (observe_keeps _ (failed_steady t0 (worker_id w) a) s Hs) as Ho.
  unfold load, mbind, prog_bind. assert (exists s1, observe s = (s1, Ok ())) as [s1 Eo].
  { unfold observe. destruct (happenings s); eauto. }
  rewrite Eo in *. cbn [fst get_state mret prog_ret] in *. split; [done|]. destruct Ho as ([Hok _] & _ & v & Hv & Hf).
  exists v. split; [done|]. destruct Hf as [<- _]. by rewrite (worker_of_unique s1 v (ok_nodup _ Hok) Hv).
Qed.

(** Recording a failure of another address and erasing another worker leaves it as it is. *)
Lemma failed_record t0 id a b t s :
  failed_at t0 id a s ->
  failed_at t0 id a (put_worker_failure_backoffs (record_vdsd_worker_failure (worker_failure_backoffs s) b t) s).
Proof. intros ([Hok Hp] & Ht & Hw). split; [split; [by apply record_failure_ok|done]|done]. Qed.
Lemma failed_erase t0 id a id' s :
  id' <> id -> failed_at t0 id a s ->
  failed_at t0 id a (put_workers (erase_if (fun v => bool_decide (worker_id v = id')) (workers s)) s).
Proof.
  intros Hne ([Hok Hp] & Ht & w & Hw & Hf). split; [split; [by apply erase_ok|done]|]. split; [done|]. exists w.
  split; [|done]. cbn. apply list_elem_of_filter. split; [|done]. rewrite bool_decide_eq_false. by destruct Hf as [-> _].
Qed.

Lemma kept_triple {A} (I : Sup -> Prop) (m : prog Sup A) : preserves (keeps I) m -> triple I m (fun _ => I) (fun _ => True).
Proof. intros Hm. eapply triple_weaken; [by apply triple_keeps|done..]. Qed.

Lemma same_element {A B} (f : A -> B) l x y : NoDup (f <$> l) -> x ∈ l -> y ∈ l -> f x = f y -> x = y.
Proof.
  intros Hn [i Hi]%list_elem_of_lookup [j Hj]%list_elem_of_lookup He.
  assert (i = j) as ->; [|congruence].
  eapply NoDup_lookup; [exact Hn| |]; rewrite list_lookup_fmap; [by rewrite Hi|by rewrite Hj, He].
Qed.

(** From the record on. *)
Lemma reap_failed_here t0 w a ws b :
  w_address w = a -> a ∉ w_address <$> ws ->
  triple (failed_at t0 (worker_id w) a) (reap (W := W) (w :: ws) b)
    (fun _ s => exists t, t0 + kBridgeWorkerFailureRetryDelay <= t /\ held a t s) (fun _ => True).
Proof.
  intros Ha Hn. cbn [reap].
  eapply triple_bind; [eapply triple_weaken; [apply load_failed|done..]|]. intros done.
  apply triple_start. intros s0 (Hs0 & v & Hv & ->). destruct Hv as (_ & _ & -> & _).
  apply triple_weaken with (P' := failed_at t0 (worker_id w) a)
    (Q' := fun _ s => exists t, t0 + kBridgeWorkerFailureRetryDelay <= t /\ held a t s) (E' := fun _ => True);
    [|by intros s ->|done|done]. clear s0 Hs0 v.
  eapply triple_bind; [eapply triple_weaken; [apply load_failed|done..]|]. intros error.
  apply triple_start. intros s0 (Hs0 & v & Hv & ->). destruct Hv as (_ & _ & _ & _ & He). rewrite decide_False by done.
  apply triple_bind with (R := fun _ s => exists t, t0 + kBridgeWorkerFailureRetryDelay <= t /\
    backoff_map (worker_failure_backoffs s) !! a = Some t /\ failed_at t0 (worker_id w) a s).
  { apply triple_bind with (R := fun now s => failed_at t0 (worker_id w) a s /\ now = steady_now s).
    - intros s ->. pose proof (clock_keeps _ (failed_steady t0 (worker_id w) a) s0 Hs0) as Hc.
      unfold clock_now, observe, mbind, prog_bind in *. by destruct (happenings s0).
    - intros now. apply triple_modify. intros s [Hs ->]. exists (steady_now s + kBridgeWorkerFailureRetryDelay).
      split; [destruct Hs as (_ & Ht & _); lia|]. split; [|by apply failed_record].
      change (backoff_map (record_vdsd_worker_failure (worker_failure_backoffs s) (w_address w)
        (steady_now s + kBridgeWorkerFailureRetryDelay)) !! a = Some (steady_now s + kBridgeWorkerFailureRetryDelay)).
      by rewrite record_map, Ha, lookup_insert_eq. }
  intros []. apply triple_bind with (R := fun _ s => exists t, t0 + kBridgeWorkerFailureRetryDelay <= t /\ held a t s).
  { apply triple_modify. intros s (t & Ht & Hb & ([Hok _] & _ & u & Hu & Hf)). exists t. split; [done|]. split; [|done].
    cbn. intros (x & Hx & [Hne Hin]%list_elem_of_filter)%list_elem_of_fmap.
    apply bool_decide_eq_false in Hne. apply Hne. destruct Hf as (Hid & Hua & _). rewrite <- Hid.
    f_equal. apply (same_element w_address (workers s)); [by apply Hok|done|done|congruence]. }
  intros []. intros s (t & Ht & Hh). pose proof (reap_held a t ws true Hn s Hh) as Hr.
  destruct (reap ws true s) as [s1 [x|e]]; [|done]. eauto.
Qed.

Lemma reap_failed t0 a w ws b :
  w ∈ ws -> w_address w = a -> NoDup (worker_id <$> ws) -> NoDup (w_address <$> ws) ->
  triple (failed_at t0 (worker_id w) a) (reap (W := W) ws b)
    (fun _ s => exists t, t0 + kBridgeWorkerFailureRetryDelay <= t /\ held a t s) (fun _ => True).
Proof.
  intros Hw Ha. revert b. induction ws as [|v ws IH]; [by apply elem_of_nil in Hw|]. rewrite !fmap_cons.
  intros b [Hi Hids]%NoDup_cons [Hv Has]%NoDup_cons. apply elem_of_cons in Hw as [->|Hw].
  { apply reap_failed_here; [done|]. by rewrite <- Ha. }
  assert (worker_id v <> worker_id w) as Hne.
  { intros E. apply Hi. rewrite E. by apply list_elem_of_fmap_2. }
  pose proof (fun b => IH Hw b Hids Has) as IH'. pose proof (failed_steady t0 (worker_id w) a) as Hst. cbn [reap].
  eapply triple_bind; [apply kept_triple; by apply win_load_keeps|]. intros [|]; [|apply IH'].
  eapply triple_bind; [apply kept_triple; by apply win_load_keeps|]. intros error.
  apply triple_bind with (R := fun _ => failed_at t0 (worker_id w) a);
    [apply kept_triple|intros _; apply triple_bind with (R := fun _ => failed_at t0 (worker_id w) a);
      [apply kept_triple|intros _; apply IH']].
  - case_decide; [apply preserves_ret, _|]. apply preserves_bind; [apply _|by apply clock_keeps|]. intros now.
    apply preserves_modify. intros s Hs. by apply failed_record.
  - apply preserves_modify. intros s Hs. by apply failed_erase.
Qed.

Lemma load_returns {A} (f : BridgeWorker -> A) w s : exists s1 a, load (W := W) f w s = (s1, Ok a).
Proof. unfold load, observe, mbind, prog_bind. destruct (happenings s); cbn; eauto. Qed.
Lemma bind_returns {A B} (m : prog Sup A) (f : A -> prog Sup B) :
  (forall s, exists s1 a, m s = (s1, Ok a)) -> (forall a s, exists s1 b, f a s = (s1, Ok b)) ->
  forall s, exists s1 b, (m ≫= f) s = (s1, Ok b).
Proof. intros Hm Hf s. destruct (Hm s) as (s1 & a & E). unfold mbind, prog_bind. rewrite E. apply Hf. Qed.
Lemma reap_returns ws b s : exists s1 b1, reap (W := W) ws b s = (s1, Ok b1).
Proof.
  revert b s. induction ws as [|w ws IH]; intros b; cbn [reap]; [intros s; by eexists _, _|].
  apply bind_returns; [apply load_returns|]. intros [|]; [|apply IH].
  apply bind_returns; [apply load_returns|]. intros error. apply bind_returns; [|intros _; apply bind_returns; [|intros _; apply IH]].
  - case_decide; [intros s; by eexists _, _|]. apply bind_returns; [|intros now s; by eexists _, _].
    intros s. unfold clock_now, observe, mbind, prog_bind. destruct (happenings s); by eexists _, _.
  - intros s. by eexists _, _.
Qed.

(** After the turn that finds a failed worker, its address is held. *)
Lemma turn_holds db_path s w :
  inv [] s -> w ∈ workers s -> w_done w = true -> w_last_error w <> "" ->
  exists t, steady_now s + kBridgeWorkerFailureRetryDelay <= t /\ inv_held (w_address w) t (supervisor_turn db_path s).1.
Proof.
  intros Hs Hw Hd He. pose proof Hs as [Hok _]. assert (failed_at (steady_now s) (worker_id w) (w_address w) s) as Hf.
  { split; [done|]. split; [lia|]. exists w. split; [done|]. pose proof (ok_threads s Hok) as Ht.
    rewrite Forall_forall in Ht. destruct (Ht w Hw) as [Hst _]. split_and!; try done.
    intros E. rewrite E in Hst. congruence. }
  unfold supervisor_turn, get_state. unfold mbind at 1, prog_bind at 1. unfold mbind at 1, prog_bind at 1.
  pose proof (reap_failed _ _ w (workers s) false Hw eq_refl (ok_nodup s Hok) (ok_addresses s Hok) s Hf) as Hr.
  pose proof (reap_keeps [] (workers s) false s Hs) as Hi.
  destruct (reap_returns (workers s) false s) as (s1 & removed & E). rewrite E in *. cbn [fst] in Hi.
  destruct Hr as (t & Ht & Hh). exists t. split; [done|].
  pose proof (scan_if_due_keeps _ (inv_held_steady (w_address w) t) db_path (held_turn_safe _ t db_path) removed) as K1.
  pose proof (plan_wait_keeps _ (inv_held_steady (w_address w) t) db_path (held_turn_safe _ t db_path)) as K2.
  assert (preserves (keeps (inv_held (w_address w) t)) (_ ← scan_if_due db_path removed; plan_wait db_path)) as K.
  { apply preserves_bind; [apply _|exact K1|]. by intros _. }
  apply (K s1). split; [done|by right].
Qed.
End Retry.
