(* ===== verification/WinSupStarve.v ===== *)
(** What a scan of the supervisor of the Windows daemon reads and leaves alone: the database
    file, the answered commands, and a backoff whose controller is not in the database. *)
From stdpp Require Import base list strings numbers gmap.
From Stdlib Require Import Ascii ZArith Lia.
From S2P Require Import Prelude Text Words Common Log Store Config ConfigFacts ConfigFile Control ControlFacts Supervisor MicBuffer.
From S2P Require Import WinIo WinState WinDevices WinSupervisor WinLoop WinSupInv WinSupFacts WinSupRetry Threads.

Local Open Scope Z_scope.

Section Scan.
Context {W : Type} `{FileStoreLaws W} `{WinSystem} `{FloatText}.
Abbreviation Sup := (Supervisor (W := W)).
Implicit Types s : Sup.
Context (db_path : string).

(** ** The text of the database *)

Definition file_text s : string := text_of (world s).1 db_path.
Definition same_db s s' : Prop := file_text s' = file_text s.
#[export] Instance same_db_preorder : PreOrder same_db.
Proof. unfold same_db. split; [by intros s|]. intros s1 s2 s3. congruence. Qed.

Lemma modify_db f : (forall s, (world (f s)).1 = (world s).1) -> preserves same_db (modify f : prog Sup unit).
Proof. intros Hf s. unfold same_db, file_text. cbn. by rewrite Hf. Qed.
Lemma observe_db : preserves same_db (observe (W := W)).
Proof. intros s. unfold same_db, file_text. by rewrite (beside_world _ _ (observe_beside s)). Qed.
Lemma on_devices_db {A} (m : prog Devices A) : preserves same_db (on_devices (W := W) m).
Proof. intros s. unfold on_devices. by destruct (m _) as [d r]. Qed.
Lemma on_change_db {A} (m : ChangeWait -> ChangeWait * A) : preserves same_db (on_change (W := W) m).
Proof. intros s. unfold on_change. by destruct (m _) as [c a]. Qed.
Lemma call_db {A} (get : Calls -> list (option A)) put : preserves same_db (call (W := W) get put).
Proof. by intros s. Qed.
Lemma log_db level message : preserves same_db (log (W := W) level message).
Proof. by apply modify_db. Qed.
Lemma set_flag_db f b : preserves same_db (set_flag (W := W) f b).
Proof. by apply modify_db. Qed.
Lemma set_reload_db b : preserves same_db (set_reload_requested (W := W) b).
Proof. by apply modify_db. Qed.
Lemma flag_db f : preserves same_db (flag (W := W) f).
Proof. by intros s. Qed.
Lemma clock_db : preserves same_db (clock_now (W := W)).
Proof. unfold clock_now. pose proof observe_db. solve_preserves. Qed.
Lemma load_db {A} (f : BridgeWorker -> A) w : preserves same_db (load (W := W) f w).
Proof. unfold load. pose proof observe_db. solve_preserves. Qed.
Lemma discovery_warn_db key state :
  preserves same_db (warn_state (W := W) discovery_warned_states put_discovery_warned_states key state).
Proof. intros s. unfold warn_state. by destruct (remember_vdsd_warning_state _ _ _). Qed.
Lemma binding_warn_db key state :
  preserves same_db (warn_state (W := W) port_binding_warned_states put_port_binding_warned_states key state).
Proof. intros s. unfold warn_state. by destruct (remember_vdsd_warning_state _ _ _). Qed.
#[local] Hint Resolve observe_db on_devices_db on_change_db call_db log_db set_flag_db set_reload_db flag_db
  clock_db load_db discovery_warn_db binding_warn_db preserves_lift : preserves.
#[local] Hint Extern 1 (preserves same_db (modify _)) => (by apply modify_db) : preserves.

(** Loading leaves the text alone, and what it gives is what the text says. *)
Lemma load_config_spec s s' r :
  on_control (load_config_db db_path) s = (s', r) ->
  same_db s s' /\ forall db, r = Ok db -> parse_config_db (file_text s) = Ok db.
Proof.
  unfold on_control. destruct (load_config_db db_path _) as [[w v] r'] eqn:E. intros [= <- <-].
  apply load_inv in E as [Hs Hp]. split; [exact (same_text _ _ _ Hs)|exact Hp].
Qed.

Lemma load_database_db : preserves same_db (load_database (W := W) db_path).
Proof.
  unfold load_database. apply preserves_bind; [apply _| |].
  - intros s. destruct (on_control _ s) as [s' r] eqn:E. by apply load_config_spec in E as [Hs _].
  - intros db. solve_preserves.
Qed.
Lemma load_database_parses s s' db : load_database db_path s = (s', Ok db) -> parse_config_db (file_text s) = Ok db.
Proof.
  unfold load_database. intros (s1 & db' & Hl & Hr)%prog_bind_ok.
  apply prog_bind_ok in Hr as (s2 & logged & _ & Hr). apply prog_bind_ok in Hr as (s3 & s4 & _ & Hr).
  apply prog_bind_ok in Hr as (s5 & [] & _ & Hr). injection Hr as _ ->.
  apply load_config_spec in Hl as [_ Hp]. by apply Hp.
Qed.

Lemma cancel_db : preserves same_db (cancel (W := W)).
Proof. unfold cancel. solve_preserves. Qed.
Lemma arm_db : preserves same_db (arm (W := W)).
Proof. unfold arm. solve_preserves. Qed.
#[local] Hint Resolve cancel_db arm_db : preserves.

Lemma reap_db ws b : preserves same_db (reap (W := W) ws b).
Proof. revert b. induction ws as [|w ws IH]; intros b; cbn [reap]; solve_preserves. Qed.

Lemma consume_db a : preserves same_db (consume_retry (W := W) a).
Proof.
  unfold consume_retry. apply preserves_bind; [apply _|apply clock_db|]. intros now.
  apply preserves_bind; [apply _|apply preserves_get, _|]. intros s. destruct (consume_vdsd_worker_retry _ _ _) as [bs r].
  solve_preserves.
Qed.
Lemma start_worker_db config launch : preserves same_db (start_worker (W := W) config launch).
Proof. unfold start_worker. solve_preserves. Qed.
Lemma follow_db config launch r : preserves same_db (follow_decision (W := W) config launch r).
Proof.
  unfold follow_decision, rejected. pose proof (start_worker_db config launch). solve_preserves.
Qed.
Lemma consider_all_db enabled ds configs r : preserves same_db (consider_all (W := W) enabled ds configs r).
Proof.
  revert r. induction configs as [|config configs IH]; intros r; cbn [consider_all]; [solve_preserves|].
  apply preserves_bind; [apply _| |done]. unfold consider, binding_unavailable, connect_controller.
  pose proof (consume_db (address config)). pose proof follow_db. solve_preserves.
Qed.
Lemma retire_all_db db ws : preserves same_db (retire_all (W := W) db ws).
Proof. induction ws as [|w ws IH]; cbn [retire_all]; unfold retire; solve_preserves. Qed.

Lemma scan_db : preserves same_db (scan (W := W) db_path).
Proof.
  unfold scan, check_ports, check_filter, take_snapshot, log_version. pose proof load_database_db.
  pose proof retire_all_db. pose proof consider_all_db. solve_preserves.
Qed.

Lemma any_expired_db bs : preserves same_db (any_expired (W := W) bs).
Proof. induction bs; cbn [any_expired]; solve_preserves. Qed.
Lemma scan_if_due_db removed : preserves same_db (scan_if_due (W := W) db_path removed).
Proof. unfold scan_if_due, run_scan. pose proof scan_db. pose proof any_expired_db. solve_preserves. Qed.

(** ** A backoff that has expired, of a controller that is not in the database *)

Definition overdue (a : string) (t : Z) s : Prop := t <= steady_now s /\ held a t s.
(** Nothing more has been answered. *)
Definition quiet (r : list (nat * string)) s : Prop := pipe_stopped (pipe s) = false /\ replied (pipe s) = r.
Definition stuck (a : string) (t : Z) (r : list (nat * string)) s : Prop := overdue a t s /\ quiet r s.

Lemma quiet_steady r : steady (quiet r).
Proof.
  split; [by intros s s' [_ _ _ Hp _ _]; unfold quiet; rewrite Hp|]. intros h s [Hp Hr].
  destruct (beside_pipe _ _ (happen_beside h s)) as [H1' H2']. split; [congruence|]. rewrite <- Hr. by apply H2'.
Qed.
Lemma stuck_steady a t r : steady (stuck a t r).
Proof. apply steady_and; [apply steady_and; [apply passed_steady|apply held_steady]|apply quiet_steady]. Qed.

Lemma reap_stuck a t r s b ws :
  a ∉ w_address <$> ws -> stuck a t r s -> stuck a t r (reap (W := W) ws b s).1.
Proof.
  intros Ha [[Hp Hh] Hq]. split; [split; [by apply reap_passed|by apply reap_held]|].
  revert Hq. apply reap_keeps_if; [apply quiet_steady|done|done].
Qed.

Lemma consume_stuck a t r taken c :
  c <> a -> triple (fun s => inv taken s /\ stuck a t r s) (consume_retry (W := W) c) (fun _ => stuck a t r) (stuck a t r).
Proof.
  intros Hne. unfold consume_retry.
  eapply triple_bind; [eapply triple_weaken; [apply triple_keeps, clock_keeps, (steady_and _ _ (inv_steady taken) (stuck_steady a t r))|done|done|by intros s []]|].
  intros now. apply triple_get. intros s0 [[[] _] [[Hp [Ha Hb]] Hq]].
  destruct (consume_vdsd_worker_retry _ c now) as [bs b] eqn:E. apply consume_spec in E as (_ & _ & Hc); [|done].
  apply triple_bind with (R := fun _ => stuck a t r); [|intros []; by apply triple_ret].
  apply triple_modify. intros s ->. split; [|done]. split; [done|]. split; [done|].
  change (backoff_map bs !! a = Some t). destruct (backoff_map (worker_failure_backoffs s0) !! c) as [t'|].
  - destruct (now <? t'); destruct Hc as [_ Hm]; [by subst bs|]. by rewrite Hm, lookup_delete_ne.
  - by destruct Hc as [_ ->].
Qed.

Lemma start_stuck a t r config launch :
  address config <> a -> preserves (keeps (stuck a t r)) (start_worker (W := W) config launch).
Proof.
  intros Hne. pose proof (stuck_steady a t r) as Hst. unfold start_worker.
  apply preserves_bind; [apply _|apply (frame_keeps _ Hst), call_frame|]. intros [e|]; [apply preserves_throw, _|].
  apply preserves_bind; [apply _|apply (frame_keeps _ Hst), call_frame|]. intros [e|]; [apply preserves_throw, _|].
  apply preserves_bind; [apply _|apply (frame_keeps _ Hst), log_frame|]. intros _.
  apply preserves_modify. intros s [[Hp [Ha Hb]] Hq]. split; [|done]. split; [done|]. split; [|done]. cbn.
  rewrite fmap_app. intros [Hin|Hin]%elem_of_app; [done|]. apply list_elem_of_singleton in Hin. done.
Qed.

Lemma consider_stuck a t r taken enabled_ports ds config (res : reserved) :
  address config <> a ->
  triple (fun s => inv taken s /\ stuck a t r s) (consider enabled_ports ds config res)
    (fun _ => stuck a t r) (stuck a t r).
Proof.
  intros Hne. rewrite consider_place. eapply triple_bind; [by apply consume_stuck|]. intros retry.
  destruct retry; cbn [negb]; [|by apply triple_ret].
  apply triple_keeps, place_keeps; [apply stuck_steady|]. intros launch _. by apply start_stuck.
Qed.

Lemma consider_all_stuck a t r taken enabled_ports ds configs (res : reserved) :
  Forall config_ok configs -> a ∉ address <$> configs ->
  triple (fun s => reserved_by taken res s /\ stuck a t r s) (consider_all enabled_ports ds configs res)
    (fun _ => stuck a t r) (stuck a t r).
Proof.
  intros Hc. revert res. induction Hc as [|config configs Hok Hc IH]; intros res Ha; cbn.
  - apply triple_ret. by intros s [].
  - rewrite fmap_cons, not_elem_of_cons in Ha. destruct Ha as [Hne Ha].
    eapply triple_bind with (R := fun r' s => reserved_by taken r' s /\ stuck a t r s); [|intros r'; by apply IH].
    eapply triple_weaken with (P' := fun s => reserved_by taken res s /\ stuck a t r s);
      [apply (triple_and _ _ (fun r' => reserved_by taken r') (fun _ => stuck a t r) (inv taken) (stuck a t r))
      |done|done|by intros s []].
    + eapply triple_weaken; [apply (consider_triple taken enabled_ports ds config res Hok)| |done|done]. by intros s [].
    + eapply triple_weaken; [apply (consider_stuck a t r taken enabled_ports ds config res)| |done|done]; [congruence|].
      intros s [[Hi _] Hs]. exact (conj Hi Hs).
Qed.

(** *** The turn *)

Definition db_lacks (a : string) s : Prop := file_map (world s).1 db_path !! a = None.
Lemma db_lacks_same a s s' : same_db s s' -> db_lacks a s -> db_lacks a s'.
Proof. unfold same_db, file_text, db_lacks, file_map. by intros ->. Qed.

Lemma absent_record a db : db_map db !! a = None -> a ∉ address <$> controllers db.
Proof. rewrite db_map_lookup, fmap_None. apply find_by_normalized_None. Qed.

Definition waiting_stuck (a : string) (t : Z) (r : list (nat * string)) s : Prop := inv [] s /\ stuck a t r s.

Section Stuck.
Context (a : string) (t : Z) (r : list (nat * string)).
Abbreviation K := (waiting_stuck a t r).

Lemma K_steady : steady K.
Proof. apply steady_and; [apply inv_steady|apply stuck_steady]. Qed.

Lemma K_stop id s : K s -> K (update_worker id (put_stop true) s).
Proof.
  intros [[Hok Hp] [[Ht [Ha Hb]] Hq]]. split; [split; [by apply stop_ok|done]|]. split; [|done]. split; [done|].
  split; [|done]. cbn. rewrite <- list_fmap_compose. replace ((w_address ∘ _) <$> workers s) with (w_address <$> workers s); [done|].
  apply list_fmap_ext. intros i w _. cbn. by case_decide.
Qed.

Lemma K_then {A B} (m : prog Sup A) (k : A -> prog Sup B) (P : Prop) :
  preserves (keeps K) m -> (forall x, triple (fun s => K s /\ P) (k x) (fun _ => K) K) ->
  triple (fun s => K s /\ P) (m ≫= k) (fun _ => K) K.
Proof.
  intros Hm Hk. eapply triple_bind with (R := fun _ s => K s /\ P); [|exact Hk].
  intros s [Hs HP]. specialize (Hm s Hs). by destruct (m s) as [s1 [x|e]].
Qed.

Lemma scan_stuck : triple (fun s => K s /\ db_lacks a s) (scan db_path) (fun _ => K) K.
Proof.
  unfold scan. pose proof K_steady as HK.
  eapply triple_bind with (R := fun db s => K s /\ (db_ok db /\ a ∉ address <$> controllers db)).
  { intros s [Hs Hl]. pose proof (frame_keeps K HK _ (load_database_frame db_path) s Hs) as Hk.
    destruct (load_database db_path s) as [s1 [db|e]] eqn:E; [|done]. split; [done|].
    pose proof (load_database_parses s s1 db E) as Hp. split; [by apply parse_db_ok in Hp|]. apply absent_record.
    unfold db_lacks, file_map in Hl. unfold file_text in Hp. by rewrite Hp in Hl. }
  intros db. apply K_then; [apply (frame_keeps K HK), check_ports_frame|]. intros enabled.
  apply K_then; [apply (frame_keeps K HK), check_filter_frame|]. intros available.
  apply K_then; [apply (frame_keeps K HK), take_snapshot_frame|]. intros ds.
  apply K_then; [apply preserves_get, _|]. intros s0.
  apply K_then; [apply (retire_all_keeps K HK), K_stop|]. intros [].
  apply triple_get. intros s1 [[Hi Hst] [Hdb Ha]]. intros s ->.
  pose proof (consider_all_stuck a t r [] enabled ds (controllers db) _ (proj1 Hdb) Ha s1 (conj (conj Hi eq_refl) Hst)) as H1'.
  pose proof (consider_all_triple [] enabled ds (controllers db) _ (proj1 Hdb) s1 (conj Hi eq_refl)) as H2'.
  by destruct (consider_all _ _ _ _ s1) as [s2 [x|e]].
Qed.

Lemma surely_frame {A} (m : prog Sup A) : preserves frame m -> (forall s, exists s1 x, m s = (s1, Ok x)) -> surely K m.
Proof.
  intros Hf Hr s Hs. pose proof (frame_keeps K K_steady m Hf s Hs) as Hk. destruct (Hr s) as (s1 & x & E).
  by rewrite E in *.
Qed.
Lemma cancel_returns s : exists s1 x, cancel (W := W) s = (s1, Ok x).
Proof.
  unfold cancel, call, on_change, ask, mbind, prog_bind, get_state, mret, prog_ret. destruct (negb _); [by eexists _, _|].
  repeat (case_match; try (by eexists _, _)).
Qed.

Lemma run_scan_stuck : triple (fun s => K s /\ db_lacks a s) (run_scan db_path) (fun _ => K) (fun _ => False).
Proof.
  unfold run_scan.
  assert (forall A (m : prog Sup A), surely K m -> preserves same_db m ->
    triple (fun s => K s /\ db_lacks a s) m (fun _ s => K s /\ db_lacks a s) (fun _ => False)) as Hm.
  { intros A m Hs Hd s [HKs Hl]. specialize (Hs s HKs). specialize (Hd s).
    destruct (m s) as [s1 [x|e]]; [|done]. split; [done|]. by eapply db_lacks_same. }
  eapply triple_bind; [apply Hm; [apply surely_frame; [apply cancel_frame|apply cancel_returns]|apply cancel_db]|]. intros [].
  eapply triple_bind; [apply Hm; [apply surely_frame; [apply set_flag_frame|intros; by eexists _, _]|apply set_flag_db]|]. intros [].
  eapply triple_bind; [apply Hm; [apply surely_frame; [apply set_flag_frame|intros; by eexists _, _]|apply set_flag_db]|]. intros [].
  eapply triple_catch; [apply scan_stuck|]. intros e. apply surely_frame; [solve_preserves|]. intros s. by eexists _, _.
Qed.

Definition K_db s : Prop := K s /\ db_lacks a s.

Lemma K_db_step {A} (m : prog Sup A) : surely K m -> preserves same_db m -> surely K_db m.
Proof.
  intros Hs Hd s [HKs Hl]. specialize (Hs s HKs). specialize (Hd s).
  destruct (m s) as [s1 [x|e]]; [|done]. split; [done|]. by eapply db_lacks_same.
Qed.

Lemma any_expired_surely bs : surely K_db (any_expired (W := W) bs).
Proof.
  apply K_db_step; [|apply any_expired_db]. induction bs as [|b bs IH]; cbn [any_expired]; [apply surely_ret|].
  apply surely_bind; [|intros now; case_match; [apply surely_ret|done]].
  intros s Hs. pose proof (clock_keeps K K_steady s Hs) as Hc. unfold clock_now, observe, mbind, prog_bind in *.
  by destruct (happenings s).
Qed.

Lemma run_scan_surely : surely K_db (run_scan db_path).
Proof.
  intros s Hs. pose proof (run_scan_stuck s Hs) as Ht.
  assert (same_db s (run_scan db_path s).1) as Hd.
  { unfold run_scan. assert (preserves same_db (run_scan (W := W) db_path)) as Hp; [|apply Hp].
    unfold run_scan. pose proof scan_db. solve_preserves. }
  destruct (run_scan db_path s) as [s1 [x|e]]; [|done]. split; [done|]. destruct Hs as [_ Hl]. by eapply db_lacks_same.
Qed.

Lemma flag_surely f b : surely K_db (set_flag (W := W) f b).
Proof. apply K_db_step; [apply surely_frame; [apply set_flag_frame|intros; by eexists _, _]|apply set_flag_db]. Qed.

Lemma scan_if_due_surely removed : surely K_db (scan_if_due db_path removed).
Proof.
  unfold scan_if_due. apply surely_get. intros s _.
  apply surely_bind; [case_match; [apply flag_surely|apply surely_ret]|]. intros [].
  apply surely_get. intros s1 _. apply surely_bind; [apply any_expired_surely|]. intros expired.
  apply surely_bind; [destruct expired; [apply flag_surely|apply surely_ret]|]. intros [].
  apply surely_bind; [by intros s2 Hs2|]. intros due.
  apply surely_bind; [destruct due; [apply run_scan_surely|apply surely_ret]|]. intros [].
  apply K_db_step; [apply surely_frame; [apply set_reload_frame|intros; by eexists _, _]|apply set_reload_db].
Qed.

Lemma next_retry_le bs b : b ∈ bs -> exists m, next_retry bs = Some m /\ m <= retry_after b.
Proof.
  induction bs as [|c bs IH]; [by intros ?%elem_of_nil|]. cbn. intros [->|Hb]%elem_of_cons.
  - eexists. split; [done|]. destruct (foldr _ None bs); lia.
  - destruct (IH Hb) as (m & Hm & Hle). unfold next_retry in Hm. rewrite Hm. eexists. split; [done|]. lia.
Qed.
Lemma backoff_entry bs u : backoff_map bs !! a = Some u -> exists b, b ∈ bs /\ retry_after b = u.
Proof.
  intros Hb%elem_of_list_to_map_2. apply list_elem_of_fmap in Hb as (b & [= -> ->] & Hb). eauto.
Qed.

(** With an expired backoff there is no wait. *)
Lemma plan_wait_stuck : triple K_db (plan_wait db_path) (fun x s => x = NextTurn /\ K_db s) (fun _ => False).
Proof.
  unfold plan_wait. eapply triple_bind with (R := fun now s => K_db s /\ t <= now).
  { intros s Hs. assert (surely K_db (clock_now (W := W))) as Hc.
    { apply K_db_step; [|apply clock_db]. intros s0 Hs0. pose proof (clock_keeps K K_steady s0 Hs0) as Hc.
      unfold clock_now, observe, mbind, prog_bind in *. by destruct (happenings s0). }
    specialize (Hc s Hs). assert (forall s1 now, clock_now s = (s1, Ok now) -> now = steady_now s1) as Hn.
    { unfold clock_now, observe, mbind, prog_bind. intros s1 now. by destruct (happenings s); intros [= <- <-]. }
    destruct (clock_now s) as [s1 [now|e]]; [|done]. split; [done|]. rewrite (Hn s1 now eq_refl).
    by destruct Hc as [[_ [[Ht _] _]] _]. }
  intros now. eapply triple_bind with (R := fun _ s => K_db s /\ t <= now); [by intros s Hs|]. intros provider.
  apply triple_get. intros s0 [Hs0 Ht]. pose proof Hs0 as [[_ [[_ [_ Hb]] _]] _].
  apply backoff_entry in Hb as (b & Hin & Hr). apply next_retry_le in Hin as (m & Hm & Hle). rewrite Hm.
  destruct (Z.leb_spec m now); [|lia].
  eapply triple_bind with (R := fun _ => K_db); [|intros []; by apply triple_ret].
  eapply triple_weaken; [apply flag_surely|by intros s ->|done|done].
Qed.

Lemma turn_stuck : triple K_db (supervisor_turn db_path) (fun x s => x = NextTurn /\ K_db s) (fun _ => False).
Proof.
  unfold supervisor_turn. apply triple_get. intros s0 Hs0.
  eapply triple_bind with (R := fun _ => K_db).
  { intros s ->. destruct Hs0 as [[Hi Hst] Hl]. pose proof (reap_keeps [] (workers s0) false s0 Hi) as H1'.
    pose proof (reap_stuck a t r s0 false (workers s0) (proj1 (proj2 (proj1 Hst))) Hst) as H2'.
    pose proof (reap_db (workers s0) false s0) as H3'.
    destruct (reap_returns (workers s0) false s0) as (s1 & b & E). rewrite E in *. split; [done|].
    by eapply db_lacks_same. }
  intros removed. eapply triple_bind; [apply scan_if_due_surely|]. intros []. apply plan_wait_stuck.
Qed.

Lemma loop_stuck fuel :
  triple K_db (supervisor_loop fuel db_path)
    (fun x s => K_db s /\ (x = Running \/ x = Stopped /\ g_stop_requested s = true)) (fun _ => False).
Proof.
  induction fuel as [|fuel IH]; cbn [supervisor_loop]; [apply triple_ret; auto|].
  eapply triple_bind with (R := fun x s => K_db s /\ x = g_stop_requested s).
  { intros s Hs. assert (surely K_db (load_stop (W := W))) as Hc.
    { apply K_db_step; [|unfold load_stop; pose proof observe_db; solve_preserves]. intros s0 Hs0.
      pose proof (load_stop_keeps K K_steady s0 Hs0) as Hc. unfold load_stop, observe, mbind, prog_bind in *. by destruct (happenings s0). }
    specialize (Hc s Hs). assert (forall s1 x, load_stop s = (s1, Ok x) -> x = g_stop_requested s1) as Hn.
    { unfold load_stop, observe, mbind, prog_bind. intros s1 x. by destruct (happenings s); intros [= <- <-]. }
    destruct (load_stop s) as [s1 [x|e]]; [|done]. split; [done|]. by apply Hn. }
  intros [|].
  - apply triple_ret. intros s [Hs Hx]. split; [done|]. right. by split.
  - eapply triple_bind with (R := fun x s => x = NextTurn /\ K_db s); [|intros x; apply triple_start].
    + eapply triple_weaken; [apply turn_stuck|by intros s []|done|done].
    + intros s0 [-> Hs0]. eapply triple_weaken; [apply IH|by intros s ->|done|done].
Qed.
End Stuck.
End Scan.
