(* ===== verification/WinSupFollow.v ===== *)
(** How the supervisor of the Windows daemon follows its database: which workers it tells to
    stop, and why a controller has none.  Over USB/IP every port is enabled and available.  At the
    end, the wait of the supervisor. *)
From stdpp Require Import base list strings numbers gmap.
From Stdlib Require Import Ascii ZArith Lia.
From S2P Require Import Prelude Text Words Common Log Store Config ConfigFacts ConfigFile Control ControlFacts Supervisor.
From S2P Require Import MicBuffer WinIo WinState WinDevices WinSupervisor WinLoop WinSupInv WinSupFacts WinSupRetry Threads.
From S2P Require Import WinSupStarve.

Local Open Scope Z_scope.

(** The record of the database a worker was launched for is still there: the profile is the
    same and the port allowed. *)
Definition matches (db : ConfigDb) (w : BridgeWorker) : bool :=
  match db_map db !! w_address w with
  | Some (p, ps) => bool_decide (p = w_profile w) && (bool_decide (ps = []) || bool_decide (port w ∈ ps))
  | None => false
  end.

Lemma stale_matches db w :
  normalize_bluetooth_address (w_address w) = Ok (w_address w) ->
  vdsd_worker_config_is_stale db (w_address w) (w_profile w) (port w) true = Ok (negb (matches db w)).
Proof.
  intros Hn. unfold vdsd_worker_config_is_stale, find_controller_config_by_address, matches. rewrite Hn, db_map_lookup.
  cbn. destruct (find_by_normalized (controllers db) (w_address w)) as [c|]; [|done]. cbn. f_equal.
  unfold controller_config_allows_port. rewrite negb_andb, bool_decide_not, orb_false_r. done.
Qed.

Lemma Forall2_map_r {A B C} (R : A -> B -> Prop) (R' : A -> C -> Prop) (g : B -> C) l k :
  (forall x y, x ∈ l -> R x y -> R' x (g y)) -> Forall2 R l k -> Forall2 R' l (g <$> k).
Proof.
  intros Hg Hr. induction Hr as [|x y l k Hx Hr IH]; [constructor|]. rewrite fmap_cons. constructor.
  - apply Hg; [apply list_elem_of_here|done].
  - apply IH. intros x' y' Hx'. apply Hg. by apply list_elem_of_further.
Qed.

Section Follow.
Context {W : Type} `{FileStoreLaws W} `{WinSystem} `{FloatText}.
Abbreviation Sup := (Supervisor (W := W)).
Implicit Types s : Sup.
Context (Husb : usbip_transport_enabled = true).

Lemma usbip_enabled p d : 0 <= p < kMaxPortCount -> virtual_port_is_enabled p d = (d, Ok true).
Proof. intros Hp. unfold virtual_port_is_enabled. rewrite Husb. destruct (Z.ltb_spec p kMaxPortCount); [done|lia]. Qed.
Lemma usbip_available d : available_virtual_ports d = (d, Ok all_ports).
Proof.
  unfold available_virtual_ports, ports_that, virtual_port_is_available. rewrite Husb. reflexivity.
Qed.
Lemma usbip_enabled_ports d : enabled_virtual_ports d = (d, Ok all_ports).
Proof.
  unfold enabled_virtual_ports, ports_that, virtual_port_is_enabled. rewrite Husb. reflexivity.
Qed.

(** ** Retiring *)

Section Retire.
Context (db : ConfigDb) (ws0 : list BridgeWorker).

(** A worker when the workers with the numbers [told] have been looked at. *)
Definition retired (told : list nat) (w v : BridgeWorker) : Prop :=
  worker_id v = worker_id w /\ w_address v = w_address w /\ w_profile v = w_profile w /\ port v = port w /\
  w_stop_requested v = w_stop_requested w || (bool_decide (worker_id w ∈ told) && negb (matches db w)).
Definition all_retired (told : list nat) s : Prop := Forall2 (retired told) ws0 (workers s).

Lemma all_retired_steady told : steady (all_retired told).
Proof.
  split; [by intros s s' [Hw _ _ _ _ _]; unfold all_retired; rewrite Hw|]. intros h s Hr. pose proof (beside_workers _ _ (happen_beside h s)) as Hb.
  revert Hr Hb. unfold all_retired. generalize (workers s) (workers (happen h s)). intros ws ws' Hr. revert ws'.
  induction Hr as [|w v ws0' ws Hw Hr IH]; intros ws'; [intros Hb; by inversion Hb|].
  intros [v' [ws'' (Hp & Hb & ->)]]%Forall2_cons_inv_l. constructor; [|by apply IH].
  destruct Hp as [Hi _ _]. apply identity_members in Hi. unfold retired in *. intuition congruence.
Qed.

(** Looking at one more. *)
Lemma retire_one told s w :
  NoDup (worker_id <$> ws0) -> w ∈ ws0 -> all_retired told s ->
  all_retired (worker_id w :: told)
    (if matches db w then s else update_worker (worker_id w) (put_stop true) s).
Proof.
  intros Hnd Hw Hr.
  assert (forall v u, v ∈ ws0 -> retired told v u ->
    retired (worker_id w :: told) v
      (if matches db w then u else if decide (worker_id u = worker_id w) then put_stop true u else u)) as Hone.
  { intros v u Hv (E1 & E2 & E3 & E4 & E5). destruct (decide (worker_id v = worker_id w)) as [E|E].
    - assert (v = w) as -> by (by apply (same_element worker_id ws0)).
      unfold retired. rewrite (bool_decide_eq_true_2 (worker_id w ∈ worker_id w :: told)) by apply list_elem_of_here.
      destruct (matches db w) eqn:Em; cbn.
      + split_and!; try done. by rewrite E5, andb_false_r, orb_false_r.
      + rewrite decide_True by done. split_and!; try done. cbn. by rewrite orb_true_r.
    - assert (bool_decide (worker_id v ∈ worker_id w :: told) = bool_decide (worker_id v ∈ told)) as Hb.
      { apply bool_decide_ext. rewrite elem_of_cons. intuition congruence. }
      unfold retired. rewrite Hb. destruct (matches db w); [done|]. by rewrite decide_False by congruence. }
  unfold all_retired in *. destruct (matches db w); cbn.
  - rewrite <- (list_fmap_id (workers s)). revert Hr. by apply Forall2_map_r.
  - revert Hr. by apply Forall2_map_r.
Qed.

(** What is fixed of a worker that [retire] reads. *)
Lemma retire_triple told w :
  NoDup (worker_id <$> ws0) -> w ∈ ws0 -> launch_ok w ->
  triple (all_retired told) (retire db w) (fun _ => all_retired (worker_id w :: told)) (fun _ => False).
Proof.
  intros Hnd Hw (Hp & _ & Hn & _). pose proof (all_retired_steady told) as Hst. unfold retire.
  eapply triple_bind with (R := fun enabled s => all_retired told s /\ enabled = true).
  { intros s Hs. unfold on_devices. rewrite usbip_enabled by done. split; [|done].
    by apply (steady_frame _ Hst s). }
  intros enabled. apply triple_start. intros s0 [Hs0 ->]. rewrite (stale_matches db w Hn).
  eapply triple_bind with (R := fun b s => s = s0 /\ b = negb (matches db w)); [by intros s ->|].
  intros b. apply triple_start. intros s1 [-> ->].
  pose proof (fun s => retire_one told s w Hnd Hw) as Hone.
  destruct (matches db w); cbn [negb].
  { apply triple_ret. intros s ->. by apply Hone. }
  eapply triple_bind with (R := fun _ => all_retired told).
  { eapply triple_weaken; [apply (surely_load (all_retired told) w_stop_requested w Hst)|by intros s ->|done|done]. }
  intros stopping. eapply triple_bind with (R := fun _ => all_retired (worker_id w :: told)).
  { apply triple_modify. intros s Hs. by apply Hone. }
  intros []. destruct stopping; [by apply triple_ret|].
  intros s Hs. by apply (steady_frame _ (all_retired_steady (worker_id w :: told)) s).
Qed.

Lemma retire_all_triple told ws :
  NoDup (worker_id <$> ws0) -> Forall launch_ok ws0 -> (forall w, w ∈ ws -> w ∈ ws0) ->
  triple (all_retired told) (retire_all db ws)
    (fun _ s => exists told', (forall w, w ∈ ws -> worker_id w ∈ told') /\ (forall i, i ∈ told -> i ∈ told') /\
       all_retired told' s) (fun _ => False).
Proof.
  intros Hnd Hl. revert told. induction ws as [|w ws IH]; intros told Hws; cbn [retire_all].
  - apply triple_ret. intros s Hs. exists told. split; [by intros w ?%elem_of_nil|done].
  - assert (w ∈ ws0) as Hw by apply Hws, list_elem_of_here.
    eapply triple_bind; [apply retire_triple; [done|done|]|].
    { rewrite Forall_forall in Hl. by apply Hl. }
    intros []. eapply triple_weaken; [apply (IH (worker_id w :: told))|done| |done].
    { intros v Hv. apply Hws. by apply list_elem_of_further. }
    intros [] s (told' & T1 & T2 & T3). exists told'. split; [|split; [|done]].
    + intros v [->|Hv]%elem_of_cons; [apply T2, list_elem_of_here|auto].
    + intros i Hi. apply T2. by apply list_elem_of_further.
Qed.
End Retire.

(** After all of them were looked at: who was told to stop, and who was not. *)
Lemma retire_workers db s0 :
  inv [] s0 ->
  triple (fun s => s = s0) (retire_all db (workers s0))
    (fun _ s => Forall2 (fun w v => worker_id v = worker_id w /\ w_address v = w_address w /\ w_profile v = w_profile w /\
       port v = port w /\ w_stop_requested v = w_stop_requested w || negb (matches db w)) (workers s0) (workers s))
    (fun _ => False).
Proof.
  intros [Hok _]. eapply triple_weaken; [apply (retire_all_triple db (workers s0) [] (workers s0)); [apply Hok|apply Hok|done]| | |done].
  - intros s ->. unfold all_retired. apply Forall2_same_length_lookup. split; [done|].
    intros i w v Hw Hv. assert (v = w) as -> by congruence. unfold retired. split_and!; try done. cbn. by rewrite orb_false_r.
  - intros [] s (told & Htold & _ & Hr). rewrite <- (list_fmap_id (workers s)). revert Hr. apply Forall2_map_r.
    intros w v Hw (E1 & E2 & E3 & E4 & E5). cbn. split_and!; try done. rewrite E5.
    by rewrite bool_decide_eq_true_2 by auto.
Qed.

(** ** The scan *)

Definition follows (db : ConfigDb) (w : BridgeWorker) : Prop := w_stop_requested w = true \/ matches db w = true.
(** Every worker follows the database, and the workers with the numbers [kept] go on. *)
Definition followed (db : ConfigDb) (kept : list nat) s : Prop :=
  Forall (follows db) (workers s) /\
  Forall (fun i => exists w, w ∈ workers s /\ worker_id w = i /\ w_stop_requested w = false) kept.

Lemma followed_steady db kept : steady (followed db kept).
Proof.
  split; [by intros s s' [Hw _ _ _ _ _]; unfold followed; rewrite Hw|]. intros h s [Hf Hk].
  pose proof (beside_workers _ _ (happen_beside h s)) as Hb. split.
  - revert Hf. apply identity_forall; [|done]. unfold follows, matches. intros w w' Hi%identity_members.
    destruct Hi as (_ & -> & _ & -> & -> & _ & ->). done.
  - eapply Forall_impl; [exact Hk|]. intros i (w & Hw & Hi & Hs). cbn in *.
    destruct (progress_elem (fun w' => worker_id w' = i /\ w_stop_requested w' = false) _ _ w Hb) as (w' & Hw' & Hp); [|done|eauto].
    intros w' [Hid%identity_members _ _]. destruct_and!. split; congruence.
Qed.

(** A worker that is launched matches the record it is launched for. *)
Lemma launch_followed db kept config launch :
  db_ok db -> config ∈ controllers db -> is_launch config launch ->
  preserves (keeps (followed db kept)) (start_worker config launch).
Proof.
  intros [Hall Hnd] Hin [Hr (available & provider & r & Hl)]. pose proof (followed_steady db kept) as Hst. unfold start_worker.
  apply preserves_bind; [apply _|apply (frame_keeps _ Hst), call_frame|]. intros [e|]; [apply preserves_throw, _|].
  apply preserves_bind; [apply _|apply (frame_keeps _ Hst), call_frame|]. intros [e|]; [apply preserves_throw, _|].
  apply preserves_bind; [apply _|apply (frame_keeps _ Hst), log_frame|]. intros _. apply preserves_modify. intros s [Hf Hk].
  split; cbn.
  - apply Forall_app. split; [done|]. apply Forall_singleton. right. unfold matches. cbn.
    rewrite db_map_lookup, find_by_normalized_In by done. cbn. rewrite bool_decide_eq_true_2 by done. cbn.
    subst launch. unfold select_vdsd_worker_launch_decision in *. destruct (negb provider); [done|]. case_decide; [done|].
    rewrite Forall_forall in Hall. destruct (Hall config Hin) as [_ Hp].
    pose proof (select_port_spec config available r.1 Hp) as Hs. destruct (select_controller_config_port _ _ _) as [p|]; [|done].
    destruct Hs as [(_ & Ha & _ & _) _]. exact Ha.
  - eapply Forall_impl; [exact Hk|]. intros i (w & Hw & Hi). exists w. split; [|done]. apply elem_of_app. by left.
Qed.

Lemma consider_all_followed db kept enabled_ports ds configs r :
  db_ok db -> (forall c, c ∈ configs -> c ∈ controllers db) ->
  preserves (keeps (followed db kept)) (consider_all enabled_ports ds configs r).
Proof.
  intros Hdb. pose proof (followed_steady db kept) as Hst. revert r.
  induction configs as [|config configs IH]; intros r Hin; cbn [consider_all]; [apply preserves_ret, _|].
  apply preserves_bind; [apply _| |intros r'; apply IH; intros c Hc; apply Hin; by apply list_elem_of_further].
  rewrite consider_place. apply preserves_bind; [apply _| |intros [|]; cbn [negb]].
  - unfold consume_retry. apply preserves_bind; [apply _|by apply clock_keeps|]. intros now.
    apply preserves_bind; [apply _|apply preserves_get, _|]. intros s. destruct (consume_vdsd_worker_retry _ _ _) as [bs b].
    apply preserves_bind; [apply _|apply preserves_modify; intros s0 Hs0; exact Hs0|]. intros _. apply preserves_ret, _.
  - apply place_keeps; [done|]. intros launch Hl. apply launch_followed; [done| |done]. apply Hin, list_elem_of_here.
  - apply preserves_ret, _.
Qed.

(** Which of the workers that were there are to go on. *)
Definition kept_by (db : ConfigDb) (ws : list BridgeWorker) : list nat :=
  worker_id <$> filter (fun w => w_stop_requested w = false /\ matches db w = true) ws.

Lemma retired_followed db ws ws' :
  Forall2 (fun w v => worker_id v = worker_id w /\ w_address v = w_address w /\ w_profile v = w_profile w /\
    port v = port w /\ w_stop_requested v = w_stop_requested w || negb (matches db w)) ws ws' ->
  Forall (follows db) ws' /\
  Forall (fun i => exists w, w ∈ ws' /\ worker_id w = i /\ w_stop_requested w = false) (kept_by db ws).
Proof.
  intros Hf. split.
  - induction Hf as [|w v ws ws' (E1 & E2 & E3 & E4 & E5) Hf IH]; constructor; [|done]. unfold follows.
    assert (matches db v = matches db w) as -> by (unfold matches; by rewrite E2, E3, E4).
    rewrite E5. destruct (matches db w); [by right|left]. by destruct (w_stop_requested w).
  - apply Forall_forall. intros i (w & -> & [[Hs Hm] [k Hk]%list_elem_of_lookup]%list_elem_of_filter)%list_elem_of_fmap.
    destruct (Forall2_lookup_l _ _ _ _ _ Hf Hk) as (v & Hv & E1 & _ & _ & _ & E5). exists v.
    split; [by eapply list_elem_of_lookup_2|]. split; [done|]. by rewrite E5, Hs, Hm.
Qed.

Section Scan.
Context (db_path : string).

Lemma then_frame {A B} (P : Sup -> Prop) (m : prog Sup A) (k : A -> prog Sup B) Q :
  steady P -> preserves frame m -> (forall x, triple P (k x) Q (fun _ => True)) ->
  triple P (m ≫= k) Q (fun _ => True).
Proof.
  intros HP Hm Hk. eapply triple_bind; [|exact Hk]. eapply triple_weaken; [by apply frame_triple|done..].
Qed.

Lemma scan_followed s0 :
  inv [] s0 ->
  triple (fun s => s = s0) (scan db_path)
    (fun _ s => exists db, parse_config_db (file_text db_path s0) = Ok db /\ followed db (kept_by db (workers s0)) s)
    (fun _ => True).
Proof.
  intros Hs0. unfold scan.
  eapply triple_bind with (R := fun db s => (parse_config_db (file_text db_path s0) = Ok db /\ inv [] s) /\ workers s = workers s0).
  { intros s ->. pose proof (load_database_frame db_path s0) as Hf. destruct (load_database db_path s0) as [s1 [db|e]] eqn:E; [|done].
    split; [split|apply Hf]; [by eapply load_database_parses|]. by apply (steady_frame _ (inv_steady []) s0). }
  intros db. pose (P s := (parse_config_db (file_text db_path s0) = Ok db /\ inv [] s) /\ workers s = workers s0).
  assert (forall A B (m : prog Sup A) (k : A -> prog Sup B) Q, preserves frame m ->
    (forall x, triple P (k x) Q (fun _ => True)) -> triple P (m ≫= k) Q (fun _ => True)) as Hthen.
  { intros A B m k Q Hm Hk. eapply triple_bind; [|exact Hk]. intros s [[Hp Hi] Hw]. specialize (Hm s).
    assert (P (m s).1) as HP; [|by destruct (m s) as [s1 [x|e]]].
    split; [split; [done|by apply (steady_frame _ (inv_steady []) s)]|]. rewrite <- Hw. apply Hm. }
  apply Hthen; [apply check_ports_frame|]. intros enabled. apply Hthen; [apply check_filter_frame|]. intros available.
  apply Hthen; [apply take_snapshot_frame|]. intros ds. apply triple_get. intros s1 [[Hp Hi] Hw].
  pose proof Hp as Hdb%parse_db_ok.
  eapply triple_bind with (R := fun _ => followed db (kept_by db (workers s0))).
  { intros s ->. pose proof (retire_workers db s1 Hi s1 eq_refl) as Hr.
    destruct (retire_all db (workers s1) s1) as [s2 [x|e]]; [|done]. rewrite Hw in Hr. by apply retired_followed. }
  intros []. apply triple_get. intros s2 Hs2. intros s ->.
  pose proof (consider_all_followed db (kept_by db (workers s0)) enabled ds (controllers db)
    (port <$> workers s2, device_address <$> workers s2) Hdb (fun c Hc => Hc) s2 Hs2) as Hk.
  destruct (consider_all _ _ _ _ s2) as [s3 [x|e]]; [|done]. by exists db.
Qed.

Lemma run_scan_followed s0 :
  inv [] s0 ->
  triple (fun s => s = s0) (run_scan db_path)
    (fun _ s => (flag_of s scan_requested = true /\ flag_of s provider_retry_required = true) \/
      exists db, parse_config_db (file_text db_path s0) = Ok db /\ followed db (kept_by db (workers s0)) s)
    (fun _ => False).
Proof.
  intros Hs0. unfold run_scan.
  pose (P s := (inv [] s /\ same_db db_path s0 s) /\ workers s = workers s0).
  assert (forall A B (m : prog Sup A) (k : A -> prog Sup B) Q,
    preserves frame m -> preserves (same_db db_path) m -> (forall s, exists s1 x, m s = (s1, Ok x)) ->
    (forall x, triple P (k x) Q (fun _ => False)) -> triple P (m ≫= k) Q (fun _ => False)) as Hthen.
  { intros A B m k Q Hm Hd Hr Hk. eapply triple_bind; [|exact Hk]. intros s [[Hi Hs] Hw]. specialize (Hm s). specialize (Hd s).
    destruct (Hr s) as (s1 & x & E). rewrite E in *. split; [split|].
    - by apply (steady_frame _ (inv_steady []) s).
    - by etransitivity.
    - rewrite <- Hw. apply Hm. }
  apply triple_weaken with (P' := P) (Q' := fun _ s => (flag_of s scan_requested = true /\ flag_of s provider_retry_required = true) \/
      exists db, parse_config_db (file_text db_path s0) = Ok db /\ followed db (kept_by db (workers s0)) s)
    (E' := fun _ => False); [|by intros s ->|done|done].
  apply Hthen; [apply cancel_frame|apply cancel_db|apply cancel_returns|]. intros [].
  apply Hthen; [apply set_flag_frame|apply set_flag_db|by intros s; eexists _, _|]. intros [].
  apply Hthen; [apply set_flag_frame|apply set_flag_db|by intros s; eexists _, _|]. intros [].
  apply triple_catch with (E' := fun _ => True).
  - apply triple_start. intros s1 [[Hi Hs] Hw]. eapply triple_weaken; [by apply scan_followed|done| |done].
    intros [] s (db & Hp & Hf). right. exists db. rewrite Hw in Hf. split; [|done]. revert Hp. by rewrite Hs.
  - intros e s _. left. by split.
Qed.
End Scan.
End Follow.


Lemma find_first_None {A} (f : A -> bool) l x : find_first f l = None -> x ∈ l -> f x = false.
Proof.
  unfold find_first. rewrite fmap_None, list_find_None, Forall_forall. intros Hf Hx. apply not_true_iff_false. by apply Hf.
Qed.

Section Wait.
Context {W : Type} `{FileStore W} `{WinSystem} `{FloatText}.
Abbreviation Sup := (Supervisor (W := W)).
Implicit Types s : Sup.

(** What other threads leave as it is, of what is waited for. *)
Record waits_same (s s' : Sup) : Prop := {
  same_ids : worker_id <$> workers s' = worker_id <$> workers s;
  same_pending : pending (change_wait s') = pending (change_wait s);
  same_timer : retry_timer s' = retry_timer s;
  same_backoffs : worker_failure_backoffs s' = worker_failure_backoffs s
}.
#[export] Instance waits_same_preorder : PreOrder waits_same.
Proof. split; [by intros s|]. intros s1 s2 s3 [] []. split; congruence. Qed.

Lemma beside_waits s s' :
  beside s s' -> pending (change_wait s') = pending (change_wait s) -> waits_same s s'.
Proof.
  intros Hb Hp. split; [|done|apply Hb|apply Hb].
  apply (identity_fmap worker_id (workers s)); [by_identity|apply Hb].
Qed.
Lemma observe_waits : preserves waits_same (observe (W := W)).
Proof.
  intros s. apply beside_waits; [apply observe_beside|]. unfold observe. destruct (happenings s) as [|hs rest]; [done|].
  cbn [fst]. change (pending (change_wait s)) with (pending (change_wait (put_happenings rest s))).
  generalize (put_happenings rest s). induction hs as [|h hs IH]; intros s0; [done|]. cbn [foldl]. rewrite IH.
  destruct h as [d|id f|id session|id|text|error|]; cbn [happen]; try done.
  - by destruct (worker_of id s0 ≫= _).
  - by destruct (pending (change_wait s0)) eqn:E; destruct (bool_decide _).
Qed.

Lemma wait_loop_waits fuel targets : preserves waits_same (wait_loop (W := W) fuel targets).
Proof. pose proof observe_waits. induction fuel; cbn [wait_loop]; solve_preserves. Qed.

Lemma wait_loop_none fuel targets s s' :
  wait_loop fuel targets s = (s', Ok None) ->
  (forall t, t ∈ targets -> signalled s' t = false) /\ ((length (happenings s) <= fuel)%nat -> happenings s' = []).
Proof.
  revert s. induction fuel as [|fuel IH]; intros s; cbn [wait_loop];
    unfold get_state, mbind at 1, prog_bind at 1; destruct (find_first (signalled s) targets) as [t|] eqn:E; try done.
  - intros [= <-]. split; [intros t; by apply find_first_None|]. destruct (happenings s); [done|cbn; lia].
  - intros (s1 & [] & Ho & Hw)%prog_bind_ok. apply IH in Hw as [Hs Hh]. split; [done|]. intros Hl. apply Hh.
    unfold observe in Ho. destruct (happenings s) as [|hs rest] eqn:Eh; injection Ho as <-; [rewrite Eh; cbn; lia|].
    cbn in Hl. assert (forall s0, happenings (foldl (fun s h => happen h s) s0 hs) = happenings s0) as ->; [|cbn; lia].
    clear. induction hs as [|h hs IH]; intros s0; [done|]. cbn [foldl]. rewrite IH. apply happen_work.
Qed.

(** What is so of a supervisor that waits without end. *)
Record all_quiet s : Prop := {
  quiet_happenings : happenings s = [];
  quiet_stop : g_stop_event s = false;
  quiet_commands : command_event (pipe s) = false;
  quiet_change : pending (change_wait s) = true -> cw_completed (change_wait s) = None;
  quiet_workers : Forall (fun w => w_done_event w = false) (workers s)
}.

Lemma waits_forever s targets armed s' :
  NoDup (worker_id <$> workers s') -> targets = wait_targets armed s ->
  WaitForMultipleObjects targets s = (s', Ok None) ->
  all_quiet s' /\ waits_same s s' /\ (armed = true -> forall due, retry_timer s' = Some due -> steady_now s' < due).
Proof.
  intros Hnd -> Hw. unfold WaitForMultipleObjects in Hw. apply prog_bind_ok in Hw as (s1 & error & Hc & Hw).
  unfold call in Hc. injection Hc as <- <-.
  destruct (if _ : bool then _ else _); [done|]. unfold get_state, mbind, prog_bind in Hw.
  match type of Hw with wait_loop _ _ ?x = _ => set (s1 := x) in *; assert (waits_same s s1) as H1' by done end.
  pose proof (wait_loop_waits (length (happenings s1)) (wait_targets armed s) s1) as H2'. rewrite Hw in H2'. cbn in H2'.
  apply wait_loop_none in Hw as [Hsig Hh]. assert (waits_same s s') as Hs by (by etransitivity). clear H1' H2'.
  pose proof (fun t Ht => Hsig t Ht) as Hall. unfold wait_targets in Hall. split; [|split; [done|]].
  - split.
    + by apply Hh.
    + apply (Hall WaitStop). rewrite !elem_of_app. left. apply list_elem_of_here.
    + apply (Hall WaitControl). rewrite !elem_of_app. left. apply list_elem_of_further, list_elem_of_here.
    + intros Hp. rewrite (same_pending _ _ Hs) in Hp. assert (signalled s' WaitFilterChange = false) as Hf.
      { apply Hall. rewrite !elem_of_app, Hp. right. left. apply list_elem_of_here. }
      cbn in Hf. apply bool_decide_eq_false in Hf. by apply eq_None_not_Some in Hf.
    + apply Forall_forall. intros w Hw. assert (signalled s' (WaitWorkerDone (worker_id w)) = false) as Hf.
      { apply Hall. rewrite !elem_of_app. do 3 right. rewrite (list_fmap_compose worker_id WaitWorkerDone).
        apply list_elem_of_fmap_2. rewrite <- (same_ids _ _ Hs). by apply list_elem_of_fmap_2. }
      cbn in Hf. by rewrite (worker_of_unique s' w Hnd Hw) in Hf.
  - intros -> due Hd. assert (signalled s' WaitRetry = false) as Hf.
    { apply Hall. rewrite !elem_of_app. do 2 right. left. apply list_elem_of_here. }
    cbn in Hf. rewrite Hd in Hf. apply Z.leb_gt in Hf. done.
Qed.

(** ** The round *)

(** The timer stays as it is when the wait for the devices is armed. *)
Definition timer_same s s' : Prop := retry_timer s' = retry_timer s.
#[export] Instance timer_same_preorder : PreOrder timer_same.
Proof. unfold timer_same. split; [by intros s|]. intros s1 s2 s3. congruence. Qed.
Lemma arm_change_timer : preserves timer_same (arm_change_wait (W := W)).
Proof.
  assert (forall A (m : ChangeWait -> ChangeWait * A), preserves timer_same (on_change (W := W) m)).
  { intros A m s. unfold on_change. by destruct (m _) as [c a]. }
  assert (forall A (m : prog Devices A), preserves timer_same (on_devices (W := W) m)).
  { intros A m s. unfold on_devices. by destruct (m _) as [d r]. }
  assert (forall A (get : Calls -> list (option A)) put, preserves timer_same (call (W := W) get put)) by (by intros A get put s).
  assert (forall f b, preserves timer_same (set_flag (W := W) f b)) by (by intros f b s).
  assert (forall f, preserves timer_same (flag (W := W) f)) by (by intros f s).
  assert (forall l m, preserves timer_same (log (W := W) l m)) by (by intros l m s).
  unfold arm_change_wait, arm, cancel. solve_preserves.
Qed.

Lemma backoffs_steady bs : steady (fun s => worker_failure_backoffs s = bs).
Proof.
  split; [by intros s s' [_ _ -> _ _ _]|]. intros h s. by rewrite (beside_backoffs _ _ (happen_beside h s)).
Qed.

Lemma wait_turn_quiet db_path retry now s s' :
  inv [] s' -> wait_turn db_path retry now s = (s', Ok WaitsForever) ->
  all_quiet s' /\ worker_failure_backoffs s' = worker_failure_backoffs s /\
  (is_Some retry -> exists due, retry_timer s' = Some due /\ steady_now s' < due).
Proof.
  intros [Hok _]. unfold wait_turn. intros (s1 & armed & Ha & Hw)%prog_bind_ok.
  pose proof (backoffs_steady (worker_failure_backoffs s)) as Hst.
  assert (worker_failure_backoffs s1 = worker_failure_backoffs s /\
    (is_Some retry -> armed = true /\ is_Some (retry_timer s1))) as [B1 Htimer].
  { destruct retry as [t|]; apply prog_bind_ok in Ha as (s2 & [] & Ht & Ha); injection Ha as <- <-.
    - split; [pose proof (arm_timer_keeps _ Hst (t - now) s eq_refl) as Hk; by rewrite Ht in Hk|]. intros _. split; [done|].
      unfold arm_retry_timer in Ht. apply prog_bind_ok in Ht as (s3 & error & _ & Ht). destruct error; [done|].
      apply prog_bind_ok in Ht as (s4 & now' & _ & Ht). injection Ht as <-. by eexists.
    - split; [|by intros [? ?]]. by injection Ht as <-. }
  apply prog_bind_ok in Hw as (s2 & ready & Hc & Hw). pose proof (arm_change_timer s1) as Hsame. rewrite Hc in Hsame. cbn in Hsame.
  pose proof (arm_change_wait_keeps _ Hst s1 B1) as B2. rewrite Hc in B2. cbn in B2.
  destruct ready; cbn [negb] in Hw; [|done]. apply prog_bind_ok in Hw as (s3 & x & [= <- <-] & Hw).
  apply prog_bind_ok in Hw as (s4 & target & Hf & Hw). destruct target as [t|].
  { by apply prog_bind_ok in Hw as (s5 & [] & _ & Hw). }
  injection Hw as <-. apply (waits_forever s2 _ armed s4) in Hf as (Hq & Hs & Hd); [|apply Hok|done]. split; [done|].
  split; [rewrite (same_backoffs _ _ Hs); exact B2|]. intros Hr. destruct (Htimer Hr) as [-> [due Hdue]]. exists due.
  assert (retry_timer s4 = Some due) as E by (rewrite (same_timer _ _ Hs); congruence). split; [done|]. by apply Hd.
Qed.

(** With failed workers to start again the timer is armed. *)
Lemma plan_wait_quiet db_path s s' :
  inv [] s' -> plan_wait db_path s = (s', Ok WaitsForever) ->
  all_quiet s' /\ (worker_failure_backoffs s' <> [] -> exists due, retry_timer s' = Some due /\ steady_now s' < due).
Proof.
  intros Hi. unfold plan_wait. intros (s1 & now & _ & Hw)%prog_bind_ok. apply prog_bind_ok in Hw as (s2 & provider & _ & Hw).
  apply prog_bind_ok in Hw as (s3 & x & [= <- <-] & Hw).
  destruct (worker_failure_backoffs s2) as [|b bs] eqn:Eb; cbn [next_retry foldr] in Hw.
  - apply (wait_turn_quiet _ _ _ _ _ Hi) in Hw as (Hq & Hb & _). split; [done|]. by rewrite Hb, Eb.
  - destruct (_ <=? now).
    + by apply prog_bind_ok in Hw as (s4 & [] & _ & Hw).
    + apply (wait_turn_quiet _ _ _ _ _ Hi) in Hw as (Hq & _ & Hr). split; [done|]. intros _. apply Hr. eauto.
Qed.

Lemma loop_quiet fuel db_path s s' :
  inv [] s -> supervisor_loop fuel db_path s = (s', Ok Waiting) ->
  inv [] s' /\ all_quiet s' /\
  (worker_failure_backoffs s' <> [] -> exists due, retry_timer s' = Some due /\ steady_now s' < due).
Proof.
  intros Hs Hw. assert (inv [] s') as Hi.
  { pose proof (supervisor_loop_keeps _ (inv_steady []) db_path (inv_turn_safe db_path) fuel s Hs) as Hk. by rewrite Hw in Hk. }
  split; [done|]. clear Hs. revert s Hw. induction fuel as [|fuel IH]; intros s; cbn [supervisor_loop]; [done|].
  intros (s1 & stop & _ & Hw)%prog_bind_ok. destruct stop; [done|]. apply prog_bind_ok in Hw as (s2 & t & Ht & Hw).
  destruct t; [by apply IH in Hw|]. injection Hw as <-. unfold supervisor_turn in Ht.
  apply prog_bind_ok in Ht as (s3 & x & _ & Ht). apply prog_bind_ok in Ht as (s4 & removed & _ & Ht).
  apply prog_bind_ok in Ht as (s5 & [] & _ & Ht). by apply (plan_wait_quiet db_path s5).
Qed.
(** ** A scan that failed is repeated *)

(** How far the clock moves in what happens, and where it is when everything has happened. *)
Fixpoint elapsed (hs : list happening) : Z :=
  match hs with [] => 0 | Elapse e :: rest => Z.of_N e + elapsed rest | _ :: rest => elapsed rest end.
Definition horizon (s : Sup) : Z := steady_now s + elapsed (concat (happenings s)).

Lemma elapsed_app hs hs' : elapsed (hs ++ hs') = elapsed hs + elapsed hs'.
Proof. induction hs as [|h hs IH]; cbn; [done|]. rewrite IH. destruct h; lia. Qed.

Lemma happen_clock h s :
  steady_now (happen h s) = steady_now s + elapsed [h] /\ happenings (happen h s) = happenings s.
Proof.
  destruct h as [d|id f|id session|id|text|error|]; cbn; rewrite ?Z.add_0_r; try done.
  - by destruct (worker_of id s ≫= _).
  - by destruct (_ && _).
Qed.
Lemma observe_clock s :
  steady_now (observe s).1 = steady_now s + elapsed (default [] (head (happenings s)))
  /\ happenings (observe s).1 = tail (happenings s).
Proof.
  assert (forall hs s1, steady_now (foldl (fun s h => happen h s) s1 hs) = steady_now s1 + elapsed hs
    /\ happenings (foldl (fun s h => happen h s) s1 hs) = happenings s1) as Hf.
  { induction hs as [|h hs IH]; intros s1; cbn [foldl]; [by rewrite Z.add_0_r|].
    destruct (IH (happen h s1)) as [-> ->]. destruct (happen_clock h s1) as [-> ->]. split; [|done].
    change (h :: hs) with ([h] ++ hs). rewrite elapsed_app. lia. }
  unfold observe. destruct (happenings s) as [|hs rest] eqn:E; cbn [fst head tail default from_option id].
  - rewrite E, Z.add_0_r. done.
  - apply (Hf hs (put_happenings rest s)).
Qed.

(** Everything happens in its time, and a scan that is due stays due. *)
Definition on_time (s s' : Sup) : Prop := horizon s' = horizon s.
#[export] Instance on_time_preorder : PreOrder on_time.
Proof. unfold on_time. split; [by intros s|]. intros s1 s2 s3. congruence. Qed.
Definition stays_due (s s' : Sup) : Prop := flag_of s scan_requested = true -> flag_of s' scan_requested = true.
#[export] Instance stays_due_preorder : PreOrder stays_due.
Proof. unfold stays_due. split; [by intros s|]. intros s1 s2 s3. auto. Qed.

Lemma observe_on_time : preserves on_time (observe (W := W)).
Proof.
  intros s. destruct (observe_clock s) as [E1 E2]. unfold on_time, horizon. rewrite E1, E2.
  destruct (happenings s) as [|hs rest]; cbn; [lia|]. rewrite elapsed_app. lia.
Qed.
Lemma wait_loop_on_time fuel targets : preserves on_time (wait_loop (W := W) fuel targets).
Proof. pose proof observe_on_time. induction fuel; cbn [wait_loop]; solve_preserves. Qed.

Lemma beside_due s s' : beside s s' -> stays_due s s'.
Proof. intros Hb. unfold stays_due. by rewrite (beside_flags _ _ Hb). Qed.
Lemma observe_due : preserves stays_due (observe (W := W)).
Proof. intros s. apply beside_due, observe_beside. Qed.
Lemma lift_due {A} (r : result A) : preserves stays_due (lift r).
Proof. by intros s. Qed.
Lemma modify_due (f : Sup -> Sup) : (forall s, flag_of (f s) = flag_of s) -> preserves stays_due (modify f).
Proof. intros Hf s. unfold stays_due, modify. cbn. by rewrite Hf. Qed.
Hint Resolve observe_due lift_due : preserves.
Lemma load_due {A} (f : BridgeWorker -> A) w : preserves stays_due (load (W := W) f w).
Proof. unfold load. solve_preserves. Qed.
Hint Resolve load_due : preserves.
Lemma connected_due w : preserves stays_due (worker_is_connected (W := W) w).
Proof. unfold worker_is_connected. solve_preserves. Qed.
Hint Resolve connected_due : preserves.
Lemma clock_due : preserves stays_due (clock_now (W := W)).
Proof. unfold clock_now. solve_preserves. Qed.
Lemma call_due {A} get put : preserves stays_due (call (W := W) (A := A) get put).
Proof. intros s. unfold stays_due, call. by destruct (ask get put None (calls s)). Qed.
Lemma on_control_due {A} (m : prog ((W * Devices) * Vars) A) : preserves stays_due (on_control m).
Proof. intros s. unfold stays_due, on_control. by destruct (m _) as [[w v] r]. Qed.
Lemma on_devices_due {A} (m : prog Devices A) : preserves stays_due (on_devices (W := W) m).
Proof. intros s. unfold stays_due, on_devices. by destruct (m _). Qed.
Lemma on_change_due {A} (m : ChangeWait -> ChangeWait * A) : preserves stays_due (on_change (W := W) m).
Proof. intros s. unfold stays_due, on_change. by destruct (m _). Qed.
Lemma request_due f : preserves stays_due (set_flag (W := W) f true).
Proof. intros s. unfold stays_due, set_flag, modify. cbn. by destruct f. Qed.
Lemma log_due l m : preserves stays_due (log (W := W) l m).
Proof. by apply modify_due. Qed.
Hint Resolve clock_due call_due on_control_due on_devices_due on_change_due request_due log_due : preserves.
Hint Extern 3 (preserves stays_due (modify _)) => by apply modify_due : preserves.

Lemma request_mute_due want ws : preserves stays_due (request_mute (W := W) want ws).
Proof. induction ws; cbn [request_mute]; solve_preserves. Qed.
Lemma status_line_due w : preserves stays_due (status_line (W := W) w).
Proof. unfold status_line. solve_preserves. Qed.
Hint Resolve request_mute_due : preserves.
Lemma own_command_due command : preserves stays_due (handle_own_command (W := W) command).
Proof.
  unfold handle_own_command, build_status_json, handle_set.
  assert (forall ws, preserves stays_due (mapM (M := prog Sup) status_line ws)) by (intros; apply preserves_mapM; [apply _|apply status_line_due]).
  solve_preserves.
Qed.
Lemma control_command_due db_path command :
  preserves stays_due (handle_supervisor_control_command (W := W) db_path command).
Proof.
  unfold handle_supervisor_control_command. pose proof own_command_due.
  assert (forall ws, preserves stays_due (mapM (M := prog Sup) controller_status ws))
    by (intros; apply preserves_mapM; [apply _|]; intros; unfold controller_status; solve_preserves).
  assert (forall ps, preserves stays_due (mapM (M := prog Sup) port_candidate ps))
    by (intros; apply preserves_mapM; [apply _|]; intros; unfold port_candidate; solve_preserves).
  assert (forall ws, preserves stays_due (collect (S := Sup) port_binding ws))
    by (intros; apply preserves_collect; [apply _|]; intros; unfold port_binding; solve_preserves).
  solve_preserves.
Qed.
Lemma service_due db_path : preserves stays_due (service_ready (W := W) db_path).
Proof.
  unfold service_ready. apply preserves_bind; [apply _|apply preserves_get, _|]. intros s.
  generalize (S (length (requests (pipe s)) + length (concat (happenings s)))). clear s. intros fuel.
  pose proof control_command_due.
  induction fuel as [|fuel IH]; cbn [service_loop]; unfold take_request, answer_request; solve_preserves.
Qed.
Lemma dispatch_due db_path t : preserves stays_due (dispatch (W := W) db_path t).
Proof. pose proof service_due. unfold dispatch, complete. solve_preserves. Qed.
Lemma wait_due targets : preserves stays_due (WaitForMultipleObjects (W := W) targets).
Proof.
  unfold WaitForMultipleObjects.
  assert (forall fuel, preserves stays_due (wait_loop (W := W) fuel targets)) by (induction fuel; cbn [wait_loop]; solve_preserves).
  solve_preserves.
Qed.

Lemma arm_change_on_time : preserves on_time (arm_change_wait (W := W)).
Proof.
  assert (forall A (m : ChangeWait -> ChangeWait * A), preserves on_time (on_change (W := W) m)).
  { intros A m s. unfold on_change. by destruct (m _) as [c a]. }
  assert (forall A (m : prog Devices A), preserves on_time (on_devices (W := W) m)).
  { intros A m s. unfold on_devices. by destruct (m _) as [d r]. }
  assert (forall A (get : Calls -> list (option A)) put, preserves on_time (call (W := W) get put)) by (by intros A get put s).
  assert (forall f b, preserves on_time (set_flag (W := W) f b)) by (by intros f b s).
  assert (forall f, preserves on_time (flag (W := W) f)) by (by intros f s).
  assert (forall l m, preserves on_time (log (W := W) l m)) by (by intros l m s).
  unfold arm_change_wait, arm, cancel. solve_preserves.
Qed.
Lemma wait_on_time targets : preserves on_time (WaitForMultipleObjects (W := W) targets).
Proof.
  unfold WaitForMultipleObjects. pose proof wait_loop_on_time.
  assert (forall A (get : Calls -> list (option A)) put, preserves on_time (call (W := W) get put)) by (by intros A get put s).
  solve_preserves.
Qed.

Lemma wait_turn_on_time db_path t now s s' :
  inv [] s' -> now <= t <= now + milliseconds 1000 -> wait_turn db_path (Some t) now s = (s', Ok WaitsForever) ->
  elapsed (concat (tail (happenings s))) < milliseconds 1000.
Proof.
  intros [Hok _] Ht. unfold wait_turn. intros (s1 & armed & Ha & Hw)%prog_bind_ok.
  apply prog_bind_ok in Ha as (s2 & [] & Ha & [= <- <-]).
  unfold arm_retry_timer in Ha. apply prog_bind_ok in Ha as (s3 & error & Hc & Ha). destruct error; [done|].
  unfold call in Hc. destruct (ask _ _ _ _) as [c r] in Hc. injection Hc as <- _.
  apply prog_bind_ok in Ha as (s4 & now' & Hn & Ha).
  destruct (observe_clock (put_calls c s)) as [_ Hh]. unfold clock_now, mbind, prog_bind, get_state in Hn.
  destruct (observe (put_calls c s)) as [s5 [[]|e]]; [|done]. cbn [fst] in Hh. injection Hn as <- <-.
  injection Ha as <-. apply prog_bind_ok in Hw as (s6 & ready & Hc & Hw).
  pose proof (arm_change_timer (put_retry_timer (Some (steady_now s5 + Z.max 1 (Z.quot (t - now) 100) * 100)) s5)) as Hsame.
  pose proof (arm_change_on_time (put_retry_timer (Some (steady_now s5 + Z.max 1 (Z.quot (t - now) 100) * 100)) s5)) as Htime.
  rewrite Hc in Hsame, Htime. cbn [fst] in Hsame, Htime.
  destruct ready; cbn [negb] in Hw; [|done]. apply prog_bind_ok in Hw as (s7 & x & [= <- <-] & Hw).
  apply prog_bind_ok in Hw as (s8 & target & Hf & Hw). destruct target as [w|].
  { by apply prog_bind_ok in Hw as (s9 & [] & _ & Hw). }
  injection Hw as <-. pose proof (wait_on_time (wait_targets true s6) s6) as Htime'. rewrite Hf in Htime'.
  apply (waits_forever s6 _ true s8) in Hf as ([Hnone _ _ _ _] & Hs & Hd); [|apply Hok|done].
  specialize (Hd eq_refl (steady_now s5 + Z.max 1 (Z.quot (t - now) 100) * 100)).
  rewrite (same_timer _ _ Hs), Hsame in Hd. specialize (Hd eq_refl).
  unfold on_time, horizon in Htime, Htime'. cbn [fst] in Htime'. rewrite Hnone in Htime'.
  cbn [put_retry_timer steady_now happenings put_calls] in *. rewrite Hh in Htime. cbn in Htime'.
  unfold milliseconds in *. assert (Z.quot (t - now) 100 * 100 <= t - now) by (pose proof (Z.quot_rem (t - now) 100);
    pose proof (Z.rem_bound_pos (t - now) 100); lia). lia.
Qed.

(** The round goes on to a scan, or fails to wait; it does not wait for a second. *)
Definition retried_within (delay : Z) (db_path : string) (s : Sup) : Prop :=
  match plan_wait db_path s with
  | (s', Ok NextTurn) => flag_of s' scan_requested = true
  | (s', Ok WaitsForever) => elapsed (concat (drop 2 (happenings s))) < delay
  | (s', Throw e) => exists code, e = "failed to arm supervisor retry timer: " +:+ win32_error_message code
                               \/ e = "Windows bridge supervisor wait failed: " +:+ win32_error_message code
  end.

Lemma plan_wait_due db_path : preserves stays_due (plan_wait (W := W) db_path).
Proof.
  pose proof dispatch_due. pose proof wait_due.
  unfold plan_wait, wait_turn, arm_retry_timer, arm_change_wait, arm, cancel, flag. solve_preserves.
Qed.

Lemma plan_wait_on_time db_path s s' :
  inv [] s' -> flag_of s provider_retry_required = true -> plan_wait db_path s = (s', Ok WaitsForever) ->
  elapsed (concat (drop 2 (happenings s))) < milliseconds 1000.
Proof.
  intros Hi Hp. unfold plan_wait. intros (s1 & now & Hn & Hw)%prog_bind_ok.
  destruct (observe_clock s) as [_ Hh]. pose proof (beside_flags _ _ (observe_beside s)) as Hb.
  unfold clock_now, mbind, prog_bind, get_state in Hn.
  destruct (observe s) as [s2 [[]|e]]; [|done]. injection Hn as <- <-. cbn [fst] in *.
  apply prog_bind_ok in Hw as (s3 & provider & [= <- <-] & Hw). apply prog_bind_ok in Hw as (s4 & x & [= <- <-] & Hw).
  rewrite Hb, Hp in Hw. assert (drop 2 (happenings s) = tail (happenings s2)) as ->.
  { rewrite Hh. by destruct (happenings s) as [|h0 [|h1 rest]]. }
  assert (0 <= kBridgeOpenRetryDelay <= milliseconds 1000) as Hd by done.
  destruct (next_retry (worker_failure_backoffs s2)) as [t|].
  - destruct (Z.leb_spec t (steady_now s2)) as [Hle|Hlt].
    + by apply prog_bind_ok in Hw as (s3 & [] & _ & Hw).
    + eapply (wait_turn_on_time db_path); [exact Hi| |exact Hw]. lia.
  - eapply (wait_turn_on_time db_path); [exact Hi| |exact Hw]. lia.
Qed.

(** What a round may throw while it waits. *)
Lemma arm_change_returns s s' e : arm_change_wait (W := W) s <> (s', Throw e).
Proof.
  unfold arm_change_wait. intros [?|(s1 & retry & [= <- _] & Hc)]%prog_bind_throw; [done|].
  apply prog_bind_throw in Hc as [?|(s2 & x & [= <- <-] & Hc)]; [done|]. cbv zeta in Hc. destruct (_ && _).
  - unfold try_catch in Hc.
    match type of Hc with context [match ?m s with _ => _ end] => destruct (m s) as [s2 [x|er]] end; done.
  - destruct (cancel_returns s) as (s2 & [] & E). apply prog_bind_throw in Hc as [?|(? & ? & _ & ?)]; [congruence|done].
Qed.

Lemma dispatch_returns db_path t s : inv [] s -> exists s1, dispatch (W := W) db_path t s = (s1, Ok tt).
Proof.
  intros Hi. destruct t; cbn [dispatch]; try (by eexists).
  - pose proof (service_ready_triple db_path s Hi) as Ht. unfold mbind at 1, prog_bind at 1.
    destruct (service_ready db_path s) as [s1 [b|e]]; [|done]. unfold get_state, mbind, prog_bind.
    case_match; by eexists.
  - unfold try_catch. match goal with |- context [match ?m s with _ => _ end] => destruct (m s) as [s1 [[]|e]] end;
      by eexists.
Qed.

Lemma wait_loop_returns fuel targets s : exists s1 x, wait_loop (W := W) fuel targets s = (s1, Ok x).
Proof.
  revert s. induction fuel as [|fuel IH]; intros s; cbn [wait_loop]; unfold get_state, mbind, prog_bind.
  - destruct (find_first _ _); by eexists _, _.
  - destruct (find_first _ _); [by eexists _, _|]. unfold observe. destruct (happenings s); apply IH.
Qed.

Lemma wait_turn_throws db_path retry now s s' e :
  inv [] s -> wait_turn db_path retry now s = (s', Throw e) ->
  exists code, e = "failed to arm supervisor retry timer: " +:+ win32_error_message code
    \/ e = "Windows bridge supervisor wait failed: " +:+ win32_error_message code.
Proof.
  intros Hi. unfold wait_turn. intros [Ha|(s1 & armed & Ha & Hw)]%prog_bind_throw.
  { destruct retry as [t|]; [|by apply prog_bind_throw in Ha as [?|(? & ? & _ & ?)]].
    apply prog_bind_throw in Ha as [Ha|(? & ? & _ & ?)]; [|done]. unfold arm_retry_timer in Ha.
    apply prog_bind_throw in Ha as [Ha|(s2 & [code|] & _ & Ha)].
    - unfold call, ask in Ha. by destruct (timer_errors (calls s)).
    - injection Ha as _ <-. exists code. by left.
    - apply prog_bind_throw in Ha as [Ha|(s3 & n & _ & Ha)]; [|done]. unfold clock_now in Ha.
      apply prog_bind_throw in Ha as [Ha|(s3 & [] & _ & Ha)]; [|done]. unfold observe in Ha. by destruct (happenings s2). }
  assert (inv [] s1) as Hi1.
  { destruct retry as [t|]; apply prog_bind_ok in Ha as (s2 & [] & Ht & [= <- <-]).
    - pose proof (arm_timer_keeps _ (inv_steady []) (t - now) s Hi) as Hk. by rewrite Ht in Hk.
    - injection Ht as <-. by apply (steady_frame _ (inv_steady []) s). }
  apply prog_bind_throw in Hw as [Hc|(s2 & ready & Hc & Hw)]; [by apply arm_change_returns in Hc|].
  pose proof (arm_change_wait_keeps _ (inv_steady []) s1 Hi1) as Hi2. rewrite Hc in Hi2. cbn [fst] in Hi2.
  destruct ready; [|done]. apply prog_bind_throw in Hw as [?|(s3 & x & [= <- <-] & Hw)]; [done|].
  pose proof (wait_keeps _ (inv_steady []) (wait_targets armed s2) s2 Hi2) as Hi3.
  apply prog_bind_throw in Hw as [Hf|(s3 & target & Hf & Hw)]; rewrite Hf in Hi3; cbn [fst] in Hi3.
  - unfold WaitForMultipleObjects in Hf. apply prog_bind_throw in Hf as [Hf|(s4 & error & _ & Hf)].
    { unfold call, ask in Hf. by destruct (wait_errors (calls s2)). }
    destruct (if _ : bool then _ else _) as [code|]; [injection Hf as _ <-; exists code; by right|].
    apply prog_bind_throw in Hf as [?|(s5 & x & [= <- <-] & Hf)]; [done|].
    destruct (wait_loop_returns (length (happenings s4)) (wait_targets armed s2) s4) as (s5 & x & E). congruence.
  - destruct target as [t|]; [|done]. apply prog_bind_throw in Hw as [Hw|(s4 & [] & _ & Hw)]; [|done].
    destruct (dispatch_returns db_path t s3 Hi3) as [s4 E]. congruence.
Qed.

Lemma plan_wait_retried db_path s :
  inv [] s -> flag_of s scan_requested = true -> flag_of s provider_retry_required = true ->
  retried_within (milliseconds 1000) db_path s.
Proof.
  intros Hi Hd Hp. unfold retried_within. pose proof (plan_wait_due db_path s Hd) as Hdue.
  pose proof (plan_wait_keeps _ (inv_steady []) db_path (inv_turn_safe db_path) s Hi) as Hi'.
  destruct (plan_wait db_path s) as [s' [[|]|e]] eqn:E; cbn [fst] in *; [done|by eapply plan_wait_on_time|].
  unfold plan_wait in E. apply prog_bind_throw in E as [E|(s1 & now & Hn & E)].
  { unfold clock_now in E. apply prog_bind_throw in E as [E|(s3 & [] & _ & E)]; [|done].
    unfold observe in E. by destruct (happenings s). }
  pose proof (clock_keeps _ (inv_steady []) s Hi) as Hi1. rewrite Hn in Hi1. cbn [fst] in Hi1.
  apply prog_bind_throw in E as [?|(s2 & provider & [= <- <-] & E)]; [done|].
  apply prog_bind_throw in E as [?|(s3 & x & [= <- <-] & E)]; [done|].
  destruct (next_retry _) as [t|]; [|by eapply wait_turn_throws].
  destruct (t <=? now); [|by eapply wait_turn_throws]. by apply prog_bind_throw in E as [?|(? & ? & _ & ?)].
Qed.
End Wait.
