(* ===== verification/WinSupProps.v ===== *)
(** Properties of the supervisor of the Windows daemon. *)
From stdpp Require Import base list strings numbers gmap.
From Stdlib Require Import Ascii ZArith Lia.
From S2P Require Import Prelude Text Words Common Jsonl Log Store LinuxFs WindowsFs Config ConfigFacts ConfigFile Control.
From S2P Require Import Supervisor MicBuffer WinIo WinState WinDevices WinSupervisor WinLoop WinSupInv WinSupFacts Threads.
From S2P Require Import WinSupRetry WinSupStarve WinSupFollow.

Local Open Scope Z_scope.

Section Properties.
Context {W : Type} `{FileStore W} `{WinSystem} `{FloatText}.
Abbreviation Sup := (Supervisor (W := W)).
Implicit Types s : Sup.

(** ** The invariant *)

Lemma new_supervisor_inv w gain now hs cs : inv [] (new_supervisor (W := W) w gain now hs cs).
Proof. split; [|done]. split; try constructor. Qed.

Lemma loop_inv fuel db_path s : inv [] s -> inv [] (supervisor_loop fuel db_path s).1.
Proof. apply supervisor_loop_keeps; [apply inv_steady|apply inv_turn_safe]. Qed.

(** Different ports below four. *)
Lemma few_workers s : sup_ok s -> (length (workers s) <= 4)%nat.
Proof.
  intros Hok. rewrite <- (length_fmap port). change 4%nat with (length all_ports).
  apply submseteq_length, NoDup_submseteq; [apply Hok|]. intros p (w & -> & Hw)%list_elem_of_fmap.
  pose proof (ok_launch s Hok) as Hl. rewrite Forall_forall in Hl. destruct (Hl w Hw) as [Hp _].
  apply list_elem_of_fmap. exists (Z.to_nat (port w)). split; [lia|]. apply elem_of_seq. unfold kMaxPortCount in *. lia.
Qed.

(** C11.  Whatever the other threads do, no two workers of the supervisor have the same controller
    or the same port, every port is one of the four, and so the handles it waits for are never
    more than eight, far from the 64 Windows allows. *)
Theorem workers_exclusive (fuel : nat) (db_path : string) (w : W * Devices) (gain : f32) (now : Z)
    (hs : list (list happening)) (cs : Calls) :
  let s := (supervisor_loop fuel db_path (new_supervisor w gain now hs cs)).1 in
  NoDup (w_address <$> workers s) /\ NoDup (device_address <$> workers s) /\ NoDup (port <$> workers s) /\
  Forall (fun v => 0 <= port v < kMaxPortCount /\ w_config v = mk_config (w_address v) (w_profile v) [port v])
    (workers s) /\
  forall armed, (length (wait_targets armed s) <= 8)%nat.
Proof.
  intros s. destruct (loop_inv fuel db_path _ (new_supervisor_inv w gain now hs cs)) as [Hok _]. fold s in Hok.
  pose proof (few_workers s Hok) as Hn. pose proof (ok_launch s Hok) as Hl.
  split; [apply Hok|]. split; [|split; [apply Hok|]].
  - replace (device_address <$> workers s) with (w_address <$> workers s); [apply Hok|].
    apply Forall_fmap_ext_1. eapply Forall_impl; [exact Hl|]. by intros v (_ & -> & _).
  - split; [eapply Forall_impl; [exact Hl|]; by intros v (? & _ & _ & ?)|]. intros armed. unfold wait_targets.
    rewrite !length_app, length_fmap. cbn. destruct (pending _), armed; cbn; lia.
Qed.

(** ** Commands *)

(** C12.  Commands are numbered as they arrive.  As long as the supervisor runs, those answered and
    those that wait are together exactly those that arrived, in their order; when it returns, every
    one has been answered, once, and no worker is left; and whenever it empties the queue it comes
    to an end with every command answered. *)
Theorem commands_answered_in_order (fuel : nat) (db_path pipe_name : string) (w : W * Devices) (gain : f32)
    (now : Z) (hs : list (list happening)) (cs : Calls) :
  let out := run_bridge_supervisor fuel db_path pipe_name (new_supervisor w gain now hs cs) in
  let p := pipe out.1 in
  match out.2 with
  | Returned => (replied p).*1 = seq 0 (next_request p) /\ workers out.1 = []
  | GoesOn _ => (replied p).*1 ++ (requests p).*1 = seq 0 (next_request p) /\
      exists s1, service_ready db_path out.1 = (s1, Ok true) /\ requests (pipe s1) = [] /\
        (replied (pipe s1)).*1 = seq 0 (next_request (pipe s1))
  | Threw _ | Terminates _ => (replied p).*1 = seq 0 (next_request p)
  end.
Proof.
  intros out p. subst p out. unfold run_bridge_supervisor. cbv zeta.
  set (s0 := add_log _ (new_supervisor w gain now hs cs)).
  assert (inv [] s0) as Hs0 by (apply (steady_frame _ (inv_steady []) (new_supervisor w gain now hs cs)); [by split|apply new_supervisor_inv]).
  pose proof (loop_inv fuel db_path s0 Hs0) as Hi. destruct (supervisor_loop fuel db_path s0) as [s r]. cbn [fst] in Hi.
  assert (forall q, pipe_ok [] q -> (replied (stop_pipe q)).*1 = seq 0 (next_request (stop_pipe q))) as Hstop.
  { intros q (Q1 & Q2 & _). unfold stop_pipe. rewrite Q1. cbn. rewrite fmap_app, <- list_fmap_compose. exact Q2. }
  assert ((replied (pipe s)).*1 ++ (requests (pipe s)).*1 = seq 0 (next_request (pipe s)) /\
      exists s1, service_ready db_path s = (s1, Ok true) /\ requests (pipe s1) = [] /\
        (replied (pipe s1)).*1 = seq 0 (next_request (pipe s1))) as Hgo.
  { destruct Hi as [Hok Hp]. split; [apply Hp|].
    pose proof (service_ready_triple db_path s (conj Hok Hp)) as Ht.
    destruct (service_ready db_path s) as [s1 [b|e]]; [|done]. destruct Ht as (-> & [_ (_ & Hr & _)] & He).
    exists s1. split; [done|]. split; [done|]. by rewrite He, app_nil_r in Hr. }
  destruct Hi as [Hok Hp]. destruct r as [[]|e]; [split; [by apply Hstop|done]|exact Hgo..|].
  by case_decide; apply Hstop.
Qed.

(** ** No wake-up is lost *)

(** C13.  When the supervisor waits and nothing more happens that could wake it, nothing is left for
    it to see: every command has been answered, no stop was asked for by the service, no change of
    the filter's devices is unseen, no worker has finished that was not joined, and with a failed
    worker to start again the timer is armed and not due. *)
Theorem waits_only_when_idle (fuel : nat) (db_path : string) (w : W * Devices) (gain : f32) (now : Z)
    (hs : list (list happening)) (cs : Calls) (s : Sup) :
  supervisor_loop fuel db_path (new_supervisor w gain now hs cs) = (s, Ok Waiting) ->
  happenings s = [] /\ requests (pipe s) = [] /\ (replied (pipe s)).*1 = seq 0 (next_request (pipe s)) /\
  g_stop_event s = false /\ (pending (change_wait s) = true -> cw_completed (change_wait s) = None) /\
  Forall (fun v => w_stage v <> Finished) (workers s) /\
  (worker_failure_backoffs s <> [] -> exists due, retry_timer s = Some due /\ steady_now s < due).
Proof.
  intros Hw. apply loop_quiet in Hw as ([Hok (_ & Hp & He)] & [] & Hr); [|apply new_supervisor_inv].
  assert (requests (pipe s) = []) as Hq.
  { destruct (requests (pipe s)); [done|]. rewrite He in quiet_commands; done. }
  rewrite Hq, app_nil_r in Hp. split; [done|]. split; [done|]. split; [done|]. split; [done|]. split; [done|]. split; [|done].
  pose proof (ok_threads s Hok) as Ht. rewrite Forall_forall in Ht, quiet_workers. apply Forall_forall. intros v Hv E.
  destruct (Ht v Hv) as [_ Hd]. rewrite E, (quiet_workers v Hv) in Hd. done.
Qed.

(** ** Workers that fail *)

(**  Whenever a round finds a worker that is done and has left an error, that worker is gone
    after the round, and for a second of the clock from then on, through any number of rounds and
    whatever the other threads do, no worker is started for its controller. *)
Theorem failed_worker_waits (n fuel : nat) (db_path : string) (w : W * Devices) (gain : f32) (now : Z)
    (hs : list (list happening)) (cs : Calls) (v : BridgeWorker) :
  let s := (supervisor_loop n db_path (new_supervisor w gain now hs cs)).1 in
  let s' := (supervisor_loop fuel db_path (supervisor_turn db_path s).1).1 in
  v ∈ workers s -> w_done v = true -> w_last_error v <> "" ->
  steady_now s' < steady_now s + milliseconds 1000 -> w_address v ∉ w_address <$> workers s'.
Proof.
  intros s s' Hv Hd He Ht. assert (inv [] s) as Hs by apply loop_inv, new_supervisor_inv. subst s'.
  destruct (turn_holds db_path s v Hs Hv Hd He) as (t & Hle & Hh).
  destruct (supervisor_loop_keeps _ (inv_held_steady (w_address v) t) db_path (held_turn_safe _ t db_path) fuel _ Hh)
    as [_ [Hp|[Ha _]]]; [|done].
  unfold kBridgeWorkerFailureRetryDelay in Hle. lia.
Qed.
End Properties.

Section Database.
Context {W : Type} `{FileStoreLaws W} `{WinSystem} `{FloatText}.

(** ** The database *)

(** C14.  Over USB/IP (with the transport enabled), a scan never throws.  Either it failed, and then
    it is due again, and the wait that follows does not put it off for more than a second: the round
    goes on with the scan still due, or throws because the timer or the wait itself failed; a history
    in which it still waits at the end has less than a second after the two readings of the clock
    that arm the timer (histories are any, so also what happens up to some moment).  Or the file held a database, and now every worker either runs for a record of
    it, with the record's profile on a port it allows, or has been told to stop, while no worker
    that did run for one has been told to stop. *)
Theorem database_is_followed (n : nat) (db_path : string) (w : W * Devices) (gain : f32) (now : Z)
    (hs : list (list happening)) (cs : Calls) :
  usbip_transport_enabled = true ->
  let s := (supervisor_loop n db_path (new_supervisor w gain now hs cs)).1 in
  let '(s', r) := run_scan db_path s in
  r = Ok tt /\
  ((flag_of s' scan_requested = true /\ flag_of s' provider_retry_required = true /\
    retried_within (milliseconds 1000) db_path (set_reload_requested false s').1) \/
   exists db, parse_config_db (file_text db_path s) = Ok db /\
     (forall v, v ∈ workers s' -> w_stop_requested v = true \/
        exists c, c ∈ controllers db /\ address c = w_address v /\ profile c = w_profile v /\
                  controller_config_allows_port c (port v) = true) /\
     (forall v, v ∈ workers s -> w_stop_requested v = false -> matches db v = true ->
        exists v', v' ∈ workers s' /\ worker_id v' = worker_id v /\ w_stop_requested v' = false)).
Proof.
  intros Hu s. assert (inv [] s) as Hs by apply loop_inv, new_supervisor_inv.
  pose proof (run_scan_followed Hu db_path s Hs s eq_refl) as Ht.
  pose proof (run_scan_keeps _ (inv_steady []) db_path (inv_turn_safe db_path) s Hs) as Hs'.
  destruct (run_scan db_path s) as [s' [[]|e]]; [|done]. split; [done|].
  destruct Ht as [[Hd Hr]|(db & Hp & Hf & Hk)]; [left|right].
  { split; [done|]. split; [done|]. apply plan_wait_retried; [|done|done].
    by apply (frame_keeps _ (inv_steady []) _ (set_reload_frame (W := W) false)). }
  exists db. split; [done|]. rewrite Forall_forall in Hf. rewrite Forall_forall in Hk. split.
  - intros v Hv. destruct (Hf v Hv) as [Hst|Hm]; [by left|right]. unfold matches in Hm. rewrite db_map_lookup in Hm.
    destruct (find_by_normalized (controllers db) (w_address v)) as [c|] eqn:E; [|done].
    apply find_by_normalized_Some in E as [Hc Ha]. exists c. cbn in Hm.
    apply andb_true_iff in Hm as [Hpr Hal]. apply bool_decide_eq_true in Hpr. done.
  - intros v Hv Hst Hm. apply Hk. unfold kept_by. apply list_elem_of_fmap_2. by apply list_elem_of_filter.
Qed.

(** ** An expired backoff *)

(** C15.  A controller is taken out of the database while it waits for its second after a failure:
    nothing removes the wait.  Once the second is over the supervisor never waits again and never
    looks at the command pipe again: however long it runs, no command is answered, and only the
    service's stop request ends it. *)
Theorem expired_backoff_blocks_commands (n fuel : nat) (db_path : string) (w : W * Devices) (gain : f32) (now : Z)
    (hs : list (list happening)) (cs : Calls) (a : string) (t : Z) :
  let s := (supervisor_loop n db_path (new_supervisor w gain now hs cs)).1 in
  backoff_map (worker_failure_backoffs s) !! a = Some t -> t <= steady_now s -> (a ∉ w_address <$> workers s) ->
  db_lacks db_path a s ->
  let '(s', r) := supervisor_loop fuel db_path s in
  replied (pipe s') = replied (pipe s) /\ (r = Ok Running \/ r = Ok Stopped /\ g_stop_requested s' = true).
Proof.
  intros s Hb Ht Ha Hl. assert (inv [] s) as Hs by apply loop_inv, new_supervisor_inv.
  assert (K_db db_path a t (replied (pipe s)) s) as HK.
  { split; [|done]. split; [done|]. split; [by split|]. split; [|done]. by destruct Hs as [_ []]. }
  pose proof (loop_stuck db_path a t (replied (pipe s)) fuel s HK) as Hloop.
  destruct (supervisor_loop fuel db_path s) as [s' [x|e]]; [|done]. destruct Hloop as [[[_ [_ [_ Hq]]] _] Hx].
  split; [done|]. destruct Hx as [->|[-> Hx]]; [by left|by right].
Qed.
End Database.

(** ** Witnesses *)

Definition quoted (key value : string) : string :=
  let q := String "034" "" in q +:+ key +:+ q +:+ ":" +:+ q +:+ value +:+ q.
#[local] Instance sys : WinSystem := {| format_message _ := None; environment_variable _ := None |}.
#[local] Instance floats : FloatText := {| atof _ := mk_f32 5 0 |}.
#[local] Instance paths : WindowsPaths := {| windows_parent_path _ := "C:" |}.
Definition pad : string := "aa:bb:cc:dd:ee:0f".
Definition db_file : string := "C:\db".
(** A controller of the database is there, as a HID device of the Bluetooth service. *)
Definition files : WindowsFs := mk_win {[db_file := serialize_config_db (mk_db [mk_config pad Ds5 [0; 1]])]} false [].
Definition hid_device : HidInterface := mk_interface 100
  (Some "\\?\hid#{00001124-0000-1000-8000-00805f9b34fb}_vid&0002054c_pid&0ce6#7&1&0&aabbccddee0f#x") [].
Definition pad_devices : Devices :=
  mk_devices [] [] [] (replicate 20 (Some ("Pad", true))) (replicate 20 (Gives ([hid_device], 259)))
    (replicate 50 (Gives (mk_probe (Gives (0x054c, 0x0ce6)) true (Some (1, 5))))) [] [] [].
(** Its worker fails; it is detached and the status asked for within the second; the second passes. *)
Definition pad_story : list (list happening) :=
  [[Elapse 1]; [Elapse 5]; [Elapse 5]; [Elapse 5]; [Elapse 5]; [Elapse 5];
   [SessionEnds 0 (Throw "gone"); ThreadGoesOn 0; ThreadGoesOn 0]]
  ++ replicate 9 []
  ++ [[Command ("{" +:+ quoted "command" "detach" +:+ "," +:+ quoted "address" pad +:+ "}")]]
  ++ replicate 9 [Elapse 1000000] ++ [[Command ("{" +:+ quoted "command" "status" +:+ "}")]]
  ++ replicate 25 [Elapse 100000000].
Definition no_errors : Calls := mk_calls [] [] [] [] [] [] [].
Definition pad_start : Supervisor := new_supervisor (files, pad_devices) (mk_f32 50 0) 1000000000 pad_story no_errors.

(** The worker, once it has failed. *)
Definition failed_worker : BridgeWorker :=
  default (new_worker 0 "" Ds5 (mk_decision Ready (mk_config "" Ds5 []) 0 ""))
    (head (workers (supervisor_loop 1 db_file pad_start).1)).

Lemma failed_worker_waits_witness :
  let s := (supervisor_loop 1 db_file pad_start).1 in
  let s' := (supervisor_loop 1 db_file (supervisor_turn db_file s).1).1 in
  w_address failed_worker = pad /\ failed_worker ∈ workers s /\ length (replied (pipe s')) = 2%nat /\
  (w_address failed_worker ∉ w_address <$> workers s').
Proof.
  intros s s'. assert (failed_worker ∈ workers s) as Hw.
  { apply list_elem_of_In. vm_compute. by left. }
  split; [by vm_compute|]. split; [done|]. split; [by vm_compute|]. revert Hw. unfold s', s, pad_start. intros Hw.
  apply failed_worker_waits; [exact Hw|by vm_compute|by vm_compute|by vm_compute].
Defined.

Lemma database_is_followed_witness :
  let s := (supervisor_loop 1 db_file pad_start).1 in
  length (workers s) = 1%nat /\
  let '(s', r) := run_scan db_file s in
  r = Ok tt /\ (flag_of s' scan_requested = true \/ exists db, parse_config_db (file_text db_file s) = Ok db /\
    forall v, v ∈ workers s' -> w_stop_requested v = true \/
      exists c, c ∈ controllers db /\ address c = w_address v /\ profile c = w_profile v /\
                controller_config_allows_port c (port v) = true).
Proof.
  cbv zeta. split; [by vm_compute|].
  assert (usbip_transport_enabled (H := sys) = true) as Hu by (by vm_compute).
  pose proof (database_is_followed 1 db_file (files, pad_devices) (mk_f32 50 0) 1000000000 pad_story no_errors Hu) as Hd.
  cbv zeta in Hd. change (new_supervisor _ _ _ _ _) with pad_start in Hd.
  destruct (run_scan db_file _) as [s' r]. destruct Hd as [Hr Hd]. split; [exact Hr|].
  destruct Hd as [[Hf _]|(db & Hp & Hv & _)]; [by left|right]. exists db. by split.
Defined.

Lemma expired_backoff_blocks_commands_witness :
  let s := (supervisor_loop 4 db_file pad_start).1 in
  let '(s', r) := supervisor_loop 4 db_file s in
  replied (pipe s') = replied (pipe s) /\ (r = Ok Running \/ r = Ok Stopped /\ g_stop_requested s' = true).
Proof.
  apply (expired_backoff_blocks_commands 4 4 db_file (files, pad_devices) (mk_f32 50 0) 1000000000 pad_story no_errors
    pad 2000000026).
  - vm_cast_no_check (eq_refl (Some 2000000026)).
  - vm_compute. discriminate.
  - intros Ha%list_elem_of_In. vm_compute in Ha. destruct Ha.
  - vm_cast_no_check (eq_refl (@None (ControllerProfile * list Z))).
Defined.

(** The worker runs, the status is asked for, and that is all. *)
Definition idle_story : list (list happening) :=
  replicate 9 [Elapse 5] ++ [[Command ("{" +:+ quoted "command" "status" +:+ "}")]].
Definition idle : Supervisor (W := WindowsFs) :=
  (supervisor_loop 9 db_file (new_supervisor (files, pad_devices) (mk_f32 50 0) 1000000000 idle_story no_errors)).1.

Lemma waits_only_when_idle_witness :
  length (workers idle) = 1%nat /\ length (replied (pipe idle)) = 1%nat /\ requests (pipe idle) = [].
Proof.
  split; [by vm_compute|]. split; [by vm_compute|].
  apply (waits_only_when_idle 9 db_file (files, pad_devices) (mk_f32 50 0) 1000000000 idle_story no_errors idle).
  assert ((supervisor_loop 9 db_file (new_supervisor (files, pad_devices) (mk_f32 50 0) 1000000000 idle_story no_errors)).2
    = Ok Waiting) as E by (by vm_compute).
  unfold idle. destruct (supervisor_loop _ _ _) as [s r]. cbn in *. by rewrite E.
Defined.
